(* ===== verification/_CoqProject ===== *)
-Q . S2P
Prelude.v
ByteBuffer.v
Codec.v
ObjectGuid.v
Packets.v
Effects.v
Incoming.v
Channel.v
ChannelLogic.v
ChannelProps.v
ChannelRules.v
ChannelMgr.v
Multimap.v
EventMap.v
EventProcessor.v
AuthCrypt.v
UpdateMask.v
Timer.v
Social.v
Reputation.v
GuildData.v
Guild.v
GuildRoster.v
GuildHandlers.v
GuildPetitions.v
GuildInv.v
GuildKeep.v
GuildSteps.v
GuildOps.v
GuildFound.v
GuildLife.v
GuildProps.v
GuildAuthority.v
GuildRepair.v
GuildFlaws.v
GroupData.v
GroupRolls.v
GroupLists.v
LFG.v
Group.v
GroupRaid.v
GroupHandlers.v
MeetingStones.v
GroupLife.v
GroupInv.v
GroupCalm.v
GroupVotes.v
GroupMoves.v
GroupOps.v
GroupMembers.v
GroupEnds.v
GroupSteps.v
GroupServe.v
GroupOrders.v
GroupLives.v
GroupQueue.v
GroupHistory.v
GroupProps.v
GroupRules.v
GroupFlaws.v
QueueProps.v
GameEvents.v
WarEffort.v
GameEventLoad.v
WorldEvents.v
GameEventInv.v
GameEventKeep.v
GameEventStart.v
GameEventHistory.v
GameEventProps.v
WarEffortProps.v
