(* ===== verification/Prelude.v ===== *)
(** * Verification of the Windrunner WoW server core

    Windrunner is a World of Warcraft (1.12) server in C++.  This library
    models the parts of it that every other part is built on - the byte
    buffers and identifiers of the wire protocol, the header cipher, the
    event queues and timers that drive the world - and six complete services
    on top of them, chat channels, social lists, reputation, guilds, groups
    and the calendar of game events, and proves what makes them correct.

    ** The program and the files

    Every message is a [WorldPacket], a [ByteBuffer] with an opcode; every
    object is named by a 64 bit [ObjectGuid]; sessions encrypt packet headers
    with [AuthCrypt]; objects send their changed fields under an
    [UpdateMask]; scripts and creatures schedule work with [EventMap] and
    [EventProcessor], on the clock of [WorldTimer]; players talk in the
    [Channel]s a [ChannelMgr] owns per faction, keep friends and ignored
    players in a [PlayerSocial] and their standing with the factions in a
    [ReputationMgr], found, join and lead the [Guild]s a [GuildMgr]
    registers, by petitions and invitations, and play in [Group]s, parties and
    raids, which share out loot by rolls and turns and find their missing
    members in the [LFGQueue] of the meeting stones.  The [GameEventMgr] starts
    and stops the seasonal events of the world.

    - [Prelude] (this file): machine integers with explicit wrap-around, the
      outcome monad, its weakest preconditions, byte lists, the shared
      lemmas, hints and tactics.
    - [ByteBuffer]: [src/shared/ByteBuffer.h] and
      [src/framework/Utilities/ByteConverter.h].  The buffer's storage, read
      and write positions; every [operator<<] and [operator>>], [append],
      [put], [read], [read_skip], packed guids, containers.
    - [Codec]: the interface [Codec] of a writer and the reader that undoes
      it, its instances for the types above, and the buffer's theorems.
    - [ObjectGuid]: [src/game/ObjectGuid.h] and [.cpp], with the legacy guid
      macros, packed guids and the guid generator, and
      [src/shared/WorldPacket.h].
    - [Packets]: packets as programs on a [WorldPacket], and
      [ChatHandler::BuildChatPacket] of [src/game/Chat/Chat.cpp].
    - [Effects]: what the guild and group code sends to the rest of the server
      (packets, hooks, calls), statements on tables, loops.  [Incoming]: the
      packets of clients and the readers of handlers.
    - [Channel]: [src/game/Chat/Channel.h] and [.cpp], every command of a
      channel.  [ChannelLogic] is its program logic (invariant, frame and
      exact-result rules), [ChannelProps] the invariants over all command
      histories, [ChannelRules] the behaviour of the commands.
    - [ChannelMgr]: [src/game/Chat/ChannelMgr.h] and [.cpp].
    - [Multimap]: [std::multimap], used by the next two.
    - [EventMap]: [src/framework/Utilities/EventMap.h] and [.cpp].
    - [EventProcessor]: [src/framework/Utilities/EventProcessor.h] and [.cpp],
      with a heap of event objects, so that a use of a deleted event shows.
    - [AuthCrypt]: [src/shared/Auth/AuthCrypt.h] and [.cpp].
    - [UpdateMask]: [src/game/Objects/UpdateMask.h].
    - [Timer]: [src/shared/Timer.h], and the clock and time strings of
      [src/shared/Util.cpp].
    - [Social]: [src/game/SocialMgr.h] and [.cpp], with the table
      [character_social] it writes.
    - [Reputation]: [src/game/ReputationMgr.h] and [.cpp], with the faction
      record of [src/game/Database/DBCStructure.h] and the single precision
      product of spillover rates.
    - [GuildData]: the data of [src/game/Guild/Guild.h], the registry
      [src/game/Guild/GuildMgr.h] and [.cpp] with its petitions, the player
      fields the guild code uses, and the six tables it writes ([guild],
      [guild_member], [guild_rank], [guild_eventlog], [petition],
      [petition_sign]).
    - [Guild]: [src/game/Guild/Guild.cpp], the operations of a guild, from
      founding and loading to disbanding.  [GuildRoster]: its roster and query
      packets and their caches.
    - [GuildHandlers]: [src/game/Handlers/GuildHandler.cpp], the opcodes.
      [GuildPetitions]: [src/game/Handlers/PetitionsHandler.cpp], the guild
      part of login ([HandlePlayerLogin]), logout ([LogoutPlayer]), character
      deletion, hardcore death and destroyed charters, and the guild commands
      of [src/game/Commands/Commands.cpp].
    - [GuildInv]: the invariant [world_ok] and the lemmas that carry it over
      the elementary changes; [GuildKeep], [GuildSteps], [GuildOps],
      [GuildFound] and [GuildLife]: it is kept by the operations of a guild,
      by the frames of the handlers, by the guild opcodes, by the founding of
      guilds, and by petitions, commands, login and logout.
    - [GuildProps]: the histories of the guild server.  [GuildAuthority]: who
      may change what.  [GuildRepair]: loading broken data.  [GuildFlaws]:
      behaviour that is not what the code intends.
    - [GroupData]: the data of [src/game/Group/Group.h] and
      [GroupReference.h], the player fields the group code uses, the heap
      groups live on, the references between groups and players, and the
      tables [groups] and [group_member].  [GroupRolls]: loot rolls.
      [GroupLists]: what a group knows of its members and tells them.  [Group]:
      membership, leadership and invitations of
      [src/game/Group/Group.cpp].  [GroupRaid]: raid subgroups, roles, target
      icons, loot rules, hardcore checks and loading.  [GroupHandlers]:
      [src/game/Handlers/GroupHandler.cpp].  [GroupLife]: the group part of
      login, logout, character deletion, hardcore mode and the update of the
      world.
    - [LFG]: [src/game/LFG/LFGMgr.h] and [.cpp], the queues of players and
      groups, and the roles of the members of a group
      ([Group::CalculateLFGRoles]).  [MeetingStones]: [LFGQueue::Update], the
      opcodes of [src/game/Handlers/LFGHandler.cpp] and the script command of
      [src/game/Maps/ScriptCommands.cpp].  Groups call [LFG] when members come
      and go; [MeetingStones] makes groups and adds to them.
    - [GroupInv]: the view of a world that membership is about and the
      invariant on it.  [GroupCalm]: packets, and code that leaves the view
      alone.  [GroupVotes]: rolls.  [GroupMoves] and [GroupOps]: elementary
      changes of views, and the rules for programs that make them ([moves]).
      [GroupMembers], [GroupEnds] and [GroupSteps]: joining, leading, leaving,
      founding, disbanding, inviting.  [GroupServe], [GroupOrders],
      [GroupLives], [GroupQueue] and [GroupHistory]: the opcodes on membership,
      the orders in a raid, login and logout, the role queue, and the other
      opcodes and calls keep the invariant.
    - [GroupProps]: the histories of groups and what the invariant says in
      the words of the program.  [GroupRules]: rolls, leaders, icons, turns
      and joining.  [GroupFlaws]: behaviour that is not what the code intends.
      [QueueProps]: whom the role queue adds, in which order, and where it
      falls short.
    - [GameEvents]: [src/game/GameEventMgr.h] and [.cpp], dates, starting,
      stopping, the update, saved variables.  [GameEventLoad]: loading the
      calendar from the database.  [WorldEvents]: the events that are code, of
      [src/game/HardcodedEvents.h] and [.cpp], the event commands, the script
      command.  [WarEffort]: the largest of them, the opening of Ahn'Qiraj, with
      the resources of [src/scripts/events/event_wareffort.cpp].
    - [GameEventInv]: the arithmetic of dates and the invariant [calendar_ok].
      [GameEventKeep]: starting, stopping and updating keep it.
      [GameEventStart]: loading establishes it.  [GameEventHistory]: the
      events of code and all requests keep it.  [GameEventProps]: the theorems
      and behaviour that is not what the code intends.  [WarEffortProps]: the
      stages of the war effort.

    ** How code becomes definitions

    Pure functions are functions.  Code with state is a program of the monad
    [St S E A]: a state [S] goes in, and an [outcome] and a state come out.
    An outcome is a result, a thrown exception, a failed assertion ([Abort]),
    undefined behaviour ([UB]: out of bounds access, null or dangling
    pointers, division by zero, signed overflow) or a loop that ran out of
    fuel ([Diverge]); theorems on safety state that the last three do not
    occur.  [wp X m Q s] says that [m] started in [s] ends with a result and
    state in [Q], or throws in a state in [X].  A [uintN] is a [Z] wrapped by
    [wrap N].  [std::map] is [gmap] iterated in key order, [std::multimap] an
    ordered association list.  What lies outside the modelled files is a
    parameter: the endianness of the host, players and configuration
    ([ChannelEnv], [SocialEnv], [RepEnv], [GuildEnv], [PlayerEnv],
    [PetitionEnv], [GroupEnv]), random numbers, the clock, the iteration order of a hash
    map, the virtual methods of an event ([Methods]), the folding of channel
    names.

    A guild operation runs on the pair of the guild object and the world it
    belongs to (players by guid and by name, the registry, the index of
    members, the petitions, the tables) and on a log of the packets, bank
    calls and script hooks it sends out.  [with_guild] runs one on a
    registered guild, [with_new] on a fresh object.  The shared objects the
    C++ code reaches through pointers - a member slot, a player, a petition -
    are entries of the maps, so a change through one path is seen through
    every other.  A statement on a table is its effect on the rows: an
    [INSERT] on a taken key is refused.

    Groups, which the C++ code allocates, shares by pointers and deletes, live
    on a heap by address: following the address of a deleted group is undefined
    behaviour, and so is following a player who is gone.  The list of
    references of a group and the reference of each player are kept apart, as
    in the code, and only the invariant relates them.  Loot lives on a heap of
    its own, with the link from a roll to its loot.

    ** What is proved

    - Guilds: whatever sequence of the requests below reaches the server, each
      one returns or throws, and members, index, table and players agree, with one
      guild master per guild ([guild_histories]); promoting, demoting and
      removing respect rights and ranks ([rank_authority],
      [remove_authority]); the succession of a leader ([leader_succession]);
      the repair of loaded data ([structure_repaired]); the roster packet, its
      contents and its size ([roster_bounded]).
    - Groups: for requests in order ([group_allowed], see below) each one
      returns or throws ([group_histories]); references, slots, registry and
      table agree, nobody is in two groups ([group_membership]); registered
      groups are complete ([group_registry]); joining succeeds and is an
      append ([AddMember_joins]); the winner of a roll ([roll_winner]); ending
      and leaving rolls terminates and refines plain list functions
      ([EndRoll_terminates], [removeRolls_refined]); succession
      ([chooseLeader_rule]); icons ([SetTargetIcon_one]); turns
      ([looters_take_turns]).
    - The role queue: what an update does to the groups, old and new, while
      nobody who waits has a group ([queue_update]); the order in which players are served
      ([first_come_first_served]).
    - Game events: for a database and requests in order ([db_ok],
      [request_ok], see below) nothing is undefined and the books of the manager
      agree ([game_event_histories]); between two updates the events of the
      calendar run when their dates say so, if the dates say the same at the two
      readings of the clock that an update makes ([calendar_followed],
      [tick_missed]); yearly events come back in time ([yearly_return]); whether
      a stopped event is started again by the update that follows
      ([stop_undone]).  The war effort advances by one stage when it is due and
      never goes back ([war_effort_advances]), and exactly the events of its
      stage run ([war_effort_events]).
    - Wire format: what a writer writes, and the exact bytes, its reader
      returns, for a universe of wire types: integers, bools, strings, packed
      guids, sequences and containers ([codec_roundtrip]); readers never touch memory outside the
      buffer and throw instead ([reader_memory_safe]); the bytes do not depend
      on the host's byte order ([wire_format_portable]); [put] changes exactly
      the bytes it names ([put_patches_in_place]).
    - Identifiers: the fields of a guid can be read back, clamping is
      canonical, generated guids are fresh below the limit, the macros agree
      with the class.
    - Channels: at most one owner, the one it records, banned players stay
      out, commands of unprivileged players are refused without effect, the
      owner is protected from moderators, exact results of joining, speaking
      and listing, and the lifetime of channels.
    - Events: an [EventMap] refines an agenda whose items have an id, a group
      and a phase ([agenda_refined]); draining it in time order, a scheduled
      event fires ([event_fires]); an
      [EventProcessor] update runs every due event once, in order, without
      touching a deleted event, and returns.
    - Cipher: the client recovers each header and the server each stream of
      headers.  Masks, clock and timers.
    - Social lists: limits, agreement of list and table while nobody is put on
      both lists ([social_persisted]), what hidden friends show.
    - Reputation: the ranks partition the standings, the exact result of
      changing a reputation without spillover, and where that is undefined.

    The theorems of [GuildFlaws] and [GroupFlaws], [queued_into_two_groups],
    [hardcore_blocks_queue], [hardcore_pair], [kicked_for_no_area],
    [premade_left_out], [stop_undone], [tick_missed], [start_65537], [enable_stops],
    [absence_missing], [no_period], [midsummer_late], [stage_13],
    [self_ban_readmits], [gcd_cancels_group],
    [remove_other_flag_corrupts], [default_channels_stay], [rank_thresholds]
    and [forced_peace_undefined] record behaviour that differs from what the
    code or its comments intend.

    ** Bounds and assumptions

    A packet of a client has at most 65535 bytes ([arrived]: its size field
    has 16 bits), which is what keeps names and texts short.  [EnvOk] states
    what the guild code relies on of the rest of the server: every hash map
    iteration visits each key once and sorting permutes, escaping at most
    doubles a text, normalising bounds it, the event log has a positive
    length, cached names and the names of ranks are short, and the script hook
    on joining does not make or unmake a guild master.
    The histories of [guild_histories] exclude the commands invite and rank,
    which break the invariant ([invited_into_two_guilds],
    [second_guildmaster]), the chat broadcasts and the periodic update, which
    change no membership, and generated guild ids stay below 2^32.  A login is
    one step.
    [GroupEnvOk] states that iterations visit every key once, a random number
    is within its bounds and normalising a name bounds its length.  The
    histories of [group_histories] start from empty tables and exclude
    battlegrounds and the raids in them, players between maps and
    [SetupHardcoreMode], which break the invariant
    ([removed_between_maps_group], [hardcore_empty_group]); group ids stay
    below 2^32; loot is filled only while nobody rolls for it; and the role
    queue is updated while nobody who waits in it and is online has a group or
    an invitation ([waiting_free]), since it would add him to a second group
    ([queued_into_two_groups]).
    [game_event_histories] starts from a database in order ([db_ok]): ids below
    2^15, periods and lengths that are not zero in 32 bits, events of code
    that have a place in the calendar and are marked as code, and objects that
    are not in the world yet.  The clock is past 1970 and the ids of commands
    have 16 bits ([start_65537] shows why), and the saved variable of the stage
    of the war effort is only set to one of its 13 stages, by its command, by
    [.variable] or by scripts ([stage_13]).  [calendar_reached] is the worlds
    reached in this way; [calendar_followed], [stop_undone] and
    [war_effort_advances] are about them.  The clock of an environment gives a
    time for each reading and may move between any two.  The Scourge Invasion is a parameter that keeps the contract
    [WorldEventsOk]: it changes no event that is not code.

    ** Fuel

    Structural recursion is used wherever the loop allows it.  The loops that
    take fuel are: [CancelEventsByGCD], which restarts its scan after each
    removal and gets [gcd_fuel], a bound quadratic in the number of events;
    [EventProcessor::Update] and [KillAllEvents], which get one step more than
    the queue has events ([update_safe] and [kill_all] show that this is
    enough for callbacks that keep their contract); [Guild::Disband], which
    gets one step per member; [Group::_removeRolls], twice the number of rolls
    and one, and [EndRoll], the square of their number and one; and the digits of a
    number, 19, which holds every 63 bit value.  In each case a theorem shows
    that the fuel does not run out.

    ** What is not modelled

    Debug dumps and the coordinates packing of the buffer; the digest inside
    [GenerateKey]; locks; the guild bank (its calls are effects); and the game
    itself: maps, objects, combat, spells, AI, loot generation, auctions, mail,
    battlegrounds, scripts, the database and network layers and the login
    server.  Of groups: experience and honor of kills, bound instances (calls
    on them are effects), the statistics packets.  Of the group finders: the
    addon protocol of [src/game/LFT], which is text in chat messages.  Of game
    events: the Scourge Invasion, which moves creatures on maps, the creature
    scripts of the war effort, and pools, whose calls are effects.  Threat and
    honor compute in single precision, loot generation needs the templates of
    the world database. *)

From stdpp Require Export base gmap list strings sets sorting.
From Stdlib Require Export ZArith Lia.
From Stdlib Require Import Ascii.

#[global] Open Scope Z_scope.
Set Default Goal Selector "!".

(** ** Machine integers

    A [w]-bit unsigned C++ integer is a [Z] in [0 .. 2^w); every operation
    that can leave the range is wrapped explicitly with [wrap w].  Signed
    integers are two's complement, [swrap w]. *)

Definition wrap (w x : Z) : Z := x mod 2 ^ w.
Definition swrap (w x : Z) : Z := (x + 2 ^ (w - 1)) mod 2 ^ w - 2 ^ (w - 1).

Abbreviation u8 := (wrap 8).
Abbreviation u16 := (wrap 16).
Abbreviation u32 := (wrap 32).
Abbreviation u64 := (wrap 64).
Abbreviation s8 := (swrap 8).
Abbreviation s16 := (swrap 16).
Abbreviation s32 := (swrap 32).
Abbreviation s64 := (swrap 64).

(** [is_u w x]: [x] is a value of the unsigned type of width [w]. *)
Definition is_u (w x : Z) : Prop := 0 <= x < 2 ^ w.
(** [is_s w x]: [x] is a value of the signed type of width [w]. *)
Definition is_s (w x : Z) : Prop := - 2 ^ (w - 1) <= x < 2 ^ (w - 1).

#[global] Instance is_u_dec w x : Decision (is_u w x).
Proof. unfold is_u. apply _. Defined.
#[global] Instance is_s_dec w x : Decision (is_s w x).
Proof. unfold is_s. apply _. Defined.

(** A C++ integer used as a condition. *)
Definition truth (x : Z) : bool := negb (x =? 0).

Create HintDb machine.

Lemma pow2_pos w : 0 <= w -> 0 < 2 ^ w.
Proof. intros. apply Z.pow_pos_nonneg; lia. Qed.

Lemma wrap_range w x : 0 <= w -> is_u w (wrap w x).
Proof. intros H. unfold is_u, wrap. apply Z.mod_pos_bound, pow2_pos, H. Qed.

Lemma wrap_small w x : is_u w x -> wrap w x = x.
Proof. intros H. unfold wrap. apply Z.mod_small, H. Qed.

Lemma wrap_idem w x : 0 <= w -> wrap w (wrap w x) = wrap w x.
Proof. intros H. apply wrap_small, wrap_range, H. Qed.

Lemma swrap_small w x : 0 < w -> is_s w x -> swrap w x = x.
Proof.
  intros Hw [Hl Hu]. unfold swrap.
  assert (2 ^ w = 2 * 2 ^ (w - 1)).
  { rewrite <- Z.pow_succ_r by lia. f_equal. lia. }
  rewrite Z.mod_small; lia.
Qed.

Lemma swrap_wrap w x : 0 < w -> swrap w (wrap w x) = swrap w x.
Proof. intros Hw. unfold swrap, wrap. by rewrite Zplus_mod_idemp_l. Qed.

Lemma is_u_mono v w x : 0 <= v <= w -> is_u v x -> is_u w x.
Proof.
  intros Hvw [Hl Hu]. split; [lia|].
  assert (2 ^ v <= 2 ^ w) by (apply Z.pow_le_mono_r; lia). lia.
Qed.

#[export] Hint Resolve wrap_range : machine.
#[export] Hint Extern 1 (0 <= _) => lia : machine.
#[export] Hint Extern 1 (is_u _ _) => unfold is_u; lia : machine.

(** ** Bit-level facts *)

Lemma testbit_high w x i : is_u w x -> w <= i -> 0 <= w -> Z.testbit x i = false.
Proof.
  intros [Hl Hu] Hi Hw. destruct (decide (x = 0)) as [->|Hne].
  - apply Z.bits_0.
  - apply Z.bits_above_log2; [lia|].
    assert (Z.log2 x < w); [|lia]. apply Z.log2_lt_pow2; lia.
Qed.

Lemma is_u_of_bits w x :
  0 <= w -> 0 <= x -> (forall i, w <= i -> Z.testbit x i = false) -> is_u w x.
Proof.
  intros Hw Hx Hb. split; [done|].
  destruct (decide (x = 0)) as [->|Hne]; [by apply pow2_pos|].
  apply Z.log2_lt_pow2; [lia|].
  destruct (decide (Z.log2 x < w)); [done|].
  specialize (Hb (Z.log2 x)). rewrite Z.bit_log2 in Hb by lia.
  discriminate Hb. lia.
Qed.

Lemma is_u_lor w x y : 0 <= w -> is_u w x -> is_u w y -> is_u w (Z.lor x y).
Proof.
  intros Hw Hx Hy. apply is_u_of_bits; [done| |].
  - apply Z.lor_nonneg. destruct Hx, Hy. lia.
  - intros i Hi. rewrite Z.lor_spec. by rewrite !(testbit_high w).
Qed.

Lemma is_u_land_l w x y : 0 <= w -> is_u w x -> is_u w (Z.land x y).
Proof.
  intros Hw Hx. apply is_u_of_bits; [done| |].
  - apply Z.land_nonneg. destruct Hx. lia.
  - intros i Hi. rewrite Z.land_spec. by rewrite (testbit_high w).
Qed.

Lemma is_u_lxor w x y : 0 <= w -> is_u w x -> is_u w y -> is_u w (Z.lxor x y).
Proof.
  intros Hw Hx Hy. apply is_u_of_bits; [done| |].
  - apply Z.lxor_nonneg. destruct Hx, Hy. lia.
  - intros i Hi. rewrite Z.lxor_spec. by rewrite !(testbit_high w).
Qed.

Lemma land_ones_wrap w x : 0 <= w -> Z.land x (Z.ones w) = wrap w x.
Proof. intros. by rewrite Z.land_ones. Qed.

(** [x & (1 << i)] as a condition is the bit [i] of [x]. *)
Lemma truth_land_bit x i :
  0 <= i -> truth (Z.land x (Z.shiftl 1 i)) = Z.testbit x i.
Proof.
  intros Hi. unfold truth. rewrite Z.shiftl_1_l.
  destruct (Z.testbit x i) eqn:E.
  - apply negb_true_iff, Z.eqb_neq. intros H0.
    assert (Z.testbit (Z.land x (2 ^ i)) i = true) as Hb.
    { by rewrite Z.land_spec, Z.pow2_bits_true, E. }
    by rewrite H0, Z.bits_0 in Hb.
  - apply negb_false_iff, Z.eqb_eq. apply Z.bits_inj'. intros j Hj.
    rewrite Z.land_spec, Z.bits_0, Z.pow2_bits_eqb by lia.
    destruct (Z.eqb_spec i j) as [->|]; [by rewrite E|]. by rewrite andb_false_r.
Qed.

(** Or-ing fields that do not overlap is adding them. *)
Lemma lor_shiftl_add k a b : 0 <= k -> 0 <= a < 2 ^ k -> Z.lor a (Z.shiftl b k) = a + b * 2 ^ k.
Proof.
  intros Hk Ha. rewrite <- Z.shiftl_mul_pow2 by done.
  assert (Z.land a (Z.shiftl b k) = 0) as H0.
  { apply Z.bits_inj'. intros i Hi. rewrite Z.land_spec, Z.shiftl_spec, Z.bits_0 by done.
    destruct (decide (i < k)).
    - by rewrite (Z.testbit_neg_r b), andb_false_r by lia.
    - rewrite (testbit_high k a) by (unfold is_u; lia). done. }
  by rewrite Z.add_nocarry_lxor, Z.lxor_lor.
Qed.

(** [x & (2^w - 1)], the mask given as a literal. *)
Lemma land_mask w m x : 0 <= w -> m = 2 ^ w - 1 -> Z.land x m = x mod 2 ^ w.
Proof. intros Hw ->. rewrite <- Z.land_ones by done. by rewrite Z.ones_equiv. Qed.

#[export] Hint Resolve is_u_lor is_u_land_l is_u_lxor : machine.

(** ** Outcomes of C++ code

    [Throw]: a C++ exception; [Abort]: a failed [MANGOS_ASSERT] (it throws a
    [std::runtime_error] that nothing in the modelled code catches); [UB]:
    undefined behaviour, an access outside an object or a signed overflow;
    [Diverge]: a loop that used up its fuel.  Mutations made before an exception persist, so a stateful
    function returns its final state beside every outcome. *)

Inductive outcome (E A : Type) : Type :=
| Ok (a : A)
| Throw (e : E)
| Abort
| UB
| Diverge.
Arguments Ok {E A} a.
Arguments Throw {E A} e.
Arguments Abort {E A}.
Arguments UB {E A}.
Arguments Diverge {E A}.

#[global] Instance outcome_eq_dec E A `{EqDecision E, EqDecision A} :
  EqDecision (outcome E A).
Proof. solve_decision. Defined.

Definition St (S E A : Type) : Type := S -> outcome E A * S.

Definition st_ret {S E A} (a : A) : St S E A := fun s => (Ok a, s).
Definition st_bind {S E A B} (m : St S E A) (k : A -> St S E B) : St S E B :=
  fun s =>
    match m s with
    | (Ok a, s') => k a s'
    | (Throw e, s') => (Throw e, s')
    | (Abort, s') => (Abort, s')
    | (UB, s') => (UB, s')
    | (Diverge, s') => (Diverge, s')
    end.
Definition st_get {S E A} (f : S -> A) : St S E A := fun s => (Ok (f s), s).
Definition st_mod {S E} (f : S -> S) : St S E unit := fun s => (Ok tt, f s).
Definition st_throw {S E A} (e : E) : St S E A := fun s => (Throw e, s).

Declare Scope prog_scope.
Delimit Scope prog_scope with prog.
Notation "'let!' x ':=' m 'in' k" := (st_bind m (fun x => k))
  (at level 10, x pattern, m at level 100, k at level 200) : prog_scope.
Notation "m ';;;' k" := (st_bind m (fun _ => k))
  (at level 199, right associativity) : prog_scope.

Lemma st_bind_ok {S E A B} (m : St S E A) (k : A -> St S E B) s a s' :
  m s = (Ok a, s') -> st_bind m k s = k a s'.
Proof. intros H. unfold st_bind. by rewrite H. Qed.

Lemma st_bind_ret {S E A B} (a : A) (k : A -> St S E B) s :
  st_bind (st_ret a) k s = k a s.
Proof. done. Qed.

Lemma st_bind_get {S E A B} (f : S -> A) (k : A -> St S E B) s :
  st_bind (st_get f) k s = k (f s) s.
Proof. done. Qed.

Lemma st_bind_mod {S E B} (f : S -> S) (k : unit -> St S E B) s :
  st_bind (st_mod f) k s = k tt (f s).
Proof. done. Qed.

Lemma st_bind_assoc {S E A B C} (m : St S E A) (k : A -> St S E B) (h : B -> St S E C) s :
  st_bind (st_bind m k) h s = st_bind m (fun a => st_bind (k a) h) s.
Proof. unfold st_bind. by destruct (m s) as [[| | | |] ?]. Qed.

(** [safe P m]: from a state satisfying [P], [m] ends with a value or a C++
    exception (never aborting, never touching memory outside an object, never
    looping), in a state satisfying [P] again. *)
Definition settled {E A} (o : outcome E A) : Prop :=
  match o with Ok _ | Throw _ => True | _ => False end.

Definition safe {S E A} (P : S -> Prop) (m : St S E A) : Prop :=
  forall s, P s -> settled (m s).1 /\ P (m s).2.

Create HintDb safety.

Lemma safe_ret {S E A} (P : S -> Prop) (a : A) : safe P (st_ret (E:=E) a).
Proof. by intros s H. Qed.

Lemma safe_bind {S E A B} (P : S -> Prop) (m : St S E A) (k : A -> St S E B) :
  safe P m -> (forall a, safe P (k a)) -> safe P (st_bind m k).
Proof.
  intros Hm Hk s Hs. specialize (Hm s Hs). unfold st_bind.
  destruct (m s) as [[a|e| | |] s']; simpl in *; try tauto.
  apply (Hk a). tauto.
Qed.

Lemma safe_get {S E A} (P : S -> Prop) (f : S -> A) : safe P (st_get (E:=E) f).
Proof. by intros s H. Qed.

Lemma safe_if {S E A} (P : S -> Prop) (b : bool) (m1 m2 : St S E A) :
  safe P m1 -> safe P m2 -> safe P (if b then m1 else m2).
Proof. by destruct b. Qed.

#[export] Hint Resolve safe_ret safe_get safe_if : safety.
#[export] Hint Extern 2 (safe _ (st_bind _ _)) => apply safe_bind; [|intros ?] : safety.

(** ** Objects that log what they do

    The state of an object beside the list of its effects on the rest of the
    world.  [yields m c a c']: on the object [c], [m] returns the value [a] and
    leaves the object [c'], whatever it logs meanwhile. *)

Definition yields {C V E A} (m : St (C * list V) E A) (c : C) (a : A) (c' : C) : Prop :=
  forall log, exists evs, m (c, log) = (Ok a, (c', log ++ evs)).

Section yields_rules.
Context {C V E A B : Type}.
Implicit Types (c : C).

Lemma yields_ret (a : A) c : yields (st_ret a : St (C * list V) E A) c a c.
Proof. intros log. exists []. by rewrite app_nil_r. Qed.
Lemma yields_mod f c : yields (st_mod (fun s => (f s.1, s.2)) : St (C * list V) E unit) c tt (f c).
Proof. intros log. exists []. by rewrite app_nil_r. Qed.
Lemma yields_emit e c : yields (st_mod (fun s => (s.1, s.2 ++ [e])) : St (C * list V) E unit) c tt c.
Proof. intros log. by exists [e]. Qed.

Lemma yields_bind (m : St (C * list V) E A) (k : A -> St (C * list V) E B) c a c1 b c2 :
  yields m c a c1 -> yields (k a) c1 b c2 -> yields (st_bind m k) c b c2.
Proof.
  intros Hm Hk log. destruct (Hm log) as [e1 H1]. destruct (Hk (log ++ e1)) as [e2 H2].
  exists (e1 ++ e2). by rewrite (st_bind_ok _ _ _ _ _ H1), H2, app_assoc.
Qed.

Lemma yields_bind_get (f : C -> A) (k : A -> St (C * list V) E B) c b c' :
  yields (k (f c)) c b c' -> yields (st_bind (st_get (fun s => f s.1)) k) c b c'.
Proof. intros H log. apply H. Qed.

Lemma yields_bind_mod f (k : unit -> St (C * list V) E B) c b c' :
  yields (k tt) (f c) b c' -> yields (st_bind (st_mod (fun s => (f s.1, s.2))) k) c b c'.
Proof. intros H log. apply H. Qed.

Lemma yields_if (b : bool) (m1 m2 : St (C * list V) E A) c a1 c1 a2 c2 :
  yields m1 c a1 c1 -> yields m2 c a2 c2 ->
  yields (if b then m1 else m2) c (if b then a1 else a2) (if b then c1 else c2).
Proof. by destruct b. Qed.

(** [fails m c]: on the object [c], [m] runs into undefined behaviour. *)
Definition fails (m : St (C * list V) E A) (c : C) : Prop := forall log, (m (c, log)).1 = UB.
End yields_rules.

Section fails_rules.
Context {C V E A B : Type}.
Implicit Types (c : C) (k : A -> St (C * list V) E B).

Lemma fails_bind (m : St (C * list V) E A) k c : fails m c -> fails (st_bind m k) c.
Proof. intros H log. specialize (H log). unfold st_bind. destruct (m (c, log)) as [[] s]; by simpl in H. Qed.
Lemma fails_after (m : St (C * list V) E A) k c a c1 :
  yields m c a c1 -> fails (k a) c1 -> fails (st_bind m k) c.
Proof. intros Hm Hk log. destruct (Hm log) as [evs Hl]. by rewrite (st_bind_ok _ _ _ _ _ Hl). Qed.
Lemma fails_bind_get (f : C -> A) k c :
  fails (k (f c)) c -> fails (st_bind (st_get (fun s => f s.1)) k) c.
Proof. intros H log. apply H. Qed.
End fails_rules.

(** ** Weakest preconditions

    [wp X m Q c]: from the object [c], [m] returns with [Q] or throws with [X];
    no assertion fails, nothing undefined happens, no loop runs out of fuel. *)

Section wp_rules.
Context {C V E : Type} (X : C -> Prop).

Definition wp {A} (m : St (C * list V) E A) (Q : A -> C -> Prop) (c : C) : Prop :=
  forall log,
    match m (c, log) with
    | (Ok a, s) => Q a s.1
    | (Throw _, s) => X s.1
    | (Abort, _) | (UB, _) | (Diverge, _) => False
    end.

Lemma wp_conseq {A} (m : St (C * list V) E A) (Q Q' : A -> C -> Prop) c :
  wp m Q c -> (forall a c', Q a c' -> Q' a c') -> wp m Q' c.
Proof. intros Hm HQ log. specialize (Hm log). destruct (m (c, log)) as [[] s]; auto. Qed.

Lemma wp_and {A} (m : St (C * list V) E A) (Q1 Q2 : A -> C -> Prop) c :
  wp m Q1 c -> wp m Q2 c -> wp m (fun a c' => Q1 a c' /\ Q2 a c') c.
Proof. intros H1 H2 log. specialize (H1 log). specialize (H2 log). by destruct (m (c, log)) as [[] s]. Qed.

Lemma wp_ret {A} (a : A) (Q : A -> C -> Prop) c : Q a c -> wp (st_ret a) Q c.
Proof. by intros H log. Qed.

Lemma wp_bind {A B} (m : St (C * list V) E A) (k : A -> St (C * list V) E B) Q c :
  wp m (fun a => wp (k a) Q) c -> wp (st_bind m k) Q c.
Proof.
  intros Hm log. specialize (Hm log). unfold st_bind.
  destruct (m (c, log)) as [[a|e| | |] [c' l]]; simpl in *; [apply Hm|done..].
Qed.

Lemma wp_get {A B} (f : C -> A) (k : A -> St (C * list V) E B) Q c :
  wp (k (f c)) Q c -> wp (st_bind (st_get (fun s => f s.1)) k) Q c.
Proof. intros H log. apply H. Qed.

Lemma wp_mod f (Q : unit -> C -> Prop) c : Q tt (f c) -> wp (st_mod (fun s => (f s.1, s.2))) Q c.
Proof. by intros H log. Qed.

Lemma wp_emit e (Q : unit -> C -> Prop) c : Q tt c -> wp (st_mod (fun s => (s.1, s.2 ++ [e]))) Q c.
Proof. by intros H log. Qed.

Lemma wp_yields {A} (m : St (C * list V) E A) (Q : A -> C -> Prop) c a c' :
  yields m c a c' -> Q a c' -> wp m Q c.
Proof. intros Hm HQ log. destruct (Hm log) as [evs ->]. done. Qed.
End wp_rules.

(** Code that only logs, whatever the object: it leaves the object alone. *)
Definition logs_only {C V E A} (m : St (C * list V) E A) : Prop :=
  forall c X, wp X m (fun _ c' => c' = c) c.

Section logs_rules.
Context {C V E : Type}.

Lemma logs_ret {A} (a : A) : logs_only (st_ret a : St (C * list V) E A).
Proof. intros c X. by apply wp_ret. Qed.
Lemma logs_emit e : logs_only (st_mod (fun s => (s.1, s.2 ++ [e])) : St (C * list V) E unit).
Proof. intros c X. by apply wp_emit. Qed.
Lemma logs_bind {A B} (m : St (C * list V) E A) (k : A -> St (C * list V) E B) :
  logs_only m -> (forall a, logs_only (k a)) -> logs_only (st_bind m k).
Proof.
  intros Hm Hk c X. apply wp_bind. eapply wp_conseq; [apply Hm|]. intros a c' ->. apply Hk.
Qed.
Lemma logs_get {A} (f : C -> A) : logs_only (st_get (fun s => f s.1) : St (C * list V) E A).
Proof. by intros c X log. Qed.
Lemma logs_if {A} (b : bool) (m1 m2 : St (C * list V) E A) :
  logs_only m1 -> logs_only m2 -> logs_only (if b then m1 else m2).
Proof. by destruct b. Qed.
Lemma wp_logs {A} X (m : St (C * list V) E A) (Q : A -> C -> Prop) c :
  logs_only m -> (forall a, Q a c) -> wp X m Q c.
Proof. intros Hm HQ. eapply wp_conseq; [apply Hm|]. by intros a c' ->. Qed.
End logs_rules.

Create HintDb logs.
#[export] Hint Resolve logs_ret logs_emit logs_get logs_if : logs.
#[export] Hint Extern 2 (logs_only (st_bind _ _)) => apply logs_bind; [|intros ?] : logs.

(** ** Lists as memory

    [splice pos src l]: [memcpy] of [src] over [l] at offset [pos], which the
    caller has checked to be inside [l]. *)

Definition splice {A} (pos : nat) (src l : list A) : list A :=
  take pos l ++ src ++ drop (pos + length src) l.

(** [slice pos n l]: the [n] elements of [l] from offset [pos]. *)
Definition slice {A} (pos n : nat) (l : list A) : list A := take n (drop pos l).

Section lists.
Context {A : Type}.
Implicit Types l src : list A.

Lemma length_splice pos src l :
  (pos + length src <= length l)%nat -> length (splice pos src l) = length l.
Proof. intros H. unfold splice. rewrite !length_app, length_take, length_drop. lia. Qed.

Lemma slice_splice_eq pos src l :
  (pos <= length l)%nat -> slice pos (length src) (splice pos src l) = src.
Proof.
  intros H. unfold slice, splice. rewrite drop_app_ge by (rewrite length_take; lia).
  rewrite length_take, (Nat.min_l pos) by lia. rewrite Nat.sub_diag.
  change (drop 0 ?x) with x. by rewrite take_app_length.
Qed.

Lemma slice_splice_before pos q n src l :
  (q + n <= pos)%nat -> (pos <= length l)%nat ->
  slice q n (splice pos src l) = slice q n l.
Proof.
  intros H Hl. unfold slice, splice.
  rewrite drop_app_le by (rewrite length_take; lia).
  rewrite take_app_le by (rewrite length_drop, length_take; lia).
  rewrite drop_take_drop || rewrite skipn_firstn_comm.
  rewrite take_take, Nat.min_l by lia. done.
Qed.

Lemma splice_end src l : splice (length l) src l = l ++ src.
Proof.
  unfold splice. rewrite take_ge, drop_ge by lia. by rewrite app_nil_r.
Qed.

Lemma slice_app pos n m l :
  slice pos (n + m) l = slice pos n l ++ slice (pos + n) m l.
Proof.
  unfold slice. rewrite <- drop_drop, <- (take_drop n (take (n + m) (drop pos l))).
  f_equal.
  - rewrite take_take. f_equal. lia.
  - rewrite skipn_firstn_comm. f_equal. lia.
Qed.

Lemma Forall_slice (P : A -> Prop) pos n l : Forall P l -> Forall P (slice pos n l).
Proof. intros H. unfold slice. by apply Forall_take, Forall_drop. Qed.

Lemma Forall_splice (P : A -> Prop) pos src l :
  Forall P l -> Forall P src -> Forall P (splice pos src l).
Proof.
  intros Hl Hs. unfold splice. rewrite !Forall_app.
  split_and!; auto using Forall_take, Forall_drop.
Qed.
End lists.

Lemma filter_all {A} (P : A -> Prop) `{forall x, Decision (P x)} l : Forall P l -> filter P l = l.
Proof. induction 1 as [|x l Hx _ IH]; [done|]. by rewrite filter_cons_True, IH. Qed.

Lemma Forall_filter {A} (P Q : A -> Prop) `{forall x, Decision (P x)} l : Forall Q l -> Forall Q (filter P l).
Proof. rewrite !Forall_forall. intros HQ x [_ Hx]%list_elem_of_filter. auto. Qed.

Lemma filter_none {A} (P : A -> Prop) `{forall x, Decision (P x)} l :
  Forall (fun x => ~ P x) l -> filter P l = [].
Proof. induction 1 as [|x l Hx _ IH]; [done|]. by rewrite filter_cons_False. Qed.

(** The keys of a [std::map] in iteration order. *)
Definition sorted_keys {A} (m : gmap Z A) : list Z := merge_sort Z.le (map_to_list m).*1.

Lemma elem_of_sorted_keys {A} (m : gmap Z A) k : k ∈ sorted_keys m <-> is_Some (m !! k).
Proof.
  unfold sorted_keys. rewrite merge_sort_Permutation, list_elem_of_fmap. split.
  - intros ([k' v] & -> & H%elem_of_map_to_list). simpl. eauto.
  - intros [v H]. exists (k, v). split; [done|]. by apply elem_of_map_to_list.
Qed.

Lemma NoDup_sorted_keys {A} (m : gmap Z A) : NoDup (sorted_keys m).
Proof. unfold sorted_keys. rewrite merge_sort_Permutation. apply NoDup_fst_map_to_list. Qed.

(** ** Strings

    A [std::string] is a Rocq [string] of its bytes. *)

(** The bytes of a string. *)
Fixpoint bytes_of_string (s : string) : list Z :=
  match s with
  | EmptyString => []
  | String c s' => Z.of_N (Ascii.N_of_ascii c) :: bytes_of_string s'
  end.

Lemma bytes_of_string_u8 s : Forall (is_u 8) (bytes_of_string s).
Proof.
  induction s as [|c s IH]; simpl; constructor; [|done].
  pose proof (Ascii.N_ascii_bounded c). unfold is_u. lia.
Qed.

Lemma length_bytes_of_string s : length (bytes_of_string s) = String.length s.
Proof. induction s; simpl; auto. Qed.

(** ** Tactics *)

(** Split every boolean conjunction, disjunction and comparison in sight. *)
Ltac bool_prop :=
  repeat match goal with
  | H : _ && _ = true |- _ => apply andb_true_iff in H as [? ?]
  | H : _ || _ = false |- _ => apply orb_false_iff in H as [? ?]
  | H : negb _ = true |- _ => apply negb_true_iff in H
  | H : negb _ = false |- _ => apply negb_false_iff in H
  | H : (_ =? _) = true |- _ => apply Z.eqb_eq in H
  | H : (_ =? _) = false |- _ => apply Z.eqb_neq in H
  | H : (_ <? _) = true |- _ => apply Z.ltb_lt in H
  | H : (_ <? _) = false |- _ => apply Z.ltb_ge in H
  | H : (_ <=? _) = true |- _ => apply Z.leb_le in H
  | H : (_ <=? _) = false |- _ => apply Z.leb_gt in H
  | H : (_ >? _) = true |- _ => rewrite Z.gtb_ltb in H
  | H : (_ >? _) = false |- _ => rewrite Z.gtb_ltb in H
  end.

(** Case analysis on the first [if]/[match] of the goal, keeping its equation. *)
Ltac split_ifs := repeat (case_match; simplify_eq/=).
