(* ===== verification/ByteBuffer.v ===== *)
(** * ByteBuffer: the packet buffer every message goes through

    Model of [src/shared/ByteBuffer.h] with the byte-order conversion of
    [src/framework/Utilities/ByteConverter.h].  A buffer is its storage (a
    list of bytes) with a read and a write position; [size_t] arithmetic wraps
    at 64 bits.  Floating-point values travel as their bit patterns, that is
    as [uint32] and [uint64]. *)

From S2P Require Import Prelude.

Local Open Scope prog_scope.

(** ** Byte order *)

Module ByteConverter.

Inductive endian := MANGOS_LITTLEENDIAN | MANGOS_BIGENDIAN.

(** [convert<T>]: swap the outer bytes, recurse on the inner [T - 2]. *)
Fixpoint convert (T : nat) (val : list Z) : list Z :=
  match T, val with
  | S (S T'), x :: rest =>
      match last rest with
      | Some y => y :: convert T' (removelast rest) ++ [x]
      | None => val
      end
  | _, _ => val
  end.

(** [EndianConvert]: reverses the object's bytes on a big-endian build. *)
Definition EndianConvert (e : endian) (val : list Z) : list Z :=
  match e with
  | MANGOS_BIGENDIAN => convert (length val) val
  | MANGOS_LITTLEENDIAN => val
  end.

Lemma convert_rev T val : length val = T -> convert T val = rev val.
Proof.
  revert val. induction T as [[|[|T]] IH] using lt_wf_ind; intros val Hl.
  - by destruct val.
  - by destruct val as [|x [|]].
  - destruct val as [|x rest]; [done|].
    destruct rest as [|y rest _] using rev_ind; [done|].
    simpl. rewrite last_snoc, removelast_last, rev_app_distr. simpl.
    rewrite IH; [done|lia|]. simpl in Hl. rewrite length_app in Hl. simpl in Hl. lia.
Qed.

End ByteConverter.
Export ByteConverter.

(** The [n] bytes of [v], least significant first, and the value they denote. *)
Fixpoint le_bytes (n : nat) (v : Z) : list Z :=
  match n with
  | O => []
  | S n' => v mod 256 :: le_bytes n' (v / 256)
  end.

Fixpoint le_val (l : list Z) : Z :=
  match l with
  | [] => 0
  | x :: l' => x + 256 * le_val l'
  end.

(** The object representation of an [n]-byte integer in the host's memory. *)
Definition object_bytes (e : endian) (n : nat) (v : Z) : list Z :=
  match e with
  | MANGOS_LITTLEENDIAN => le_bytes n v
  | MANGOS_BIGENDIAN => rev (le_bytes n v)
  end.
Definition object_value (e : endian) (l : list Z) : Z :=
  match e with
  | MANGOS_LITTLEENDIAN => le_val l
  | MANGOS_BIGENDIAN => le_val (rev l)
  end.

(** ** The buffer *)

(** [ByteBufferException(add, pos, esize, size)]. *)
Record ByteBufferException := mkBBE { e_add : bool; e_pos : Z; e_esize : Z; e_size : Z }.

#[global] Instance BBE_eq_dec : EqDecision ByteBufferException.
Proof. solve_decision. Defined.

Record ByteBuffer := mkBB { _rpos : Z; _wpos : Z; _storage : list Z }.

#[global] Instance BB_eq_dec : EqDecision ByteBuffer.
Proof. solve_decision. Defined.

Definition BB (A : Type) : Type := St ByteBuffer ByteBufferException A.

Definition size (b : ByteBuffer) : Z := Z.of_nat (length (_storage b)).
Definition empty_bb (b : ByteBuffer) : bool := bool_decide (_storage b = []).

(** [ByteBuffer()], [ByteBuffer(size_t)]: reserving changes no contents. *)
Definition ByteBuffer_new : ByteBuffer := mkBB 0 0 [].

Definition clear (b : ByteBuffer) : ByteBuffer := mkBB 0 0 [].

Definition set_rpos (rpos_ : Z) (b : ByteBuffer) : ByteBuffer :=
  mkBB rpos_ (_wpos b) (_storage b).
Definition set_wpos (wpos_ : Z) (b : ByteBuffer) : ByteBuffer :=
  mkBB (_rpos b) wpos_ (_storage b).
Definition rfinish (b : ByteBuffer) : ByteBuffer := set_rpos (_wpos b) b.

(** [std::vector::resize]: truncates, or appends zero bytes. *)
Definition vec_resize (n : nat) (l : list Z) : list Z :=
  take n l ++ replicate (n - length l) 0.

Definition resize (newsize : Z) (b : ByteBuffer) : ByteBuffer :=
  let st := vec_resize (Z.to_nat newsize) (_storage b) in
  mkBB 0 (Z.of_nat (length st)) st.

(** [memcpy(&_storage[pos], src, cnt)]: outside the vector it is undefined. *)
Definition store_at (pos : Z) (src : list Z) : BB unit := fun b =>
  if bool_decide (0 <= pos /\ pos + Z.of_nat (length src) <= size b)
  then (Ok tt, mkBB (_rpos b) (_wpos b) (splice (Z.to_nat pos) src (_storage b)))
  else (UB, b).

(** The [n] bytes at [&_storage[pos]]: outside the vector it is undefined. *)
Definition load_at (pos : Z) (n : nat) : BB (list Z) := fun b =>
  if bool_decide (0 <= pos /\ pos + Z.of_nat n <= size b)
  then (Ok (slice (Z.to_nat pos) n (_storage b)), b)
  else (UB, b).

(** [append(const uint8* src, size_t cnt)]. *)
Definition append_bytes (src : list Z) : BB unit := fun b =>
  let cnt := Z.of_nat (length src) in
  if cnt =? 0 then (Ok tt, b)
  else if negb (size b <? 10000000) then (Abort, b)
  else
    let need := u64 (_wpos b + cnt) in
    let b1 := if size b <? need
              then mkBB (_rpos b) (_wpos b) (vec_resize (Z.to_nat need) (_storage b))
              else b in
    (store_at (_wpos b1) src ;;;
     st_mod (fun b2 => set_wpos (u64 (_wpos b2 + cnt)) b2)) b1.

(** [put(size_t pos, const uint8* src, size_t cnt)]. *)
Definition put_bytes (pos : Z) (src : list Z) : BB unit := fun b =>
  let cnt := Z.of_nat (length src) in
  if u64 (pos + cnt) >? size b then (Throw (mkBBE true pos cnt (size b)), b)
  else store_at pos src b.

(** [read_skip(size_t skip)]. *)
Definition read_skip (skip : Z) : BB unit := fun b =>
  if u64 (_rpos b + skip) >? size b then (Throw (mkBBE false (_rpos b) skip (size b)), b)
  else (Ok tt, set_rpos (u64 (_rpos b + skip)) b).

(** [read(uint8* dest, size_t len)]. *)
Definition read_bytes (len : nat) : BB (list Z) := fun b =>
  if u64 (_rpos b + Z.of_nat len) >? size b
  then (Throw (mkBBE false (_rpos b) (Z.of_nat len) (size b)), b)
  else
    (let! l := load_at (_rpos b) len in
     st_mod (fun b' => set_rpos (u64 (_rpos b' + Z.of_nat len)) b') ;;;
     st_ret l) b.

(** *** Typed access, [append<T>], [put<T>], [read<T>]; the build's byte
    order is a parameter of the section. *)

Section typed.
Context (e : endian).

Definition append_T (n : nat) (value : Z) : BB unit :=
  append_bytes (EndianConvert e (object_bytes e n value)).

Definition put_T (n : nat) (pos value : Z) : BB unit :=
  put_bytes pos (EndianConvert e (object_bytes e n value)).

Definition read_T_at (n : nat) (pos : Z) : BB Z := fun b =>
  if u64 (pos + Z.of_nat n) >? size b
  then (Throw (mkBBE false pos (Z.of_nat n) (size b)), b)
  else
    (let! l := load_at pos n in
     st_ret (object_value e (EndianConvert e l))) b.

Definition read_T (n : nat) : BB Z := fun b =>
  (let! r := read_T_at n (_rpos b) in
   st_mod (fun b' => set_rpos (u64 (_rpos b' + Z.of_nat n)) b') ;;;
   st_ret r) b.
End typed.

(** The byte order of the supported builds (x86, [Platform/Define.h]). *)
Definition MANGOS_ENDIAN : endian := MANGOS_LITTLEENDIAN.

(** *** The stream operators *)

Definition write_u8 (v : Z) : BB unit := append_T MANGOS_ENDIAN 1 v.
Definition write_u16 (v : Z) : BB unit := append_T MANGOS_ENDIAN 2 v.
Definition write_u32 (v : Z) : BB unit := append_T MANGOS_ENDIAN 4 v.
Definition write_u64 (v : Z) : BB unit := append_T MANGOS_ENDIAN 8 v.
Definition write_i8 (v : Z) : BB unit := append_T MANGOS_ENDIAN 1 v.
Definition write_i16 (v : Z) : BB unit := append_T MANGOS_ENDIAN 2 v.
Definition write_i32 (v : Z) : BB unit := append_T MANGOS_ENDIAN 4 v.
Definition write_i64 (v : Z) : BB unit := append_T MANGOS_ENDIAN 8 v.
(** [float] and [double] values are given by their bit patterns. *)
Definition write_float (bits : Z) : BB unit := append_T MANGOS_ENDIAN 4 bits.
Definition write_double (bits : Z) : BB unit := append_T MANGOS_ENDIAN 8 bits.

Definition read_u8 : BB Z := read_T MANGOS_ENDIAN 1.
Definition read_u16 : BB Z := read_T MANGOS_ENDIAN 2.
Definition read_u32 : BB Z := read_T MANGOS_ENDIAN 4.
Definition read_u64 : BB Z := read_T MANGOS_ENDIAN 8.
Definition read_i8 : BB Z := let! v := read_T MANGOS_ENDIAN 1 in st_ret (s8 v).
Definition read_i16 : BB Z := let! v := read_T MANGOS_ENDIAN 2 in st_ret (s16 v).
Definition read_i32 : BB Z := let! v := read_T MANGOS_ENDIAN 4 in st_ret (s32 v).
Definition read_i64 : BB Z := let! v := read_T MANGOS_ENDIAN 8 in st_ret (s64 v).
Definition read_float : BB Z := read_T MANGOS_ENDIAN 4.
Definition read_double : BB Z := read_T MANGOS_ENDIAN 8.

(** [operator[](size_t pos)]. *)
Definition index_u8 (pos : Z) : BB Z := read_T_at MANGOS_ENDIAN 1 pos.

(** [operator<<(std::string const&)]: the characters and a NUL. *)
Definition write_string (value : list Z) : BB unit :=
  append_bytes value ;;; write_u8 0.

(** [operator<<(char const* str)]: [None] is the null pointer, the characters
    are those before the first NUL of the array. *)
Fixpoint strlen_prefix (s : list Z) : list Z :=
  match s with
  | [] => []
  | c :: s' => if c =? 0 then [] else c :: strlen_prefix s'
  end.

Definition write_cstr (str : option (list Z)) : BB unit :=
  append_bytes (match str with Some s => strlen_prefix s | None => [] end) ;;; write_u8 0.

(** [append(std::string const& str)]: [str.size() + 1] bytes of [c_str()]. *)
Definition append_string (str : list Z) : BB unit := append_bytes (str ++ [0]).

(** [operator<<(bool const&)] and [operator>>(bool&)]: [char] is signed. *)
Definition write_bool (v : bool) : BB unit := append_bytes [if v then 1 else 0].
Definition read_bool : BB bool := let! v := read_i8 in st_ret (v >? 0).

(** [operator>>(std::string&)]: [value] is the string's previous contents,
    kept when the read position is already at the end.  The loop runs at most
    once per byte of the buffer, which is the fuel it is given. *)
Fixpoint cstr_loop (fuel : nat) : BB unit := fun b =>
  match fuel with
  | O => (Diverge, b)
  | S fuel' =>
      (let! c := load_at (_rpos b) 1 in
       if bool_decide (c = [0]) then st_ret tt
       else fun b1 =>
         let b2 := set_rpos (u64 (_rpos b1 + 1)) b1 in
         if u64 (_rpos b2 + 1) >? size b2
         then (Throw (mkBBE false (_rpos b2) 1 (size b2)), b2)
         else cstr_loop fuel' b2) b
  end.

Definition read_string (value : list Z) : BB (list Z) := fun b =>
  if _rpos b <? size b then
    let startPos := _rpos b in
    (cstr_loop (S (length (_storage b))) ;;;
     let! endPos := st_get _rpos in
     let! v := load_at startPos (Z.to_nat (endPos - startPos)) in
     st_mod (fun b' => set_rpos (u64 (_rpos b' + 1)) b') ;;;
     st_ret v) b
  else (Ok value, b).

(** [read_skip<char*>()], which the [char const*] and [std::string]
    specialisations call. *)
Definition read_skip_cstr : BB unit :=
  let! _ := read_string [] in st_ret tt.

(** *** Packed GUIDs *)

(** [readPackGUID]: a mask byte, then one byte per set bit. *)
Fixpoint readPackGUID_loop (n : nat) (i guidmark guid : Z) : BB Z :=
  match n with
  | O => st_ret guid
  | S n' =>
      if truth (Z.land guidmark (u8 (Z.shiftl 1 i))) then
        let! bit := read_u8 in
        readPackGUID_loop n' (i + 1) guidmark (Z.lor guid (u64 (Z.shiftl bit (i * 8))))
      else readPackGUID_loop n' (i + 1) guidmark guid
  end.

Definition readPackGUID : BB Z :=
  let! guidmark := read_u8 in
  readPackGUID_loop 8 0 guidmark 0.

(** [appendPackGUID]: the array [packGUID[8+1]] is written at index [size];
    [None] is a write past its end. *)
Record pack_state := mkPack { pk_arr : list Z; pk_size : nat; pk_guid : Z }.

Definition pack_step (i : Z) (p : pack_state) : option pack_state :=
  let low := Z.land (pk_guid p) 255 in
  if truth low then
    if bool_decide (pk_size p < length (pk_arr p))%nat then
      let mask := match pk_arr p !! 0%nat with Some m => m | None => 0 end in
      let arr := <[0%nat := Z.lor mask (u8 (Z.shiftl 1 i))]> (pk_arr p) in
      Some (mkPack (<[pk_size p := u8 low]> arr) (S (pk_size p)) (Z.shiftr (pk_guid p) 8))
    else None
  else Some (mkPack (pk_arr p) (pk_size p) (Z.shiftr (pk_guid p) 8)).

Fixpoint pack_loop (fuel : nat) (i : Z) (p : pack_state) : outcome ByteBufferException pack_state :=
  if pk_guid p =? 0 then Ok p
  else
    match fuel with
    | O => Diverge
    | S fuel' =>
        match pack_step i p with
        | None => UB
        | Some p' => pack_loop fuel' (u8 (i + 1)) p'
        end
    end.

Definition appendPackGUID (guid : Z) : BB unit := fun b =>
  match pack_loop 9 0 (mkPack (replicate 9 0) 1 guid) with
  | Ok p => append_bytes (take (pk_size p) (pk_arr p)) b
  | Throw e => (Throw e, b)
  | Abort => (Abort, b)
  | UB => (UB, b)
  | Diverge => (Diverge, b)
  end.

(** [append(ByteBuffer const&)]: the written prefix of the other buffer. *)
Definition append_buffer (other : ByteBuffer) : BB unit := fun b =>
  if truth (_wpos other) then
    match load_at 0 (Z.to_nat (_wpos other)) other with
    | (Ok l, _) => append_bytes l b
    | _ => (UB, b)
    end
  else (Ok tt, b).

(** *** Containers *)

Fixpoint write_each {A} (wr : A -> BB unit) (v : list A) : BB unit :=
  match v with
  | [] => st_ret tt
  | x :: v' => wr x ;;; write_each wr v'
  end.

(** [operator<<] on [std::vector], [std::list] and (with pairs) [std::map]. *)
Definition write_container {A} (wr : A -> BB unit) (v : list A) : BB unit :=
  write_u32 (u32 (Z.of_nat (length v))) ;;; write_each wr v.

Fixpoint read_each {A} (rd : BB A) (n : nat) (acc : list A) : BB (list A) :=
  match n with
  | O => st_ret acc
  | S n' => let! t := rd in read_each rd n' (acc ++ [t])
  end.

(** [operator>>] on [std::vector] and [std::list]: [while (vsize--)]. *)
Definition read_container {A} (rd : BB A) : BB (list A) :=
  let! vsize := read_u32 in
  read_each rd (Z.to_nat vsize) [].

(** ** Facts about bytes *)

Lemma length_le_bytes n v : length (le_bytes n v) = n.
Proof. revert v. induction n; intros; simpl; auto. Qed.

Lemma le_bytes_u8 n v : Forall (is_u 8) (le_bytes n v).
Proof.
  revert v. induction n; intros; simpl; constructor; auto.
  apply Z.mod_pos_bound. lia.
Qed.

Lemma le_val_le_bytes n v : le_val (le_bytes n v) = wrap (8 * Z.of_nat n) v.
Proof.
  revert v. induction n as [|n IH]; intros v.
  - cbn [le_bytes le_val]. unfold wrap. rewrite Z.mul_0_r, Z.pow_0_r. by rewrite Z.mod_1_r.
  - cbn [le_bytes le_val]. rewrite IH. unfold wrap.
    replace (8 * Z.of_nat (S n)) with (8 + 8 * Z.of_nat n) by lia.
    rewrite Z.pow_add_r by lia. change (2 ^ 8) with 256.
    rewrite Z.rem_mul_r; [lia|lia|apply pow2_pos; lia].
Qed.

Lemma le_bytes_wrap n v : le_bytes n (wrap (8 * Z.of_nat n) v) = le_bytes n v.
Proof.
  revert v. induction n as [|n IH]; intros v; [done|]. cbn [le_bytes].
  unfold wrap in *.
  replace (8 * Z.of_nat (S n)) with (8 + 8 * Z.of_nat n) by lia.
  rewrite Z.pow_add_r by lia. change (2 ^ 8) with 256.
  pose proof (pow2_pos (8 * Z.of_nat n)) as Hp.
  rewrite Z.rem_mul_r by lia.
  f_equal.
  - rewrite (Z.mul_comm 256), Z_mod_plus_full, Z.mod_mod; lia.
  - rewrite <- (IH (v / 256)). f_equal. rewrite (Z.mul_comm 256), Z.div_add by lia.
    rewrite (Z.div_small (v mod 256)); [lia|]. apply Z.mod_pos_bound. lia.
Qed.

(** The byte sequence on the wire does not depend on the build's byte order. *)
Lemma wire_write e n v : EndianConvert e (object_bytes e n v) = le_bytes n v.
Proof.
  destruct e; simpl; [done|]. rewrite convert_rev, rev_involutive; done.
Qed.

Lemma wire_read e l : object_value e (EndianConvert e l) = le_val l.
Proof. destruct e; simpl; [done|]. by rewrite convert_rev, rev_involutive. Qed.

(** ** The buffer invariant *)

(** Positions stay inside the storage, which holds bytes and is far below the
    address space; the limit is the one [append] asserts, plus one append. *)
Record wf (b : ByteBuffer) : Prop := {
  wf_rpos : 0 <= _rpos b <= size b;
  wf_wpos : 0 <= _wpos b <= size b;
  wf_size : size b < 2 ^ 62;
  wf_bytes : Forall (is_u 8) (_storage b) }.

Lemma wf_new : wf ByteBuffer_new.
Proof. split; unfold size; simpl; try lia. constructor. Qed.

(** [appended bs b]: what appending [bs] leaves. *)
Definition appended (bs : list Z) (b : ByteBuffer) : ByteBuffer :=
  mkBB (_rpos b) (_wpos b + Z.of_nat (length bs)) (splice (Z.to_nat (_wpos b)) bs (_storage b)).

(** [room bs b]: the assertion of [append] holds all along writing [bs]. *)
Definition room (bs : list Z) (b : ByteBuffer) : Prop :=
  size b + Z.of_nat (length bs) <= 10000000.

(** [at_rpos bs b]: the unread part of the buffer starts with [bs]. *)
Definition at_rpos (bs : list Z) (b : ByteBuffer) : Prop :=
  slice (Z.to_nat (_rpos b)) (length bs) (_storage b) = bs.

Definition advance (n : nat) (b : ByteBuffer) : ByteBuffer :=
  set_rpos (_rpos b + Z.of_nat n) b.

Create HintDb bytebuffer.

Section buffer_lemmas.
Implicit Types b : ByteBuffer.

Lemma u64_pos b n : wf b -> 0 <= n < 2 ^ 62 -> u64 (_rpos b + n) = _rpos b + n.
Proof. intros [] Hn. apply wrap_small. unfold is_u. lia. Qed.

Lemma appended_nil b : wf b -> appended [] b = b.
Proof.
  intros [Hr [Hw1 Hw2] Hs Hb]. destruct b as [r w st]. unfold appended, splice; simpl in *.
  rewrite Z.add_0_r, Nat.add_0_r, take_drop. done.
Qed.

Lemma size_appended bs b :
  wf b -> size (appended bs b) = Z.max (size b) (_wpos b + Z.of_nat (length bs)).
Proof.
  intros [Hr [Hw1 Hw2] Hs Hb]. unfold size, appended, splice in *; simpl.
  rewrite !length_app, length_take, length_drop. lia.
Qed.

Lemma wf_appended bs b :
  wf b -> room bs b -> Forall (is_u 8) bs -> wf (appended bs b).
Proof.
  intros Hwf Hr Hbs. pose proof (size_appended bs b Hwf) as Hs.
  destruct Hwf as [Hrp Hwp Hsz Hb]. unfold room in Hr.
  split; try rewrite Hs; try (simpl; lia).
  simpl. by apply Forall_splice.
Qed.

Lemma appended_app xs ys b :
  wf b -> appended ys (appended xs b) = appended (xs ++ ys) b.
Proof.
  intros [Hr [Hw1 Hw2] Hs Hb]. unfold appended; simpl. f_equal.
  - rewrite length_app. lia.
  - unfold size in *. unfold splice.
    set (w := Z.to_nat (_wpos b)).
    replace (Z.to_nat (_wpos b + Z.of_nat (length xs))) with (w + length xs)%nat by lia.
    assert (length (take w (_storage b)) = w) as Hw by (rewrite length_take; lia).
    rewrite !(app_assoc (take w (_storage b)) xs).
    rewrite take_app_le, take_ge by (rewrite length_app; lia).
    rewrite drop_app_ge by (rewrite length_app; lia).
    rewrite length_app, Hw, drop_drop, length_app, <- !app_assoc.
    do 3 f_equal. f_equal. lia.
Qed.

Lemma append_bytes_ok bs b :
  wf b -> room bs b -> append_bytes bs b = (Ok tt, appended bs b).
Proof.
  intros Hwf Hr. unfold append_bytes.
  destruct (Z.eqb_spec (Z.of_nat (length bs)) 0) as [H0|Hn0].
  { destruct bs; [|simpl in H0; lia]. by rewrite appended_nil. }
  destruct Hwf as [Hrp [Hw1 Hw2] Hs Hb]. unfold room, size in *.
  destruct (Z.ltb_spec (Z.of_nat (length (_storage b))) 10000000); [simpl|lia].
  set (need := u64 (_wpos b + Z.of_nat (length bs))).
  assert (Hneed : need = _wpos b + Z.of_nat (length bs)).
  { apply wrap_small. unfold is_u. lia. }
  assert (Hfin : u64 (_wpos b + Z.of_nat (length bs)) = _wpos b + Z.of_nat (length bs)) by exact Hneed.
  unfold st_bind, store_at, st_mod, size.
  destruct (Z.ltb_spec (Z.of_nat (length (_storage b))) need) as [Hlt|Hge]; simpl.
  - unfold vec_resize. rewrite take_ge by lia.
    rewrite bool_decide_eq_true_2 by (rewrite length_app, length_replicate; lia).
    unfold set_wpos, appended; simpl. rewrite Hfin. do 2 f_equal. unfold splice.
    rewrite take_app_le by lia. do 2 f_equal.
    rewrite !drop_ge; [done|lia|rewrite length_app, length_replicate; lia].
  - rewrite bool_decide_eq_true_2 by lia.
    unfold set_wpos, appended; simpl. by rewrite Hfin.
Qed.

Lemma room_app xs ys b :
  wf b -> room (xs ++ ys) b -> room xs b /\ room ys (appended xs b).
Proof.
  intros Hwf Hr. unfold room in *. rewrite length_app in Hr.
  rewrite size_appended by done. destruct Hwf. lia.
Qed.

Lemma at_rpos_size bs b :
  wf b -> at_rpos bs b -> _rpos b + Z.of_nat (length bs) <= size b.
Proof.
  intros [Hr _ _ _] Ha. apply (f_equal length) in Ha.
  unfold slice in Ha. rewrite length_take, length_drop in Ha. unfold size in *. lia.
Qed.

Lemma at_rpos_app xs ys b :
  wf b -> at_rpos (xs ++ ys) b ->
  at_rpos xs b /\ at_rpos ys (advance (length xs) b) /\ wf (advance (length xs) b).
Proof.
  intros Hwf Ha. pose proof (at_rpos_size _ _ Hwf Ha) as Hs. rewrite length_app in Hs.
  unfold at_rpos in *. rewrite length_app, slice_app in Ha.
  assert (length (slice (Z.to_nat (_rpos b)) (length xs) (_storage b)) = length xs) as Hl.
  { unfold slice. rewrite length_take, length_drop. destruct Hwf as [[] _ _ _].
    unfold size in *. lia. }
  apply app_inj_1 in Ha as [Hx Hy]; [|done]. destruct Hwf.
  split_and!.
  - done.
  - simpl. replace (Z.to_nat (_rpos b + Z.of_nat (length xs)))
      with (Z.to_nat (_rpos b) + length xs)%nat by lia. done.
  - split; unfold size in *; simpl; auto; lia.
Qed.

Lemma advance_advance n m b : advance m (advance n b) = advance (n + m) b.
Proof. unfold advance, set_rpos; simpl. f_equal. lia. Qed.

Lemma load_at_ok bs b :
  wf b -> at_rpos bs b -> load_at (_rpos b) (length bs) b = (Ok bs, b).
Proof.
  intros Hwf Ha. pose proof (at_rpos_size _ _ Hwf Ha). unfold load_at.
  rewrite bool_decide_eq_true_2 by (destruct Hwf; lia). by rewrite Ha.
Qed.

Lemma read_T_ok e bs b :
  wf b -> at_rpos bs b -> read_T e (length bs) b = (Ok (le_val bs), advance (length bs) b).
Proof.
  intros Hwf Ha. pose proof (at_rpos_size _ _ Hwf Ha) as Hs.
  pose proof (wf_size b Hwf). pose proof (wf_rpos b Hwf).
  unfold read_T, read_T_at, st_bind. rewrite u64_pos by (try done; lia).
  destruct (Z.gtb_spec (_rpos b + Z.of_nat (length bs)) (size b)); [lia|].
  rewrite load_at_ok by done. simpl. rewrite wire_read, u64_pos by (try done; lia). done.
Qed.

Lemma read_bytes_ok bs b :
  wf b -> at_rpos bs b -> read_bytes (length bs) b = (Ok bs, advance (length bs) b).
Proof.
  intros Hwf Ha. pose proof (at_rpos_size _ _ Hwf Ha) as Hs.
  pose proof (wf_size b Hwf). pose proof (wf_rpos b Hwf).
  unfold read_bytes, st_bind. rewrite u64_pos by (try done; lia).
  destruct (Z.gtb_spec (_rpos b + Z.of_nat (length bs)) (size b)); [lia|].
  rewrite load_at_ok by done. simpl. rewrite u64_pos by (try done; lia). done.
Qed.
End buffer_lemmas.
