(* ===== verification/Codec.v ===== *)
(** * Codec: what the stream operators of ByteBuffer promise

    [Codec wr rd] is the interface between the packet buffer and every message
    built on it: [wr] appends exactly the encoding of its argument, and [rd]
    placed in front of that encoding gives the argument back and stops right
    after it.  The instances discharge it for the operators of [ByteBuffer.h];
    pairs and containers of codecs are codecs. *)

From S2P Require Import Prelude ByteBuffer.

Local Open Scope prog_scope.

Class Codec {A : Type} (wr : A -> BB unit) (rd : BB A) := {
  enc : A -> list Z;
  valid : A -> Prop;
  enc_bytes : forall x, valid x -> Forall (is_u 8) (enc x);
  wr_spec : forall x b, valid x -> wf b -> room (enc x) b ->
    wr x b = (Ok tt, appended (enc x) b);
  rd_spec : forall x b, valid x -> wf b -> at_rpos (enc x) b ->
    rd b = (Ok x, advance (length (enc x)) b) }.

Arguments enc {A} wr {rd _} x.
Arguments valid {A} wr {rd _} x.

(** ** Integers *)

Section integers.
(** Both an unsigned and a signed [8n]-bit integer are [n] bytes, least
    significant first; [conv] is the conversion after the load. *)
Context (n : nat) (conv : Z -> Z) (ok : Z -> Prop).
Context (conv_ok : forall x, ok x -> conv (wrap (8 * Z.of_nat n) x) = x).

Lemma append_T_spec e x b :
  wf b -> room (le_bytes n x) b -> append_T e n x b = (Ok tt, appended (le_bytes n x) b).
Proof. intros. unfold append_T. rewrite wire_write. by apply append_bytes_ok. Qed.

Lemma read_T_spec e x b :
  ok x -> wf b -> at_rpos (le_bytes n x) b ->
  st_bind (read_T e n) (fun v => st_ret (conv v)) b = (Ok x, advance n b).
Proof.
  intros Hx Hwf Ha. unfold st_bind, st_ret.
  pose proof (read_T_ok e _ b Hwf Ha) as H. rewrite length_le_bytes in H.
  by rewrite H, le_val_le_bytes, conv_ok.
Qed.
End integers.

Ltac unsigned_codec n w :=
  refine {| enc := le_bytes n; valid := is_u w |};
  [ intros x _; apply le_bytes_u8
  | intros x b _ Hwf Hr; by apply append_T_spec
  | intros x b Hx Hwf Ha; rewrite length_le_bytes;
    pose proof (read_T_ok MANGOS_ENDIAN _ b Hwf Ha) as H;
    rewrite length_le_bytes in H; unfold read_u8, read_u16, read_u32, read_u64,
      read_float, read_double;
    rewrite H, le_val_le_bytes, wrap_small; [done|]; exact Hx ].

Ltac signed_codec n w :=
  refine {| enc := le_bytes n; valid := is_s w |};
  [ intros x _; apply le_bytes_u8
  | intros x b _ Hwf Hr; by apply append_T_spec
  | intros x b Hx Hwf Ha; rewrite length_le_bytes;
    apply (read_T_spec n (swrap w) (is_s w)); [|done..];
    intros y Hy; rewrite swrap_wrap by lia; apply swrap_small; [lia|exact Hy] ].

#[global] Instance codec_u8 : Codec write_u8 read_u8.
Proof. unsigned_codec 1%nat 8. Defined.
#[global] Instance codec_u16 : Codec write_u16 read_u16.
Proof. unsigned_codec 2%nat 16. Defined.
#[global] Instance codec_u32 : Codec write_u32 read_u32.
Proof. unsigned_codec 4%nat 32. Defined.
#[global] Instance codec_u64 : Codec write_u64 read_u64.
Proof. unsigned_codec 8%nat 64. Defined.
#[global] Instance codec_float : Codec write_float read_float.
Proof. unsigned_codec 4%nat 32. Defined.
#[global] Instance codec_double : Codec write_double read_double.
Proof. unsigned_codec 8%nat 64. Defined.
#[global] Instance codec_i8 : Codec write_i8 read_i8.
Proof. signed_codec 1%nat 8. Defined.
#[global] Instance codec_i16 : Codec write_i16 read_i16.
Proof. signed_codec 2%nat 16. Defined.
#[global] Instance codec_i32 : Codec write_i32 read_i32.
Proof. signed_codec 4%nat 32. Defined.
#[global] Instance codec_i64 : Codec write_i64 read_i64.
Proof. signed_codec 8%nat 64. Defined.

#[global] Instance codec_bool : Codec write_bool read_bool.
Proof.
  refine {| enc (v : bool) := [if v then 1 else 0]; valid (_ : bool) := True |}.
  - intros [] _; repeat constructor; lia.
  - intros x b _ Hwf Hr. by apply append_bytes_ok.
  - intros x b _ Hwf Ha. unfold read_bool.
    rewrite (st_bind_ok _ _ _ (if x then 1 else 0) (advance 1 b)).
    + by destruct x.
    + apply (@rd_spec _ _ _ codec_i8); [by destruct x|done|]. by destruct x.
Defined.

(** ** Sequencing *)

Definition write_pair {A B} (wa : A -> BB unit) (wb : B -> BB unit) (p : A * B) : BB unit :=
  wa p.1 ;;; wb p.2.
Definition read_pair {A B} (ra : BB A) (rb : BB B) : BB (A * B) :=
  let! x := ra in let! y := rb in st_ret (x, y).

Section sequencing.
Context {A B : Type} {wa : A -> BB unit} {ra : BB A} {wb : B -> BB unit} {rb : BB B}.
Context `{CA : !Codec wa ra, CB : !Codec wb rb}.

(** Writing two values one after the other writes their encodings in order. *)
Lemma wr_seq x y b :
  valid wa x -> valid wb y -> wf b -> room (enc wa x ++ enc wb y) b ->
  (wa x ;;; wb y) b = (Ok tt, appended (enc wa x ++ enc wb y) b).
Proof.
  intros Hx Hy Hwf Hr. destruct (room_app _ _ _ Hwf Hr) as [H1 H2].
  rewrite (st_bind_ok _ _ _ _ _ (wr_spec x b Hx Hwf H1)).
  rewrite wr_spec; [by rewrite appended_app|done| |done].
  apply wf_appended; auto. by apply enc_bytes.
Qed.

#[global] Instance codec_pair : Codec (write_pair wa wb) (read_pair ra rb).
Proof.
  refine {| enc (p : A * B) := enc wa p.1 ++ enc wb p.2; valid (p : A * B) := valid wa p.1 /\ valid wb p.2 |}.
  - intros p [H1 H2]. apply Forall_app. eauto using enc_bytes.
  - intros p b [H1 H2] Hwf Hr. by apply wr_seq.
  - intros [x y] b [H1 H2] Hwf Ha. simpl in *.
    destruct (at_rpos_app _ _ _ Hwf Ha) as (Hax & Hay & Hwf').
    unfold read_pair. rewrite (st_bind_ok _ _ _ _ _ (rd_spec x b H1 Hwf Hax)).
    rewrite (st_bind_ok _ _ _ _ _ (rd_spec y _ H2 Hwf' Hay)).
    unfold st_ret. by rewrite advance_advance, length_app.
Defined.
End sequencing.

(** ** Strings *)

Definition no_nul (s : list Z) : Prop := Forall (fun c => is_u 8 c /\ c <> 0) s.

Lemma cstr_loop_ok s : forall fuel b,
  no_nul s -> wf b -> at_rpos (s ++ [0]) b -> (length s < fuel)%nat ->
  cstr_loop fuel b = (Ok tt, advance (length s) b).
Proof.
  induction s as [|c s IH]; intros fuel b Hs Hwf Ha Hf;
    (destruct fuel as [|fuel]; [simpl in Hf; lia|]).
  - simpl in Ha. simpl. rewrite (st_bind_ok _ _ _ _ _ (load_at_ok [0] b Hwf Ha)).
    rewrite bool_decide_eq_true_2 by done. unfold st_ret, advance, set_rpos.
    rewrite Z.add_0_r. by destruct b.
  - apply Forall_cons in Hs as [[Hc Hc0] Hs].
    pose proof (at_rpos_size _ _ Hwf Ha) as Hsz. simpl in Hsz. rewrite length_app in Hsz.
    simpl in Hsz. pose proof (wf_size b Hwf). pose proof (wf_rpos b Hwf).
    change ((c :: s) ++ [0]) with ([c] ++ (s ++ [0])) in Ha.
    destruct (at_rpos_app [c] _ _ Hwf Ha) as (Hac & Has & Hwf').
    cbn [cstr_loop]. rewrite (st_bind_ok _ _ _ _ _ (load_at_ok [c] b Hwf Hac)).
    rewrite bool_decide_eq_false_2 by congruence.
    change (length [c]) with 1%nat in *.
    rewrite (u64_pos b 1) by (try done; lia). change (set_rpos (_rpos b + 1) b) with (advance 1 b).
    cbn zeta. rewrite (u64_pos (advance 1 b) 1) by (try done; lia).
    destruct (Z.gtb_spec (_rpos (advance 1 b) + 1) (size (advance 1 b))) as [Hgt|_];
      [unfold size in *; simpl in *; lia|].
    rewrite IH; [by rewrite advance_advance|done|done|done|simpl in Hf; lia].
Qed.

#[global] Instance codec_string v0 : Codec write_string (read_string v0).
Proof.
  refine {| enc (s : list Z) := s ++ [0]; valid := no_nul |}.
  - intros s Hs. apply Forall_app. split; [|repeat constructor; lia].
    eapply Forall_impl; [exact Hs|]. by intros c [? _].
  - intros s b Hs Hwf Hr. unfold write_string. destruct (room_app _ _ _ Hwf Hr) as [H1 H2].
    rewrite (st_bind_ok _ _ _ _ _ (append_bytes_ok s b Hwf H1)).
    rewrite wr_spec; [by rewrite <- appended_app|by vm_compute| |done].
    apply wf_appended; auto. eapply Forall_impl; [exact Hs|]. by intros c [? _].
  - intros s b Hs Hwf Ha. pose proof (at_rpos_size _ _ Hwf Ha) as Hsz.
    rewrite length_app in Hsz. simpl in Hsz.
    pose proof (wf_size b Hwf). pose proof (wf_rpos b Hwf).
    destruct (at_rpos_app _ _ _ Hwf Ha) as (Has & _ & Hwf').
    unfold read_string. destruct (Z.ltb_spec (_rpos b) (size b)); [|lia]. cbn zeta.
    rewrite (st_bind_ok _ _ _ _ _
      (cstr_loop_ok s (S (length (_storage b))) b Hs Hwf Ha ltac:(unfold size in *; lia))).
    rewrite st_bind_get. change (_rpos (advance (length s) b)) with (_rpos b + Z.of_nat (length s)).
    replace (Z.to_nat (_rpos b + Z.of_nat (length s) - _rpos b)) with (length s) by lia.
    assert (load_at (_rpos b) (length s) (advance (length s) b) = (Ok s, advance (length s) b)) as Hld.
    { unfold load_at. rewrite bool_decide_eq_true_2 by (unfold size, advance in *; simpl; lia).
      unfold at_rpos in Has. simpl. by rewrite Has. }
    rewrite (st_bind_ok _ _ _ _ _ Hld), st_bind_mod. unfold st_ret. rewrite (u64_pos (advance (length s) b) 1) by (try done; lia).
    rewrite length_app. simpl. unfold advance, set_rpos; simpl. do 2 f_equal. lia.
Defined.

(** ** Packed GUIDs

    [nz_mask] has one bit per non-zero byte of the GUID, [nz_bytes] lists the
    non-zero bytes: the format the two loops of ByteBuffer.h agree on. *)

Fixpoint nz_bytes (n : nat) (g : Z) : list Z :=
  match n with
  | O => []
  | S n' => if g mod 256 =? 0 then nz_bytes n' (g / 256)
            else g mod 256 :: nz_bytes n' (g / 256)
  end.

Fixpoint nz_mask (n : nat) (g : Z) : Z :=
  match n with
  | O => 0
  | S n' => 2 * nz_mask n' (g / 256) + Z.b2z (negb (g mod 256 =? 0))
  end.

Lemma nz_zero n : nz_bytes n 0 = [] /\ nz_mask n 0 = 0.
Proof. induction n as [|n [IH1 IH2]]; [done|].
  cbn [nz_bytes nz_mask]. change (0 / 256) with 0. by rewrite IH1, IH2.
Qed.

Lemma nz_bytes_ok n g : Forall (is_u 8) (nz_bytes n g) /\ (length (nz_bytes n g) <= n)%nat.
Proof.
  revert g. induction n as [|n IH]; intros g; simpl; [split; [constructor|lia]|].
  destruct (IH (g / 256)). destruct (g mod 256 =? 0); [split; [done|lia]|].
  split; [constructor; [|done]|simpl; lia]. apply Z.mod_pos_bound. lia.
Qed.

Lemma nz_mask_range n g : 0 <= nz_mask n g < 2 ^ Z.of_nat n.
Proof.
  revert g. induction n as [|n IH]; intros g; [done|].
  rewrite Nat2Z.inj_succ, Z.pow_succ_r by lia. cbn [nz_mask].
  specialize (IH (g / 256)). destruct (negb _); simpl; lia.
Qed.

Lemma nz_mask_bit0 n g : Z.testbit (nz_mask (S n) g) 0 = negb (g mod 256 =? 0).
Proof. cbn [nz_mask]. by rewrite Z.testbit_0_r. Qed.

Lemma nz_mask_bitS n g j : 0 <= j ->
  Z.testbit (nz_mask (S n) g) (j + 1) = Z.testbit (nz_mask n (g / 256)) j.
Proof. intros Hj. cbn [nz_mask]. by rewrite Z.add_1_r, Z.testbit_succ_r by done. Qed.

Lemma byte_split g : 0 <= g -> Z.lor (g mod 256) (Z.shiftl (g / 256) 8) = g.
Proof.
  intros Hg. change 256 with (2 ^ 8). rewrite <- Z.land_ones, <- Z.shiftr_div_pow2 by lia.
  apply Z.bits_inj'. intros j Hj. rewrite Z.lor_spec, Z.land_spec, Z.shiftl_spec by done.
  destruct (decide (j < 8)).
  - rewrite Z.ones_spec_low, (Z.testbit_neg_r _ (j - 8)) by lia.
    by rewrite andb_true_r, orb_false_r.
  - rewrite Z.ones_spec_high, Z.shiftr_spec by lia.
    rewrite andb_false_r. simpl. f_equal. lia.
Qed.

Lemma shift_mask i n g : 0 <= i ->
  Z.lor (if g mod 256 =? 0 then 0 else Z.shiftl 1 i) (Z.shiftl (nz_mask n (g / 256)) (i + 1)) =
  Z.shiftl (nz_mask (S n) g) i.
Proof.
  intros Hi. apply Z.bits_inj'. intros j Hj.
  rewrite Z.lor_spec, !Z.shiftl_spec by lia.
  destruct (Z.lt_trichotomy j i) as [Hlt|[->|Hgt]].
  - rewrite !(Z.testbit_neg_r (nz_mask _ _)) by lia.
    destruct (g mod 256 =? 0); [by rewrite Z.bits_0|].
    rewrite Z.shiftl_spec by lia. by rewrite Z.testbit_neg_r by lia.
  - rewrite Z.sub_diag, nz_mask_bit0, (Z.testbit_neg_r (nz_mask n _)) by lia.
    destruct (g mod 256 =? 0); [by rewrite Z.bits_0|].
    rewrite Z.shiftl_spec by lia. by rewrite Z.sub_diag.
  - replace (j - i) with (j - (i + 1) + 1) by lia. rewrite nz_mask_bitS by lia.
    destruct (g mod 256 =? 0); [by rewrite Z.bits_0|].
    rewrite Z.shiftl_spec by lia. rewrite Z.bits_above_log2; [done|lia|].
    simpl. lia.
Qed.

Lemma pack_loop_ok n : forall fuel i m bs g,
  0 <= g < 2 ^ (8 * Z.of_nat n) -> (length bs + n <= 8)%nat -> i + Z.of_nat n = 8 ->
  0 <= i -> (n <= fuel)%nat ->
  exists p,
    pack_loop fuel i (mkPack (m :: bs ++ replicate (8 - length bs) 0) (S (length bs)) g) = Ok p /\
    take (pk_size p) (pk_arr p) = Z.lor m (Z.shiftl (nz_mask n g) i) :: bs ++ nz_bytes n g.
Proof.
  assert (forall fuel i m bs n, exists p,
    pack_loop fuel i (mkPack (m :: bs ++ replicate (8 - length bs) 0) (S (length bs)) 0) = Ok p /\
    take (pk_size p) (pk_arr p) = Z.lor m (Z.shiftl (nz_mask n 0) i) :: bs ++ nz_bytes n 0) as Hz.
  { intros fuel i m bs n0. eexists. split; [by destruct fuel|].
    destruct (nz_zero n0) as [-> ->]. simpl.
    by rewrite Z.shiftl_0_l, Z.lor_0_r, take_app_length, app_nil_r. }
  induction n as [|n IH]; intros fuel i m bs g Hg Hl Hi Hi0 Hf.
  { assert (g = 0) as -> by (simpl in Hg; lia). apply (Hz _ _ _ _ 0%nat). }
  destruct (decide (g = 0)) as [->|Hne]; [apply Hz|].
  destruct fuel as [|fuel]; [lia|]. cbn [pack_loop pk_guid].
  destruct (Z.eqb_spec g 0); [done|].
  assert (0 <= g / 256 < 2 ^ (8 * Z.of_nat n)) as Hg'.
  { split; [apply Z.div_pos; lia|]. apply Z.div_lt_upper_bound; [lia|].
    replace (8 * Z.of_nat (S n)) with (8 + 8 * Z.of_nat n) in Hg by lia.
    rewrite Z.pow_add_r in Hg by lia. lia. }
  assert (u8 (i + 1) = i + 1) as Hi1 by (apply wrap_small; unfold is_u; lia).
  assert (u8 (Z.shiftl 1 i) = Z.shiftl 1 i) as Hsh.
  { apply wrap_small. rewrite Z.shiftl_1_l. split; [apply Z.lt_le_incl, pow2_pos; lia|].
    apply Z.pow_lt_mono_r; lia. }
  unfold pack_step. cbn [pk_guid pk_arr pk_size].
  change 255 with (Z.ones 8). rewrite Z.land_ones, Z.shiftr_div_pow2 by lia.
  change (2 ^ 8) with 256. unfold truth. rewrite <- (shift_mask i n g) by lia.
  cbn [nz_bytes].
  destruct (Z.eqb_spec (g mod 256) 0) as [H0|H0]; cbn [negb].
  - rewrite Hi1. destruct (IH fuel (i + 1) m bs (g / 256)) as (p & -> & Hp); try lia.
    exists p. split; [done|]. by rewrite Hp, Z.lor_0_l.
  - rewrite bool_decide_eq_true_2 by (simpl; rewrite length_app, length_replicate; lia).
    simpl lookup. cbv iota beta. rewrite Hi1, Hsh.
    assert (u8 (g mod 256) = g mod 256) as ->.
    { apply wrap_small. apply (Z.mod_pos_bound g 256). lia. }
    simpl insert.
    rewrite insert_app_r_alt by lia. rewrite Nat.sub_diag.
    destruct (8 - length bs)%nat as [|k] eqn:Hk; [lia|]. simpl.
    destruct (IH fuel (i + 1) (Z.lor m (Z.shiftl 1 i)) (bs ++ [g mod 256]) (g / 256))
      as (p & Hpl & Hp); try lia; [rewrite length_app; simpl; lia|].
    rewrite length_app in Hpl; simpl in Hpl.
    replace (8 - (length bs + 1))%nat with k in Hpl by lia.
    rewrite Nat.add_1_r, <- app_assoc in Hpl. simpl in Hpl.
    exists p. split; [exact Hpl|]. by rewrite Hp, <- app_assoc, Z.lor_assoc.
Qed.

Lemma unpack_loop_ok n : forall i mask acc g b,
  0 <= g < 2 ^ (8 * Z.of_nat n) -> i + Z.of_nat n = 8 -> 0 <= i ->
  (forall j, 0 <= j < Z.of_nat n -> Z.testbit mask (i + j) = Z.testbit (nz_mask n g) j) ->
  wf b -> at_rpos (nz_bytes n g) b ->
  readPackGUID_loop n i mask acc b =
    (Ok (Z.lor acc (Z.shiftl g (i * 8))), advance (length (nz_bytes n g)) b).
Proof.
  induction n as [|n IH]; intros i mask acc g b Hg Hi Hi0 Hm Hwf Ha.
  { assert (g = 0) as -> by (simpl in Hg; lia). cbn.
    rewrite Z.shiftl_0_l, Z.lor_0_r. unfold st_ret, advance, set_rpos.
    rewrite Z.add_0_r. by destruct b. }
  assert (0 <= g / 256 < 2 ^ (8 * Z.of_nat n)) as Hg'.
  { split; [apply Z.div_pos; lia|]. apply Z.div_lt_upper_bound; [lia|].
    replace (8 * Z.of_nat (S n)) with (8 + 8 * Z.of_nat n) in Hg by lia.
    rewrite Z.pow_add_r in Hg by lia. lia. }
  assert (u8 (Z.shiftl 1 i) = Z.shiftl 1 i) as Hsh.
  { apply wrap_small. rewrite Z.shiftl_1_l. split; [apply Z.lt_le_incl, pow2_pos; lia|].
    apply Z.pow_lt_mono_r; lia. }
  assert (forall j, 0 <= j < Z.of_nat n ->
    Z.testbit mask (i + 1 + j) = Z.testbit (nz_mask n (g / 256)) j) as Hm'.
  { intros j Hj. rewrite <- (nz_mask_bitS n g) by lia. rewrite <- Hm by lia. f_equal. lia. }
  pose proof (Hm 0 ltac:(lia)) as Hm0. rewrite Z.add_0_r, nz_mask_bit0 in Hm0.
  assert (Z.shiftl g (i * 8) =
    Z.lor (Z.shiftl (g mod 256) (i * 8)) (Z.shiftl (g / 256) ((i + 1) * 8))) as Hsplit.
  { rewrite <- (byte_split g) at 1 by lia. rewrite Z.shiftl_lor, Z.shiftl_shiftl by lia.
    do 2 f_equal. lia. }
  cbn [readPackGUID_loop nz_bytes] in *. rewrite Hsh, truth_land_bit, Hm0 by lia.
  destruct (Z.eqb_spec (g mod 256) 0) as [H0|H0]; cbn [negb].
  - rewrite (IH _ _ _ (g / 256)) by (try done; lia). rewrite Hsplit, H0.
    by rewrite Z.shiftl_0_l, Z.lor_0_l.
  - change (?x :: ?l) with ([x] ++ l) in Ha.
    destruct (at_rpos_app _ _ _ Hwf Ha) as (Hx & Hr & Hwf').
    assert (is_u 8 (g mod 256)) as Hu by (apply (Z.mod_pos_bound g 256); lia).
    assert (read_u8 b = (Ok (g mod 256), advance 1 b)) as Hrd.
    { apply (@rd_spec _ _ _ codec_u8); [done|done|]. simpl. by rewrite Z.mod_mod by lia. }
    rewrite (st_bind_ok _ _ _ _ _ Hrd).
    rewrite (IH _ _ _ (g / 256)) by (try done; lia).
    assert (u64 (Z.shiftl (g mod 256) (i * 8)) = Z.shiftl (g mod 256) (i * 8)) as ->.
    { apply wrap_small. rewrite Z.shiftl_mul_pow2 by lia.
      assert (2 ^ (i * 8) <= 2 ^ 56) by (apply Z.pow_le_mono_r; lia).
      pose proof (pow2_pos (i * 8)). destruct Hu. split; [lia|]. nia. }
    by rewrite Hsplit, Z.lor_assoc, advance_advance.
Qed.

#[global] Instance codec_packguid : Codec appendPackGUID readPackGUID.
Proof.
  refine {| enc (g : Z) := nz_mask 8 g :: nz_bytes 8 g; valid := is_u 64 |}.
  - intros g Hg. constructor; [apply (nz_mask_range 8)|apply nz_bytes_ok].
  - intros g b Hg Hwf Hr. unfold appendPackGUID.
    destruct (pack_loop_ok 8 9 0 0 [] g) as (p & Hp & Ht); try (simpl; lia); [exact Hg|].
    assert (pack_loop 9 0 (mkPack (replicate 9 0) 1 g) = Ok p) as -> by exact Hp.
    rewrite Ht, Z.lor_0_l, Z.shiftl_0_r.
    by apply append_bytes_ok.
  - intros g b Hg Hwf Ha. unfold readPackGUID.
    change (?x :: ?l) with ([x] ++ l) in Ha.
    destruct (at_rpos_app _ _ _ Hwf Ha) as (Hx & Hr & Hwf').
    assert (is_u 8 (nz_mask 8 g)) as Hu by apply (nz_mask_range 8).
    assert (read_u8 b = (Ok (nz_mask 8 g), advance 1 b)) as Hrd.
    { apply (@rd_spec _ _ _ codec_u8); [done|done|]. simpl.
      rewrite (Z.mod_small (nz_mask 8 g)) by exact Hu. exact Hx. }
    rewrite (st_bind_ok _ _ _ _ _ Hrd).
    rewrite (unpack_loop_ok 8 0 _ 0 g) by (try done; lia).
    by rewrite Z.lor_0_l, Z.shiftl_0_r, advance_advance.
Defined.

(** ** Containers *)

Section containers.
Context {A : Type} {wr : A -> BB unit} {rd : BB A} `{C : !Codec wr rd}.

Definition enc_all (v : list A) : list Z := flat_map (enc wr) v.

Lemma enc_all_bytes v : Forall (valid wr) v -> Forall (is_u 8) (enc_all v).
Proof.
  induction 1; simpl; [constructor|]. apply Forall_app. eauto using enc_bytes.
Qed.

Lemma write_each_ok v : forall b,
  Forall (valid wr) v -> wf b -> room (enc_all v) b ->
  write_each wr v b = (Ok tt, appended (enc_all v) b).
Proof.
  induction v as [|x v IH]; intros b Hv Hwf Hr; simpl.
  - by rewrite appended_nil.
  - apply Forall_cons in Hv as [Hx Hv]. destruct (room_app _ _ _ Hwf Hr) as [H1 H2].
    rewrite (st_bind_ok _ _ _ _ _ (wr_spec x b Hx Hwf H1)).
    rewrite IH; [by rewrite appended_app|done| |done].
    apply wf_appended; auto. by apply enc_bytes.
Qed.

Lemma read_each_ok v : forall acc b,
  Forall (valid wr) v -> wf b -> at_rpos (enc_all v) b ->
  read_each rd (length v) acc b = (Ok (acc ++ v), advance (length (enc_all v)) b).
Proof.
  induction v as [|x v IH]; intros acc b Hv Hwf Ha; simpl.
  - rewrite app_nil_r. unfold st_ret, advance, set_rpos. rewrite Z.add_0_r. by destruct b.
  - apply Forall_cons in Hv as [Hx Hv].
    destruct (at_rpos_app _ _ _ Hwf Ha) as (Hax & Hav & Hwf').
    rewrite (st_bind_ok _ _ _ _ _ (rd_spec x b Hx Hwf Hax)).
    rewrite IH by done. rewrite advance_advance, length_app, <- app_assoc. done.
Qed.

#[global] Instance codec_container : Codec (write_container wr) (read_container rd).
Proof.
  refine {| enc (v : list A) := le_bytes 4 (Z.of_nat (length v)) ++ enc_all v;
            valid (v : list A) := Forall (valid wr) v /\ is_u 32 (Z.of_nat (length v)) |}.
  - intros v [Hv _]. apply Forall_app. eauto using le_bytes_u8, enc_all_bytes.
  - intros v b [Hv Hl] Hwf Hr. unfold write_container. rewrite wrap_small by done.
    destruct (room_app _ _ _ Hwf Hr) as [H1 H2].
    rewrite (st_bind_ok _ _ _ _ _ (@wr_spec _ _ _ codec_u32 _ b Hl Hwf H1)).
    rewrite write_each_ok; [by rewrite appended_app|done| |done].
    apply wf_appended; [done|exact H1|apply le_bytes_u8].
  - intros v b [Hv Hl] Hwf Ha. unfold read_container.
    destruct (at_rpos_app _ _ _ Hwf Ha) as (Hal & Hav & Hwf').
    rewrite (st_bind_ok _ _ _ _ _ (@rd_spec _ _ _ codec_u32 _ b Hl Hwf Hal)).
    rewrite Nat2Z.id. simpl enc. rewrite length_le_bytes in *.
    rewrite read_each_ok by done.
    by rewrite advance_advance, length_app, length_le_bytes.
Defined.
End containers.

(** ** Reading untrusted bytes

    [reader m]: [m] is put together from the reading operators only, which is
    the shape of the part of an opcode handler that parses its packet. *)

Inductive reader : forall {A : Type}, BB A -> Prop :=
| reader_ret A (a : A) : reader (st_ret a)
| reader_bind A B (m : BB A) (k : A -> BB B) :
    reader m -> (forall a, reader (k a)) -> reader (st_bind m k)
| reader_T n : (n <= 8)%nat -> reader (read_T MANGOS_ENDIAN n)
| reader_bytes n : Z.of_nat n < 2 ^ 62 -> reader (read_bytes n)
| reader_string v : reader (read_string v)
| reader_skip n : 0 <= n < 2 ^ 62 -> reader (read_skip n).

(** The unread part may shrink, the bytes and the write position stay. *)
Definition rd_inv (b0 b : ByteBuffer) : Prop :=
  wf b /\ _storage b = _storage b0 /\ _wpos b = _wpos b0 /\ _rpos b0 <= _rpos b.

Lemma rd_inv_advance b0 b n :
  rd_inv b0 b -> 0 <= n -> _rpos b + n <= size b -> rd_inv b0 (set_rpos (_rpos b + n) b).
Proof.
  intros (Hwf & Hs & Hw & Hr) Hn Hle. split_and!; try done; [|simpl; lia].
  destruct Hwf. split; unfold size in *; simpl; auto; lia.
Qed.

Ltac in_bounds :=
  match goal with
  | |- context [?x >? ?y] => destruct (Z.gtb_spec x y)
  end.

Lemma load_at_safe pos n b :
  0 <= pos -> pos + Z.of_nat n <= size b ->
  load_at pos n b = (Ok (slice (Z.to_nat pos) n (_storage b)), b).
Proof. intros. unfold load_at. by rewrite bool_decide_eq_true_2. Qed.

Lemma read_T_safe b0 n : (n <= 8)%nat -> safe (rd_inv b0) (read_T MANGOS_ENDIAN n).
Proof.
  intros Hn b Hinv. pose proof Hinv as (Hwf & _). unfold read_T, read_T_at, st_bind.
  pose proof (wf_rpos b Hwf). pose proof (wf_size b Hwf).
  rewrite u64_pos by (try done; lia). in_bounds; [done|].
  rewrite load_at_safe by lia. simpl. rewrite u64_pos by (try done; lia).
  split; [done|]. apply rd_inv_advance; auto; lia.
Qed.

Lemma read_bytes_safe b0 n : Z.of_nat n < 2 ^ 62 -> safe (rd_inv b0) (read_bytes n).
Proof.
  intros Hn b Hinv. pose proof Hinv as (Hwf & _). unfold read_bytes, st_bind.
  pose proof (wf_rpos b Hwf). pose proof (wf_size b Hwf).
  rewrite u64_pos by (try done; lia). in_bounds; [done|].
  rewrite load_at_safe by lia. simpl. rewrite u64_pos by (try done; lia).
  split; [done|]. apply rd_inv_advance; auto; lia.
Qed.

Lemma read_skip_safe b0 n : 0 <= n < 2 ^ 62 -> safe (rd_inv b0) (read_skip n).
Proof.
  intros Hn b Hinv. pose proof Hinv as (Hwf & _). unfold read_skip.
  pose proof (wf_rpos b Hwf). pose proof (wf_size b Hwf).
  rewrite u64_pos by (try done; lia). in_bounds; [done|].
  split; [done|]. simpl. apply rd_inv_advance; auto; lia.
Qed.

(** The scan for the terminator stays inside the buffer: it either stops in
    front of it or throws at the end. *)
Lemma cstr_loop_safe b0 fuel : forall b,
  rd_inv b0 b -> _rpos b < size b -> size b - _rpos b < Z.of_nat fuel ->
  let '(o, b') := cstr_loop fuel b in
  settled o /\ rd_inv b0 b' /\ _rpos b <= _rpos b' /\
  (o = Ok tt -> _rpos b' < size b').
Proof.
  induction fuel as [|fuel IH]; intros b Hinv Hlt Hf; [lia|].
  pose proof Hinv as (Hwf & _). pose proof (wf_rpos b Hwf). pose proof (wf_size b Hwf).
  cbn [cstr_loop]. unfold st_bind. rewrite load_at_safe by lia.
  case_bool_decide; [simpl; split_and!; auto; lia|].
  rewrite (u64_pos b 1) by (try done; lia). cbn zeta.
  assert (rd_inv b0 (set_rpos (_rpos b + 1) b)) as Hinv1 by (apply rd_inv_advance; auto; lia).
  rewrite (u64_pos _ 1) by (try apply Hinv1; lia). in_bounds.
  - split_and!; [done|done|simpl; lia|done].
  - assert (size (set_rpos (_rpos b + 1) b) = size b) as Hsz by done.
    specialize (IH _ Hinv1). rewrite Hsz in IH. simpl in IH, H2. rewrite Hsz in H2.
    specialize (IH ltac:(lia) ltac:(lia)).
    destruct (cstr_loop fuel _) as [o b']. simpl in IH. destruct IH as (?&?&?&?).
    split_and!; auto. lia.
Qed.

Lemma read_string_safe b0 v : safe (rd_inv b0) (read_string v).
Proof.
  intros b Hinv. unfold read_string. destruct (Z.ltb_spec (_rpos b) (size b)); [|done].
  cbn zeta. unfold st_bind.
  pose proof (cstr_loop_safe b0 (S (length (_storage b))) b Hinv ltac:(lia)) as Hl.
  pose proof Hinv as (Hwf & Hst & _ & _). pose proof (wf_rpos b Hwf).
  specialize (Hl ltac:(unfold size; lia)).
  destruct (cstr_loop _ b) as [[[]|e| | |] b'] eqn:E; simpl in Hl; try tauto.
  destruct Hl as (_ & Hinv' & Hge & Hlt). specialize (Hlt eq_refl).
  pose proof Hinv' as (Hwf' & Hst' & _ & _).
  pose proof (wf_rpos b' Hwf'). pose proof (wf_size b' Hwf').
  unfold st_get. rewrite load_at_safe by lia. simpl.
  rewrite (u64_pos b' 1) by (try done; lia).
  split; [done|]. apply rd_inv_advance; auto; lia.
Qed.

#[export] Hint Resolve read_T_safe read_bytes_safe read_skip_safe read_string_safe : safety.

Lemma reader_safe b0 A (m : BB A) : reader m -> safe (rd_inv b0) m.
Proof. induction 1; eauto with safety. Qed.

Lemma reader_packguid : reader readPackGUID.
Proof.
  unfold readPackGUID. constructor; [apply reader_T; lia|]. intros mask.
  assert (forall n i acc, reader (readPackGUID_loop n i mask acc)) as H; [|apply H].
  induction n as [|n IH]; intros i acc; simpl; [constructor|].
  case_match; [|done]. constructor; [apply reader_T; lia|done].
Qed.

Lemma reader_each A (rd : BB A) n acc : reader rd -> reader (read_each rd n acc).
Proof. intros H. revert acc. induction n; intros; simpl; constructor; auto. Qed.

(** ** Main properties *)

(** What can be on the wire, the values, the two operators of [ByteBuffer.h] for
    each type, the values that fit, and the bytes that stand for them. *)
Inductive wire_type :=
  | W_u8 | W_u16 | W_u32 | W_u64 | W_i8 | W_i16 | W_i32 | W_i64 | W_float | W_double
  | W_bool | W_string | W_guid | W_then (s t : wire_type) | W_container (t : wire_type).
Fixpoint value (t : wire_type) : Type :=
  match t with
  | W_bool => bool | W_string => list Z | W_then s t => value s * value t | W_container t => list (value t) | _ => Z
  end.
Fixpoint write_value (t : wire_type) : value t -> BB unit :=
  match t with
  | W_u8 => write_u8 | W_u16 => write_u16 | W_u32 => write_u32 | W_u64 => write_u64
  | W_i8 => write_i8 | W_i16 => write_i16 | W_i32 => write_i32 | W_i64 => write_i64
  | W_float => write_float | W_double => write_double | W_bool => write_bool
  | W_string => write_string | W_guid => appendPackGUID
  | W_then s t => write_pair (write_value s) (write_value t) | W_container t => write_container (write_value t)
  end.
Fixpoint read_value (t : wire_type) : BB (value t) :=
  match t with
  | W_u8 => read_u8 | W_u16 => read_u16 | W_u32 => read_u32 | W_u64 => read_u64
  | W_i8 => read_i8 | W_i16 => read_i16 | W_i32 => read_i32 | W_i64 => read_i64
  | W_float => read_float | W_double => read_double | W_bool => read_bool
  | W_string => read_string [] | W_guid => readPackGUID
  | W_then s t => read_pair (read_value s) (read_value t) | W_container t => read_container (read_value t)
  end.
Fixpoint fits (t : wire_type) : value t -> Prop :=
  match t with
  | W_u8 => is_u 8 | W_u16 => is_u 16 | W_u32 | W_float => is_u 32 | W_u64 | W_double | W_guid => is_u 64
  | W_i8 => is_s 8 | W_i16 => is_s 16 | W_i32 => is_s 32 | W_i64 => is_s 64
  | W_bool => fun _ => True | W_string => no_nul
  | W_then s t => fun p => fits s p.1 /\ fits t p.2
  | W_container t => fun v => Forall (fits t) v /\ is_u 32 (Z.of_nat (length v))
  end.
Fixpoint wire_bytes (t : wire_type) : value t -> list Z :=
  match t with
  | W_u8 | W_i8 => le_bytes 1 | W_u16 | W_i16 => le_bytes 2 | W_u32 | W_i32 | W_float => le_bytes 4
  | W_u64 | W_i64 | W_double => le_bytes 8 | W_bool => fun v => [if v then 1 else 0]
  | W_string => fun s => s ++ [0] | W_guid => fun g => nz_mask 8 g :: nz_bytes 8 g
  | W_then s t => fun p => wire_bytes s p.1 ++ wire_bytes t p.2
  | W_container t => fun v => le_bytes 4 (Z.of_nat (length v)) ++ flat_map (wire_bytes t) v
  end.
(** The operators of a type are a codec with these values and these bytes. *)
Lemma value_codec t : exists C : Codec (write_value t) (read_value t),
  (forall x, @valid _ _ _ C x <-> fits t x) /\ forall x, @enc _ _ _ C x = wire_bytes t x.
Proof.
  induction t as [| | | | | | | | | | | | |s (Cs & Vs & Es) t (Ct & Vt & Et)|t (Ct & Vt & Et)].
  14: { exists (@codec_pair _ _ _ _ _ _ Cs Ct). split; intros x; cbn; [by rewrite Vs, Vt|by rewrite Es, Et]. }
  14: { exists (@codec_container _ _ _ Ct). split; intros x; cbn.
    - f_equiv; [by apply Forall_iff|reflexivity].
    - do 4 f_equal. unfold enc_all. by apply flat_map_ext. }
  all: by eexists; split.
Qed.
Lemma write_value_spec t x b : fits t x -> wf b -> room (wire_bytes t x) b ->
  write_value t x b = (Ok tt, appended (wire_bytes t x) b).
Proof. destruct (value_codec t) as (C & V & E). intros Hx Hwf Hr. rewrite <- E in *. apply wr_spec; [by apply V|done..]. Qed.
Lemma read_value_spec t x b : fits t x -> wf b -> at_rpos (wire_bytes t x) b ->
  read_value t b = (Ok x, advance (length (wire_bytes t x)) b).
Proof. destruct (value_codec t) as (C & V & E). intros Hx Hwf Hr. rewrite <- E in *. apply rd_spec; [by apply V|done..]. Qed.
Lemma wire_bytes_u8 t x : fits t x -> Forall (is_u 8) (wire_bytes t x).
Proof. destruct (value_codec t) as (C & V & E). intros Hx. rewrite <- E. by apply enc_bytes, V. Qed.

(** C8. Round trip of the stream operators: integers of 8, 16, 32 and 64 bits,
    signed and unsigned, floats and doubles (as their bits), bools, strings
    without a NUL, packed GUIDs, and sequences and containers of all these,
    nested at will.  Into a well-formed buffer with room, [<<] writes exactly
    the little-endian bytes, terminator, mask and count of the format and
    changes no other byte, and [>>], started where they were
    written, returns the value and stops at the new write position. *)
Theorem codec_roundtrip t (x : value t) b :
  fits t x -> wf b -> room (wire_bytes t x) b ->
  exists b', write_value t x b = (Ok tt, b') /\ wf b' /\ _rpos b' = _rpos b
    /\ _wpos b' = _wpos b + Z.of_nat (length (wire_bytes t x))
    /\ _storage b' = splice (Z.to_nat (_wpos b)) (wire_bytes t x) (_storage b)
    /\ read_value t (set_rpos (_wpos b) b') = (Ok x, set_rpos (_wpos b') b').
Proof.
  intros Hx Hwf Hr. exists (appended (wire_bytes t x) b).
  assert (wf (appended (wire_bytes t x) b)) as Hwf' by eauto using wf_appended, wire_bytes_u8.
  split_and!; [by apply write_value_spec|done..|].
  rewrite (read_value_spec t x); [unfold advance, set_rpos; simpl; done|done| |].
  - destruct Hwf, Hwf'. split; unfold size in *; simpl in *; auto; lia.
  - unfold at_rpos. simpl. apply slice_splice_eq. destruct Hwf. unfold size in *. lia.
Qed.

(** A packed GUID and a list of pairs of a short and a string. *)
Definition sample_wire : wire_type := W_then W_guid (W_container (W_then W_i16 W_string)).
Definition sample_value : value sample_wire := (4611686018427387905, [(-2, [72; 105]); (300, [])]).
Lemma codec_roundtrip_witness :
  wire_bytes sample_wire sample_value = [129; 1; 64; 2; 0; 0; 0; 254; 255; 72; 105; 0; 44; 1; 0]
  /\ exists b', write_value sample_wire sample_value ByteBuffer_new = (Ok tt, b') /\ wf b' /\ _wpos b' = 15
  /\ read_value sample_wire (set_rpos 0 b') = (Ok sample_value, set_rpos (_wpos b') b').
Proof.
  split; [vm_compute; reflexivity|].
  destruct (codec_roundtrip sample_wire sample_value ByteBuffer_new) as (b' & H1 & H2 & _ & H3 & _ & H4);
    [split; [done|]; split; [|done]; repeat constructor; done|apply wf_new|by vm_compute|].
  exists b'. split_and!; [exact H1|exact H2|exact H3|exact H4].
Defined.

(** C9. Parsing attacker-controlled bytes is memory safe: any composition of
    the reading operators, run on any well-formed buffer, ends with a value or
    a [ByteBufferException], never reads outside the storage, never loops, and
    leaves bytes and write position untouched with the cursor inside. *)
Theorem reader_memory_safe {A} (m : BB A) b :
  reader m -> wf b ->
  settled (m b).1 /\ rd_inv b (m b).2.
Proof.
  intros Hm Hwf. apply (reader_safe b A m Hm). split_and!; auto; lia.
Qed.

Lemma reader_memory_safe_witness :
  let b := mkBB 0 3 [255; 1; 2] in
  settled (readPackGUID b).1 /\ rd_inv b (readPackGUID b).2.
Proof.
  intros b. apply (reader_memory_safe readPackGUID b); [apply reader_packguid|].
  split; unfold b, size; simpl; try lia. repeat constructor; simpl; lia.
Defined.

(** The bytes on the wire do not depend on the byte order the server was
    built for: [append<T>], [put<T>] and [read<T>] of a big-endian build are
    those of a little-endian build, least significant byte first. *)
Theorem wire_format_portable e n v pos b :
  append_T e n v b = append_bytes (le_bytes n v) b /\
  put_T e n pos v b = put_bytes pos (le_bytes n v) b /\
  read_T_at e n pos b = read_T_at MANGOS_LITTLEENDIAN n pos b /\
  read_T e n b = read_T MANGOS_LITTLEENDIAN n b.
Proof.
  assert (forall pos, read_T_at e n pos b = read_T_at MANGOS_LITTLEENDIAN n pos b) as Hr.
  { intros q. unfold read_T_at. case_match; [done|]. unfold st_bind.
    destruct (load_at _ _ _) as [[]]; try done. by rewrite !wire_read. }
  split_and!; [| |apply Hr|].
  - unfold append_T. by rewrite wire_write.
  - unfold put_T. by rewrite wire_write.
  - unfold read_T, st_bind. by rewrite Hr.
Qed.

(** [put] patches in place (the size placeholder of a list packet): inside
    the buffer it makes [read<T>(pos)] return the value and changes no other
    byte and no position; a [put] that does not fit throws and changes
    nothing. *)
Theorem put_patches_in_place n pos v b :
  wf b -> 0 <= pos -> (0 < n)%nat -> pos + Z.of_nat n < 2 ^ 62 -> is_u (8 * Z.of_nat n) v ->
  let '(o, b') := put_T MANGOS_ENDIAN n pos v b in
  if bool_decide (pos + Z.of_nat n <= size b) then
    o = Ok tt /\ wf b' /\ size b' = size b /\ _rpos b' = _rpos b /\ _wpos b' = _wpos b /\
    (read_T_at MANGOS_ENDIAN n pos b').1 = Ok v /\
    (forall q : nat, (Z.of_nat q < pos \/ pos + Z.of_nat n <= Z.of_nat q) ->
      _storage b' !! q = _storage b !! q)
  else o = Throw (mkBBE true pos (Z.of_nat n) (size b)) /\ b' = b.
Proof.
  intros Hwf Hpos Hn Hlt Hv. unfold put_T. rewrite wire_write. unfold put_bytes.
  rewrite length_le_bytes, wrap_small by (unfold is_u; lia).
  in_bounds; case_bool_decide; try lia; [done|].
  unfold store_at. rewrite length_le_bytes, bool_decide_eq_true_2 by lia.
  set (st := splice _ _ _). assert (length st = length (_storage b)) as Hlen.
  { apply length_splice. rewrite length_le_bytes. unfold size in *. lia. }
  split_and!; try done.
  - destruct Hwf. split; unfold size in *; simpl; try rewrite Hlen; auto.
    apply Forall_splice; auto using le_bytes_u8.
  - unfold size; simpl. by rewrite Hlen.
  - unfold read_T_at, size. simpl. rewrite Hlen, wrap_small by (unfold is_u; lia).
    unfold size in *. in_bounds; [lia|]. unfold st_bind.
    rewrite load_at_safe by (unfold size; simpl; rewrite ?Hlen; lia). simpl. do 2 f_equal.
    assert (slice (Z.to_nat pos) n st = le_bytes n v) as ->.
    { rewrite <- (length_le_bytes n v) at 1. apply slice_splice_eq. lia. }
    rewrite le_val_le_bytes. by apply wrap_small.
  - intros q Hq. unfold st, splice. unfold size in *. rewrite length_le_bytes. simpl.
    destruct Hq as [Hq|Hq].
    + rewrite lookup_app_l by (rewrite length_take; lia). by rewrite lookup_take_lt by lia.
    + rewrite lookup_app_r by (rewrite length_take; lia).
      rewrite lookup_app_r by (rewrite length_take, length_le_bytes; lia).
      rewrite lookup_drop, length_take, length_le_bytes. f_equal. lia.
Qed.

Lemma put_patches_in_place_witness :
  let b := mkBB 0 6 [9; 0; 0; 0; 0; 9] in
  let '(o, b') := put_T MANGOS_ENDIAN 4 1 258 b in
  if bool_decide (1 + Z.of_nat 4 <= size b) then
    o = Ok tt /\ wf b' /\ size b' = size b /\ _rpos b' = _rpos b /\ _wpos b' = _wpos b /\
    (read_T_at MANGOS_ENDIAN 4 1 b').1 = Ok 258 /\
    (forall q : nat, (Z.of_nat q < 1 \/ 1 + Z.of_nat 4 <= Z.of_nat q) ->
      _storage b' !! q = _storage b !! q)
  else o = Throw (mkBBE true 1 (Z.of_nat 4) (size b)) /\ b' = b.
Proof.
  apply (put_patches_in_place 4 1 258 (mkBB 0 6 [9; 0; 0; 0; 0; 9])); try lia.
  - split; unfold size; simpl; try lia. repeat constructor; simpl; lia.
  - split; simpl; lia.
Defined.
