(* ===== verification/ObjectGuid.v ===== *)
(** * ObjectGuid: 64-bit object identifiers and the packets that carry them

    Model of [src/game/ObjectGuid.h] and [src/game/ObjectGuid.cpp] (layout,
    accessors, packed form, clamping, the per-type counter generator) and of
    [src/shared/WorldPacket.h].  A GUID is its raw [uint64]; the high type is
    the 16-bit value of the C++ enumeration. *)

From stdpp Require Import pretty relations.
From S2P Require Import Prelude ByteBuffer Codec.

Local Open Scope prog_scope.

(** ** WorldPacket *)

Record WorldPacket := mkWP { wp_buf : ByteBuffer; m_opcode : Z; m_recvdTime : Z }.

Definition WorldPacket_empty : WorldPacket := mkWP ByteBuffer_new 0 0.
Definition WorldPacket_new (opcode : Z) : WorldPacket := mkWP ByteBuffer_new opcode 0.

(** [Initialize]: the contents go, the receive time stays. *)
Definition Initialize (opcode : Z) (p : WorldPacket) : WorldPacket :=
  mkWP (clear (wp_buf p)) opcode (m_recvdTime p).

Definition SetOpcode (opcode : Z) (p : WorldPacket) : WorldPacket :=
  mkWP (wp_buf p) opcode (m_recvdTime p).
Definition FillPacketTime (t : Z) (p : WorldPacket) : WorldPacket :=
  mkWP (wp_buf p) (m_opcode p) t.

(** ** Types *)

Definition HIGHGUID_ITEM := 0x4000.
Definition HIGHGUID_CONTAINER := 0x4000.
Definition HIGHGUID_PLAYER := 0x0000.
Definition HIGHGUID_GAMEOBJECT := 0xF110.
Definition HIGHGUID_TRANSPORT := 0xF120.
Definition HIGHGUID_UNIT := 0xF130.
Definition HIGHGUID_PET := 0xF140.
Definition HIGHGUID_DYNAMICOBJECT := 0xF100.
Definition HIGHGUID_CORPSE := 0xF101.
Definition HIGHGUID_MO_TRANSPORT := 0x1FC0.

Inductive TypeID :=
| TYPEID_OBJECT | TYPEID_ITEM | TYPEID_CONTAINER | TYPEID_UNIT | TYPEID_PLAYER
| TYPEID_GAMEOBJECT | TYPEID_DYNAMICOBJECT | TYPEID_CORPSE.

#[global] Instance TypeID_eq_dec : EqDecision TypeID.
Proof. solve_decision. Defined.

Definition TypeID_value (t : TypeID) : Z :=
  match t with
  | TYPEID_OBJECT => 0 | TYPEID_ITEM => 1 | TYPEID_CONTAINER => 2 | TYPEID_UNIT => 3
  | TYPEID_PLAYER => 4 | TYPEID_GAMEOBJECT => 5 | TYPEID_DYNAMICOBJECT => 6
  | TYPEID_CORPSE => 7
  end.

Definition high_in (high : Z) (l : list Z) : bool := existsb (Z.eqb high) l.

(** [ObjectGuid::HasEntry(HighGuid)]. *)
Definition HasEntry_high (high : Z) : bool :=
  if high_in high [HIGHGUID_ITEM; HIGHGUID_PLAYER; HIGHGUID_DYNAMICOBJECT;
                   HIGHGUID_CORPSE; HIGHGUID_MO_TRANSPORT] then false
  else true.

(** [ObjectGuid::GetTypeId(HighGuid)]. *)
Definition GetTypeId_high (high : Z) : TypeID :=
  if high =? HIGHGUID_ITEM then TYPEID_ITEM
  else if high =? HIGHGUID_UNIT then TYPEID_UNIT
  else if high =? HIGHGUID_PET then TYPEID_UNIT
  else if high =? HIGHGUID_PLAYER then TYPEID_PLAYER
  else if high =? HIGHGUID_GAMEOBJECT then TYPEID_GAMEOBJECT
  else if high =? HIGHGUID_DYNAMICOBJECT then TYPEID_DYNAMICOBJECT
  else if high =? HIGHGUID_CORPSE then TYPEID_CORPSE
  else if high =? HIGHGUID_MO_TRANSPORT then TYPEID_GAMEOBJECT
  else TYPEID_OBJECT.

Definition GetTypeName_high (high : Z) : string :=
  if high =? HIGHGUID_ITEM then "Item"
  else if high =? HIGHGUID_PLAYER then "Player"
  else if high =? HIGHGUID_GAMEOBJECT then "Gameobject"
  else if high =? HIGHGUID_TRANSPORT then "Transport"
  else if high =? HIGHGUID_UNIT then "Creature"
  else if high =? HIGHGUID_PET then "Pet"
  else if high =? HIGHGUID_DYNAMICOBJECT then "DynObject"
  else if high =? HIGHGUID_CORPSE then "Corpse"
  else if high =? HIGHGUID_MO_TRANSPORT then "MoTransport"
  else "<unknown>".

(** ** The identifier *)

(** [ObjectGuid(HighGuid hi, uint32 entry, uint32 counter)]. *)
Definition ObjectGuid_entry (hi entry counter : Z) : Z :=
  if truth counter
  then Z.lor (Z.lor counter (u64 (Z.shiftl entry 24))) (u64 (Z.shiftl hi 48))
  else 0.

(** [ObjectGuid(HighGuid hi, uint32 counter)]. *)
Definition ObjectGuid_low (hi counter : Z) : Z :=
  if truth counter then Z.lor counter (u64 (Z.shiftl hi 48)) else 0.

Definition GetHigh (guid : Z) : Z := Z.land (Z.shiftr guid 48) 0x0000FFFF.
Definition HasEntry (guid : Z) : bool := HasEntry_high (GetHigh guid).
Definition GetEntry (guid : Z) : Z :=
  if HasEntry guid then u32 (Z.land (Z.shiftr guid 24) 0x0000000000FFFFFF) else 0.

(** [GetCounter(uint64 guid, bool hasEntry)] and [GetCounter()]. *)
Definition GetCounter_of (guid : Z) (hasEntry : bool) : Z :=
  if hasEntry then u32 (Z.land guid 0x0000000000FFFFFF)
  else u32 (Z.land guid 0x00000000FFFFFFFF).
Definition GetCounter (guid : Z) : Z := GetCounter_of guid (HasEntry guid).

Definition GetMaxCounter (high : Z) : Z :=
  if HasEntry_high high then 0x00FFFFFF else 0xFFFFFFFF.

Definition IsEmpty (guid : Z) : bool := guid =? 0.
Definition IsCreature (guid : Z) : bool := GetHigh guid =? HIGHGUID_UNIT.
Definition IsPet (guid : Z) : bool := GetHigh guid =? HIGHGUID_PET.
Definition IsCreatureOrPet (guid : Z) : bool := IsCreature guid || IsPet guid.
Definition IsPlayer (guid : Z) : bool := negb (IsEmpty guid) && (GetHigh guid =? HIGHGUID_PLAYER).
Definition IsUnit (guid : Z) : bool := IsCreatureOrPet guid || IsPlayer guid.
Definition IsItem (guid : Z) : bool := GetHigh guid =? HIGHGUID_ITEM.
Definition IsGameObject (guid : Z) : bool := GetHigh guid =? HIGHGUID_GAMEOBJECT.
Definition IsDynamicObject (guid : Z) : bool := GetHigh guid =? HIGHGUID_DYNAMICOBJECT.
Definition IsCorpse (guid : Z) : bool := GetHigh guid =? HIGHGUID_CORPSE.
Definition IsTransport (guid : Z) : bool := GetHigh guid =? HIGHGUID_TRANSPORT.
Definition IsMOTransport (guid : Z) : bool := GetHigh guid =? HIGHGUID_MO_TRANSPORT.
Definition GetTypeId (guid : Z) : TypeID := GetTypeId_high (GetHigh guid).
Definition GetTypeName (guid : Z) : string :=
  if negb (IsEmpty guid) then GetTypeName_high (GetHigh guid) else "None".

(** [ObjectGuid::GetString]; the player-name cache of ObjectMgr is an argument. *)
Definition GetString (GetPlayerNameByGUID : Z -> option string) (guid : Z) : string :=
  let name := if IsPlayer guid then
                match GetPlayerNameByGUID guid with
                | Some n => String.append " " n
                | None => ""
                end
              else "" in
  let entry := if HasEntry guid
               then String.append (if IsPet guid then "Petnumber: " else "Entry: ")
                      (String.append (pretty (GetEntry guid)) " ")
               else "" in
  String.append (GetTypeName guid)
    (String.append name
      (String.append " (" (String.append entry
        (String.append "Guid: " (String.append (pretty (GetCounter guid)) ")"))))).

(** The macros kept for older code: [GUID_HIPART], [_GUID_LOPART_2],
    [_GUID_LOPART_3], [IsGuidHaveEnPart], [GUID_LOPART]. *)
Definition GUID_HIPART (x : Z) : Z := u32 (Z.land (Z.shiftr x 48) 0x0000FFFF).
Definition IsGuidHaveEnPart (guid : Z) : bool :=
  if high_in (GUID_HIPART guid) [HIGHGUID_ITEM; HIGHGUID_PLAYER; HIGHGUID_DYNAMICOBJECT;
                                 HIGHGUID_CORPSE; HIGHGUID_MO_TRANSPORT] then false
  else true.
Definition GUID_LOPART (x : Z) : Z :=
  if IsGuidHaveEnPart x then u32 (Z.land x 0x0000000000FFFFFF)
  else u32 (Z.land x 0x00000000FFFFFFFF).

(** [ClampPlayerGuid(uint64& value)]. *)
Definition ClampPlayerGuid (value : Z) : Z :=
  if GetHigh value =? HIGHGUID_PLAYER
  then GetCounter_of value (HasEntry_high HIGHGUID_PLAYER)
  else value.

(** ** Stream operators *)

Definition write_guid (guid : Z) : BB unit := write_u64 guid.

(** [operator>>(ByteBuffer&, ObjectGuid&)]. *)
Definition read_guid : BB Z :=
  let! value := read_u64 in st_ret (ClampPlayerGuid value).

(** [PackedGuid]: a buffer of its own holding the packed form. *)
Definition PackedGuid_new (guid : Z) : outcome ByteBufferException unit * ByteBuffer :=
  appendPackGUID guid ByteBuffer_new.
Definition PackedGuid_Set (guid : Z) (p : ByteBuffer) : outcome ByteBufferException unit * ByteBuffer :=
  appendPackGUID guid (set_wpos 0 p).
Definition write_packed (p : ByteBuffer) : BB unit := append_buffer p.

(** [buf << guid.WriteAsPacked()]: build the packed form, append it. *)
Definition WriteAsPacked (guid : Z) : BB unit := fun b =>
  match PackedGuid_new guid with
  | (Ok _, p) => write_packed p b
  | (Throw e, _) => (Throw e, b)
  | (Abort, _) => (Abort, b)
  | (UB, _) => (UB, b)
  | (Diverge, _) => (Diverge, b)
  end.

(** [operator>>(ByteBuffer&, PackedGuidReader const&)]. *)
Definition read_packed : BB Z :=
  let! value := readPackGUID in st_ret (ClampPlayerGuid value).

(** ** Counter generator

    [World::StopNow] only raises the stop flag: the generator goes on and
    returns a number. *)

Record GuidGenerator := mkGen { m_nextGuid : Z; m_freedGuids : list Z; stop_now : bool }.

Definition GuidGenerator_new (start : Z) : GuidGenerator := mkGen start [] false.

Definition Gen_Set (val : Z) (g : GuidGenerator) : GuidGenerator :=
  mkGen val (m_freedGuids g) (stop_now g).

(** [ObjectGuidGenerator<high>::Generate]. *)
Definition Generate (high : Z) (g : GuidGenerator) : Z * GuidGenerator :=
  match m_freedGuids g with
  | f :: rest => (f, mkGen (m_nextGuid g) rest (stop_now g))
  | [] =>
      let stop := stop_now g || (m_nextGuid g >=? u32 (GetMaxCounter high - 1)) in
      (m_nextGuid g, mkGen (u32 (m_nextGuid g + 1)) [] stop)
  end.

(** [ObjectGuidGenerator<high>::GenerateRange]: [first .. last). *)
Definition GENERATE_RANGE_SIZE := 100.
Definition GenerateRange (high : Z) (g : GuidGenerator) : (Z * Z) * GuidGenerator :=
  let stop := stop_now g || (m_nextGuid g >=? u32 (GetMaxCounter high - GENERATE_RANGE_SIZE)) in
  let first := m_nextGuid g in
  let last := u32 (m_nextGuid g + GENERATE_RANGE_SIZE) in
  ((first, last), mkGen last (m_freedGuids g) stop).

Definition FreeGuid (guid : Z) (g : GuidGenerator) : GuidGenerator :=
  mkGen (m_nextGuid g) (m_freedGuids g ++ [guid]) (stop_now g).

(** ** Field arithmetic *)

Lemma GetHigh_div g : 0 <= g -> GetHigh g = g / 2 ^ 48 mod 2 ^ 16.
Proof. intros. unfold GetHigh. by rewrite (land_mask 16), Z.shiftr_div_pow2 by lia. Qed.

Lemma GetCounter_of_mod g he :
  0 <= g -> GetCounter_of g he = g mod 2 ^ (if he then 24 else 32).
Proof.
  intros. unfold GetCounter_of. destruct he.
  - rewrite (land_mask 24) by lia. apply wrap_small.
    pose proof (Z.mod_pos_bound g (2 ^ 24)). unfold is_u. lia.
  - rewrite (land_mask 32) by lia. apply wrap_small. by apply Z.mod_pos_bound.
Qed.

Lemma GetEntry_div g : 0 <= g ->
  GetEntry g = if HasEntry g then g / 2 ^ 24 mod 2 ^ 24 else 0.
Proof.
  intros. unfold GetEntry. case_match; [|done].
  rewrite (land_mask 24), Z.shiftr_div_pow2 by lia. apply wrap_small.
  pose proof (Z.mod_pos_bound (g / 2 ^ 24) (2 ^ 24)). unfold is_u. lia.
Qed.

Lemma ObjectGuid_entry_sum hi entry counter :
  is_u 16 hi -> is_u 24 entry -> 0 < counter < 2 ^ 24 ->
  ObjectGuid_entry hi entry counter = counter + entry * 2 ^ 24 + hi * 2 ^ 48.
Proof.
  intros Hh He Hc. unfold ObjectGuid_entry, truth, is_u in *.
  destruct (Z.eqb_spec counter 0); [lia|]. cbn [negb].
  rewrite !wrap_small by (unfold is_u; rewrite Z.shiftl_mul_pow2 by lia; lia).
  by rewrite (lor_shiftl_add 24), (lor_shiftl_add 48) by lia.
Qed.

Lemma ObjectGuid_low_sum hi counter :
  is_u 16 hi -> 0 < counter < 2 ^ 48 ->
  ObjectGuid_low hi counter = counter + hi * 2 ^ 48.
Proof.
  intros Hh Hc. unfold ObjectGuid_low, truth, is_u in *.
  destruct (Z.eqb_spec counter 0); [lia|]. cbn [negb].
  rewrite !wrap_small by (unfold is_u; rewrite Z.shiftl_mul_pow2 by lia; lia).
  by rewrite (lor_shiftl_add 48) by lia.
Qed.

Lemma field_div a b k : 0 <= k -> 0 <= a < 2 ^ k -> (a + b * 2 ^ k) / 2 ^ k = b.
Proof.
  intros Hk Ha. pose proof (pow2_pos k Hk).
  rewrite Z.div_add by lia. by rewrite (Z.div_small a) by done.
Qed.

Lemma field_mod a b k : 0 <= k -> 0 <= a < 2 ^ k -> (a + b * 2 ^ k) mod 2 ^ k = a.
Proof. intros Hk Ha. rewrite Z_mod_plus_full. by apply Z.mod_small. Qed.

Lemma ClampPlayerGuid_spec v :
  is_u 64 v ->
  ClampPlayerGuid v = if GetHigh v =? HIGHGUID_PLAYER then v mod 2 ^ 32 else v.
Proof.
  intros [Hv _]. unfold ClampPlayerGuid. case_match; [|done]. by apply GetCounter_of_mod.
Qed.

Lemma GetHigh_small v : is_u 32 v -> GetHigh v = HIGHGUID_PLAYER.
Proof.
  intros [Hl Hu]. rewrite GetHigh_div by done. rewrite Z.div_small by lia. done.
Qed.

Lemma ClampPlayerGuid_u64 v : is_u 64 v -> is_u 64 (ClampPlayerGuid v).
Proof.
  intros Hv. rewrite ClampPlayerGuid_spec by done. case_match; [|done].
  pose proof (Z.mod_pos_bound v (2 ^ 32)). unfold is_u in *. lia.
Qed.

(** [canonical g]: what a GUID parsed from a packet can be. *)
Definition canonical (g : Z) : Prop := is_u 64 g /\ ClampPlayerGuid g = g.

#[global] Instance codec_guid : Codec write_guid read_guid.
Proof.
  refine {| enc := le_bytes 8; valid := canonical |}.
  - intros x _. apply le_bytes_u8.
  - intros x b [Hx _] Hwf Hr. by apply (@wr_spec _ _ _ codec_u64).
  - intros x b [Hx Hc] Hwf Ha. unfold read_guid.
    rewrite (st_bind_ok _ _ _ _ _ (@rd_spec _ _ _ codec_u64 x b Hx Hwf Ha)).
    unfold st_ret. by rewrite Hc.
Defined.

Lemma PackedGuid_new_ok g : is_u 64 g ->
  PackedGuid_new g = (Ok tt, appended (nz_mask 8 g :: nz_bytes 8 g) ByteBuffer_new).
Proof.
  intros Hg. unfold PackedGuid_new.
  apply (@wr_spec _ _ _ codec_packguid); [done|apply wf_new|].
  pose proof (nz_bytes_ok 8 g) as [_ Hl].
  change (0 + Z.of_nat (S (length (nz_bytes 8 g))) <= 10000000). lia.
Qed.

Lemma append_buffer_new bs b : bs <> [] ->
  append_buffer (appended bs ByteBuffer_new) b = append_bytes bs b.
Proof.
  intros Hne. unfold append_buffer.
  assert (appended bs ByteBuffer_new = mkBB 0 (Z.of_nat (length bs)) bs) as ->.
  { unfold appended, ByteBuffer_new, splice. cbn [_rpos _wpos _storage].
    change (Z.to_nat 0) with 0%nat. rewrite take_nil, drop_nil, app_nil_r. done. }
  cbn [_wpos]. unfold truth.
  destruct (Z.eqb_spec (Z.of_nat (length bs)) 0) as [H0|_]; [by destruct bs|].
  cbn [negb]. rewrite load_at_safe, Nat2Z.id by (unfold size; cbn [_storage]; lia).
  unfold slice. cbn [_storage]. by rewrite drop_0, take_ge by done.
Qed.

Lemma WriteAsPacked_append g b : is_u 64 g ->
  WriteAsPacked g b = append_bytes (nz_mask 8 g :: nz_bytes 8 g) b.
Proof.
  intros Hg. unfold WriteAsPacked. rewrite PackedGuid_new_ok by done.
  by apply append_buffer_new.
Qed.

#[global] Instance codec_packed : Codec WriteAsPacked read_packed.
Proof.
  refine {| enc (g : Z) := nz_mask 8 g :: nz_bytes 8 g; valid := canonical |}.
  - intros g [Hg _]. by apply (@enc_bytes _ _ _ codec_packguid).
  - intros g b [Hg _] Hwf Hr. rewrite WriteAsPacked_append by done. by apply append_bytes_ok.
  - intros g b [Hg Hc] Hwf Ha. unfold read_packed.
    rewrite (st_bind_ok _ _ _ _ _ (@rd_spec _ _ _ codec_packguid g b Hg Hwf Ha)).
    unfold st_ret. by rewrite Hc.
Defined.

(** ** Uniqueness of generated counters

    [gen_step] is one use of a generator together with the set of numbers in
    use: a number is given out, a block is given out, or a number in use is
    returned. *)

Definition range_set (first last : Z) : gset Z := list_to_set (seqZ first (last - first)).

Inductive gen_step (high : Z) : GuidGenerator * gset Z -> GuidGenerator * gset Z -> Prop :=
| gs_generate g live x g' :
    Generate high g = (x, g') -> gen_step high (g, live) (g', {[x]} ∪ live)
| gs_range g live a b g' :
    GenerateRange high g = ((a, b), g') -> gen_step high (g, live) (g', range_set a b ∪ live)
| gs_free g live x :
    x ∈ live -> gen_step high (g, live) (FreeGuid x g, live ∖ {[x]}).

(** While the stop flag is down, everything in use or returned lies below the
    next number, and nothing is both, or returned twice. *)
Definition gen_inv (high : Z) (s : GuidGenerator * gset Z) : Prop :=
  let '(g, live) := s in
  stop_now g = false ->
  1 <= m_nextGuid g < GetMaxCounter high /\
  (forall x, x ∈ live \/ x ∈ m_freedGuids g -> 1 <= x < m_nextGuid g) /\
  (forall x, x ∈ live -> x ∉ m_freedGuids g) /\
  NoDup (m_freedGuids g).

Lemma max_counter_cases high :
  GetMaxCounter high = 0xFFFFFF \/ GetMaxCounter high = 0xFFFFFFFF.
Proof. unfold GetMaxCounter. case_match; auto. Qed.

Lemma elem_of_range_set x a b : x ∈ range_set a b <-> a <= x < b.
Proof. unfold range_set. rewrite elem_of_list_to_set, elem_of_seqZ. lia. Qed.

Lemma gen_step_inv high s s' : gen_step high s s' -> gen_inv high s -> gen_inv high s'.
Proof.
  pose proof (max_counter_cases high) as Hm.
  intros Hstep. destruct Hstep as [[nx fr st] live x g' Hg|[nx fr st] live a b g' Hg|[nx fr st] live x Hx];
    cbn [gen_inv]; intros Hinv Hstop.
  - unfold Generate in Hg. cbn in Hg. destruct fr as [|f fr]; simplify_eq; cbn in *.
    + apply orb_false_iff in Hstop as [-> Hlt]. destruct Hinv as (Hn & Hlf & Hd & Hnd); [done|].
      rewrite Z.geb_leb in Hlt. apply Z.leb_gt in Hlt.
      rewrite wrap_small in Hlt by (unfold is_u; lia).
      rewrite wrap_small by (unfold is_u; lia).
      split_and!; [lia|lia| | |done].
      * intros y [Hy|Hy]; [|set_solver]. assert (y = x \/ y ∈ live) as [->|Hy'] by set_solver; [lia|].
        specialize (Hlf y (or_introl Hy')). lia.
      * set_solver.
    + destruct Hinv as (Hn & Hlf & Hd & Hnd); [done|]. apply NoDup_cons in Hnd as [Hf Hnd].
      split_and!; [lia|lia| | |done].
      * intros y Hy. apply Hlf. set_solver.
      * intros y Hy. assert (y = x \/ y ∈ live) as [->|Hy'] by set_solver; [done|].
        specialize (Hd y Hy'). set_solver.
  - unfold GenerateRange in Hg. simplify_eq. cbn in *.
    apply orb_false_iff in Hstop as [-> Hlt]. destruct Hinv as (Hn & Hlf & Hd & Hnd); [done|].
    rewrite Z.geb_leb in Hlt. apply Z.leb_gt in Hlt. unfold GENERATE_RANGE_SIZE in *.
    rewrite wrap_small in Hlt by (unfold is_u; lia).
    rewrite wrap_small by (unfold is_u; lia).
    split_and!; [lia|lia| | |done].
    + intros y [[Hy%elem_of_range_set|Hy]%elem_of_union|Hy]; [lia| |];
        (assert (1 <= y < nx) by (apply Hlf; auto)); lia.
    + intros y [Hy%elem_of_range_set|Hy]%elem_of_union; [|auto].
      intros Hfr. specialize (Hlf y (or_intror Hfr)). lia.
  - cbn in *. destruct Hinv as (Hn & Hlf & Hd & Hnd); [done|].
    split_and!; [lia|lia| | |].
    + intros y Hy. apply Hlf. set_solver.
    + set_solver.
    + apply NoDup_app. split_and!; [done|set_solver|apply NoDup_singleton].
Qed.

Lemma gen_reachable_inv high start s :
  1 <= start < GetMaxCounter high ->
  rtc (gen_step high) (GuidGenerator_new start, ∅) s -> gen_inv high s.
Proof.
  intros Hs Hr.
  assert (gen_inv high (GuidGenerator_new start, ∅)) as H0.
  { intros _. cbn. split_and!; try lia; [set_solver|set_solver|constructor]. }
  induction Hr; eauto using gen_step_inv.
Qed.

(** ** Main properties *)

(** A GUID built from its parts gives them back: for a 16-bit type, a
    24-bit entry and a counter up to the type's maximum, the high part, the
    counter and (for types that carry one) the entry are recovered, and the
    value fits 64 bits. *)
Theorem guid_fields_roundtrip hi entry counter :
  is_u 16 hi -> is_u 24 entry -> 0 < counter <= GetMaxCounter hi ->
  let g := if HasEntry_high hi then ObjectGuid_entry hi entry counter
           else ObjectGuid_low hi counter in
  is_u 64 g /\ GetHigh g = hi /\ GetCounter g = counter /\
  GetEntry g = (if HasEntry_high hi then entry else 0).
Proof.
  intros Hh He Hc g. unfold GetMaxCounter in Hc.
  assert (Hg : exists low, g = low + hi * 2 ^ 48 /\ 0 <= low < 2 ^ 48 /\
    (if HasEntry_high hi then low = counter + entry * 2 ^ 24 else low = counter)).
  { unfold g. destruct (HasEntry_high hi).
    - exists (counter + entry * 2 ^ 24). rewrite ObjectGuid_entry_sum by (try done; lia).
      unfold is_u in *. split_and!; lia.
    - exists counter. rewrite ObjectGuid_low_sum by (try done; lia). split_and!; lia. }
  destruct Hg as (low & -> & Hlow & Hf). unfold is_u in *.
  assert (GetHigh (low + hi * 2 ^ 48) = hi) as Hgh.
  { rewrite GetHigh_div, field_div by lia. apply Z.mod_small. lia. }
  assert (Hlow64 : forall k, 0 <= k <= 48 -> (low + hi * 2 ^ 48) mod 2 ^ k = low mod 2 ^ k).
  { intros k Hk. replace 48 with (k + (48 - k)) by lia. rewrite Z.pow_add_r by lia.
    rewrite (Z.mul_comm (2 ^ k)), Z.mul_assoc. apply Z_mod_plus_full. }
  split_and!; [lia|lia|done| |].
  - unfold GetCounter, HasEntry. rewrite Hgh, GetCounter_of_mod, Hlow64
      by (destruct (HasEntry_high hi); lia).
    destruct (HasEntry_high hi); subst low; [apply field_mod; lia|apply Z.mod_small; lia].
  - rewrite GetEntry_div by lia. unfold HasEntry. rewrite Hgh.
    destruct (HasEntry_high hi); [|done]. subst low.
    replace (counter + entry * 2 ^ 24 + hi * 2 ^ 48)
      with (counter + (entry + hi * 2 ^ 24) * 2 ^ 24) by lia.
    rewrite field_div by lia. apply field_mod; lia.
Qed.

Lemma guid_fields_roundtrip_witness :
  let g := ObjectGuid_entry HIGHGUID_UNIT 1234 77 in
  is_u 64 g /\ GetHigh g = HIGHGUID_UNIT /\ GetCounter g = 77 /\ GetEntry g = 1234.
Proof. apply (guid_fields_roundtrip HIGHGUID_UNIT 1234 77); vm_compute; done. Defined.

(** A GUID read from a packet is canonical.  Clamping keeps the type and
    every non-player GUID, reduces a player GUID to its 32-bit counter, is
    idempotent, and identifies two player GUIDs exactly when their counters
    are equal: a client cannot name one player by two different values. *)
Theorem clamp_canonical v w :
  is_u 64 v -> is_u 64 w ->
  canonical (ClampPlayerGuid v) /\
  GetHigh (ClampPlayerGuid v) = GetHigh v /\
  (GetHigh v <> HIGHGUID_PLAYER -> ClampPlayerGuid v = v) /\
  (GetHigh v = HIGHGUID_PLAYER -> GetHigh w = HIGHGUID_PLAYER ->
    (ClampPlayerGuid v = ClampPlayerGuid w <-> GetCounter v = GetCounter w)).
Proof.
  intros Hv Hw. unfold canonical. pose proof (ClampPlayerGuid_u64 v Hv) as Hu.
  rewrite (ClampPlayerGuid_spec (ClampPlayerGuid v)) by done.
  rewrite !ClampPlayerGuid_spec in * by done.
  assert (forall x, is_u 64 x -> GetHigh x = HIGHGUID_PLAYER -> GetCounter x = x mod 2 ^ 32) as Hc.
  { intros x [Hx _] Hh. unfold GetCounter, HasEntry. rewrite Hh. by apply GetCounter_of_mod. }
  destruct (Z.eqb_spec (GetHigh v) HIGHGUID_PLAYER) as [Hp|Hp].
  - assert (is_u 32 (v mod 2 ^ 32)) as Hs by (by apply Z.mod_pos_bound).
    rewrite GetHigh_small, Hp, Z.mod_mod by (try done; lia). split_and!; try done.
    intros _ Hpw. rewrite Hpw, Hc, Hc by done. done.
  - destruct (Z.eqb_spec (GetHigh v) HIGHGUID_PLAYER); done.
Qed.

Lemma clamp_canonical_witness :
  canonical (ClampPlayerGuid (2 ^ 32 + 7)) /\
  GetHigh (ClampPlayerGuid (2 ^ 32 + 7)) = GetHigh (2 ^ 32 + 7) /\
  (GetHigh (2 ^ 32 + 7) <> HIGHGUID_PLAYER -> ClampPlayerGuid (2 ^ 32 + 7) = 2 ^ 32 + 7) /\
  (GetHigh (2 ^ 32 + 7) = HIGHGUID_PLAYER -> GetHigh 7 = HIGHGUID_PLAYER ->
    (ClampPlayerGuid (2 ^ 32 + 7) = ClampPlayerGuid 7 <-> GetCounter (2 ^ 32 + 7) = GetCounter 7)).
Proof. apply (clamp_canonical (2 ^ 32 + 7) 7); split; lia. Defined.

(** C12. Generated counters are unique: after any history of single and block
    generation and of returning numbers in use, a number handed out while the
    stop flag stays down is not in use, is not zero and is below the type's
    maximum; likewise every number of a block. *)
Theorem generate_fresh high start g live :
  1 <= start < GetMaxCounter high ->
  rtc (gen_step high) (GuidGenerator_new start, ∅) (g, live) ->
  (forall x g', Generate high g = (x, g') -> stop_now g' = false ->
    x ∉ live /\ 0 < x < GetMaxCounter high) /\
  (forall a b g', GenerateRange high g = ((a, b), g') -> stop_now g' = false ->
    b = a + GENERATE_RANGE_SIZE /\ forall x, a <= x < b -> x ∉ live /\ 0 < x < GetMaxCounter high).
Proof.
  intros Hs Hr. pose proof (gen_reachable_inv _ _ _ Hs Hr) as Hinv. cbn in Hinv.
  pose proof (max_counter_cases high) as Hm. split.
  - intros x g' Hg Hstop. destruct g as [nx fr st]. unfold Generate in Hg. cbn in *.
    destruct fr as [|f fr]; simplify_eq; cbn in *.
    + apply orb_false_iff in Hstop as [-> _]. destruct Hinv as (? & Hlf & _); [done|].
      split; [|lia]. intros Hx. specialize (Hlf x (or_introl Hx)). lia.
    + destruct Hinv as (? & Hlf & Hd & _); [done|].
      assert (1 <= x < nx) by (apply Hlf; set_solver). split; [|lia].
      intros Hx. specialize (Hd x Hx). set_solver.
  - intros a b g' Hg Hstop. destruct g as [nx fr st]. unfold GenerateRange in Hg. simplify_eq.
    cbn in *. apply orb_false_iff in Hstop as [-> Hlt]. destruct Hinv as (? & Hlf & _); [done|].
    rewrite Z.geb_leb in Hlt. apply Z.leb_gt in Hlt. unfold GENERATE_RANGE_SIZE in *.
    rewrite wrap_small in Hlt by (unfold is_u; lia). rewrite wrap_small by (unfold is_u; lia).
    split; [done|]. intros x Hx. split; [|lia]. intros Hl. specialize (Hlf x (or_introl Hl)). lia.
Qed.

Lemma generate_fresh_witness :
  let g := FreeGuid 5 (mkGen 6 [] false) in
  (forall x g', Generate HIGHGUID_ITEM g = (x, g') -> stop_now g' = false ->
    x ∉ (∅ : gset Z) /\ 0 < x < GetMaxCounter HIGHGUID_ITEM) /\
  (forall a b g', GenerateRange HIGHGUID_ITEM g = ((a, b), g') -> stop_now g' = false ->
    b = a + GENERATE_RANGE_SIZE /\
    forall x, a <= x < b -> x ∉ (∅ : gset Z) /\ 0 < x < GetMaxCounter HIGHGUID_ITEM).
Proof.
  apply (generate_fresh HIGHGUID_ITEM 5 _ ∅); [vm_compute; done|].
  eapply rtc_l; [by eapply gs_generate|].
  eapply rtc_l; [eapply (gs_free _ _ _ 5); set_solver|].
  by apply reflexive_eq.
Defined.

(** The macros kept for older code compute the same parts as the class. *)
Theorem legacy_macros_agree g :
  is_u 64 g ->
  GUID_HIPART g = GetHigh g /\ IsGuidHaveEnPart g = HasEntry g /\ GUID_LOPART g = GetCounter g.
Proof.
  intros [Hl Hu].
  assert (GUID_HIPART g = GetHigh g) as Hh.
  { unfold GUID_HIPART. change (Z.land (Z.shiftr g 48) 0x0000FFFF) with (GetHigh g).
    apply wrap_small. rewrite GetHigh_div by done.
    pose proof (Z.mod_pos_bound (g / 2 ^ 48) (2 ^ 16)). unfold is_u. lia. }
  assert (IsGuidHaveEnPart g = HasEntry g) as He.
  { unfold IsGuidHaveEnPart. by rewrite Hh. }
  split_and!; [done|done|]. unfold GUID_LOPART. by rewrite He.
Qed.

Lemma legacy_macros_agree_witness :
  let g := ObjectGuid_entry HIGHGUID_PET 5 6 in
  GUID_HIPART g = GetHigh g /\ IsGuidHaveEnPart g = HasEntry g /\ GUID_LOPART g = GetCounter g.
Proof. apply (legacy_macros_agree (ObjectGuid_entry HIGHGUID_PET 5 6)). vm_compute. done. Defined.
