(* ===== verification/Packets.v ===== *)
(** * Packets: building server messages

    The pattern [data.Initialize(opcode); data << a << b;] that every packet
    builder of the server uses, and the chat packet of
    [ChatHandler::BuildChatPacket] ([src/game/Chat/Chat.cpp]).  A [std::string]
    is a Rocq [string] of its bytes. *)

From S2P Require Import Prelude ByteBuffer Codec ObjectGuid.

Local Open Scope prog_scope.

(** A packet under construction. *)
Definition PK (A : Type) : Type := St WorldPacket ByteBufferException A.

Definition pk_buf {A} (m : BB A) : PK A := fun p =>
  let '(o, b) := m (wp_buf p) in (o, mkWP b (m_opcode p) (m_recvdTime p)).

Definition pk_init (opcode : Z) : PK unit := st_mod (Initialize opcode).
Definition pk_u8 (v : Z) : PK unit := pk_buf (write_u8 (u8 v)).
Definition pk_u32 (v : Z) : PK unit := pk_buf (write_u32 (u32 v)).
Definition pk_guid (g : Z) : PK unit := pk_buf (write_guid g).
Definition pk_str (s : string) : PK unit := pk_buf (write_string (bytes_of_string s)).
(** [data << (char const* )str]. *)
Definition pk_cstr (s : string) : PK unit := pk_buf (write_cstr (Some (bytes_of_string s))).
Definition pk_size : PK Z := st_get (fun p => size (wp_buf p)).
Definition pk_wpos : PK Z := st_get (fun p => _wpos (wp_buf p)).
Definition pk_put_u32 (pos v : Z) : PK unit := pk_buf (put_T MANGOS_ENDIAN 4 pos (u32 v)).
Definition pk_put_u8 (pos v : Z) : PK unit := pk_buf (put_T MANGOS_ENDIAN 1 pos (u8 v)).

Fixpoint pk_each {A} (f : A -> PK unit) (l : list A) : PK unit :=
  match l with
  | [] => st_ret tt
  | x :: l' => f x ;;; pk_each f l'
  end.

(** [std::string::size]. *)
Definition slen (s : string) : Z := Z.of_nat (String.length s).
(** [strlen]. *)
Definition strlen (s : string) : Z := Z.of_nat (length (strlen_prefix (bytes_of_string s))).

(** [MANGOS_ASSERT] on a pointer. *)
Definition pk_assert (o : option string) : PK string :=
  match o with
  | Some s => st_ret s
  | None => fun p => (Abort, p)
  end.

(** ** Chat packets *)

Definition SMSG_MESSAGECHAT := 0x096.
Definition CHAT_MSG_SAY := 0x00.
Definition CHAT_MSG_PARTY := 0x01.
Definition CHAT_MSG_YELL := 0x05.
Definition CHAT_MSG_SYSTEM := 0x0A.
Definition CHAT_MSG_MONSTER_SAY := 0x0B.
Definition CHAT_MSG_MONSTER_YELL := 0x0C.
Definition CHAT_MSG_MONSTER_EMOTE := 0x0D.
Definition CHAT_MSG_CHANNEL := 0x0E.
Definition CHAT_MSG_MONSTER_WHISPER := 0x1A.
Definition CHAT_MSG_RAID_BOSS_WHISPER := 0x59.
Definition CHAT_MSG_RAID_BOSS_EMOTE := 0x5A.
Definition LANG_UNIVERSAL := 0.
Definition LANG_ADDON := 0xFFFFFFFF.
Definition CHAT_TAG_GM := 3.

(** [ChatHandler::BuildChatPacket]: the null pointers are [None]. *)
Definition BuildChatPacket (msgtype : Z) (message : string) (language chatTag : Z)
    (senderGuid : Z) (senderName : option string) (targetGuid : Z)
    (targetName channelName : option string) (playerRank : Z) : PK unit :=
  let messageFinal :=
    if (chatTag =? CHAT_TAG_GM) && negb (language =? LANG_ADDON)
    then String.append "|c1049e6ff" (String.append message "|r")
    else message in
  pk_init SMSG_MESSAGECHAT ;;;
  pk_u8 msgtype ;;;
  pk_u32 language ;;;
  (if high_in msgtype [CHAT_MSG_MONSTER_WHISPER; CHAT_MSG_RAID_BOSS_WHISPER;
                       CHAT_MSG_RAID_BOSS_EMOTE; CHAT_MSG_MONSTER_EMOTE] then
     let! name := pk_assert senderName in
     pk_u32 (strlen name + 1) ;;; pk_cstr name ;;; pk_guid targetGuid
   else if high_in msgtype [CHAT_MSG_SAY; CHAT_MSG_PARTY; CHAT_MSG_YELL] then
     pk_guid senderGuid ;;; pk_guid senderGuid
   else if high_in msgtype [CHAT_MSG_MONSTER_SAY; CHAT_MSG_MONSTER_YELL] then
     let! name := pk_assert senderName in
     pk_guid senderGuid ;;; pk_u32 (strlen name + 1) ;;; pk_cstr name ;;; pk_guid targetGuid
   else if msgtype =? CHAT_MSG_CHANNEL then
     let! name := pk_assert channelName in
     pk_cstr name ;;; pk_u32 playerRank ;;; pk_guid senderGuid
   else pk_guid senderGuid) ;;;
  if bool_decide (messageFinal = "") then st_ret tt
  else
    pk_u32 (Z.of_nat (String.length messageFinal) + 1) ;;;
    pk_str messageFinal ;;;
    pk_u8 chatTag.

(** ** What a builder leaves

    [packet op bs]: a fresh packet whose payload is exactly [bs]. *)

Definition packet (op : Z) (bs : list Z) : WorldPacket :=
  mkWP (mkBB 0 (Z.of_nat (length bs)) bs) op 0.

(** [builds k bs]: from a packet with payload [xs], [k] appends [bs] as long
    as the payload stays below the limit of [append]. *)
Definition builds (k : PK unit) (bs : list Z) : Prop :=
  forall op xs, Z.of_nat (length xs + length bs) <= 10000000 ->
    Forall (is_u 8) xs ->
    k (packet op xs) = (Ok tt, packet op (xs ++ bs)).

Lemma wf_packet_buf xs : Forall (is_u 8) xs -> Z.of_nat (length xs) <= 10000000 ->
  wf (mkBB 0 (Z.of_nat (length xs)) xs).
Proof. intros. split; unfold size; simpl; auto; lia. Qed.

Lemma appended_packet xs bs :
  appended bs (mkBB 0 (Z.of_nat (length xs)) xs) =
  mkBB 0 (Z.of_nat (length (xs ++ bs))) (xs ++ bs).
Proof.
  unfold appended. cbn [_rpos _wpos _storage]. rewrite Nat2Z.id, splice_end, length_app.
  f_equal. lia.
Qed.

Lemma builds_append (m : BB unit) bs :
  (forall b, wf b -> room bs b -> m b = (Ok tt, appended bs b)) -> builds (pk_buf m) bs.
Proof.
  intros Hm op xs Hlen Hxs. unfold pk_buf, packet. simpl.
  rewrite Hm; [by rewrite appended_packet|apply wf_packet_buf; auto; lia|].
  unfold room, size. simpl. lia.
Qed.

Lemma builds_seq k1 k2 bs1 bs2 :
  Forall (is_u 8) bs1 -> builds k1 bs1 -> builds k2 bs2 ->
  builds (k1 ;;; k2) (bs1 ++ bs2).
Proof.
  intros H8 H1 H2 op xs Hlen Hxs. rewrite length_app in Hlen.
  rewrite (st_bind_ok _ _ _ _ _ (H1 op xs ltac:(lia) Hxs)).
  rewrite H2; [by rewrite app_assoc|rewrite length_app; lia|by apply Forall_app].
Qed.

Lemma builds_u8 v : builds (pk_u8 v) [u8 v].
Proof.
  apply builds_append. intros b Hwf Hr.
  rewrite (@wr_spec _ _ _ codec_u8); [|by apply wrap_range|done|done].
  simpl. do 3 f_equal. apply (Z.mod_small (u8 v) 256). by apply (wrap_range 8).
Qed.

Lemma builds_u32 v : builds (pk_u32 v) (le_bytes 4 v).
Proof.
  apply builds_append. intros b Hwf Hr.
  assert (le_bytes 4 (u32 v) = le_bytes 4 v) as He by apply (le_bytes_wrap 4).
  rewrite <- He. apply (@wr_spec _ _ _ codec_u32); [by apply wrap_range|done|].
  unfold room in *. simpl enc. by rewrite length_le_bytes in *.
Qed.

Lemma builds_guid g : builds (pk_guid g) (le_bytes 8 g).
Proof. apply builds_append. intros. by apply append_T_spec. Qed.

Lemma builds_str s : builds (pk_str s) (bytes_of_string s ++ [0]).
Proof.
  apply builds_append. intros b Hwf Hr. unfold write_string.
  destruct (room_app _ _ _ Hwf Hr) as [H1 H2].
  rewrite (st_bind_ok _ _ _ _ _ (append_bytes_ok _ b Hwf H1)).
  rewrite (@wr_spec _ _ _ codec_u8); [by rewrite <- appended_app|by vm_compute| |done].
  apply wf_appended; auto using bytes_of_string_u8.
Qed.

Lemma strlen_prefix_prefix s : exists t, s = strlen_prefix s ++ t.
Proof.
  induction s as [|c s [t IH]]; simpl; [by exists []|]. case_match; [by eexists|].
  exists t. simpl. by f_equal.
Qed.

Lemma strlen_prefix_u8 s : Forall (is_u 8) s -> Forall (is_u 8) (strlen_prefix s).
Proof. destruct (strlen_prefix_prefix s) as [t Ht]. rewrite Ht at 1. by intros [? _]%Forall_app. Qed.

Lemma strlen_prefix_length s : (length (strlen_prefix s) <= length s)%nat.
Proof.
  destruct (strlen_prefix_prefix s) as [t Ht]. apply (f_equal length) in Ht.
  rewrite length_app in Ht. lia.
Qed.

Lemma builds_cstr s : builds (pk_cstr s) (strlen_prefix (bytes_of_string s) ++ [0]).
Proof.
  apply builds_append. intros b Hwf Hr. unfold write_cstr.
  destruct (room_app _ _ _ Hwf Hr) as [H1 H2].
  rewrite (st_bind_ok _ _ _ _ _ (append_bytes_ok _ b Hwf H1)).
  rewrite (@wr_spec _ _ _ codec_u8); [by rewrite <- appended_app|by vm_compute| |done].
  apply wf_appended; auto using bytes_of_string_u8, strlen_prefix_u8.
Qed.

Create HintDb packets.
#[export] Hint Resolve builds_u8 builds_u32 builds_guid builds_str builds_cstr : packets.
#[export] Hint Resolve le_bytes_u8 bytes_of_string_u8 strlen_prefix_u8 : packets.

Lemma Forall_u8_nil : Forall (is_u 8) [].
Proof. constructor. Qed.
Lemma Forall_u8_byte v : Forall (is_u 8) [u8 v].
Proof. repeat constructor; by apply (wrap_range 8). Qed.
Lemma Forall_u8_zero : Forall (is_u 8) [0].
Proof. by repeat constructor. Qed.
Lemma Forall_u8_app xs ys : Forall (is_u 8) xs -> Forall (is_u 8) ys -> Forall (is_u 8) (xs ++ ys).
Proof. intros. by apply Forall_app. Qed.
#[export] Hint Resolve Forall_u8_nil Forall_u8_byte Forall_u8_zero Forall_u8_app : packets.

Lemma builds_ret : builds (st_ret tt) [].
Proof. intros op xs _ _. by rewrite app_nil_r. Qed.

(** A packet started afresh. *)
Lemma built op k bs :
  builds k bs -> Z.of_nat (length bs) <= 10000000 ->
  (pk_init op ;;; k) WorldPacket_empty = (Ok tt, packet op bs).
Proof.
  intros Hk Hl. unfold pk_init. rewrite st_bind_mod.
  change (Initialize op WorldPacket_empty) with (packet op []). apply Hk; [done|constructor].
Qed.

(** ** Sizes

    [fits k n]: [k] writes at most [n] bytes. *)
Definition fits (k : PK unit) (n : Z) : Prop :=
  exists bs, builds k bs /\ Forall (is_u 8) bs /\ Z.of_nat (length bs) <= n.

Lemma fits_builds k bs n :
  builds k bs -> Forall (is_u 8) bs -> Z.of_nat (length bs) <= n -> fits k n.
Proof. intros. by exists bs. Qed.
Lemma fits_u8 v : fits (pk_u8 v) 1.
Proof. eapply fits_builds; [apply builds_u8|auto with packets|done]. Qed.
Lemma fits_u32 v : fits (pk_u32 v) 4.
Proof. eapply fits_builds; [apply builds_u32|auto with packets|by rewrite length_le_bytes]. Qed.
Lemma fits_guid g : fits (pk_guid g) 8.
Proof. eapply fits_builds; [apply builds_guid|auto with packets|by rewrite length_le_bytes]. Qed.
Lemma fits_str s : fits (pk_str s) (Z.of_nat (String.length s) + 1).
Proof.
  eapply fits_builds; [apply builds_str|auto with packets|].
  rewrite length_app, length_bytes_of_string. simpl. lia.
Qed.
Lemma fits_cstr s : fits (pk_cstr s) (Z.of_nat (String.length s) + 1).
Proof.
  eapply fits_builds; [apply builds_cstr|auto with packets|].
  pose proof (strlen_prefix_length (bytes_of_string s)) as Hl. rewrite length_bytes_of_string in Hl.
  rewrite length_app. simpl. lia.
Qed.
Lemma fits_ret n : 0 <= n -> fits (st_ret tt) n.
Proof. intros. eapply fits_builds; [apply builds_ret|constructor|done]. Qed.
Lemma fits_weaken k n n' : fits k n -> n <= n' -> fits k n'.
Proof. intros (bs & ? & ? & ?) ?. exists bs. split_and!; auto. lia. Qed.
Lemma fits_seq k1 k2 n1 n2 : fits k1 n1 -> fits k2 n2 -> fits (k1 ;;; k2) (n1 + n2).
Proof.
  intros (b1 & Hb1 & H81 & Hl1) (b2 & Hb2 & H82 & Hl2).
  eapply fits_builds; [apply (builds_seq _ _ _ _ H81 Hb1 Hb2)|by apply Forall_app|rewrite length_app; lia].
Qed.
#[export] Hint Resolve fits_u8 fits_u32 fits_guid fits_str fits_cstr fits_seq : packets.

(** A packet that fits is built. *)
Lemma fits_built op k n : fits k n -> n <= 10000000 ->
  exists p, (pk_init op ;;; k) WorldPacket_empty = (Ok tt, p).
Proof. intros (bs & Hb & _ & Hl) Hn. exists (packet op bs). apply built; [done|lia]. Qed.
Lemma fits_each {A} (f : A -> PK unit) n l :
  (forall x, x ∈ l -> fits (f x) n) -> 0 <= n -> fits (pk_each f l) (n * Z.of_nat (length l)).
Proof.
  intros Hf Hn. induction l as [|x l IH]; cbn [pk_each length]; [apply fits_ret; lia|].
  eapply fits_weaken; [apply fits_seq; [apply Hf; set_solver|apply IH; set_solver]|lia].
Qed.

Lemma splice_middle {A} (xs ph src ys : list A) :
  length ph = length src -> splice (length xs) src (xs ++ ph ++ ys) = xs ++ src ++ ys.
Proof.
  intros He. unfold splice. rewrite take_app_length, <- He.
  by rewrite (app_assoc xs ph), <- length_app, drop_app_length.
Qed.

(** Patching a placeholder of a packet. *)
Lemma put_packet_at n op xs ph ys v :
  length ph = n -> Z.of_nat (length (xs ++ ph ++ ys)) <= 10000000 ->
  pk_buf (put_T MANGOS_ENDIAN n (Z.of_nat (length xs)) v) (packet op (xs ++ ph ++ ys)) =
    (Ok tt, packet op (xs ++ le_bytes n v ++ ys)).
Proof.
  intros Hp Hl. unfold pk_buf, put_T, packet. rewrite wire_write. unfold put_bytes, store_at, size.
  cbn [wp_buf _storage]. rewrite length_le_bytes.
  assert (Z.of_nat (length xs) + Z.of_nat n <= Z.of_nat (length (xs ++ ph ++ ys)))
    by (rewrite !length_app, Hp; lia).
  rewrite wrap_small by (unfold is_u; lia).
  replace (_ >? _) with false by (symmetry; rewrite Z.gtb_ltb; apply Z.ltb_ge; lia).
  rewrite bool_decide_eq_true_2 by lia. cbn [_rpos _wpos m_opcode m_recvdTime].
  rewrite Nat2Z.id, splice_middle by (by rewrite length_le_bytes).
  by rewrite !length_app, length_le_bytes, Hp.
Qed.
Lemma put_packet op xs ph ys v :
  length ph = 4%nat -> Z.of_nat (length (xs ++ ph ++ ys)) <= 10000000 ->
  pk_buf (put_T MANGOS_ENDIAN 4 (Z.of_nat (length xs)) v) (packet op (xs ++ ph ++ ys)) =
    (Ok tt, packet op (xs ++ le_bytes 4 v ++ ys)).
Proof. apply put_packet_at. Qed.

(** [pk_each] appends what each step appends. *)
Lemma builds_each {A} (f : A -> PK unit) (b : A -> list Z) l :
  (forall x, x ∈ l -> builds (f x) (b x) /\ Forall (is_u 8) (b x)) -> builds (pk_each f l) (concat (b <$> l)).
Proof.
  intros H. induction l as [|x l IH]; [apply builds_ret|].
  cbn. apply builds_seq; [apply H; set_solver..|]. apply IH. set_solver.
Qed.
Lemma concat_u8 {A} (b : A -> list Z) l : (forall x, Forall (is_u 8) (b x)) -> Forall (is_u 8) (concat (b <$> l)).
Proof. intros H. induction l; cbn; [constructor|by apply Forall_app]. Qed.

(** ** The messages of a channel *)

Definition coloured (message : string) (language chatTag : Z) : string :=
  if (chatTag =? CHAT_TAG_GM) && negb (language =? LANG_ADDON)
  then String.append "|c1049e6ff" (String.append message "|r") else message.

(** The payload of a message on the channel [name]. *)
Definition channel_message (txt : string) (lang tag g rank : Z) (name : string) : list Z :=
  [u8 CHAT_MSG_CHANNEL] ++ le_bytes 4 lang ++
  ((strlen_prefix (bytes_of_string name) ++ [0]) ++ le_bytes 4 rank ++ le_bytes 8 g) ++
  (if bool_decide (coloured txt lang tag = "") then [] else
     le_bytes 4 (Z.of_nat (String.length (coloured txt lang tag)) + 1) ++
     (bytes_of_string (coloured txt lang tag) ++ [0]) ++ [u8 tag]).

Lemma length_coloured txt lang tag :
  Z.of_nat (String.length (coloured txt lang tag)) <= Z.of_nat (String.length txt) + 12.
Proof.
  unfold coloured. destruct (_ && _); [|lia].
  assert (forall s t, String.length (String.append s t) = (String.length s + String.length t)%nat) as Happ.
  { induction s as [|? s IH]; intros t; simpl; [done|]. by rewrite IH. }
  rewrite !Happ. simpl. lia.
Qed.

Lemma builds_channel_message txt lang tag g tname name rank :
  Z.of_nat (String.length txt) <= 1000000 -> Z.of_nat (String.length name) <= 1000000 ->
  BuildChatPacket CHAT_MSG_CHANNEL txt lang tag g None 0 tname (Some name) rank WorldPacket_empty =
    (Ok tt, packet SMSG_MESSAGECHAT (channel_message txt lang tag g rank name)).
Proof.
  intros Ht Hn. unfold BuildChatPacket. fold (coloured txt lang tag). cbv zeta.
  apply built; unfold channel_message.
  - apply builds_seq; auto with packets. apply builds_seq; auto with packets.
    apply builds_seq; auto 6 with packets.
    + simpl. intros op xs Hl Hxs. rewrite st_bind_ret.
      apply (builds_seq _ _ _ (le_bytes 4 rank ++ le_bytes 8 g)); auto with packets.
      apply builds_seq; auto with packets.
    + case_bool_decide; [apply builds_ret|]. apply builds_seq; auto with packets.
      apply builds_seq; auto with packets.
  - pose proof (length_coloured txt lang tag).
    pose proof (strlen_prefix_length (bytes_of_string name)). rewrite length_bytes_of_string in *.
    case_bool_decide; rewrite ?length_app, ?length_le_bytes, ?length_bytes_of_string; simpl length; lia.
Qed.
