(* ===== verification/Effects.v ===== *)
(** * Effects of the player services on the rest of the server

    Guilds, groups and game events run on a state of their own and log what they
    do to the rest of the server: the packets they send, and the calls on code that is
    not modelled.  Following a null or freed pointer is undefined behaviour. *)

From S2P Require Import Prelude ByteBuffer ObjectGuid Packets.

Local Open Scope prog_scope.

(** ** Effects on the rest of the server *)

Inductive bank_call :=
| BankNew (inferno : bool)
| BankUpdateMinranks (inferno : bool) (rank : Z)
| BankDeleteRows (guildid : Z)
| BankDeleteFromDB (inferno : bool)
| BankSaveToDB (guildid : Z) (inferno : bool).

Inductive hook_call :=
| HookAddMember (guildid player rank : Z)
| HookRemoveMember (guildid player : Z) (isDisbanding isKicked : bool)
| HookCreate (guildid leader : Z) (name : string)
| HookDisband (guildid : Z)
| HookGuildInvite (player : Z).

(** Calls on the rest of a player: inventory, auras, chat messages. *)
Inductive player_call :=
| CallRemoveFeignDeath
| CallBuyError (err : Z)
| CallEquipError (err : Z)
| CallSendNewItem (item : Z)
| CallSaveInventoryAndGold
| CallDestroyItem (item : Z)
| CallSysMessage (lang : Z)
| CallSysText (text : string).

(** Calls a group makes on its members, on the instances it is bound to, on the
    meeting stone queue, on loot sources and on the scripts. *)
Inductive group_call :=
| GQuestObjects (player : Z)
| GHomebind (player : Z)
| GInstancesToGroup (group leader : Z)
| GRejoinInstance (group player : Z)
| GResetOwnInstances (player : Z)
| GLeaderInstances (group old new : Z)
| GInheritInstance (group player : Z)
| GResetInstances (group : Z)
| GForgetInstances (group : Z)
| GAuraMask (player : Z)
| GStats (player : Z)
| GValues (player : Z)
| GSysText (player : Z) (text : string)
| GNotification (player : Z) (text : string)
| GBgRaidGone (group : Z)
| GLootTimer (target : Z)
| GLootRemoved (loot slot : Z)
| GStoreItem (player itemid : Z) (randomPropertyId : Z)
| GEquipError (player err itemid : Z)
| GHookAdd (group guid : Z)
| GHookRemove (group guid : Z) (removeMethod : Z)
| GHookLeader (group new old : Z)
| GHookDisband (group : Z)
| GHookInvite (group guid : Z)
| GHookCreate (group leader groupType : Z)
| GHookRoll (group target slot itemid : Z).

(** Calls of the game events on what they place in the world: spawns and pools,
    the looks of creatures, mails, texts and scripts. *)
Inductive spawn_kind := KCreature | KGameObject.
Inductive game_call :=
| ESpawnInMaps (kind : spawn_kind) (guid : Z)
| ERemoveInMaps (kind : spawn_kind) (guid : Z)
| EPoolExclude (kind : spawn_kind) (pool guid : Z) (exclude : bool)
| EPoolUpdate (kind : spawn_kind) (pool guid : Z)
| EPoolSpawn (pool : Z)
| EPoolDespawn (pool : Z)
| EPoolInit (state pool : Z)
| EPoolNoAuto (pool : Z)
| EPoolCheck (pool event : Z)
| ELook (guid entry_id display_id equipment_id spell_id_start spell_id_end : Z) (activate : bool)
| EMail (mailTemplateId senderEntry raceMask questId : Z)
| EWorldText (text : string)
| EWorldTextId (entry : Z)
| EResetRespawn (guid : Z)
| ESaveRespawn (guid time : Z)
| EOnStart (event : Z)
| EOnStop (event : Z)
| EOnUpdate (event : Z).

Inductive effect :=
| EvSend (to : Z) (p : WorldPacket)
| EvBank (b : bank_call)
| EvHook (h : hook_call)
| EvPlayer (guid : Z) (c : player_call)
| EvGroup (c : group_call)
| EvGame (c : game_call).

Definition ev {C} (e : effect) : St (C * list effect) ByteBufferException unit :=
  st_mod (fun s => (s.1, s.2 ++ [e])).
(** A null or dangling pointer is followed. *)
Definition deref {C A} (o : option A) : St (C * list effect) ByteBufferException A :=
  match o with Some a => st_ret a | None => fun s => (UB, s) end.
(** [WorldPacket data(...); data << ...;] *)
Definition made {C} (k : PK unit) : St (C * list effect) ByteBufferException WorldPacket := fun s =>
  match k WorldPacket_empty with
  | (Ok _, p) => (Ok p, s)
  | (Throw e, _) => (Throw e, s)
  | (Abort, _) => (Abort, s)
  | (UB, _) => (UB, s)
  | (Diverge, _) => (Diverge, s)
  end.

Fixpoint each {C A} (f : A -> St (C * list effect) ByteBufferException unit) (l : list A)
    : St (C * list effect) ByteBufferException unit :=
  match l with
  | [] => st_ret tt
  | x :: l' => f x ;;; each f l'
  end.

(** ** Statements on a table with a key *)

Section sql.
Context {K V : Type} `{Countable K}.

(** [INSERT INTO t VALUES (k, v)]: an error when [k] is taken. *)
Definition sql_insert_row (k : K) (v : V) (t : gmap K V) : gmap K V :=
  match t !! k with Some _ => t | None => <[k := v]> t end.
(** [DELETE FROM t WHERE p]. *)
Definition sql_delete_rows (p : K -> V -> bool) (t : gmap K V) : gmap K V :=
  filter (fun kv => p kv.1 kv.2 = false) t.
(** [UPDATE t SET ... WHERE key = k]. *)
Definition sql_update_row (f : V -> V) (k : K) (t : gmap K V) : gmap K V := alter f k t.
End sql.

(** ** What only logs *)

Section logging.
Context {C : Type}.

Lemma logs_ev e : logs_only (ev e : St (C * list effect) ByteBufferException unit).
Proof. apply logs_emit. Qed.
Lemma logs_made k p : k WorldPacket_empty = (Ok tt, p) ->
  logs_only (made k : St (C * list effect) ByteBufferException WorldPacket).
Proof. intros Hk c Y log. unfold made. by rewrite Hk. Qed.
Lemma logs_made_fits op k n : fits k n -> n <= 10000000 ->
  logs_only (made (pk_init op ;;; k) : St (C * list effect) ByteBufferException WorldPacket).
Proof. intros Hk Hn. destruct (fits_built op k n Hk Hn) as [p Hp]. by eapply logs_made. Qed.
Lemma logs_each {A} (f : A -> St (C * list effect) ByteBufferException unit) l :
  (forall x, x ∈ l -> logs_only (f x)) -> logs_only (each f l).
Proof.
  induction l as [|x l IH]; intros Hf; simpl; [apply logs_ret|].
  apply logs_bind; [apply Hf; set_solver|]. intros _. apply IH. set_solver.
Qed.
End logging.
#[export] Hint Resolve logs_ev logs_each : logs.
