(* ===== verification/Incoming.v ===== *)
(** * Packets received from clients

    Opcode handlers read the packet they are given; what a reader throws ends
    the handler. *)

From stdpp Require Import strings.
From S2P Require Import Prelude ByteBuffer Codec ObjectGuid Packets Effects.

Local Open Scope prog_scope.

Definition string_of_bytes (l : list Z) : string :=
  fold_right (fun c s => String (Ascii.ascii_of_N (Z.to_N c)) s) "" l.

(** [recvPacket >> x]: [k] goes on with the value and the rest of the packet. *)
Definition recv {C A B} (rd : BB A) (b : ByteBuffer)
    (k : A -> ByteBuffer -> St (C * list effect) ByteBufferException B) : St (C * list effect) ByteBufferException B := fun s =>
  match rd b with
  | (Ok a, b') => k a b' s
  | (Throw e, _) => (Throw e, s)
  | (Abort, _) => (Abort, s)
  | (UB, _) => (UB, s)
  | (Diverge, _) => (Diverge, s)
  end.
Definition read_str : BB string := let! l := read_string [] in st_ret (string_of_bytes l).

(** ** What a reader yields *)

(** The header of a client packet gives its size in 16 bits. *)
Definition arrived (b : ByteBuffer) : Prop := wf b /\ size b <= 65535.

Lemma read_string_length b l b' :
  read_string [] b = (Ok l, b') -> (length l <= length (_storage b'))%nat.
Proof.
  unfold read_string. destruct (_ <? _); [|intros [= <- <-]; simpl; lia].
  unfold st_bind. destruct (cstr_loop _ b) as [[[]| | | |] b1]; try done. simpl.
  unfold load_at. case_bool_decide; [|done]. intros [= <- <-]. simpl.
  unfold slice. rewrite length_take, length_drop. lia.
Qed.
Lemma length_string_of_bytes l : String.length (string_of_bytes l) = length l.
Proof. induction l as [|c l IH]; simpl; auto. Qed.

Lemma le_val_range l : Forall (is_u 8) l -> 0 <= le_val l.
Proof.
  induction 1 as [|x l Hx _ IH]; simpl; [done|]. unfold is_u in Hx. lia.
Qed.
Lemma read_u32_range b v b' : wf b -> read_u32 b = (Ok v, b') -> 0 <= v.
Proof.
  intros Hwf. unfold read_u32, read_T, read_T_at, st_bind. destruct (_ >? _); [done|].
  unfold load_at. case_bool_decide; [|done]. intros Hv.
  assert (Hr : forall a (c : ByteBuffer), (Ok (E:=ByteBufferException) a, c) = (Ok v, b') -> 0 <= a -> 0 <= v) by congruence.
  eapply Hr; [exact Hv|]. rewrite wire_read. apply le_val_range, Forall_slice, Hwf.
Qed.

Section recv.
Context {C B : Type} (X : C -> Prop) (Q : B -> C -> Prop).

Lemma wp_recv {A} (rd : BB A) (P : A -> Prop) b k w :
  reader rd -> (forall a b', rd b = (Ok a, b') -> P a) -> arrived b -> X w ->
  (forall a b', arrived b' -> P a -> wp X (k a b') Q w) -> wp X (recv rd b k) Q w.
Proof.
  intros Hr HP [Hwf Hsz] HX Hk log. unfold recv.
  destruct (reader_safe b A rd Hr b) as [Hset Hinv]; [by split_and!|].
  destruct (rd b) as [[a|e| | |] b'] eqn:E; simpl in Hset, Hinv; try done.
  apply Hk; [|by eapply HP]. destruct Hinv as (Hwf' & Hs & _ & _). split; [done|].
  unfold size in *. by rewrite Hs.
Qed.

Lemma reader_str : reader read_str.
Proof. unfold read_str. constructor; [constructor|]. intros l. constructor. Qed.
Lemma reader_guid : reader read_guid.
Proof. unfold read_guid, read_u64. constructor; [constructor; lia|]. intros l. constructor. Qed.

Lemma read_str_length b s b' : arrived b -> read_str b = (Ok s, b') -> slen s <= 65535.
Proof.
  intros [Hwf Hsz] Hs. destruct (reader_safe b _ _ reader_str b) as [_ (_ & Hst & _)]; [by split_and!|].
  rewrite Hs in Hst. simpl in Hst. unfold read_str, st_bind in Hs.
  destruct (read_string [] b) as [[l| | | |] b1] eqn:E; try done. apply read_string_length in E.
  simpl in Hs. injection Hs as <- <-. unfold slen. rewrite length_string_of_bytes.
  rewrite Hst in E. unfold size in Hsz. lia.
Qed.

Lemma wp_recv_str b k w : arrived b -> X w ->
  (forall s b', arrived b' -> slen s <= 65535 -> wp X (k s b') Q w) -> wp X (recv read_str b k) Q w.
Proof.
  intros Hb HX. apply wp_recv; [apply reader_str| |done|done]. intros a b'. by apply read_str_length.
Qed.
Lemma wp_recv_u32 b k w : arrived b -> X w ->
  (forall v b', arrived b' -> 0 <= v -> wp X (k v b') Q w) -> wp X (recv read_u32 b k) Q w.
Proof.
  intros Hb HX. apply wp_recv; [constructor; lia| |done|done]. intros a b'. apply read_u32_range, Hb.
Qed.
Lemma wp_recv_guid b k w : arrived b -> X w ->
  (forall v b', arrived b' -> wp X (k v b') Q w) -> wp X (recv read_guid b k) Q w.
Proof. intros Hb HX Hk. apply (wp_recv read_guid (fun _ => True)); auto using reader_guid. Qed.
Lemma wp_recv_u8 b k w : arrived b -> X w ->
  (forall v b', arrived b' -> wp X (k v b') Q w) -> wp X (recv read_u8 b k) Q w.
Proof. intros Hb HX Hk. apply (wp_recv read_u8 (fun _ => True)); auto. apply (reader_T 1). lia. Qed.
Lemma wp_recv_skip n b k w : 0 <= n < 2 ^ 62 -> arrived b -> X w ->
  (forall v b', arrived b' -> wp X (k v b') Q w) -> wp X (recv (read_skip n) b k) Q w.
Proof. intros Hn Hb HX Hk. apply (wp_recv (read_skip n) (fun _ => True)); auto. by apply reader_skip. Qed.
Lemma wp_recv_ret {A} (a : A) b k w : wp X (k a b) Q w -> wp X (recv (st_ret a) b k) Q w.
Proof. intros H log. exact (H log). Qed.
Lemma wp_recv_bind {A A'} (m : BB A) (f : A -> BB A') b k w :
  wp X (recv m b (fun a b' => recv (f a) b' k)) Q w -> wp X (recv (st_bind m f) b k) Q w.
Proof.
  intros H log. specialize (H log). unfold recv, st_bind in *. by destruct (m b) as [[| | | |] b'].
Qed.
End recv.
