(* ===== verification/Channel.v ===== *)
(** * Channel: chat channels

    Model of [src/game/Chat/Channel.h] and [src/game/Chat/Channel.cpp].  A
    channel is a record with the fields of the class; a member function is a
    state transformer over the channel and the log of what it does to the rest
    of the server (packets sent, callbacks into the player).  The object
    accessor, the player-name cache, the channel table of the client data, the
    configuration and the name normaliser are fields of [ChannelEnv]. *)

From S2P Require Import Prelude ByteBuffer ObjectGuid Packets.

Local Open Scope prog_scope.

(** ** What a channel sees of the world *)

Definition SEC_PLAYER := 0.
Definition SEC_OBSERVER := 1.
Definition ACCOUNT_FLAG_MUTED_FROM_PUBLIC_CHANNELS := 0x1.

Record Session := mkSession {
  GetSecurity : Z;
  IsFingerprintBanned : bool;
  GetAccountFlags : Z;
  GetAccountMaxLevel : Z }.

(** An [AbstractPlayer]: [ap_is_player] tells [PlayerWrapper<Player>] from
    [PlayerWrapper<MasterPlayer>], whose [ToPlayer()] is null. *)
Record AbstractPlayer := mkPlayer {
  ap_guid : Z;
  ap_name : string;
  ap_session : Session;
  ap_team : Z;
  ap_guildId : Z;
  ap_race : Z;
  ap_chatTag : Z;
  ap_honorRank : Z;
  ap_hasIgnore : Z -> bool;
  ap_visibleFor : Z -> bool;
  ap_is_player : bool }.

Record ChatChannelsEntry := mkEntry { entry_id : Z; entry_flags : Z }.

Record ChannelEnv := mkEnv {
  FindPlayerNotInWorld : Z -> option AbstractPlayer;
  FindPlayerByNameNotInWorld : string -> option AbstractPlayer;
  FindMasterPlayer : Z -> option AbstractPlayer;
  FindMasterPlayerByName : string -> option AbstractPlayer;
  FindPlayer : Z -> option AbstractPlayer;
  ObjectMgr_GetPlayer : string -> option AbstractPlayer;
  GetPlayerNameByGUID : Z -> option string;
  GetChannelEntryFor : string -> option ChatChannelsEntry;
  normalizePlayerName : string -> option string;
  baseLanguage : Z -> Z;
  CONFIG_SILENTLY_GM_JOIN_TO_CHANNEL : bool;
  CONFIG_ALLOW_TWO_SIDE_INTERACTION_CHANNEL : bool;
  CONFIG_GM_LEVEL_IN_WHO_LIST : Z;
  CONFIG_PUB_CHANS_MUTE_VANISH_LEVEL : Z }.

(** What a channel does to the world, in order. *)
Inductive event :=
| EvSend (to : Z) (data : WorldPacket)
| EvJoinedChannel (who : Z)
| EvLeftChannel (who : Z)
| EvOnChannelBroadcast (low : Z) (channel what : string)
| EvOnChatChannel (who : Z) (channel what : string)
| EvEnqueueMessage (what channel : string) (from lang team : Z) (skipCheck : bool).

(** ** Constants *)

Definition CHAT_JOINED_NOTICE := 0x00.
Definition CHAT_LEFT_NOTICE := 0x01.
Definition CHAT_YOU_JOINED_NOTICE := 0x02.
Definition CHAT_YOU_LEFT_NOTICE := 0x03.
Definition CHAT_WRONG_PASSWORD_NOTICE := 0x04.
Definition CHAT_NOT_MEMBER_NOTICE := 0x05.
Definition CHAT_NOT_MODERATOR_NOTICE := 0x06.
Definition CHAT_PASSWORD_CHANGED_NOTICE := 0x07.
Definition CHAT_OWNER_CHANGED_NOTICE := 0x08.
Definition CHAT_PLAYER_NOT_FOUND_NOTICE := 0x09.
Definition CHAT_NOT_OWNER_NOTICE := 0x0A.
Definition CHAT_CHANNEL_OWNER_NOTICE := 0x0B.
Definition CHAT_MODE_CHANGE_NOTICE := 0x0C.
Definition CHAT_ANNOUNCEMENTS_ON_NOTICE := 0x0D.
Definition CHAT_ANNOUNCEMENTS_OFF_NOTICE := 0x0E.
Definition CHAT_MODERATION_ON_NOTICE := 0x0F.
Definition CHAT_MODERATION_OFF_NOTICE := 0x10.
Definition CHAT_MUTED_NOTICE := 0x11.
Definition CHAT_PLAYER_KICKED_NOTICE := 0x12.
Definition CHAT_BANNED_NOTICE := 0x13.
Definition CHAT_PLAYER_BANNED_NOTICE := 0x14.
Definition CHAT_PLAYER_UNBANNED_NOTICE := 0x15.
Definition CHAT_PLAYER_NOT_BANNED_NOTICE := 0x16.
Definition CHAT_PLAYER_ALREADY_MEMBER_NOTICE := 0x17.
Definition CHAT_INVITE_NOTICE := 0x18.
Definition CHAT_INVITE_WRONG_FACTION_NOTICE := 0x19.
Definition CHAT_WRONG_FACTION_NOTICE := 0x1A.
Definition CHAT_INVALID_NAME_NOTICE := 0x1B.
Definition CHAT_NOT_MODERATED_NOTICE := 0x1C.
Definition CHAT_PLAYER_INVITED_NOTICE := 0x1D.
Definition CHAT_PLAYER_INVITE_BANNED_NOTICE := 0x1E.
Definition CHAT_THROTTLED_NOTICE := 0x1F.

Definition SMSG_CHANNEL_NOTIFY := 0x099.
Definition SMSG_CHANNEL_LIST := 0x09B.

Definition CHANNEL_ID_LOCAL_DEFENSE := 22.
Definition CHANNEL_ID_WORLD_DEFENSE := 23.

Definition IsDefenseChannel (channelId : Z) : bool :=
  (channelId =? CHANNEL_ID_LOCAL_DEFENSE) || (channelId =? CHANNEL_ID_WORLD_DEFENSE).

Definition CHANNEL_FLAG_CUSTOM := 0x01.
Definition CHANNEL_FLAG_TRADE := 0x04.
Definition CHANNEL_FLAG_NOT_LFG := 0x08.
Definition CHANNEL_FLAG_GENERAL := 0x10.
Definition CHANNEL_FLAG_CITY := 0x20.
Definition CHANNEL_FLAG_LFG := 0x40.
Definition CHANNEL_FLAG_NATIONAL := 0x100.

Definition CHANNEL_DBC_FLAG_ZONE_DEP := 0x00002.
Definition CHANNEL_DBC_FLAG_TRADE := 0x00008.
Definition CHANNEL_DBC_FLAG_CITY_ONLY2 := 0x00020.
Definition CHANNEL_DBC_FLAG_LFG := 0x40000.

Definition MEMBER_FLAG_NONE := 0x00.
Definition MEMBER_FLAG_OWNER := 0x01.
Definition MEMBER_FLAG_MODERATOR := 0x02.
Definition MEMBER_FLAG_MUTED := 0x08.

(** ** Members *)

Record PlayerInfo := mkPI { pi_player : Z; pi_flags : Z }.

#[global] Instance PlayerInfo_eq_dec : EqDecision PlayerInfo.
Proof. solve_decision. Defined.

(** What [m_players[k]] creates for a missing key: the implicit constructor
    zeroes the flags. *)
Definition PlayerInfo_default : PlayerInfo := mkPI 0 0.

(** [flags |= f] and [flags &= ~f] on a [uint8]. *)
Definition set_flag (f : Z) (state : bool) (p : PlayerInfo) : PlayerInfo :=
  mkPI (pi_player p)
    (if state then u8 (Z.lor (pi_flags p) f) else u8 (Z.land (pi_flags p) (Z.lnot f))).
Definition PI_HasFlag (f : Z) (p : PlayerInfo) : bool := truth (Z.land (pi_flags p) f).
Definition PI_SetFlag (f : Z) (p : PlayerInfo) : PlayerInfo :=
  if negb (PI_HasFlag f p) then set_flag f true p else p.
Definition IsOwner (p : PlayerInfo) : bool := truth (Z.land (pi_flags p) MEMBER_FLAG_OWNER).
Definition PI_SetOwner (state : bool) (p : PlayerInfo) : PlayerInfo := set_flag MEMBER_FLAG_OWNER state p.
Definition IsModerator (p : PlayerInfo) : bool := truth (Z.land (pi_flags p) MEMBER_FLAG_MODERATOR).
Definition PI_SetModerator (state : bool) (p : PlayerInfo) : PlayerInfo := set_flag MEMBER_FLAG_MODERATOR state p.
Definition IsMuted (p : PlayerInfo) : bool := truth (Z.land (pi_flags p) MEMBER_FLAG_MUTED).
Definition PI_SetMuted (state : bool) (p : PlayerInfo) : PlayerInfo := set_flag MEMBER_FLAG_MUTED state p.

(** ** The channel *)

Record Channel := mkChannel {
  m_area_dependant : bool;
  m_announce : bool;
  m_moderate : bool;
  m_levelRestricted : bool;
  m_name : string;
  m_password : string;
  m_flags : Z;
  m_securityLevel : Z;
  m_Team : Z;
  m_channelId : Z;
  m_ownerGuid : Z;
  m_players : gmap Z PlayerInfo;
  m_banned : gset Z }.

Definition set_announce v c := mkChannel (m_area_dependant c) v (m_moderate c)
  (m_levelRestricted c) (m_name c) (m_password c) (m_flags c) (m_securityLevel c) (m_Team c)
  (m_channelId c) (m_ownerGuid c) (m_players c) (m_banned c).
Definition set_moderate v c := mkChannel (m_area_dependant c) (m_announce c) v
  (m_levelRestricted c) (m_name c) (m_password c) (m_flags c) (m_securityLevel c) (m_Team c)
  (m_channelId c) (m_ownerGuid c) (m_players c) (m_banned c).
Definition set_password v c := mkChannel (m_area_dependant c) (m_announce c) (m_moderate c)
  (m_levelRestricted c) (m_name c) v (m_flags c) (m_securityLevel c) (m_Team c)
  (m_channelId c) (m_ownerGuid c) (m_players c) (m_banned c).
Definition set_securityLevel v c := mkChannel (m_area_dependant c) (m_announce c) (m_moderate c)
  (m_levelRestricted c) (m_name c) (m_password c) (m_flags c) v (m_Team c)
  (m_channelId c) (m_ownerGuid c) (m_players c) (m_banned c).
Definition set_ownerGuid v c := mkChannel (m_area_dependant c) (m_announce c) (m_moderate c)
  (m_levelRestricted c) (m_name c) (m_password c) (m_flags c) (m_securityLevel c) (m_Team c)
  (m_channelId c) v (m_players c) (m_banned c).
Definition set_players v c := mkChannel (m_area_dependant c) (m_announce c) (m_moderate c)
  (m_levelRestricted c) (m_name c) (m_password c) (m_flags c) (m_securityLevel c) (m_Team c)
  (m_channelId c) (m_ownerGuid c) v (m_banned c).
Definition set_banned v c := mkChannel (m_area_dependant c) (m_announce c) (m_moderate c)
  (m_levelRestricted c) (m_name c) (m_password c) (m_flags c) (m_securityLevel c) (m_Team c)
  (m_channelId c) (m_ownerGuid c) (m_players c) v.

Definition IsConstant (c : Channel) : bool := negb (m_channelId c =? 0).
Definition HasFlag (flag : Z) (c : Channel) : bool := truth (Z.land (m_flags c) (u8 flag)).
Definition IsLFG (c : Channel) : bool := truth (Z.land (m_flags c) CHANNEL_FLAG_LFG).
Definition GetNumPlayers (c : Channel) : Z := u32 (Z.of_nat (base.size (m_players c))).
Definition IsOn (who : Z) (c : Channel) : bool := bool_decide (is_Some (m_players c !! who)).
Definition IsBanned (guid : Z) (c : Channel) : bool := bool_decide (guid ∈ m_banned c).
Definition GetPlayerFlags (guid : Z) (c : Channel) : Z :=
  match m_players c !! guid with Some p => pi_flags p | None => 0 end.

(** [m_players.begin()->second]. *)
Definition begin_player (c : Channel) : option PlayerInfo :=
  match sorted_keys (m_players c) with
  | k :: _ => m_players c !! k
  | [] => None
  end.

(** *** Construction *)

(** [std::string::find(pat) != npos]. *)
Definition contains (pat s : string) : bool :=
  match String.index 0 pat s with Some _ => true | None => false end.

(** The converted name of a Chinese built-in channel.  The constructor
    computes it and then looks up [name]. *)
Definition convertedName (name : string) : string :=
  if contains "综合 - " name then "General - "
  else if contains "交易 - " name then "Trade - "
  else if contains "本地防务 - " name then "LocalDefense - "
  else if bool_decide (name = "世界防务") then "WorldDefense"
  else if bool_decide (name = "寻求组队") then "LookingForGroup"
  else if contains "公会招募 - " name then "GuildRecruitment - "
  else name.

(** [m_flags |= f] on the [uint8] field. *)
Definition or_flag (f flags : Z) : Z := u8 (Z.lor flags f).

Definition Channel_new (env : ChannelEnv) (name : string) (InTeam : Z) : Channel :=
  let _ := convertedName name in
  let build announce restricted nm flags id :=
    mkChannel true announce false restricted nm "" flags 0 InTeam id 0 ∅ ∅ in
  match GetChannelEntryFor env name with
  | Some ch =>
      let f0 := or_flag CHANNEL_FLAG_GENERAL 0 in
      let f1 := if truth (Z.land (entry_flags ch) CHANNEL_DBC_FLAG_TRADE)
                then or_flag CHANNEL_FLAG_TRADE f0 else f0 in
      let f2 := if truth (Z.land (entry_flags ch) CHANNEL_DBC_FLAG_CITY_ONLY2)
                then or_flag CHANNEL_FLAG_CITY f1 else f1 in
      let f3 := if truth (Z.land (entry_flags ch) CHANNEL_DBC_FLAG_LFG)
                then or_flag CHANNEL_FLAG_LFG f2 else or_flag CHANNEL_FLAG_NOT_LFG f2 in
      build false true name f3 (entry_id ch)
  | None =>
      let '(nm, announce) :=
        match normalizePlayerName env name with
        | Some n => (n, true)
        | None => ("INVALIDCHANNEL"%string, false)
        end in
      if bool_decide (nm = "Ru") || bool_decide (nm = "Welt") || bool_decide (nm = "China") then
        build false true nm (or_flag CHANNEL_FLAG_NATIONAL 0) 0
      else
        let f := or_flag CHANNEL_FLAG_CUSTOM 0 in
        if bool_decide (nm = "World") || bool_decide (nm = "English") then
          build false false nm
            (u8 (Z.land (or_flag CHANNEL_FLAG_GENERAL f) (Z.lnot CHANNEL_FLAG_CUSTOM))) 0
        else build announce false nm f 0
  end.

(** ** Packets *)

Definition MakeNotifyPacket (notify_type : Z) (c : Channel) : PK unit :=
  pk_init SMSG_CHANNEL_NOTIFY ;;; pk_u8 notify_type ;;; pk_str (m_name c).

Definition MakeJoined guid c := MakeNotifyPacket CHAT_JOINED_NOTICE c ;;; pk_guid guid.
Definition MakeLeft guid c := MakeNotifyPacket CHAT_LEFT_NOTICE c ;;; pk_guid guid.
Definition MakeYouJoined c :=
  MakeNotifyPacket CHAT_YOU_JOINED_NOTICE c ;;; pk_u32 (m_flags c) ;;; pk_u32 0.
Definition MakeYouLeft c := MakeNotifyPacket CHAT_YOU_LEFT_NOTICE c.
Definition MakeWrongPassword c := MakeNotifyPacket CHAT_WRONG_PASSWORD_NOTICE c.
Definition MakeNotMember c := MakeNotifyPacket CHAT_NOT_MEMBER_NOTICE c.
Definition MakeNotOnPacket (name : string) : PK unit :=
  pk_init SMSG_CHANNEL_NOTIFY ;;; pk_u8 CHAT_NOT_MEMBER_NOTICE ;;; pk_str name.
Definition MakeNotModerator c := MakeNotifyPacket CHAT_NOT_MODERATOR_NOTICE c.
Definition MakePasswordChanged guid c :=
  MakeNotifyPacket CHAT_PASSWORD_CHANGED_NOTICE c ;;; pk_guid guid.
Definition MakeOwnerChanged guid c :=
  MakeNotifyPacket CHAT_OWNER_CHANGED_NOTICE c ;;; pk_guid guid.
Definition MakePlayerNotFound name c :=
  MakeNotifyPacket CHAT_PLAYER_NOT_FOUND_NOTICE c ;;; pk_str name.
Definition MakeNotOwner c := MakeNotifyPacket CHAT_NOT_OWNER_NOTICE c.
Definition MakeChannelOwner (env : ChannelEnv) c :=
  let name := match GetPlayerNameByGUID env (m_ownerGuid c) with
              | Some n => if bool_decide (n = "") then "PLAYER_NOT_FOUND" else n
              | None => "PLAYER_NOT_FOUND"
              end%string in
  MakeNotifyPacket CHAT_CHANNEL_OWNER_NOTICE c ;;;
  pk_str (if IsConstant c || (m_ownerGuid c =? 0) then "Nobody" else name).
Definition MakeModeChange guid (oldflags : Z) c :=
  MakeNotifyPacket CHAT_MODE_CHANGE_NOTICE c ;;;
  pk_guid guid ;;; pk_u8 oldflags ;;; pk_u8 (GetPlayerFlags guid c).
Definition MakeAnnouncementsOn guid c :=
  MakeNotifyPacket CHAT_ANNOUNCEMENTS_ON_NOTICE c ;;; pk_guid guid.
Definition MakeAnnouncementsOff guid c :=
  MakeNotifyPacket CHAT_ANNOUNCEMENTS_OFF_NOTICE c ;;; pk_guid guid.
Definition MakeModerationOn guid c :=
  MakeNotifyPacket CHAT_MODERATION_ON_NOTICE c ;;; pk_guid guid.
Definition MakeModerationOff guid c :=
  MakeNotifyPacket CHAT_MODERATION_OFF_NOTICE c ;;; pk_guid guid.
Definition MakeMuted c := MakeNotifyPacket CHAT_MUTED_NOTICE c.
Definition MakePlayerKicked target source c :=
  MakeNotifyPacket CHAT_PLAYER_KICKED_NOTICE c ;;; pk_guid target ;;; pk_guid source.
Definition MakeBanned c := MakeNotifyPacket CHAT_BANNED_NOTICE c.
Definition MakePlayerBanned target source c :=
  MakeNotifyPacket CHAT_PLAYER_BANNED_NOTICE c ;;; pk_guid target ;;; pk_guid source.
Definition MakePlayerUnbanned target source c :=
  MakeNotifyPacket CHAT_PLAYER_UNBANNED_NOTICE c ;;; pk_guid target ;;; pk_guid source.
Definition MakePlayerNotBanned name c :=
  MakeNotifyPacket CHAT_PLAYER_NOT_BANNED_NOTICE c ;;; pk_str name.
Definition MakePlayerAlreadyMember guid c :=
  MakeNotifyPacket CHAT_PLAYER_ALREADY_MEMBER_NOTICE c ;;; pk_guid guid.
Definition MakeInvite guid c := MakeNotifyPacket CHAT_INVITE_NOTICE c ;;; pk_guid guid.
Definition MakeInviteWrongFaction c := MakeNotifyPacket CHAT_INVITE_WRONG_FACTION_NOTICE c.
Definition MakeWrongFaction c := MakeNotifyPacket CHAT_WRONG_FACTION_NOTICE c.
Definition MakeInvalidName c := MakeNotifyPacket CHAT_INVALID_NAME_NOTICE c.
Definition MakeNotModerated c := MakeNotifyPacket CHAT_NOT_MODERATED_NOTICE c.
Definition MakePlayerInvited name c :=
  MakeNotifyPacket CHAT_PLAYER_INVITED_NOTICE c ;;; pk_str name.
Definition MakePlayerInviteBanned name c :=
  MakeNotifyPacket CHAT_PLAYER_INVITE_BANNED_NOTICE c ;;; pk_str name.
Definition MakeThrottled c := MakeNotifyPacket CHAT_THROTTLED_NOTICE c.

(** ** Operations *)

Definition CH (A : Type) : Type := St (Channel * list event) ByteBufferException A.

Definition ch_get {A} (f : Channel -> A) : CH A := st_get (fun s => f s.1).
Definition ch_mod (f : Channel -> Channel) : CH unit := st_mod (fun s => (f s.1, s.2)).
Definition emit (e : event) : CH unit := st_mod (fun s => (s.1, s.2 ++ [e])).
Definition ub {A} : CH A := fun s => (UB, s).

(** Build a packet from the current state of the channel. *)
Definition make (f : Channel -> PK unit) : CH WorldPacket := fun s =>
  match f s.1 WorldPacket_empty with
  | (Ok _, p) => (Ok p, s)
  | (Throw e, _) => (Throw e, s)
  | (Abort, _) => (Abort, s)
  | (UB, _) => (UB, s)
  | (Diverge, _) => (Diverge, s)
  end.

(** [m_players[guid]]: creates a missing entry. *)
Definition index_player (guid : Z) : CH PlayerInfo := fun s =>
  match m_players s.1 !! guid with
  | Some p => (Ok p, s)
  | None => (Ok PlayerInfo_default,
             (set_players (<[guid := PlayerInfo_default]> (m_players s.1)) s.1, s.2))
  end.
(** [m_players[guid].f(...)]. *)
Definition update_player (guid : Z) (f : PlayerInfo -> PlayerInfo) : CH unit :=
  let! p := index_player guid in
  ch_mod (fun c => set_players (<[guid := f p]> (m_players c)) c).

Section operations.
Context (env : ChannelEnv).

(** [GetPlayer(ObjectGuid)], [GetPlayer(char const* )]. *)
Definition GetPlayer (guid : Z) (c : Channel) : option AbstractPlayer :=
  if m_area_dependant c then FindPlayerNotInWorld env guid else FindMasterPlayer env guid.
Definition GetPlayerByName (name : string) (c : Channel) : option AbstractPlayer :=
  if m_area_dependant c then FindPlayerByNameNotInWorld env name
  else FindMasterPlayerByName env name.

Fixpoint send_each (keys : list Z) (data : WorldPacket) (guid : Z) : CH unit :=
  match keys with
  | [] => st_ret tt
  | k :: keys' =>
      (let! p := ch_get (GetPlayer k) in
       match p with
       | Some pl => if negb (ap_hasIgnore pl guid) then emit (EvSend (ap_guid pl) data) else st_ret tt
       | None => st_ret tt
       end) ;;;
      send_each keys' data guid
  end.

(** [SendToAll(WorldPacket* data, ObjectGuid guid = ObjectGuid())]. *)
Definition SendToAll_from (data : WorldPacket) (guid : Z) : CH unit :=
  let! keys := ch_get (fun c => sorted_keys (m_players c)) in
  send_each keys data guid.
Definition SendToAll (data : WorldPacket) : CH unit := SendToAll_from data 0.

Definition SendToOne (data : WorldPacket) (who : Z) : CH unit :=
  let! p := ch_get (GetPlayer who) in
  match p with
  | Some pl => emit (EvSend (ap_guid pl) data)
  | None => st_ret tt
  end.

(** [WorldPacket data; MakeX(&data, ...); SendToOne(&data, guid); return;] *)
Definition refuse (f : Channel -> PK unit) (guid : Z) : CH unit :=
  let! data := make f in SendToOne data guid.

(** [uint32 sec = 0; if (pPlayer) sec = pPlayer->GetSession()->GetSecurity();] *)
Definition security_of (p : option AbstractPlayer) : Z :=
  match p with Some pl => GetSecurity (ap_session pl) | None => SEC_PLAYER end.

(** The announcement condition of [Join] and [Leave]. *)
Definition announces (p : option AbstractPlayer) (c : Channel) : bool :=
  m_announce c &&
  (match p with Some pl => GetSecurity (ap_session pl) <? SEC_OBSERVER | None => true end
   || negb (CONFIG_SILENTLY_GM_JOIN_TO_CHANNEL env)).

(** [SetOwner(ObjectGuid guid, bool exclaim)]. *)
Definition SetOwner (guid : Z) (exclaim : bool) : CH unit :=
  let! pPlayer := ch_get (GetPlayer guid) in
  match pPlayer with
  | None => st_ret tt
  | Some pl =>
      let! general := ch_get (HasFlag CHANNEL_FLAG_GENERAL) in
      if general && (GetSecurity (ap_session pl) <? SEC_OBSERVER) then st_ret tt
      else
        let! old := ch_get m_ownerGuid in
        (if truth old then
           let! found := ch_get (fun c => m_players c !! old) in
           match found with
           | Some p => ch_mod (fun c => set_players (<[old := PI_SetOwner false p]> (m_players c)) c)
           | None => st_ret tt
           end
         else st_ret tt) ;;;
        ch_mod (set_ownerGuid guid) ;;;
        if truth guid then
          let! oldFlag := ch_get (GetPlayerFlags guid) in
          update_player guid (PI_SetOwner true) ;;;
          let! data := make (MakeModeChange guid oldFlag) in
          SendToAll data ;;;
          if exclaim then
            let! data := make (MakeOwnerChanged guid) in SendToAll data
          else st_ret tt
        else st_ret tt
  end.

(** [SetModerator(ObjectGuid, bool)] and [SetMute(ObjectGuid, bool)]. *)
Definition set_member_mode (test : PlayerInfo -> bool) (upd : bool -> PlayerInfo -> PlayerInfo)
    (guid : Z) (set : bool) : CH unit :=
  let! p := index_player guid in
  if negb (Bool.eqb (test p) set) then
    let! oldFlag := ch_get (GetPlayerFlags guid) in
    update_player guid (upd set) ;;;
    let! data := make (MakeModeChange guid oldFlag) in
    SendToAll data
  else st_ret tt.
Definition SetModerator := set_member_mode IsModerator PI_SetModerator.
Definition SetMute := set_member_mode IsMuted PI_SetMuted.

(** [Join]: passwords are C strings, on which [strcmp] is equality; the
    hooks [JoinNotify] and [LeaveNotify] are empty. *)
Definition Join (guid : Z) (password : string) (checkPassword : bool) : CH unit :=
  let! on := ch_get (IsOn guid) in
  if on then
    let! constant := ch_get IsConstant in
    if negb constant then refuse (MakePlayerAlreadyMember guid) guid else st_ret tt
  else
  let! banned := ch_get (IsBanned guid) in
  if banned then refuse MakeBanned guid
  else
  let! pass := ch_get m_password in
  if checkPassword && negb (bool_decide (pass = "")) && negb (bool_decide (password = pass)) then
    refuse MakeWrongPassword guid
  else
  let! pPlayer := ch_get (GetPlayer guid) in
  let! lvl := ch_get m_securityLevel in
  if truth lvl && (match pPlayer with Some pl => GetSecurity (ap_session pl) <? lvl | None => true end) then
    refuse MakeWrongPassword guid
  else
  let! flags := ch_get m_flags in
  if match pPlayer with
     | Some pl => ap_is_player pl && truth (ap_guildId pl) && (flags =? 0x38)
     | None => false
     end
  then st_ret tt
  else
  (match pPlayer with
   | Some pl => if ap_is_player pl then emit (EvJoinedChannel (ap_guid pl)) else st_ret tt
   | None => st_ret tt
   end) ;;;
  (let! ann := ch_get (announces pPlayer) in
   if ann then let! data := make (MakeJoined guid) in SendToAll data else st_ret tt) ;;;
  ch_mod (fun c => set_players (<[guid := mkPI guid MEMBER_FLAG_NONE]> (m_players c)) c) ;;;
  (let! data := make MakeYouJoined in SendToOne data guid) ;;;
  let! own := ch_get (fun c => HasFlag CHANNEL_FLAG_CUSTOM c && negb (IsConstant c)
                               && (m_ownerGuid c =? 0)) in
  if own then
    let! n := ch_get (fun c => base.size (m_players c)) in
    SetOwner guid (bool_decide (1 < n)%nat) ;;;
    update_player guid (PI_SetModerator true)
  else st_ret tt.

Definition Leave (guid : Z) (send : bool) : CH unit :=
  let! on := ch_get (IsOn guid) in
  if negb on then
    if send then refuse MakeNotMember guid else st_ret tt
  else
  let! pPlayer := ch_get (GetPlayer guid) in
  (if send then
     (let! data := make MakeYouLeft in SendToOne data guid) ;;;
     match pPlayer with
     | Some pl => emit (EvLeftChannel (ap_guid pl))
     | None => ub
     end
   else st_ret tt) ;;;
  let! info := index_player guid in
  ch_mod (fun c => set_players (delete guid (m_players c)) c) ;;;
  (let! ann := ch_get (announces pPlayer) in
   if ann then let! data := make (MakeLeft guid) in SendToAll data else st_ret tt) ;;;
  if IsOwner info then
    let! first := ch_get begin_player in
    SetOwner (match first with Some p => pi_player p | None => 0 end) true
  else st_ret tt.

(** The checks most commands start with: on the channel, and a moderator or
    a game master. *)
Definition with_moderator (guid : Z) (k : Z -> CH unit) : CH unit :=
  let! gplr := ch_get (GetPlayer guid) in
  let sec := security_of gplr in
  let! on := ch_get (IsOn guid) in
  if negb on then refuse MakeNotMember guid
  else
  let! info := index_player guid in
  if negb (IsModerator info) && (sec <? SEC_OBSERVER) then refuse MakeNotModerator guid
  else k sec.

Definition KickOrBan (guid : Z) (targetName : string) (ban : bool) : CH unit :=
  with_moderator guid (fun sec =>
  match ObjectMgr_GetPlayer env targetName with
  | None => refuse (MakePlayerNotFound targetName) guid
  | Some pTarget =>
      let targetGuid := ap_guid pTarget in
      let! ton := ch_get (IsOn targetGuid) in
      if negb ton then refuse (MakePlayerNotFound targetName) guid
      else
      let! owner := ch_get m_ownerGuid in
      let changeowner := owner =? targetGuid in
      if (sec <? SEC_OBSERVER) && changeowner && negb (guid =? owner) then refuse MakeNotOwner guid
      else
      let! tbanned := ch_get (IsBanned targetGuid) in
      (if ban && negb tbanned then
         ch_mod (fun c => set_banned ({[targetGuid]} ∪ m_banned c) c) ;;;
         let! data := make (MakePlayerBanned targetGuid guid) in SendToAll data
       else
         let! data := make (MakePlayerKicked targetGuid guid) in SendToAll data) ;;;
      ch_mod (fun c => set_players (delete targetGuid (m_players c)) c) ;;;
      emit (EvLeftChannel targetGuid) ;;;
      if changeowner then
        let! none := ch_get (fun c => bool_decide (m_players c = ∅)) in
        SetOwner (if none then 0 else guid) true
      else st_ret tt
  end).
Definition Kick guid targetName := KickOrBan guid targetName false.
Definition Ban guid targetName := KickOrBan guid targetName true.

Definition UnBan (guid : Z) (targetName : string) : CH unit :=
  with_moderator guid (fun _ =>
  match ObjectMgr_GetPlayer env targetName with
  | None => refuse (MakePlayerNotFound targetName) guid
  | Some pTarget =>
      let targetGuid := ap_guid pTarget in
      let! tbanned := ch_get (IsBanned targetGuid) in
      if negb tbanned then refuse (MakePlayerNotBanned targetName) guid
      else
      ch_mod (fun c => set_banned (m_banned c ∖ {[targetGuid]}) c) ;;;
      let! data := make (MakePlayerUnbanned targetGuid guid) in SendToAll data
  end).

Definition Password (guid : Z) (password : string) : CH unit :=
  with_moderator guid (fun _ =>
  ch_mod (set_password password) ;;;
  let! data := make (MakePasswordChanged guid) in SendToAll data).

Definition Announce (guid : Z) : CH unit :=
  with_moderator guid (fun _ =>
  ch_mod (fun c => set_announce (negb (m_announce c)) c) ;;;
  let! on := ch_get m_announce in
  let! data := make (if on then MakeAnnouncementsOn guid else MakeAnnouncementsOff guid) in
  SendToAll data).

Definition Moderate (guid : Z) : CH unit :=
  with_moderator guid (fun _ =>
  ch_mod (fun c => set_moderate (negb (m_moderate c)) c) ;;;
  let! on := ch_get m_moderate in
  let! data := make (if on then MakeModerationOn guid else MakeModerationOff guid) in
  SendToAll data).

(** [SetMode(guid, targetName, moderator, set)]. *)
Definition SetMode (guid : Z) (targetName : string) (moderator set : bool) : CH unit :=
  let! pPlayer := ch_get (GetPlayer guid) in
  match pPlayer with
  | None => st_ret tt
  | Some pl =>
      with_moderator guid (fun _ =>
      let! pTarget := ch_get (GetPlayerByName targetName) in
      match pTarget with
      | None => refuse (MakePlayerNotFound targetName) guid
      | Some tg =>
          let targetGuid := ap_guid tg in
          let! owner := ch_get m_ownerGuid in
          if moderator && (guid =? owner) && (targetGuid =? owner) then st_ret tt
          else
          let! ton := ch_get (IsOn targetGuid) in
          if negb ton then refuse (MakePlayerNotFound targetName) guid
          else
          if ((GetSecurity (ap_session pl) <? SEC_OBSERVER)
              || (GetSecurity (ap_session tg) <? SEC_OBSERVER))
             && negb (ap_team pl =? ap_team tg)
             && negb (CONFIG_ALLOW_TWO_SIDE_INTERACTION_CHANNEL env)
          then refuse (MakePlayerNotFound targetName) guid
          else
          if (owner =? targetGuid) && negb (owner =? guid) then refuse MakeNotOwner guid
          else
          if moderator then
            let! general := ch_get (HasFlag CHANNEL_FLAG_GENERAL) in
            if general && (GetSecurity (ap_session tg) <? SEC_OBSERVER) then st_ret tt
            else SetModerator targetGuid set
          else SetMute targetGuid set
      end)
  end.

(** [SetOwner(ObjectGuid guid, char const* targetName)]. *)
Definition SetOwner_cmd (guid : Z) (targetName : string) : CH unit :=
  let! pPlayer := ch_get (GetPlayer guid) in
  match pPlayer with
  | None => st_ret tt
  | Some pl =>
      let sec := GetSecurity (ap_session pl) in
      let! on := ch_get (IsOn guid) in
      if negb on then refuse MakeNotMember guid
      else
      let! owner := ch_get m_ownerGuid in
      if (sec <? SEC_OBSERVER) && negb (guid =? owner) then refuse MakeNotOwner guid
      else
      match ObjectMgr_GetPlayer env targetName with
      | None => refuse (MakePlayerNotFound targetName) guid
      | Some tg =>
          let targetGuid := ap_guid tg in
          let! ton := ch_get (IsOn targetGuid) in
          if negb ton then refuse (MakePlayerNotFound targetName) guid
          else
          if negb (ap_team tg =? ap_team pl) && negb (CONFIG_ALLOW_TWO_SIDE_INTERACTION_CHANNEL env)
          then refuse (MakePlayerNotFound targetName) guid
          else
          let! general := ch_get (HasFlag CHANNEL_FLAG_GENERAL) in
          if general && (GetSecurity (ap_session tg) <? SEC_OBSERVER) then st_ret tt
          else
            update_player targetGuid (PI_SetModerator true) ;;;
            SetOwner targetGuid true
      end
  end.

Definition SendWhoOwner (guid : Z) : CH unit :=
  let! on := ch_get (IsOn guid) in
  if negb on then refuse MakeNotMember guid
  else let! data := make (MakeChannelOwner env) in SendToOne data guid.

(** The rows of [List] the asking player may see. *)
Definition list_visible (player : AbstractPlayer) (k : Z) : bool :=
  match (if ap_is_player player then FindPlayer env k else FindMasterPlayer env k) with
  | Some p =>
      ((GetSecurity (ap_session player) >? SEC_PLAYER)
       || (GetSecurity (ap_session p) <=? CONFIG_GM_LEVEL_IN_WHO_LIST env))
      && ap_visibleFor p (ap_guid player)
  | None => false
  end.

Fixpoint list_rows (player : AbstractPlayer) (rows : list (Z * PlayerInfo)) (count : Z) : PK Z :=
  match rows with
  | [] => st_ret count
  | (k, info) :: rows' =>
      if list_visible player k then
        pk_guid k ;;; pk_u8 (pi_flags info) ;;; list_rows player rows' (u32 (count + 1))
      else list_rows player rows' count
  end.

Definition player_rows (c : Channel) : list (Z * PlayerInfo) :=
  omap (fun k => (fun i => (k, i)) <$> m_players c !! k) (sorted_keys (m_players c)).

(** The packet of [List]: name, flags, a size placeholder, the rows, and
    then the size patched in. *)
Definition MakeList (player : AbstractPlayer) (c : Channel) : PK unit :=
  pk_init SMSG_CHANNEL_LIST ;;;
  pk_str (m_name c) ;;;
  pk_u8 (m_flags c) ;;;
  let! pos := st_get (fun p => _wpos (wp_buf p)) in
  pk_u32 0 ;;;
  let! count := list_rows player (player_rows c) 0 in
  pk_buf (put_T MANGOS_ENDIAN 4 pos count).

Definition List (player : AbstractPlayer) : CH unit :=
  let guid := ap_guid player in
  let! on := ch_get (IsOn guid) in
  if negb on then refuse MakeNotMember guid
  else let! data := make (MakeList player) in SendToOne data guid.

Inductive SayRefusal := SAY_OK | SAY_NOT_MEMBER | SAY_MUTED | SAY_NOT_MODERATOR.

(** [pPlayer ? pPlayer->ToPlayer()->GetHonorMgr().GetCurrentHonorRank() : 0]. *)
Definition honor_rank (p : option AbstractPlayer) : CH Z :=
  match p with
  | Some pl => if ap_is_player pl then st_ret (ap_honorRank pl) else ub
  | None => st_ret 0
  end.

Definition CheckSay (guid : Z) (skipCheck : bool) : CH SayRefusal :=
  if skipCheck then st_ret SAY_OK
  else
  let! on := ch_get (IsOn guid) in
  if negb on then st_ret SAY_NOT_MEMBER
  else
  let! pPlayer := ch_get (GetPlayer guid) in
  let sec := security_of pPlayer in
  let! rank := honor_rank pPlayer in
  let! info := index_player guid in
  let! id := ch_get m_channelId in
  if IsMuted info || ((id =? CHANNEL_ID_WORLD_DEFENSE) && (rank <? 15)) then st_ret SAY_MUTED
  else
  let! moderate := ch_get m_moderate in
  if moderate && negb (IsModerator info) && (sec <? SEC_OBSERVER) then st_ret SAY_NOT_MODERATOR
  else st_ret SAY_OK.

(** Senders who only hear themselves. *)
Definition echo_only (s : Session) : bool :=
  IsFingerprintBanned s ||
  (truth (Z.land (GetAccountFlags s) ACCOUNT_FLAG_MUTED_FROM_PUBLIC_CHANNELS)
   && (GetAccountMaxLevel s <? CONFIG_PUB_CHANS_MUTE_VANISH_LEVEL env)).

Definition Say (guid : Z) (text : option string) (lang : Z) (skipCheck : bool) : CH unit :=
  match text with
  | None => st_ret tt
  | Some txt =>
      let! pPlayer := ch_get (GetPlayer guid) in
      let! rank := honor_rank pPlayer in
      let! verdict := CheckSay guid skipCheck in
      match verdict with
      | SAY_NOT_MEMBER => refuse MakeNotMember guid
      | SAY_MUTED => refuse MakeMuted guid
      | SAY_NOT_MODERATOR => refuse MakeNotModerator guid
      | SAY_OK =>
          let! id := ch_get m_channelId in
          let lang' :=
            match pPlayer with
            | Some pl =>
                if IsDefenseChannel id then baseLanguage env (ap_race pl)
                else if CONFIG_ALLOW_TWO_SIDE_INTERACTION_CHANNEL env then LANG_UNIVERSAL else lang
            | None => if CONFIG_ALLOW_TWO_SIDE_INTERACTION_CHANNEL env then LANG_UNIVERSAL else lang
            end in
          let! data := make (fun c =>
            BuildChatPacket CHAT_MSG_CHANNEL txt lang'
              (match pPlayer with Some pl => ap_chatTag pl | None => 0 end)
              guid None 0 (Some ""%string) (Some (m_name c)) rank) in
          match (if skipCheck then None else pPlayer) with
          | Some pl =>
              if echo_only (ap_session pl) then emit (EvSend (ap_guid pl) data)
              else
                let! info := index_player guid in
                SendToAll_from data (if negb (IsModerator info) then guid else 0)
          | None =>
              if skipCheck then SendToAll_from data 0
              else
                let! info := index_player guid in
                SendToAll_from data (if negb (IsModerator info) then guid else 0)
          end
      end
  end.

Definition AsyncSay (guid : Z) (what : string) (lang : Z) (skipCheck : bool) : CH unit :=
  let! name := ch_get m_name in
  emit (EvOnChannelBroadcast (GetCounter guid) name what) ;;;
  (if negb (lang =? LANG_ADDON) then
     let! verdict := CheckSay guid skipCheck in
     match verdict with
     | SAY_OK =>
         match FindPlayer env guid with
         | Some pl =>
             let echoOnly := negb skipCheck && echo_only (ap_session pl) in
             if negb echoOnly then emit (EvOnChatChannel (ap_guid pl) name what) else st_ret tt
         | None => st_ret tt
         end
     | _ => st_ret tt
     end
   else st_ret tt) ;;;
  let! team := ch_get m_Team in
  emit (EvEnqueueMessage what name guid lang team skipCheck).

Definition Invite (guid : Z) (targetName : string) : CH unit :=
  let! on := ch_get (IsOn guid) in
  if negb on then refuse MakeNotMember guid
  else
  let! pTarget := ch_get (GetPlayerByName targetName) in
  match pTarget with
  | None => refuse (MakePlayerNotFound targetName) guid
  | Some tg =>
      let targetGuid := ap_guid tg in
      let! ton := ch_get (IsOn targetGuid) in
      if ton then refuse (MakePlayerAlreadyMember targetGuid) guid
      else
      let! tbanned := ch_get (IsBanned targetGuid) in
      if tbanned then refuse (MakePlayerInviteBanned targetName) guid
      else
      let! pPlayer := ch_get (GetPlayer guid) in
      match pPlayer with
      | None => st_ret tt
      | Some pl =>
          if negb (ap_team tg =? ap_team pl) && negb (CONFIG_ALLOW_TWO_SIDE_INTERACTION_CHANNEL env)
          then refuse MakeInviteWrongFaction guid
          else
          (if negb (ap_hasIgnore tg guid)
           then let! data := make (MakeInvite guid) in SendToOne data targetGuid
           else st_ret tt) ;;;
          let! data := make (MakePlayerInvited (ap_name tg)) in
          SendToOne data guid
      end
  end.
End operations.
