(* ===== verification/ChannelLogic.v ===== *)
(** * ChannelLogic: reasoning rules for channel operations

    [wpi m P c]: whatever the outcome of [m] on the channel [c] (also when it
    aborts half-way), the channel it leaves satisfies [P].  The rules below
    follow the combinators operations are written with, and [wsteps] applies
    them; [quiet] operations only send or read. *)

From S2P Require Import Prelude ByteBuffer ObjectGuid Packets Channel.

Local Open Scope prog_scope.

Definition wpi {A} (m : CH A) (P : Channel -> Prop) (c : Channel) : Prop :=
  forall log, P (m (c, log)).2.1.

Definition quiet {A} (m : CH A) : Prop := forall s, (m s).2.1 = s.1.

Create HintDb quiet.

Section rules.
Context {A B : Type}.
Implicit Types (P : Channel -> Prop) (c : Channel).

Lemma wpi_of_quiet (m : CH A) P c : quiet m -> P c -> wpi m P c.
Proof. intros Hq HP log. by rewrite Hq. Qed.

Lemma wpi_bind_quiet (m : CH A) (k : A -> CH B) P c :
  quiet m -> P c -> (forall a, wpi (k a) P c) -> wpi (st_bind m k) P c.
Proof.
  intros Hq HP Hk log. unfold st_bind. specialize (Hq (c, log)).
  destruct (m (c, log)) as [[a|e| | |] [c' log']]; simpl in *; subst c'; auto.
  apply Hk.
Qed.

Lemma wpi_bind_get (f : Channel -> A) (k : A -> CH B) P c :
  wpi (k (f c)) P c -> wpi (st_bind (ch_get f) k) P c.
Proof. intros H log. apply H. Qed.

Lemma wpi_bind_mod (f : Channel -> Channel) (k : unit -> CH B) P c :
  wpi (k tt) P (f c) -> wpi (st_bind (ch_mod f) k) P c.
Proof. intros H log. apply H. Qed.

Lemma wpi_bind_ret (a : A) (k : A -> CH B) P c :
  wpi (k a) P c -> wpi (st_bind (st_ret a) k) P c.
Proof. intros H log. apply H. Qed.

Lemma wpi_mod (f : Channel -> Channel) P c : P (f c) -> wpi (ch_mod f) P c.
Proof. intros H log. apply H. Qed.

Lemma wpi_bind_index g (k : PlayerInfo -> CH B) P c :
  match m_players c !! g with
  | Some p => wpi (k p) P c
  | None => wpi (k PlayerInfo_default) P
              (set_players (<[g := PlayerInfo_default]> (m_players c)) c)
  end ->
  wpi (st_bind (index_player g) k) P c.
Proof.
  intros H log. unfold st_bind, index_player. simpl.
  destruct (m_players c !! g); apply H.
Qed.

Lemma wpi_bind_bind {C} (m : CH A) (k : A -> CH B) (h : B -> CH C) P c :
  wpi (st_bind m (fun a => st_bind (k a) h)) P c -> wpi (st_bind (st_bind m k) h) P c.
Proof. intros H log. rewrite st_bind_assoc. apply H. Qed.

Lemma wpi_bind_if (b : bool) (m1 m2 : CH A) (k : A -> CH B) P c :
  (b = true -> wpi (st_bind m1 k) P c) -> (b = false -> wpi (st_bind m2 k) P c) ->
  wpi (st_bind (if b then m1 else m2) k) P c.
Proof. destruct b; auto. Qed.

Lemma wpi_if (b : bool) (m1 m2 : CH A) P c :
  (b = true -> wpi m1 P c) -> (b = false -> wpi m2 P c) ->
  wpi (if b then m1 else m2) P c.
Proof. destruct b; auto. Qed.

Lemma wpi_weaken (m : CH A) P Q c :
  (forall c', P c' -> Q c') -> wpi m P c -> wpi m Q c.
Proof. intros H Hm log. apply H, Hm. Qed.

(** Sequencing through an operation known only by what it establishes. *)
Lemma wpi_bind_cut (m : CH A) (k : A -> CH B) P Q c :
  wpi m Q c -> (forall c', Q c' -> P c') -> (forall a c', Q c' -> wpi (k a) P c') ->
  wpi (st_bind m k) P c.
Proof.
  intros Hm HP Hk log. specialize (Hm log). unfold st_bind.
  destruct (m (c, log)) as [[a|e| | |] [c' log']]; simpl in *; auto. by apply Hk.
Qed.
End rules.

Section quiet_rules.
Context {A B : Type}.

Lemma quiet_ret (a : A) : quiet (st_ret a).
Proof. done. Qed.
Lemma quiet_get (f : Channel -> A) : quiet (ch_get f).
Proof. done. Qed.
Lemma quiet_emit e : quiet (emit e).
Proof. done. Qed.
Lemma quiet_ub : quiet (@ub A).
Proof. done. Qed.
Lemma quiet_make f : quiet (make f).
Proof. intros s. unfold make. by destruct (f _ _) as [[]]. Qed.
Lemma quiet_bind (m : CH A) (k : A -> CH B) :
  quiet m -> (forall a, quiet (k a)) -> quiet (st_bind m k).
Proof.
  intros Hm Hk s. unfold st_bind. specialize (Hm s).
  destruct (m s) as [[a|e| | |] s']; simpl in *; auto. by rewrite Hk.
Qed.
Lemma quiet_if (b : bool) (m1 m2 : CH A) : quiet m1 -> quiet m2 -> quiet (if b then m1 else m2).
Proof. by destruct b. Qed.
End quiet_rules.

#[export] Hint Resolve quiet_ret quiet_get quiet_emit quiet_ub quiet_make quiet_if : quiet.
#[export] Hint Extern 2 (quiet (st_bind _ _)) => apply quiet_bind; [|intros ?] : quiet.
#[export] Hint Extern 3 (quiet (match ?x with _ => _ end)) => destruct x : quiet.

Section quiet_ops.
Context (env : ChannelEnv).

Lemma quiet_send_each keys data g : quiet (send_each env keys data g).
Proof. induction keys; simpl; eauto with quiet. Qed.
Lemma quiet_SendToAll_from data g : quiet (SendToAll_from env data g).
Proof. unfold SendToAll_from. eauto using quiet_send_each with quiet. Qed.
Lemma quiet_SendToAll data : quiet (SendToAll env data).
Proof. apply quiet_SendToAll_from. Qed.
Lemma quiet_SendToOne data g : quiet (SendToOne env data g).
Proof. unfold SendToOne. auto with quiet. Qed.
Lemma quiet_refuse f g : quiet (refuse env f g).
Proof. unfold refuse. auto using quiet_SendToOne with quiet. Qed.
Lemma quiet_honor_rank p : quiet (honor_rank p).
Proof. unfold honor_rank. auto with quiet. Qed.
End quiet_ops.

#[export] Hint Resolve quiet_send_each quiet_SendToAll_from quiet_SendToAll quiet_SendToOne
  quiet_refuse quiet_honor_rank : quiet.

Lemma wpi_bind_update {B} g f (k : unit -> CH B) P c :
  wpi (k tt) P (set_players (<[g := f (default PlayerInfo_default (m_players c !! g))]> (m_players c)) c) ->
  wpi (st_bind (update_player g f) k) P c.
Proof.
  intros H. unfold update_player. apply wpi_bind_bind, wpi_bind_index.
  destruct (m_players c !! g) as [p|] eqn:E; simpl in H; apply wpi_bind_mod; [done|].
  intros log. specialize (H log). simpl. by rewrite insert_insert_eq.
Qed.

Lemma wpi_update g f P c :
  P (set_players (<[g := f (default PlayerInfo_default (m_players c !! g))]> (m_players c)) c) ->
  wpi (update_player g f) P c.
Proof.
  intros H log. unfold update_player, st_bind, index_player, ch_mod, st_mod. simpl.
  destruct (m_players c !! g) as [p|] eqn:E; simpl in *; [done|]. by rewrite insert_insert_eq.
Qed.

(** One step of symbolic execution; [P c] goals of quiet steps are left to [side]. *)
Ltac wstep side :=
  lazymatch goal with
  | |- wpi (st_bind (st_bind _ _) _) _ _ => apply wpi_bind_bind
  | |- wpi (st_bind (ch_get _) _) _ _ => apply wpi_bind_get; cbv beta
  | |- wpi (st_bind (ch_mod _) _) _ _ => apply wpi_bind_mod; cbv beta
  | |- wpi (st_bind (st_ret _) _) _ _ => apply wpi_bind_ret; cbv beta
  | |- wpi (st_bind (update_player _ _) _) _ _ => apply wpi_bind_update; cbv beta
  | |- wpi (st_bind (if _ then _ else _) _) _ _ => apply wpi_bind_if; intros ?
  | |- wpi (st_bind (match ?x with _ => _ end) _) _ _ => destruct x eqn:?
  | |- wpi (if _ then _ else _) _ _ => apply wpi_if; intros ?
  | |- wpi (match ?x with _ => _ end) _ _ => destruct x eqn:?
  | |- wpi (ch_mod _) _ _ => apply wpi_mod; cbv beta
  | |- wpi (update_player _ _) _ _ => apply wpi_update; cbv beta
  | |- wpi (st_bind _ _) _ _ =>
      apply wpi_bind_quiet; [solve [eauto with quiet]|side|intros ?]
  | |- wpi _ _ _ => apply wpi_of_quiet; [solve [eauto with quiet]|side]
  end.
Ltac wsteps side := repeat (cbv zeta; wstep side).

(** ** Member flags *)

Lemma testbit_u8 x i : 0 <= i < 8 -> Z.testbit (u8 x) i = Z.testbit x i.
Proof. intros Hi. unfold wrap. by rewrite Z.mod_pow2_bits_low by lia. Qed.

Lemma PI_HasFlag_bit i p : 0 <= i -> PI_HasFlag (Z.shiftl 1 i) p = Z.testbit (pi_flags p) i.
Proof. intros. unfold PI_HasFlag. by apply truth_land_bit. Qed.

Lemma set_flag_bit i j b p : 0 <= i < 8 -> 0 <= j < 8 ->
  Z.testbit (pi_flags (set_flag (Z.shiftl 1 j) b p)) i =
  if decide (i = j) then b else Z.testbit (pi_flags p) i.
Proof.
  intros Hi Hj. unfold set_flag. simpl. destruct b.
  - rewrite testbit_u8, Z.lor_spec, Z.shiftl_1_l, Z.pow2_bits_eqb by lia.
    case_decide; [subst; by rewrite Z.eqb_refl, orb_true_r|].
    destruct (Z.eqb_spec j i); [lia|]. by rewrite orb_false_r.
  - rewrite testbit_u8, Z.land_spec, Z.lnot_spec, Z.shiftl_1_l, Z.pow2_bits_eqb by lia.
    case_decide; [subst; by rewrite Z.eqb_refl, andb_false_r|].
    destruct (Z.eqb_spec j i); [lia|]. by rewrite andb_true_r.
Qed.

Lemma IsOwner_bit p : IsOwner p = Z.testbit (pi_flags p) 0.
Proof. apply (truth_land_bit (pi_flags p) 0). lia. Qed.
Lemma IsModerator_bit p : IsModerator p = Z.testbit (pi_flags p) 1.
Proof. apply (truth_land_bit (pi_flags p) 1). lia. Qed.
Lemma IsMuted_bit p : IsMuted p = Z.testbit (pi_flags p) 3.
Proof. apply (truth_land_bit (pi_flags p) 3). lia. Qed.

Lemma IsOwner_SetOwner b p : IsOwner (PI_SetOwner b p) = b.
Proof. rewrite IsOwner_bit. apply (set_flag_bit 0 0); lia. Qed.
Lemma IsOwner_SetModerator b p : IsOwner (PI_SetModerator b p) = IsOwner p.
Proof. rewrite !IsOwner_bit. apply (set_flag_bit 0 1); lia. Qed.
Lemma IsOwner_SetMuted b p : IsOwner (PI_SetMuted b p) = IsOwner p.
Proof. rewrite !IsOwner_bit. apply (set_flag_bit 0 3); lia. Qed.
Lemma IsModerator_SetModerator b p : IsModerator (PI_SetModerator b p) = b.
Proof. rewrite IsModerator_bit. apply (set_flag_bit 1 1); lia. Qed.
Lemma IsModerator_SetOwner b p : IsModerator (PI_SetOwner b p) = IsModerator p.
Proof. rewrite !IsModerator_bit. apply (set_flag_bit 1 0); lia. Qed.

Create Rewrite HintDb member_flags.
#[export] Hint Rewrite IsOwner_SetOwner IsOwner_SetModerator IsOwner_SetMuted
  IsModerator_SetModerator IsModerator_SetOwner : member_flags.

(** ** Packets of a channel with a short name *)

Definition short (c : Channel) : Prop := Z.of_nat (String.length (m_name c)) <= 1000000.

Lemma notify_empty t c :
  short c ->
  MakeNotifyPacket t c WorldPacket_empty =
    (Ok tt, packet SMSG_CHANNEL_NOTIFY (u8 t :: bytes_of_string (m_name c) ++ [0])).
Proof.
  intros Hs. unfold MakeNotifyPacket, pk_init. rewrite st_bind_mod.
  change (Initialize SMSG_CHANNEL_NOTIFY WorldPacket_empty) with (packet SMSG_CHANNEL_NOTIFY []).
  rewrite (builds_seq _ _ [u8 t] (bytes_of_string (m_name c) ++ [0])).
  - done.
  - repeat constructor; apply (wrap_range 8); lia.
  - apply builds_u8.
  - apply builds_str.
  - simpl length. rewrite length_app, length_bytes_of_string. simpl. unfold short in Hs. lia.
  - constructor.
Qed.

(** A notification with further fields [bs]. *)
Lemma make_notify t (rest : Channel -> PK unit) bs c log :
  short c -> builds (rest c) bs -> Z.of_nat (length bs) <= 8000000 ->
  make (fun c => MakeNotifyPacket t c ;;; rest c) (c, log) =
    (Ok (packet SMSG_CHANNEL_NOTIFY (u8 t :: bytes_of_string (m_name c) ++ [0] ++ bs)), (c, log)).
Proof.
  intros Hs Hb Hl. unfold make. simpl. rewrite (st_bind_ok _ _ _ _ _ (notify_empty t c Hs)).
  rewrite Hb.
  - by rewrite <- app_comm_cons, <- app_assoc.
  - simpl. rewrite length_app, length_bytes_of_string. simpl. unfold short in Hs. lia.
  - constructor; [apply (wrap_range 8); lia|]. apply Forall_app.
    split; [apply bytes_of_string_u8|repeat constructor; lia].
Qed.

Lemma make_notify0 t c log :
  short c ->
  make (MakeNotifyPacket t) (c, log) =
    (Ok (packet SMSG_CHANNEL_NOTIFY (u8 t :: bytes_of_string (m_name c) ++ [0])), (c, log)).
Proof. intros Hs. unfold make. simpl. by rewrite notify_empty. Qed.

(** What [SendToAll] delivers: one packet to each online member that does not
    ignore the sender, in the order of the map. *)
Definition recipients (env : ChannelEnv) (g : Z) (c : Channel) : list Z :=
  omap (fun k => match GetPlayer env k c with
                 | Some pl => if ap_hasIgnore pl g then None else Some (ap_guid pl)
                 | None => None
                 end) (sorted_keys (m_players c)).

Lemma SendToAll_from_spec env data g c log :
  SendToAll_from env data g (c, log) =
    (Ok tt, (c, log ++ ((fun to => EvSend to data) <$> recipients env g c))).
Proof.
  change (send_each env (sorted_keys (m_players c)) data g (c, log) =
    (Ok tt, (c, log ++ ((fun to => EvSend to data) <$> recipients env g c)))).
  unfold recipients.
  generalize (sorted_keys (m_players c)). intros keys. revert log.
  induction keys as [|k keys IH]; intros log; simpl.
  - by rewrite app_nil_r.
  - unfold st_bind at 1. unfold st_bind, ch_get, st_get. simpl.
    destruct (GetPlayer env k c) as [pl|]; simpl; [|apply IH].
    destruct (ap_hasIgnore pl g); simpl; [apply IH|]. rewrite IH, <- app_assoc. done.
Qed.

Lemma SendToOne_spec env data g c log :
  SendToOne env data g (c, log) =
    (Ok tt, (c, log ++ match GetPlayer env g c with
                       | Some pl => [EvSend (ap_guid pl) data]
                       | None => []
                       end)).
Proof.
  unfold SendToOne, st_bind, ch_get, st_get, emit, st_mod. simpl.
  destruct (GetPlayer env g c); simpl; by rewrite ?app_nil_r.
Qed.

(** ** Operations that return *)

Section yields_ops.
Context (env : ChannelEnv).

Lemma yields_SendToAll data c : yields (SendToAll env data) c tt c.
Proof. intros log. eexists. apply SendToAll_from_spec. Qed.
Lemma yields_SendToAll_from data g c : yields (SendToAll_from env data g) c tt c.
Proof. intros log. eexists. apply SendToAll_from_spec. Qed.
Lemma yields_SendToOne data g c : yields (SendToOne env data g) c tt c.
Proof. intros log. eexists. apply SendToOne_spec. Qed.

Lemma yields_make_notify {B} t (rest : Channel -> PK unit) bs (k : WorldPacket -> CH B) c b c' :
  short c -> builds (rest c) bs -> Z.of_nat (length bs) <= 8000000 ->
  (forall p, yields (k p) c b c') ->
  yields (st_bind (make (fun c => MakeNotifyPacket t c ;;; rest c)) k) c b c'.
Proof.
  intros Hs Hb Hl Hk log.
  rewrite (st_bind_ok _ _ _ _ _ (make_notify t rest bs c log Hs Hb Hl)). apply Hk.
Qed.

Lemma yields_make_notify0 {B} t (k : WorldPacket -> CH B) c b c' :
  short c -> (forall p, yields (k p) c b c') ->
  yields (st_bind (make (MakeNotifyPacket t)) k) c b c'.
Proof.
  intros Hs Hk log. rewrite (st_bind_ok _ _ _ _ _ (make_notify0 t c log Hs)). apply Hk.
Qed.

(** The notifications the operations below send, by the shape of their payload. *)
Lemma yields_make_guid {B} t g (k : WorldPacket -> CH B) c b c' :
  short c -> (forall p, yields (k p) c b c') ->
  yields (st_bind (make (fun c => MakeNotifyPacket t c ;;; pk_guid g)) k) c b c'.
Proof.
  intros Hs Hk. apply (yields_make_notify t (fun _ => pk_guid g) (le_bytes 8 g)); auto with packets.
  by rewrite length_le_bytes.
Qed.

Lemma yields_make_guids {B} t g h (k : WorldPacket -> CH B) c b c' :
  short c -> (forall p, yields (k p) c b c') ->
  yields (st_bind (make (fun c => MakeNotifyPacket t c ;;; pk_guid g ;;; pk_guid h)) k) c b c'.
Proof.
  intros Hs Hk. apply (yields_make_notify t (fun _ => pk_guid g ;;; pk_guid h)
    (le_bytes 8 g ++ le_bytes 8 h)); auto.
  - apply builds_seq; auto with packets.
  - by rewrite length_app, !length_le_bytes.
Qed.

Lemma yields_make_joined {B} (k : WorldPacket -> CH B) c b c' :
  short c -> (forall p, yields (k p) c b c') -> yields (st_bind (make MakeYouJoined) k) c b c'.
Proof.
  intros Hs Hk. apply (yields_make_notify _ (fun c => pk_u32 (m_flags c) ;;; pk_u32 0)
    (le_bytes 4 (m_flags c) ++ le_bytes 4 0)); auto.
  - apply builds_seq; auto with packets.
  - by rewrite length_app, !length_le_bytes.
Qed.

Lemma yields_make_mode {B} g old (k : WorldPacket -> CH B) c b c' :
  short c -> (forall p, yields (k p) c b c') ->
  yields (st_bind (make (MakeModeChange g old)) k) c b c'.
Proof.
  intros Hs Hk. apply (yields_make_notify _
    (fun c => pk_guid g ;;; pk_u8 old ;;; pk_u8 (GetPlayerFlags g c))
    (le_bytes 8 g ++ [u8 old] ++ [u8 (GetPlayerFlags g c)])); auto.
  - apply builds_seq; auto with packets. apply builds_seq; auto with packets.
  - by rewrite length_app, length_le_bytes.
Qed.

Lemma yields_index g p c :
  m_players c !! g = Some p -> yields (index_player g) c p c.
Proof. intros H log. exists []. unfold index_player. simpl. by rewrite H, app_nil_r. Qed.

Lemma yields_update g f c :
  yields (update_player g f) c tt
    (set_players (<[g := f (default PlayerInfo_default (m_players c !! g))]> (m_players c)) c).
Proof.
  intros log. exists []. rewrite app_nil_r.
  unfold update_player, st_bind, index_player, ch_mod, st_mod. simpl.
  destruct (m_players c !! g) as [p|] eqn:E; simpl; [done|]. by rewrite insert_insert_eq.
Qed.
End yields_ops.


(** ** Appointing an owner *)

(** The members once the previous owner has lost his flag. *)
Definition demoted (c : Channel) : gmap Z PlayerInfo :=
  match m_players c !! m_ownerGuid c with
  | Some p => if truth (m_ownerGuid c)
              then <[m_ownerGuid c := PI_SetOwner false p]> (m_players c) else m_players c
  | None => m_players c
  end.

(** What [SetOwner(guid, exclaim)] leaves, notifications aside. *)
Definition owner_set (env : ChannelEnv) (g : Z) (c : Channel) : Channel :=
  match GetPlayer env g c with
  | None => c
  | Some pl =>
      if HasFlag CHANNEL_FLAG_GENERAL c && (GetSecurity (ap_session pl) <? SEC_OBSERVER) then c
      else
        let c1 := set_ownerGuid g (set_players (demoted c) c) in
        if truth g then
          set_players
            (<[g := PI_SetOwner true (default PlayerInfo_default (demoted c !! g))]> (demoted c)) c1
        else c1
  end.

Lemma set_players_same c : set_players (m_players c) c = c.
Proof. by destruct c. Qed.

Lemma yields_SetOwner env g exclaim c :
  short c -> yields (SetOwner env g exclaim) c tt (owner_set env g c).
Proof.
  intros Hs. unfold SetOwner, owner_set. apply yields_bind_get.
  destruct (GetPlayer env g c) as [pl|]; [|apply yields_ret]. apply yields_bind_get.
  destruct (_ && _); [apply yields_ret|]. apply yields_bind_get. cbv zeta.
  apply (yields_bind _ _ _ tt (set_players (demoted c) c)).
  - unfold demoted. destruct (truth (m_ownerGuid c)).
    + apply yields_bind_get. destruct (m_players c !! m_ownerGuid c) as [p|].
      { exact (yields_mod (fun c' => set_players (<[m_ownerGuid c := PI_SetOwner false p]> (m_players c')) c') c). }
      rewrite set_players_same. apply yields_ret.
    + destruct (m_players c !! m_ownerGuid c); rewrite set_players_same; apply yields_ret.
  - apply yields_bind_mod. destruct (truth g); [|apply yields_ret]. apply yields_bind_get.
    eapply yields_bind; [apply yields_update|]. apply yields_make_mode; [done|]. intros data.
    eapply yields_bind; [apply yields_SendToAll|]. destruct exclaim; [|apply yields_ret].
    apply yields_make_guid; [done|]. intros data'. apply yields_SendToAll.
Qed.
