(* ===== verification/ChannelProps.v ===== *)
(** * ChannelProps: what chat channels guarantee

    The commands a client or the server can give a channel as data, the step
    relation they induce, and the properties of [src/game/Chat/Channel.cpp]:
    ownership and ban invariants over every history, permissions, delivery. *)

From stdpp Require Import relations.
From S2P Require Import Prelude ByteBuffer Codec ObjectGuid Packets Channel ChannelLogic.

Local Open Scope prog_scope.

(** ** Commands and histories *)

Inductive command :=
| CJoin (guid : Z) (password : string) (checkPassword : bool)
| CLeave (guid : Z) (send : bool)
| CKickOrBan (guid : Z) (targetName : string) (ban : bool)
| CUnBan (guid : Z) (targetName : string)
| CPassword (guid : Z) (password : string)
| CSetMode (guid : Z) (targetName : string) (moderator set : bool)
| CSetOwner (guid : Z) (targetName : string)
| CWhoOwner (guid : Z)
| CList (player : AbstractPlayer)
| CAnnounce (guid : Z)
| CModerate (guid : Z)
| CSay (guid : Z) (text : option string) (lang : Z) (skipCheck : bool)
| CAsyncSay (guid : Z) (what : string) (lang : Z) (skipCheck : bool)
| CInvite (guid : Z) (targetName : string)
| CServerSet (password : option string) (announce : option bool) (sec : option Z).

Definition server_set (password : option string) (announce : option bool) (sec : option Z)
    (c : Channel) : Channel :=
  let c1 := match password with Some v => set_password v c | None => c end in
  let c2 := match announce with Some v => set_announce v c1 | None => c1 end in
  match sec with Some v => set_securityLevel v c2 | None => c2 end.

Definition run (env : ChannelEnv) (cmd : command) : CH unit :=
  match cmd with
  | CJoin g p k => Join env g p k
  | CLeave g s => Leave env g s
  | CKickOrBan g t b => KickOrBan env g t b
  | CUnBan g t => UnBan env g t
  | CPassword g p => Password env g p
  | CSetMode g t m s => SetMode env g t m s
  | CSetOwner g t => SetOwner_cmd env g t
  | CWhoOwner g => SendWhoOwner env g
  | CList p => List env p
  | CAnnounce g => Announce env g
  | CModerate g => Moderate env g
  | CSay g t l k => Say env g t l k
  | CAsyncSay g w l k => AsyncSay env g w l k
  | CInvite g t => Invite env g t
  | CServerSet p a s => ch_mod (server_set p a s)
  end.

(** One command, in whatever the world looks like at that moment. *)
Inductive chan_step (allowed : ChannelEnv -> command -> Prop) : Channel -> Channel -> Prop :=
| chan_step_run env cmd c log :
    allowed env cmd -> chan_step allowed c (run env cmd (c, log)).2.1.

Lemma invariant_reachable allowed (P : Channel -> Prop) c0 c :
  (forall env cmd c, allowed env cmd -> P c -> wpi (run env cmd) P c) ->
  P c0 -> rtc (chan_step allowed) c0 c -> P c.
Proof.
  intros Hstep H0 Hr. induction Hr as [|c1 c2 c3 Hs _ IH]; [done|].
  apply IH. destruct Hs. by apply Hstep.
Qed.

(** ** Commands that never change the channel *)

Section reading.
Context (env : ChannelEnv).

(** An entry read through [m_players[k]] exists already. *)
Lemma wpi_bind_index_on {B} g (k : PlayerInfo -> CH B) P c :
  IsOn g c = true ->
  (forall p, m_players c !! g = Some p -> wpi (k p) P c) ->
  wpi (st_bind (index_player g) k) P c.
Proof.
  intros [p Hp]%bool_decide_eq_true_1 Hk. apply wpi_bind_index. rewrite Hp. auto.
Qed.

Lemma wpi_with_moderator g k P c :
  P c ->
  (forall sec p, IsOn g c = true -> m_players c !! g = Some p ->
     IsModerator p || negb (sec <? SEC_OBSERVER) = true ->
     sec = security_of (GetPlayer env g c) -> wpi (k sec) P c) ->
  wpi (with_moderator env g k) P c.
Proof.
  intros HP Hk. unfold with_moderator. cbn zeta. do 2 wstep idtac.
  apply wpi_if; intros Hon; [by apply wpi_of_quiet; [auto with quiet|]|].
  apply negb_false_iff in Hon. apply wpi_bind_index_on; [done|]. intros p Hp.
  apply wpi_if; intros Hm; [by apply wpi_of_quiet; [auto with quiet|]|].
  apply (Hk _ p); auto. destruct (IsModerator p); [done|]. simpl in *. by rewrite Hm.
Qed.

Lemma wpi_CheckSay {B} g skip (k : SayRefusal -> CH B) P c :
  P c -> (forall v, (v = SAY_OK -> skip = false -> IsOn g c = true) -> wpi (k v) P c) ->
  wpi (st_bind (CheckSay env g skip) k) P c.
Proof.
  intros HP Hk. unfold CheckSay. destruct skip; [wstep idtac; by apply Hk|].
  do 2 wstep idtac. wstep idtac; [wstep idtac; by apply Hk|].
  match goal with H : negb _ = false |- _ => apply negb_false_iff in H as Hon end.
  cbn zeta. wstep idtac. wstep idtac. cbv zeta. wstep idtac. wstep ltac:(done).
  wstep idtac. apply wpi_bind_index_on; [done|]. intros p Hp.
  wsteps ltac:(done); apply Hk; auto.
Qed.

Lemma wpi_Say g text lang skip P c : P c -> wpi (Say env g text lang skip) P c.
Proof.
  intros HP. unfold Say. wstep ltac:(done); [|by apply wpi_of_quiet; auto with quiet].
  wstep idtac. wstep ltac:(done). apply wpi_CheckSay; [done|]. intros v Hv.
  destruct v; [|by apply wpi_of_quiet; auto with quiet..].
  wstep idtac. cbn zeta. wstep ltac:(done).
  destruct skip; [by apply wpi_of_quiet; auto with quiet|].
  wsteps ltac:(done); (apply wpi_bind_index_on; [by apply Hv|]; intros p Hp; wsteps ltac:(done)).
Qed.

Lemma wpi_AsyncSay g what lang skip P c : P c -> wpi (AsyncSay env g what lang skip) P c.
Proof.
  intros HP. unfold AsyncSay. wstep idtac. wstep ltac:(done). wstep idtac.
  - wstep idtac. apply wpi_CheckSay; [done|]. intros v _. wsteps ltac:(done).
  - wsteps ltac:(done).
Qed.

Lemma wpi_Invite g t P c : P c -> wpi (Invite env g t) P c.
Proof. intros HP. unfold Invite. wsteps ltac:(done). Qed.

Lemma wpi_List p P c : P c -> wpi (List env p) P c.
Proof. intros HP. unfold List. cbn zeta. wsteps ltac:(done). Qed.

Lemma wpi_SendWhoOwner g P c : P c -> wpi (SendWhoOwner env g) P c.
Proof. intros HP. unfold SendWhoOwner. wsteps ltac:(done). Qed.
End reading.

(** ** Ownership over every history *)

Section owner.
Context (env : ChannelEnv).

(** Only the recorded owner carries the owner flag. *)
Definition owner_inv (c : Channel) : Prop :=
  forall g p, m_players c !! g = Some p -> IsOwner p = true -> g = m_ownerGuid c /\ g <> 0.

(** Nobody carries the owner flag. *)
Definition ownerless (c : Channel) : Prop :=
  forall g p, m_players c !! g = Some p -> IsOwner p = false.

Lemma ownerless_inv c : ownerless c -> owner_inv c.
Proof. intros H g p Hp Ho. by rewrite (H g p Hp) in Ho. Qed.

Lemma owner_inv_delete g c : owner_inv c -> owner_inv (set_players (delete g (m_players c)) c).
Proof. intros H k p Hp. cbn in Hp. apply lookup_delete_Some in Hp as [_ Hp]. by apply H. Qed.

(** Changing a member's entry without touching who owns the channel. *)
Lemma owner_inv_insert g p c :
  owner_inv c -> (IsOwner p = true -> g = m_ownerGuid c /\ g <> 0) ->
  owner_inv (set_players (<[g := p]> (m_players c)) c).
Proof.
  intros H Hp k q Hq. cbn in Hq. apply lookup_insert_Some in Hq as [[-> ->]|[_ Hq]]; [done|].
  by apply H.
Qed.

Lemma owner_inv_default g c f :
  owner_inv c -> (forall p, IsOwner (f p) = IsOwner p) ->
  owner_inv (set_players (<[g := f (default PlayerInfo_default (m_players c !! g))]> (m_players c)) c).
Proof.
  intros H Hf. apply owner_inv_insert; [done|]. rewrite Hf.
  destruct (m_players c !! g) as [p|] eqn:E; [by apply (H g p)|done].
Qed.

Lemma owner_inv_clear c p :
  owner_inv c -> m_players c !! m_ownerGuid c = Some p ->
  ownerless (set_players (<[m_ownerGuid c := PI_SetOwner false p]> (m_players c)) c).
Proof.
  intros H Hp k q Hq. cbn in Hq.
  apply lookup_insert_Some in Hq as [[<- <-]|[Hne Hq]]; [apply IsOwner_SetOwner|].
  destruct (IsOwner q) eqn:Ho; [|done]. destruct (H k q Hq Ho). congruence.
Qed.

Lemma owner_inv_absent c :
  owner_inv c -> m_ownerGuid c = 0 \/ m_players c !! m_ownerGuid c = None -> ownerless c.
Proof.
  intros H Hn k q Hq. destruct (IsOwner q) eqn:Ho; [|done].
  destruct (H k q Hq Ho) as [-> ?]. destruct Hn; congruence.
Qed.

(** Appointing [g] once no owner flag is left. *)
Lemma wpi_appoint g exclaim c :
  ownerless c ->
  wpi (ch_mod (set_ownerGuid g) ;;;
       if truth g then
         let! oldFlag := ch_get (GetPlayerFlags g) in
         update_player g (PI_SetOwner true) ;;;
         let! data := make (MakeModeChange g oldFlag) in
         SendToAll env data ;;;
         if exclaim : bool then
           let! data := make (MakeOwnerChanged g) in SendToAll env data
         else st_ret tt
       else st_ret tt) owner_inv c.
Proof.
  intros H. assert (owner_inv (set_ownerGuid g c)) as H0
    by (apply ownerless_inv; intros k p; apply (H k p)).
  wstep idtac. wstep idtac; [|by wsteps ltac:(done)].
  match goal with Hg : truth g = true |- _ => unfold truth in Hg; bool_prop end.
  assert (owner_inv (set_players (<[g:=PI_SetOwner true
    (default PlayerInfo_default (m_players (set_ownerGuid g c) !! g))]>
    (m_players (set_ownerGuid g c))) (set_ownerGuid g c))) by (by apply owner_inv_insert).
  wsteps ltac:(done).
Qed.

Lemma wpi_SetOwner_owner g exclaim c : owner_inv c -> wpi (SetOwner env g exclaim) owner_inv c.
Proof.
  intros H. unfold SetOwner. wstep idtac. wstep idtac; [|by wsteps ltac:(done)].
  wstep idtac. wstep idtac; [by wsteps ltac:(done)|]. wstep idtac. wstep idtac; [do 3 wstep idtac|].
  - wstep idtac. apply wpi_appoint. by apply owner_inv_clear.
  - wstep idtac. apply wpi_appoint, owner_inv_absent; auto.
  - wstep idtac. apply wpi_appoint, owner_inv_absent; [done|]. left.
    unfold truth in *. by bool_prop.
Qed.

Lemma wpi_member_mode_owner test upd g set c :
  (forall b p, IsOwner (upd b p) = IsOwner p) ->
  owner_inv c -> wpi (set_member_mode env test upd g set) owner_inv c.
Proof.
  intros Hu H. unfold set_member_mode. apply wpi_bind_index.
  destruct (m_players c !! g) eqn:E.
  - wsteps ltac:(first [done | by apply owner_inv_default]).
  - assert (owner_inv (set_players (<[g := PlayerInfo_default]> (m_players c)) c))
      by (by apply owner_inv_insert).
    wsteps ltac:(first [done | by apply owner_inv_default]).
Qed.

Lemma wpi_Join_owner g pw check c : owner_inv c -> wpi (Join env g pw check) owner_inv c.
Proof.
  intros H. unfold Join. wsteps ltac:(done).
  all: assert (owner_inv (set_players (<[g := mkPI g MEMBER_FLAG_NONE]> (m_players c)) c))
    by (by apply owner_inv_insert).
  all: wsteps ltac:(done).
  all: apply (wpi_bind_cut _ _ _ owner_inv); [by apply wpi_SetOwner_owner|done|].
  all: intros _ c' Hc'; wstep idtac; apply owner_inv_default; [done|].
  all: intros p; apply IsOwner_SetModerator.
Qed.

Lemma wpi_Leave_owner g send c : owner_inv c -> wpi (Leave env g send) owner_inv c.
Proof.
  intros H. unfold Leave. wstep idtac. wstep idtac; [by wsteps ltac:(done)|].
  bool_prop. wsteps ltac:(done).
  all: apply wpi_bind_index_on; [done|]; intros p Hp.
  all: pose proof (owner_inv_delete g c H); wsteps ltac:(done).
  all: by apply wpi_SetOwner_owner.
Qed.

Lemma wpi_KickOrBan_owner g t ban c : owner_inv c -> wpi (KickOrBan env g t ban) owner_inv c.
Proof.
  intros H. unfold KickOrBan. apply wpi_with_moderator; [done|]. intros sec p _ _ _ _.
  wsteps ltac:(done).
  all: pose proof (owner_inv_delete (ap_guid a) c H).
  all: wsteps ltac:(first [done | intros k q; apply (H k q)]).
  all: by apply wpi_SetOwner_owner.
Qed.

Lemma wpi_SetMode_owner g t m set c : owner_inv c -> wpi (SetMode env g t m set) owner_inv c.
Proof.
  intros H. unfold SetMode. wstep idtac. wstep idtac; [|by wsteps ltac:(done)].
  apply wpi_with_moderator; [done|]. intros sec p _ _ _ _. cbv zeta.
  wsteps ltac:(done); apply wpi_member_mode_owner; auto using IsOwner_SetModerator, IsOwner_SetMuted.
Qed.

Lemma wpi_SetOwner_cmd_owner g t c : owner_inv c -> wpi (SetOwner_cmd env g t) owner_inv c.
Proof.
  intros H. unfold SetOwner_cmd. wsteps ltac:(done).
  apply wpi_SetOwner_owner, owner_inv_default; auto using IsOwner_SetModerator.
Qed.

Lemma run_owner cmd c : owner_inv c -> wpi (run env cmd) owner_inv c.
Proof.
  intros H. destruct cmd; cbn [run]; auto using wpi_Join_owner, wpi_Leave_owner,
    wpi_KickOrBan_owner, wpi_SetMode_owner, wpi_SetOwner_cmd_owner, wpi_SendWhoOwner, wpi_List,
    wpi_Say, wpi_AsyncSay, wpi_Invite.
  1-4: apply wpi_with_moderator; [done|]; intros sec p _ _ _ _;
    wsteps ltac:(intros k q; apply (H k q)).
  apply wpi_mod. intros k q. destruct password, announce, sec; apply (H k q).
Qed.
End owner.

Lemma reachable_owner env0 name team c :
  rtc (chan_step (fun _ _ => True)) (Channel_new env0 name team) c -> owner_inv c.
Proof.
  intros Hr. apply (invariant_reachable _ owner_inv _ _ (fun env cmd c _ => run_owner env cmd c)) in Hr; [done|].
  intros k p Hp. unfold Channel_new in Hp. repeat (case_match; simpl in *; simplify_eq); done.
Qed.

(** C11. Whatever commands a channel receives, in whatever order and state of
    the world, at most one member carries the owner flag, and that member is
    the one the channel records as its owner. *)
Theorem owner_unique env0 name team c g1 g2 p1 p2 :
  rtc (chan_step (fun _ _ => True)) (Channel_new env0 name team) c ->
  m_players c !! g1 = Some p1 -> IsOwner p1 = true ->
  m_players c !! g2 = Some p2 -> IsOwner p2 = true ->
  g1 = g2 /\ g1 = m_ownerGuid c /\ g1 <> 0.
Proof.
  intros Hr H1 O1 H2 O2. pose proof (reachable_owner _ _ _ _ Hr) as H.
  destruct (H g1 p1 H1 O1), (H g2 p2 H2 O2). split_and!; congruence.
Qed.

(** ** Bans over every history *)

Section bans.
Context (env : ChannelEnv).

(** Every member's entry names him, and no member is banned. *)
Definition mem_inv (c : Channel) : Prop :=
  short c /\ forall g p, m_players c !! g = Some p -> pi_player p = g /\ g ∉ m_banned c.
Definition mem_on (g : Z) (c : Channel) : Prop := mem_inv c /\ is_Some (m_players c !! g).

Lemma mem_inv_delete g c : mem_inv c -> mem_inv (set_players (delete g (m_players c)) c).
Proof.
  intros [Hs H]. split; [done|]. intros k p Hp. cbn in Hp.
  apply lookup_delete_Some in Hp as [_ Hp]. by apply H.
Qed.

Lemma mem_inv_update k f c :
  mem_inv c -> is_Some (m_players c !! k) -> (forall p, pi_player (f p) = pi_player p) ->
  mem_inv (set_players (<[k := f (default PlayerInfo_default (m_players c !! k))]> (m_players c)) c).
Proof.
  intros [Hs H] [p Hp] Hf. split; [done|]. intros j q Hq. cbn in Hq.
  apply lookup_insert_Some in Hq as [[<- <-]|[_ Hq]]; [|by apply H].
  rewrite Hp. simpl. rewrite Hf. by apply H.
Qed.

Lemma mem_on_update g k f c :
  mem_on g c -> is_Some (m_players c !! k) -> (forall p, pi_player (f p) = pi_player p) ->
  mem_on g (set_players (<[k := f (default PlayerInfo_default (m_players c !! k))]> (m_players c)) c).
Proof.
  intros [H Hg] Hk Hf. split; [by apply mem_inv_update|]. cbn.
  destruct (decide (k = g)) as [->|]; [by rewrite lookup_insert_eq|by rewrite lookup_insert_ne].
Qed.

(** Taking the flag from the previous owner. *)
Lemma wpi_demote P c :
  P c -> (forall k f, P c -> is_Some (m_players c !! k) -> (forall p, pi_player (f p) = pi_player p) ->
    P (set_players (<[k := f (default PlayerInfo_default (m_players c !! k))]> (m_players c)) c)) ->
  wpi (if truth (m_ownerGuid c) then
         let! found := ch_get (fun c' => m_players c' !! m_ownerGuid c) in
         match found with
         | Some p => ch_mod (fun c' =>
             set_players (<[m_ownerGuid c := PI_SetOwner false p]> (m_players c')) c')
         | None => st_ret tt
         end
       else st_ret tt) P c.
Proof.
  intros H Hu. wsteps ltac:(try done). specialize (Hu (m_ownerGuid c) (PI_SetOwner false)).
  match goal with Hp : m_players c !! _ = Some ?p |- _ => rewrite Hp in Hu end. by apply Hu.
Qed.

Lemma wpi_SetOwner_on g exclaim c : mem_on g c -> wpi (SetOwner env g exclaim) (mem_on g) c.
Proof.
  intros H. unfold SetOwner. wstep idtac. wstep idtac; [|by wsteps ltac:(done)].
  wstep idtac. wstep idtac; [by wsteps ltac:(done)|]. wstep idtac.
  apply (wpi_bind_cut _ _ _ (mem_on g)); [by apply wpi_demote; auto using mem_on_update|done|].
  intros _ c' H'. wstep idtac. change (mem_on g (set_ownerGuid g c')) in H'.
  pose proof (mem_on_update g g (PI_SetOwner true) _ H' (proj2 H') (fun _ => eq_refl)) as Hu.
  wsteps ltac:(done).
Qed.

Lemma wpi_SetOwner_none exclaim c : mem_inv c -> wpi (SetOwner env 0 exclaim) mem_inv c.
Proof.
  intros H. unfold SetOwner. wstep idtac. wstep idtac; [|by wsteps ltac:(done)].
  wstep idtac. wstep idtac; [by wsteps ltac:(done)|]. wstep idtac.
  apply (wpi_bind_cut _ _ _ mem_inv); [by apply wpi_demote; auto using mem_inv_update|done|].
  intros _ c' H'. wsteps ltac:(done).
Qed.

Lemma wpi_member_mode_mem test upd g set c :
  (forall b p, pi_player (upd b p) = pi_player p) -> IsOn g c = true ->
  mem_inv c -> wpi (set_member_mode env test upd g set) mem_inv c.
Proof.
  intros Hu Hon H. unfold set_member_mode. apply wpi_bind_index_on; [done|]. intros p Hp.
  wsteps ltac:(first [done | by apply mem_inv_update; [|apply bool_decide_eq_true_1 in Hon|]]).
Qed.

Lemma mem_on_joined g c :
  mem_inv c -> g ∉ m_banned c ->
  mem_on g (set_players (<[g := mkPI g MEMBER_FLAG_NONE]> (m_players c)) c).
Proof.
  intros [Hs H] Hb. split; [split; [done|]|by cbn; rewrite lookup_insert_eq].
  intros k p Hp. cbn in Hp. apply lookup_insert_Some in Hp as [[<- <-]|[_ Hp]]; [done|].
  by apply H.
Qed.

Lemma wpi_Join_mem g pw check c : mem_inv c -> wpi (Join env g pw check) mem_inv c.
Proof.
  intros H. unfold Join. wsteps ltac:(done).
  all: assert (mem_on g (set_players (<[g := mkPI g MEMBER_FLAG_NONE]> (m_players c)) c)) as Hm
    by (apply mem_on_joined; [done|]; by eapply bool_decide_eq_false_1).
  all: pose proof (proj1 Hm).
  all: wsteps ltac:(done).
  all: apply (wpi_bind_cut _ _ _ (mem_on g)); [by apply wpi_SetOwner_on|by intros ? []|].
  all: intros _ c' [Hc' Hg']; wstep idtac; by apply mem_inv_update.
Qed.

Lemma begin_player_on c p :
  mem_inv c -> begin_player c = Some p -> is_Some (m_players c !! pi_player p).
Proof.
  intros [_ H]. unfold begin_player. destruct (sorted_keys _) as [|k ks]; [done|].
  intros Hp. destruct (H k p Hp) as [-> _]. eauto.
Qed.

Lemma wpi_Leave_mem g send c : mem_inv c -> wpi (Leave env g send) mem_inv c.
Proof.
  intros H. unfold Leave. wstep idtac. wstep idtac; [by wsteps ltac:(done)|].
  bool_prop. wsteps ltac:(done).
  all: apply wpi_bind_index_on; [done|]; intros p Hp.
  all: pose proof (mem_inv_delete g c H) as Hd; wsteps ltac:(done).
  all: destruct (begin_player _) as [q|] eqn:Hb; [|by apply wpi_SetOwner_none].
  all: apply (wpi_weaken _ (mem_on (pi_player q))); [by intros ? []|apply wpi_SetOwner_on].
  all: split; [done|by apply begin_player_on].
Qed.

(** Packets that fit are built, so what follows them runs. *)
Lemma wpi_bind_make {B} t rest bs (k : WorldPacket -> CH B) P c :
  short c -> builds rest bs -> Z.of_nat (length bs) <= 8000000 ->
  (forall p, wpi (k p) P c) ->
  wpi (st_bind (make (fun c => MakeNotifyPacket t c ;;; rest)) k) P c.
Proof.
  intros Hs Hb Hl Hk log.
  rewrite (st_bind_ok _ _ _ _ _ (make_notify t (fun _ => rest) bs c log Hs Hb Hl)). apply Hk.
Qed.

Lemma wpi_bind_SendToAll {B} data g (k : unit -> CH B) P c :
  wpi (k tt) P c -> wpi (st_bind (SendToAll_from env data g) k) P c.
Proof.
  intros Hk log. rewrite (st_bind_ok _ _ _ _ _ (SendToAll_from_spec env data g c log)). apply Hk.
Qed.

Lemma wpi_bind_make_pair {B} t a b (k : WorldPacket -> CH B) P c :
  short c -> (forall p, wpi (k p) P c) ->
  wpi (st_bind (make (fun c => MakeNotifyPacket t c ;;; pk_guid a ;;; pk_guid b)) k) P c.
Proof.
  intros Hs Hk. apply (wpi_bind_make _ _ (le_bytes 8 a ++ le_bytes 8 b)); [done| | |done].
  - apply builds_seq; auto with packets.
  - by rewrite length_app, !length_le_bytes.
Qed.

(** A requester other than the target stays on when the target is removed. *)
Lemma wpi_removed g tg changeowner c :
  mem_inv (set_players (delete tg (m_players c)) c) -> IsOn g c = true -> tg <> g ->
  wpi (ch_mod (fun c => set_players (delete tg (m_players c)) c) ;;;
       emit (EvLeftChannel tg) ;;;
       if changeowner : bool then
         let! none := ch_get (fun c => bool_decide (m_players c = ∅)) in
         SetOwner env (if none : bool then 0 else g) true
       else st_ret tt) mem_inv c.
Proof.
  intros H Hon Hne. wsteps ltac:(done). case_bool_decide; [by apply wpi_SetOwner_none|].
  apply (wpi_weaken _ (mem_on g)); [by intros ? []|]. apply wpi_SetOwner_on. split; [done|].
  cbn. rewrite lookup_delete_ne by done. by eapply bool_decide_eq_true_1.
Qed.

Lemma mem_inv_ban tg c :
  mem_inv c -> mem_inv (set_players (delete tg (m_players c)) (set_banned ({[tg]} ∪ m_banned c) c)).
Proof.
  intros [Hs H]. split; [done|]. intros k p Hp. cbn in *.
  apply lookup_delete_Some in Hp as [Hne Hp]. destruct (H k p Hp).
  by rewrite not_elem_of_union, not_elem_of_singleton.
Qed.

Lemma wpi_KickOrBan_mem g t ban c :
  (forall tg, ObjectMgr_GetPlayer env t = Some tg -> ap_guid tg <> g) ->
  mem_inv c -> wpi (KickOrBan env g t ban) mem_inv c.
Proof.
  intros Hself H. unfold KickOrBan. apply wpi_with_moderator; [done|]. intros sec p Hon _ _ _.
  wstep idtac; [|by wsteps ltac:(done)]. cbv zeta. wstep idtac.
  wstep idtac; [by wsteps ltac:(done)|]. wstep idtac. wstep idtac; [by wsteps ltac:(done)|].
  assert (ap_guid a <> g) as Hne by (by apply Hself). do 2 wstep idtac.
  - do 3 wstep idtac. apply wpi_bind_make_pair; [apply H|]. intros data.
    apply wpi_bind_SendToAll, wpi_removed; [exact (mem_inv_ban _ _ H)|done|done].
  - wstep idtac. apply wpi_bind_make_pair; [apply H|]. intros data.
    apply wpi_bind_SendToAll, wpi_removed; [by apply mem_inv_delete|done|done].
Qed.

Lemma wpi_SetMode_mem g t m set c : mem_inv c -> wpi (SetMode env g t m set) mem_inv c.
Proof.
  intros H. unfold SetMode. wstep idtac. wstep idtac; [|by wsteps ltac:(done)].
  apply wpi_with_moderator; [done|]. intros sec p _ _ _ _.
  wsteps ltac:(done); bool_prop; by apply wpi_member_mode_mem.
Qed.

Lemma wpi_SetOwner_cmd_mem g t c : mem_inv c -> wpi (SetOwner_cmd env g t) mem_inv c.
Proof.
  intros H. unfold SetOwner_cmd. wsteps ltac:(done). bool_prop.
  match goal with Hon : IsOn (ap_guid ?a) c = true |- _ =>
    apply (wpi_weaken _ (mem_on (ap_guid a))); [by intros ? []|];
    apply wpi_SetOwner_on, mem_on_update; [split; [done|]| |done];
    by eapply bool_decide_eq_true_1 end.
Qed.

(** No command has its author kick or ban himself. *)
Definition not_self (cmd : command) : Prop :=
  match cmd with
  | CKickOrBan g t _ => forall tg, ObjectMgr_GetPlayer env t = Some tg -> ap_guid tg <> g
  | _ => True
  end.

Lemma run_mem cmd c : not_self cmd -> mem_inv c -> wpi (run env cmd) mem_inv c.
Proof.
  intros Hn H. destruct cmd; cbn [run]; auto using wpi_Join_mem, wpi_Leave_mem,
    wpi_KickOrBan_mem, wpi_SetMode_mem, wpi_SetOwner_cmd_mem, wpi_SendWhoOwner, wpi_List,
    wpi_Say, wpi_AsyncSay, wpi_Invite.
  2-4: apply wpi_with_moderator; [done|]; intros sec p _ _ _ _; wsteps ltac:(done).
  - apply wpi_with_moderator; [done|]; intros sec p _ _ _ _. destruct H as [Hs H].
    wsteps ltac:(first [done | split; [done|]; intros k q Hq; cbn in *; destruct (H k q Hq);
      split; [done|]; by rewrite elem_of_difference; intros []]).
  - apply wpi_mod. by destruct password, announce, sec.
Qed.
End bans.

(** As long as nobody kicks or bans himself, a banned player is never on
    the channel, whatever else happens; and every entry of the member table
    names the member it is filed under. *)
Theorem banned_excluded env0 name team c g p :
  Z.of_nat (String.length (m_name (Channel_new env0 name team))) <= 1000000 ->
  rtc (chan_step not_self) (Channel_new env0 name team) c ->
  m_players c !! g = Some p -> pi_player p = g /\ IsBanned g c = false.
Proof.
  intros Hs Hr Hp. apply (invariant_reachable _ mem_inv _ _ run_mem) in Hr as [_ H].
  - destruct (H g p Hp). split; [done|]. by apply bool_decide_eq_false_2.
  - split; [done|]. intros k q Hq. unfold Channel_new in Hq.
    repeat (case_match; simpl in *; simplify_eq); done.
Qed.

(** ** A concrete world

    Players 1 to 9 are online, named "A" to "I"; player 9 is a game master. *)

Module Demo.
Definition session (g : Z) : Session := mkSession (if g =? 9 then 3 else 0) false 0 60.
Definition player (g : Z) (name : string) : AbstractPlayer :=
  mkPlayer g name (session g) 469 0 1 0 0 (fun _ => false) (fun _ => true) true.
Definition names : list string := ["A"; "B"; "C"; "D"; "E"; "F"; "G"; "H"; "I"]%string.
Definition find (g : Z) : option AbstractPlayer :=
  if 0 <? g then player g <$> names !! Z.to_nat (g - 1) else None.
Definition find_name (n : string) : option AbstractPlayer :=
  (fun '(i, _) => player (Z.of_nat i + 1) n) <$> list_find (fun m => m = n) names.
Definition env : ChannelEnv :=
  mkEnv find find_name find find_name find find_name (fun _ => None) (fun _ => None)
    Some (fun _ => 0) false false 0 0.

Definition history (cmds : list command) : Channel :=
  foldl (fun c cmd => (run env cmd (c, [])).2.1) (Channel_new env "Alpha" 469) cmds.

Lemma history_reachable allowed cmds c :
  Forall (allowed env) cmds ->
  rtc (chan_step allowed) c (foldl (fun c cmd => (run env cmd (c, [])).2.1) c cmds).
Proof.
  intros H. revert c. induction H as [|cmd cmds Hc _ IH]; intros c; simpl; [apply rtc_refl|].
  eapply rtc_l; [|apply IH]. by constructor.
Qed.

(** Three players join; the first of them owns the channel. *)
Definition three : Channel := history [CJoin 1 "" true; CJoin 2 "" true; CJoin 3 "" true].
(** The owner makes the second of them a moderator. *)
Definition moderated : Channel :=
  history [CJoin 1 "" true; CJoin 2 "" true; CJoin 3 "" true; CSetMode 1 "B" true true].
End Demo.

Lemma owner_unique_witness :
  1 = 1 /\ 1 = m_ownerGuid Demo.three /\ 1 <> 0.
Proof.
  apply (owner_unique Demo.env "Alpha" 469 Demo.three 1 1 (mkPI 1 3) (mkPI 1 3)).
  - by apply Demo.history_reachable; repeat constructor.
  - by vm_compute.
  - by vm_compute.
  - by vm_compute.
  - by vm_compute.
Defined.

Lemma banned_excluded_witness :
  pi_player (mkPI 3 0) = 3 /\
  IsBanned 3 (Demo.history [CJoin 1 "" true; CJoin 2 "" true; CJoin 3 "" true; CKickOrBan 1 "B" true]) = false.
Proof.
  apply (banned_excluded Demo.env "Alpha" 469); [vm_compute; discriminate| |by vm_compute].
  apply Demo.history_reachable. repeat constructor. by intros tg [= <-].
Defined.
