(* ===== verification/ChannelRules.v ===== *)
(** * ChannelRules: permissions, admission and delivery

    What a single command of [src/game/Chat/Channel.cpp] may do, depending on
    who gives it: refusals reach only their author, the owner is out of reach
    of other moderators, who may join, who hears a message, what the member
    list says. *)

From stdpp Require Import relations.
From S2P Require Import Prelude ByteBuffer Codec ObjectGuid Packets Channel ChannelLogic ChannelProps.

Local Open Scope prog_scope.

(** ** Refusals *)

(** A packet sent to the player [to]. *)
Definition sent_to (to : Z) (e : event) : Prop :=
  match e with EvSend who _ => who = to | _ => False end.

(** [m] leaves the channel alone and sends nothing but packets to the player
    the channel finds for [g]. *)
Definition refusal {A} (env : ChannelEnv) (g : Z) (m : CH A) (c : Channel) : Prop :=
  forall log, exists evs,
    (m (c, log)).2 = (c, log ++ evs) /\
    Forall (fun e => match GetPlayer env g c with Some pl => sent_to (ap_guid pl) e | None => False end) evs.

Section refusals.
Context (env : ChannelEnv).

Lemma refusal_refuse f g c : refusal env g (refuse env f g) c.
Proof.
  intros log. unfold refuse, st_bind at 1, make. simpl.
  destruct (f c WorldPacket_empty) as [[]];
    try (exists []; rewrite app_nil_r; by split; [|constructor]).
  rewrite SendToOne_spec. eexists; split; [done|].
  destruct (GetPlayer env g c); repeat constructor.
Qed.

Lemma refusal_ret {A} g (a : A) c : refusal env g (st_ret a) c.
Proof. intros log. exists []. by rewrite app_nil_r. Qed.

Lemma refusal_bind_get {A B} g (f : Channel -> A) (k : A -> CH B) c :
  refusal env g (k (f c)) c -> refusal env g (st_bind (ch_get f) k) c.
Proof. intros H log. apply H. Qed.

(** The author is on the channel and a moderator, or a game master. *)
Definition privileged (g : Z) (c : Channel) : bool :=
  match m_players c !! g with
  | Some p => IsModerator p || negb (security_of (GetPlayer env g c) <? SEC_OBSERVER)
  | None => false
  end.

Lemma refusal_with_moderator g k c :
  privileged g c = false -> refusal env g (with_moderator env g k) c.
Proof.
  intros Hp. unfold with_moderator. apply refusal_bind_get. cbv zeta. apply refusal_bind_get.
  unfold privileged in Hp. unfold IsOn. destruct (m_players c !! g) as [p|] eqn:E.
  - rewrite bool_decide_eq_true_2 by eauto. simpl. intros log.
    unfold st_bind, index_player. simpl. rewrite E. apply orb_false_iff in Hp as [Hm Hs].
    apply negb_false_iff in Hs. rewrite Hm, Hs. apply refusal_refuse.
  - rewrite bool_decide_eq_false_2 by (intros []; congruence). apply refusal_refuse.
Qed.
End refusals.

(** The commands reserved to moderators, and their author. *)
Definition moderation (cmd : command) : option Z :=
  match cmd with
  | CKickOrBan g _ _ | CUnBan g _ | CPassword g _ | CSetMode g _ _ _ | CAnnounce g | CModerate g =>
      Some g
  | _ => None
  end.

(** A moderation command (kick, ban, unban, password, mode, announce,
    moderate) from somebody who is not on the channel, or who is neither a
    moderator of it nor a game master, changes nothing: the channel is left as
    it was and at most its author is sent a packet. *)
Theorem unprivileged_refused env cmd g c :
  moderation cmd = Some g -> privileged env g c = false -> refusal env g (run env cmd) c.
Proof.
  intros Hc Hp. destruct cmd; simplify_eq/=; try by apply refusal_with_moderator.
  apply refusal_bind_get. destruct (GetPlayer env g c); [|apply refusal_ret].
  by apply refusal_with_moderator.
Qed.

Lemma unprivileged_refused_witness :
  refusal Demo.env 2 (run Demo.env (CKickOrBan 2 "A" true)) Demo.three.
Proof. apply unprivileged_refused; [done|]. by vm_compute. Defined.

(** ** The owner is out of reach *)

Definition author (cmd : command) : option Z :=
  match cmd with
  | CJoin g _ _ | CLeave g _ | CKickOrBan g _ _ | CUnBan g _ | CPassword g _ | CSetMode g _ _ _
  | CSetOwner g _ | CWhoOwner g | CAnnounce g | CModerate g | CSay g _ _ _ | CAsyncSay g _ _ _
  | CInvite g _ => Some g
  | CList p => Some (ap_guid p)
  | CServerSet _ _ _ => None
  end.

Section protection.
Context (env : ChannelEnv) (o : Z) (p : PlayerInfo) (c0 : Channel).

(** The owner [o] still owns the channel, his entry is [p], and he has not
    been banned since [c0]. *)
Definition keeps (c : Channel) : Prop :=
  m_players c !! o = Some p /\ m_ownerGuid c = o /\ (o ∈ m_banned c -> o ∈ m_banned c0).

Lemma keeps_insert k q c :
  k <> o -> keeps c -> keeps (set_players (<[k := q]> (m_players c)) c).
Proof. intros Hk [H1 H2]. split; [|done]. cbn. by rewrite lookup_insert_ne. Qed.

Lemma keeps_delete k c : k <> o -> keeps c -> keeps (set_players (delete k (m_players c)) c).
Proof. intros Hk [H1 H2]. split; [|done]. cbn. by rewrite lookup_delete_ne. Qed.

Lemma keeps_ban k c :
  k <> o -> keeps c -> keeps (set_banned ({[k]} ∪ m_banned c) c).
Proof.
  intros Hk (H1 & H2 & H3). split_and!; [done..|]. cbn.
  rewrite elem_of_union, elem_of_singleton. intros [?|?]; [by subst|auto].
Qed.

Lemma keeps_unban k c : keeps c -> keeps (set_banned (m_banned c ∖ {[k]}) c).
Proof.
  intros (H1 & H2 & H3). split_and!; [done..|]. cbn. rewrite elem_of_difference. tauto.
Qed.

Ltac kept := first [done | by apply keeps_insert | by apply keeps_delete | by apply keeps_ban
                   | by apply keeps_unban].

Lemma wpi_Join_keeps g pw check c :
  g <> o -> o <> 0 -> keeps c -> wpi (Join env g pw check) keeps c.
Proof.
  intros Hg Ho H. unfold Join. wsteps ltac:(kept).
  all: match goal with Hown : _ = true |- wpi (st_bind (SetOwner _ _ _) _) _ _ =>
    bool_prop; destruct H as (_ & H & _); cbn in *; congruence end.
Qed.

Lemma wpi_Leave_keeps g send c :
  g <> o -> owner_inv c -> keeps c -> wpi (Leave env g send) keeps c.
Proof.
  intros Hg Hi H. unfold Leave. wstep idtac. wstep idtac; [by wsteps ltac:(done)|].
  bool_prop. wsteps ltac:(kept).
  all: apply wpi_bind_index_on; [done|]; intros q Hq.
  all: destruct (IsOwner q) eqn:Ho; [destruct (Hi g q Hq Ho), H as (_ & ? & _); congruence|].
  all: wsteps ltac:(kept).
Qed.

Lemma wpi_KickOrBan_keeps g t ban c :
  g <> o -> security_of (GetPlayer env g c) < SEC_OBSERVER ->
  keeps c -> wpi (KickOrBan env g t ban) keeps c.
Proof.
  intros Hg Hs H. unfold KickOrBan. apply wpi_with_moderator; [done|]. intros sec q _ _ _ ->.
  pose proof H as (_ & Hown & _). apply Z.ltb_lt in Hs. apply Z.eqb_neq in Hg.
  wstep idtac; [|by wsteps ltac:(done)]. cbv zeta. wstep idtac.
  wstep idtac; [by wsteps ltac:(done)|]. wstep idtac. rewrite Hs, Hown, Hg.
  destruct (Z.eqb_spec o (ap_guid a)) as [|Hne]; [by wsteps ltac:(done)|]. simpl andb.
  assert (ap_guid a <> o) by congruence.
  assert (keeps (set_banned ({[ap_guid a]} ∪ m_banned c) c)) by kept.
  wsteps ltac:(kept).
Qed.

Lemma wpi_member_mode_keeps test upd g set c :
  g <> o -> keeps c -> wpi (set_member_mode env test upd g set) keeps c.
Proof.
  intros Hg H. unfold set_member_mode. apply wpi_bind_index.
  destruct (m_players c !! g) eqn:E; [by wsteps ltac:(kept)|].
  pose proof (keeps_insert g PlayerInfo_default c Hg H). wsteps ltac:(kept).
Qed.

Lemma wpi_SetMode_keeps g t m set c :
  g <> o -> keeps c -> wpi (SetMode env g t m set) keeps c.
Proof.
  intros Hg H. unfold SetMode. wstep idtac. wstep idtac; [|by wsteps ltac:(done)].
  apply wpi_with_moderator; [done|]. intros sec q _ _ _ _. pose proof H as (_ & Hown & _).
  wsteps ltac:(done); rewrite Hown in *.
  all: apply wpi_member_mode_keeps; [|done]; intros <-.
  all: apply Z.eqb_neq in Hg; rewrite Z.eqb_refl in *.
  all: rewrite (Z.eqb_sym _ g), Hg in *; discriminate.
Qed.

Lemma wpi_SetOwner_cmd_keeps g t c :
  g <> o -> security_of (GetPlayer env g c) < SEC_OBSERVER ->
  keeps c -> wpi (SetOwner_cmd env g t) keeps c.
Proof.
  intros Hg Hs H. unfold SetOwner_cmd. wstep idtac. wstep idtac; [|by wsteps ltac:(done)].
  cbv zeta. wstep idtac. wstep idtac; [by wsteps ltac:(done)|]. wstep idtac.
  pose proof H as (_ & Hown & _). rewrite Hown. apply Z.ltb_lt in Hs. apply Z.eqb_neq in Hg.
  simpl in Hs. rewrite Hs, Hg. by wsteps ltac:(done).
Qed.

Lemma run_keeps cmd g c :
  author cmd = Some g -> g <> o -> o <> 0 -> security_of (GetPlayer env g c) < SEC_OBSERVER ->
  owner_inv c -> keeps c -> wpi (run env cmd) keeps c.
Proof.
  intros Ha Hg Ho Hs Hi H. destruct cmd; simplify_eq/=; auto using wpi_Join_keeps, wpi_Leave_keeps,
    wpi_KickOrBan_keeps, wpi_SetMode_keeps, wpi_SetOwner_cmd_keeps, wpi_SendWhoOwner, wpi_List,
    wpi_Say, wpi_AsyncSay, wpi_Invite.
  all: apply wpi_with_moderator; [done|]; intros sec q _ _ _ _; wsteps ltac:(kept).
Qed.
End protection.

(** C14. In every reachable channel, no command of an ordinary player other
    than the owner (moderator or not) takes the channel from its owner, changes
    the owner's flags, removes him or bans him. *)
Theorem owner_protected env0 name team c env cmd g p log :
  rtc (chan_step (fun _ _ => True)) (Channel_new env0 name team) c ->
  author cmd = Some g -> security_of (GetPlayer env g c) < SEC_OBSERVER -> g <> m_ownerGuid c ->
  m_players c !! m_ownerGuid c = Some p -> m_ownerGuid c <> 0 ->
  let c' := (run env cmd (c, log)).2.1 in
  m_players c' !! m_ownerGuid c = Some p /\ m_ownerGuid c' = m_ownerGuid c /\
  (IsBanned (m_ownerGuid c) c' = true -> IsBanned (m_ownerGuid c) c = true).
Proof.
  intros Hr Ha Hs Hg Hp Ho. pose proof (reachable_owner env0 name team c Hr) as Hi.
  destruct (run_keeps env (m_ownerGuid c) p c cmd g c Ha Hg Ho Hs Hi ltac:(done) log) as (H1 & H2 & H3).
  split_and!; [done..|]. unfold IsBanned. rewrite !bool_decide_eq_true. exact H3.
Qed.

(** A moderator tries to ban the owner. *)
Lemma owner_protected_witness :
  GetPlayerFlags 2 Demo.moderated = MEMBER_FLAG_MODERATOR /\
  let c' := (run Demo.env (CKickOrBan 2 "A" true) (Demo.moderated, [])).2.1 in
  m_players c' !! 1 = Some (mkPI 1 3) /\ m_ownerGuid c' = 1 /\
  (IsBanned 1 c' = true -> IsBanned 1 Demo.moderated = true).
Proof.
  split; [by vm_compute|].
  apply (owner_protected Demo.env "Alpha" 469 Demo.moderated Demo.env (CKickOrBan 2 "A" true) 2 (mkPI 1 3) []).
  - by apply Demo.history_reachable; repeat constructor.
  - done.
  - by vm_compute.
  - by vm_compute.
  - by vm_compute.
  - by vm_compute.
Defined.

(** ** Admission *)

Section admission.
Context (env : ChannelEnv).

(** What [Join] asks of a player who is not on the channel yet. *)
Definition admitted (g : Z) (pw : string) (check : bool) (c : Channel) : bool :=
  negb (IsBanned g c)
  && (negb check || bool_decide (m_password c = ""%string) || bool_decide (pw = m_password c))
  && match GetPlayer env g c with
     | Some pl => negb (truth (m_securityLevel c) && (GetSecurity (ap_session pl) <? m_securityLevel c))
                  && negb (ap_is_player pl && truth (ap_guildId pl) && (m_flags c =? 0x38))
     | None => negb (truth (m_securityLevel c))
     end.

Definition vacant (c : Channel) : bool :=
  HasFlag CHANNEL_FLAG_CUSTOM c && negb (IsConstant c) && (m_ownerGuid c =? 0).
Definition appointable (g : Z) (c : Channel) : bool :=
  truth g &&
  match GetPlayer env g c with
  | Some pl => negb (HasFlag CHANNEL_FLAG_GENERAL c && (GetSecurity (ap_session pl) <? SEC_OBSERVER))
  | None => false
  end.

Definition entered (g : Z) (c : Channel) : Channel :=
  set_players (<[g := mkPI g MEMBER_FLAG_NONE]> (m_players c)) c.
Definition joined (g : Z) (c : Channel) : Channel :=
  if vacant c then
    let c1 := owner_set env g (entered g c) in
    set_players (<[g := PI_SetModerator true (default PlayerInfo_default (m_players c1 !! g))]>
      (m_players c1)) c1
  else entered g c.

Lemma yields_refuse0 t g c : short c -> yields (refuse env (MakeNotifyPacket t) g) c tt c.
Proof.
  intros Hs. unfold refuse. apply yields_make_notify0; [done|]. intros. apply yields_SendToOne.
Qed.

Lemma short_owner_set g c : short c -> short (owner_set env g c).
Proof. intros Hs. unfold owner_set. by repeat case_match. Qed.

Lemma yields_enter g announced c :
  short c ->
  yields ((let! ann := ch_get (announces env announced) in
           if ann then let! data := make (MakeJoined g) in SendToAll env data else st_ret tt) ;;;
          ch_mod (fun c => set_players (<[g := mkPI g MEMBER_FLAG_NONE]> (m_players c)) c) ;;;
          (let! data := make MakeYouJoined in SendToOne env data g) ;;;
          let! own := ch_get vacant in
          if own then
            let! n := ch_get (fun c => base.size (m_players c)) in
            SetOwner env g (bool_decide (1 < n)%nat) ;;;
            update_player g (PI_SetModerator true)
          else st_ret tt) c tt (joined g c).
Proof.
  intros Hs. apply (yields_bind _ _ _ tt c).
  - apply yields_bind_get. destruct (announces env announced c); [|apply yields_ret].
    apply yields_make_guid; [done|]. intros. apply yields_SendToAll.
  - apply yields_bind_mod. apply (yields_bind _ _ _ tt (entered g c)).
    + apply yields_make_joined; [done|]. intros. apply yields_SendToOne.
    + apply yields_bind_get. unfold joined. change (vacant (entered g c)) with (vacant c).
      destruct (vacant c); [|apply yields_ret]. apply yields_bind_get.
      eapply yields_bind; [by apply yields_SetOwner|]. apply yields_update.
Qed.

Lemma yields_Join g pw check c :
  short c -> IsOn g c = false ->
  yields (Join env g pw check) c tt (if admitted g pw check c then joined g c else c).
Proof.
  intros Hs Hon. unfold Join, admitted. apply yields_bind_get. rewrite Hon. apply yields_bind_get.
  destruct (IsBanned g c); [by apply yields_refuse0|]. apply yields_bind_get.
  destruct check, (bool_decide (m_password c = "")), (bool_decide (pw = m_password c)); simpl;
    try by apply yields_refuse0.
  all: do 2 apply yields_bind_get; destruct (GetPlayer env g c) as [pl|];
    destruct (truth (m_securityLevel c)); simpl; try by apply yields_refuse0.
  all: try (destruct (GetSecurity _ <? _); simpl; [by apply yields_refuse0|]).
  all: apply yields_bind_get.
  all: try (destruct (ap_is_player pl && truth (ap_guildId pl) && (m_flags c =? 56)) eqn:Hg;
    rewrite ?Hg; simpl; [apply yields_ret|]).
  all: eapply yields_bind; [|by apply yields_enter].
  all: try destruct (ap_is_player pl); first [apply yields_ret|apply yields_emit].
Qed.
End admission.

Lemma demoted_vacant c : m_ownerGuid c = 0 -> demoted c = m_players c.
Proof. intros H. unfold demoted. rewrite H. by case_match. Qed.

Lemma joined_spec env g c :
  let c' := joined env g c in
  (forall k, k <> g -> m_players c' !! k = m_players c !! k) /\
  m_players c' !! g = Some (mkPI g (if vacant c then if appointable env g c then 3 else 2 else 0)) /\
  m_ownerGuid c' = (if vacant c && appointable env g c then g else m_ownerGuid c) /\
  m_banned c' = m_banned c.
Proof.
  unfold joined. destruct (vacant c) eqn:Hv; cbn zeta.
  - unfold vacant in Hv. bool_prop. unfold owner_set, appointable. rewrite demoted_vacant by done.
    change (GetPlayer env g (entered g c)) with (GetPlayer env g c).
    change (HasFlag CHANNEL_FLAG_GENERAL (entered g c)) with (HasFlag CHANNEL_FLAG_GENERAL c).
    destruct (GetPlayer env g c); [|rewrite andb_false_r; cbn].
    + destruct (HasFlag CHANNEL_FLAG_GENERAL c && _); [rewrite andb_false_r|rewrite andb_true_r];
        [|destruct (truth g) eqn:Hg]; cbn; rewrite ?lookup_insert_eq; split_and!; try done.
      all: try (intros k Hk; by rewrite !lookup_insert_ne).
      unfold truth in Hg. bool_prop. congruence.
    + rewrite ?lookup_insert_eq. split_and!; try done. intros k Hk. by rewrite !lookup_insert_ne.
  - cbn. rewrite lookup_insert_eq. split_and!; try done. intros k Hk. by rewrite lookup_insert_ne.
Qed.

(** C32. [Join] by a player not on the channel always returns.  A player who
    is banned, lacks the password or the security level (or is a guild member
    at the guild recruitment channel) leaves it unchanged.  Anybody else is on
    it afterwards, with no other member's entry and no ban touched; in an
    unowned custom channel he becomes its moderator and, unless nobody may own
    it, its owner. *)
Theorem join_outcome env g pw check c log :
  short c -> IsOn g c = false ->
  exists c' evs, Join env g pw check (c, log) = (Ok tt, (c', log ++ evs)) /\
    if admitted env g pw check c then
      (forall k, k <> g -> m_players c' !! k = m_players c !! k) /\
      m_players c' !! g = Some (mkPI g (if vacant c then if appointable env g c then 3 else 2 else 0)) /\
      m_ownerGuid c' = (if vacant c && appointable env g c then g else m_ownerGuid c) /\
      m_banned c' = m_banned c
    else c' = c.
Proof.
  intros Hs Hon. destruct (yields_Join env g pw check c Hs Hon log) as [evs H].
  do 2 eexists. split; [apply H|]. destruct (admitted env g pw check c); [|done]. apply joined_spec.
Qed.

Lemma join_outcome_witness :
  exists c' evs, Join Demo.env 4 "" true (Demo.three, []) = (Ok tt, (c', [] ++ evs)) /\
    if admitted Demo.env 4 "" true Demo.three then
      (forall k, k <> 4 -> m_players c' !! k = m_players Demo.three !! k) /\
      m_players c' !! 4 = Some (mkPI 4 (if vacant Demo.three then
        if appointable Demo.env 4 Demo.three then 3 else 2 else 0)) /\
      m_ownerGuid c' = (if vacant Demo.three && appointable Demo.env 4 Demo.three then 4
        else m_ownerGuid Demo.three) /\
      m_banned c' = m_banned Demo.three
    else c' = Demo.three.
Proof. apply join_outcome; [vm_compute; discriminate|by vm_compute]. Defined.

(** ** An owner who bans himself *)

(** An owner of a custom channel who bans himself while others are on it
    is back on the channel when [Ban] returns: [SetOwner] re-creates his entry
    through [m_players[guid]].  He is then a member, the owner, and banned. *)
Theorem self_ban_readmits env g t tg pl p k c log :
  short c -> g <> 0 -> m_ownerGuid c = g -> m_players c !! g = Some p -> IsModerator p = true ->
  k <> g -> IsOn k c = true -> HasFlag CHANNEL_FLAG_GENERAL c = false ->
  IsBanned g c = false -> GetPlayer env g c = Some pl ->
  ObjectMgr_GetPlayer env t = Some tg -> ap_guid tg = g ->
  exists c' evs, Ban env g t (c, log) = (Ok tt, (c', log ++ evs)) /\
    IsOn g c' = true /\ IsBanned g c' = true /\ m_ownerGuid c' = g.
Proof.
  intros Hs Hg Ho Hp Hm Hk Hkon Hgen Hb Hpl Ht Htg.
  assert (IsOn g c = true) as Hon by (apply bool_decide_eq_true_2; eauto).
  set (c2 := set_players (delete g (m_players c)) (set_banned ({[g]} ∪ m_banned c) c)).
  assert (yields (Ban env g t) c tt (owner_set env g c2)) as Hy.
  { unfold Ban, KickOrBan, with_moderator. apply yields_bind_get. cbv zeta. apply yields_bind_get.
    rewrite Hon. simpl. eapply yields_bind; [by apply yields_index|]. rewrite Hm. simpl.
    rewrite Ht. apply yields_bind_get. rewrite Htg, Hon. simpl. apply yields_bind_get.
    rewrite Ho, Z.eqb_refl, !andb_false_r. apply yields_bind_get. rewrite Hb. simpl.
    apply (yields_bind _ _ _ tt (set_banned ({[g]} ∪ m_banned c) c)).
    - apply yields_bind_mod, yields_make_guids; [done|]. intros. apply yields_SendToAll.
    - apply yields_bind_mod. eapply yields_bind; [apply yields_emit|]. apply yields_bind_get.
      rewrite bool_decide_eq_false_2; [by apply yields_SetOwner|].
      apply bool_decide_eq_true_1 in Hkon as [q Hq]. intros He.
      assert (delete g (m_players c) !! k = None) as Hn by (cbn in He; rewrite He; apply lookup_empty).
      by rewrite lookup_delete_ne, Hq in Hn. }
  destruct (Hy log) as [evs He]. do 2 eexists. split; [exact He|]. unfold owner_set.
  change (GetPlayer env g c2) with (GetPlayer env g c). rewrite Hpl.
  change (HasFlag CHANNEL_FLAG_GENERAL c2) with (HasFlag CHANNEL_FLAG_GENERAL c). rewrite Hgen. simpl.
  assert (truth g = true) as -> by (unfold truth; by apply negb_true_iff, Z.eqb_neq).
  split_and!; [|apply bool_decide_eq_true_2; cbn; set_solver|done].
  apply bool_decide_eq_true_2. cbn. by rewrite lookup_insert_eq.
Qed.

Lemma self_ban_readmits_witness :
  exists c' evs, Ban Demo.env 1 "A" (Demo.three, []) = (Ok tt, (c', [] ++ evs)) /\
    IsOn 1 c' = true /\ IsBanned 1 c' = true /\ m_ownerGuid c' = 1.
Proof.
  apply (self_ban_readmits Demo.env 1 "A" (Demo.player 1 "A") (Demo.player 1 "A") (mkPI 1 3) 2);
    solve [vm_compute; discriminate | by vm_compute].
Defined.

(** ** Who hears a message *)

Section speaking.
Context (env : ChannelEnv).

(** The notice a member who may not speak gets. *)
Definition silenced (pl : AbstractPlayer) (p : PlayerInfo) (c : Channel) : option Z :=
  if IsMuted p || ((m_channelId c =? CHANNEL_ID_WORLD_DEFENSE) && (ap_honorRank pl <? 15))
  then Some CHAT_MUTED_NOTICE
  else if m_moderate c && negb (IsModerator p) && (GetSecurity (ap_session pl) <? SEC_OBSERVER)
  then Some CHAT_NOT_MODERATOR_NOTICE
  else None.

Definition spoken_language (pl : AbstractPlayer) (lang : Z) (c : Channel) : Z :=
  if IsDefenseChannel (m_channelId c) then baseLanguage env (ap_race pl)
  else if CONFIG_ALLOW_TWO_SIDE_INTERACTION_CHANNEL env then LANG_UNIVERSAL else lang.

(** Who receives the message of the member [p]. *)
Definition audience (g : Z) (pl : AbstractPlayer) (p : PlayerInfo) (c : Channel) : list Z :=
  if echo_only env (ap_session pl) then [ap_guid pl]
  else recipients env (if IsModerator p then 0 else g) c.

Lemma CheckSay_member g pl p c log :
  m_players c !! g = Some p -> GetPlayer env g c = Some pl -> ap_is_player pl = true ->
  CheckSay env g false (c, log) =
    (Ok (match silenced pl p c with
         | None => SAY_OK
         | Some t => if t =? CHAT_MUTED_NOTICE then SAY_MUTED else SAY_NOT_MODERATOR
         end), (c, log)).
Proof.
  intros Hp Hpl His. unfold CheckSay, st_bind, ch_get, st_get, honor_rank, index_player. simpl.
  unfold IsOn. rewrite bool_decide_eq_true_2 by eauto. simpl. rewrite Hpl, His. simpl.
  rewrite Hp. unfold silenced, security_of. destruct (IsMuted p || _); [done|].
  by destruct (_ && _ && _).
Qed.

Lemma refuse_notify t g pl c log :
  short c -> GetPlayer env g c = Some pl ->
  refuse env (MakeNotifyPacket t) g (c, log) =
    (Ok tt, (c, log ++ [EvSend (ap_guid pl) (packet SMSG_CHANNEL_NOTIFY
                                              (u8 t :: bytes_of_string (m_name c) ++ [0]))])).
Proof.
  intros Hs Hpl. unfold refuse. rewrite (st_bind_ok _ _ _ _ _ (make_notify0 t c log Hs)).
  by rewrite SendToOne_spec, Hpl.
Qed.
End speaking.

(** C33. A member's message leaves the channel unchanged.  A member who is
    muted, ranks too low for the world defense channel, or is no moderator of
    a moderated channel gets a notice and nobody hears him.  A sender who may
    only hear himself gets his own message back.  Everybody else's message
    goes, as one and the same packet, to exactly the online members who do not
    ignore him, moderators overriding ignore lists. *)
Theorem say_delivery env g pl p txt lang c log :
  short c -> Z.of_nat (String.length txt) <= 1000000 ->
  m_players c !! g = Some p -> GetPlayer env g c = Some pl -> ap_is_player pl = true ->
  Say env g (Some txt) lang false (c, log) =
    (Ok tt, (c, log ++
      match silenced pl p c with
      | Some t => [EvSend (ap_guid pl)
                     (packet SMSG_CHANNEL_NOTIFY (u8 t :: bytes_of_string (m_name c) ++ [0]))]
      | None =>
          (fun to => EvSend to (packet SMSG_MESSAGECHAT
             (channel_message txt (spoken_language env pl lang c) (ap_chatTag pl) g
                (ap_honorRank pl) (m_name c)))) <$> audience env g pl p c
      end)).
Proof.
  intros Hs Ht Hp Hpl His. unfold Say. unfold st_bind at 1, ch_get at 1, st_get at 1. simpl.
  rewrite Hpl. unfold st_bind at 1, honor_rank at 1. rewrite His. simpl.
  rewrite (st_bind_ok _ _ _ _ _ (CheckSay_member env g pl p c log Hp Hpl His)).
  unfold silenced at 1. unfold silenced.
  destruct (IsMuted p || _); [by rewrite (refuse_notify env CHAT_MUTED_NOTICE g pl)|].
  destruct (_ && _ && _); [by rewrite (refuse_notify env CHAT_NOT_MODERATOR_NOTICE g pl)|].
  fold (spoken_language env pl lang c). unfold st_bind at 1, ch_get at 1, st_get at 1. simpl.
  change (if IsDefenseChannel (m_channelId c) then baseLanguage env (ap_race pl)
          else if CONFIG_ALLOW_TWO_SIDE_INTERACTION_CHANNEL env then LANG_UNIVERSAL else lang)
    with (spoken_language env pl lang c).
  unfold st_bind at 1, make. simpl. rewrite builds_channel_message by done. unfold audience.
  destruct (echo_only env (ap_session pl)); [done|].
  unfold st_bind, index_player. simpl. rewrite Hp, SendToAll_from_spec. by destruct (IsModerator p).
Qed.

Lemma say_delivery_witness :
  Say Demo.env 1 (Some "hi"%string) 7 false (Demo.three, []) =
    (Ok tt, (Demo.three, [] ++
      ((fun to => EvSend to (packet SMSG_MESSAGECHAT (channel_message "hi" 7 0 1 0 "Alpha"))) <$> [1; 2; 3]))).
Proof.
  apply (say_delivery Demo.env 1 (Demo.player 1 "A") (mkPI 1 3) "hi" 7 Demo.three []);
    solve [vm_compute; discriminate | by vm_compute].
Defined.

(** ** The member list *)

Section listing.
Context (env : ChannelEnv) (player : AbstractPlayer).

Definition visible_rows (c : Channel) : list (Z * PlayerInfo) :=
  filter (fun r => list_visible env player r.1 = true) (player_rows c).
Definition row_bytes (r : Z * PlayerInfo) : list Z := le_bytes 8 r.1 ++ [u8 (pi_flags r.2)].
Definition rows_bytes (rows : list (Z * PlayerInfo)) : list Z := concat (row_bytes <$> rows).

Lemma length_rows_bytes rows : length (rows_bytes rows) = (9 * length rows)%nat.
Proof.
  induction rows as [|r rows IH]; [done|].
  change (rows_bytes (r :: rows)) with (row_bytes r ++ rows_bytes rows).
  rewrite length_app, IH. unfold row_bytes. rewrite length_app, length_le_bytes. simpl. lia.
Qed.

(** The loop appends one row per visible member and counts them. *)
Lemma list_rows_spec rows count op xs :
  let shown := filter (fun r => list_visible env player r.1 = true) rows in
  Forall (is_u 8) xs -> 0 <= count ->
  Z.of_nat (length xs + 9 * length shown) <= 10000000 -> count + Z.of_nat (length shown) < 2 ^ 32 ->
  list_rows env player rows count (packet op xs) =
    (Ok (count + Z.of_nat (length shown)), packet op (xs ++ rows_bytes shown)).
Proof.
  cbv zeta. revert count xs. induction rows as [|[k i] rows IH]; intros count xs H8 H0 Hl Hc.
  - simpl. unfold rows_bytes. by rewrite app_nil_r, Z.add_0_r.
  - simpl list_rows. rewrite filter_cons in *. simpl in *.
    destruct (list_visible env player k); simpl in *; [|by apply IH].
    rewrite (st_bind_ok _ _ _ tt (packet op (xs ++ le_bytes 8 k))) by
      (apply builds_guid; rewrite ?length_le_bytes; [lia|done]).
    rewrite (st_bind_ok _ _ _ tt (packet op ((xs ++ le_bytes 8 k) ++ [u8 (pi_flags i)]))) by
      (apply builds_u8; rewrite ?length_app, ?length_le_bytes; cbn [length]; auto with packets; lia).
    rewrite wrap_small by (unfold is_u; lia).
    rewrite IH; [|auto with packets|lia|rewrite !length_app, length_le_bytes; cbn [length]; lia|lia].
    f_equal; [f_equal; lia|]. f_equal. unfold rows_bytes. simpl. unfold row_bytes at 2. simpl.
    by rewrite <- !app_assoc.
Qed.

End listing.

(** The list a member asks for names exactly the members he may see (in
    the order of their guids), each with his flags, and the count patched into
    the packet afterwards is their number. *)
Theorem list_packet env player c :
  short c -> Z.of_nat (length (visible_rows env player c)) <= 500000 ->
  MakeList env player c WorldPacket_empty =
    (Ok tt, packet SMSG_CHANNEL_LIST
      (bytes_of_string (m_name c) ++ [0] ++ [u8 (m_flags c)] ++
       le_bytes 4 (Z.of_nat (length (visible_rows env player c))) ++
       rows_bytes (visible_rows env player c))).
Proof.
  intros Hs Hn. unfold MakeList, pk_init. rewrite st_bind_mod. unfold short in Hs.
  change (Initialize SMSG_CHANNEL_LIST WorldPacket_empty) with (packet SMSG_CHANNEL_LIST []).
  set (xs := (bytes_of_string (m_name c) ++ [0]) ++ [u8 (m_flags c)]).
  assert (Z.of_nat (length xs) <= 1000002) as Hx
    by (subst xs; rewrite !length_app, length_bytes_of_string; simpl; lia).
  assert (Forall (is_u 8) xs) as H8 by (subst xs; auto with packets).
  rewrite (st_bind_ok _ _ _ tt (packet SMSG_CHANNEL_LIST (bytes_of_string (m_name c) ++ [0]))) by
    (apply (builds_str _ _ []); [rewrite length_app, length_bytes_of_string; simpl; lia|constructor]).
  rewrite (st_bind_ok _ _ _ tt (packet SMSG_CHANNEL_LIST xs)) by
    (apply builds_u8; [rewrite length_app, length_bytes_of_string; simpl; lia|auto with packets]).
  rewrite st_bind_get. cbn [packet wp_buf _wpos].
  rewrite (st_bind_ok _ _ _ tt (packet SMSG_CHANNEL_LIST (xs ++ le_bytes 4 0))) by
    (apply builds_u32; [rewrite length_le_bytes; lia|done]).
  assert (length (xs ++ le_bytes 4 0) = length xs + 4)%nat as Hl4 by (by rewrite length_app).
  rewrite (st_bind_ok _ _ _ _ _ (list_rows_spec env player (player_rows c) 0
    SMSG_CHANNEL_LIST (xs ++ le_bytes 4 0) ltac:(auto with packets) ltac:(lia) ltac:(fold (visible_rows env player c); lia)
    ltac:(fold (visible_rows env player c); lia))).
  fold (visible_rows env player c). rewrite <- app_assoc.
  rewrite put_packet; [|done|rewrite !length_app, length_rows_bytes; simpl; lia].
  subst xs. by rewrite <- !app_assoc.
Qed.

Lemma list_packet_witness :
  MakeList Demo.env (Demo.player 2 "B") Demo.three WorldPacket_empty =
    (Ok tt, packet SMSG_CHANNEL_LIST
      (bytes_of_string "Alpha" ++ [0] ++ [1] ++ le_bytes 4 3 ++
       rows_bytes [(1, mkPI 1 3); (2, mkPI 2 0); (3, mkPI 3 0)])).
Proof. apply (list_packet Demo.env (Demo.player 2 "B") Demo.three); vm_compute; discriminate. Defined.
