(* ===== verification/ChannelMgr.v ===== *)
(** * ChannelMgr: the channels of a faction

    Model of [src/game/Chat/ChannelMgr.h] and [ChannelMgr.cpp].  A manager owns
    its channels, so a [Channel*] is the key it is filed under; the conversion
    of a name to that key (UTF-8 to lower-case wide characters) is a
    parameter, [wname]. *)

From S2P Require Import Prelude ByteBuffer ObjectGuid Packets Channel.

Local Open Scope prog_scope.

Definition ALLIANCE := 469.
Definition HORDE := 67.
Definition SEC_MODERATOR := 2.
Definition SEC_DEVELOPER := 3.

Record ChannelMgr := mkCM { m_team : Z; channels : gmap (list Z) Channel }.

Section manager.
Context (env : ChannelEnv) (wname : string -> list Z) (IsPvPRealm : bool).

Definition set_channels (m : gmap (list Z) Channel) (c : ChannelMgr) : ChannelMgr := mkCM (m_team c) m.

(** The channel's key ([None] for a null pointer) and the manager after. *)
Definition GetOrCreateChannel (name : string) (allowAreaDependantChans : bool) (c : ChannelMgr)
    : option (list Z) * ChannelMgr :=
  match channels c !! wname name with
  | None =>
      let dependant := match GetChannelEntryFor env name with
                       | Some ch => truth (Z.land (entry_flags ch) CHANNEL_DBC_FLAG_ZONE_DEP)
                       | None => false
                       end in
      if negb allowAreaDependantChans && dependant then (None, c)
      else (Some (wname name),
            set_channels (<[wname name := Channel_new env name (m_team c)]> (channels c)) c)
  | Some _ => (Some (wname name), c)
  end.

(** [GetChannel]: the channel, or nothing and (with [sendPacket]) a packet. *)
Definition GetChannel (name : string) (sendPacket : bool) (c : ChannelMgr)
    : option (list Z) * option (outcome ByteBufferException unit * WorldPacket) :=
  match channels c !! wname name with
  | None => (None, if sendPacket then Some (MakeNotOnPacket name WorldPacket_empty) else None)
  | Some _ => (Some (wname name), None)
  end.

Definition LeftChannel (name : string) (c : ChannelMgr) : ChannelMgr :=
  match channels c !! wname name with
  | None => c
  | Some ch =>
      if (GetNumPlayers ch =? 0) && negb (IsConstant ch) && negb (truth (m_securityLevel ch))
      then set_channels (delete (wname name) (channels c)) c
      else c
  end.

(** [GetOrCreateChannel(name)->SetSecurityLevel(sec)]; the pointer is never
    null here, since area dependant channels are allowed ([GetOrCreate_lookup]). *)
Definition default_channel (name : string) (sec : Z) (c : ChannelMgr) : ChannelMgr :=
  let '(k, c') := GetOrCreateChannel name true c in
  match k with
  | Some k => set_channels (alter (set_securityLevel (u8 sec)) k (channels c')) c'
  | None => c'
  end.

Definition default_channels : list (string * Z) :=
  [("Warden", SEC_DEVELOPER); ("Anticrash", SEC_DEVELOPER); ("Antiflood", SEC_MODERATOR);
   ("ItemsCheck", SEC_DEVELOPER); ("GoldDupe", SEC_DEVELOPER); ("SAC", SEC_DEVELOPER);
   ("MailsAC", SEC_DEVELOPER); ("BotsDetector", SEC_DEVELOPER); ("ChatSpam", SEC_MODERATOR);
   ("LowLevelBots", SEC_DEVELOPER); ("Global", SEC_MODERATOR)]%string ++
  (if IsPvPRealm then [("WorldH", SEC_MODERATOR); ("WorldA", SEC_MODERATOR)]%string else []).

Definition CreateDefaultChannels (c : ChannelMgr) : ChannelMgr :=
  let c1 := foldl (fun c '(name, sec) => default_channel name sec c) c default_channels in
  set_channels (set_announce false <$> channels c1) c1.

(** The base constructor runs first, with the initial [m_team]; the
    factions' constructors then set theirs. *)
Definition ChannelMgr_new : ChannelMgr := CreateDefaultChannels (mkCM ALLIANCE ∅).
Definition AllianceChannelMgr_new : ChannelMgr := mkCM ALLIANCE (channels ChannelMgr_new).
Definition HordeChannelMgr_new : ChannelMgr := mkCM HORDE (channels ChannelMgr_new).

(** Both singletons, and which of them serves a team. *)
Record Managers := mkMgrs { alliance : ChannelMgr; horde : ChannelMgr }.
Inductive side := AllianceSide | HordeSide.
Definition channelMgr (team : Z) : option side :=
  if CONFIG_ALLOW_TWO_SIDE_INTERACTION_CHANNEL env then Some AllianceSide
  else if team =? ALLIANCE then Some AllianceSide
  else if team =? HORDE then Some HordeSide
  else None.
Definition manager (s : side) (m : Managers) : ChannelMgr :=
  match s with AllianceSide => alliance m | HordeSide => horde m end.
Definition set_manager (s : side) (c : ChannelMgr) (m : Managers) : Managers :=
  match s with AllianceSide => mkMgrs c (horde m) | HordeSide => mkMgrs (alliance m) c end.

(** [channelMgr(team)->GetOrCreateChannel(name)->AsyncSay(...)]. *)
Definition announce_to (team : Z) (channelName : string) (playerGuid : Z) (message : string)
    (s : Managers * list event) : outcome ByteBufferException unit * (Managers * list event) :=
  match channelMgr team with
  | None => (UB, s)
  | Some sd =>
      let '(k, c) := GetOrCreateChannel channelName true (manager sd s.1) in
      let m := set_manager sd c s.1 in
      match k with
      | None => (Ok tt, (m, s.2))
      | Some k =>
          match channels c !! k with
          | None => (UB, (m, s.2))
          | Some ch =>
              let '(o, (ch', log)) := AsyncSay env playerGuid message LANG_UNIVERSAL true (ch, s.2) in
              (o, (set_manager sd (set_channels (<[k := ch']> (channels c)) c) m, log))
          end
      end
  end.
Definition AnnounceBothFactionsChannel (channelName : string) (playerGuid : Z) (message : string)
    : St (Managers * list event) ByteBufferException unit :=
  announce_to HORDE channelName playerGuid message ;;;
  if negb (CONFIG_ALLOW_TWO_SIDE_INTERACTION_CHANNEL env)
  then announce_to ALLIANCE channelName playerGuid message else st_ret tt.

(** ** Lookup and lifetime *)

Lemma GetOrCreate_lookup name c :
  let '(k, c') := GetOrCreateChannel name true c in
  k = Some (wname name) /\ m_team c' = m_team c /\
  channels c' = <[wname name := default (Channel_new env name (m_team c)) (channels c !! wname name)]> (channels c).
Proof.
  unfold GetOrCreateChannel. destruct (channels c !! wname name) as [ch|] eqn:E; simpl; [|done].
  split_and!; [done..|]. by rewrite insert_id.
Qed.

Lemma default_channel_spec name sec c :
  m_team (default_channel name sec c) = m_team c /\
  channels (default_channel name sec c) =
    <[wname name := set_securityLevel (u8 sec)
       (default (Channel_new env name (m_team c)) (channels c !! wname name))]> (channels c).
Proof.
  unfold default_channel. pose proof (GetOrCreate_lookup name c) as H.
  destruct (GetOrCreateChannel name true c) as [k c']. destruct H as (-> & Ht & Hc). simpl.
  split; [done|]. rewrite Hc. apply map_eq. intros j. destruct (decide (j = wname name)) as [->|].
  - by rewrite lookup_alter_eq, !lookup_insert_eq.
  - by rewrite lookup_alter_ne, !lookup_insert_ne by congruence.
Qed.
End manager.

(** Channel names are case-insensitive and channels are shared: after
    [GetOrCreateChannel] every name with the same folded form finds that very
    channel, a second call creates nothing, no other channel is touched; and
    [LeftChannel] drops a channel exactly when nobody is on it, it is not built
    in and it has no security level. *)
Theorem channel_lifetime env wname name name' c :
  wname name' = wname name ->
  let '(k, c1) := GetOrCreateChannel env wname name true c in
  k = Some (wname name) /\
  GetChannel wname name' true c1 = (Some (wname name), None) /\
  GetOrCreateChannel env wname name' true c1 = (Some (wname name), c1) /\
  (forall j, j <> wname name -> channels c1 !! j = channels c !! j) /\
  (forall ch, channels c1 !! wname name = Some ch ->
     channels (LeftChannel wname name' c1) !! wname name =
       if (GetNumPlayers ch =? 0) && negb (IsConstant ch) && (m_securityLevel ch =? 0) then None
       else Some ch).
Proof.
  intros Hn. pose proof (GetOrCreate_lookup env wname name c) as H.
  destruct (GetOrCreateChannel env wname name true c) as [k c1]. destruct H as (-> & Ht & Hc).
  assert (exists ch, channels c1 !! wname name = Some ch) as [ch0 Hch]
    by (rewrite Hc, lookup_insert_eq; eauto).
  split_and!; [done| | | |].
  - unfold GetChannel. by rewrite Hn, Hch.
  - unfold GetOrCreateChannel. by rewrite Hn, Hch.
  - intros j Hj. by rewrite Hc, lookup_insert_ne by congruence.
  - intros ch Hch1. unfold LeftChannel, truth. rewrite Hn, Hch1, negb_involutive.
    destruct (_ && _ && _); [|done]. simpl. by rewrite lookup_delete_eq.
Qed.

Module MgrDemo.
Definition env : ChannelEnv :=
  mkEnv (fun _ => None) (fun _ => None) (fun _ => None) (fun _ => None) (fun _ => None) (fun _ => None)
    (fun _ => None) (fun _ => None) Some (fun _ => 0) false false 0 0.
(** Lower-casing ASCII. *)
Definition wname (s : string) : list Z :=
  (fun b => if (65 <=? b) && (b <=? 90) then b + 32 else b) <$> bytes_of_string s.
End MgrDemo.

Lemma channel_lifetime_witness :
  let '(k, c1) := GetOrCreateChannel MgrDemo.env MgrDemo.wname "Trade" true (mkCM ALLIANCE ∅) in
  k = Some (MgrDemo.wname "Trade") /\
  GetChannel MgrDemo.wname "TRADE" true c1 = (Some (MgrDemo.wname "Trade"), None) /\
  GetOrCreateChannel MgrDemo.env MgrDemo.wname "TRADE" true c1 = (Some (MgrDemo.wname "Trade"), c1) /\
  (forall j, j <> MgrDemo.wname "Trade" -> channels c1 !! j = (∅ : gmap (list Z) Channel) !! j) /\
  (forall ch, channels c1 !! MgrDemo.wname "Trade" = Some ch ->
     channels (LeftChannel MgrDemo.wname "TRADE" c1) !! MgrDemo.wname "Trade" =
       if (GetNumPlayers ch =? 0) && negb (IsConstant ch) && (m_securityLevel ch =? 0) then None
       else Some ch).
Proof. by apply (channel_lifetime MgrDemo.env MgrDemo.wname "Trade" "TRADE" (mkCM ALLIANCE ∅)). Defined.

(** ** The channels of the staff *)

Section defaults.
Context (env : ChannelEnv) (wname : string -> list Z) (IsPvPRealm : bool).

(** A channel that [LeftChannel] will not drop. *)
Definition secured (k : list Z) (c : ChannelMgr) : Prop :=
  exists ch, channels c !! k = Some ch /\ m_securityLevel ch <> 0.

Lemma secured_create k name allow c :
  secured k c -> secured k (GetOrCreateChannel env wname name allow c).2.
Proof.
  intros (ch & Hch & Hs). unfold GetOrCreateChannel. destruct (channels c !! wname name) eqn:E; simpl.
  - by exists ch.
  - destruct (_ && _); simpl; [by exists ch|]. exists ch. split; [|done].
    cbn [channels set_channels]. rewrite lookup_insert_ne; [done|congruence].
Qed.

Lemma secured_left k name c : secured k c -> secured k (LeftChannel wname name c).
Proof.
  intros (ch & Hch & Hs). unfold LeftChannel. destruct (channels c !! wname name) as [ch'|] eqn:E; [|by exists ch].
  destruct (_ && _ && _) eqn:Hdrop; [|by exists ch]. exists ch. split; [|done]. simpl.
  rewrite lookup_delete_ne; [done|]. intros <-. rewrite E in Hch. simplify_eq.
  unfold truth in Hdrop. bool_prop. congruence.
Qed.

Lemma secured_default k name sec c :
  u8 sec <> 0 -> (k = wname name \/ secured k c) -> secured k (default_channel env wname name sec c).
Proof.
  intros Hsec Hk. unfold secured. rewrite (proj2 (default_channel_spec env wname name sec c)).
  destruct (decide (k = wname name)) as [->|Hne].
  - rewrite lookup_insert_eq. eauto.
  - destruct Hk as [?|(ch & Hch & Hs)]; [done|]. exists ch. by rewrite lookup_insert_ne by congruence.
Qed.

Lemma default_secs name sec : (name, sec) ∈ default_channels IsPvPRealm -> u8 sec <> 0.
Proof.
  intros H. assert (Forall (fun d => u8 d.2 <> 0) (default_channels IsPvPRealm)) as Hf
    by (unfold default_channels; destruct IsPvPRealm; repeat constructor; vm_compute; discriminate).
  rewrite Forall_forall in Hf. apply (Hf _ H).
Qed.

Lemma secured_defaults name sec (l : list (string * Z)) c :
  (forall d, d ∈ l -> u8 d.2 <> 0) -> (name, sec) ∈ l \/ secured (wname name) c ->
  secured (wname name) (foldl (fun c '(name, sec) => default_channel env wname name sec c) c l).
Proof.
  revert c. induction l as [|[n s] l IH]; intros c Hl Hc; simpl; [by destruct Hc as [?%elem_of_nil|]|].
  apply IH; [intros d Hd; apply Hl; by right|].
  assert (u8 s <> 0) as Hs by (apply (Hl (n, s)); by left).
  destruct Hc as [[[= -> ->]|Hin]%elem_of_cons|Hc]; [|by left|]; right; apply secured_default; auto.
Qed.

Lemma secured_new name sec :
  (name, sec) ∈ default_channels IsPvPRealm ->
  secured (wname name) (ChannelMgr_new env wname IsPvPRealm).
Proof.
  intros Hd. unfold ChannelMgr_new, CreateDefaultChannels.
  destruct (secured_defaults name sec (default_channels IsPvPRealm) (mkCM ALLIANCE ∅)) as (ch & Hch & Hs).
  - intros [n s] Hin. by apply (default_secs n).
  - by left.
  - exists (set_announce false ch). cbn [channels set_channels]. by rewrite lookup_fmap, Hch.
Qed.

Lemma default_team (l : list (string * Z)) c :
  m_team c = ALLIANCE -> (forall k ch, channels c !! k = Some ch -> m_Team ch = ALLIANCE) ->
  let c' := foldl (fun c '(name, sec) => default_channel env wname name sec c) c l in
  forall k ch, channels c' !! k = Some ch -> m_Team ch = ALLIANCE.
Proof.
  revert c. induction l as [|[n s] l IH]; intros c Ht Hc; simpl; [done|].
  pose proof (default_channel_spec env wname n s c) as [Ht' Hc'].
  apply IH; [congruence|]. rewrite Hc'. intros k ch [[<- <-]|[_ Hk]]%lookup_insert_Some; [|eauto].
  simpl. destruct (channels c !! wname n) as [ch|] eqn:E; simpl; [eauto|].
  unfold Channel_new. rewrite Ht. repeat case_match; done.
Qed.
End defaults.

Inductive mgr_op := MCreate (name : string) (allow : bool) | MLeft (name : string).
Definition mgr_run env wname (op : mgr_op) (c : ChannelMgr) : ChannelMgr :=
  match op with
  | MCreate n a => (GetOrCreateChannel env wname n a c).2
  | MLeft n => LeftChannel wname n c
  end.

(** The staff channels both managers start with are never dropped, no
    matter which channels are created and left; and every one of them belongs
    to the Alliance, also those of the Horde's manager, because the base
    constructor creates them before the Horde's sets its team. *)
Theorem default_channels_stay env wname pvp name sec ops :
  (name, sec) ∈ default_channels pvp ->
  secured (wname name) (foldl (fun c op => mgr_run env wname op c) (HordeChannelMgr_new env wname pvp) ops) /\
  m_team (HordeChannelMgr_new env wname pvp) = HORDE /\
  forall ch, channels (HordeChannelMgr_new env wname pvp) !! wname name = Some ch -> m_Team ch = ALLIANCE.
Proof.
  intros Hd. split_and!; [|done|].
  - assert (secured (wname name) (HordeChannelMgr_new env wname pvp)) as H0 by (by apply (secured_new env wname pvp name sec)).
    revert H0. generalize (HordeChannelMgr_new env wname pvp).
    induction ops as [|op ops IH]; intros c Hc; [done|]. simpl. apply IH.
    destruct op; [by apply secured_create|by apply secured_left].
  - intros ch. unfold HordeChannelMgr_new, ChannelMgr_new, CreateDefaultChannels.
    cbn [channels set_channels]. rewrite lookup_fmap. intros (ch' & Hch & ->)%fmap_Some.
    cbn [m_Team set_announce]. apply (default_team env wname _ (mkCM ALLIANCE ∅)) in Hch; [done|done|]. by intros k ch0 H; cbn in H; apply lookup_empty_Some in H.
Qed.

Lemma default_channels_stay_witness :
  secured (MgrDemo.wname "Global")
    (foldl (fun c op => mgr_run MgrDemo.env MgrDemo.wname op c)
       (HordeChannelMgr_new MgrDemo.env MgrDemo.wname true) [MCreate "Trade" true; MLeft "Global"]) /\
  m_team (HordeChannelMgr_new MgrDemo.env MgrDemo.wname true) = HORDE /\
  forall ch, channels (HordeChannelMgr_new MgrDemo.env MgrDemo.wname true) !! MgrDemo.wname "Global" = Some ch ->
    m_Team ch = ALLIANCE.
Proof.
  apply (default_channels_stay MgrDemo.env MgrDemo.wname true "Global" SEC_MODERATOR
    [MCreate "Trade" true; MLeft "Global"]).
  apply (bool_decide_unpack _). by vm_compute.
Defined.
