(* ===== verification/Multimap.v ===== *)
(** * Multimap: [std::multimap] with unsigned integer keys

    A multimap is the list of its entries in iteration order.  [insert] puts a
    new entry behind those with an equal key (C++11), so entries with one key
    stay in insertion order. *)

From stdpp Require Import sorting.
From S2P Require Import Prelude.

Section multimap.
Context {A : Type}.
Implicit Types (l : list (Z * A)) (e : Z * A).

Fixpoint mm_insert (k : Z) (v : A) l : list (Z * A) :=
  match l with
  | [] => [(k, v)]
  | (k', v') :: l' => if k' <=? k then (k', v') :: mm_insert k v l' else (k, v) :: l
  end.

(** [insert(first, last)]. *)
Definition mm_insert_all (es l : list (Z * A)) : list (Z * A) :=
  fold_left (fun l e => mm_insert e.1 e.2 l) es l.

Definition mm_sorted l : Prop := StronglySorted (fun e1 e2 => e1.1 <= e2.1) l.

Lemma mm_insert_perm k v l : mm_insert k v l ≡ₚ (k, v) :: l.
Proof.
  induction l as [|[k' v'] l IH]; simpl; [done|]. case_match; [|done].
  rewrite IH. apply Permutation_swap.
Qed.

Lemma mm_insert_sorted k v l : mm_sorted l -> mm_sorted (mm_insert k v l).
Proof.
  induction 1 as [|[k' v'] l Hl IH Hf]; simpl; [by repeat constructor|].
  case_match; bool_prop; constructor; simpl in *.
  - done.
  - rewrite mm_insert_perm. by constructor.
  - by constructor.
  - constructor; [simpl; lia|]. eapply Forall_impl; [exact Hf|]. simpl. lia.
Qed.

Lemma mm_insert_all_perm es l : mm_insert_all es l ≡ₚ es ++ l.
Proof.
  revert l. induction es as [|[k v] es IH]; intros l; simpl; [done|].
  change (mm_insert_all es (mm_insert k v l) ≡ₚ (k, v) :: es ++ l).
  by rewrite IH, mm_insert_perm, Permutation_middle.
Qed.

Lemma mm_insert_all_sorted es l : mm_sorted l -> mm_sorted (mm_insert_all es l).
Proof.
  revert l. induction es as [|[k v] es IH]; intros l Hl; simpl; [done|].
  by apply IH, mm_insert_sorted.
Qed.

Lemma mm_sorted_filter (P : Z * A -> Prop) `{forall e, Decision (P e)} l :
  mm_sorted l -> mm_sorted (filter P l).
Proof.
  induction 1 as [|e l Hl IH Hf]; [constructor|]. rewrite filter_cons. case_decide; [|done].
  constructor; [done|]. rewrite Forall_forall in *. intros x [_ Hx]%list_elem_of_filter. auto.
Qed.

Lemma mm_sorted_tail e l : mm_sorted (e :: l) -> mm_sorted l.
Proof. by inversion 1. Qed.

(** Past the first key above [t] nothing is due. *)
Lemma mm_sorted_above t e l :
  mm_sorted (e :: l) -> t < e.1 -> Forall (fun x => t < x.1) (e :: l).
Proof.
  inversion 1 as [|? ? _ Hf]; subst. intros Ht. constructor; [done|].
  eapply Forall_impl; [exact Hf|]. simpl. lia.
Qed.

(** Inserting above every due entry does not touch them. *)
Lemma mm_insert_due t k v l :
  t < k -> filter (fun e => e.1 <= t) (mm_insert k v l) = filter (fun e => e.1 <= t) l.
Proof.
  intros Hk. induction l as [|[k' v'] l IH]; simpl.
  - rewrite filter_cons_False; [done|simpl; lia].
  - case_match; bool_prop.
    + rewrite !filter_cons, IH. done.
    + rewrite filter_cons_False by (simpl; lia). done.
Qed.
End multimap.

(** What is done to keys does not depend on the values. *)
Lemma mm_insert_fmap {A B} (f : A -> B) k v (l : list (Z * A)) :
  mm_insert k (f v) (prod_map id f <$> l) = prod_map id f <$> mm_insert k v l.
Proof. induction l as [|[k' v'] l IH]; cbn; [done|]. destruct (k' <=? k); cbn; [by rewrite <- IH|done]. Qed.
Lemma mm_insert_all_fmap {A B} (f : A -> B) (es l : list (Z * A)) :
  mm_insert_all (prod_map id f <$> es) (prod_map id f <$> l) = prod_map id f <$> mm_insert_all es l.
Proof. unfold mm_insert_all. revert l. induction es as [|[k v] es IH]; intros l; cbn; [done|]. rewrite <- IH. f_equal. apply mm_insert_fmap. Qed.

Create HintDb multimap.
#[export] Hint Resolve mm_insert_sorted mm_insert_all_sorted mm_sorted_filter : multimap.
