(* ===== verification/EventMap.v ===== *)
(** * EventMap: the event scheduler of creature scripts

    Model of [src/framework/Utilities/EventMap.h] and [EventMap.cpp]: a
    multimap from the time an event is due to a 32-bit word holding its id
    (bits 0-15), group (16-23) and phase (24-31). *)

From stdpp Require Import relations gmap.
From S2P Require Import Prelude Multimap.

Local Open Scope prog_scope.

Record EventMap := mkEM {
  _time : Z;
  _phase : Z;
  _eventMap : list (Z * Z);
  _lastEvent : Z }.

Definition set_map (l : list (Z * Z)) (m : EventMap) : EventMap :=
  mkEM (_time m) (_phase m) l (_lastEvent m).
Definition set_phase (p : Z) (m : EventMap) : EventMap :=
  mkEM (_time m) p (_eventMap m) (_lastEvent m).
Definition set_time (t : Z) (m : EventMap) : EventMap :=
  mkEM t (_phase m) (_eventMap m) (_lastEvent m).

Definition EventMap_new : EventMap := mkEM 0 0 [] 0.

Definition Reset (m : EventMap) : EventMap := mkEM 0 0 [] (_lastEvent m).
Definition Update (time : Z) (m : EventMap) : EventMap := set_time (u32 (_time m + time)) m.
Definition GetTimer (m : EventMap) : Z := _time m.
Definition GetPhaseMask (m : EventMap) : Z := _phase m.
Definition Empty (m : EventMap) : bool := match _eventMap m with [] => true | _ => false end.

Definition in_1_8 (x : Z) : bool := truth x && (x <=? 8).

Definition SetPhase (phase : Z) (m : EventMap) : EventMap :=
  if negb (truth phase) then set_phase 0 m
  else if phase <=? 8 then set_phase (u8 (Z.shiftl 1 (phase - 1))) m
  else m.
Definition AddPhase (phase : Z) (m : EventMap) : EventMap :=
  if in_1_8 phase then set_phase (u8 (Z.lor (_phase m) (u8 (Z.shiftl 1 (phase - 1))))) m else m.
Definition RemovePhase (phase : Z) (m : EventMap) : EventMap :=
  if in_1_8 phase
  then set_phase (u8 (Z.land (_phase m) (u8 (Z.lnot (Z.shiftl 1 (phase - 1)))))) m
  else m.
Definition IsInPhase (phase : Z) (m : EventMap) : bool :=
  (phase <=? 8) && (negb (truth phase) || truth (Z.land (_phase m) (Z.shiftl 1 (phase - 1)))).

(** The word stored for an event.  [1 << 31], the last phase, wraps into the
    sign bit and comes back as bit 31 of the [uint32]. *)
Definition event_word (eventId group phase : Z) : Z :=
  let w := if in_1_8 group then Z.lor eventId (u32 (Z.shiftl 1 (group + 15))) else eventId in
  if in_1_8 phase then Z.lor w (u32 (Z.shiftl 1 (phase + 23))) else w.

Definition ScheduleEvent (eventId time group phase : Z) (m : EventMap) : EventMap :=
  set_map (mm_insert (u32 (_time m + time)) (event_word eventId group phase) (_eventMap m)) m.

Definition Repeat (time : Z) (m : EventMap) : EventMap :=
  set_map (mm_insert (u32 (_time m + time)) (_lastEvent m) (_eventMap m)) m.

(** [itr->second & 0x0000FFFF]. *)
Definition id_of (w : Z) : Z := Z.land w 0x0000FFFF.
(** The test that drops a due event of another phase. *)
Definition blocked (phase w : Z) : bool :=
  truth phase && truth (Z.land w 0xFF000000) && negb (truth (Z.land (Z.shiftr w 24) phase)).

(** The loop of [ExecuteEvent]: every turn but the last erases the first entry. *)
Fixpoint execute_loop (time phase last : Z) (l : list (Z * Z)) : Z * (list (Z * Z) * Z) :=
  match l with
  | [] => (0, ([], last))
  | (t, w) :: l' =>
      if t >? time then (0, (l, last))
      else if blocked phase w then execute_loop time phase last l'
      else (id_of w, (l', w))
  end.
Definition ExecuteEvent (m : EventMap) : Z * EventMap :=
  let '(r, (l, last)) := execute_loop (_time m) (_phase m) (_lastEvent m) (_eventMap m) in
  (r, mkEM (_time m) (_phase m) l last).

Definition DelayEvents (delay : Z) (m : EventMap) : EventMap :=
  set_time (if delay <? _time m then u32 (_time m - delay) else 0) m.

Definition in_group (group w : Z) : bool := truth (Z.land w (u32 (Z.shiftl 1 (group + 15)))).

(** The loop of [DelayEvents(delay, group)]: the entries kept and [delayed]. *)
Fixpoint delay_loop (delay group : Z) (l delayed : list (Z * Z)) : list (Z * Z) * list (Z * Z) :=
  match l with
  | [] => ([], delayed)
  | (t, w) :: l' =>
      if in_group group w then delay_loop delay group l' (mm_insert (u32 (t + delay)) w delayed)
      else let '(kept, d) := delay_loop delay group l' delayed in ((t, w) :: kept, d)
  end.
Definition DelayEvents_group (delay group : Z) (m : EventMap) : EventMap :=
  if negb (in_1_8 group) || Empty m then m
  else
    let '(kept, delayed) := delay_loop delay group (_eventMap m) [] in
    set_map (mm_insert_all delayed kept) m.

(** Erase while iterating. *)
Fixpoint erase_loop (p : Z -> bool) (l : list (Z * Z)) : list (Z * Z) :=
  match l with
  | [] => []
  | (t, w) :: l' => if p w then erase_loop p l' else (t, w) :: erase_loop p l'
  end.
Definition CancelEvent (eventId : Z) (m : EventMap) : EventMap :=
  if Empty m then m else set_map (erase_loop (fun w => eventId =? id_of w) (_eventMap m)) m.
Definition CancelEventGroup (group : Z) (m : EventMap) : EventMap :=
  if negb (in_1_8 group) || Empty m then m
  else set_map (erase_loop (in_group group) (_eventMap m)) m.

(** [CancelEventsByGCD] starts over from the first entry after each erase:
    [seen] are the entries the iterator has passed, [rest] those before it. *)
Fixpoint gcd_loop (fuel : nat) (mask : Z) (seen rest : list (Z * Z)) : option (list (Z * Z)) :=
  match fuel with
  | O => None
  | S fuel' =>
      match rest with
      | [] => Some seen
      | e :: rest' =>
          if truth (Z.land e.2 mask) then gcd_loop fuel' mask [] (seen ++ rest')
          else gcd_loop fuel' mask (seen ++ [e]) rest'
      end
  end.
Definition gcd_fuel (l : list (Z * Z)) : nat := S (length l * S (length l)).
(** A shift by 32 or more is undefined. *)
Definition CancelEventsByGCD (gcd : Z) : St EventMap Empty_set unit := fun m =>
  let shift := u32 (gcd + 16) in
  if 32 <=? shift then (UB, m)
  else match gcd_loop (gcd_fuel (_eventMap m)) (u32 (Z.shiftl 1 shift)) [] (_eventMap m) with
       | Some l => (Ok tt, set_map l m)
       | None => (Diverge, m)
       end.

Definition RescheduleEvent (eventId time group phase : Z) (m : EventMap) : EventMap :=
  ScheduleEvent eventId time group phase (CancelEvent eventId m).

Fixpoint find_id (eventId : Z) (l : list (Z * Z)) : option Z :=
  match l with
  | [] => None
  | (t, w) :: l' => if eventId =? id_of w then Some t else find_id eventId l'
  end.
Definition GetNextEventTime_id (eventId : Z) (m : EventMap) : Z :=
  if Empty m then 0 else default 0 (find_id eventId (_eventMap m)).
Definition GetNextEventTime (m : EventMap) : Z :=
  match _eventMap m with [] => 0 | (t, _) :: _ => t end.
Definition GetTimeUntilEvent (eventId : Z) (m : EventMap) : Z :=
  match find_id eventId (_eventMap m) with
  | Some t => u32 (t - _time m)
  | None => 0xFFFFFFFF
  end.

(** ** The overloads on [std::chrono] durations and random ranges

    [urand] is the server's random source. *)
Section overloads.
Context (urand : Z -> Z -> Z).
Definition ScheduleEvent_ms (eventId time group phase : Z) := ScheduleEvent eventId (u32 time) group phase.
Definition ScheduleEvent_range (eventId minTime maxTime group phase : Z) :=
  ScheduleEvent eventId (urand (u32 minTime) (u32 maxTime)) group (u8 phase).
Definition RescheduleEvent_ms (eventId time group phase : Z) := RescheduleEvent eventId (u32 time) group phase.
Definition RescheduleEvent_range (eventId minTime maxTime group phase : Z) :=
  RescheduleEvent eventId (urand (u32 minTime) (u32 maxTime)) group (u8 phase).
Definition Repeat_ms (time : Z) := Repeat (u32 time).
Definition Repeat_range (minTime maxTime : Z) := Repeat (urand minTime maxTime).
Definition Repeat_range_ms (minTime maxTime : Z) := Repeat_range (u32 minTime) (u32 maxTime).
Definition DelayEvents_ms (delay : Z) := DelayEvents (u32 delay).
Definition DelayEvents_group_ms (delay group : Z) := DelayEvents_group (u32 delay) group.
End overloads.

(** ** The words of events *)

Lemma in_1_8_range x : is_u 32 x -> in_1_8 x = true <-> 1 <= x <= 8.
Proof.
  intros [Hx _]. unfold in_1_8, truth. split; [intros H; bool_prop; lia|].
  intros H. destruct (Z.eqb_spec x 0), (Z.leb_spec x 8); (done || lia).
Qed.

Lemma shift_u32 k : 0 <= k < 32 -> u32 (Z.shiftl 1 k) = 2 ^ k.
Proof.
  intros Hk. rewrite Z.shiftl_1_l. apply wrap_small. split; [lia|].
  apply Z.pow_lt_mono_r; lia.
Qed.

Lemma truth_bit w k : 0 <= k < 32 -> truth (Z.land w (u32 (Z.shiftl 1 k))) = Z.testbit w k.
Proof. intros Hk. rewrite shift_u32, <- Z.shiftl_1_l by done. apply truth_land_bit. lia. Qed.

(** Bit by bit: the id below 16, one bit for the group, one for the phase. *)
Lemma event_word_bit eventId group phase i :
  is_u 16 eventId -> is_u 32 group -> is_u 8 phase -> 0 <= i < 32 ->
  Z.testbit (event_word eventId group phase) i =
    Z.testbit eventId i
    || (in_1_8 group && (i =? group + 15)) || (in_1_8 phase && (i =? phase + 23)).
Proof.
  intros He Hg Hp Hi. unfold event_word.
  destruct (in_1_8 group) eqn:Eg, (in_1_8 phase) eqn:Ep;
    try apply in_1_8_range in Eg; try apply in_1_8_range in Ep; try done;
    try (eapply is_u_mono; [|exact Hp]; lia).
  all: rewrite ?Z.lor_spec, ?shift_u32, ?Z.pow2_bits_eqb by lia.
  all: rewrite ?(Z.eqb_sym i); simpl; by rewrite ?orb_false_r.
Qed.

Lemma event_word_u32 eventId group phase :
  is_u 16 eventId -> is_u 32 (event_word eventId group phase).
Proof.
  intros He. assert (is_u 32 eventId) by (eapply is_u_mono; [|exact He]; lia).
  unfold event_word. repeat case_match; auto with machine.
Qed.

Lemma id_of_event_word eventId group phase :
  is_u 16 eventId -> is_u 32 group -> is_u 8 phase -> id_of (event_word eventId group phase) = eventId.
Proof.
  intros He Hg Hp. unfold id_of. rewrite (land_mask 16) by done.
  assert (is_u 32 group) by done.
  apply Z.bits_inj'. intros i Hi. destruct (decide (i < 16)).
  - rewrite Z.mod_pow2_bits_low, event_word_bit by (done || lia).
    destruct (in_1_8 group) eqn:Eg, (in_1_8 phase) eqn:Ep;
      try apply in_1_8_range in Eg; try apply in_1_8_range in Ep; try done;
      try (eapply is_u_mono; [|exact Hp]; lia); simpl; rewrite ?orb_false_r; try done;
      repeat match goal with |- context [?a =? ?b] => destruct (Z.eqb_spec a b); [lia|] end;
      by rewrite ?orb_false_r.
  - rewrite Z.mod_pow2_bits_high by lia. symmetry. apply (testbit_high 16); [done|lia|lia].
Qed.

Lemma in_group_event_word g eventId group phase :
  1 <= g <= 8 -> is_u 16 eventId -> is_u 32 group -> is_u 8 phase ->
  in_group g (event_word eventId group phase) = (g =? group).
Proof.
  intros Hgr He Hg Hp. unfold in_group. rewrite truth_bit, event_word_bit by (done || lia).
  rewrite (testbit_high 16 eventId) by (done || lia). simpl.
  replace (in_1_8 phase && (g + 15 =? phase + 23)) with false; [|symmetry; apply andb_false_iff].
  - rewrite orb_false_r. destruct (Z.eqb_spec g group) as [->|Hne].
    + rewrite Z.eqb_refl, andb_true_r. by apply in_1_8_range.
    + apply andb_false_iff. right. apply Z.eqb_neq. lia.
  - destruct (in_1_8 phase) eqn:Ep; [right|by left].
    apply in_1_8_range in Ep; [|eapply is_u_mono; [|exact Hp]; lia]. apply Z.eqb_neq. lia.
Qed.

(** ** Erasing and delaying *)

Lemma erase_loop_filter p l : erase_loop p l = filter (fun e => p e.2 = false) l.
Proof.
  induction l as [|[t w] l IH]; [done|]. rewrite filter_cons. simpl. rewrite IH.
  destruct (p w) eqn:E; [by rewrite decide_False by congruence|by rewrite decide_True].
Qed.

Lemma erase_loop_insert_erased p t w l :
  p w = true -> erase_loop p (mm_insert t w l) = erase_loop p l.
Proof.
  intros Hp. induction l as [|[t' w'] l IH]; simpl; [by rewrite Hp|].
  case_match; simpl; rewrite ?Hp; [by rewrite IH|done].
Qed.

Lemma mm_insert_nonempty {A} k (v : A) l : mm_insert k v l <> [].
Proof. destruct l as [|[k' v'] l]; simpl; [done|]. by case_match. Qed.

Lemma CancelEvent_spec eventId m :
  CancelEvent eventId m = set_map (filter (fun e => (eventId =? id_of e.2) = false) (_eventMap m)) m.
Proof.
  unfold CancelEvent, Empty. rewrite erase_loop_filter. by destruct m as [? ? [|] ?].
Qed.

Lemma CancelEventGroup_spec group m :
  1 <= group <= 8 ->
  CancelEventGroup group m = set_map (filter (fun e => in_group group e.2 = false) (_eventMap m)) m.
Proof.
  intros Hg. unfold CancelEventGroup, Empty. rewrite erase_loop_filter.
  assert (in_1_8 group = true) as -> by (apply in_1_8_range; unfold is_u; lia).
  by destruct m as [? ? [|] ?].
Qed.

(** An event scheduled with an id below 2^16 is the event that comes out:
    its id is recovered from the stored word, it belongs to exactly the group
    it was given, and cancelling its id, or its group, right after scheduling
    it leaves the same map as cancelling without having scheduled it. *)
Theorem schedule_cancel eventId time group phase m :
  is_u 16 eventId -> is_u 32 group -> is_u 8 phase ->
  let w := event_word eventId group phase in
  is_u 32 w /\ id_of w = eventId /\
  (forall g, 1 <= g <= 8 -> in_group g w = (g =? group)) /\
  CancelEvent eventId (ScheduleEvent eventId time group phase m) = CancelEvent eventId m /\
  (1 <= group <= 8 ->
   CancelEventGroup group (ScheduleEvent eventId time group phase m) = CancelEventGroup group m).
Proof.
  intros He Hg Hp. cbv zeta. split_and!.
  - by apply event_word_u32.
  - by apply id_of_event_word.
  - intros g Hgr. by apply in_group_event_word.
  - rewrite !CancelEvent_spec. unfold ScheduleEvent, set_map. simpl. f_equal.
    rewrite <- !(erase_loop_filter (fun w => eventId =? id_of w)). apply erase_loop_insert_erased.
    rewrite id_of_event_word by done. apply Z.eqb_refl.
  - intros Hgr. rewrite !CancelEventGroup_spec by done. unfold ScheduleEvent, set_map. simpl. f_equal.
    rewrite <- !erase_loop_filter. apply erase_loop_insert_erased.
    rewrite in_group_event_word by done. apply Z.eqb_refl.
Qed.

Lemma schedule_cancel_witness :
  let w := event_word 7 3 8 in
  is_u 32 w /\ id_of w = 7 /\
  (forall g, 1 <= g <= 8 -> in_group g w = (g =? 3)) /\
  CancelEvent 7 (ScheduleEvent 7 500 3 8 EventMap_new) = CancelEvent 7 EventMap_new /\
  (1 <= 3 <= 8 ->
   CancelEventGroup 3 (ScheduleEvent 7 500 3 8 EventMap_new) = CancelEventGroup 3 EventMap_new).
Proof. apply schedule_cancel; unfold is_u; lia. Defined.

(** ** Cancelling by global cooldown *)

(** Restarting the scan after every erase still removes exactly the entries
    with the bit; [length seen] entries are known to lack it. *)
Lemma gcd_loop_spec mask fuel seen rest :
  Forall (fun e => truth (Z.land e.2 mask) = false) seen ->
  (length rest + length (seen ++ rest) * length (List.filter (fun e => truth (Z.land e.2 mask)) rest)
    < fuel)%nat ->
  gcd_loop fuel mask seen rest =
    Some (filter (fun e => truth (Z.land e.2 mask) = false) (seen ++ rest)).
Proof.
  revert seen rest. induction fuel as [|fuel IH]; intros seen rest Hs Hf; [lia|].
  destruct rest as [|e rest]; simpl in *.
  - by rewrite app_nil_r, filter_all.
  - destruct (truth (Z.land e.2 mask)) eqn:E; simpl in *.
    + rewrite IH; [|constructor|].
      * rewrite filter_app, !filter_app, filter_cons_False by congruence. done.
      * simpl. rewrite length_app in *. simpl in *.
        assert (List.filter (fun e => truth (Z.land e.2 mask)) (seen ++ rest) =
                List.filter (fun e => truth (Z.land e.2 mask)) rest) as ->.
        { clear -Hs. induction Hs as [|x seen Hx _ IHs]; simpl; [done|]. by rewrite Hx. }
        nia.
    + rewrite IH.
      * by rewrite <- app_assoc.
      * apply Forall_app. auto.
      * rewrite <- app_assoc. simpl. lia.
Qed.

Lemma gcd_fuel_enough mask l :
  gcd_loop (gcd_fuel l) mask [] l = Some (filter (fun e => truth (Z.land e.2 mask) = false) l).
Proof.
  apply gcd_loop_spec; [constructor|]. simpl. unfold gcd_fuel.
  assert (length (List.filter (fun e => truth (Z.land e.2 mask)) l) <= length l)%nat
    by apply List.filter_length_le.
  nia.
Qed.

(** [CancelEventsByGCD] terminates although it starts over after every
    erase, and it removes what one pass would: the events of the group
    numbered one above its argument (bit [gcd + 16], where groups use bit
    [group + 15]). *)
Theorem gcd_cancels_group gcd m :
  0 <= gcd < 8 -> CancelEventsByGCD gcd m = (Ok tt, CancelEventGroup (gcd + 1) m).
Proof.
  intros Hg. unfold CancelEventsByGCD. rewrite (wrap_small 32) by (unfold is_u; lia).
  replace (32 <=? gcd + 16) with false by (symmetry; apply Z.leb_gt; lia).
  rewrite gcd_fuel_enough, CancelEventGroup_spec by lia.
  unfold in_group. by replace (gcd + 1 + 15) with (gcd + 16) by lia.
Qed.

Lemma gcd_cancels_group_witness :
  CancelEventsByGCD 2 (ScheduleEvent 7 500 3 0 EventMap_new) =
    (Ok tt, CancelEventGroup (2 + 1) (ScheduleEvent 7 500 3 0 EventMap_new)).
Proof. apply gcd_cancels_group. lia. Defined.

(** ** Running the map *)

(** Call [ExecuteEvent] until it returns 0, as scripts do. *)
Fixpoint drain (fuel : nat) (m : EventMap) : list Z * EventMap :=
  match fuel with
  | O => ([], m)
  | S fuel' =>
      let '(r, m') := ExecuteEvent m in
      if r =? 0 then ([], m') else let '(rs, m'') := drain fuel' m' in (r :: rs, m'')
  end.

Definition due (m : EventMap) : list (Z * Z) := filter (fun e => e.1 <= _time m) (_eventMap m).
Definition runnable (m : EventMap) : list (Z * Z) :=
  filter (fun e => blocked (_phase m) e.2 = false) (due m).
Definition pending (m : EventMap) : list (Z * Z) := filter (fun e => _time m < e.1) (_eventMap m).

Lemma filter_due_nil t (l : list (Z * Z)) :
  Forall (fun x => t < x.1) l -> filter (fun e => e.1 <= t) l = [] /\ filter (fun e => t < e.1) l = l.
Proof.
  intros H. split; [apply filter_none|by apply filter_all].
  eapply Forall_impl; [exact H|]. simpl. lia.
Qed.

(** One call: the first runnable event, or none. *)
Lemma ExecuteEvent_spec m :
  mm_sorted (_eventMap m) ->
  let '(r, m') := ExecuteEvent m in
  _time m' = _time m /\ _phase m' = _phase m /\ pending m' = pending m /\ mm_sorted (_eventMap m') /\
  (length (_eventMap m') <= length (_eventMap m))%nat /\
  match runnable m with
  | [] => r = 0 /\ due m' = [] /\ _lastEvent m' = _lastEvent m
  | (t, w) :: es => r = id_of w /\ runnable m' = es /\ _lastEvent m' = w /\
                    (length (_eventMap m') < length (_eventMap m))%nat
  end.
Proof.
  destruct m as [time phase l last]. unfold ExecuteEvent, runnable, due, pending. simpl.
  induction l as [|[t w] l IH]; intros Hs; simpl; [done|].
  destruct (t >? time) eqn:Et; bool_prop.
  - cbn [_time _phase _eventMap _lastEvent].
    apply (mm_sorted_above time) in Hs as Ha; [|simpl; lia]. apply filter_due_nil in Ha as [-> ->].
    split_and!; (done || (simpl; lia)).
  - rewrite (filter_cons (fun e => e.1 <= time)), decide_True by (simpl; lia).
    rewrite (filter_cons (fun e => time < e.1)), decide_False by (simpl; lia).
    rewrite (filter_cons (fun e => blocked phase e.2 = false)). simpl.
    destruct (blocked phase w) eqn:Eb.
    + rewrite decide_False by done. specialize (IH (mm_sorted_tail _ _ Hs)).
      destruct (execute_loop time phase last l) as [r [l' last']]. simpl in *.
      destruct IH as (H1 & H2 & H3 & H4 & H5 & H6). split_and!; auto.
      destruct (filter _ (filter _ l)) as [|[t' w'] es]; [done|].
      destruct H6 as (? & ? & ? & ?). split_and!; auto.
    + rewrite decide_True by done. split_and!; eauto using mm_sorted_tail.
Qed.

Lemma drain_spec fuel m :
  mm_sorted (_eventMap m) -> Forall (fun e => id_of e.2 <> 0) (runnable m) ->
  (length (_eventMap m) < fuel)%nat ->
  let '(rs, m') := drain fuel m in
  rs = (fun e => id_of e.2) <$> runnable m /\ _eventMap m' = pending m.
Proof.
  revert m. induction fuel as [|fuel IH]; intros m Hs Hid Hf; [lia|]. simpl.
  pose proof (ExecuteEvent_spec m Hs) as He. destruct (ExecuteEvent m) as [r m'].
  destruct He as (Ht & Hp & Hpend & Hs' & Hlen & Hr).
  destruct (runnable m) as [|[t w] es] eqn:Er.
  - destruct Hr as (-> & Hd & _). split; [done|]. rewrite <- Hpend. symmetry. apply filter_all.
    apply Forall_forall. intros e He. apply Z.nle_gt. intros Hle.
    by apply (filter_nil_not_elem_of _ _ e Hd).
  - destruct Hr as (-> & Hes & _ & Hlt). inversion Hid as [|? ? Hw Hids]; subst. simpl in Hw.
    rewrite (proj2 (Z.eqb_neq _ _) Hw). specialize (IH m' Hs' Hids ltac:(lia)).
    destruct (drain fuel m'). destruct IH as [-> ->]. by split; [|rewrite Hpend].
Qed.

(** C17. Draining a map by repeated [ExecuteEvent] runs exactly the events
    that are due and not blocked by the phase, in the order of their times
    (those of equal time in the order they were scheduled), and leaves exactly
    the events that are not due yet. *)
Theorem drain_in_order m :
  mm_sorted (_eventMap m) -> Forall (fun e => id_of e.2 <> 0) (runnable m) ->
  (drain (S (length (_eventMap m))) m).1 = (fun e => id_of e.2) <$> runnable m /\
  _eventMap (drain (S (length (_eventMap m))) m).2 = pending m.
Proof.
  intros Hs Hid. pose proof (drain_spec (S (length (_eventMap m))) m Hs Hid ltac:(lia)) as H.
  destruct (drain _ m). apply H.
Qed.

Lemma drain_in_order_witness :
  let m := Update 600 (ScheduleEvent 8 300 0 0 (ScheduleEvent 9 900 0 0 (ScheduleEvent 7 500 3 0 EventMap_new))) in
  (drain (S (length (_eventMap m))) m).1 = (fun e => id_of e.2) <$> runnable m /\
  _eventMap (drain (S (length (_eventMap m))) m).2 = pending m.
Proof.
  apply drain_in_order; [by repeat constructor|].
  repeat constructor; vm_compute; discriminate.
Defined.

(** ** Events fire *)

(** A tick of a script: the timer moves on, what is due runs, and the handlers
    schedule further events. *)
Record reaction := mkReaction { ra_id : Z; ra_time : Z; ra_group : Z; ra_phase : Z }.
Definition react (m : EventMap) (r : reaction) : EventMap :=
  ScheduleEvent (ra_id r) (ra_time r) (ra_group r) (ra_phase r) m.
Definition tick (m : EventMap) (diff : Z) (rs : list reaction) : list Z * EventMap :=
  let m1 := Update diff m in
  let '(ran, m2) := drain (S (length (_eventMap m1))) m1 in (ran, fold_left react rs m2).
Fixpoint ticks (m : EventMap) (l : list (Z * list reaction)) : list Z :=
  match l with
  | [] => []
  | (diff, rs) :: l' => let '(ran, m') := tick m diff rs in ran ++ ticks m' l'
  end.

Definition reaction_ok (r : reaction) : Prop :=
  0 < ra_id r < 2 ^ 16 /\ is_u 32 (ra_group r) /\ is_u 8 (ra_phase r).
Fixpoint elapsed (l : list (Z * list reaction)) : Z :=
  match l with [] => 0 | (d, _) :: l' => d + elapsed l' end.

(** A map whose events have ids. *)
Definition armed (m : EventMap) : Prop :=
  mm_sorted (_eventMap m) /\ Forall (fun e => id_of e.2 <> 0) (_eventMap m).

Lemma armed_react m r : armed m -> reaction_ok r -> armed (react m r).
Proof.
  intros [Hs Hi] (Hid & Hg & Hp). split; cbn; [by apply mm_insert_sorted|]. rewrite mm_insert_perm.
  constructor; [|done]. cbn. rewrite id_of_event_word; [lia|unfold is_u; lia|done|done].
Qed.
Lemma react_keeps rs : forall m e, armed m -> Forall reaction_ok rs -> e ∈ _eventMap m ->
  let m' := fold_left react rs m in
  armed m' /\ e ∈ _eventMap m' /\ _time m' = _time m /\ _phase m' = _phase m.
Proof.
  induction rs as [|r rs IH]; intros m e Ha Hr He; cbn [fold_left]; [done|].
  inversion Hr as [|? ? Hr1 Hr2]; subst. apply (IH (react m r) e); [by apply armed_react|done|].
  cbn. rewrite mm_insert_perm. by right.
Qed.
Lemma drain_frame fuel : forall m, _time (drain fuel m).2 = _time m /\ _phase (drain fuel m).2 = _phase m.
Proof.
  induction fuel as [|fuel IH]; intros m; cbn [drain]; [done|]. unfold ExecuteEvent.
  destruct (execute_loop _ _ _ _) as [r [l last]]. destruct (r =? 0); [done|].
  pose proof (IH (mkEM (_time m) (_phase m) l last)) as H. by destruct (drain fuel _).
Qed.

(** C31. A scheduled event fires: as long as nobody cancels or delays it or
    leaves its phase and the 32-bit timer does not wrap, it runs in one of the
    ticks as soon as they have moved the timer by its delay, whatever else is
    scheduled meanwhile. *)
Theorem event_fires l : forall m t w,
  armed m -> (t, w) ∈ _eventMap m -> blocked (_phase m) w = false ->
  Forall (fun d => 0 <= d.1 /\ Forall reaction_ok d.2) l ->
  0 <= _time m -> t <= _time m + elapsed l < 2 ^ 32 -> _time m < t ->
  id_of w ∈ ticks m l.
Proof.
  induction l as [|[d rs] l IH]; intros m t w Ha He Hb Hl H0 Ht Hlt; cbn [elapsed ticks] in *; [lia|].
  inversion Hl as [|? ? [Hd Hrs] Hl']; subst. cbn [fst snd] in *.
  assert (0 <= elapsed l).
  { clear -Hl'. induction Hl' as [|[] ? [] ]; cbn in *; lia. }
  unfold tick. set (m1 := Update d m).
  assert (Ht1 : _time m1 = _time m + d) by (apply wrap_small; unfold is_u; lia).
  assert (Ha1 : armed m1) by exact Ha. destruct Ha1 as [Hs1 Hi1].
  assert (Hi1' : Forall (fun e => id_of e.2 <> 0) (runnable m1)).
  { unfold runnable, due. by do 2 apply Forall_filter. }
  pose proof (drain_spec (S (length (_eventMap m1))) m1 Hs1 Hi1' ltac:(lia)) as Hdr.
  pose proof (drain_frame (S (length (_eventMap m1))) m1) as [Hf1 Hf2].
  destruct (drain _ m1) as [ran m2]. cbn [snd] in *. destruct Hdr as [-> Hm2].
  apply elem_of_app. destruct (decide (t <= _time m1)) as [Hdue|Hnot].
  - left. apply list_elem_of_fmap. exists (t, w). split; [done|].
    unfold runnable, due. rewrite !list_elem_of_filter. auto.
  - right. assert (Ha2 : armed m2).
    { split; rewrite Hm2; unfold pending; [by apply mm_sorted_filter|by apply Forall_filter]. }
    destruct (react_keeps rs m2 (t, w) Ha2 Hrs) as (Ha3 & He3 & Ht3 & Hp3).
    { rewrite Hm2. unfold pending. apply list_elem_of_filter. split; [cbn [fst]; lia|done]. }
    apply (IH _ t w Ha3 He3); [by rewrite Hp3, Hf2|done|lia..].
Qed.

Lemma event_fires_witness :
  let m := ScheduleEvent 7 500 3 0 EventMap_new in
  7 ∈ ticks m [(200, [mkReaction 9 100 0 0]); (200, []); (200, [])].
Proof.
  intros m. apply (event_fires _ m 500 (event_word 7 3 0)); try done.
  - split; [by repeat constructor|]. repeat constructor; vm_compute; discriminate.
  - vm_compute. left.
  - repeat constructor; unfold is_u; cbn; lia.
Defined.

(** ** Delaying a group *)

Definition delay_entry (delay group : Z) (e : Z * Z) : Z * Z :=
  if in_group group e.2 then (u32 (e.1 + delay), e.2) else e.

Lemma delay_loop_perm delay group l delayed :
  let '(kept, d) := delay_loop delay group l delayed in
  d ++ kept ≡ₚ delayed ++ (delay_entry delay group <$> l) /\
  kept = filter (fun e => in_group group e.2 = false) l.
Proof.
  revert delayed. induction l as [|[t w] l IH]; intros delayed; [done|]. simpl.
  rewrite filter_cons. simpl. assert (delay_entry delay group (t, w) =
    if in_group group w then (u32 (t + delay), w) else (t, w)) as -> by done.
  destruct (in_group group w) eqn:E.
  - specialize (IH (mm_insert (u32 (t + delay)) w delayed)).
    destruct (delay_loop _ _ _ _) as [kept d]. destruct IH as [IH ->]. rewrite decide_False by done.
    split; [|done]. rewrite IH, mm_insert_perm. simpl. by rewrite <- Permutation_middle.
  - specialize (IH delayed). destruct (delay_loop _ _ _ _) as [kept d]. destruct IH as [IH ->].
    rewrite decide_True by done. split; [|done].
    by rewrite <- (Permutation_middle d), <- (Permutation_middle delayed), IH.
Qed.

(** Delaying a group moves exactly the events of that group, each by the
    delay, neither losing nor duplicating any event, and the map stays in the
    order of its times. *)
Lemma delay_group delay group m :
  1 <= group <= 8 -> mm_sorted (_eventMap m) ->
  let m' := DelayEvents_group delay group m in
  _eventMap m' ≡ₚ delay_entry delay group <$> _eventMap m /\ mm_sorted (_eventMap m') /\
  _time m' = _time m /\ _phase m' = _phase m /\ _lastEvent m' = _lastEvent m.
Proof.
  intros Hg Hs. unfold DelayEvents_group.
  assert (in_1_8 group = true) as -> by (apply in_1_8_range; unfold is_u; lia). simpl.
  destruct (Empty m) eqn:Ee; [unfold Empty in Ee; by destruct (_eventMap m)|].
  pose proof (delay_loop_perm delay group (_eventMap m) []) as H.
  destruct (delay_loop _ _ _ _) as [kept d]. destruct H as [Hp ->]. simpl.
  split_and!; [by rewrite mm_insert_all_perm, Hp|auto with multimap|done..].
Qed.

Lemma delay_group_witness :
  let m' := DelayEvents_group 1000 3 (ScheduleEvent 7 500 3 0 EventMap_new) in
  _eventMap m' ≡ₚ delay_entry 1000 3 <$> [(500, 262151)] /\ mm_sorted (_eventMap m') /\
  _time m' = 0 /\ _phase m' = 0 /\ _lastEvent m' = 0.
Proof.
  apply (delay_group 1000 3 (ScheduleEvent 7 500 3 0 EventMap_new)); [lia|by repeat constructor].
Defined.

(** ** What every map satisfies *)

Inductive em_op :=
| EReset | EUpdate (time : Z) | ESetPhase (phase : Z) | EAddPhase (phase : Z) | ERemovePhase (phase : Z)
| ESchedule (eventId time group phase : Z) | EReschedule (eventId time group phase : Z)
| ERepeat (time : Z) | EExecute | EDelay (delay : Z) | EDelayGroup (delay group : Z)
| ECancel (eventId : Z) | ECancelGroup (group : Z) | ECancelGCD (gcd : Z).

Definition em_run (op : em_op) (m : EventMap) : EventMap :=
  match op with
  | EReset => Reset m
  | EUpdate t => Update t m
  | ESetPhase p => SetPhase p m
  | EAddPhase p => AddPhase p m
  | ERemovePhase p => RemovePhase p m
  | ESchedule i t g p => ScheduleEvent i t g p m
  | EReschedule i t g p => RescheduleEvent i t g p m
  | ERepeat t => Repeat t m
  | EExecute => (ExecuteEvent m).2
  | EDelay d => DelayEvents d m
  | EDelayGroup d g => DelayEvents_group d g m
  | ECancel i => CancelEvent i m
  | ECancelGroup g => CancelEventGroup g m
  | ECancelGCD g => (CancelEventsByGCD g m).2
  end.

(** Event ids are words; the other arguments may be anything. *)
Definition em_arg (op : em_op) : Prop :=
  match op with ESchedule i _ _ _ | EReschedule i _ _ _ => is_u 32 i | _ => True end.

Definition entry_wf (e : Z * Z) : Prop := is_u 32 e.1 /\ is_u 32 e.2.

Record em_wf (m : EventMap) : Prop := {
  wf_sorted : mm_sorted (_eventMap m);
  wf_entries : Forall entry_wf (_eventMap m);
  wf_time : is_u 32 (_time m);
  wf_phase : is_u 8 (_phase m);
  wf_last : is_u 32 (_lastEvent m) }.

Lemma word_u32 eventId group phase : is_u 32 eventId -> is_u 32 (event_word eventId group phase).
Proof. intros He. unfold event_word. repeat case_match; auto with machine. Qed.

Lemma em_wf_map m l :
  em_wf m -> mm_sorted l -> Forall entry_wf l -> em_wf (set_map l m).
Proof. intros [] ? ?. by constructor. Qed.

Lemma em_wf_insert m t w :
  em_wf m -> is_u 32 w -> em_wf (set_map (mm_insert (u32 t) w (_eventMap m)) m).
Proof.
  intros H Hw. apply em_wf_map; [done|apply mm_insert_sorted, H|]. rewrite mm_insert_perm.
  constructor; [|apply H]. split; [by apply wrap_range|done].
Qed.

Lemma em_wf_filter m (P : Z * Z -> Prop) `{forall e, Decision (P e)} :
  em_wf m -> em_wf (set_map (filter P (_eventMap m)) m).
Proof.
  intros H'. apply em_wf_map; [done|apply mm_sorted_filter, H'|]. apply Forall_forall.
  intros e [_ He]%list_elem_of_filter. pose proof (wf_entries m H') as Hf. rewrite Forall_forall in Hf.
  auto.
Qed.

Lemma em_wf_cancel m i : em_wf m -> em_wf (CancelEvent i m).
Proof. rewrite CancelEvent_spec. by apply em_wf_filter. Qed.

Lemma em_wf_execute m : em_wf m -> em_wf (ExecuteEvent m).2.
Proof.
  intros [Hs He Ht Hp Hl]. unfold ExecuteEvent.
  assert (let '(_, (l, last)) := execute_loop (_time m) (_phase m) (_lastEvent m) (_eventMap m) in
          mm_sorted l /\ Forall entry_wf l /\ is_u 32 last) as H.
  { revert Hs He. induction (_eventMap m) as [|[t w] l IH]; intros Hs He; simpl; [done|].
    pose proof (mm_sorted_tail _ _ Hs). inversion He as [|? ? [] ?]; subst.
    destruct (t >? _); [done|]. destruct (blocked _ w); [by apply IH|done]. }
  destruct (execute_loop _ _ _ _) as [r [l last]]. destruct H as (? & ? & ?). by constructor.
Qed.

Lemma em_wf_delay_group m d g : em_wf m -> em_wf (DelayEvents_group d g m).
Proof.
  intros H. unfold DelayEvents_group. destruct (_ || _); [done|].
  pose proof (delay_loop_perm d g (_eventMap m) []) as Hd.
  destruct (delay_loop _ _ _ _) as [kept dl]. destruct Hd as [Hp ->].
  apply em_wf_map; [done|apply mm_insert_all_sorted, mm_sorted_filter, H|].
  rewrite mm_insert_all_perm, Hp. simpl. apply Forall_fmap.
  eapply Forall_impl; [apply H|]. intros e [He1 He2]. simpl. unfold delay_entry.
  case_match; [|done]. split; [by apply wrap_range|done].
Qed.

(** Whatever a script does to an event map, its entries stay in the order
    of their times, every time, word and the timer stay within 32 bits, and
    the phase mask within 8. *)
Theorem em_invariant ops :
  Forall em_arg ops -> em_wf (foldl (fun m op => em_run op m) EventMap_new ops).
Proof.
  assert (em_wf EventMap_new) as H0 by (by repeat constructor).
  intros Ha. revert H0. generalize EventMap_new. induction Ha as [|op ops Hop _ IH]; intros m H; [done|].
  simpl. apply IH. pose proof H as [Hs He Ht Hp Hl]. clear IH. destruct op; simpl in *.
  - by constructor; simpl; auto; constructor.
  - constructor; simpl; auto. by apply wrap_range.
  - unfold SetPhase. repeat case_match; try done; constructor; simpl; auto with machine.
  - unfold AddPhase. case_match; [|done]. constructor; simpl; auto with machine.
  - unfold RemovePhase. case_match; [|done]. constructor; simpl; auto with machine.
  - apply em_wf_insert; [done|]. by apply word_u32.
  - apply (em_wf_insert (CancelEvent eventId m)); [by apply em_wf_cancel|]. by apply word_u32.
  - by apply em_wf_insert.
  - by apply em_wf_execute.
  - constructor; simpl; auto. case_match; auto with machine.
  - by apply em_wf_delay_group.
  - by apply em_wf_cancel.
  - unfold CancelEventGroup. rewrite erase_loop_filter. case_match; [done|]. by apply em_wf_filter.
  - unfold CancelEventsByGCD. case_match; [done|]. rewrite gcd_fuel_enough. by apply em_wf_filter.
Qed.

(** ** An agenda

    What an event map is meant to be: a list of appointments with an id, a
    group and a phase in the order of their times, and the set of the phases
    that are on.  Groups and phases are numbers from 1 to 8, others mean none. *)

Record item := mkItem { it_id : Z; it_group : Z; it_phase : Z }.
Record Agenda := mkAgenda { ag_now : Z; ag_phases : gset Z; ag_items : list (Z * item); ag_last : item }.
Definition Agenda_new : Agenda := mkAgenda 0 ∅ [] (mkItem 0 0 0).

Definition numbered (x : Z) : Prop := 1 <= x <= 8.
(** Some phase is on, and it is not that of the item. *)
Definition waits (phases : gset Z) (i : item) : Prop := phases <> ∅ /\ numbered (it_phase i) /\ it_phase i ∉ phases.
#[global] Instance numbered_dec x : Decision (numbered x).
Proof. unfold numbered. apply _. Defined.
#[global] Instance waits_dec phases i : Decision (waits phases i).
Proof. unfold waits. apply _. Defined.

(** The first item that is not to be thrown away: one that is not due stays,
    one that is due is taken. *)
Definition ag_next (a : Agenda) : option item * list (Z * item) :=
  match list_find (fun e => ag_now a < e.1 \/ ~ waits (ag_phases a) e.2) (ag_items a) with
  | None => (None, [])
  | Some (n, e) => if bool_decide (ag_now a < e.1) then (None, drop n (ag_items a)) else (Some e.2, drop (S n) (ag_items a))
  end.
Definition ag_set (f : list (Z * item) -> list (Z * item)) (a : Agenda) : Agenda :=
  mkAgenda (ag_now a) (ag_phases a) (f (ag_items a)) (ag_last a).
Definition ag_turn (f : gset Z -> gset Z) (a : Agenda) : Agenda :=
  mkAgenda (ag_now a) (f (ag_phases a)) (ag_items a) (ag_last a).
Definition ag_clock (t : Z) (a : Agenda) : Agenda := mkAgenda t (ag_phases a) (ag_items a) (ag_last a).
Definition ag_add (time : Z) (i : item) (a : Agenda) : Agenda := ag_set (mm_insert (u32 (ag_now a + time)) i) a.
Definition ag_drop (P : item -> Prop) `{forall i, Decision (P i)} : Agenda -> Agenda := ag_set (filter (fun e => ~ P e.2)).
(** The items of a group move by the delay, behind others of the same time. *)
Definition ag_move (delay group : Z) (l : list (Z * item)) : list (Z * item) :=
  let moved := (fun e => (u32 (e.1 + delay), e.2)) <$> filter (fun e => it_group e.2 = group) l in
  mm_insert_all (mm_insert_all moved []) (filter (fun e => it_group e.2 <> group) l).

Definition ag_run (op : em_op) (a : Agenda) : Agenda :=
  match op with
  | EReset => mkAgenda 0 ∅ [] (ag_last a)
  | EUpdate t => ag_clock (u32 (ag_now a + t)) a
  | ESetPhase p => if bool_decide (p = 0) then ag_turn (fun _ => ∅) a
                   else if bool_decide (numbered p) then ag_turn (fun _ => {[p]}) a else a
  | EAddPhase p => if bool_decide (numbered p) then ag_turn (fun ps => {[p]} ∪ ps) a else a
  | ERemovePhase p => if bool_decide (numbered p) then ag_turn (fun ps => ps ∖ {[p]}) a else a
  | ESchedule i t g p => ag_add t (mkItem i g p) a
  | EReschedule i t g p => ag_add t (mkItem i g p) (ag_drop (fun x => it_id x = i) a)
  | ERepeat t => ag_add t (ag_last a) a
  | EExecute => let '(r, l) := ag_next a in mkAgenda (ag_now a) (ag_phases a) l (default (ag_last a) r)
  | EDelay d => ag_clock (if d <? ag_now a then u32 (ag_now a - d) else 0) a
  | EDelayGroup d g => if bool_decide (numbered g) then ag_set (ag_move d g) a else a
  | ECancel i => ag_drop (fun x => it_id x = i) a
  | ECancelGroup g => if bool_decide (numbered g) then ag_drop (fun x => it_group x = g) a else a
  | ECancelGCD c => if bool_decide (c < 8) then ag_drop (fun x => it_group x = c + 1) a
                    else ag_drop (fun x => it_phase x = c - 7) a
  end.
(** The arguments at their widths; ids of 16 bits, as the header demands, and a
    cooldown whose bit there is. *)
Definition em_fits (op : em_op) : Prop :=
  match op with
  | ESetPhase p | EAddPhase p | ERemovePhase p => is_u 8 p
  | ESchedule i _ g p | EReschedule i _ g p => is_u 16 i /\ is_u 32 g /\ is_u 8 p
  | EDelayGroup _ g | ECancelGroup g => is_u 32 g
  | ECancelGCD c => 0 <= c < 16
  | _ => True
  end.

(** How an event map represents an agenda. *)
Definition word_of (i : item) : Z := event_word (it_id i) (it_group i) (it_phase i).
Definition item_ok (i : item) : Prop := is_u 16 (it_id i) /\ is_u 32 (it_group i) /\ is_u 8 (it_phase i).
Definition stored : Z * item -> Z * Z := prod_map id word_of.
Definition mask_of (phases : gset Z) (mask : Z) : Prop :=
  is_u 8 mask /\ (forall i, 0 <= i < 8 -> Z.testbit mask i = bool_decide (i + 1 ∈ phases)) /\ set_Forall numbered phases.
Record represents (a : Agenda) (m : EventMap) : Prop := {
  rp_time : _time m = ag_now a; rp_phase : mask_of (ag_phases a) (_phase m);
  rp_items : _eventMap m = stored <$> ag_items a; rp_ok : Forall (fun e => item_ok e.2) (ag_items a);
  rp_last : _lastEvent m = word_of (ag_last a); rp_last_ok : item_ok (ag_last a) }.

(** *** Words *)

Lemma numbered_1_8 x : is_u 32 x -> in_1_8 x = bool_decide (numbered x).
Proof. intros Hx. apply Bool.eq_iff_eq_true. by rewrite in_1_8_range, bool_decide_eq_true. Qed.
Lemma u8_u32 x : is_u 8 x -> is_u 32 x.
Proof. by apply (is_u_mono 8 32). Qed.
Lemma id_of_word i : item_ok i -> id_of (word_of i) = it_id i.
Proof. intros (? & ? & ?). by apply id_of_event_word. Qed.
Lemma in_group_word g i : numbered g -> item_ok i -> in_group g (word_of i) = bool_decide (it_group i = g).
Proof.
  intros Hg (? & ? & ?). unfold word_of. rewrite in_group_event_word by done.
  apply Bool.eq_iff_eq_true. rewrite Z.eqb_eq, bool_decide_eq_true. split; congruence.
Qed.
(** The byte of the phase: the bit of the phase, if there is one. *)
Lemma phase_byte i k : item_ok i -> 0 <= k < 8 ->
  Z.testbit (Z.shiftr (word_of i) 24) k = bool_decide (numbered (it_phase i) /\ k = it_phase i - 1).
Proof.
  intros (Hi & Hg & Hp) Hk. unfold word_of. rewrite Z.shiftr_spec, event_word_bit, (testbit_high 16 (it_id i)) by (done || lia). cbn [orb].
  rewrite !numbered_1_8 by (done || by apply u8_u32). apply Bool.eq_iff_eq_true.
  rewrite orb_true_iff, !andb_true_iff, !bool_decide_eq_true, !Z.eqb_eq. unfold numbered. lia.
Qed.
Lemma land_empty a b : 0 <= a -> (forall k, 0 <= k -> Z.testbit a k = true -> Z.testbit b k = false) -> truth (Z.land a b) = false.
Proof.
  intros Ha H. unfold truth. enough (Z.land a b = 0) as -> by done. apply Z.bits_inj'. intros k Hk. rewrite Z.land_spec, Z.bits_0.
  destruct (Z.testbit a k) eqn:E; [by rewrite H|done].
Qed.
Lemma land_common a b k : 0 <= k -> Z.testbit a k = true -> Z.testbit b k = true -> truth (Z.land a b) = true.
Proof.
  intros Hk Ha Hb. unfold truth. destruct (Z.eqb_spec (Z.land a b) 0) as [E|]; [|done].
  assert (Z.testbit (Z.land a b) k = true) as H by (by rewrite Z.land_spec, Ha, Hb). by rewrite E, Z.bits_0 in H.
Qed.
Lemma phase_part i : item_ok i -> truth (Z.land (word_of i) 0xFF000000) = bool_decide (numbered (it_phase i)).
Proof.
  intros Hok. pose proof Hok as (Hi & Hg & Hp). assert (Hm : forall k, 0 <= k -> Z.testbit 0xFF000000 k = (24 <=? k) && (k <? 32)).
  { intros k Hk. change 0xFF000000 with (Z.shiftl (Z.ones 8) 24). rewrite Z.shiftl_spec by done. destruct (Z.leb_spec 24 k); cbn [andb].
    - rewrite Z.testbit_ones_nonneg by lia. apply Bool.eq_iff_eq_true. rewrite !Z.ltb_lt. lia.
    - by apply Z.testbit_neg_r; lia. }
  assert (Hw : forall k, 0 <= k < 8 -> Z.testbit (word_of i) (k + 24) = bool_decide (numbered (it_phase i) /\ k = it_phase i - 1)).
  { intros k Hk. rewrite <- phase_byte by done. by rewrite Z.shiftr_spec by lia. }
  case_bool_decide as Hn.
  - apply (land_common _ _ (it_phase i - 1 + 24)); unfold numbered in *; [lia| |].
    + rewrite Hw by lia. by apply bool_decide_eq_true.
    + rewrite Hm by lia. apply andb_true_iff. rewrite Z.leb_le, Z.ltb_lt. lia.
  - rewrite Z.land_comm. apply land_empty; [done|]. intros k Hk. rewrite Hm, andb_true_iff, Z.leb_le, Z.ltb_lt by done. intros ?.
    replace k with (k - 24 + 24) by lia. rewrite Hw by lia. apply bool_decide_eq_false. tauto.
Qed.
(** *** Phases *)

Lemma mask_empty : mask_of ∅ 0.
Proof. split; [done|]. split; [|done]. intros i _. by rewrite Z.bits_0, bool_decide_eq_false_2. Qed.
Lemma mask_nonempty phases mask : mask_of phases mask -> truth mask = bool_decide (phases <> ∅).
Proof.
  intros (Hu & Hb & Hn). case_bool_decide as He.
  - destruct (set_choose_L phases He) as [x Hx]. pose proof (Hn x Hx) as Hr. unfold numbered in Hr.
    rewrite <- (Z.land_diag mask). apply (land_common _ _ (x - 1)); [lia|..]; rewrite Hb by lia; apply bool_decide_eq_true; by replace (x - 1 + 1) with x by lia.
  - subst phases. unfold truth. enough (mask = 0) as -> by done. apply Z.bits_inj'. intros k Hk. rewrite Z.bits_0.
    destruct (Z.lt_ge_cases k 8); [by rewrite Hb|by apply (testbit_high 8)].
Qed.
Lemma blocked_word phases mask i : mask_of phases mask -> item_ok i -> blocked mask (word_of i) = bool_decide (waits phases i).
Proof.
  intros Hm Hi. unfold blocked. rewrite (mask_nonempty _ _ Hm), phase_part by done. destruct Hm as (Hu & Hb & Hn).
  symmetry. destruct (decide (phases <> ∅)) as [He|He];
    [|rewrite (bool_decide_eq_false_2 (phases <> ∅)) by done; apply bool_decide_eq_false; by intros [? _]].
  rewrite (bool_decide_eq_true_2 (phases <> ∅)) by done. destruct (decide (numbered (it_phase i))) as [Hp|Hp];
    [|rewrite (bool_decide_eq_false_2 (numbered _)) by done; apply bool_decide_eq_false; by intros (_ & ? & _)].
  rewrite (bool_decide_eq_true_2 (numbered _)) by done. cbn [andb]. pose proof Hp as Hr. unfold numbered in Hr.
  destruct (decide (it_phase i ∈ phases)) as [Hin|Hin].
  - rewrite (land_common _ _ (it_phase i - 1)), bool_decide_eq_false_2; [done|by intros (_ & _ & ?)|lia|..].
    + rewrite phase_byte by (done || lia). by apply bool_decide_eq_true.
    + rewrite Hb by lia. apply bool_decide_eq_true. by replace (it_phase i - 1 + 1) with (it_phase i) by lia.
  - rewrite bool_decide_eq_true_2 by done. rewrite Z.land_comm, land_empty; [done|apply Hu|]. intros k Hk Hbit.
    destruct (Z.lt_ge_cases k 8); [|by rewrite (testbit_high 8 mask) in Hbit]. rewrite phase_byte by (done || lia).
    apply bool_decide_eq_false. intros [_ ->]. rewrite Hb in Hbit by lia. apply bool_decide_eq_true in Hbit.
    replace (it_phase i - 1 + 1) with (it_phase i) in Hbit by lia. done.
Qed.
Lemma mask_single p : numbered p -> mask_of {[p]} (u8 (Z.shiftl 1 (p - 1))).
Proof.
  unfold numbered. intros Hp. rewrite Z.shiftl_1_l. assert (Hs : is_u 8 (2 ^ (p - 1))).
  { split; [lia|]. apply Z.pow_lt_mono_r; lia. }
  rewrite wrap_small by done. split; [done|]. split; [|by intros x ->%elem_of_singleton]. intros i Hi. rewrite Z.pow2_bits_eqb by lia.
  apply Bool.eq_iff_eq_true. rewrite Z.eqb_eq, bool_decide_eq_true, elem_of_singleton. lia.
Qed.
Lemma mask_add p phases mask : numbered p -> mask_of phases mask -> mask_of ({[p]} ∪ phases) (u8 (Z.lor mask (u8 (Z.shiftl 1 (p - 1))))).
Proof.
  intros Hp (Hu & Hb & Hn). destruct (mask_single p Hp) as (Su & Sb & Sn).
  assert (Ho : is_u 8 (Z.lor mask (u8 (Z.shiftl 1 (p - 1))))) by auto with machine. rewrite wrap_small by done. split; [done|]. split.
  - intros i Hi. rewrite Z.lor_spec, Hb, Sb by done. apply Bool.eq_iff_eq_true. rewrite orb_true_iff, !bool_decide_eq_true, elem_of_union. tauto.
  - intros x [Hx|Hx]%elem_of_union; auto.
Qed.
Lemma mask_remove p phases mask : numbered p -> mask_of phases mask -> mask_of (phases ∖ {[p]}) (u8 (Z.land mask (u8 (Z.lnot (Z.shiftl 1 (p - 1)))))).
Proof.
  intros Hp (Hu & Hb & Hn). pose proof Hp as Hr. unfold numbered in Hr.
  assert (Ho : is_u 8 (Z.land mask (u8 (Z.lnot (Z.shiftl 1 (p - 1)))))) by auto with machine. rewrite wrap_small by done. split; [done|]. split.
  - intros i Hi. rewrite Z.land_spec, Hb by done. unfold wrap. rewrite Z.mod_pow2_bits_low, Z.lnot_spec, Z.shiftl_1_l, Z.pow2_bits_eqb by lia.
    apply Bool.eq_iff_eq_true. rewrite andb_true_iff, negb_true_iff, Z.eqb_neq, !bool_decide_eq_true, elem_of_difference, elem_of_singleton.
    split; intros [? H]; (split; [done|]); lia.
  - intros x [Hx _]%elem_of_difference. auto.
Qed.

(** *** Operations *)

Definition items_ok (l : list (Z * item)) : Prop := Forall (fun e => item_ok e.2) l.

Lemma stored_filter (P : Z * Z -> Prop) (Q : Z * item -> Prop) `{forall e, Decision (P e), forall e, Decision (Q e)} l :
  items_ok l -> (forall e, item_ok e.2 -> P (stored e) <-> Q e) -> filter P (stored <$> l) = stored <$> filter Q l.
Proof.
  intros Hl HPQ. induction Hl as [|e l He _ IH]; [done|]. rewrite fmap_cons, !filter_cons, IH. pose proof (HPQ e He).
  destruct (decide (P (stored e))), (decide (Q e)); [done|tauto|tauto|done].
Qed.
Lemma no_item : item_ok (mkItem 0 0 0).
Proof. by repeat split. Qed.
Lemma items_insert k i l : item_ok i -> items_ok l -> items_ok (mm_insert k i l).
Proof. intros Hi Hl. unfold items_ok. rewrite mm_insert_perm. by constructor. Qed.
Lemma items_move d g l : items_ok l -> items_ok (ag_move d g l).
Proof.
  intros Hl. unfold items_ok, ag_move. rewrite !mm_insert_all_perm, app_nil_r. apply Forall_app. split; [|by apply Forall_filter].
  apply Forall_fmap. eapply Forall_impl; [by apply Forall_filter|]. done.
Qed.
Lemma execute_next now phases mask last l : mask_of phases mask -> items_ok l ->
  let '(r, rest) := ag_next (mkAgenda now phases l last) in
  execute_loop now mask (word_of last) (stored <$> l) = (from_option it_id 0 r, (stored <$> rest, word_of (default last r)))
  /\ items_ok rest /\ item_ok (default (mkItem 0 0 0) r).
Proof.
  intros Hm Hl. pose proof no_item as H0. unfold ag_next. cbn [ag_now ag_phases ag_items].
  induction Hl as [|[t i] l Hi Hl IH]; [cbn; split_and!; [done|constructor|done]|]. cbn [fmap list_fmap list_find stored prod_map execute_loop fst snd id] in *.
  rewrite (blocked_word phases mask i Hm Hi), Z.gtb_ltb. destruct (Z.ltb_spec now t) as [Hlt|Hge].
  - rewrite decide_True by auto. rewrite bool_decide_true by done. split; [done|]. split; [by constructor|done].
  - case_bool_decide as Hw.
    + rewrite decide_False by (intros [?|?]; [lia|done]). destruct (list_find _ l) as [[n e]|]; cbn -[bool_decide] in *; [|exact IH].
      destruct (bool_decide (now < e.1)); exact IH.
    + rewrite decide_True by auto. rewrite bool_decide_false by (cbn; lia). cbn. by rewrite drop_0, id_of_word.
Qed.
Lemma delay_loop_spec d g l : forall acc, delay_loop d g l acc =
  (filter (fun e => in_group g e.2 = false) l, mm_insert_all ((fun e => (u32 (e.1 + d), e.2)) <$> filter (fun e => in_group g e.2 = true) l) acc).
Proof.
  induction l as [|[t w] l IH]; intros acc; [done|]. cbn [delay_loop]. rewrite !filter_cons. cbn [snd].
  destruct (in_group g w) eqn:E; rewrite IH.
  - by rewrite decide_False, decide_True by done.
  - by rewrite decide_True, decide_False by done.
Qed.
Lemma stored_later d (l : list (Z * item)) :
  (fun e : Z * Z => (u32 (e.1 + d), e.2)) <$> (stored <$> l) = stored <$> ((fun e : Z * item => (u32 (e.1 + d), e.2)) <$> l).
Proof. by rewrite <- !list_fmap_compose. Qed.
Lemma cooldown_bit c i : 0 <= c < 16 -> item_ok i ->
  truth (Z.land (word_of i) (u32 (Z.shiftl 1 (c + 16)))) = if decide (c < 8) then bool_decide (it_group i = c + 1) else bool_decide (it_phase i = c - 7).
Proof.
  intros Hc Hi. destruct (decide (c < 8)).
  - replace (c + 16) with (c + 1 + 15) by lia. apply (in_group_word (c + 1) i); [unfold numbered; lia|done].
  - rewrite truth_bit by lia. replace (c + 16) with (c - 8 + 24) by lia. rewrite <- Z.shiftr_spec, phase_byte by (done || lia).
    apply bool_decide_ext. unfold numbered. lia.
Qed.

Lemma represents_set a m l f : represents a m -> l = stored <$> f (ag_items a) -> items_ok (f (ag_items a)) -> represents (ag_set f a) (set_map l m).
Proof. by intros [] -> ?. Qed.
Lemma represents_turn a m p f : represents a m -> mask_of (f (ag_phases a)) p -> represents (ag_turn f a) (set_phase p m).
Proof. by intros [] ?. Qed.
Lemma represents_add a m t i : represents a m -> item_ok i ->
  represents (ag_add t i a) (set_map (mm_insert (u32 (_time m + t)) (word_of i) (_eventMap m)) m).
Proof.
  intros [R1 R2 R3 R4 R5 R6] Hi. apply represents_set; [done| |by apply items_insert]. rewrite R1, R3. apply (mm_insert_fmap word_of).
Qed.
Lemma represents_drop a m (P : item -> Prop) `{forall i, Decision (P i)} l : represents a m ->
  (items_ok (ag_items a) -> l = stored <$> filter (fun e => ~ P e.2) (ag_items a)) -> represents (ag_drop P a) (set_map l m).
Proof. intros Hr Hl. apply represents_set; [done|apply Hl, Hr|]. apply Forall_filter, Hr. Qed.
Lemma represents_cancel a m i : represents a m -> represents (ag_drop (fun x => it_id x = i) a) (CancelEvent i m).
Proof.
  intros Hr. rewrite CancelEvent_spec. apply represents_drop; [done|]. intros Hok. rewrite (rp_items _ _ Hr).
  apply stored_filter; [done|]. intros [t x] Hx. cbn. rewrite id_of_word by done. rewrite Z.eqb_neq. split; congruence.
Qed.

Lemma agenda_step op a m : em_fits op -> represents a m -> represents (ag_run op a) (em_run op m).
Proof.
  intros Ha Hr. pose proof Hr as [R1 R2 R3 R4 R5 R6].
  destruct op; cbn [em_fits ag_run em_run] in *.
  - split; cbn; first [done|apply mask_empty].
  - split; cbn; by rewrite ?R1.
  - unfold SetPhase. case_bool_decide as H0; [subst; by apply represents_turn, mask_empty|].
    assert (negb (truth phase) = false) as -> by (unfold truth; by apply negb_false_iff, negb_true_iff, Z.eqb_neq). unfold is_u in Ha.
    case_bool_decide as Hp; unfold numbered in Hp.
    + rewrite (proj2 (Z.leb_le phase 8)) by lia. by apply (represents_turn _ _ _ (fun _ => {[phase]})), mask_single.
    + by rewrite (proj2 (Z.leb_gt phase 8)) by lia.
  - unfold AddPhase. rewrite numbered_1_8 by (by apply u8_u32). case_bool_decide; [|done]. by apply (represents_turn _ _ _ (fun ps => {[phase]} ∪ ps)), mask_add.
  - unfold RemovePhase. rewrite numbered_1_8 by (by apply u8_u32). case_bool_decide; [|done]. by apply (represents_turn _ _ _ (fun ps => ps ∖ {[phase]})), mask_remove.
  - by apply represents_add.
  - by apply (represents_add (ag_drop _ _) (CancelEvent eventId m)); [apply represents_cancel|].
  - unfold Repeat. rewrite R5. by apply represents_add.
  - unfold ExecuteEvent. rewrite R1, R3, R5. pose proof (execute_next (ag_now a) _ _ (ag_last a) _ R2 R4) as H.
    replace (mkAgenda (ag_now a) (ag_phases a) (ag_items a) (ag_last a)) with a in H by (by destruct a).
    destruct (ag_next a) as [r rest]. destruct H as (-> & Hok & Hit). split; cbn; try done. by destruct r.
  - unfold DelayEvents. rewrite R1. by split.
  - unfold DelayEvents_group. rewrite numbered_1_8 by done. case_bool_decide as Hg; cbn [negb orb]; [|done].
    destruct (Empty m) eqn:He.
    { unfold Empty in He. destruct (_eventMap m) eqn:E; [|done]. symmetry in R3. apply fmap_nil_inv in R3.
      assert (ag_set (ag_move delay group) a = a) as -> by (unfold ag_set; rewrite R3; destruct a; cbn in *; by subst). done. }
    rewrite delay_loop_spec. apply represents_set; [done| |by apply items_move]. unfold ag_move.
    rewrite R3, (stored_filter _ (fun e => it_group e.2 = group)), (stored_filter _ (fun e => it_group e.2 <> group)); try exact R4.
    + by rewrite stored_later, <- (mm_insert_all_fmap word_of), <- (mm_insert_all_fmap word_of).
    + intros [t x] Hx. cbn. rewrite in_group_word by done. by rewrite bool_decide_eq_false.
    + intros [t x] Hx. cbn. rewrite in_group_word by done. by rewrite bool_decide_eq_true.
  - by apply represents_cancel.
  - case_bool_decide as Hg; [|unfold CancelEventGroup; rewrite numbered_1_8 by done; by rewrite bool_decide_false by done].
    rewrite CancelEventGroup_spec by done. apply represents_drop; [done|]. intros Hok. rewrite R3. apply stored_filter; [done|].
    intros [t x] Hx. cbn. rewrite in_group_word by done. by rewrite bool_decide_eq_false.
  - unfold CancelEventsByGCD. rewrite wrap_small by (unfold is_u; lia). rewrite (proj2 (Z.leb_gt 32 _)) by lia.
    rewrite gcd_fuel_enough. cbn [snd]. case_bool_decide as Hc; apply represents_drop; try done; intros Hok; rewrite R3; apply stored_filter; try done;
      intros [t x] Hx; cbn [stored prod_map snd]; rewrite cooldown_bit by (done || lia); destruct (decide (gcd < 8)); try lia; by rewrite bool_decide_eq_false.
Qed.

(** C34. An event map is an agenda.  Whatever operations are made on it (the ids
    of events have 16 bits and cooldowns are below 16), the multimap of packed
    words holds exactly the items of the agenda on which the same is done, with
    id, group and phase, in the same order, and the mask the phases that are on:
    cancelling an id, a group or a cooldown (one below 8 is the group with the
    next number, others are phases) removes exactly its items, delaying a group
    moves exactly its own, rescheduling and repeating add one; and what
    [ExecuteEvent] returns next is the id of the first item that is due and in
    phase, or 0. *)
Theorem agenda_refined ops :
  Forall em_fits ops ->
  let m := foldl (fun m op => em_run op m) EventMap_new ops in
  let a := foldl (fun a op => ag_run op a) Agenda_new ops in
  represents a m /\ (ExecuteEvent m).1 = from_option it_id 0 (ag_next a).1.
Proof.
  intros Hops m a. assert (represents a m) as Hr.
  { subst a m. assert (represents Agenda_new EventMap_new) as H0 by (split; first [done|apply mask_empty|apply no_item|constructor]).
    revert H0. generalize Agenda_new, EventMap_new. induction Hops as [|op ops Hop _ IH]; intros a m H; [done|]. apply IH. by apply agenda_step. }
  clearbody a m. split; [done|]. destruct Hr as [R1 R2 R3 R4 R5 R6]. unfold ExecuteEvent. rewrite R1, R3, R5.
  pose proof (execute_next (ag_now a) _ _ (ag_last a) _ R2 R4) as H.
  replace (mkAgenda (ag_now a) (ag_phases a) (ag_items a) (ag_last a)) with a in H by (by destruct a).
  destruct (ag_next a) as [r rest]. by destruct H as (-> & _).
Qed.

(** A boss in its second phase: the event of the first is thrown away. *)
Definition boss : list em_op :=
  [ESchedule 7 500 3 1; ESchedule 8 500 2 2; ESchedule 9 400 3 0; ESetPhase 2; EDelayGroup 200 3; ECancelGCD 7; EUpdate 600].
Lemma agenda_refined_witness :
  represents (mkAgenda 600 {[2]} [(500, mkItem 8 2 2); (600, mkItem 9 3 0); (700, mkItem 7 3 1)] (mkItem 0 0 0)) (foldl (fun m op => em_run op m) EventMap_new boss)
  /\ (ExecuteEvent (foldl (fun m op => em_run op m) EventMap_new boss)).1 = 8.
Proof.
  apply (agenda_refined boss). repeat constructor; cbn; unfold is_u; lia.
Defined.

