(* ===== verification/EventProcessor.v ===== *)
(** * EventProcessor: timed events of world objects

    Model of [src/framework/Utilities/EventProcessor.h] and
    [EventProcessor.cpp].  Events are heap objects the queue points to, so the
    model keeps the heap: a freed event is gone from it and touching it is
    undefined behaviour.  The virtual methods of events are a record of
    functions over the whole state, since a callback may add events, abort
    others, or kill the queue. *)

From S2P Require Import Prelude Multimap.

Local Open Scope prog_scope.

Inductive AbortState := STATE_RUNNING | STATE_ABORT_SCHEDULED | STATE_ABORTED.

#[global] Instance AbortState_eq_dec : EqDecision AbortState.
Proof. solve_decision. Defined.

Record BasicEvent := mkEvent {
  m_abortState : AbortState;
  m_addTime : Z;
  m_execTime : Z }.

Definition BasicEvent_new : BasicEvent := mkEvent STATE_RUNNING 0 0.
Definition IsRunning (e : BasicEvent) : bool := bool_decide (m_abortState e = STATE_RUNNING).
Definition IsAbortScheduled (e : BasicEvent) : bool := bool_decide (m_abortState e = STATE_ABORT_SCHEDULED).
Definition IsAborted (e : BasicEvent) : bool := bool_decide (m_abortState e = STATE_ABORTED).
Definition set_state (a : AbortState) (e : BasicEvent) : BasicEvent :=
  mkEvent a (m_addTime e) (m_execTime e).

Section processor.
Context {W : Type}.

(** A processor, the events allocated, and the rest of the world. *)
Record EventProcessor := mkEP {
  m_time : Z;
  m_events : list (Z * Z);
  heap : gmap Z BasicEvent;
  world : W }.

Definition set_events l s := mkEP (m_time s) l (heap s) (world s).
Definition set_heap h s := mkEP (m_time s) (m_events s) h (world s).

Definition EPM (A : Type) : Type := St EventProcessor Empty_set A.

(** [event->...]: an event that has been freed cannot be used. *)
Definition deref (x : Z) : EPM BasicEvent := fun s =>
  match heap s !! x with Some e => (Ok e, s) | None => (UB, s) end.
Definition assign (x : Z) (e : BasicEvent) : EPM unit := fun s =>
  match heap s !! x with Some _ => (Ok tt, set_heap (<[x := e]> (heap s)) s) | None => (UB, s) end.
Definition delete_event (x : Z) : EPM unit := fun s =>
  match heap s !! x with Some _ => (Ok tt, set_heap (delete x (heap s)) s) | None => (UB, s) end.
Definition assert (b : bool) : EPM unit := fun s => if b then (Ok tt, s) else (Abort, s).

Definition ScheduleAbort (x : Z) : EPM unit :=
  let! e := deref x in
  assert (IsRunning e) ;;;
  assign x (set_state STATE_ABORT_SCHEDULED e).

Definition SetAborted (x : Z) : EPM unit :=
  let! e := deref x in
  assert (negb (IsAborted e)) ;;;
  assign x (set_state STATE_ABORTED e).

Definition CalculateTime (t_offset : Z) (s : EventProcessor) : Z := u64 (m_time s + t_offset).

Definition AddEvent (x e_time : Z) (set_addtime : bool) : EPM unit :=
  let! e := deref x in
  let! now := st_get m_time in
  assign x (mkEvent (m_abortState e) (if set_addtime then now else m_addTime e) e_time) ;;;
  st_mod (fun s => set_events (mm_insert e_time x (m_events s)) s).

Definition AddEventAtOffset (x offset : Z) : EPM unit :=
  let! t := st_get (CalculateTime offset) in AddEvent x t true.

Definition HasScheduledEvent (s : EventProcessor) : bool :=
  match m_events s with [] => false | _ => true end.

(** The virtual methods of [BasicEvent], by event. *)
Record Methods := mkMethods {
  Execute : Z -> Z -> Z -> EPM bool;
  IsDeletable : Z -> EventProcessor -> bool;
  OnAbort : Z -> Z -> EPM unit }.

Section methods.
Context (M : Methods).

(** The body of the loop of [Update], for the event [x] just taken off. *)
Definition update_one (x p_time : Z) : EPM unit :=
  let! e := deref x in
  if IsRunning e then
    let! now := st_get m_time in
    let! done := Execute M x now p_time in
    if done then delete_event x else st_ret tt
  else
    (if IsAbortScheduled e then
       let! now := st_get m_time in
       OnAbort M x now ;;; SetAborted x
     else st_ret tt) ;;;
    let! deletable := st_get (IsDeletable M x) in
    if deletable then delete_event x
    else let! t := st_get (CalculateTime 1) in AddEvent x t false.

Fixpoint update_loop (fuel : nat) (p_time : Z) : EPM unit :=
  match fuel with
  | O => fun s => (Diverge, s)
  | S fuel' => fun s =>
      match m_events s with
      | (t, x) :: l =>
          if t <=? m_time s then
            (st_mod (set_events l) ;;; update_one x p_time ;;; update_loop fuel' p_time) s
          else (Ok tt, s)
      | [] => (Ok tt, s)
      end
  end.

Definition Update (fuel : nat) (p_time : Z) : EPM unit :=
  st_mod (fun s => mkEP (u64 (m_time s + p_time)) (m_events s) (heap s) (world s)) ;;;
  update_loop fuel p_time.

(** The entry behind that of [x]. *)
Fixpoint next_of (x : Z) (l : list (Z * Z)) : option Z :=
  match l with
  | [] => None
  | (_, y) :: l' => if y =? x then snd <$> head l' else next_of x l'
  end.

(** The loop of [KillAllEvents]; the iterator is the event it points to. *)
Fixpoint kill_loop (fuel : nat) (force : bool) (itr : option Z) : EPM unit :=
  match fuel with
  | O => fun s => (Diverge, s)
  | S fuel' =>
      match itr with
      | None => st_ret tt
      | Some x =>
          let! e := deref x in
          (if negb (IsAborted e) then
             SetAborted x ;;; let! now := st_get m_time in OnAbort M x now
           else st_ret tt) ;;;
          let! deletable := st_get (IsDeletable M x) in
          if negb force && negb deletable then
            let! nxt := st_get (fun s => next_of x (m_events s)) in
            kill_loop fuel' force nxt
          else
            delete_event x ;;;
            let! nxt := st_get (fun s => next_of x (m_events s)) in
            (if force then st_ret tt
             else st_mod (fun s => set_events (filter (fun e => e.2 <> x) (m_events s)) s)) ;;;
            kill_loop fuel' force nxt
      end
  end.

Definition KillAllEvents (fuel : nat) (force : bool) : EPM unit :=
  let! first := st_get (fun s => snd <$> head (m_events s)) in
  kill_loop fuel force first ;;;
  if force then st_mod (set_events []) else st_ret tt.
End methods.
End processor.
Arguments EventProcessor W : clear implicits.
Arguments Methods W : clear implicits.
Arguments EPM W A : clear implicits.

(** ** What callbacks must respect *)

Section safety.
Context {W : Type}.
Implicit Types s : EventProcessor W.

Definition queue s : list Z := (m_events s).*2.
Definition due s : list (Z * Z) := filter (fun e => e.1 <= m_time s) (m_events s).

(** Entries in time order, each event queued once and allocated, the clock
    clear of the end of its range by the largest offset. *)
Record ep_wf s : Prop := {
  ep_sorted : mm_sorted (m_events s);
  ep_nodup : NoDup (queue s);
  ep_allocated : forall x, x ∈ queue s -> is_Some (heap s !! x);
  ep_clock : 0 <= m_time s /\ m_time s + 2 ^ 32 < 2 ^ 64 }.

(** Allocated and not queued. *)
Definition detached (x : Z) s : Prop := is_Some (heap s !! x) /\ x ∉ queue s.

(** From [s], a callback may do anything to the world, add events for later
    and drop others; it neither turns the clock nor adds events already due. *)
Definition evolves s s' : Prop :=
  ep_wf s' /\ m_time s' = m_time s /\ due s' `sublist_of` due s.

(** The contract of the virtual methods: an event that asks to be deleted is
    allocated and off the queue when [Execute] returns; [Abort] leaves its
    event alone. *)
Class WellBehaved (M : Methods W) := {
  execute_law : forall x t p s, ep_wf s -> detached x s ->
    exists b s', Execute M x t p s = (Ok b, s') /\ evolves s s' /\ (b = true -> detached x s');
  abort_law : forall x t s e, ep_wf s -> x ∉ queue s -> heap s !! x = Some e -> IsAborted e = false ->
    exists s' e', OnAbort M x t s = (Ok tt, s') /\ evolves s s' /\ (x ∉ queue s') /\
      heap s' !! x = Some e' /\ IsAborted e' = false }.

Lemma evolves_refl s : ep_wf s -> evolves s s.
Proof. intros H. by split_and!. Qed.

Lemma evolves_trans s1 s2 s3 : evolves s1 s2 -> evolves s2 s3 -> evolves s1 s3.
Proof.
  intros (_ & Ht1 & Hd1) (H & Ht2 & Hd2). split_and!; [done|congruence|by etrans].
Qed.

Lemma ep_wf_heap h s :
  ep_wf s -> (forall x, x ∈ queue s -> is_Some (h !! x)) -> ep_wf (set_heap h s).
Proof. intros [] ?. by constructor. Qed.

Lemma delete_event_spec x s :
  ep_wf s -> detached x s -> exists s', delete_event x s = (Ok tt, s') /\ evolves s s'.
Proof.
  intros H [[e He] Hq]. unfold delete_event. rewrite He. eexists. split; [done|].
  split_and!; [|done|done]. apply ep_wf_heap; [done|]. intros y Hy.
  rewrite lookup_delete_ne by congruence. by apply H.
Qed.

Lemma AddEvent_spec x t b s :
  ep_wf s -> detached x s -> m_time s < t ->
  exists s', AddEvent x t b s = (Ok tt, s') /\ evolves s s'.
Proof.
  intros H [[e He] Hq] Ht. unfold AddEvent, st_bind, deref, assign. rewrite He. simpl. rewrite He.
  simpl. eexists. split; [done|]. destruct H as [Hs Hn Ha Hc].
  assert (Permutation ((mm_insert t x (m_events s)).*2) (x :: queue s)) as Hp
    by (by rewrite mm_insert_perm).
  split_and!; [|done|unfold due; simpl; by rewrite mm_insert_due].
  constructor; simpl; auto with multimap.
  - unfold queue. simpl. rewrite Hp. by constructor.
  - unfold queue. simpl. intros y. rewrite Hp, elem_of_cons. intros [->|Hy].
    + rewrite lookup_insert_eq. eauto.
    + rewrite lookup_insert_ne by congruence. by apply Ha.
Qed.

Lemma SetAborted_spec x e s :
  ep_wf s -> heap s !! x = Some e -> IsAborted e = false ->
  exists s', SetAborted x s = (Ok tt, s') /\ evolves s s' /\ m_events s' = m_events s /\
    heap s' = <[x := set_state STATE_ABORTED e]> (heap s).
Proof.
  intros H He Ha. unfold SetAborted, st_bind, deref, assert, assign. rewrite He, Ha. simpl.
  rewrite He. eexists. split; [done|]. split_and!; [|done..]. split_and!; [|done|done].
  apply ep_wf_heap; [done|]. intros y Hy. destruct (decide (y = x)) as [->|].
  - rewrite lookup_insert_eq. eauto.
  - rewrite lookup_insert_ne by done. by apply H.
Qed.

Section wellbehaved.
Context (M : Methods W) `{!WellBehaved M}.

Lemma CalculateTime_1 s : ep_wf s -> CalculateTime 1 s = m_time s + 1.
Proof. intros [_ _ _ [? ?]]. apply wrap_small. unfold is_u. lia. Qed.

(** The tail of an event that does not run: free it or queue it again. *)
Lemma retire_spec x s :
  ep_wf s -> detached x s ->
  exists s', (let! deletable := st_get (IsDeletable M x) in
              if deletable : bool then delete_event x
              else let! t := st_get (CalculateTime 1) in AddEvent x t false) s = (Ok tt, s') /\
    evolves s s'.
Proof.
  intros H Hx. rewrite st_bind_get. destruct (IsDeletable M x s); [by apply delete_event_spec|].
  rewrite st_bind_get, CalculateTime_1 by done. apply AddEvent_spec; [done|done|lia].
Qed.

Lemma update_one_spec x p s :
  ep_wf s -> detached x s -> exists s', update_one M x p s = (Ok tt, s') /\ evolves s s'.
Proof.
  intros H Hx. destruct Hx as [[e He] Hq] eqn:Ex. clear Ex. unfold update_one.
  rewrite (st_bind_ok _ _ _ e s) by (unfold deref; by rewrite He).
  destruct (IsRunning e) eqn:Er.
  - rewrite st_bind_get. destruct (execute_law x (m_time s) p s H Hx) as (b & s1 & H1 & E1 & Hb).
    rewrite (st_bind_ok _ _ _ _ _ H1). destruct b.
    + destruct (delete_event_spec x s1) as (s2 & H2 & E2); [apply E1|auto|].
      exists s2. split; [done|]. by eapply evolves_trans.
    + by exists s1.
  - destruct (IsAbortScheduled e) eqn:Es; [|by rewrite st_bind_ret; apply retire_spec].
    destruct (abort_law x (m_time s) s e H Hq He) as (s1 & e1 & H1 & E1 & Hq1 & He1 & Ha1).
    { unfold IsAborted, IsAbortScheduled in *. apply bool_decide_eq_true in Es. by rewrite Es. }
    rewrite st_bind_assoc, st_bind_get, st_bind_assoc, (st_bind_ok _ _ _ _ _ H1).
    destruct (SetAborted_spec x e1 s1) as (s2 & H2 & E2 & Hm2 & Hh2); [apply E1|done|done|].
    rewrite (st_bind_ok _ _ _ _ _ H2).
    destruct (retire_spec x s2) as (s3 & H3 & E3); [apply E2| |].
    + split; [rewrite Hh2, lookup_insert_eq; eauto|]. unfold queue. by rewrite Hm2.
    + exists s3. split; [done|]. eapply evolves_trans; [|done]. by eapply evolves_trans.
Qed.

(** Taking the first entry off. *)
Lemma pop_spec t x l s :
  ep_wf s -> m_events s = (t, x) :: l -> t <= m_time s ->
  ep_wf (set_events l s) /\ detached x (set_events l s) /\ due s = (t, x) :: due (set_events l s).
Proof.
  intros [Hs Hn Ha Hc] Hl Ht. unfold queue in *. rewrite Hl in *. simpl in *.
  apply NoDup_cons in Hn as [Hx Hn]. split_and!.
  - constructor; simpl; auto; [by apply mm_sorted_tail in Hs|].
    intros y Hy. apply Ha. by constructor.
  - split; [apply Ha; by constructor|done].
  - unfold due. rewrite Hl, filter_cons_True by done. done.
Qed.

Lemma update_loop_spec fuel p s :
  ep_wf s -> (length (due s) < fuel)%nat ->
  exists s', update_loop M fuel p s = (Ok tt, s') /\ evolves s s' /\ due s' = [].
Proof.
  revert s. induction fuel as [|fuel IH]; intros s H Hf; [lia|]. simpl.
  destruct (m_events s) as [|[t x] l] eqn:El.
  { exists s. split_and!; [done|by apply evolves_refl|unfold due; by rewrite El]. }
  destruct (Z.leb_spec t (m_time s)) as [Ht|Ht].
  - destruct (pop_spec t x l s H El Ht) as (H1 & Hx & Hd). rewrite Hd in Hf. simpl in Hf.
    rewrite st_bind_mod.
    destruct (update_one_spec x p _ H1 Hx) as (s2 & H2 & E2). rewrite (st_bind_ok _ _ _ _ _ H2).
    destruct (IH s2) as (s3 & H3 & E3 & D3); [apply E2| |].
    + destruct E2 as (_ & _ & Hsub). apply sublist_length in Hsub. lia.
    + exists s3. split_and!; [done| |done]. eapply evolves_trans; [|done].
      destruct E2 as (? & ? & Hsub). split_and!; [done|done|]. rewrite Hd. by apply sublist_cons.
  - exists s. split_and!; [done|by apply evolves_refl|]. unfold due. rewrite El. apply filter_none.
    eapply Forall_impl; [apply (mm_sorted_above (m_time s)); [rewrite <- El; apply H|done]|].
    simpl. lia.
Qed.
End wellbehaved.
End safety.

(** C10. As long as event callbacks keep their contract, [Update] terminates,
    never touches a freed event, frees nothing twice and fails no assertion;
    when it returns no event that was due is left, and the queue is again in
    time order with every event in it allocated and queued once. *)
Theorem update_safe {W} (M : Methods W) (HM : WellBehaved M) p_time s :
  ep_wf s -> 0 <= p_time -> m_time s + p_time + 2 ^ 32 < 2 ^ 64 ->
  exists s', Update M (S (length (m_events s))) p_time s = (Ok tt, s') /\
    ep_wf s' /\ m_time s' = m_time s + p_time /\ due s' = [].
Proof.
  intros H Hp Hc. unfold Update. rewrite st_bind_mod. destruct H as [Hs Hn Ha [Ht _]].
  rewrite wrap_small by (unfold is_u; lia).
  destruct (update_loop_spec M (S (length (m_events s))) p_time
    (mkEP (m_time s + p_time) (m_events s) (heap s) (world s))) as (s' & H' & (E & Et & _) & D).
  - constructor; simpl; auto. lia.
  - unfold due. simpl. pose proof (length_filter (fun e => e.1 <= m_time s + p_time) (m_events s)). lia.
  - by exists s'.
Qed.

(** ** Order of execution *)

Section order.
Context {W : Type} (M : Methods W) (log : W -> list Z).

(** Methods that also record which event ran, kill nothing and abort
    nothing that is due. *)
Class Recording := {
  recording_wellbehaved :: WellBehaved M;
  record_law : forall x t p s, ep_wf s -> detached x s ->
    let s' := (Execute M x t p s).2 in
    log (world s') = log (world s) ++ [x] /\ due s' = due s /\
    (forall y, y ∈ (due s).*2 -> heap s' !! y = heap s !! y) }.

Context {HR : Recording}.

Definition all_running (s : EventProcessor W) : Prop :=
  forall x, x ∈ (due s).*2 -> exists e, heap s !! x = Some e /\ IsRunning e = true.

Lemma due_queue x (s : EventProcessor W) : x ∈ (due s).*2 -> x ∈ queue s.
Proof.
  unfold due, queue. intros ([t y] & -> & [_ Hy]%list_elem_of_filter)%list_elem_of_fmap.
  apply list_elem_of_fmap. by exists (t, y).
Qed.

Lemma update_one_order x e p s :
  ep_wf s -> detached x s -> heap s !! x = Some e -> IsRunning e = true ->
  exists s', update_one M x p s = (Ok tt, s') /\ evolves s s' /\
    log (world s') = log (world s) ++ [x] /\ due s' = due s /\
    (forall y, y ∈ (due s).*2 -> heap s' !! y = heap s !! y).
Proof.
  intros H Hx He Hr. unfold update_one. rewrite (st_bind_ok _ _ _ e s) by (unfold deref; by rewrite He).
  rewrite Hr, st_bind_get.
  destruct (execute_law x (m_time s) p s H Hx) as (b & s1 & H1 & E1 & Hb).
  destruct (record_law x (m_time s) p s H Hx) as (Hl & Hd & Hh). rewrite H1 in Hl, Hd, Hh. simpl in *.
  rewrite (st_bind_ok _ _ _ _ _ H1). destruct b; [|by exists s1].
  destruct (Hb eq_refl) as [[e1 He1] Hq1]. unfold delete_event. rewrite He1.
  eexists. split; [done|]. split_and!; [|done|done|].
  - eapply evolves_trans; [done|]. destruct (delete_event_spec x s1) as (s2 & H2 & E2);
      [apply E1|by split; eauto|]. unfold delete_event in H2. rewrite He1 in H2. by simplify_eq.
  - intros y Hy. simpl. rewrite lookup_delete_ne; [by apply Hh|]. intros ->.
    apply Hq1, due_queue. by rewrite Hd.
Qed.

Lemma update_loop_order fuel p s :
  ep_wf s -> all_running s -> (length (due s) < fuel)%nat ->
  exists s', update_loop M fuel p s = (Ok tt, s') /\ log (world s') = log (world s) ++ (due s).*2.
Proof.
  revert s. induction fuel as [|fuel IH]; intros s H Hr Hf; [lia|]. simpl.
  destruct (m_events s) as [|[t x] l] eqn:El.
  { exists s. split; [done|]. unfold due. by rewrite El, app_nil_r. }
  destruct (Z.leb_spec t (m_time s)) as [Ht|Ht].
  - destruct (pop_spec t x l s H El Ht) as (H1 & Hx & Hd). rewrite Hd in Hf. simpl in Hf.
    destruct (Hr x) as (e & He & Hre); [rewrite Hd; by left|]. rewrite st_bind_mod.
    destruct (update_one_order x e p _ H1 Hx He Hre) as (s2 & H2 & E2 & Hl2 & Hd2 & Hh2).
    rewrite (st_bind_ok _ _ _ _ _ H2). destruct (IH s2) as (s3 & H3 & Hl3).
    + apply E2.
    + intros y Hy. rewrite Hd2 in Hy. rewrite Hh2 by done. apply (Hr y). rewrite Hd. by right.
    + rewrite Hd2. lia.
    + exists s3. split; [done|]. rewrite Hl3, Hl2, Hd2, Hd. simpl. by rewrite <- app_assoc.
  - exists s. split; [done|]. unfold due. rewrite El, filter_none; [by rewrite app_nil_r|].
    eapply Forall_impl; [apply (mm_sorted_above (m_time s)); [rewrite <- El; apply H|done]|].
    simpl. lia.
Qed.
End order.

(** [Update] runs the events that are due, all of them, once each, in the
    order of their times; events of equal time run in the order they were
    added.  (Stated for callbacks that record themselves and abort nothing.) *)
Theorem update_order {W} (M : Methods W) log (HR : Recording M log) p_time s :
  ep_wf s -> 0 <= p_time -> m_time s + p_time + 2 ^ 32 < 2 ^ 64 ->
  (forall x e, heap s !! x = Some e -> IsRunning e = true) ->
  exists s', Update M (S (length (m_events s))) p_time s = (Ok tt, s') /\
    log (world s') = log (world s) ++ (filter (fun e => e.1 <= m_time s + p_time) (m_events s)).*2.
Proof.
  intros H Hp Hc Hr. unfold Update. rewrite st_bind_mod. destruct H as [Hs Hn Ha [Ht _]].
  rewrite wrap_small by (unfold is_u; lia). apply (update_loop_order M log).
  - constructor; simpl; auto. lia.
  - intros x Hx%due_queue. destruct (Ha x Hx) as [e He]. exists e. eauto.
  - unfold due. simpl. pose proof (length_filter (fun e => e.1 <= m_time s + p_time) (m_events s)). lia.
Qed.

(** ** Killing all events *)

Section killing.
Context {W : Type} (M : Methods W) (deletable : Z -> bool).

(** Events whose [Abort] leaves the processor alone and which always give the
    same answer to [IsDeletable]. *)
Class Detachable := {
  deletable_law : forall x s, IsDeletable M x s = deletable x;
  quiet_abort_law : forall x t s, exists w,
    OnAbort M x t s = (Ok tt, mkEP (m_time s) (m_events s) (heap s) w) }.

Context {HD : Detachable}.

Lemma next_of_app x t pre rest :
  x ∉ pre.*2 -> next_of x (pre ++ (t, x) :: rest) = snd <$> head rest.
Proof.
  intros Hx. induction pre as [|[u y] pre IH]; simpl in *; [by rewrite Z.eqb_refl|].
  apply not_elem_of_cons in Hx as [Hne Hx]. rewrite (proj2 (Z.eqb_neq y x)) by congruence. auto.
Qed.

Lemma filter_other x (l : list (Z * Z)) : x ∉ l.*2 -> filter (fun e => e.2 <> x) l = l.
Proof.
  intros Hx. apply filter_all, Forall_forall. intros e He Heq. apply Hx. rewrite <- Heq.
  by apply list_elem_of_fmap_2.
Qed.

Definition survives (force : bool) (x : Z) : bool := negb force && negb (deletable x).

(** What becomes of the event [y] of the queue. *)
Definition killed (force : bool) (y : Z) (h h' : gmap Z BasicEvent) : Prop :=
  if survives force y
  then exists e, h !! y = Some e /\ h' !! y = Some (set_state STATE_ABORTED e)
  else h' !! y = None.

Lemma set_aborted_again e : IsAborted e = true -> set_state STATE_ABORTED e = e.
Proof. intros H%bool_decide_eq_true. destruct e; simpl in *; by subst. Qed.

(** Aborting the event the iterator is at. *)
Lemma abort_step {B} x e s (k : unit -> EPM W B) :
  heap s !! x = Some e ->
  exists w, st_bind (if negb (IsAborted e) then
                       SetAborted x ;;; let! now := st_get m_time in OnAbort M x now
                     else st_ret tt) k s =
    k tt (mkEP (m_time s) (m_events s) (<[x := set_state STATE_ABORTED e]> (heap s)) w).
Proof.
  intros He. destruct (IsAborted e) eqn:Ea; simpl.
  - exists (world s). rewrite set_aborted_again, insert_id by done. by destruct s.
  - unfold SetAborted, st_bind, deref, assert, assign, st_get. rewrite He, Ea. simpl. rewrite He. simpl.
    match goal with |- context [OnAbort M x ?t ?s1] => destruct (quiet_abort_law x t s1) as [w Hw] end.
    rewrite Hw. by exists w.
Qed.

(** What stays of an entry in the queue while the loop runs. *)
Definition kept (force : bool) (e : Z * Z) : list (Z * Z) :=
  if force || negb (deletable e.2) then [e] else [].

Lemma kept_filter l : l ≫= kept false = filter (fun e => deletable e.2 = false) l.
Proof.
  induction l as [|e l IH]; [done|]. rewrite filter_cons, <- IH.
  change ((e :: l) ≫= kept false) with (kept false e ++ (l ≫= kept false)). unfold kept at 1. simpl.
  by destruct (deletable e.2).
Qed.

Lemma kill_step fuel force pre t x rest e s :
  m_events s = pre ++ (t, x) :: rest -> x ∉ pre.*2 -> x ∉ rest.*2 -> heap s !! x = Some e ->
  exists s1, kill_loop M (S fuel) force (Some x) s = kill_loop M fuel force (snd <$> head rest) s1 /\
    m_events s1 = pre ++ kept force (t, x) ++ rest /\
    killed force x (heap s) (heap s1) /\ (forall y, y <> x -> heap s1 !! y = heap s !! y).
Proof.
  intros Hm Hx1 Hx2 He. simpl. rewrite (st_bind_ok _ _ _ e s) by (unfold deref; by rewrite He).
  match goal with |- context [st_bind _ ?k s] => destruct (abort_step x e s k He) as [w ->] end.
  rewrite st_bind_get, deletable_law. unfold killed, survives, kept.
  destruct force, (deletable x) eqn:Ed; simpl; rewrite ?Ed; simpl.
  all: unfold st_bind, st_get, delete_event; simpl; rewrite ?lookup_insert_eq; simpl.
  all: rewrite Hm, next_of_app by done; eexists; (split; [reflexivity|]); simpl.
  all: rewrite ?filter_app, ?filter_cons_False, ?filter_other by (simpl; auto); simpl.
  all: rewrite ?lookup_insert_eq, ?lookup_delete_eq; split_and!; eauto.
  all: intros y Hy; by rewrite ?lookup_delete_ne, ?lookup_insert_ne by congruence.
Qed.

Lemma kill_loop_spec fuel force pre rest s :
  m_events s = pre ++ rest -> NoDup (queue s) ->
  (forall x, x ∈ rest.*2 -> is_Some (heap s !! x)) -> (length rest < fuel)%nat ->
  exists s', kill_loop M fuel force (snd <$> head rest) s = (Ok tt, s') /\
    m_events s' = pre ++ (rest ≫= kept force) /\
    (forall y, y ∈ rest.*2 -> killed force y (heap s) (heap s')) /\
    (forall y, y ∉ rest.*2 -> heap s' !! y = heap s !! y).
Proof.
  revert pre rest s. induction fuel as [|fuel IH]; intros pre rest s Hm Hn Ha Hf; [lia|].
  destruct rest as [|[t x] rest].
  { exists s. split_and!; [done..|by intros y ?%elem_of_nil|done]. }
  destruct (Ha x ltac:(by left)) as [e He].
  unfold queue in Hn. rewrite Hm, fmap_app in Hn. simpl in Hn.
  pose proof Hn as (Hn1 & Hx & [Hx2 Hn2]%NoDup_cons)%NoDup_app.
  assert (x ∉ pre.*2) as Hx1 by (intros ?; apply (Hx x); [done|by left]).
  change (snd <$> head ((t, x) :: rest)) with (Some x).
  destruct (kill_step fuel force pre t x rest e s Hm Hx1 Hx2 He) as (s1 & -> & Hm1 & Hk1 & Hh1).
  destruct (IH (pre ++ kept force (t, x)) rest s1) as (s' & H1 & H2 & H3 & H4).
  - by rewrite Hm1, app_assoc.
  - unfold queue. rewrite Hm1, !fmap_app. eapply sublist_NoDup; [exact Hn|].
    apply sublist_app; [done|]. apply (sublist_app _ [x]); [|done].
    unfold kept. case_match; simpl; [done|apply sublist_nil_l].
  - intros y Hy. rewrite Hh1 by (by intros ->). apply Ha. by right.
  - simpl in Hf. lia.
  - exists s'. split_and!; [done|by rewrite H2, <- app_assoc| |].
    + intros y. simpl. rewrite elem_of_cons. intros [->|Hy].
      * unfold killed in *. by rewrite H4.
      * specialize (H3 y Hy). unfold killed in *. by rewrite <- (Hh1 y) by (by intros ->).
    + intros y. simpl. rewrite not_elem_of_cons. intros [Hy1 Hy2]. by rewrite H4, Hh1.
Qed.
End killing.

(** [KillAllEvents(true)], the destructor's clean-up, empties the queue
    and frees every event that was in it exactly once; with [force] off, the
    events that may not be deleted yet stay queued, in their order and marked
    as aborted, and every other event is freed.  Events not in the queue are
    untouched. *)
Theorem kill_all {W} (M : Methods W) deletable (HD : Detachable M deletable) force s :
  NoDup (queue s) -> (forall x, x ∈ queue s -> is_Some (heap s !! x)) ->
  exists s', KillAllEvents M (S (length (m_events s))) force s = (Ok tt, s') /\
    m_events s' = (if force then [] else filter (fun e => deletable e.2 = false) (m_events s)) /\
    (forall y, y ∈ queue s -> killed deletable force y (heap s) (heap s')) /\
    (forall y, y ∉ queue s -> heap s' !! y = heap s !! y).
Proof.
  intros Hn Ha. unfold KillAllEvents. rewrite st_bind_get.
  destruct (kill_loop_spec M deletable (S (length (m_events s))) force [] (m_events s) s)
    as (s1 & H1 & H2 & H3 & H4); [done|done|done|lia|].
  rewrite (st_bind_ok _ _ _ _ _ H1). destruct force; eexists; (split; [reflexivity|]).
  - split_and!; auto.
  - split_and!; auto. by rewrite H2, kept_filter.
Qed.

(** ** A concrete processor

    Events record their execution; those with an even number repeat every 100
    milliseconds, the others run once. *)

Module EPDemo.
Definition M : Methods (list Z) := mkMethods
  (fun x _ _ =>
     st_mod (fun s => mkEP (m_time s) (m_events s) (heap s) (world s ++ [x])) ;;;
     if Z.even x then AddEventAtOffset x 100 ;;; st_ret false else st_ret true)
  (fun _ _ => true)
  (fun _ _ => st_ret tt).

Definition start : EventProcessor (list Z) :=
  mkEP 0 [(10, 1); (20, 2); (20, 3)]
    {[1 := BasicEvent_new; 2 := BasicEvent_new; 3 := BasicEvent_new]} [].

Lemma start_wf : ep_wf start.
Proof.
  constructor; simpl.
  - repeat constructor; simpl; lia.
  - by apply (bool_decide_unpack _).
  - unfold queue. simpl. intros x Hx.
    repeat (apply elem_of_cons in Hx as [->|Hx]; [by eexists|]). by apply elem_of_nil in Hx.
  - lia.
Qed.

Lemma logged x (s : EventProcessor (list Z)) :
  ep_wf s -> ep_wf (mkEP (m_time s) (m_events s) (heap s) (world s ++ [x])).
Proof. intros []. by constructor. Qed.

Lemma later_offset n (s : EventProcessor (list Z)) :
  ep_wf s -> 0 < n < 2 ^ 32 -> m_time s < u64 (m_time s + n).
Proof. intros [_ _ _ [H1 H2]] Hn. rewrite wrap_small by (unfold is_u; lia). lia. Qed.

#[global] Instance M_wellbehaved : WellBehaved M.
Proof.
  split.
  - intros x t p s H Hx. simpl. rewrite st_bind_mod. pose proof (logged x s H) as H1.
    destruct (Z.even x).
    + unfold AddEventAtOffset. rewrite st_bind_assoc, st_bind_get.
      destruct (AddEvent_spec x (CalculateTime 100 (mkEP (m_time s) (m_events s) (heap s) (world s ++ [x])))
        true _ H1 Hx) as (s' & H' & E').
      { apply (later_offset 100 s); [done|lia]. }
      exists false, s'. rewrite (st_bind_ok _ _ _ _ _ H'). by split_and!.
    + exists true. eexists. split; [reflexivity|]. split; [by split_and!|done].
  - intros x t s e H Hq He Ha. simpl. exists s, e. split_and!; try done.
Qed.

#[global] Instance M_detachable : Detachable M (fun _ => true).
Proof. split; [done|]. intros x t s. exists (world s). by destruct s. Qed.

#[global] Instance M_recording : Recording M id.
Proof.
  split; [apply _|]. intros x t p s H Hx. simpl. rewrite st_bind_mod. destruct (Z.even x); [|done].
  destruct Hx as [[e He] Hq].
  unfold AddEventAtOffset, AddEvent, st_bind, st_get, deref, assign. simpl. rewrite He. simpl. rewrite He.
  simpl. split_and!; [done| |].
  - unfold due. simpl. apply mm_insert_due. apply (later_offset 100 s); [done|lia].
  - intros y Hy%due_queue. rewrite lookup_insert_ne; [done|]. by intros ->.
Qed.
End EPDemo.

Lemma update_safe_witness :
  exists s', Update EPDemo.M 4 25 EPDemo.start = (Ok tt, s') /\
    ep_wf s' /\ m_time s' = 25 /\ due s' = [].
Proof.
  apply (update_safe EPDemo.M EPDemo.M_wellbehaved 25 EPDemo.start EPDemo.start_wf); simpl; lia.
Defined.

Lemma update_order_witness :
  exists s', Update EPDemo.M 4 25 EPDemo.start = (Ok tt, s') /\ id (world s') = [1; 2; 3].
Proof.
  apply (update_order EPDemo.M id EPDemo.M_recording 25 EPDemo.start EPDemo.start_wf);
    [simpl; lia|simpl; lia|].
  assert (map_Forall (fun _ e => IsRunning e = true) (heap EPDemo.start)) as H
    by (by apply (bool_decide_unpack _)).
  exact H.
Defined.

Lemma kill_all_witness :
  exists s', KillAllEvents EPDemo.M 4 true EPDemo.start = (Ok tt, s') /\
    m_events s' = [] /\
    (forall y, y ∈ queue EPDemo.start ->
       killed (fun _ => true) true y (heap EPDemo.start) (heap s')) /\
    (forall y, y ∉ queue EPDemo.start -> heap s' !! y = heap EPDemo.start !! y).
Proof.
  apply (kill_all EPDemo.M (fun _ => true) EPDemo.M_detachable true EPDemo.start);
    apply EPDemo.start_wf.
Defined.
