(* ===== verification/AuthCrypt.v ===== *)
(** * AuthCrypt: the header cipher of world connections

    Model of [src/shared/Auth/AuthCrypt.h] and [AuthCrypt.cpp].  [data] is the
    caller's buffer of [len] bytes, changed in place.  The HMAC behind
    [GenerateKey] is a parameter. *)

From S2P Require Import Prelude.

Local Open Scope prog_scope.

Record AuthCrypt := mkCrypt {
  _key : list Z;
  _send_i : Z; _send_j : Z; _recv_i : Z; _recv_j : Z;
  _initialized : bool }.

Definition CRYPTED_SEND_LEN : nat := 4.
Definition CRYPTED_RECV_LEN : nat := 6.

(** The constructor sets [_initialized] only: the counters hold anything. *)
Definition AuthCrypt_new (si sj ri rj : Z) : AuthCrypt := mkCrypt [] si sj ri rj false.
Definition Init (c : AuthCrypt) : AuthCrypt := mkCrypt (_key c) 0 0 0 0 true.
Definition IsInitialized (c : AuthCrypt) : bool := _initialized c.

Definition with_key (key : list Z) (c : AuthCrypt) : AuthCrypt :=
  mkCrypt key (_send_i c) (_send_j c) (_recv_i c) (_recv_j c) (_initialized c).

(** [SetKey(vector)]. *)
Definition SetKey (key : list Z) (c : AuthCrypt) : AuthCrypt :=
  with_key (match key with [] => [0] | _ => key end) c.
(** [SetKey(uint8* key, size_t len)], [key] being the memory behind the pointer. *)
Definition SetKey_ptr (key : list Z) (len : nat) : St AuthCrypt Empty_set unit := fun c =>
  if bool_decide (len <= length key)%nat then
    (Ok tt, with_key (match take len key with [] => [0] | k => k end) c)
  else (UB, c).

(** [GenerateKey]: 20 bytes of digest. *)
Definition SHA_DIGEST_LENGTH : nat := 20.
Definition GenerateKey (digest : list Z) : list Z := take SHA_DIGEST_LENGTH digest.

(** ** The loops

    The cipher state of one direction is the position in the key and the last
    byte on the wire.  [i %= size] with an empty key divides by zero. *)

Record lane := mkLane { lane_i : Z; lane_j : Z }.

(** One turn of each loop on the byte [d]. *)
Definition encrypt_byte (key : list Z) (d : Z) : St lane Empty_set Z := fun l =>
  match key with
  | [] => (UB, l)
  | _ =>
      let i := u8 (lane_i l mod Z.of_nat (length key)) in
      match key !! Z.to_nat i with
      | Some k => let x := u8 (Z.lxor d k + lane_j l) in (Ok x, mkLane (u8 (i + 1)) x)
      | None => (UB, l)
      end
  end.
Definition decrypt_byte (key : list Z) (d : Z) : St lane Empty_set Z := fun l =>
  match key with
  | [] => (UB, l)
  | _ =>
      let i := u8 (lane_i l mod Z.of_nat (length key)) in
      match key !! Z.to_nat i with
      | Some k => (Ok (u8 (Z.lxor (d - lane_j l) k)), mkLane (u8 (i + 1)) d)
      | None => (UB, l)
      end
  end.

(** The first [n] bytes of the buffer, in place. *)
Fixpoint crypt_loop (step : Z -> St lane Empty_set Z) (n : nat) (data : list Z) : St lane Empty_set (list Z) :=
  match n, data with
  | O, _ => st_ret data
  | S n', d :: data' =>
      let! x := step d in
      let! rest := crypt_loop step n' data' in
      st_ret (x :: rest)
  | S _, [] => fun l => (UB, l)
  end.

Definition crypt_state : Type := AuthCrypt * list Z.

Definition EncryptSend : St crypt_state Empty_set unit := fun '(c, data) =>
  if negb (_initialized c) then (Ok tt, (c, data))
  else if bool_decide (length data < CRYPTED_SEND_LEN)%nat then (Ok tt, (c, data))
  else
    match crypt_loop (encrypt_byte (_key c)) CRYPTED_SEND_LEN data (mkLane (_send_i c) (_send_j c)) with
    | (Ok data', l) => (Ok tt, (mkCrypt (_key c) (lane_i l) (lane_j l) (_recv_i c) (_recv_j c) true, data'))
    | (_, l) => (UB, (mkCrypt (_key c) (lane_i l) (lane_j l) (_recv_i c) (_recv_j c) true, data))
    end.

Definition DecryptRecv : St crypt_state Empty_set unit := fun '(c, data) =>
  if negb (_initialized c) then (Ok tt, (c, data))
  else if bool_decide (length data < CRYPTED_RECV_LEN)%nat then (Ok tt, (c, data))
  else
    match crypt_loop (decrypt_byte (_key c)) CRYPTED_RECV_LEN data (mkLane (_recv_i c) (_recv_j c)) with
    | (Ok data', l) => (Ok tt, (mkCrypt (_key c) (_send_i c) (_send_j c) (lane_i l) (lane_j l) true, data'))
    | (_, l) => (UB, (mkCrypt (_key c) (_send_i c) (_send_j c) (lane_i l) (lane_j l) true, data))
    end.

(** ** Totality and inversion *)

Section lanes.
Context (key : list Z) (Hk : key <> []).
Context (Hu8 : Forall (is_u 8) key).

Definition lane_wf (l : lane) : Prop := is_u 8 (lane_i l) /\ is_u 8 (lane_j l).

(** The key byte a lane uses next. *)
Lemma key_byte l : lane_wf l ->
  exists k, key !! Z.to_nat (u8 (lane_i l mod Z.of_nat (length key))) = Some k /\ is_u 8 k.
Proof.
  intros [[H0 H1] _]. assert (0 < Z.of_nat (length key)) by (destruct key; [done|simpl; lia]).
  pose proof (Z.mod_pos_bound (lane_i l) (Z.of_nat (length key)) ltac:(lia)).
  pose proof (Z.mod_le (lane_i l) (Z.of_nat (length key)) ltac:(lia) ltac:(lia)).
  rewrite wrap_small by (unfold is_u in *; lia).
  destruct (lookup_lt_is_Some_2 key (Z.to_nat (lane_i l mod Z.of_nat (length key)))) as [k Hkk]; [lia|].
  exists k. split; [done|]. rewrite Forall_lookup in Hu8. by apply (Hu8 _ _ Hkk).
Qed.

(** Undoing one byte: the wire byte is [(d ^ k) + j] and [((d ^ k) + j - j) ^ k = d]. *)
Lemma crypt_byte_inverse d k j :
  is_u 8 d -> is_u 8 k -> u8 (Z.lxor (u8 (Z.lxor d k + j) - j) k) = d.
Proof.
  intros Hd Hkk. assert (is_u 8 (Z.lxor d k)) as Hx by auto with machine.
  apply Z.bits_inj'. intros i Hi. destruct (decide (i < 8)) as [Hlt|Hge].
  - unfold wrap. rewrite Z.mod_pow2_bits_low, Z.lxor_spec by done.
    rewrite <- (Z.mod_pow2_bits_low _ 8) by done. rewrite Zminus_mod_idemp_l.
    replace (Z.lxor d k + j - j) with (Z.lxor d k) by lia.
    rewrite Z.mod_pow2_bits_low, Z.lxor_spec by done. by destruct (Z.testbit d i), (Z.testbit k i).
  - unfold wrap. rewrite Z.mod_pow2_bits_high by lia. symmetry. by apply (testbit_high 8); [|lia|].
Qed.

Lemma encrypt_byte_ok d l : lane_wf l -> is_u 8 d ->
  exists x l', encrypt_byte key d l = (Ok x, l') /\ lane_wf l' /\ is_u 8 x /\
    decrypt_byte key x l = (Ok d, l').
Proof.
  intros Hl Hd. destruct (key_byte l Hl) as (k & Hkk & Hk8).
  unfold encrypt_byte, decrypt_byte. rewrite Hkk. destruct key as [|k0 key']; [done|].
  do 2 eexists. split; [reflexivity|]. split_and!.
  - split; simpl; auto with machine.
  - auto with machine.
  - by rewrite crypt_byte_inverse.
Qed.

Lemma crypt_loop_inverse n data l :
  lane_wf l -> Forall (is_u 8) data -> (n <= length data)%nat ->
  exists wire l', crypt_loop (encrypt_byte key) n data l = (Ok wire, l') /\ lane_wf l' /\
    length wire = length data /\ Forall (is_u 8) wire /\ drop n wire = drop n data /\
    crypt_loop (decrypt_byte key) n wire l = (Ok data, l').
Proof.
  revert data l. induction n as [|n IH]; intros data l Hl Hd Hn; [by exists data, l|].
  destruct Hd as [|d data Hd Hds]; [simpl in Hn; lia|].
  destruct (encrypt_byte_ok d l Hl Hd) as (x & l1 & He & Hl1 & Hx & Hdec).
  destruct (IH data l1 Hl1 Hds ltac:(simpl in Hn; lia)) as (wire & l2 & H1 & H2 & H3 & H4 & H5 & H6).
  exists (x :: wire), l2. simpl.
  rewrite !(st_bind_ok _ _ _ _ _ He), (st_bind_ok _ _ _ _ _ H1), (st_bind_ok _ _ _ _ _ Hdec),
    (st_bind_ok _ _ _ _ _ H6). split_and!; simpl; auto.
Qed.
End lanes.

(** A connection after [SetKey] and [Init], at any later time. *)
Record ready (c : AuthCrypt) : Prop := {
  ready_key : _key c <> [];
  ready_u8 : Forall (is_u 8) (_key c);
  ready_send : lane_wf (mkLane (_send_i c) (_send_j c));
  ready_recv : lane_wf (mkLane (_recv_i c) (_recv_j c));
  ready_init : _initialized c = true }.

Lemma SetKey_ready key c :
  Forall (is_u 8) key -> ready (Init (SetKey key c)).
Proof.
  intros Hu. unfold SetKey. destruct key as [|k key].
  - by constructor; simpl; try split; simpl; try (unfold is_u; lia); repeat constructor.
  - by constructor; simpl; try split; simpl; try (unfold is_u; lia).
Qed.

(** Once a key is set and the cipher is initialised, [EncryptSend] never
    divides by zero nor reads past the key, changes the first four bytes only
    (none when the buffer is shorter), and the peer's inverse loop, holding the
    counters this side had, gets the plain header back and ends with the
    counters this side ends with. *)
Theorem encrypt_send_inverse c data :
  ready c -> Forall (is_u 8) data ->
  exists c' wire, EncryptSend (c, data) = (Ok tt, (c', wire)) /\ ready c' /\ _key c' = _key c /\
    length wire = length data /\ drop CRYPTED_SEND_LEN wire = drop CRYPTED_SEND_LEN data /\
    if bool_decide (length data < CRYPTED_SEND_LEN)%nat then wire = data /\ c' = c
    else crypt_loop (decrypt_byte (_key c)) CRYPTED_SEND_LEN wire (mkLane (_send_i c) (_send_j c)) =
           (Ok data, mkLane (_send_i c') (_send_j c')).
Proof.
  intros Hc Hd. pose proof Hc as [H1 H3 H4 H5 H6]. unfold EncryptSend. rewrite H6. simpl negb.
  case_bool_decide as Hn; [by exists c, data|].
  destruct (crypt_loop_inverse (_key c) H1 H3 CRYPTED_SEND_LEN data _ H4 Hd ltac:(lia))
    as (wire & [i j] & He & Hl & Hlen & _ & Hdrop & Hdec).
  rewrite He. do 2 eexists. split; [reflexivity|]. split_and!; try done.
Qed.

Lemma encrypt_send_inverse_witness :
  let c := Init (SetKey [1; 2; 255] (AuthCrypt_new 0 0 0 0)) in
  exists c' wire, EncryptSend (c, [0; 10; 236; 1; 7]) = (Ok tt, (c', wire)) /\ ready c' /\ _key c' = _key c /\
    length wire = 5%nat /\ drop CRYPTED_SEND_LEN wire = [7] /\
    crypt_loop (decrypt_byte (_key c)) CRYPTED_SEND_LEN wire (mkLane 0 0) =
      (Ok [0; 10; 236; 1; 7], mkLane (_send_i c') (_send_j c')).
Proof.
  apply (encrypt_send_inverse (Init (SetKey [1; 2; 255] (AuthCrypt_new 0 0 0 0)))).
  - apply SetKey_ready. repeat constructor; unfold is_u; lia.
  - repeat constructor; unfold is_u; lia.
Defined.

(** What a client puts on the wire for a sequence of packets, and what the
    server makes of it. *)
Fixpoint client_stream (key : list Z) (packets : list (list Z)) : St lane Empty_set (list (list Z)) :=
  match packets with
  | [] => st_ret []
  | p :: ps =>
      let! w := crypt_loop (encrypt_byte key) CRYPTED_RECV_LEN p in
      let! ws := client_stream key ps in
      st_ret (w :: ws)
  end.
Fixpoint server_stream (wires : list (list Z)) (c : AuthCrypt) : option (list (list Z) * AuthCrypt) :=
  match wires with
  | [] => Some ([], c)
  | w :: ws =>
      match DecryptRecv (c, w) with
      | (Ok _, (c', p)) => (fun '(ps, c'') => (p :: ps, c'')) <$> server_stream ws c'
      | _ => None
      end
  end.

Lemma decrypt_recv_inverse c p :
  ready c -> Forall (is_u 8) p -> (CRYPTED_RECV_LEN <= length p)%nat ->
  exists c' w, crypt_loop (encrypt_byte (_key c)) CRYPTED_RECV_LEN p (mkLane (_recv_i c) (_recv_j c)) =
      (Ok w, mkLane (_recv_i c') (_recv_j c')) /\
    DecryptRecv (c, w) = (Ok tt, (c', p)) /\ ready c' /\ _key c' = _key c.
Proof.
  intros Hc Hp Hn. pose proof Hc as [H1 H3 H4 H5 H6].
  destruct (crypt_loop_inverse (_key c) H1 H3 CRYPTED_RECV_LEN p _ H5 Hp Hn)
    as (w & [i j] & He & Hl & Hlen & _ & _ & Hdec).
  exists (mkCrypt (_key c) (_send_i c) (_send_j c) i j true), w. split_and!; [done| |by constructor|done].
  unfold DecryptRecv. rewrite H6. simpl negb. rewrite bool_decide_eq_false_2 by lia. by rewrite Hdec.
Qed.

(** C23. Both ends stay in step: however many packets a client that holds the
    same key sends, the server decrypts every header to what was sent. *)
Theorem crypt_stream c packets :
  ready c -> Forall (fun p => Forall (is_u 8) p /\ (CRYPTED_RECV_LEN <= length p)%nat) packets ->
  exists wires l c', client_stream (_key c) packets (mkLane (_recv_i c) (_recv_j c)) = (Ok wires, l) /\
    server_stream wires c = Some (packets, c') /\ ready c'.
Proof.
  intros Hc Hp. revert c Hc. induction Hp as [|p ps [H8 Hn] _ IH]; intros c Hc.
  - by exists [], (mkLane (_recv_i c) (_recv_j c)), c.
  - destruct (decrypt_recv_inverse c p Hc H8 Hn) as (c1 & w & He & Hd & Hr & Hk).
    destruct (IH c1 Hr) as (ws & l & c2 & H1 & H2 & H3). exists (w :: ws), l, c2. rewrite Hk in H1.
    cbn [client_stream server_stream].
    rewrite (st_bind_ok _ _ _ _ _ He), (st_bind_ok _ _ _ _ _ H1). rewrite Hd, H2. done.
Qed.

Lemma crypt_stream_witness :
  let c := Init (SetKey [1; 2; 255] (AuthCrypt_new 0 0 0 0)) in
  exists wires l c', client_stream [1; 2; 255] [[0; 4; 55; 0; 0; 0]; [0; 8; 1; 2; 3; 4; 9]] (mkLane 0 0) = (Ok wires, l) /\
    server_stream wires c = Some ([[0; 4; 55; 0; 0; 0]; [0; 8; 1; 2; 3; 4; 9]], c') /\ ready c'.
Proof.
  apply (crypt_stream (Init (SetKey [1; 2; 255] (AuthCrypt_new 0 0 0 0)))).
  - apply SetKey_ready. repeat constructor; unfold is_u; lia.
  - repeat constructor; unfold is_u; lia.
Defined.
