(* ===== verification/UpdateMask.v ===== *)
(** * UpdateMask: which fields of an object changed

    Model of [src/game/Objects/UpdateMask.h].  The blocks are 32-bit words that
    [SetBit], [UnsetBit] and [GetBit] address as bytes and [&=] and [|=] as
    words, so the model keeps the bytes and reads a word as the host does, on
    either byte order. *)

From S2P Require Import Prelude ByteBuffer.

Local Open Scope prog_scope.

(** [mUpdateMask]: null, or the bytes it points to. *)
Record UpdateMask := mkUM { mCount : Z; mBlocks : Z; mUpdateMask : option (list Z) }.

Definition UM (A : Type) : Type := St UpdateMask Empty_set A.
Definition set_bytes (bs : list Z) (m : UpdateMask) : UpdateMask := mkUM (mCount m) (mBlocks m) (Some bs).

Definition UpdateMask_new : UpdateMask := mkUM 0 0 None.

(** [((uint8* )mUpdateMask)[i]]. *)
Definition byte_at (i : Z) : UM Z := fun m =>
  match mUpdateMask m with
  | Some bs => match bs !! Z.to_nat i with Some b => (Ok b, m) | None => (UB, m) end
  | None => (UB, m)
  end.
Definition store_byte (i b : Z) : UM unit := fun m =>
  match mUpdateMask m with
  | Some bs => if bool_decide (Z.to_nat i < length bs)%nat
               then (Ok tt, set_bytes (<[Z.to_nat i := b]> bs) m) else (UB, m)
  | None => (UB, m)
  end.

Definition SetBit (index : Z) : UM unit :=
  let! b := byte_at (Z.shiftr index 3) in
  store_byte (Z.shiftr index 3) (u8 (Z.lor b (Z.shiftl 1 (Z.land index 0x7)))).
Definition UnsetBit (index : Z) : UM unit :=
  let! b := byte_at (Z.shiftr index 3) in
  store_byte (Z.shiftr index 3) (u8 (Z.land b (Z.lxor 0xff (Z.shiftl 1 (Z.land index 0x7))))).
Definition GetBit (index : Z) : UM bool :=
  let! b := byte_at (Z.shiftr index 3) in
  st_ret (truth (Z.land b (Z.shiftl 1 (Z.land index 0x7)))).

Definition GetBlockCount (m : UpdateMask) : Z := mBlocks m.
Definition GetLength (m : UpdateMask) : Z := u32 (Z.shiftl (mBlocks m) 2).
Definition GetCount (m : UpdateMask) : Z := mCount m.

Definition SetCount (valuesCount : Z) (m : UpdateMask) : UpdateMask :=
  let blocks := u32 (valuesCount + 31) / 32 in
  mkUM valuesCount blocks (Some (replicate (4 * Z.to_nat blocks) 0)).

Definition Clear (m : UpdateMask) : UpdateMask :=
  match mUpdateMask m with
  | Some bs => set_bytes (replicate (length bs) 0) m
  | None => m
  end.

(** [operator=] from another mask: [memcpy] of the blocks. *)
Definition assign (mask : UpdateMask) : UM unit := fun m =>
  let m1 := SetCount (mCount mask) m in
  match mUpdateMask mask with
  | Some bs => if bool_decide (4 * Z.to_nat (mBlocks m1) <= length bs)%nat
               then (Ok tt, set_bytes (take (4 * Z.to_nat (mBlocks m1)) bs) m1) else (UB, m1)
  | None => if mBlocks m1 =? 0 then (Ok tt, m1) else (UB, m1)
  end.

Section words.
Context (e : endian).

(** [for (i = 0; i < mBlocks; ++i) mUpdateMask[i] op= mask.mUpdateMask[i];] *)
Fixpoint word_loop (f : Z -> Z -> Z) (n i : nat) (src dst : list Z) : option (list Z) :=
  match n with
  | O => Some dst
  | S n' =>
      if bool_decide (4 * i + 4 <= length src /\ 4 * i + 4 <= length dst)%nat then
        let w := f (object_value e (slice (4 * i) 4 dst)) (object_value e (slice (4 * i) 4 src)) in
        word_loop f n' (S i) src (splice (4 * i) (object_bytes e 4 w) dst)
      else None
  end.

Definition word_op (f : Z -> Z -> Z) (mask : UpdateMask) : UM unit := fun m =>
  match mBlocks m =? 0, mUpdateMask m, mUpdateMask mask with
  | true, _, _ => (Ok tt, m)
  | false, Some dst, Some src =>
      match word_loop f (Z.to_nat (mBlocks m)) 0 src dst with
      | Some bs => (Ok tt, set_bytes bs m)
      | None => (UB, m)
      end
  | false, _, _ => (UB, m)
  end.
Definition and_assign := word_op Z.land.
Definition or_assign := word_op Z.lor.

(** [operator&], [operator|]: a copy of this mask, then the assignment. *)
Definition word_op_new (f : Z -> Z -> Z) (m mask : UpdateMask) : outcome Empty_set unit * UpdateMask :=
  (assign m ;;; word_op f mask) UpdateMask_new.
Definition and_mask := word_op_new Z.land.
Definition or_mask := word_op_new Z.lor.
End words.

(** ** Masks as sets of indices *)

(** Allocated with [SetCount], blocks and bytes agreeing. *)
Record um_wf (m : UpdateMask) (bs : list Z) : Prop := {
  um_bytes : mUpdateMask m = Some bs;
  um_length : Z.of_nat (length bs) = 4 * mBlocks m;
  um_u8 : Forall (is_u 8) bs;
  um_count : mCount m <= 32 * mBlocks m }.

(** The bit [index] of the bytes. *)
Definition bit (bs : list Z) (index : Z) : bool :=
  match bs !! Z.to_nat (Z.shiftr index 3) with
  | Some b => Z.testbit b (Z.land index 0x7)
  | None => false
  end.

Lemma index_split index : 0 <= index ->
  Z.shiftr index 3 = index / 8 /\ Z.land index 0x7 = index mod 8 /\
  0 <= index mod 8 < 8 /\ 0 <= index / 8 /\ index = 8 * (index / 8) + index mod 8.
Proof.
  intros H. pose proof (Z.mod_pos_bound index 8). pose proof (Z.div_mod index 8).
  split_and!; [by rewrite Z.shiftr_div_pow2|by apply (land_mask 3)|..]; lia.
Qed.

Lemma byte_in_range m bs index :
  um_wf m bs -> 0 <= index < 32 * mBlocks m ->
  exists b, bs !! Z.to_nat (Z.shiftr index 3) = Some b /\ is_u 8 b.
Proof.
  intros [_ Hl H8 _] Hi. destruct (index_split index) as (-> & _ & ? & ? & ?); [lia|].
  destruct (lookup_lt_is_Some_2 bs (Z.to_nat (index / 8))) as [b Hb]; [lia|].
  exists b. split; [done|]. rewrite Forall_lookup in H8. by apply (H8 _ _ Hb).
Qed.

Lemma um_wf_store m bs i b :
  um_wf m bs -> is_u 8 b -> um_wf (set_bytes (<[i := b]> bs) m) (<[i := b]> bs).
Proof.
  intros [H1 H2 H3 H4] Hb. constructor; simpl; auto.
  - by rewrite length_insert.
  - by apply Forall_insert.
Qed.

(** Changing one bit of one byte. *)
Lemma bit_insert bs index b j v :
  0 <= index -> 0 <= j -> bs !! Z.to_nat (Z.shiftr index 3) = Some b ->
  (forall i, 0 <= i < 8 -> Z.testbit v i =
    if decide (i = Z.land index 0x7) then Z.testbit v (Z.land index 0x7) else Z.testbit b i) ->
  bit (<[Z.to_nat (Z.shiftr index 3) := v]> bs) j =
    if decide (j = index) then Z.testbit v (Z.land index 0x7) else bit bs j.
Proof.
  intros Hi Hj Hb Hv. unfold bit.
  destruct (index_split index Hi) as (Ei & Li & Ri & ? & ?), (index_split j Hj) as (Ej & Lj & Rj & ? & ?).
  rewrite Ei, Ej in *. destruct (decide (j / 8 = index / 8)) as [Hq|Hq].
  - rewrite Hq, list_lookup_insert_eq by (by eapply lookup_lt_Some). rewrite Hb, (Hv (Z.land j 7)) by lia.
    rewrite Li, Lj. repeat case_decide; try done; lia.
  - rewrite list_lookup_insert_ne by lia. rewrite decide_False; [done|]. by intros ->.
Qed.

Lemma store_ok m bs i b v :
  um_wf m bs -> bs !! Z.to_nat i = Some b ->
  byte_at i m = (Ok b, m) /\ store_byte i v m = (Ok tt, set_bytes (<[Z.to_nat i := v]> bs) m).
Proof.
  intros [H1 _ _ _] Hb. unfold byte_at, store_byte. rewrite H1, Hb. split; [done|].
  rewrite bool_decide_eq_true_2; [done|]. by eapply lookup_lt_Some.
Qed.

Lemma testbit_set b k i : 0 <= k < 8 -> 0 <= i < 8 ->
  Z.testbit (u8 (Z.lor b (Z.shiftl 1 k))) i = if decide (i = k) then true else Z.testbit b i.
Proof.
  intros Hk Hi. unfold wrap. rewrite Z.mod_pow2_bits_low, Z.lor_spec, Z.shiftl_1_l, Z.pow2_bits_eqb by lia.
  case_decide; [subst; by rewrite Z.eqb_refl, orb_true_r|].
  destruct (Z.eqb_spec k i); [lia|]. by rewrite orb_false_r.
Qed.

Lemma testbit_unset b k i : 0 <= k < 8 -> 0 <= i < 8 ->
  Z.testbit (u8 (Z.land b (Z.lxor 0xff (Z.shiftl 1 k)))) i = if decide (i = k) then false else Z.testbit b i.
Proof.
  intros Hk Hi. unfold wrap.
  rewrite Z.mod_pow2_bits_low, Z.land_spec, Z.lxor_spec, Z.shiftl_1_l, Z.pow2_bits_eqb by lia.
  assert (Z.testbit 0xff i = true) as -> by (change 0xff with (Z.ones 8); apply Z.ones_spec_low; lia).
  case_decide; [subst; by rewrite Z.eqb_refl, andb_false_r|].
  destruct (Z.eqb_spec k i); [lia|]. by rewrite andb_true_r.
Qed.

(** An update mask is a set of field indices: for every index inside the
    blocks [SetBit] and [UnsetBit] touch memory that belongs to the mask and
    change the membership of that index and of no other, and [GetBit] reads
    it. *)
Theorem mask_bits m bs index j :
  um_wf m bs -> 0 <= index < 32 * mBlocks m -> 0 <= j < 32 * mBlocks m ->
  GetBit index m = (Ok (bit bs index), m) /\
  (exists bs', SetBit index m = (Ok tt, set_bytes bs' m) /\ um_wf (set_bytes bs' m) bs' /\
     bit bs' j = if decide (j = index) then true else bit bs j) /\
  (exists bs', UnsetBit index m = (Ok tt, set_bytes bs' m) /\ um_wf (set_bytes bs' m) bs' /\
     bit bs' j = if decide (j = index) then false else bit bs j).
Proof.
  intros H Hi Hj. destruct (byte_in_range m bs index H Hi) as (b & Hb & H8).
  destruct (index_split index) as (_ & Hk & Hr & _); [lia|].
  assert (0 <= Z.land index 0x7 < 8) as Hk8 by lia. split_and!.
  - unfold GetBit. rewrite (st_bind_ok _ _ _ _ _ (proj1 (store_ok m bs _ b 0 H Hb))).
    unfold bit. rewrite Hb. unfold st_ret. do 2 f_equal. apply truth_land_bit. lia.
  - eexists. unfold SetBit.
    rewrite (st_bind_ok _ _ _ _ _ (proj1 (store_ok m bs _ b 0 H Hb))), (proj2 (store_ok m bs _ b _ H Hb)).
    split_and!; [reflexivity|apply um_wf_store; [done|by apply wrap_range]|].
    rewrite (bit_insert bs index b) by (try lia; try done; intros i Hi8; rewrite !testbit_set by lia;
      repeat case_decide; done). rewrite testbit_set by lia. repeat case_decide; done.
  - eexists. unfold UnsetBit.
    rewrite (st_bind_ok _ _ _ _ _ (proj1 (store_ok m bs _ b 0 H Hb))), (proj2 (store_ok m bs _ b _ H Hb)).
    split_and!; [reflexivity|apply um_wf_store; [done|by apply wrap_range]|].
    rewrite (bit_insert bs index b) by (try lia; try done; intros i Hi8; rewrite !testbit_unset by lia;
      repeat case_decide; done). rewrite testbit_unset by lia. repeat case_decide; done.
Qed.

Lemma SetCount_wf n m :
  0 <= n -> n + 31 < 2 ^ 32 ->
  um_wf (SetCount n m) (replicate (4 * Z.to_nat ((n + 31) / 32)) 0) /\ mBlocks (SetCount n m) = (n + 31) / 32.
Proof.
  intros H0 Hn. unfold SetCount. rewrite wrap_small by (unfold is_u; lia).
  pose proof (Z.div_mod (n + 31) 32). pose proof (Z.mod_pos_bound (n + 31) 32).
  split; [|done]. constructor; simpl; [done| | |lia].
  - rewrite length_replicate. lia.
  - apply Forall_replicate. unfold is_u. lia.
Qed.

Lemma mask_bits_witness :
  let m := SetCount 40 UpdateMask_new in
  let bs := replicate 8 0 in
  GetBit 37 m = (Ok (bit bs 37), m) /\
  (exists bs', SetBit 37 m = (Ok tt, set_bytes bs' m) /\ um_wf (set_bytes bs' m) bs' /\
     bit bs' 5 = if decide (5 = 37) then true else bit bs 5) /\
  (exists bs', UnsetBit 37 m = (Ok tt, set_bytes bs' m) /\ um_wf (set_bytes bs' m) bs' /\
     bit bs' 5 = if decide (5 = 37) then false else bit bs 5).
Proof.
  apply (mask_bits (SetCount 40 UpdateMask_new) (replicate 8 0) 37 5).
  - by apply (SetCount_wf 40 UpdateMask_new).
  - vm_compute. split; [discriminate|done].
  - vm_compute. split; [discriminate|done].
Defined.

(** ** Combining masks *)

(** Functions on words that work bit by bit, hence byte by byte. *)
Class Bitwise (f : Z -> Z -> Z) (op : bool -> bool -> bool) := {
  bitwise_spec : forall a b i, 0 <= i -> Z.testbit (f a b) i = op (Z.testbit a i) (Z.testbit b i);
  bitwise_zero : op false false = false;
  bitwise_nonneg : forall a b, 0 <= a -> 0 <= b -> 0 <= f a b }.

#[global] Instance land_bitwise : Bitwise Z.land andb.
Proof. split; [intros; apply Z.land_spec|done|]. intros. apply Z.land_nonneg. auto. Qed.
#[global] Instance lor_bitwise : Bitwise Z.lor orb.
Proof. split; [intros; apply Z.lor_spec|done|]. intros. by apply Z.lor_nonneg. Qed.

Section combine.
Context (e : endian) (f : Z -> Z -> Z) (op : bool -> bool -> bool) {Hf : Bitwise f op}.

Lemma bitwise_u w a b : 0 <= w -> is_u w a -> is_u w b -> is_u w (f a b).
Proof.
  intros Hw Ha Hb. apply is_u_of_bits; [done|apply bitwise_nonneg; [apply Ha|apply Hb]|].
  intros i Hi. rewrite bitwise_spec by lia. rewrite !(testbit_high w) by done. apply bitwise_zero.
Qed.

Lemma testbit_cons x A i : is_u 8 x -> 0 <= A -> 0 <= i ->
  Z.testbit (x + 256 * A) i = if decide (i < 8) then Z.testbit x i else Z.testbit A (i - 8).
Proof.
  intros Hx HA Hi. replace (x + 256 * A) with (x + A * 2 ^ 8) by lia.
  rewrite <- lor_shiftl_add by (unfold is_u in Hx; lia).
  rewrite Z.lor_spec, Z.shiftl_spec by lia. case_decide.
  - by rewrite (Z.testbit_neg_r A), orb_false_r by lia.
  - by rewrite (testbit_high 8 x) by (done || lia).
Qed.

Lemma le_val_nonneg l : Forall (is_u 8) l -> 0 <= le_val l.
Proof. induction 1 as [|x l [? ?] _ IH]; simpl; lia. Qed.

Lemma bitwise_bytes a b :
  length a = length b -> Forall (is_u 8) a -> Forall (is_u 8) b ->
  le_bytes (length a) (f (le_val a) (le_val b)) = zip_with f a b.
Proof.
  intros Hl Ha. revert b Hl. induction Ha as [|x a Hx Ha IH]; intros b Hl Hb; [done|].
  destruct Hb as [|y b Hy Hb]; [done|]. cbn [length le_bytes le_val zip_with].
  pose proof (le_val_nonneg a Ha). pose proof (le_val_nonneg b Hb).
  assert (is_u 8 (f x y)) as Hu by (by apply bitwise_u).
  assert (0 <= f (le_val a) (le_val b)) by (by apply bitwise_nonneg).
  assert (f (x + 256 * le_val a) (y + 256 * le_val b) = f x y + 256 * f (le_val a) (le_val b)) as ->.
  { apply Z.bits_inj'. intros i Hi. rewrite bitwise_spec, !testbit_cons by done.
    case_decide; by rewrite bitwise_spec by lia. }
  destruct Hu as [? ?].
  replace (f x y + 256 * f (le_val a) (le_val b)) with (f (le_val a) (le_val b) * 256 + f x y) by lia.
  rewrite Z.add_comm, Z.mod_add, Z.div_add by done.
  rewrite Z.mod_small, Z.div_small by lia. simpl. f_equal. apply IH; [|done]. by simplify_eq/=.
Qed.

Lemma zip_with_rev {A B C} (g : A -> B -> C) (l : list A) (k : list B) :
  length l = length k -> zip_with g (rev l) (rev k) = rev (zip_with g l k).
Proof.
  revert k. induction l as [|x l IH]; intros [|y k] Hl; try done. simpl in *.
  rewrite zip_with_app by (rewrite !length_rev; lia). rewrite IH by lia. done.
Qed.

Lemma word_bytes a b :
  length a = 4%nat -> length b = 4%nat -> Forall (is_u 8) a -> Forall (is_u 8) b ->
  object_bytes e 4 (f (object_value e a) (object_value e b)) = zip_with f a b.
Proof.
  intros Ha Hb H1 H2. unfold object_bytes, object_value. destruct e.
  - pose proof (bitwise_bytes a b ltac:(lia) H1 H2) as H. by rewrite Ha in H.
  - pose proof (bitwise_bytes (rev a) (rev b)) as H. rewrite !length_rev, Ha, Hb in H.
    rewrite H; [|done|by apply Forall_rev..].
    rewrite zip_with_rev by lia. apply rev_involutive.
Qed.

Lemma lookup_splice_in {A} (src l : list A) pos k :
  (pos + length src <= length l)%nat ->
  splice pos src l !! k =
    if decide (pos <= k < pos + length src)%nat then src !! (k - pos)%nat else l !! k.
Proof.
  intros Hl. unfold splice. case_decide.
  - rewrite lookup_app_r, lookup_app_l by (rewrite length_take; lia).
    f_equal. rewrite length_take. lia.
  - destruct (decide (k < pos)%nat).
    + rewrite lookup_app_l by (rewrite length_take; lia). by rewrite lookup_take_lt by lia.
    + rewrite !lookup_app_r, lookup_drop by (rewrite length_take; lia).
      f_equal. rewrite length_take. lia.
Qed.

Lemma lookup_slice {A} (l : list A) pos n k :
  (k < n)%nat -> slice pos n l !! k = l !! (pos + k)%nat.
Proof. intros Hk. unfold slice. by rewrite lookup_take_lt, lookup_drop by lia. Qed.

(** The loop combines the bytes of the first [n] blocks from block [i] on. *)
Lemma word_loop_spec n i src dst :
  Forall (is_u 8) src -> Forall (is_u 8) dst ->
  (4 * (i + n) <= length src)%nat -> (4 * (i + n) <= length dst)%nat ->
  exists r, word_loop e f n i src dst = Some r /\ length r = length dst /\ Forall (is_u 8) r /\
    forall k, r !! k = if decide (4 * i <= k < 4 * (i + n))%nat
                       then x ← dst !! k; y ← src !! k; Some (f x y) else dst !! k.
Proof.
  revert i dst. induction n as [|n IH]; intros i dst Hs Hd Hls Hld.
  { exists dst. split_and!; [done..|]. intros k. rewrite decide_False; [done|lia]. }
  cbn [word_loop]. rewrite bool_decide_eq_true_2 by lia. cbv zeta.
  assert (forall l : list Z, (4 * (i + S n) <= length l)%nat -> length (slice (4 * i) 4 l) = 4%nat) as Hsl
    by (intros l Hl; unfold slice; rewrite length_take, length_drop; lia).
  rewrite word_bytes by auto using Forall_slice.
  assert (length (zip_with f (slice (4 * i) 4 dst) (slice (4 * i) 4 src)) = 4%nat) as Hz
    by (rewrite length_zip_with, !Hsl by lia; done).
  set (dst1 := splice _ _ dst).
  assert (length dst1 = length dst) as Hl1 by (apply length_splice; rewrite Hz; lia).
  assert (Forall (is_u 8) dst1) as Hd1.
  { apply Forall_splice; [done|]. apply Forall_lookup. intros k x Hx.
    apply lookup_zip_with_Some in Hx as (u & v & -> & Hu & Hv).
    pose proof (Forall_slice _ (4 * i) 4 dst Hd) as Hd'. rewrite Forall_lookup in Hd'.
    pose proof (Forall_slice _ (4 * i) 4 src Hs) as Hs'. rewrite Forall_lookup in Hs'.
    apply bitwise_u; [lia|exact (Hd' _ _ Hu)|exact (Hs' _ _ Hv)]. }
  destruct (IH (S i) dst1) as (r & H1 & H2 & H3 & H4); [done|done|lia|lia|].
  exists r. split_and!; [done|congruence|done|]. intros k. rewrite H4. subst dst1.
  rewrite lookup_splice_in by (rewrite Hz; lia). rewrite Hz.
  repeat case_decide; try lia; try done.
  rewrite lookup_zip_with, !lookup_slice by lia. by replace (4 * i + (k - 4 * i))%nat with k by lia.
Qed.
End combine.

Lemma word_op_spec e f op `{Hf : !Bitwise f op} m bs mask bs2 index :
  um_wf m bs -> um_wf mask bs2 -> 0 <= mBlocks m <= mBlocks mask -> 0 <= index < 32 * mBlocks m ->
  exists r, word_op e f mask m = (Ok tt, set_bytes r m) /\ um_wf (set_bytes r m) r /\
    bit r index = op (bit bs index) (bit bs2 index).
Proof.
  intros H1 H2 Hb Hi. destruct (byte_in_range m bs index H1 Hi) as (x & Hx & _).
  destruct (byte_in_range mask bs2 index H2 ltac:(lia)) as (y & Hy & _).
  destruct (index_split index) as (Hq & _ & ? & ? & ?); [lia|].
  destruct H1 as [E1 L1 U1 C1], H2 as [E2 L2 U2 C2].
  destruct (word_loop_spec e f op (Z.to_nat (mBlocks m)) 0 bs2 bs) as (r & Hr & Hl & Hu & Hlk);
    [done|done|lia|lia|].
  exists r. unfold word_op. rewrite E1, E2, Hr. destruct (Z.eqb_spec (mBlocks m) 0); [lia|].
  split_and!; [done|constructor; simpl; auto; congruence|].
  unfold bit. rewrite Hlk, Hx, Hy. rewrite decide_True by lia. simpl.
  apply bitwise_spec. destruct (index_split index) as (_ & -> & ? & _); lia.
Qed.

(** [&=] and [|=] work on whole words yet combine the masks bit by bit,
    whatever the byte order of the host, reading only memory of the two masks
    as long as the other mask has at least as many blocks. *)
Theorem mask_combine e m bs mask bs2 index :
  um_wf m bs -> um_wf mask bs2 -> 0 <= mBlocks m <= mBlocks mask -> 0 <= index < 32 * mBlocks m ->
  (exists r, and_assign e mask m = (Ok tt, set_bytes r m) /\ um_wf (set_bytes r m) r /\
     bit r index = bit bs index && bit bs2 index) /\
  (exists r, or_assign e mask m = (Ok tt, set_bytes r m) /\ um_wf (set_bytes r m) r /\
     bit r index = bit bs index || bit bs2 index).
Proof.
  intros H1 H2 Hb Hi.
  split; [by apply (word_op_spec e Z.land andb)|by apply (word_op_spec e Z.lor orb)].
Qed.

Lemma mask_combine_witness :
  let m := SetCount 40 UpdateMask_new in
  let bs := replicate 8 0 in
  (exists r, and_assign MANGOS_BIGENDIAN m m = (Ok tt, set_bytes r m) /\ um_wf (set_bytes r m) r /\
     bit r 37 = bit bs 37 && bit bs 37) /\
  (exists r, or_assign MANGOS_BIGENDIAN m m = (Ok tt, set_bytes r m) /\ um_wf (set_bytes r m) r /\
     bit r 37 = bit bs 37 || bit bs 37).
Proof.
  apply (mask_combine MANGOS_BIGENDIAN (SetCount 40 UpdateMask_new) (replicate 8 0)
    (SetCount 40 UpdateMask_new) (replicate 8 0) 37).
  - by apply (SetCount_wf 40 UpdateMask_new).
  - by apply (SetCount_wf 40 UpdateMask_new).
  - vm_compute. split; discriminate.
  - vm_compute. split; [discriminate|done].
Defined.
