(* ===== verification/Timer.v ===== *)
(** * Timer: clocks, interval timers and time strings

    Model of [src/shared/Timer.h] and of the [WorldTimer], [secsToTimeString]
    and [TimeStringToSecs] parts of [src/shared/Util.cpp].  The operating
    system's clock is a parameter: milliseconds since the server started. *)

From S2P Require Import Prelude.

(** ** World time *)

Module WorldTimer.
(** [getMSTime_internal]: the clock modulo 0xFFFFFFFF (not 2^32). *)
Definition getMSTime (clock : Z) : Z := u32 (clock mod 0xFFFFFFFF).

Definition getMSTimeDiff (oldMSTime newMSTime : Z) : Z :=
  if oldMSTime >? newMSTime then
    let diff_1 := u32 (u32 (0xFFFFFFFF - oldMSTime) + newMSTime) in
    let diff_2 := u32 (oldMSTime - newMSTime) in
    Z.min diff_1 diff_2
  else u32 (newMSTime - oldMSTime).
Definition getMSTimeDiffToNow (clock t : Z) : Z := getMSTimeDiff t (getMSTime clock).

Record state := mkState { m_iTime : Z; m_iPrevTime : Z }.
Definition init : state := mkState 0 0.
Definition tickTime (s : state) : Z := m_iTime s.
Definition tickPrevTime (s : state) : Z := m_iPrevTime s.
Definition tick (clock : Z) (s : state) : Z * state :=
  let s' := mkState (getMSTime clock) (m_iTime s) in
  (getMSTimeDiff (m_iPrevTime s') (m_iTime s'), s').
End WorldTimer.

(** ** Interval timers *)

Module IntervalTimer.
(** [time_t] is 64-bit signed. *)
Record t := mk { _interval : Z; _current : Z }.
Definition new : t := mk 0 0.
Definition Update (diff : Z) (x : t) : t :=
  let c := s64 (_current x + diff) in mk (_interval x) (if c <? 0 then 0 else c).
Definition Passed (x : t) : bool := _current x >=? _interval x.
Definition Reset (x : t) : t :=
  if _current x >=? _interval x then mk (_interval x) (s64 (_current x - _interval x)) else x.
Definition SetCurrent (c : Z) (x : t) : t := mk (_interval x) c.
Definition SetInterval (i : Z) (x : t) : t := mk i (_current x).
End IntervalTimer.

Module ShortIntervalTimer.
Record t := mk { _interval : Z; _current : Z }.
Definition new : t := mk 0 0.
Definition Update (diff : Z) (x : t) : t := mk (_interval x) (u32 (_current x + diff)).
Definition Passed (x : t) : bool := _current x >=? _interval x.
Definition Reset (x : t) : t :=
  if _current x >=? _interval x then mk (_interval x) (u32 (_current x - _interval x)) else x.
Definition SetCurrent (c : Z) (x : t) : t := mk (_interval x) c.
Definition SetInterval (i : Z) (x : t) : t := mk i (_current x).
End ShortIntervalTimer.

Module TimeTracker.
Definition Update (diff i_expiryTime : Z) : Z := s64 (i_expiryTime - diff).
Definition Passed (i_expiryTime : Z) : bool := i_expiryTime <=? 0.
Definition Reset (interval : Z) : Z := interval.
End TimeTracker.

Module ShortTimeTracker.
Definition Update (diff i_expiryTime : Z) : Z := s32 (i_expiryTime - diff).
Definition Passed (i_expiryTime : Z) : bool := i_expiryTime <=? 0.
Definition Reset (interval : Z) : Z := interval.
End ShortTimeTracker.

(** ** Time strings *)

Definition MINUTE := 60.
Definition HOUR := MINUTE * 60.
Definition DAY := HOUR * 24.

(** [ss << n] for a [time_t]: decimal digits, at most 19 of them. *)
Fixpoint digits (fuel : nat) (n : Z) : list Z :=
  match fuel with
  | O => []
  | S fuel' => if n <? 10 then [48 + n] else digits fuel' (n / 10) ++ [48 + n mod 10]
  end.
Definition show_int (n : Z) : list Z :=
  if n <? 0 then 45 :: digits 19 (- n) else digits 19 n.

Definition text (s : string) : list Z := bytes_of_string s.

Definition secsToTimeString (timeInSecs : Z) (shortText hoursOnly : bool) : list Z :=
  let secs := Z.rem timeInSecs MINUTE in
  let minutes := Z.quot (Z.rem timeInSecs HOUR) MINUTE in
  let hours := Z.quot (Z.rem timeInSecs DAY) HOUR in
  let days := Z.quot timeInSecs DAY in
  (if truth days then
     show_int days ++ (if shortText then text "d" else if days =? 1 then text " Day " else text " Days ")
   else []) ++
  (if truth hours || hoursOnly then
     show_int hours ++ (if shortText then text "h" else if hours <=? 1 then text " Hour " else text " Hours ")
   else []) ++
  (if negb hoursOnly then
     (if truth minutes then
        show_int minutes ++
        (if shortText then text "m" else if minutes =? 1 then text " Minute " else text " Minutes ")
      else []) ++
     (if truth secs || (negb (truth days) && negb (truth hours) && negb (truth minutes)) then
        show_int secs ++
        (if shortText then text "s" else if secs <=? 1 then text " Second." else text " Seconds.")
      else [])
   else []).

Definition is_digit (c : Z) : bool := (48 <=? c) && (c <=? 57).
Definition multiplier (c : Z) : option Z :=
  if c =? 100 then Some DAY
  else if c =? 104 then Some HOUR
  else if c =? 109 then Some MINUTE
  else if c =? 115 then Some 1
  else None.

(** The loop of [TimeStringToSecs]; [None] is the early [return 0]. *)
Fixpoint time_loop (s : list Z) (secs buffer : Z) : option Z :=
  match s with
  | [] => Some secs
  | c :: s' =>
      if is_digit c then time_loop s' secs (u32 (u32 (buffer * 10) + (c - 48)))
      else match multiplier c with
           | Some m => time_loop s' (u32 (secs + u32 (buffer * m))) 0
           | None => None
           end
  end.
Definition TimeStringToSecs (timestring : list Z) : Z := default 0 (time_loop timestring 0 0).

(** ** Differences of world time *)

(** The world clock wraps at 0xFFFFFFFF and [getMSTimeDiff] compensates
    exactly that: the difference of two readings is the time that really
    passed between them, across any number of wraps, as long as it is below
    2^31 milliseconds (about 24 days). *)
Theorem time_diff_exact t1 t2 :
  0 <= t1 <= t2 -> t2 - t1 < 2 ^ 31 ->
  WorldTimer.getMSTimeDiff (WorldTimer.getMSTime t1) (WorldTimer.getMSTime t2) = t2 - t1.
Proof.
  intros H Hd. unfold WorldTimer.getMSTime.
  pose proof (Z.mod_pos_bound t1 0xFFFFFFFF ltac:(done)).
  pose proof (Z.mod_pos_bound t2 0xFFFFFFFF ltac:(done)).
  pose proof (Z.div_mod t1 0xFFFFFFFF ltac:(done)). pose proof (Z.div_mod t2 0xFFFFFFFF ltac:(done)).
  set (a := t1 mod 0xFFFFFFFF) in *. set (b := t2 mod 0xFFFFFFFF) in *.
  set (q := t1 / 0xFFFFFFFF) in *. set (r := t2 / 0xFFFFFFFF) in *. clearbody a b q r.
  rewrite !(wrap_small 32) by (unfold is_u; lia).
  unfold WorldTimer.getMSTimeDiff. rewrite Z.gtb_ltb. destruct (Z.ltb_spec b a) as [Hlt|Hge].
  - assert (r = q + 1) as -> by lia.
    rewrite !(wrap_small 32 (0xFFFFFFFF - a)), !wrap_small by (unfold is_u; lia). lia.
  - assert (r = q) as -> by lia. rewrite wrap_small by (unfold is_u; lia). lia.
Qed.

Lemma time_diff_exact_witness :
  WorldTimer.getMSTimeDiff (WorldTimer.getMSTime 4294967290) (WorldTimer.getMSTime 4294967300) = 4294967300 - 4294967290.
Proof. apply time_diff_exact; lia. Defined.

(** ** Timers lose no time *)

Module Ticks.
Import ShortIntervalTimer.

(** How the server uses a timer: advance, and when it has passed, act and reset. *)
Definition tick (diff : Z) (x : t) : Z * t :=
  let x1 := Update diff x in if Passed x1 then (1, Reset x1) else (0, x1).
Fixpoint ticks (diffs : list Z) (x : t) : Z * t :=
  match diffs with
  | [] => (0, x)
  | d :: ds => let '(n, x1) := tick d x in let '(m, x2) := ticks ds x1 in (n + m, x2)
  end.
End Ticks.

Definition sum (l : list Z) : Z := foldr Z.add 0 l.

(** A periodic timer driven by updates no longer than its interval acts
    exactly once per interval elapsed: the number of times it fired, times the
    interval, plus what it has left, is all the time it was given, and what it
    has left is less than one interval. *)
Theorem timer_conserves x diffs :
  let i := ShortIntervalTimer._interval x in
  0 < i -> i <= 2 ^ 31 -> 0 <= ShortIntervalTimer._current x < i ->
  Forall (fun d => 0 <= d <= i) diffs ->
  let '(fired, x') := Ticks.ticks diffs x in
  ShortIntervalTimer._interval x' = i /\
  fired * i + ShortIntervalTimer._current x' = ShortIntervalTimer._current x + sum diffs /\
  0 <= ShortIntervalTimer._current x' < i.
Proof.
  intros i H0 Hi Hc Hd. unfold i in *. clear i. revert x H0 Hi Hc Hd.
  induction diffs as [|d ds IH]; intros [i c] H0 Hi Hc Hd; simpl in *; [lia|].
  inversion Hd as [|? ? Hd1 Hds]; subst. unfold Ticks.tick, ShortIntervalTimer.Update,
    ShortIntervalTimer.Passed, ShortIntervalTimer.Reset. simpl.
  change (2 ^ 31) with 2147483648 in *.
  assert (is_u 32 (c + d)) by (unfold is_u; change (2 ^ 32) with 4294967296; lia).
  rewrite (wrap_small 32) by done. rewrite Z.geb_leb. destruct (Z.leb_spec i (c + d)) as [Hle|Hlt].
  - rewrite wrap_small by (unfold is_u in *; lia).
    specialize (IH (ShortIntervalTimer.mk i (c + d - i))). simpl in IH.
    destruct (Ticks.ticks ds _) as [m x2]. destruct IH as (-> & Heq & ?); [lia..|done|].
    split_and!; lia.
  - specialize (IH (ShortIntervalTimer.mk i (c + d))). simpl in IH.
    destruct (Ticks.ticks ds _) as [m x2]. destruct IH as (-> & Heq & ?); [lia..|done|].
    split_and!; lia.
Qed.

Lemma timer_conserves_witness :
  let '(fired, x') := Ticks.ticks [40; 40; 100; 3] (ShortIntervalTimer.mk 100 30) in
  ShortIntervalTimer._interval x' = 100 /\
  fired * 100 + ShortIntervalTimer._current x' = 30 + sum [40; 40; 100; 3] /\
  0 <= ShortIntervalTimer._current x' < 100.
Proof.
  apply (timer_conserves (ShortIntervalTimer.mk 100 30) [40; 40; 100; 3]); simpl; [lia..|].
  repeat constructor; lia.
Defined.

(** ** Time strings read back *)

(** Reading the digits of [n] leaves [n] in the buffer. *)
Lemma parse_digits fuel n s secs :
  0 <= n < 2 ^ 32 -> n < 10 ^ Z.of_nat fuel -> (0 < fuel)%nat ->
  time_loop (digits fuel n ++ s) secs 0 = time_loop s secs n.
Proof.
  revert n s. induction fuel as [|fuel IH]; intros n s Hn Hf H0; [lia|]. simpl digits.
  assert (forall c b, 0 <= c < 10 -> 0 <= b -> 10 * b + c < 2 ^ 32 ->
    forall s', time_loop ((48 + c) :: s') secs b = time_loop s' secs (10 * b + c)) as Hstep.
  { intros c b Hc Hb Hbc s'. simpl. unfold is_digit.
    rewrite (proj2 (Z.leb_le 48 (48 + c))), (proj2 (Z.leb_le (48 + c) 57)) by lia. simpl andb. cbv iota.
    rewrite (wrap_small 32 (b * 10)), wrap_small by (unfold is_u; lia). f_equal. lia. }
  destruct (Z.ltb_spec n 10) as [Hlt|Hge].
  - simpl app. rewrite Hstep by lia. f_equal.
  - pose proof (Z.div_mod n 10 ltac:(done)). pose proof (Z.mod_pos_bound n 10 ltac:(done)).
    rewrite Nat2Z.inj_succ, Z.pow_succ_r in Hf by lia.
    rewrite <- app_assoc. rewrite IH.
    + simpl app. rewrite Hstep by lia. f_equal. lia.
    + lia.
    + lia.
    + destruct fuel; [simpl in Hf; lia|lia].
Qed.

(** One "<n><unit>" group. *)
Lemma parse_group n u m s secs :
  0 <= n < 2 ^ 32 -> multiplier u = Some m -> is_digit u = false ->
  0 <= n * m < 2 ^ 32 -> 0 <= secs -> secs + n * m < 2 ^ 32 ->
  time_loop (show_int n ++ u :: s) secs 0 = time_loop s (secs + n * m) 0.
Proof.
  intros Hn Hm Hu Hnm H0 Hs. unfold show_int. rewrite (proj2 (Z.ltb_ge n 0)) by lia.
  rewrite parse_digits; [|done|simpl; lia|lia]. simpl. rewrite Hu, Hm.
  by rewrite (wrap_small 32 (n * m)), wrap_small by (unfold is_u; lia).
Qed.

(** A group that is left out counts for nothing. *)
Lemma parse_optional (b : bool) n u m s secs :
  (b = false -> n = 0) ->
  0 <= n < 2 ^ 32 -> multiplier u = Some m -> is_digit u = false ->
  0 <= n * m < 2 ^ 32 -> 0 <= secs -> secs + n * m < 2 ^ 32 ->
  time_loop ((if b then show_int n ++ [u] else []) ++ s) secs 0 = time_loop s (secs + n * m) 0.
Proof.
  intros Hb Hn Hm Hu Hnm H0 Hs. destruct b.
  - rewrite <- app_assoc. simpl. by apply parse_group.
  - rewrite (Hb eq_refl). simpl. f_equal. lia.
Qed.

Lemma truth_false n : truth n = false -> n = 0.
Proof. unfold truth. intros. by bool_prop. Qed.

(** [TimeStringToSecs] reads back what [secsToTimeString] writes in its
    short form, for every duration that fits 32 bits. *)
Theorem time_string_roundtrip t :
  is_u 32 t -> TimeStringToSecs (secsToTimeString t true false) = t.
Proof.
  intros [H0 Ht]. unfold secsToTimeString, TimeStringToSecs.
  change DAY with 86400. change HOUR with 3600. change MINUTE with 60.
  rewrite !Z.rem_mod_nonneg by lia.
  rewrite !Z.quot_div_nonneg by first [done | lia | apply Z.mod_pos_bound; lia].
  pose proof (Z.div_mod t 86400 ltac:(done)). pose proof (Z.mod_pos_bound t 86400 ltac:(done)).
  pose proof (Z.div_mod (t mod 86400) 3600 ltac:(done)). pose proof (Z.mod_pos_bound (t mod 86400) 3600 ltac:(done)).
  pose proof (Z.div_mod (t mod 3600) 60 ltac:(done)). pose proof (Z.mod_pos_bound (t mod 3600) 60 ltac:(done)).
  assert ((t mod 86400) mod 3600 = t mod 3600) as E1
    by (apply Z.mod_mod_divide; by exists 24).
  assert ((t mod 3600) mod 60 = t mod 60) as E2
    by (apply Z.mod_mod_divide; by exists 60).
  rewrite E1, E2 in *.
  set (d := t / 86400) in *. set (h := t mod 86400 / 3600) in *. set (m := t mod 3600 / 60) in *.
  set (s := t mod 60) in *. clearbody d h m s. simpl negb. cbv iota. rewrite orb_false_r.
  change (text "d") with [100]. change (text "h") with [104].
  change (text "m") with [109]. change (text "s") with [115].
  rewrite (parse_optional (truth d) d 100 86400); [|by apply truth_false|lia|done|done|lia|lia|lia].
  rewrite (parse_optional (truth h) h 104 3600); [|by apply truth_false|lia|done|done|lia|lia|lia].
  rewrite (parse_optional (truth m) m 109 60); [|by apply truth_false|lia|done|done|lia|lia|lia].
  rewrite <- (app_nil_r (if _ : bool then _ else _)).
  rewrite (parse_optional _ s 115 1); [|intros ?%orb_false_iff; apply truth_false; tauto|lia|done|done|lia|lia|lia].
  simpl. lia.
Qed.

Lemma time_string_roundtrip_witness :
  TimeStringToSecs (secsToTimeString 93784 true false) = 93784.
Proof. apply time_string_roundtrip. split; lia. Defined.
