(* ===== verification/Social.v ===== *)
(** * Social: friend and ignore lists

    Model of [src/game/SocialMgr.h] and [src/game/SocialMgr.cpp].  The table
    [character_social] is part of the state: statements run in the order they
    are issued.  The hash map of the list iterates in an order of its own,
    [order]; players, sessions and the configuration are parameters. *)

From stdpp Require Import gmap fin_maps.
From S2P Require Import Prelude ByteBuffer ObjectGuid Packets.

Local Open Scope prog_scope.

(** ** Data *)

Definition FRIEND_STATUS_OFFLINE := 0.
Definition FRIEND_STATUS_ONLINE := 1.
Definition FRIEND_STATUS_AFK := 2.
Definition FRIEND_STATUS_DND := 4.

Definition SOCIAL_FLAG_FRIEND := 0x01.
Definition SOCIAL_FLAG_IGNORED := 0x02.
Definition SOCIAL_FLAG_MUTED := 0x04.
Definition SOCIAL_FLAG_ALL := 0x07.

Definition SOCIALMGR_FRIEND_LIMIT := 50.
Definition SOCIALMGR_IGNORE_LIMIT := 25.

Definition FRIEND_ONLINE := 0x02.
Definition FRIEND_ADDED_ONLINE := 0x06.

Definition SMSG_FRIEND_LIST := 0x067.
Definition SMSG_FRIEND_STATUS := 0x068.
Definition SMSG_IGNORE_LIST := 0x06B.

Record FriendInfo := mkFI { Status : Z; Flags : Z; Area : Z; Level : Z; Class_ : Z }.

#[global] Instance FriendInfo_eq_dec : EqDecision FriendInfo.
Proof. solve_decision. Defined.

Definition FriendInfo_new : FriendInfo := mkFI FRIEND_STATUS_OFFLINE 0 0 0 0.
(** [FriendInfo(uint8 flags)]. *)
Definition FriendInfo_flags (flags : Z) : FriendInfo := mkFI FRIEND_STATUS_OFFLINE (u8 flags) 0 0 0.
Definition set_Flags (f : Z) (i : FriendInfo) : FriendInfo :=
  mkFI (Status i) f (Area i) (Level i) (Class_ i).

Record PlayerSocial := mkPS { m_playerGUID : Z; m_playerSocialMap : gmap Z FriendInfo }.

Definition PlayerSocial_new : PlayerSocial := mkPS 0 ∅.
Definition SetPlayerGUID (guid : Z) (p : PlayerSocial) : PlayerSocial := mkPS guid (m_playerSocialMap p).
Definition set_social (m : gmap Z FriendInfo) (p : PlayerSocial) : PlayerSocial := mkPS (m_playerGUID p) m.

(** ** The table

    Rows [(guid, friend, flags)]; the primary key is the whole row. *)

Abbreviation table := (list (Z * Z * Z)).

Definition sql_update (flags guid friend : Z) (t : table) : table :=
  (fun '(g, f, fl) => if (g =? guid) && (f =? friend) then (g, f, flags) else (g, f, fl)) <$> t.
Definition sql_insert (guid friend flags : Z) (t : table) : table :=
  if bool_decide ((guid, friend, flags) ∈ t) then t else t ++ [(guid, friend, flags)].
Definition sql_delete (guid friend : Z) (t : table) : table :=
  filter (fun r => ~ (r.1.1 = guid /\ r.1.2 = friend)) t.

(** ** Lists *)

Definition has_flag (flag : Z) (i : FriendInfo) : bool := truth (Z.land (Flags i) flag).

Definition GetNumberOfSocialsWithFlag (flag : Z) (p : PlayerSocial) : Z :=
  u32 (Z.of_nat (base.size (filter (fun kv => has_flag flag kv.2 = true) (m_playerSocialMap p)))).

Definition limit_of (flag : Z) : Z :=
  if truth (Z.land flag SOCIAL_FLAG_FRIEND) then SOCIALMGR_FRIEND_LIMIT else SOCIALMGR_IGNORE_LIMIT.

(** A player's list and the table behind it. *)
Definition social_state : Type := PlayerSocial * table.

Definition AddToSocialList (friendGuid flag : Z) (s : social_state) : bool * social_state :=
  let '(p, t) := s in
  if GetNumberOfSocialsWithFlag flag p >=? limit_of flag then (false, (p, t))
  else
    let me := GetCounter (m_playerGUID p) in
    match m_playerSocialMap p !! friendGuid with
    | Some i =>
        (true, (set_social (<[friendGuid := set_Flags (u32 (Z.lor (Flags i) flag)) i]> (m_playerSocialMap p)) p,
                sql_update flag me (GetCounter friendGuid) t))
    | None =>
        (true, (set_social (<[friendGuid := set_Flags (u32 (Z.lor 0 flag)) FriendInfo_new]> (m_playerSocialMap p)) p,
                sql_insert me (GetCounter friendGuid) flag t))
    end.

Definition RemoveFromSocialList (friendGuid flag : Z) (s : social_state) : social_state :=
  let '(p, t) := s in
  let key := GetCounter friendGuid in
  match m_playerSocialMap p !! key with
  | None => (p, t)
  | Some i =>
      let fl := u32 (Z.land (Flags i) (Z.lnot flag)) in
      let me := GetCounter (m_playerGUID p) in
      if negb (truth fl) then
        (set_social (delete key (m_playerSocialMap p)) p, sql_delete me (GetCounter friendGuid) t)
      else
        (set_social (<[key := set_Flags fl i]> (m_playerSocialMap p)) p,
         sql_update flag me (GetCounter friendGuid) t)
  end.

Definition HasFriend (friend_guid : Z) (p : PlayerSocial) : bool :=
  match m_playerSocialMap p !! GetCounter friend_guid with
  | Some i => has_flag SOCIAL_FLAG_FRIEND i
  | None => false
  end.
Definition HasIgnore (ignore_guid : Z) (p : PlayerSocial) : bool :=
  match m_playerSocialMap p !! GetCounter ignore_guid with
  | Some i => has_flag SOCIAL_FLAG_IGNORED i
  | None => false
  end.

(** ** What a list shows of a friend *)

Record MasterPlayer := mkMP {
  mp_guid : Z; mp_security : Z; mp_team : Z; mp_zone : Z; mp_level : Z; mp_class : Z;
  mp_afk : bool; mp_dnd : bool; mp_extraFlags : Z; mp_visibleFor : Z -> bool;
  mp_social : PlayerSocial }.

Definition PLAYER_EXTRA_GM_DISABLE_SOCIAL := 0x0400.

Record SocialEnv := mkSE {
  FindMasterPlayer : Z -> option MasterPlayer;
  GetPlayerAccountIdByGUID : Z -> Z;
  CONFIG_ALLOW_TWO_SIDE_WHO_LIST : bool;
  CONFIG_GM_LEVEL_IN_WHO_LIST : Z;
  order : gmap Z FriendInfo -> list Z }.

Definition online_status (m : MasterPlayer) : Z :=
  if mp_dnd m then FRIEND_STATUS_DND else if mp_afk m then FRIEND_STATUS_AFK else FRIEND_STATUS_ONLINE.

Section social.
Context (env : SocialEnv).

(** May [player] see that [f] is online? *)
Definition sees (player f : MasterPlayer) : bool :=
  ((mp_security player >? 0)
   || (((mp_team f =? mp_team player) || CONFIG_ALLOW_TWO_SIDE_WHO_LIST env)
       && (mp_security f <=? CONFIG_GM_LEVEL_IN_WHO_LIST env)))
  && mp_visibleFor f (mp_guid player)
  && (Z.land (mp_extraFlags f) PLAYER_EXTRA_GM_DISABLE_SOCIAL =? 0).

Definition GetFriendInfo (player : option MasterPlayer) (friendGuid : Z) (fi : FriendInfo) : FriendInfo :=
  match player with
  | None => fi
  | Some pl =>
      if mp_guid pl =? friendGuid then
        let st := if truth (Z.land (mp_extraFlags pl) PLAYER_EXTRA_GM_DISABLE_SOCIAL)
                  then FRIEND_STATUS_OFFLINE else online_status pl in
        mkFI st (Flags fi) (mp_zone pl) (mp_level pl) (mp_class pl)
      else
        let pFriend := FindMasterPlayer env friendGuid in
        match m_playerSocialMap (mp_social pl) !! friendGuid with
        | None => fi
        | Some _ =>
            match pFriend with
            | Some f =>
                if sees pl f then mkFI (online_status f) (Flags fi) (mp_zone f) (mp_level f) (mp_class f)
                else mkFI FRIEND_STATUS_OFFLINE (Flags fi) 0 0 0
            | None => mkFI FRIEND_STATUS_OFFLINE (Flags fi) 0 0 0
            end
        end
  end.

Fixpoint friend_rows (plr : MasterPlayer) (keys : list Z) (p : PlayerSocial) : PK PlayerSocial :=
  match keys with
  | [] => st_ret p
  | k :: keys' =>
      match m_playerSocialMap p !! k with
      | None => friend_rows plr keys' p
      | Some i =>
          if has_flag SOCIAL_FLAG_FRIEND i then
            let fi := GetFriendInfo (Some plr) k i in
            pk_guid k ;;; pk_u8 (Status fi) ;;;
            (if truth (Status fi) then pk_u32 (Area fi) ;;; pk_u32 (Level fi) ;;; pk_u32 (Class_ fi)
             else st_ret tt) ;;;
            friend_rows plr keys' (set_social (<[k := fi]> (m_playerSocialMap p)) p)
          else friend_rows plr keys' p
      end
  end.

(** The packet of [SendFriendList] and the list it leaves (statuses are
    refreshed in place). *)
Definition SendFriendList (plr : MasterPlayer) (p : PlayerSocial) : PK PlayerSocial :=
  pk_init SMSG_FRIEND_LIST ;;;
  pk_u8 (GetNumberOfSocialsWithFlag SOCIAL_FLAG_FRIEND p) ;;;
  friend_rows plr (order env (m_playerSocialMap p)) p.

Fixpoint ignore_rows (keys : list Z) (p : PlayerSocial) : PK unit :=
  match keys with
  | [] => st_ret tt
  | k :: keys' =>
      (match m_playerSocialMap p !! k with
       | Some i => if has_flag SOCIAL_FLAG_IGNORED i then pk_guid k else st_ret tt
       | None => st_ret tt
       end) ;;;
      ignore_rows keys' p
  end.
Definition SendIgnoreList (p : PlayerSocial) : PK unit :=
  pk_init SMSG_IGNORE_LIST ;;;
  pk_u8 (GetNumberOfSocialsWithFlag SOCIAL_FLAG_IGNORED p) ;;;
  ignore_rows (order env (m_playerSocialMap p)) p.

(** ** The manager *)

Definition SocialMap : Type := gmap Z PlayerSocial.

(** The players a broadcast about [player] reaches, in map order. *)
Definition listener (player : MasterPlayer) (m : SocialMap) (k : Z) : option Z :=
  match m !! k with
  | Some social =>
      match m_playerSocialMap social !! mp_guid player with
      | Some i =>
          if has_flag SOCIAL_FLAG_FRIEND i then
            match FindMasterPlayer env k with
            | Some f =>
                if ((mp_security f >? 0)
                    || (((mp_team f =? mp_team player) || CONFIG_ALLOW_TWO_SIDE_WHO_LIST env)
                        && (mp_security player <=? CONFIG_GM_LEVEL_IN_WHO_LIST env)))
                   && mp_visibleFor player (mp_guid f)
                then Some (mp_guid f) else None
            | None => None
            end
          else None
      | None => None
      end
  | None => None
  end.
Definition BroadcastToFriendListers (player : option MasterPlayer) (packet : WorldPacket) (m : SocialMap)
    : list (Z * WorldPacket) :=
  match player with
  | None => []
  | Some pl => (fun to => (to, packet)) <$> omap (listener pl m) (sorted_keys m)
  end.

Definition MakeFriendStatus (player : option MasterPlayer) (result friendGuid : Z) : PK unit :=
  let fi := GetFriendInfo player friendGuid FriendInfo_new in
  pk_init SMSG_FRIEND_STATUS ;;;
  pk_u8 result ;;;
  pk_guid friendGuid ;;;
  if (result =? FRIEND_ADDED_ONLINE) || (result =? FRIEND_ONLINE) then
    pk_u8 (Status fi) ;;; pk_u32 (Area fi) ;;; pk_u32 (Level fi) ;;; pk_u32 (Class_ fi)
  else st_ret tt.

(** [SendFriendStatus]: what is sent to whom; no player to answer is a null
    dereference. *)
Definition SendFriendStatus (player : option MasterPlayer) (result friendGuid : Z) (broadcast : bool)
    (m : SocialMap) : outcome ByteBufferException (list (Z * WorldPacket)) :=
  match MakeFriendStatus player result friendGuid WorldPacket_empty with
  | (Ok _, data) =>
      if broadcast then Ok (BroadcastToFriendListers player data m)
      else match player with Some pl => Ok [(mp_guid pl, data)] | None => UB end
  | (Throw x, _) => Throw x
  | (Abort, _) => Abort
  | (UB, _) => UB
  | (Diverge, _) => Diverge
  end.

(** The loop of [LoadFromDB] over the rows [(friend, flags)]. *)
Fixpoint load_loop (rows : list (Z * Z)) (friendCounter ignoreCounter : Z) (m : gmap Z FriendInfo)
    : gmap Z FriendInfo :=
  match rows with
  | [] => m
  | (friendLowGuid, flags) :: rows' =>
      let ignored := truth (Z.land flags SOCIAL_FLAG_IGNORED) in
      if ignored && (ignoreCounter >=? SOCIALMGR_IGNORE_LIMIT) then
        load_loop rows' friendCounter ignoreCounter m
      else if truth (Z.land flags SOCIAL_FLAG_FRIEND) && (friendCounter >=? SOCIALMGR_FRIEND_LIMIT) then
        load_loop rows' friendCounter ignoreCounter m
      else
        let friendGuid := ObjectGuid_low HIGHGUID_PLAYER friendLowGuid in
        if negb (truth (GetPlayerAccountIdByGUID env friendGuid)) then
          load_loop rows' friendCounter ignoreCounter m
        else
          load_loop rows' (if ignored then friendCounter else u32 (friendCounter + 1))
            (if ignored then u32 (ignoreCounter + 1) else ignoreCounter)
            (<[friendGuid := FriendInfo_flags flags]> m)
  end.

Definition LoadFromDB (result : option (list (Z * Z))) (guid : Z) (m : SocialMap) : SocialMap :=
  let social := SetPlayerGUID guid (default PlayerSocial_new (m !! guid)) in
  match result with
  | None => <[guid := social]> m
  | Some rows => <[guid := set_social (load_loop rows 0 0 (m_playerSocialMap social)) social]> m
  end.

Definition RemovePlayerSocial (guid : Z) (m : SocialMap) : SocialMap := delete guid m.
End social.

(** ** Limits *)

Lemma GetCounter_player g : is_u 32 g -> GetCounter g = g.
Proof.
  intros Hg. unfold GetCounter, HasEntry, GetHigh.
  assert (Z.shiftr g 48 = 0) as ->.
  { rewrite Z.shiftr_div_pow2 by lia. apply Z.div_small. unfold is_u in Hg. lia. }
  simpl. unfold GetCounter_of. simpl. rewrite (land_mask 32) by done.
  rewrite Z.mod_small by apply Hg. by apply wrap_small.
Qed.

(** The two lists players have. *)
Definition list_flag (flag : Z) : Prop := flag = SOCIAL_FLAG_FRIEND \/ flag = SOCIAL_FLAG_IGNORED.

Definition flag_bit (flag : Z) : Z := if flag =? SOCIAL_FLAG_FRIEND then 0 else 1.

Lemma flag_bit_range flag : 0 <= flag_bit flag < 32.
Proof. unfold flag_bit. destruct (_ =? _); lia. Qed.

Lemma has_flag_bit flag i : list_flag flag -> has_flag flag i = Z.testbit (Flags i) (flag_bit flag).
Proof.
  intros [-> | ->]; unfold has_flag.
  - apply (truth_land_bit _ 0). lia.
  - apply (truth_land_bit _ 1). lia.
Qed.

Lemma list_flag_testbit flag flag' :
  list_flag flag -> list_flag flag' -> Z.testbit flag (flag_bit flag') = (flag' =? flag).
Proof. by intros [-> | ->] [-> | ->]. Qed.

(** Adding a flag adds one list, removing one takes one away. *)
Lemma has_flag_add flag flag' i :
  list_flag flag -> list_flag flag' ->
  has_flag flag' (set_Flags (u32 (Z.lor (Flags i) flag)) i) = has_flag flag' i || (flag' =? flag).
Proof.
  intros Hf Hf'. rewrite !has_flag_bit by done. cbn [Flags set_Flags]. unfold wrap.
  rewrite Z.mod_pow2_bits_low by apply flag_bit_range.
  by rewrite Z.lor_spec, (list_flag_testbit flag flag').
Qed.

Lemma has_flag_remove flag flag' i :
  list_flag flag' ->
  has_flag flag' (set_Flags (u32 (Z.land (Flags i) (Z.lnot flag))) i) = true -> has_flag flag' i = true.
Proof.
  intros Hf'. rewrite !has_flag_bit by done. cbn [Flags set_Flags]. unfold wrap.
  rewrite Z.mod_pow2_bits_low by apply flag_bit_range.
  rewrite Z.land_spec. by intros [? _]%andb_true_iff.
Qed.

Definition on_list (flag : Z) (m : gmap Z FriendInfo) : nat :=
  base.size (filter (fun kv => has_flag flag kv.2 = true) m).

Lemma size_delete_le k (m : gmap Z FriendInfo) : (base.size (delete k m) <= base.size m)%nat.
Proof. apply map_subseteq_size, delete_subseteq. Qed.

Lemma size_insert_le k i (m : gmap Z FriendInfo) : (base.size (<[k := i]> m) <= S (base.size m))%nat.
Proof. rewrite map_size_insert. destruct (m !! k); [by apply le_S|done]. Qed.

Lemma on_list_delete flag k m : (on_list flag (delete k m) <= on_list flag m)%nat.
Proof. unfold on_list. rewrite map_filter_delete. apply size_delete_le. Qed.

Lemma on_list_insert flag k i m :
  (on_list flag (<[k := i]> m) <= S (on_list flag m))%nat.
Proof.
  unfold on_list. destruct (decide (has_flag flag i = true)) as [Hi|Hi].
  - rewrite map_filter_insert_True by done. apply size_insert_le.
  - rewrite map_filter_insert_False by done. apply le_S, on_list_delete.
Qed.

Lemma on_list_insert_same flag k i m :
  (has_flag flag i = true -> exists j, m !! k = Some j /\ has_flag flag j = true) ->
  (on_list flag (<[k := i]> m) <= on_list flag m)%nat.
Proof.
  intros H. unfold on_list. destruct (decide (has_flag flag i = true)) as [Hi|Hi].
  - destruct (H Hi) as (j & Hj & Hf). rewrite map_filter_insert_True by done.
    rewrite map_size_insert_Some; [done|]. exists j. by apply map_lookup_filter_Some.
  - rewrite map_filter_insert_False by done. apply on_list_delete.
Qed.

Definition within_limits (m : gmap Z FriendInfo) : Prop :=
  forall flag, list_flag flag -> Z.of_nat (on_list flag m) <= limit_of flag.

Inductive social_op := SAdd (g flag : Z) | SRemove (g flag : Z).
Definition op_flag (op : social_op) : Z := match op with SAdd _ f | SRemove _ f => f end.
Definition op_guid (op : social_op) : Z := match op with SAdd g _ | SRemove g _ => g end.
Definition social_run (op : social_op) (s : social_state) : social_state :=
  match op with
  | SAdd g f => (AddToSocialList g f s).2
  | SRemove g f => RemoveFromSocialList g f s
  end.

Lemma limit_small flag : list_flag flag -> limit_of flag <= 50.
Proof. by intros [-> | ->]. Qed.

Lemma full_spec flag p :
  list_flag flag -> within_limits (m_playerSocialMap p) ->
  GetNumberOfSocialsWithFlag flag p = Z.of_nat (on_list flag (m_playerSocialMap p)).
Proof.
  intros Hf Hl. pose proof (Hl flag Hf). pose proof (limit_small flag Hf).
  apply wrap_small. unfold is_u, on_list in *. lia.
Qed.

Lemma add_limits g flag s :
  list_flag flag -> within_limits (m_playerSocialMap s.1) ->
  within_limits (m_playerSocialMap (AddToSocialList g flag s).2.1).
Proof.
  destruct s as [p t]. intros Hf Hl flag' Hf'. simpl in *. unfold AddToSocialList.
  rewrite full_spec by done. rewrite Z.geb_leb.
  destruct (Z.leb_spec (limit_of flag) (Z.of_nat (on_list flag (m_playerSocialMap p)))); [by apply Hl|].
  destruct (decide (flag' = flag)) as [->|Hne].
  - destruct (m_playerSocialMap p !! g) as [i|]; simpl;
      match goal with |- context [on_list flag (<[g := ?v]> ?m)] =>
        pose proof (on_list_insert flag g v m) end; lia.
  - specialize (Hl flag' Hf'). apply Z.eqb_neq in Hne.
    destruct (m_playerSocialMap p !! g) as [i|] eqn:E; simpl.
    + etrans; [|exact Hl]. apply inj_le, on_list_insert_same. rewrite has_flag_add, Hne, orb_false_r by done.
      eauto.
    + etrans; [|exact Hl]. apply inj_le, on_list_insert_same.
      change (set_Flags (u32 (Z.lor 0 flag)) FriendInfo_new)
        with (set_Flags (u32 (Z.lor (Flags FriendInfo_new) flag)) FriendInfo_new).
      rewrite has_flag_add, Hne, orb_false_r by done. by destruct Hf' as [-> | ->].
Qed.

Lemma remove_limits g flag s :
  within_limits (m_playerSocialMap s.1) ->
  within_limits (m_playerSocialMap (RemoveFromSocialList g flag s).1).
Proof.
  destruct s as [p t]. intros Hl flag' Hf'. cbn [fst] in Hl. specialize (Hl flag' Hf').
  unfold RemoveFromSocialList. generalize (GetCounter g). intros key.
  destruct (m_playerSocialMap p !! key) as [i|] eqn:E; [|done].
  destruct (negb _); cbn [fst set_social m_playerSocialMap].
  - pose proof (on_list_delete flag' key (m_playerSocialMap p)). lia.
  - etrans; [|exact Hl]. apply inj_le, on_list_insert_same. intros H'%has_flag_remove; [|done]. eauto.
Qed.

(** C18. However a player edits his lists, he never has more than 50 friends
    nor ignores more than 25 players; adding fails exactly when the list in
    question is full, and a failed addition changes neither the list nor the
    database. *)
Theorem social_limits guid ops t :
  Forall (fun op => list_flag (op_flag op)) ops ->
  let s := foldl (fun s op => social_run op s) (mkPS guid ∅, t) ops in
  within_limits (m_playerSocialMap s.1) /\
  forall g flag, list_flag flag ->
    (AddToSocialList g flag s).1 = bool_decide (Z.of_nat (on_list flag (m_playerSocialMap s.1)) < limit_of flag) /\
    ((AddToSocialList g flag s).1 = false -> (AddToSocialList g flag s).2 = s).
Proof.
  intros Hops s. assert (within_limits (m_playerSocialMap s.1)) as Hl.
  { subst s. cut (within_limits (m_playerSocialMap (mkPS guid ∅, t).1)).
    - generalize (mkPS guid ∅, t). induction Hops as [|op ops Hop _ IH]; intros s Hs; [done|]. simpl.
      apply IH. destruct op; [by apply add_limits|by apply remove_limits].
    - intros flag Hf. simpl. unfold on_list. rewrite map_filter_empty, map_size_empty.
      by destruct Hf as [-> | ->]. }
  split; [done|]. intros g flag Hf. clearbody s. destruct s as [p t']. simpl in Hl. unfold AddToSocialList.
  rewrite full_spec by assumption. rewrite Z.geb_leb. simpl. case_bool_decide as Hlt.
  - rewrite (proj2 (Z.leb_gt _ _)) by done. by case_match.
  - rewrite (proj2 (Z.leb_le _ _)) by lia. done.
Qed.

Lemma social_limits_witness :
  let s := foldl (fun s op => social_run op s) (mkPS 5 ∅, [])
             [SAdd 7 SOCIAL_FLAG_FRIEND; SAdd 8 SOCIAL_FLAG_IGNORED; SRemove 7 SOCIAL_FLAG_FRIEND] in
  within_limits (m_playerSocialMap s.1) /\
  forall g flag, list_flag flag ->
    (AddToSocialList g flag s).1 = bool_decide (Z.of_nat (on_list flag (m_playerSocialMap s.1)) < limit_of flag) /\
    ((AddToSocialList g flag s).1 = false -> (AddToSocialList g flag s).2 = s).
Proof. apply social_limits. repeat constructor; by (left + right). Defined.

(** ** The database *)

(** The rows of one player, as [LoadFromDB] gets them. *)
Definition rows_of (me : Z) (t : table) : list (Z * Z) :=
  (fun r => (r.1.2, r.2)) <$> filter (fun r => r.1.1 = me) t.

Section persistence.
Context (me : Z) (Hme : is_u 32 me).

(** The table holds exactly the list, each player on it with his one flag. *)
Record synced (s : social_state) : Prop := {
  sync_me : m_playerGUID s.1 = me;
  sync_rows : forall f fl, (f, fl) ∈ rows_of me s.2 <->
                exists i, m_playerSocialMap s.1 !! f = Some i /\ Flags i = fl;
  sync_entries : forall f i, m_playerSocialMap s.1 !! f = Some i ->
                is_u 32 f /\ f <> 0 /\ list_flag (Flags i);
  sync_nodup : NoDup (rows_of me s.2).*1 }.

(** An addition or removal names a player who is on no list, or on just the
    one it is about. *)
Definition own_op (op : social_op) (s : social_state) : Prop :=
  is_u 32 (op_guid op) /\ op_guid op <> 0 /\ list_flag (op_flag op) /\
  forall i, m_playerSocialMap s.1 !! op_guid op = Some i -> Flags i = op_flag op.
Fixpoint own_ops (ops : list social_op) (s : social_state) : Prop :=
  match ops with [] => True | op :: ops' => own_op op s /\ own_ops ops' (social_run op s) end.

Lemma list_flag_u32 fl : list_flag fl -> u32 fl = fl.
Proof. by intros [-> | ->]. Qed.

Lemma rows_of_elem f fl t : (f, fl) ∈ rows_of me t <-> (me, f, fl) ∈ t.
Proof.
  unfold rows_of. rewrite list_elem_of_fmap. split.
  - intros ([[g f'] fl'] & [= -> ->] & [Hg Hr]%list_elem_of_filter). simpl in Hg. by subst.
  - intros Hr. exists (me, f, fl). split; [done|]. by apply list_elem_of_filter.
Qed.

Lemma sql_update_same flag f t :
  (forall fl, (me, f, fl) ∈ t -> fl = flag) -> sql_update flag me f t = t.
Proof.
  intros H. unfold sql_update. induction t as [|[[g f'] fl] t IH]; [done|].
  rewrite fmap_cons, IH by (intros fl' Hfl'; apply H; by right). f_equal.
  destruct (Z.eqb_spec g me) as [->|], (Z.eqb_spec f' f) as [->|]; simpl; try done.
  by rewrite (H fl) by left.
Qed.

Lemma synced_add g flag s : own_op (SAdd g flag) s -> synced s -> synced (AddToSocialList g flag s).2.
Proof.
  intros (Hg & H0 & Hfl & Hown) Hs. destruct s as [p t]. cbn [op_guid op_flag fst] in *. unfold AddToSocialList.
  destruct (_ >=? _); [done|]. pose proof Hs as [H1 H2 H3 H4]. cbn [fst snd] in *.
  rewrite H1, !GetCounter_player by done. destruct (m_playerSocialMap p !! g) as [i|] eqn:E.
  - pose proof (Hown i eq_refl) as Hi. rewrite Hi, Z.lor_diag, list_flag_u32, <- Hi by done.
    rewrite sql_update_same.
    + rewrite (insert_id (m_playerSocialMap p)) by (rewrite E; by destruct i). by destruct p.
    + intros fl Hrow%rows_of_elem. apply H2 in Hrow as (j & Hj & <-). congruence.
  - rewrite Z.lor_0_l, list_flag_u32 by done.
    assert (forall fl, (me, g, fl) ∉ t) as Hnew.
    { intros fl Hrow%rows_of_elem. apply H2 in Hrow as (j & Hj & _). congruence. }
    unfold sql_insert. rewrite bool_decide_eq_false_2 by done.
    assert (rows_of me (t ++ [(me, g, flag)]) = rows_of me t ++ [(g, flag)]) as Hrows.
    { unfold rows_of. rewrite filter_app, fmap_app. f_equal. by rewrite filter_cons_True. }
    constructor; cbn [fst snd set_social m_playerGUID m_playerSocialMap]; [done| | |]; rewrite ?Hrows.
    + intros f fl. rewrite elem_of_app, list_elem_of_singleton, H2. split.
      * intros [(i & Hi & <-)|[= -> ->]]; [|by rewrite lookup_insert_eq; eauto].
        exists i. rewrite lookup_insert_ne; [done|]. congruence.
      * intros (i & Hi & <-). apply lookup_insert_Some in Hi as [[<- <-]|[_ Hi]]; [by right|eauto].
    + intros f i Hi. apply lookup_insert_Some in Hi as [[<- <-]|[_ Hi]]; [done|eauto].
    + rewrite fmap_app. apply NoDup_app. split_and!; [done| |apply NoDup_singleton].
      intros f ([f' fl] & -> & Hf)%list_elem_of_fmap Hx%list_elem_of_singleton. simpl in Hx. subst.
      by apply (Hnew fl), rows_of_elem.
Qed.

Lemma synced_remove g flag s : own_op (SRemove g flag) s -> synced s -> synced (RemoveFromSocialList g flag s).
Proof.
  intros (Hg & _ & Hfl & Hown) Hs. destruct s as [p t]. cbn [op_guid op_flag fst] in *. unfold RemoveFromSocialList. rewrite GetCounter_player by done.
  pose proof Hs as [H1 H2 H3 H4]. cbn [fst snd] in *.
  destruct (m_playerSocialMap p !! g) as [i|] eqn:E; [|done].
  pose proof (Hown i eq_refl) as Hi. rewrite Hi, Z.land_lnot_diag. simpl negb. cbv iota.
  rewrite H1, GetCounter_player by done. unfold sql_delete.
  assert (rows_of me (filter (fun r => ~ (r.1.1 = me /\ r.1.2 = g)) t) =
          filter (fun r => r.1 <> g) (rows_of me t)) as Hrows.
  { clear. unfold rows_of. induction t as [|[[a b] c] t IH]; [done|].
    destruct (decide (a = me)) as [->|Ha], (decide (b = g)) as [->|Hb].
    - rewrite filter_cons_False by (simpl; tauto). rewrite (filter_cons_True (fun r => r.1.1 = me)) by done.
      rewrite fmap_cons, filter_cons_False by (simpl; tauto). done.
    - rewrite filter_cons_True by (simpl; tauto). rewrite !(filter_cons_True (fun r => r.1.1 = me)) by done.
      rewrite !fmap_cons, filter_cons_True by done. by rewrite IH.
    - rewrite filter_cons_True by (simpl; tauto). by rewrite !(filter_cons_False (fun r => r.1.1 = me)) by done.
    - rewrite filter_cons_True by (simpl; tauto). by rewrite !(filter_cons_False (fun r => r.1.1 = me)) by done. }
  constructor; cbn [fst snd set_social m_playerGUID m_playerSocialMap]; [done| | |]; rewrite ?Hrows.
  - intros f fl. rewrite list_elem_of_filter, H2. simpl. split.
    + intros (Hne & j & Hj & <-). exists j. by rewrite lookup_delete_ne by congruence.
    + intros (j & Hj & <-). apply lookup_delete_Some in Hj as [Hne Hj]. eauto.
  - intros f j [_ Hj]%lookup_delete_Some. eauto.
  - eapply sublist_NoDup; [exact H4|]. by apply fmap_sublist, sublist_filter.
Qed.
End persistence.

(** ** Loading a list back *)

Section loading.
Context (env : SocialEnv).

Definition loadable (r : Z * Z) : Prop :=
  is_u 32 r.1 /\ r.1 <> 0 /\ list_flag r.2 /\ GetPlayerAccountIdByGUID env r.1 <> 0.

Definition with_flag (flag : Z) (rows : list (Z * Z)) : list (Z * Z) := filter (fun r => r.2 = flag) rows.

(** Within the limits no row is skipped. *)
Lemma load_loop_spec rows fc ic m :
  Forall loadable rows -> NoDup rows.*1 -> 0 <= fc -> 0 <= ic ->
  fc + Z.of_nat (length (with_flag SOCIAL_FLAG_FRIEND rows)) <= SOCIALMGR_FRIEND_LIMIT ->
  ic + Z.of_nat (length (with_flag SOCIAL_FLAG_IGNORED rows)) <= SOCIALMGR_IGNORE_LIMIT ->
  (forall f fl, (f, fl) ∈ rows -> load_loop env rows fc ic m !! f = Some (FriendInfo_flags fl)) /\
  (forall f, f ∉ rows.*1 -> load_loop env rows fc ic m !! f = m !! f).
Proof.
  intros Hl. revert fc ic m. induction Hl as [|[f fl] rows (Hf & H0 & Hfl & Ha) _ IH];
    intros fc ic m Hn Hfc Hic Hfl1 Hfl2; [by split; [intros ? ? ?%elem_of_nil|]|].
  rewrite fmap_cons in Hn. apply NoDup_cons in Hn as [Hnew Hn]. cbn [fst snd] in *.
  assert (ObjectGuid_low HIGHGUID_PLAYER f = f) as Hguid.
  { unfold ObjectGuid_low, truth. rewrite (proj2 (Z.eqb_neq f 0)) by done. apply Z.lor_0_r. }
  assert (truth (GetPlayerAccountIdByGUID env f) = true) as Hacc
    by (unfold truth; by rewrite (proj2 (Z.eqb_neq _ 0))).
  assert (exists fc' ic', load_loop env ((f, fl) :: rows) fc ic m =
      load_loop env rows fc' ic' (<[f := FriendInfo_flags fl]> m) /\ 0 <= fc' /\ 0 <= ic' /\
      fc' + Z.of_nat (length (with_flag SOCIAL_FLAG_FRIEND rows)) <= SOCIALMGR_FRIEND_LIMIT /\
      ic' + Z.of_nat (length (with_flag SOCIAL_FLAG_IGNORED rows)) <= SOCIALMGR_IGNORE_LIMIT)
    as (fc' & ic' & -> & ? & ? & ? & ?).
  { unfold with_flag in *. unfold SOCIALMGR_FRIEND_LIMIT, SOCIALMGR_IGNORE_LIMIT in *.
    destruct Hfl as [-> | ->].
    - rewrite filter_cons_True in Hfl1 by done. rewrite filter_cons_False in Hfl2 by done. simpl in Hfl1.
      exists (fc + 1), ic. split_and!; try lia. cbn [load_loop]. rewrite Hguid, Hacc.
      rewrite (Z.geb_leb fc), (proj2 (Z.leb_gt _ _)) by (unfold SOCIALMGR_FRIEND_LIMIT; lia). simpl.
      by rewrite wrap_small by (unfold is_u; lia).
    - rewrite filter_cons_False in Hfl1 by done. rewrite filter_cons_True in Hfl2 by done. simpl in Hfl2.
      exists fc, (ic + 1). split_and!; try lia. cbn [load_loop]. rewrite Hguid, Hacc.
      rewrite (Z.geb_leb ic), (proj2 (Z.leb_gt _ _)) by (unfold SOCIALMGR_IGNORE_LIMIT; lia). simpl.
      by rewrite wrap_small by (unfold is_u; lia). }
  destruct (IH fc' ic' (<[f := FriendInfo_flags fl]> m)) as [IH1 IH2]; [done..|]. split.
  - intros g gl [[= -> ->]|Hg]%elem_of_cons; [|by apply IH1].
    rewrite IH2 by done. by rewrite lookup_insert_eq.
  - intros g [Hne Hg]%not_elem_of_cons. rewrite IH2 by done. rewrite lookup_insert_ne; [done|]. by intros ->.
Qed.

(** The rows with a flag are no more than the entries with it. *)
Lemma rows_counted flag rows (m : gmap Z FriendInfo) :
  NoDup rows.*1 -> (forall f, (f, flag) ∈ rows -> exists i, m !! f = Some i /\ has_flag flag i = true) ->
  (length (with_flag flag rows) <= on_list flag m)%nat.
Proof.
  intros Hn H. assert (NoDup (with_flag flag rows).*1) as Hn'.
  { eapply sublist_NoDup; [exact Hn|]. by apply fmap_sublist, sublist_filter. }
  rewrite <- (length_fmap fst), <- (size_list_to_set (C := gset Z)) by done. unfold on_list.
  rewrite <- size_dom. apply subseteq_size. intros f. rewrite elem_of_list_to_set.
  intros ([f' fl] & -> & [Hfl Hr]%list_elem_of_filter)%list_elem_of_fmap. simpl in Hfl. subst fl.
  destruct (H f' Hr) as (i & Hi & Hfi). apply elem_of_dom. exists i. by apply map_lookup_filter_Some.
Qed.
End loading.

(** C35. The database follows the list as long as every addition and removal
    names a player who is, when it is made, on no list of the player or only on
    the list it is about: nobody is put on both lists, and nobody is removed
    from a list he is not on while he is on the other.  Then, from an empty list
    and a table without rows of the player, the rows of the player are exactly
    the entries of his list, and [LoadFromDB] of those rows gives back the same
    players with the same flags, if they all still have accounts. *)
Theorem social_persisted env me ops t f :
  is_u 32 me -> (forall fl g, (me, g, fl) ∉ t) ->
  own_ops ops (mkPS me ∅, t) -> (forall g, GetPlayerAccountIdByGUID env g <> 0) ->
  let s := foldl (fun s op => social_run op s) (mkPS me ∅, t) ops in
  (forall fl, (me, f, fl) ∈ s.2 <-> exists i, m_playerSocialMap s.1 !! f = Some i /\ Flags i = fl) /\
  Flags <$> (load_loop env (rows_of me s.2) 0 0 ∅ !! f) = Flags <$> (m_playerSocialMap s.1 !! f).
Proof.
  intros Hme Ht Hops Hacc s.
  assert (synced me s /\ within_limits (m_playerSocialMap s.1)) as [[H1 H2 H3 H4] Hlim].
  { subst s. cut (synced me (mkPS me ∅, t) /\ within_limits (m_playerSocialMap (mkPS me ∅, t).1)).
    - revert Hops. generalize (mkPS me ∅, t). induction ops as [|op ops IH]; intros s Hops [Hs Hl]; [done|].
      cbn [own_ops foldl] in *. destruct Hops as [Hop Hops]. apply IH; [done|]. pose proof Hop as (_ & _ & Hf & _).
      destruct op as [g fl|g fl]; cbn [social_run op_flag] in *.
      + split; [by apply synced_add|by apply add_limits].
      + split; [by apply synced_remove|by apply remove_limits].
    - split; [|intros flag Hf; cbn; unfold on_list; rewrite map_filter_empty, map_size_empty;
        by destruct Hf as [-> | ->]].
      assert (rows_of me t = []) as Hr.
      { unfold rows_of. rewrite filter_none; [done|]. apply Forall_forall. intros [[g f'] fl] Hr Hg.
        simpl in Hg. subst. by apply (Ht fl f'). }
      constructor; cbn [fst snd m_playerGUID m_playerSocialMap]; rewrite ?Hr; [done| |done|constructor].
      intros f' fl.
      rewrite elem_of_nil. split; [done|]. by intros (i & Hi & _). }
  clearbody s. split; [intros fl; rewrite <- (rows_of_elem me); apply H2|].
  assert (Forall (loadable env) (rows_of me s.2)) as Hload.
  { apply Forall_forall. intros [g fl] (i & Hi & <-)%H2. destruct (H3 g i Hi) as (? & ? & ?).
    split_and!; cbn [fst snd]; auto. }
  assert (forall flag, list_flag flag ->
    Z.of_nat (length (with_flag flag (rows_of me s.2))) <= limit_of flag) as Hcount.
  { intros flag Hf. etrans; [|by apply Hlim]. apply inj_le, rows_counted; [done|].
    intros g (i & Hi & Hfi)%H2. exists i. split; [done|]. unfold has_flag. rewrite Hfi.
    by destruct Hf as [-> | ->]. }
  destruct (load_loop_spec env (rows_of me s.2) 0 0 ∅) as [HL1 HL2]; [done|done|lia|lia| | |].
  - by apply (Hcount SOCIAL_FLAG_FRIEND); left.
  - by apply (Hcount SOCIAL_FLAG_IGNORED); right.
  - destruct (m_playerSocialMap s.1 !! f) as [i|] eqn:E.
    + rewrite (HL1 f (Flags i)) by (apply H2; eauto). simpl. f_equal.
      destruct (H3 f i E) as (_ & _ & Hfl). by destruct Hfl as [-> | ->].
    + rewrite HL2; [done|]. intros ([g fl] & -> & (i & Hi & _)%H2)%list_elem_of_fmap. simpl in E. congruence.
Qed.

(** Asking to stop ignoring a friend who is not ignored corrupts the
    database: the list keeps him as a friend, but the row of the table becomes
    an ignore entry, which the next login loads. *)
Theorem remove_other_flag_corrupts me g i p t :
  is_u 32 me -> is_u 32 g -> m_playerGUID p = me ->
  m_playerSocialMap p !! g = Some i -> Flags i = SOCIAL_FLAG_FRIEND ->
  (me, g, SOCIAL_FLAG_FRIEND) ∈ t ->
  let s := RemoveFromSocialList g SOCIAL_FLAG_IGNORED (p, t) in
  HasFriend g s.1 = true /\ HasIgnore g s.1 = false /\
  (me, g, SOCIAL_FLAG_IGNORED) ∈ s.2 /\ (me, g, SOCIAL_FLAG_FRIEND) ∉ s.2.
Proof.
  intros Hme Hg Hp Hi Hfl Ht. unfold RemoveFromSocialList. rewrite GetCounter_player, Hi, Hfl by done.
  simpl truth. cbv zeta. change (negb (truth (u32 (Z.land SOCIAL_FLAG_FRIEND (Z.lnot SOCIAL_FLAG_IGNORED)))))
    with false. cbv iota. rewrite Hp, GetCounter_player by done. cbn [fst snd].
  unfold HasFriend, HasIgnore. rewrite GetCounter_player by done.
  cbn [set_social m_playerSocialMap]. rewrite lookup_insert_eq. split_and!; [done|done| |].
  - unfold sql_update. apply list_elem_of_fmap. exists (me, g, SOCIAL_FLAG_FRIEND).
    by rewrite !Z.eqb_refl.
  - unfold sql_update. rewrite list_elem_of_fmap. intros ([[a b] c] & Heq & _).
    destruct (Z.eqb_spec a me), (Z.eqb_spec b g); simpl in Heq; simplify_eq; done.
Qed.

Module SocialDemo.
Definition env : SocialEnv :=
  mkSE (fun _ => None) (fun _ => 1) false 0 (fun m => (map_to_list m).*1).
Definition ops : list social_op :=
  [SAdd 7 SOCIAL_FLAG_FRIEND; SAdd 8 SOCIAL_FLAG_IGNORED; SAdd 9 SOCIAL_FLAG_IGNORED;
   SRemove 9 SOCIAL_FLAG_IGNORED; SRemove 7 SOCIAL_FLAG_FRIEND; SAdd 7 SOCIAL_FLAG_IGNORED].
End SocialDemo.

Lemma social_persisted_witness :
  let s := foldl (fun s op => social_run op s) (mkPS 5 ∅, [(6, 7, 1)]) SocialDemo.ops in
  (forall fl, (5, 7, fl) ∈ s.2 <-> exists i, m_playerSocialMap s.1 !! 7 = Some i /\ Flags i = fl) /\
  Flags <$> (load_loop SocialDemo.env (rows_of 5 s.2) 0 0 ∅ !! 7) = Flags <$> (m_playerSocialMap s.1 !! 7).
Proof.
  apply (social_persisted SocialDemo.env 5 SocialDemo.ops [(6, 7, 1)] 7).
  - unfold is_u. lia.
  - intros fl g [[=]|[]%elem_of_nil]%elem_of_cons.
  - unfold SocialDemo.ops. cbn [own_ops].
    repeat (split; [split; [cbn; unfold is_u; lia|split; [done|split; [by (left + right)|vm_compute; by intros ? [=<-]]]]|]). done.
  - done.
Defined.

Lemma remove_other_flag_corrupts_witness :
  let s := RemoveFromSocialList 7 SOCIAL_FLAG_IGNORED
             (mkPS 5 {[7 := FriendInfo_flags SOCIAL_FLAG_FRIEND]}, [(5, 7, SOCIAL_FLAG_FRIEND)]) in
  HasFriend 7 s.1 = true /\ HasIgnore 7 s.1 = false /\
  (5, 7, SOCIAL_FLAG_IGNORED) ∈ s.2 /\ (5, 7, SOCIAL_FLAG_FRIEND) ∉ s.2.
Proof.
  apply (remove_other_flag_corrupts 5 7 (FriendInfo_flags SOCIAL_FLAG_FRIEND)).
  - unfold is_u. lia.
  - unfold is_u. lia.
  - done.
  - by vm_compute.
  - done.
  - by left.
Defined.

(** ** Who sees what *)

(** A friend is shown online only to players who may see him: whatever
    the status, an ordinary player never learns the zone, level or class of a
    player of the other faction (unless the lists are shared), of a game master
    above the visible level, of one hidden from him, or of one who switched his
    social presence off; such friends look exactly like offline ones. *)
Theorem hidden_friend_offline env pl f g fi :
  mp_guid pl <> g -> FindMasterPlayer env g = Some f -> mp_security pl = 0 ->
  is_Some (m_playerSocialMap (mp_social pl) !! g) ->
  (mp_team f <> mp_team pl /\ CONFIG_ALLOW_TWO_SIDE_WHO_LIST env = false) \/
  CONFIG_GM_LEVEL_IN_WHO_LIST env < mp_security f \/ mp_visibleFor f (mp_guid pl) = false \/
  Z.testbit (mp_extraFlags f) 10 = true ->
  GetFriendInfo env (Some pl) g fi =
  GetFriendInfo (mkSE (fun _ => None) (GetPlayerAccountIdByGUID env) (CONFIG_ALLOW_TWO_SIDE_WHO_LIST env)
    (CONFIG_GM_LEVEL_IN_WHO_LIST env) (order env)) (Some pl) g fi.
Proof.
  intros Hg Hf Hs [i Hi] Hhide. unfold GetFriendInfo. rewrite (proj2 (Z.eqb_neq _ _)) by done.
  rewrite Hi, Hf. cbn [FindMasterPlayer].
  assert (sees env pl f = false) as ->; [|done]. unfold sees. rewrite Hs. simpl (0 >? 0). rewrite orb_false_l.
  destruct Hhide as [[Ht Ha]|[Hl|[Hv|Hx]]].
  - rewrite (proj2 (Z.eqb_neq _ _) Ht), Ha. done.
  - rewrite (proj2 (Z.leb_gt _ _) Hl), andb_false_r. done.
  - by rewrite Hv, andb_false_r.
  - rewrite andb_false_iff. right. apply Z.eqb_neq. intros H0.
    assert (Z.testbit (Z.land (mp_extraFlags f) PLAYER_EXTRA_GM_DISABLE_SOCIAL) 10 = true) as Hb
      by (by rewrite Z.land_spec, Hx). by rewrite H0 in Hb.
Qed.

Lemma hidden_friend_offline_witness :
  let social := mkPS 5 {[7 := FriendInfo_flags SOCIAL_FLAG_FRIEND]} in
  let pl := mkMP 5 0 469 12 20 1 false false 0 (fun _ => true) social in
  let gm := mkMP 7 3 469 1519 60 1 false false 0 (fun _ => true) PlayerSocial_new in
  let env who := mkSE who (fun _ => 1) false 0 (fun m => (map_to_list m).*1) in
  GetFriendInfo (env (fun g => if g =? 7 then Some gm else None)) (Some pl) 7 FriendInfo_new =
  GetFriendInfo (env (fun _ => None)) (Some pl) 7 FriendInfo_new.
Proof.
  intros social pl gm env.
  apply (hidden_friend_offline (env (fun g => if g =? 7 then Some gm else None)) pl gm 7 FriendInfo_new).
  - vm_compute. discriminate.
  - done.
  - done.
  - exists (FriendInfo_flags SOCIAL_FLAG_FRIEND). by vm_compute.
  - right. left. by vm_compute.
Defined.
