(* ===== verification/Reputation.v ===== *)
(** * Reputation: a player's standing with the factions

    Model of [src/game/ReputationMgr.h] and [ReputationMgr.cpp], with the
    faction record of [src/game/Database/DBCStructure.h].  A [FactionState*]
    into [m_factions] is the key of its node, which [std::map] keeps in place.
    Signed 32 bit arithmetic that overflows is undefined, and so is an access
    before the array [PointsInRank]; the product of a standing and a
    spillover rate is the IEEE single precision one, rounded to nearest. *)

From S2P Require Import Prelude ByteBuffer Codec ObjectGuid Packets.
From Stdlib Require Import SpecFloat.

Local Open Scope prog_scope.

(** ** Data *)

Definition FACTION_FLAG_VISIBLE := 0x01.
Definition FACTION_FLAG_AT_WAR := 0x02.
Definition FACTION_FLAG_HIDDEN := 0x04.
Definition FACTION_FLAG_INVISIBLE_FORCED := 0x08.
Definition FACTION_FLAG_PEACE_FORCED := 0x10.
Definition FACTION_FLAG_INACTIVE := 0x20.

Definition REP_HATED := 0.
Definition REP_HOSTILE := 1.
Definition REP_UNFRIENDLY := 2.
Definition REP_NEUTRAL := 3.
Definition MAX_REPUTATION_RANK : nat := 8.
Definition MAX_SPILLOVER_FACTIONS : nat := 4.

Definition SMSG_INITIALIZE_FACTIONS := 0x122.
Definition SMSG_SET_FACTION_VISIBLE := 0x123.
Definition SMSG_SET_FACTION_STANDING := 0x124.
Definition SMSG_SET_FORCED_REACTIONS := 0x2A5.

(** A C array of four is a function of the index. *)
Record FactionEntry := mkFaction {
  fe_ID : Z; reputationListID : Z;
  BaseRepRaceMask : nat -> Z; BaseRepClassMask : nat -> Z;
  BaseRepValue : nat -> Z; ReputationFlags : nat -> Z }.

Record FactionState := mkFS {
  ID : Z; ReputationListID : Z; Flags : Z; Standing : Z; needSend : bool; needSave : bool }.

#[global] Instance FactionState_eq_dec : EqDecision FactionState.
Proof. solve_decision. Defined.

(** A value-initialised node of [m_factions]. *)
Definition FactionState_default : FactionState := mkFS 0 0 0 0 false false.

Definition set_Flags v f := mkFS (ID f) (ReputationListID f) v (Standing f) (needSend f) (needSave f).
Definition set_Standing v f := mkFS (ID f) (ReputationListID f) (Flags f) v (needSend f) (needSave f).
Definition set_needSend v f := mkFS (ID f) (ReputationListID f) (Flags f) (Standing f) v (needSave f).
Definition set_needSave v f := mkFS (ID f) (ReputationListID f) (Flags f) (Standing f) (needSend f) v.
(** [faction->needSend = true; faction->needSave = true;] *)
Definition touch f := set_needSave true (set_needSend true f).
Definition has_flag (flag : Z) (f : FactionState) : bool := truth (Z.land (Flags f) flag).

Record ReputationMgr := mkRM { m_factions : gmap Z FactionState; m_forcedReactions : gmap Z Z }.
Definition set_factions v m := mkRM v (m_forcedReactions m).
Definition set_forced v m := mkRM (m_factions m) v.

Record RepSpilloverTemplate := mkSpill {
  faction : nat -> Z; faction_rate : nat -> spec_float; faction_rank : nat -> Z }.

(** The world around a player: his masks, whether he is still loading, the
    faction map in the order it is iterated, spillover templates, the script
    hook [OnReputationChange] (which may replace the standing) and whether he
    qualifies for the diplomat's title. *)
Record RepEnv := mkRepEnv {
  GetRaceMask : Z; GetClassMask : Z; PlayerLoading : bool;
  GetFactionMap : list (Z * FactionEntry);
  GetRepSpilloverTemplate : Z -> option RepSpilloverTemplate;
  OnReputationChange : Z -> Z -> Z;
  HasEarnedDiplomat : bool }.

(** What the manager does to the rest of the world. *)
Inductive rep_event :=
| RepSend (data : WorldPacket)
| RepChanged (factionId : Z)
| RepAwardDiplomat.

(** ** The monad *)

Definition RM (A : Type) : Type := St (ReputationMgr * list rep_event) ByteBufferException A.

Definition rm_get {A} (f : ReputationMgr -> A) : RM A := st_get (fun s => f s.1).
Definition rm_mod (f : ReputationMgr -> ReputationMgr) : RM unit := st_mod (fun s => (f s.1, s.2)).
Definition rm_emit (e : rep_event) : RM unit := st_mod (fun s => (s.1, s.2 ++ [e])).
Definition rm_ub {A} : RM A := fun s => (UB, s).
(** A value that undefined behaviour may keep from existing. *)
Definition rm_opt {A} (o : option A) : RM A := match o with Some a => st_ret a | None => rm_ub end.
(** Build a packet and pass it on. *)
Definition rm_packet {A} (k : ReputationMgr -> PK A) : RM A := fun s =>
  match k s.1 WorldPacket_empty with
  | (Ok a, p) => (Ok a, (s.1, s.2 ++ [RepSend p]))
  | (Throw e, _) => (Throw e, s)
  | (Abort, _) => (Abort, s)
  | (UB, _) => (UB, s)
  | (Diverge, _) => (Diverge, s)
  end.

(** Signed 32 bit addition and subtraction. *)
Definition int32 (z : Z) : option Z := if bool_decide (is_s 32 z) then Some z else None.
Definition add32 (a b : Z) : RM Z := rm_opt (int32 (a + b)).
Definition sub32 (a b : Z) : RM Z := rm_opt (int32 (a - b)).

(** ** Ranks *)

Definition PointsInRank : list Z := [36000; 3000; 3000; 3000; 6000; 12000; 21000; 1000].
Definition Reputation_Cap := 42999.
Definition Reputation_Bottom := -42000.

Definition GetRepPointsToRank (rank : nat) : Z := foldl Z.add 0 (take rank PointsInRank) - 42000.

(** The loop from [i = n - 1] down.  [ReputationRank] is an enumeration over
    [uint32], so that [i >= MIN_REPUTATION_RANK] compares unsigned values and
    always holds: after [i = 0] the loop goes on to read [PointsInRank[-1]]. *)
Fixpoint rank_loop (n : nat) (limit standing : Z) : option Z :=
  match n with
  | O => None
  | S i =>
      match PointsInRank !! i with
      | None => None
      | Some points =>
          let limit' := limit - points in
          if standing >=? limit' then Some (Z.of_nat i) else rank_loop i limit' standing
      end
  end.
Definition ReputationToRank (standing : Z) : option Z :=
  rank_loop MAX_REPUTATION_RANK (Reputation_Cap + 1) standing.

(** ** Faction records *)

Fixpoint fit_loop (n i : nat) (raceMask classMask : Z) (e : FactionEntry) : option nat :=
  match n with
  | O => None
  | S n' =>
      if ((BaseRepRaceMask e i =? 0) || truth (Z.land (BaseRepRaceMask e i) raceMask))
         && ((BaseRepClassMask e i =? 0) || truth (Z.land (BaseRepClassMask e i) classMask))
      then Some i else fit_loop n' (S i) raceMask classMask e
  end.
(** [None] for the index -1. *)
Definition GetIndexFitTo (raceMask classMask : Z) (e : FactionEntry) : option nat :=
  fit_loop 4 0 raceMask classMask e.
Definition CanHaveReputation (e : FactionEntry) : bool := reputationListID e >=? 0.
(** [RepListID(factionEntry->reputationListID)]. *)
Definition list_id (e : FactionEntry) : Z := u32 (reputationListID e).

(** ** Single precision products

    [int32(standing * rate)]: the standing is converted to the nearest float,
    the product rounded, and the result truncated; a result that does not fit
    is undefined. *)
Definition float_of_int (z : Z) : spec_float := binary_normalize 24 128 z 0 false.
Definition int_of_float (f : spec_float) : option Z :=
  match f with
  | S754_zero _ => Some 0
  | S754_finite s m e =>
      let v := if e >=? 0 then Z.pos m * 2 ^ e else Z.pos m / 2 ^ (- e) in
      int32 (if s then - v else v)
  | _ => None
  end.
Definition spillover (standing : Z) (rate : spec_float) : option Z :=
  int_of_float (SFmul 24 128 (float_of_int standing) rate).

(** ** The manager *)

Section reputation.
Context (env : RepEnv).

Definition GetFactionEntry (id : Z) : option FactionEntry :=
  snd <$> List.find (fun r => r.1 =? id) (GetFactionMap env).

Definition GetState_id (id : Z) (m : ReputationMgr) : option FactionState := m_factions m !! id.
Definition GetState (e : option FactionEntry) (m : ReputationMgr) : option FactionState :=
  match e with
  | Some e => if CanHaveReputation e then GetState_id (list_id e) m else None
  | None => None
  end.

Definition GetBaseReputation (e : option FactionEntry) : Z :=
  match e with
  | Some e => match GetIndexFitTo (GetRaceMask env) (GetClassMask env) e with
              | Some idx => BaseRepValue e idx
              | None => 0
              end
  | None => 0
  end.
Definition GetDefaultStateFlags (e : option FactionEntry) : Z :=
  match e with
  | Some e => match GetIndexFitTo (GetRaceMask env) (GetClassMask env) e with
              | Some idx => ReputationFlags e idx
              | None => 0
              end
  | None => 0
  end.

Definition GetReputation (e : option FactionEntry) : RM Z :=
  let! st := rm_get (GetState e) in
  match st with
  | Some st => add32 (GetBaseReputation e) (Standing st)
  | None => st_ret 0
  end.
Definition GetReputation_id (faction_id : Z) : RM Z := GetReputation (GetFactionEntry faction_id).

Definition IsAtWar (e : option FactionEntry) (m : ReputationMgr) : bool :=
  match GetState e m with Some st => has_flag FACTION_FLAG_AT_WAR st | None => false end.
Definition IsAtWar_id (faction_id : Z) (m : ReputationMgr) : bool := IsAtWar (GetFactionEntry faction_id) m.

Definition GetRank (e : option FactionEntry) : RM Z :=
  let! reputation := GetReputation e in rm_opt (ReputationToRank reputation).
Definition GetBaseRank (e : option FactionEntry) : RM Z :=
  rm_opt (ReputationToRank (GetBaseReputation e)).
(** The faction of a template, [None] for a null template. *)
Definition GetForcedRankIfAny (template : option Z) (m : ReputationMgr) : option Z :=
  match template with Some faction => m_forcedReactions m !! faction | None => None end.
Definition ApplyForceReaction (faction_id rank : Z) (apply : bool) (m : ReputationMgr) : ReputationMgr :=
  set_forced (if apply then <[faction_id := rank]> (m_forcedReactions m)
              else delete faction_id (m_forcedReactions m)) m.

(** *** Packets *)

Fixpoint forced_rows (keys : list Z) (m : gmap Z Z) : PK unit :=
  match keys with
  | [] => st_ret tt
  | k :: keys' =>
      match m !! k with
      | Some rank => pk_u32 k ;;; pk_u32 rank ;;; forced_rows keys' m
      | None => forced_rows keys' m
      end
  end.
Definition SendForceReactions : RM unit :=
  rm_packet (fun m =>
    pk_init SMSG_SET_FORCED_REACTIONS ;;;
    pk_u32 (Z.of_nat (base.size (m_forcedReactions m))) ;;;
    forced_rows (sorted_keys (m_forcedReactions m)) (m_forcedReactions m)).

(** The loop of [SendState]: the other factions to send, and all flags reset. *)
Fixpoint state_rows (keys : list Z) (self : Z) (fs : gmap Z FactionState) (count : Z)
    : PK (gmap Z FactionState * Z) :=
  match keys with
  | [] => st_ret (fs, count)
  | k :: keys' =>
      match fs !! k with
      | None => state_rows keys' self fs count
      | Some sub =>
          if needSend sub then
            let fs' := <[k := set_needSend false sub]> fs in
            if ReputationListID sub =? self then state_rows keys' self fs' count
            else
              pk_u32 (ReputationListID sub) ;;; pk_u32 (Standing sub) ;;;
              state_rows keys' self fs' (u32 (count + 1))
          else state_rows keys' self fs count
      end
  end.
Definition state_packet (f : FactionState) (m : ReputationMgr) : PK (gmap Z FactionState) :=
  pk_init SMSG_SET_FACTION_STANDING ;;;
  let! p_count := st_get (fun p => _wpos (wp_buf p)) in
  pk_u32 1 ;;;
  pk_u32 (ReputationListID f) ;;;
  pk_u32 (Standing f) ;;;
  let! r := state_rows (sorted_keys (m_factions m)) (ReputationListID f) (m_factions m) 1 in
  pk_buf (put_T MANGOS_ENDIAN 4 p_count r.2) ;;;
  st_ret r.1.
(** [SendState(&itr->second)] for the node [id]. *)
Definition SendState (id : Z) : RM unit :=
  let! f := rm_get (GetState_id id) in
  match f with
  | None => st_ret tt
  | Some f =>
      let! fs := rm_packet (state_packet f) in
      rm_mod (set_factions fs)
  end.

(** [n] absent factions of [SendInitialReputations]. *)
Fixpoint absent_rows (n : nat) : PK unit :=
  match n with
  | O => st_ret tt
  | S n' => pk_u8 0 ;;; pk_u32 0 ;;; absent_rows n'
  end.
(** [for (; a != id; ++a)] makes [id - a] rounds, modulo 2^32. *)
Definition rounds (a id : Z) : nat := Z.to_nat (u32 (id - a)).
Fixpoint initial_rows (keys : list Z) (a : Z) (fs : gmap Z FactionState)
    : PK (gmap Z FactionState * Z) :=
  match keys with
  | [] => st_ret (fs, a)
  | k :: keys' =>
      match fs !! k with
      | None => initial_rows keys' a fs
      | Some f =>
          absent_rows (rounds a k) ;;;
          pk_u8 (Flags f) ;;; pk_u32 (Standing f) ;;;
          initial_rows keys' (u32 (k + 1)) (<[k := set_needSend false f]> fs)
      end
  end.
Definition initial_packet (m : ReputationMgr) : PK (gmap Z FactionState) :=
  pk_init SMSG_INITIALIZE_FACTIONS ;;;
  pk_u32 64 ;;;
  let! r := initial_rows (sorted_keys (m_factions m)) 0 (m_factions m) in
  absent_rows (rounds r.2 69) ;;;
  st_ret r.1.
Definition SendInitialReputations : RM unit :=
  let! fs := rm_packet initial_packet in rm_mod (set_factions fs).

Definition SendVisible (f : FactionState) : RM unit :=
  if PlayerLoading env then st_ret tt
  else rm_packet (fun _ => pk_init SMSG_SET_FACTION_VISIBLE ;;; pk_u32 (ReputationListID f)).

(** *** Modifiers *)

Fixpoint initialize_loop (rows : list (Z * FactionEntry)) (fs : gmap Z FactionState) : gmap Z FactionState :=
  match rows with
  | [] => fs
  | (_, e) :: rows' =>
      initialize_loop rows'
        (if CanHaveReputation e then
           <[list_id e := mkFS (fe_ID e) (list_id e) (GetDefaultStateFlags (Some e)) 0 true true]> fs
         else fs)
  end.
Definition Initialize (m : ReputationMgr) : ReputationMgr :=
  set_factions (initialize_loop (GetFactionMap env) ∅) m.

(** Write a node back. *)
Definition put_state (id : Z) (f : FactionState) : RM unit :=
  rm_mod (fun m => set_factions (<[id := f]> (m_factions m)) m).

(** [SetVisible(FactionState* )] on the node [id]. *)
Definition SetVisible_state (id : Z) : RM unit :=
  let! st := rm_get (GetState_id id) in
  match st with
  | None => st_ret tt
  | Some f =>
      if has_flag (Z.lor FACTION_FLAG_INVISIBLE_FORCED FACTION_FLAG_HIDDEN) f then st_ret tt
      else if has_flag FACTION_FLAG_VISIBLE f then st_ret tt
      else
        let f' := touch (set_Flags (Z.lor (Flags f) FACTION_FLAG_VISIBLE) f) in
        put_state id f' ;;; SendVisible f'
  end.
Definition SetVisible (e : option FactionEntry) : RM unit :=
  match e with
  | Some e => if CanHaveReputation e then SetVisible_state (list_id e) else st_ret tt
  | None => st_ret tt
  end.
(** For the faction of a template, [None] for a null template. *)
Definition SetVisible_template (template : option Z) : RM unit :=
  match template with
  | Some faction =>
      if faction =? 0 then st_ret tt
      else match GetFactionEntry faction with Some e => SetVisible (Some e) | None => st_ret tt end
  | None => st_ret tt
  end.

(** [SetAtWar(FactionState*, bool)] on the node [id]. *)
Definition SetAtWar_state (id : Z) (atWar : bool) : RM bool :=
  let! st := rm_get (GetState_id id) in
  match st with
  | None => st_ret false
  | Some f =>
      if has_flag FACTION_FLAG_AT_WAR f && atWar then st_ret false
      else
        let! peace :=
          (if atWar && has_flag FACTION_FLAG_PEACE_FORCED f then
             let! rank := rm_opt (ReputationToRank (Standing f)) in st_ret (rank >? REP_HATED)
           else st_ret false) in
        if peace then st_ret false
        else
          put_state id (touch (set_Flags (if atWar then Z.lor (Flags f) FACTION_FLAG_AT_WAR
                                          else Z.ldiff (Flags f) FACTION_FLAG_AT_WAR) f)) ;;;
          st_ret true
  end.
Definition SetAtWar (repListID : Z) (on : bool) : RM bool :=
  let! st := rm_get (GetState_id repListID) in
  match st with
  | None => st_ret false
  | Some f =>
      if has_flag (Z.lor FACTION_FLAG_INVISIBLE_FORCED FACTION_FLAG_HIDDEN) f then st_ret false
      else SetAtWar_state repListID on
  end.

Definition SetInactive_state (id : Z) (inactive : bool) : RM unit :=
  let! st := rm_get (GetState_id id) in
  match st with
  | None => st_ret tt
  | Some f =>
      if inactive && (has_flag (Z.lor FACTION_FLAG_INVISIBLE_FORCED FACTION_FLAG_HIDDEN) f
                      || negb (has_flag FACTION_FLAG_VISIBLE f)) then st_ret tt
      else if Bool.eqb (has_flag FACTION_FLAG_INACTIVE f) inactive then st_ret tt
      else
        put_state id (touch (set_Flags (if inactive then Z.lor (Flags f) FACTION_FLAG_INACTIVE
                                        else Z.ldiff (Flags f) FACTION_FLAG_INACTIVE) f))
  end.
(** The lookup of [SetInactive(RepListID, bool)] is the one above. *)
Definition SetInactive (repListID : Z) (on : bool) : RM unit := SetInactive_state repListID on.

(** Clamping to the range of the client. *)
Definition clamp (standing : Z) : Z :=
  if standing >? Reputation_Cap then Reputation_Cap
  else if standing <? Reputation_Bottom then Reputation_Bottom
  else standing.

(** The change of the at war flag when a rank changes. *)
Definition war_of_rank (id rankOld rankNew : Z) : RM unit :=
  if (rankNew <? REP_UNFRIENDLY) && (rankNew <? rankOld) && (rankOld >? REP_HOSTILE) then
    SetAtWar_state id true ;;; st_ret tt
  else if (rankNew >? REP_UNFRIENDLY) && (rankNew >? rankOld) && (rankOld <? REP_NEUTRAL) then
    SetAtWar id false ;;; st_ret tt
  else st_ret tt.

Definition SetOneFactionReputation (factionEntry : option FactionEntry) (standing : Z)
    (incremental noBase : bool) : RM bool :=
  match factionEntry with
  | None => st_ret false
  | Some e =>
      let id := list_id e in
      let! st := rm_get (GetState_id id) in
      match st with
      | None => st_ret false
      | Some f =>
          let BaseRep := GetBaseReputation (Some e) in
          let! standing :=
            (if incremental then let! s := add32 (Standing f) BaseRep in add32 standing s
             else st_ret standing) in
          let standing := clamp (OnReputationChange env (fe_ID e) standing) in
          let! old := add32 (Standing f) BaseRep in
          let! rankOld := rm_opt (ReputationToRank old) in
          let! rankNew := rm_opt (ReputationToRank standing) in
          let! own := (if noBase then st_ret standing else sub32 standing BaseRep) in
          put_state id (touch (set_Standing own f)) ;;;
          SetVisible_state id ;;;
          (if negb (rankNew =? rankOld) then war_of_rank id rankOld rankNew else st_ret tt) ;;;
          rm_emit (RepChanged (fe_ID e)) ;;;
          st_ret (rankNew >? rankOld)
      end
  end.

(** The spillover loop over the template's entries from [i]. *)
Fixpoint spillover_loop (n i : nat) (t : RepSpilloverTemplate) (standing : Z) (incremental noBase : bool)
    : RM unit :=
  match n with
  | O => st_ret tt
  | S n' =>
      (if faction t i =? 0 then st_ret tt
       else
         match GetFactionEntry (faction t i) with
         | None => st_ret tt
         | Some e =>
             let! rank := GetRank (Some e) in
             if rank <=? faction_rank t i then
               let! spilloverRep := rm_opt (spillover standing (faction_rate t i)) in
               SetOneFactionReputation (Some e) spilloverRep incremental noBase ;;;
               SendState (list_id e)
             else st_ret tt
         end) ;;;
      spillover_loop n' (S i) t standing incremental noBase
  end.

Definition SetReputation_full (factionEntry : option FactionEntry) (standing : Z)
    (incremental noSpillover noBase : bool) : RM bool :=
  match factionEntry with
  | None => st_ret false
  | Some e =>
      (if noSpillover then st_ret tt
       else match GetRepSpilloverTemplate env (fe_ID e) with
            | Some t => spillover_loop MAX_SPILLOVER_FACTIONS 0 t standing incremental noBase
            | None => st_ret tt
            end) ;;;
      let! st := rm_get (GetState_id (list_id e)) in
      let! res :=
        (match st with
         | Some _ =>
             let! res := SetOneFactionReputation (Some e) standing incremental noBase in
             SendState (list_id e) ;;; st_ret res
         | None => st_ret false
         end) in
      (if ((fe_ID e =? 576) || (fe_ID e =? 609) || (fe_ID e =? 59)) && HasEarnedDiplomat env
       then rm_emit RepAwardDiplomat else st_ret tt) ;;;
      st_ret res
  end.
Definition SetReputation e standing := SetReputation_full e standing false false false.
Definition SetSingleReputation e standing noBase := SetReputation_full e standing false true noBase.
Definition ModifyReputation e standing noSpillover := SetReputation_full e standing true noSpillover false.

(** *** The table [character_reputation]: rows [(guid, faction, standing, flags)],
    the columns of the player read back as [(faction, standing, flags)]. *)

Definition load_row (factionId standing dbFactionFlags : Z) : RM unit :=
  match GetFactionEntry factionId with
  | None => st_ret tt
  | Some e =>
      if CanHaveReputation e then
        let id := list_id e in
        let! st := rm_get (GetState_id id) in
        put_state id (set_Standing (s32 standing) (default FactionState_default st)) ;;;
        (if truth (Z.land dbFactionFlags FACTION_FLAG_VISIBLE) then SetVisible_state id else st_ret tt) ;;;
        (if truth (Z.land dbFactionFlags FACTION_FLAG_INACTIVE) then SetInactive_state id true
         else st_ret tt) ;;;
        (if truth (Z.land dbFactionFlags FACTION_FLAG_AT_WAR) then SetAtWar_state id true ;;; st_ret tt
         else
           let! st := rm_get (GetState_id id) in
           if match st with Some f => has_flag FACTION_FLAG_VISIBLE f | None => false end
           then SetAtWar_state id false ;;; st_ret tt else st_ret tt) ;;;
        let! forced := rm_get (fun m => m_forcedReactions m !! fe_ID e) in
        (match forced with
         | Some rank => if rank <=? REP_HOSTILE then SetAtWar_state id true ;;; st_ret tt else st_ret tt
         | None =>
             let! rank := GetRank (Some e) in
             if rank <=? REP_HOSTILE then SetAtWar_state id true ;;; st_ret tt else st_ret tt
         end) ;;;
        rm_mod (fun m => set_factions
          (alter (fun f => if Flags f =? dbFactionFlags then set_needSave false (set_needSend false f) else f)
             id (m_factions m)) m)
      else st_ret tt
  end.
Fixpoint load_rows (rows : list (Z * Z * Z)) : RM unit :=
  match rows with
  | [] => st_ret tt
  | (factionId, standing, flags) :: rows' => load_row factionId standing flags ;;; load_rows rows'
  end.
Definition LoadFromDB (result : option (list (Z * Z * Z))) : RM unit :=
  rm_mod Initialize ;;;
  match result with Some rows => load_rows rows | None => st_ret tt end.
End reputation.

Definition rep_table : Type := list (Z * Z * Z * Z).
Definition sql_delete (guid factionId : Z) (t : rep_table) : rep_table :=
  filter (fun '(g, f, _, _) => negb ((g =? guid) && (f =? factionId))) t.
Definition sql_insert (guid factionId standing flags : Z) (t : rep_table) : rep_table :=
  t ++ [(guid, factionId, standing, flags)].

Fixpoint save_loop (guid : Z) (keys : list Z) (fs : gmap Z FactionState) (t : rep_table)
    : gmap Z FactionState * rep_table :=
  match keys with
  | [] => (fs, t)
  | k :: keys' =>
      match fs !! k with
      | Some f =>
          if needSave f then
            save_loop guid keys' (<[k := set_needSave false f]> fs)
              (sql_insert guid (ID f) (Standing f) (Flags f) (sql_delete guid (ID f) t))
          else save_loop guid keys' fs t
      | None => save_loop guid keys' fs t
      end
  end.
Definition SaveToDB (guid : Z) (m : ReputationMgr) (t : rep_table) : ReputationMgr * rep_table :=
  let '(fs, t') := save_loop guid (sorted_keys (m_factions m)) (m_factions m) t in
  (set_factions fs m, t').

(** ** Ranks and points *)

Lemma int32_ok z : is_s 32 z -> int32 z = Some z.
Proof. intros. unfold int32. by rewrite bool_decide_eq_true_2. Qed.

(** The thresholds of the ranks, as numbers. *)
Definition rank_of (standing : Z) : Z :=
  if standing <? -6000 then 0 else if standing <? -3000 then 1 else if standing <? 0 then 2
  else if standing <? 3000 then 3 else if standing <? 9000 then 4
  else if standing <? 21000 then 5 else if standing <? 42000 then 6 else 7.

Lemma ReputationToRank_spec standing :
  ReputationToRank standing = if standing <? -42000 then None else Some (rank_of standing).
Proof.
  unfold ReputationToRank, MAX_REPUTATION_RANK, Reputation_Cap, rank_of. cbn.
  repeat match goal with |- context [?a >=? ?b] => rewrite (Z.geb_leb a b) end.
  repeat case_match; bool_prop; try lia; done.
Qed.

Ltac split_ranks :=
  repeat case_match; bool_prop;
  (split; [intros E; simplify_eq; lia|intros (? & ? & [?|?]); first [done|lia]]).

(** The ranks partition the standings: [ReputationToRank] returns rank
    [r] exactly for the standings from the points [r] takes to those the next
    rank takes (the highest rank has no upper end), and it is undefined
    exactly below the lowest standing, where the loop's unsigned comparison
    lets it read before the array. *)
Theorem rank_thresholds standing :
  (forall r : nat, ReputationToRank standing = Some (Z.of_nat r) <->
     (r < MAX_REPUTATION_RANK)%nat /\ GetRepPointsToRank r <= standing /\
     (standing < GetRepPointsToRank (S r) \/ S r = MAX_REPUTATION_RANK)) /\
  (ReputationToRank standing = None <-> standing < Reputation_Bottom).
Proof.
  rewrite ReputationToRank_spec. unfold Reputation_Bottom, rank_of, MAX_REPUTATION_RANK, GetRepPointsToRank. split.
  - intros r. destruct (decide (r < 8)%nat) as [Hr|Hr].
    + do 8 (destruct r as [|r]; [cbn; split_ranks|]). lia.
    + split; [|lia]. intros E. repeat case_match; simplify_eq; lia.
  - case_match; bool_prop; split; intros; try done; lia.
Qed.

(** ** What the packets leave behind *)

Lemma set_needSend_same f : needSend f = false -> set_needSend false f = f.
Proof. destruct f. simpl. by intros ->. Qed.

(** [reset keys fs fs']: the flags of [keys] are reset, and nothing else. *)
Definition reset (keys : list Z) (fs fs' : gmap Z FactionState) : Prop :=
  forall j, fs' !! j = if decide (j ∈ keys) then set_needSend false <$> fs !! j else fs !! j.

Lemma reset_step k keys fs fs1 fs' :
  k ∉ keys -> fs1 !! k = set_needSend false <$> fs !! k -> (forall j, j <> k -> fs1 !! j = fs !! j) ->
  reset keys fs1 fs' -> reset (k :: keys) fs fs'.
Proof.
  intros Hk E1 E2 H j. rewrite (H j). destruct (decide (j = k)) as [->|Hj].
  - rewrite decide_False by done. by rewrite decide_True by (apply elem_of_cons; by left).
  - rewrite E2 by done. by rewrite (decide_ext _ (j ∈ k :: keys)) by (rewrite elem_of_cons; tauto).
Qed.

(** The loop resets the flags and writes at most eight bytes per faction. *)
Lemma state_rows_spec keys self fs count op xs :
  NoDup keys -> Forall (is_u 8) xs -> Z.of_nat (length xs + 8 * length keys) <= 10000000 ->
  exists fs' count' bs,
    state_rows keys self fs count (packet op xs) = (Ok (fs', count'), packet op (xs ++ bs)) /\
    Forall (is_u 8) bs /\ (length bs <= 8 * length keys)%nat /\ reset keys fs fs'.
Proof.
  intros Hn. revert fs count xs. induction Hn as [|k keys Hk Hn IH]; intros fs count xs H8 Hl.
  { exists fs, count, []. rewrite app_nil_r. split_and!; [done|constructor|simpl; lia|].
    intros j. by rewrite decide_False by apply not_elem_of_nil. }
  simpl in Hl. simpl state_rows.
  assert (forall fs1 count1 pre, fs1 !! k = set_needSend false <$> fs !! k ->
    (forall j, j <> k -> fs1 !! j = fs !! j) -> Forall (is_u 8) pre -> (length pre <= 8)%nat ->
    exists fs' count' bs,
      state_rows keys self fs1 count1 (packet op (xs ++ pre)) = (Ok (fs', count'), packet op (xs ++ bs)) /\
      Forall (is_u 8) bs /\ (length bs <= 8 * length (k :: keys))%nat /\ reset (k :: keys) fs fs') as Hstep.
  { intros fs1 count1 pre E1 E2 H8' Hp.
    destruct (IH fs1 count1 (xs ++ pre)) as (fs' & c' & bs & E & ? & ? & Hj);
      [auto with packets|rewrite length_app; lia|].
    exists fs', c', (pre ++ bs). rewrite E, app_assoc.
    split_and!; [done|auto with packets|rewrite length_app; simpl; lia|by eapply reset_step]. }
  pose proof (fun fs1 c1 => Hstep fs1 c1 []) as Hskip. setoid_rewrite app_nil_r in Hskip.
  destruct (fs !! k) as [f|] eqn:Ef; [destruct (needSend f) eqn:Ens; [destruct (_ =? self)|]|].
  - apply Hskip; [by rewrite lookup_insert_eq|intros; by apply lookup_insert_ne|constructor|simpl; lia].
  - rewrite (st_bind_ok _ _ _ tt (packet op (xs ++ le_bytes 4 (ReputationListID f)))) by
      (apply builds_u32; rewrite ?length_le_bytes; [lia|done]).
    rewrite (st_bind_ok _ _ _ tt (packet op ((xs ++ le_bytes 4 (ReputationListID f)) ++ le_bytes 4 (Standing f)))) by
      (apply builds_u32; rewrite ?length_app, ?length_le_bytes; [lia|auto with packets]).
    rewrite <- app_assoc. apply Hstep; [by rewrite lookup_insert_eq|intros; by apply lookup_insert_ne|
      auto with packets|by rewrite length_app, !length_le_bytes].
  - apply Hskip; [by rewrite Ef; simpl; rewrite set_needSend_same|done|constructor|simpl; lia].
  - apply Hskip; [by rewrite Ef|done|constructor|simpl; lia].
Qed.

Definition few (m : ReputationMgr) : Prop := Z.of_nat (base.size (m_factions m)) <= 100000.
Definition sent (m : ReputationMgr) : ReputationMgr := set_factions (set_needSend false <$> m_factions m) m.

Lemma length_sorted_keys (fs : gmap Z FactionState) : length (sorted_keys fs) = base.size fs.
Proof. unfold sorted_keys. by rewrite merge_sort_Permutation, length_fmap, length_map_to_list. Qed.

(** [SendState] of a faction in the table resets every flag and sends one packet. *)
Lemma yields_SendState id m :
  few m -> is_Some (m_factions m !! id) -> yields (SendState id) m tt (sent m).
Proof.
  intros Hf [f Ef] log. unfold few in Hf.
  assert (exists p, state_packet f m WorldPacket_empty = (Ok (set_needSend false <$> m_factions m), p)) as [p Hp].
  { unfold state_packet, pk_init. rewrite st_bind_mod, st_bind_get.
    change (ObjectGuid.Initialize SMSG_SET_FACTION_STANDING WorldPacket_empty)
      with (packet SMSG_SET_FACTION_STANDING []).
    set (hd := le_bytes 4 (ReputationListID f) ++ le_bytes 4 (Standing f)).
    rewrite (st_bind_ok _ _ _ tt (packet SMSG_SET_FACTION_STANDING (le_bytes 4 1))) by
      (apply (builds_u32 1 _ []); [done|constructor]).
    rewrite (st_bind_ok _ _ _ tt (packet SMSG_SET_FACTION_STANDING (le_bytes 4 1 ++ le_bytes 4 (ReputationListID f)))) by
      (apply builds_u32; [done|auto with packets]).
    rewrite (st_bind_ok _ _ _ tt (packet SMSG_SET_FACTION_STANDING (le_bytes 4 1 ++ hd))) by
      (subst hd; rewrite app_assoc; apply builds_u32; [done|auto with packets]).
    destruct (state_rows_spec (sorted_keys (m_factions m)) (ReputationListID f) (m_factions m) 1
      SMSG_SET_FACTION_STANDING (le_bytes 4 1 ++ hd)) as (fs' & c' & bs & E & ? & Hb & Hr);
      [apply NoDup_sorted_keys|subst hd; auto with packets|rewrite length_sorted_keys; simpl; lia|].
    rewrite (st_bind_ok _ _ _ _ _ E), <- app_assoc. cbn [fst snd packet wp_buf _wpos length].
    rewrite (st_bind_ok _ _ _ _ _ (put_packet SMSG_SET_FACTION_STANDING [] (le_bytes 4 1) (hd ++ bs) c'
      eq_refl ltac:(rewrite length_sorted_keys in Hb; rewrite !length_app; simpl; lia))).
    eexists. unfold st_ret. do 2 f_equal. apply map_eq. intros j. rewrite (Hr j), lookup_fmap.
    case_decide as Hd; [done|]. rewrite elem_of_sorted_keys, <- eq_None_not_Some in Hd. by rewrite Hd. }
  exists [RepSend p]. unfold SendState, rm_get. rewrite st_bind_get. unfold GetState_id. simpl. rewrite Ef.
  unfold rm_packet. unfold st_bind. simpl. by rewrite Hp.
Qed.

(** ** One faction at a time *)

Definition with_state (id : Z) (f : FactionState) (m : ReputationMgr) : ReputationMgr :=
  set_factions (<[id := f]> (m_factions m)) m.
Definition concealed (f : FactionState) : bool :=
  has_flag (Z.lor FACTION_FLAG_INVISIBLE_FORCED FACTION_FLAG_HIDDEN) f.
Definition made_visible (f : FactionState) : FactionState :=
  if concealed f || has_flag FACTION_FLAG_VISIBLE f then f
  else touch (set_Flags (Z.lor (Flags f) FACTION_FLAG_VISIBLE) f).
Definition declared (f : FactionState) : FactionState :=
  if has_flag FACTION_FLAG_AT_WAR f || (has_flag FACTION_FLAG_PEACE_FORCED f && (rank_of (Standing f) >? REP_HATED))
  then f else touch (set_Flags (Z.lor (Flags f) FACTION_FLAG_AT_WAR) f).
Definition appeased (f : FactionState) : FactionState :=
  if concealed f then f else touch (set_Flags (Z.ldiff (Flags f) FACTION_FLAG_AT_WAR) f).
(** The fall to hostile or hated, and the rise to neutral or better. *)
Definition falls (rankOld rankNew : Z) : bool :=
  (rankNew <? REP_UNFRIENDLY) && (rankNew <? rankOld) && (rankOld >? REP_HOSTILE).
Definition rises (rankOld rankNew : Z) : bool :=
  (rankNew >? REP_UNFRIENDLY) && (rankNew >? rankOld) && (rankOld <? REP_NEUTRAL).
Definition rewarred (rankOld rankNew : Z) (f : FactionState) : FactionState :=
  if falls rankOld rankNew then declared f else if rises rankOld rankNew then appeased f else f.
(** The standing is one [ReputationToRank] is defined on, where it is asked. *)
Definition peace_ok (f : FactionState) : Prop :=
  has_flag FACTION_FLAG_PEACE_FORCED f = true -> Reputation_Bottom <= Standing f.

Lemma with_state_id id f m : m_factions m !! id = Some f -> with_state id f m = m.
Proof. intros H. unfold with_state, set_factions. rewrite insert_id by done. by destruct m. Qed.
Lemma with_state_with id f g m : with_state id f (with_state id g m) = with_state id f m.
Proof. unfold with_state. simpl. by rewrite insert_insert_eq. Qed.
Lemma lookup_with_state id f m : m_factions (with_state id f m) !! id = Some f.
Proof. apply lookup_insert_eq. Qed.
Lemma few_with_state id f m : is_Some (m_factions m !! id) -> few m -> few (with_state id f m).
Proof. intros H Hf. unfold few in *. simpl. by rewrite map_size_insert_Some. Qed.

Lemma yields_put_state id f m : yields (put_state id f) m tt (with_state id f m).
Proof. apply (yields_mod (with_state id f)). Qed.
Lemma yields_rm_opt {A} (a : A) m : yields (rm_opt (Some a)) m a m.
Proof. apply yields_ret. Qed.
Lemma yields_add32 a b m : is_s 32 (a + b) -> yields (add32 a b) m (a + b) m.
Proof. intros. unfold add32. rewrite int32_ok by done. apply yields_ret. Qed.
Lemma yields_sub32 a b m : is_s 32 (a - b) -> yields (sub32 a b) m (a - b) m.
Proof. intros. unfold sub32. rewrite int32_ok by done. apply yields_ret. Qed.

(** Flags that do not overlap are independent. *)
Lemma land_lor_other x v flag : Z.land v flag = 0 -> Z.land (Z.lor x v) flag = Z.land x flag.
Proof. intros H. by rewrite Z.land_lor_distr_l, H, Z.lor_0_r. Qed.
Lemma land_ldiff_other x v flag : Z.land v flag = 0 -> Z.land (Z.ldiff x v) flag = Z.land x flag.
Proof.
  intros H. apply Z.bits_inj'. intros n Hn. rewrite !Z.land_spec, Z.ldiff_spec.
  apply (f_equal (fun z => Z.testbit z n)) in H. rewrite Z.land_spec, Z.bits_0 in H.
  by destruct (Z.testbit x n), (Z.testbit v n), (Z.testbit flag n).
Qed.

Lemma Standing_made_visible f : Standing (made_visible f) = Standing f.
Proof. unfold made_visible. by case_match. Qed.
Lemma flag_made_visible flag f :
  Z.land FACTION_FLAG_VISIBLE flag = 0 -> has_flag flag (made_visible f) = has_flag flag f.
Proof. intros H. unfold made_visible. case_match; [done|]. unfold has_flag. simpl. by rewrite land_lor_other. Qed.
Lemma visible_made_visible f :
  has_flag FACTION_FLAG_VISIBLE (made_visible f) = has_flag FACTION_FLAG_VISIBLE f || negb (concealed f).
Proof.
  unfold made_visible. destruct (concealed f), (has_flag FACTION_FLAG_VISIBLE f) eqn:E; simpl; try done.
  unfold has_flag, FACTION_FLAG_VISIBLE. simpl.
  rewrite (truth_land_bit _ 0), Z.lor_spec by lia. apply orb_true_r.
Qed.

Lemma Standing_rewarred ro rn f : Standing (rewarred ro rn f) = Standing f.
Proof. unfold rewarred, declared, appeased. by repeat case_match. Qed.
Lemma flag_rewarred flag ro rn f :
  Z.land FACTION_FLAG_AT_WAR flag = 0 -> has_flag flag (rewarred ro rn f) = has_flag flag f.
Proof.
  intros H. unfold rewarred, declared, appeased.
  repeat case_match; try done; unfold has_flag; simpl; by rewrite ?land_lor_other, ?land_ldiff_other.
Qed.
Lemma at_war_declared f :
  has_flag FACTION_FLAG_PEACE_FORCED f = false -> has_flag FACTION_FLAG_AT_WAR (declared f) = true.
Proof.
  intros Hp. unfold declared. rewrite Hp, orb_false_r.
  destruct (has_flag FACTION_FLAG_AT_WAR f) eqn:E; [done|]. unfold has_flag, FACTION_FLAG_AT_WAR. simpl.
  rewrite (truth_land_bit _ 1), Z.lor_spec by lia. apply orb_true_r.
Qed.
Lemma at_war_appeased f : concealed f = false -> has_flag FACTION_FLAG_AT_WAR (appeased f) = false.
Proof.
  intros Hc. unfold appeased. rewrite Hc. unfold has_flag, FACTION_FLAG_AT_WAR. simpl.
  rewrite (truth_land_bit _ 1), Z.ldiff_spec by lia. apply andb_false_r.
Qed.
Lemma needSave_rewarred ro rn f : needSave f = true -> needSave (rewarred ro rn f) = true.
Proof. intros H. unfold rewarred, declared, appeased. by repeat case_match. Qed.
Lemma needSave_made_visible f : needSave f = true -> needSave (made_visible f) = true.
Proof. intros H. unfold made_visible. by case_match. Qed.

Section one_faction.
Context (env : RepEnv).

Lemma yields_SendVisible f m : yields (SendVisible env f) m tt m.
Proof.
  unfold SendVisible. destruct (PlayerLoading env); [apply yields_ret|]. intros log.
  eexists [RepSend _]. unfold rm_packet. rewrite (built _ _ (le_bytes 4 (ReputationListID f)));
    [done|apply builds_u32|done].
Qed.

Lemma yields_SetVisible_state id f m :
  m_factions m !! id = Some f -> yields (SetVisible_state env id) m tt (with_state id (made_visible f) m).
Proof.
  intros Hf. unfold SetVisible_state, made_visible, concealed. apply yields_bind_get. unfold GetState_id.
  rewrite Hf. destruct (has_flag (Z.lor _ _) f); simpl; [rewrite with_state_id by done; apply yields_ret|].
  destruct (has_flag FACTION_FLAG_VISIBLE f); [rewrite with_state_id by done; apply yields_ret|].
  eapply yields_bind; [apply yields_put_state|apply yields_SendVisible].
Qed.

Lemma yields_declare id f m :
  m_factions m !! id = Some f -> peace_ok f ->
  exists b, yields (SetAtWar_state id true) m b (with_state id (declared f) m).
Proof.
  intros Hf Hp. unfold SetAtWar_state, declared.
  destruct (has_flag FACTION_FLAG_AT_WAR f) eqn:Ew.
  { exists false. apply yields_bind_get. unfold GetState_id. rewrite Hf, Ew. simpl.
    rewrite with_state_id by done. apply yields_ret. }
  unfold peace_ok in Hp. destruct (has_flag FACTION_FLAG_PEACE_FORCED f) eqn:Ep; simpl.
  - specialize (Hp eq_refl). unfold Reputation_Bottom in Hp.
    exists (negb (rank_of (Standing f) >? REP_HATED)).
    apply yields_bind_get. unfold GetState_id. rewrite Hf, Ew, Ep. simpl. rewrite ReputationToRank_spec.
    replace (Standing f <? -42000) with false by (symmetry; apply Z.ltb_ge; lia).
    eapply yields_bind; [eapply yields_bind; [apply yields_rm_opt|apply yields_ret]|].
    destruct (rank_of (Standing f) >? REP_HATED); [rewrite with_state_id by done; apply yields_ret|].
    eapply yields_bind; [apply yields_put_state|apply yields_ret].
  - exists true. apply yields_bind_get. unfold GetState_id. rewrite Hf, Ew, Ep. simpl.
    eapply yields_bind; [apply yields_ret|]. simpl.
    eapply yields_bind; [apply yields_put_state|apply yields_ret].
Qed.

Lemma yields_appease id f m :
  m_factions m !! id = Some f ->
  exists b, yields (SetAtWar id false) m b (with_state id (appeased f) m).
Proof.
  intros Hf. exists (negb (concealed f)). unfold SetAtWar, appeased. apply yields_bind_get.
  unfold GetState_id at 1. rewrite Hf. fold (concealed f).
  destruct (concealed f); [rewrite with_state_id by done; apply yields_ret|].
  unfold SetAtWar_state. apply yields_bind_get. unfold GetState_id. rewrite Hf, andb_false_r. simpl.
  eapply yields_bind; [apply yields_ret|]. simpl.
  eapply yields_bind; [apply yields_put_state|apply yields_ret].
Qed.

Lemma yields_war_of_rank id f m ro rn :
  m_factions m !! id = Some f -> peace_ok f ->
  yields (war_of_rank id ro rn) m tt (with_state id (rewarred ro rn f) m).
Proof.
  intros Hf Hp. unfold war_of_rank, rewarred. fold (falls ro rn). fold (rises ro rn).
  destruct (falls ro rn); [|destruct (rises ro rn)].
  - destruct (yields_declare id f m Hf Hp) as [b Hb]. eapply yields_bind; [done|apply yields_ret].
  - destruct (yields_appease id f m Hf) as [b Hb]. eapply yields_bind; [done|apply yields_ret].
  - rewrite with_state_id by done. apply yields_ret.
Qed.

(** What becomes of the state of a faction set to [new]. *)
Definition updated (base new : Z) (f : FactionState) : FactionState :=
  rewarred (rank_of (Standing f + base)) (rank_of new)
    (made_visible (touch (set_Standing (new - base) f))).

Lemma clamp_range x : Reputation_Bottom <= clamp x <= Reputation_Cap.
Proof. unfold clamp, Reputation_Bottom, Reputation_Cap. repeat case_match; bool_prop; lia. Qed.

Lemma yields_rank x m : Reputation_Bottom <= x -> yields (rm_opt (ReputationToRank x)) m (rank_of x) m.
Proof.
  intros H. rewrite ReputationToRank_spec. unfold Reputation_Bottom in H.
  replace (x <? -42000) with false by (symmetry; apply Z.ltb_ge; lia). apply yields_rm_opt.
Qed.

Lemma yields_SetOne e f standing (incremental : bool) m :
  let base := GetBaseReputation env (Some e) in
  let new := clamp (OnReputationChange env (fe_ID e)
    (if incremental then standing + (Standing f + base) else standing)) in
  m_factions m !! list_id e = Some f -> is_s 31 standing ->
  Reputation_Bottom <= base <= Reputation_Cap ->
  Reputation_Bottom <= Standing f + base <= Reputation_Cap ->
  (has_flag FACTION_FLAG_PEACE_FORCED f = true -> Reputation_Bottom + base <= new) ->
  yields (SetOneFactionReputation env (Some e) standing incremental false) m
    (rank_of new >? rank_of (Standing f + base)) (with_state (list_id e) (updated base new f) m).
Proof.
  intros base new Hf Hd Hb Ho Hp. unfold SetOneFactionReputation. apply yields_bind_get.
  unfold GetState_id. rewrite Hf. fold base.
  pose proof (clamp_range (OnReputationChange env (fe_ID e)
    (if incremental then standing + (Standing f + base) else standing))) as Hn. fold new in Hn.
  unfold is_s, Reputation_Bottom, Reputation_Cap in *.
  eapply (yields_bind _ _ _ (if incremental then standing + (Standing f + base) else standing)).
  { destruct incremental; [|apply yields_ret].
    eapply yields_bind; apply yields_add32; unfold is_s; lia. }
  cbv zeta. fold new. eapply yields_bind; [apply yields_add32; unfold is_s; lia|].
  eapply yields_bind; [apply yields_rank; unfold Reputation_Bottom; lia|].
  eapply yields_bind; [apply yields_rank; unfold Reputation_Bottom; lia|].
  eapply yields_bind; [apply yields_sub32; unfold is_s; lia|].
  eapply yields_bind; [apply yields_put_state|].
  eapply yields_bind; [apply yields_SetVisible_state, lookup_with_state|].
  set (g := made_visible _). rewrite with_state_with.
  eapply yields_bind; [|eapply yields_bind; [apply yields_emit|apply yields_ret]].
  destruct (Z.eqb_spec (rank_of new) (rank_of (Standing f + base))) as [E|E]; simpl.
  - unfold updated, rewarred, falls, rises. fold g. rewrite E, Z.ltb_irrefl.
    replace (_ >? rank_of (Standing f + base)) with false by (symmetry; rewrite Z.gtb_ltb; apply Z.ltb_irrefl).
    rewrite !andb_false_r. simpl. apply yields_ret.
  - unfold updated. fold g. rewrite <- (with_state_with (list_id e) (rewarred _ _ g) g m). apply yields_war_of_rank; [apply lookup_with_state|].
    unfold peace_ok. subst g. rewrite flag_made_visible, Standing_made_visible by done. simpl.
    intros Hpf. specialize (Hp Hpf). unfold Reputation_Bottom. lia.
Qed.
End one_faction.

(** ** Changing a reputation *)

Lemma falls_true ro rn : rn <= REP_HOSTILE < ro -> falls ro rn = true.
Proof.
  unfold falls, REP_UNFRIENDLY, REP_HOSTILE. intros H. rewrite Z.gtb_ltb, !andb_true_iff, !Z.ltb_lt. lia.
Qed.
Lemma rises_true ro rn : ro <= REP_UNFRIENDLY < rn -> falls ro rn = false /\ rises ro rn = true.
Proof.
  unfold falls, rises, REP_UNFRIENDLY, REP_HOSTILE, REP_NEUTRAL. intros H. split.
  - replace (rn <? 2) with false by (symmetry; apply Z.ltb_ge; lia). done.
  - rewrite !Z.gtb_ltb, !andb_true_iff, !Z.ltb_lt. lia.
Qed.

(** C36. Setting or changing the reputation of a faction when nothing spills over
    (the caller does not want it, or the faction has no template for it) and the
    test for forced peace is defined (the faction does not force peace, or the
    new value is not below -42000 plus its base; the theorem after this one is
    the other case): it returns; the faction's reputation becomes the new
    value, after scripts had their say, clamped to -42000 .. 42999; the faction
    is marked for saving and becomes visible unless it is hidden; falling to
    hostile declares war unless peace is forced and rising to neutral ends the
    war; no other faction changes, except that none needs sending any more;
    and the result tells whether the rank rose.  The value is below 2^30 in
    size, base and old reputation are between the two bounds, and a packet has
    room for all factions. *)
Theorem set_reputation env e f standing (incremental noSpillover : bool) m log :
  let base := GetBaseReputation env (Some e) in
  let old := Standing f + base in
  let new := clamp (OnReputationChange env (fe_ID e) (if incremental then standing + old else standing)) in
  noSpillover = true \/ GetRepSpilloverTemplate env (fe_ID e) = None ->
  m_factions m !! list_id e = Some f -> few m -> is_s 31 standing ->
  Reputation_Bottom <= base <= Reputation_Cap -> Reputation_Bottom <= old <= Reputation_Cap ->
  (has_flag FACTION_FLAG_PEACE_FORCED f = true -> Reputation_Bottom + base <= new) ->
  exists m' f' evs,
    SetReputation_full env (Some e) standing incremental noSpillover false (m, log) =
      (Ok (rank_of new >? rank_of old), (m', log ++ evs)) /\
    m_factions m' !! list_id e = Some f' /\
    Standing f' + base = new /\ Reputation_Bottom <= new <= Reputation_Cap /\ needSave f' = true /\
    has_flag FACTION_FLAG_VISIBLE f' = has_flag FACTION_FLAG_VISIBLE f || negb (concealed f) /\
    (rank_of new <= REP_HOSTILE < rank_of old ->
       has_flag FACTION_FLAG_PEACE_FORCED f = false -> has_flag FACTION_FLAG_AT_WAR f' = true) /\
    (rank_of old <= REP_UNFRIENDLY < rank_of new ->
       concealed f = false -> has_flag FACTION_FLAG_AT_WAR f' = false) /\
    (forall k, k <> list_id e -> m_factions m' !! k = set_needSend false <$> m_factions m !! k) /\
    m_forcedReactions m' = m_forcedReactions m.
Proof.
  intros base old new Hspill Hf Hw Hd Hb Ho Hp. set (m1 := with_state (list_id e) (updated base new f) m).
  assert (yields (SetReputation_full env (Some e) standing incremental noSpillover false) m
    (rank_of new >? rank_of old) (sent m1)) as Hy.
  { unfold SetReputation_full. eapply yields_bind; [destruct Hspill as [-> | ->]; [|destruct noSpillover]; apply yields_ret|]. apply yields_bind_get.
    unfold GetState_id. rewrite Hf.
    eapply yields_bind; [eapply yields_bind; [by apply yields_SetOne|]|].
    - eapply yields_bind; [|apply yields_ret]. apply yields_SendState; [by apply few_with_state|].
      rewrite lookup_with_state. by eexists.
    - eapply yields_bind; [|apply yields_ret].
      case_match; [apply yields_emit|apply yields_ret]. }
  destruct (Hy log) as [evs He]. exists (sent m1), (set_needSend false (updated base new f)), evs.
  assert (Hl : forall flag, Z.land FACTION_FLAG_VISIBLE flag = 0 ->
    has_flag flag (made_visible (touch (set_Standing (new - base) f))) = has_flag flag f)
    by (intros flag H0; by rewrite flag_made_visible).
  split_and!; [done| | |apply clamp_range|apply clamp_range| | | | | |done].
  - simpl. by rewrite lookup_fmap, lookup_insert_eq.
  - simpl. unfold updated. rewrite Standing_rewarred, Standing_made_visible. simpl. lia.
  - simpl. by apply needSave_rewarred, needSave_made_visible.
  - unfold updated. change (has_flag ?x (set_needSend _ ?y)) with (has_flag x y).
    rewrite flag_rewarred by done. by rewrite visible_made_visible.
  - intros Hr Hpf. change (has_flag ?x (set_needSend _ ?y)) with (has_flag x y).
    unfold updated, rewarred. fold old. rewrite falls_true by done. by apply at_war_declared; rewrite Hl.
  - intros Hr Hc. change (has_flag ?x (set_needSend _ ?y)) with (has_flag x y).
    unfold updated, rewarred. fold old. destruct (rises_true _ _ Hr) as [-> ->].
    apply at_war_appeased. unfold concealed. by rewrite Hl.
  - intros k Hk. simpl. by rewrite lookup_fmap, lookup_insert_ne by done.
Qed.

(** With forced peace the code is undefined at the bottom: when a faction
    that forces peace and starts with a positive reputation falls from above
    hostile to hostile or less, below -42000 plus that base, declaring war asks
    for the rank of the standing without the base, and [ReputationToRank] reads
    before its array. *)
Theorem forced_peace_undefined env e f standing (incremental : bool) m log :
  let base := GetBaseReputation env (Some e) in
  let old := Standing f + base in
  let new := clamp (OnReputationChange env (fe_ID e) (if incremental then standing + old else standing)) in
  m_factions m !! list_id e = Some f -> is_s 31 standing ->
  Reputation_Bottom <= base <= Reputation_Cap -> Reputation_Bottom <= old <= Reputation_Cap ->
  has_flag FACTION_FLAG_PEACE_FORCED f = true -> has_flag FACTION_FLAG_AT_WAR f = false ->
  rank_of new <= REP_HOSTILE < rank_of old -> new < Reputation_Bottom + base ->
  (SetReputation_full env (Some e) standing incremental true false (m, log)).1 = UB.
Proof.
  intros base old new Hf Hd Hb Ho Hpf Hw Hr Hn. revert log.
  pose proof (clamp_range (OnReputationChange env (fe_ID e) (if incremental then standing + old else standing))) as Hc.
  fold new in Hc. set (g := made_visible (touch (set_Standing (new - base) f))).
  assert (has_flag FACTION_FLAG_PEACE_FORCED g = true) as Hgp by (subst g; by rewrite flag_made_visible).
  assert (has_flag FACTION_FLAG_AT_WAR g = false) as Hgw by (subst g; by rewrite flag_made_visible).
  assert (Standing g < -42000) as Hgs
    by (subst g; rewrite Standing_made_visible; simpl; unfold Reputation_Bottom in *; lia).
  unfold is_s, Reputation_Bottom, Reputation_Cap in *. pose proof Ho as Ho'. unfold old in Ho'.
  enough (fails (SetOneFactionReputation env (Some e) standing incremental false) m) as H1.
  { unfold SetReputation_full. eapply fails_after; [apply yields_ret|]. apply fails_bind_get.
    unfold GetState_id. rewrite Hf. by do 2 apply fails_bind. }
  unfold SetOneFactionReputation. apply fails_bind_get. unfold GetState_id. rewrite Hf. fold base.
  eapply (fails_after _ _ _ (if incremental then standing + old else standing)).
  { destruct incremental; [|apply yields_ret].
    eapply yields_bind; apply yields_add32; unfold is_s; lia. }
  cbv zeta. fold new. eapply fails_after; [apply yields_add32; unfold is_s; lia|].
  eapply fails_after; [apply yields_rank; unfold Reputation_Bottom; lia|].
  eapply fails_after; [apply yields_rank; unfold Reputation_Bottom; lia|].
  eapply fails_after; [apply yields_sub32; unfold is_s; lia|].
  eapply fails_after; [apply yields_put_state|].
  eapply fails_after; [apply yields_SetVisible_state, lookup_with_state|].
  fold g old. rewrite with_state_with. apply fails_bind. unfold REP_HOSTILE in Hr.
  replace (rank_of new =? _) with false by (symmetry; apply Z.eqb_neq; lia). cbn [negb].
  unfold war_of_rank. fold (falls (rank_of old) (rank_of new)). rewrite falls_true by done.
  apply fails_bind. unfold SetAtWar_state. apply fails_bind_get. unfold GetState_id.
  rewrite lookup_with_state, Hgw, Hgp. cbn [andb]. do 2 apply fails_bind.
  rewrite ReputationToRank_spec, (proj2 (Z.ltb_lt _ _)) by done. by intros log.
Qed.

Module RepDemo.
Definition entry (id listId base flags : Z) : FactionEntry :=
  mkFaction id listId (fun _ => 0) (fun _ => 0) (fun _ => base) (fun _ => flags).
(** A home faction, at peace and friendly from the start, and a neutral one. *)
Definition stormwind : FactionEntry := entry 72 19 4000 0x11.
Definition booty_bay : FactionEntry := entry 21 1 500 0x00.
Definition env : RepEnv :=
  mkRepEnv 1 1 false [(72, stormwind); (21, booty_bay)] (fun _ => None) (fun _ s => s) false.
Definition start : ReputationMgr := Initialize env (mkRM ∅ ∅).
End RepDemo.

(** Seven thousand points lost in Booty Bay, by default with spillover, which
    it does not have: war, and nothing for Stormwind. *)
Lemma set_reputation_witness :
  exists m' f' evs,
    ModifyReputation RepDemo.env (Some RepDemo.booty_bay) (-7000) false (RepDemo.start, []) =
      (Ok false, (m', evs)) /\
    m_factions m' !! 1 = Some f' /\ Standing f' = -7000 /\ has_flag FACTION_FLAG_AT_WAR f' = true /\
    m_factions m' !! 19 = Some (mkFS 72 19 0x11 0 false true).
Proof.
  unshelve epose proof (set_reputation RepDemo.env RepDemo.booty_bay (mkFS 21 1 0 0 true true)
    (-7000) true false RepDemo.start [] _ _ _ _ _ _ _)
    as (m' & f' & evs & H & Hl & Hs & _ & _ & _ & Hw & _ & Hk & _);
    [vm_compute; intuition congruence..|].
  exists m', f', evs. split_and!; [exact H|exact Hl| | |].
  - change (Standing f' + 500 = -6500) in Hs. lia.
  - apply Hw; vm_compute; intuition congruence.
  - rewrite (Hk 19); vm_compute; congruence.
Defined.

(** Losing fifty thousand points with the home city. *)
Lemma forced_peace_undefined_witness :
  (ModifyReputation RepDemo.env (Some RepDemo.stormwind) (-50000) true (RepDemo.start, [])).1 = UB.
Proof.
  apply (forced_peace_undefined RepDemo.env RepDemo.stormwind (mkFS 72 19 0x11 0 true true));
    vm_compute; intuition congruence.
Defined.
