(* ===== verification/GuildData.v ===== *)
(** * GuildData: guilds, petitions and the tables behind them

    The data of [src/game/Guild/Guild.h] and of [src/game/Guild/GuildMgr.h],
    the registry [GuildMgr] with its petitions
    ([src/game/Guild/GuildMgr.cpp]), and the guild tables of the character
    database, on which statements run in the order they are issued.  Players,
    the configuration, the clock, the scripts and the iteration orders of the
    hash containers are parameters, gathered in [GuildEnv]. *)

From stdpp Require Import gmap fin_maps strings.
From Stdlib Require Import SpecFloat.
From S2P Require Import Prelude ByteBuffer ObjectGuid Packets Effects Social.

Local Open Scope prog_scope.

(** ** Constants *)

Definition GUILD_RANKS_MIN_COUNT := 5.
Definition GUILD_RANKS_MAX_COUNT := 10.

Definition MAX_INTERNAL_PLAYER_NAME := 15.
Definition GUILD_NOTE_MAX_LENGTH := 31.
Definition GUILD_INFO_MAX_LENGTH := 500.
Definition GUILD_MOTD_MAX_LENGTH := 128.
Definition GUILD_MEMBER_BLOCK_SIZE :=
  8 + 1 + (1 + MAX_INTERNAL_PLAYER_NAME) + 4 + 1 + 1 + 4
  + (1 + GUILD_NOTE_MAX_LENGTH) + (1 + GUILD_NOTE_MAX_LENGTH).
Definition GUILD_MEMBER_BLOCK_SIZE_WITHOUT_NOTE :=
  8 + 1 + (1 + MAX_INTERNAL_PLAYER_NAME) + 4 + 1 + 1 + 4 + (1 + 0) + (1 + 0).
Definition GUILD_MAX_MEMBERS_WITH_NOTE :=
  (0x8000 - 10 - GUILD_RANKS_MAX_COUNT - GUILD_INFO_MAX_LENGTH - GUILD_MOTD_MAX_LENGTH)
  / GUILD_MEMBER_BLOCK_SIZE.
Definition GUILD_MAX_MEMBERS :=
  (0x8000 - 10 - GUILD_RANKS_MAX_COUNT - GUILD_INFO_MAX_LENGTH - GUILD_MOTD_MAX_LENGTH)
  / GUILD_MEMBER_BLOCK_SIZE_WITHOUT_NOTE.

Definition GR_GUILDMASTER := 0.
Definition GR_OFFICER := 1.
Definition GR_VETERAN := 2.
Definition GR_MEMBER := 3.
Definition GR_INITIATE := 4.

Definition GR_RIGHT_EMPTY := 0x00000040.
Definition GR_RIGHT_GCHATLISTEN := 0x00000041.
Definition GR_RIGHT_GCHATSPEAK := 0x00000042.
Definition GR_RIGHT_OFFCHATLISTEN := 0x00000044.
Definition GR_RIGHT_OFFCHATSPEAK := 0x00000048.
Definition GR_RIGHT_PROMOTE := 0x000000C0.
Definition GR_RIGHT_DEMOTE := 0x00000140.
Definition GR_RIGHT_INVITE := 0x00000050.
Definition GR_RIGHT_REMOVE := 0x00000060.
Definition GR_RIGHT_SETMOTD := 0x00001040.
Definition GR_RIGHT_EPNOTE := 0x00002040.
Definition GR_RIGHT_VIEWOFFNOTE := 0x00004040.
Definition GR_RIGHT_EOFFNOTE := 0x00008040.
Definition GR_RIGHT_MODIFY_GUILD_INFO := 0x00010040.
Definition GR_RIGHT_ALL := 0x000FF1FF.

Definition GUILD_CREATE_S := 0x00.
Definition GUILD_INVITE_S := 0x01.
Definition GUILD_QUIT_S := 0x03.

Definition ERR_PLAYER_NO_MORE_IN_GUILD := 0x00.
Definition ERR_ALREADY_IN_GUILD_S := 0x03.
Definition ERR_ALREADY_INVITED_TO_GUILD_S := 0x05.
Definition ERR_GUILD_NAME_INVALID := 0x06.
Definition ERR_GUILD_NAME_EXISTS_S := 0x07.
Definition ERR_GUILD_LEADER_LEAVE := 0x08.
Definition ERR_GUILD_PERMISSIONS := 0x08.
Definition ERR_GUILD_PLAYER_NOT_IN_GUILD := 0x09.
Definition ERR_GUILD_PLAYER_NOT_IN_GUILD_S := 0x0A.
Definition ERR_GUILD_PLAYER_NOT_FOUND_S := 0x0B.
Definition ERR_GUILD_NOT_ALLIED := 0x0C.
Definition ERR_GUILD_RANK_TOO_HIGH_S := 0x0D.
Definition ERR_GUILD_RANK_TOO_LOW_S := 0x0E.

Definition GE_PROMOTION := 0x00.
Definition GE_DEMOTION := 0x01.
Definition GE_MOTD := 0x02.
Definition GE_JOINED := 0x03.
Definition GE_LEFT := 0x04.
Definition GE_REMOVED := 0x05.
Definition GE_LEADER_CHANGED := 0x07.
Definition GE_DISBANDED := 0x08.
Definition GE_SIGNED_ON := 0x0C.
Definition GE_SIGNED_OFF := 0x0D.

Definition PETITION_SIGN_OK := 0.
Definition PETITION_SIGN_ALREADY_SIGNED := 1.
Definition PETITION_SIGN_ALREADY_IN_GUILD := 2.
Definition PETITION_SIGN_CANT_SIGN_OWN := 3.
Definition PETITION_SIGN_NEED_MORE := 4.

Definition GUILD_EVENT_LOG_INVITE_PLAYER := 1.
Definition GUILD_EVENT_LOG_JOIN_GUILD := 2.
Definition GUILD_EVENT_LOG_PROMOTE_PLAYER := 3.
Definition GUILD_EVENT_LOG_DEMOTE_PLAYER := 4.
Definition GUILD_EVENT_LOG_UNINVITE_PLAYER := 5.
Definition GUILD_EVENT_LOG_LEAVE_GUILD := 6.
Definition GUILD_EVENTLOG_MAX_RECORDS := 100.

Definition ERR_GUILDEMBLEM_SUCCESS := 0.
Definition ERR_GUILDEMBLEM_NOGUILD := 2.
Definition ERR_GUILDEMBLEM_NOTGUILDMASTER := 3.
Definition ERR_GUILDEMBLEM_NOTENOUGHMONEY := 4.
Definition ERR_GUILDEMBLEM_FAIL_NO_MESSAGE := 5.

Definition PLAYER_STRONG_MAX_LEVEL := 255.
(** Warrior 1, paladin 2, hunter 3, rogue 4, priest 5, shaman 7, mage 8,
    warlock 9, druid 11: the class [c] is bit [c - 1]. *)
Definition CLASSMASK_ALL_PLAYABLE :=
  fold_right Z.lor 0 ((fun c => Z.shiftl 1 (c - 1)) <$> [1; 2; 3; 4; 5; 7; 8; 9; 11]).

(** [(1 << (Class - 1)) & CLASSMASK_ALL_PLAYABLE]: a shift of an [int] by a
    count outside it is undefined. *)
Definition playable (cls : Z) : option bool :=
  if (1 <=? cls) && (cls <=? 32)
  then Some (truth (Z.land (Z.shiftl 1 (cls - 1)) CLASSMASK_ALL_PLAYABLE)) else None.

Definition OnlineMemberCache := 1000.
Definition RosterCache := 1000.
Definition CacheExpiryMs := 4000.

Definition SMSG_GUILD_QUERY_RESPONSE := 0x055.
Definition SMSG_GUILD_INVITE := 0x083.
Definition SMSG_GUILD_DECLINE := 0x086.
Definition SMSG_GUILD_INFO := 0x088.
Definition SMSG_GUILD_ROSTER := 0x08A.
Definition SMSG_GUILD_EVENT := 0x092.
Definition SMSG_GUILD_COMMAND_RESULT := 0x093.
Definition MSG_SAVE_GUILD_EMBLEM := 0x1F1.
Definition CHAT_MSG_GUILD := 0x03.
Definition CHAT_MSG_OFFICER := 0x04.

Definition LANG_GUILD_MASTER := 811.
Definition LANG_GUILD_OFFICER := 812.
Definition LANG_GUILD_VETERAN := 813.
Definition LANG_GUILD_MEMBER := 814.
Definition LANG_GUILD_INITIATE := 815.

(** ** Guilds *)

Record GuildEventLogEntry := mkGEL {
  EventType : Z; PlayerGuid1 : Z; PlayerGuid2 : Z; NewRank : Z; TimeStamp : Z }.

Record MemberSlot := mkMS {
  ms_guid : Z; ms_accountId : Z; ms_Name : string; ms_RankId : Z; ms_Level : Z; ms_Class : Z;
  ms_ZoneId : Z; ms_LogoutTime : Z; ms_PublicNote : string; ms_OfficerNote : string }.

Definition ms_set_RankId (r : Z) (m : MemberSlot) : MemberSlot :=
  mkMS (ms_guid m) (ms_accountId m) (ms_Name m) r (ms_Level m) (ms_Class m) (ms_ZoneId m)
    (ms_LogoutTime m) (ms_PublicNote m) (ms_OfficerNote m).
Definition ms_set_PublicNote (s : string) (m : MemberSlot) : MemberSlot :=
  mkMS (ms_guid m) (ms_accountId m) (ms_Name m) (ms_RankId m) (ms_Level m) (ms_Class m) (ms_ZoneId m)
    (ms_LogoutTime m) s (ms_OfficerNote m).
Definition ms_set_OfficerNote (s : string) (m : MemberSlot) : MemberSlot :=
  mkMS (ms_guid m) (ms_accountId m) (ms_Name m) (ms_RankId m) (ms_Level m) (ms_Class m) (ms_ZoneId m)
    (ms_LogoutTime m) (ms_PublicNote m) s.

Record RankInfo := mkRI { rk_Name : string; rk_Rights : Z }.

Record Emblem := mkEmblem {
  EmblemStyle : Z; EmblemColor : Z; BorderStyle : Z; BorderColor : Z; BackgroundColor : Z }.
Record CreateDate := mkDate { CreatedYear : Z; CreatedMonth : Z; CreatedDay : Z }.

(** The roster packets kept between updates, and their timer. *)
Record RosterPackets := mkRP {
  m_cachedRosterPacket : option WorldPacket; m_cachedOfficerRosterPacket : option WorldPacket;
  m_cacheTimer : Z }.

(** [_Bank], [_InfernoBank]: is the pointer set? *)
Record Guild := mkGuild {
  m_Id : Z; m_Name : string; m_LeaderGuid : Z; m_motd : string; m_info : string;
  m_Created : CreateDate; m_Emblem : Emblem; m_accountsNumber : Z; m_Ranks : list RankInfo;
  m_rosterPackets : RosterPackets; members : gmap Z MemberSlot; m_onlineMemberCache : gset Z;
  m_GuildEventLog : list GuildEventLogEntry; m_GmListeners : gset Z; m_GuildEventLogNextGuid : Z;
  _Bank : bool; _InfernoBank : bool }.

(** [Guild::Guild()]. *)
Definition Guild_new : Guild :=
  mkGuild 0 "" 0 "" "" (mkDate 0 0 0) (mkEmblem 0 0 0 0 0) 0 [] (mkRP None None CacheExpiryMs) ∅ ∅
    [] ∅ 0 false false.

Definition set_Leader v g := mkGuild (m_Id g) (m_Name g) v (m_motd g) (m_info g) (m_Created g)
  (m_Emblem g) (m_accountsNumber g) (m_Ranks g) (m_rosterPackets g) (members g)
  (m_onlineMemberCache g) (m_GuildEventLog g) (m_GmListeners g) (m_GuildEventLogNextGuid g)
  (_Bank g) (_InfernoBank g).
Definition set_Name v g := mkGuild (m_Id g) v (m_LeaderGuid g) (m_motd g) (m_info g) (m_Created g)
  (m_Emblem g) (m_accountsNumber g) (m_Ranks g) (m_rosterPackets g) (members g)
  (m_onlineMemberCache g) (m_GuildEventLog g) (m_GmListeners g) (m_GuildEventLogNextGuid g)
  (_Bank g) (_InfernoBank g).
Definition set_motd v g := mkGuild (m_Id g) (m_Name g) (m_LeaderGuid g) v (m_info g) (m_Created g)
  (m_Emblem g) (m_accountsNumber g) (m_Ranks g) (m_rosterPackets g) (members g)
  (m_onlineMemberCache g) (m_GuildEventLog g) (m_GmListeners g) (m_GuildEventLogNextGuid g)
  (_Bank g) (_InfernoBank g).
Definition set_info v g := mkGuild (m_Id g) (m_Name g) (m_LeaderGuid g) (m_motd g) v (m_Created g)
  (m_Emblem g) (m_accountsNumber g) (m_Ranks g) (m_rosterPackets g) (members g)
  (m_onlineMemberCache g) (m_GuildEventLog g) (m_GmListeners g) (m_GuildEventLogNextGuid g)
  (_Bank g) (_InfernoBank g).
Definition set_Emblem_field v g := mkGuild (m_Id g) (m_Name g) (m_LeaderGuid g) (m_motd g) (m_info g)
  (m_Created g) v (m_accountsNumber g) (m_Ranks g) (m_rosterPackets g) (members g)
  (m_onlineMemberCache g) (m_GuildEventLog g) (m_GmListeners g) (m_GuildEventLogNextGuid g)
  (_Bank g) (_InfernoBank g).
Definition set_accountsNumber v g := mkGuild (m_Id g) (m_Name g) (m_LeaderGuid g) (m_motd g)
  (m_info g) (m_Created g) (m_Emblem g) v (m_Ranks g) (m_rosterPackets g) (members g)
  (m_onlineMemberCache g) (m_GuildEventLog g) (m_GmListeners g) (m_GuildEventLogNextGuid g)
  (_Bank g) (_InfernoBank g).
Definition set_Ranks v g := mkGuild (m_Id g) (m_Name g) (m_LeaderGuid g) (m_motd g) (m_info g)
  (m_Created g) (m_Emblem g) (m_accountsNumber g) v (m_rosterPackets g) (members g)
  (m_onlineMemberCache g) (m_GuildEventLog g) (m_GmListeners g) (m_GuildEventLogNextGuid g)
  (_Bank g) (_InfernoBank g).
Definition set_rosterPackets v g := mkGuild (m_Id g) (m_Name g) (m_LeaderGuid g) (m_motd g) (m_info g)
  (m_Created g) (m_Emblem g) (m_accountsNumber g) (m_Ranks g) v (members g)
  (m_onlineMemberCache g) (m_GuildEventLog g) (m_GmListeners g) (m_GuildEventLogNextGuid g)
  (_Bank g) (_InfernoBank g).
Definition set_members v g := mkGuild (m_Id g) (m_Name g) (m_LeaderGuid g) (m_motd g) (m_info g)
  (m_Created g) (m_Emblem g) (m_accountsNumber g) (m_Ranks g) (m_rosterPackets g) v
  (m_onlineMemberCache g) (m_GuildEventLog g) (m_GmListeners g) (m_GuildEventLogNextGuid g)
  (_Bank g) (_InfernoBank g).
Definition set_onlineCache v g := mkGuild (m_Id g) (m_Name g) (m_LeaderGuid g) (m_motd g) (m_info g)
  (m_Created g) (m_Emblem g) (m_accountsNumber g) (m_Ranks g) (m_rosterPackets g) (members g)
  v (m_GuildEventLog g) (m_GmListeners g) (m_GuildEventLogNextGuid g)
  (_Bank g) (_InfernoBank g).
Definition set_eventLog v n g := mkGuild (m_Id g) (m_Name g) (m_LeaderGuid g) (m_motd g) (m_info g)
  (m_Created g) (m_Emblem g) (m_accountsNumber g) (m_Ranks g) (m_rosterPackets g) (members g)
  (m_onlineMemberCache g) v (m_GmListeners g) n (_Bank g) (_InfernoBank g).
Definition set_GmListeners v g := mkGuild (m_Id g) (m_Name g) (m_LeaderGuid g) (m_motd g) (m_info g)
  (m_Created g) (m_Emblem g) (m_accountsNumber g) (m_Ranks g) (m_rosterPackets g) (members g)
  (m_onlineMemberCache g) (m_GuildEventLog g) v (m_GuildEventLogNextGuid g)
  (_Bank g) (_InfernoBank g).
Definition set_Banks b i g := mkGuild (m_Id g) (m_Name g) (m_LeaderGuid g) (m_motd g) (m_info g)
  (m_Created g) (m_Emblem g) (m_accountsNumber g) (m_Ranks g) (m_rosterPackets g) (members g)
  (m_onlineMemberCache g) (m_GuildEventLog g) (m_GmListeners g) (m_GuildEventLogNextGuid g) b i.
Definition set_identity id name leader info motd created g := mkGuild id name leader motd info created
  (m_Emblem g) (m_accountsNumber g) (m_Ranks g) (m_rosterPackets g) (members g)
  (m_onlineMemberCache g) (m_GuildEventLog g) (m_GmListeners g) (m_GuildEventLogNextGuid g)
  (_Bank g) (_InfernoBank g).

(** ** Petitions

    A signature's pointer to its petition is the petition it is stored in. *)

Record PetitionSignature := mkSig { sg_playerGuid : Z; sg_playerAccount : Z }.

Record Petition := mkPetition {
  pt_id : Z; pt_charterGuid : Z; pt_ownerGuid : Z; pt_name : string; pt_team : Z;
  pt_signatures : list PetitionSignature }.

Definition pt_set_signatures v p :=
  mkPetition (pt_id p) (pt_charterGuid p) (pt_ownerGuid p) (pt_name p) (pt_team p) v.
Definition pt_set_name v p :=
  mkPetition (pt_id p) (pt_charterGuid p) (pt_ownerGuid p) v (pt_team p) (pt_signatures p).

(** ** Players and their cached data *)

Record Player := mkPlayer {
  pl_guid : Z; pl_name : string; pl_level : Z; pl_class : Z; pl_zone : Z; pl_account : Z;
  pl_team : Z; pl_inWorld : bool; pl_guildId : Z; pl_rank : Z; pl_guildIdInvited : Z;
  pl_disabledSocials : bool; pl_money : Z; pl_social : PlayerSocial }.

Definition pl_set_guild (id rank : Z) (p : Player) : Player :=
  mkPlayer (pl_guid p) (pl_name p) (pl_level p) (pl_class p) (pl_zone p) (pl_account p) (pl_team p)
    (pl_inWorld p) id rank (pl_guildIdInvited p) (pl_disabledSocials p) (pl_money p) (pl_social p).
(** [Player::SetInGuild], [Player::SetRank], [Player::SetGuildIdInvited]. *)
Definition SetInGuild (id : Z) (p : Player) : Player := pl_set_guild id (pl_rank p) p.
Definition SetRank (rank : Z) (p : Player) : Player := pl_set_guild (pl_guildId p) rank p.
Definition SetGuildIdInvited (id : Z) (p : Player) : Player :=
  mkPlayer (pl_guid p) (pl_name p) (pl_level p) (pl_class p) (pl_zone p) (pl_account p) (pl_team p)
    (pl_inWorld p) (pl_guildId p) (pl_rank p) id (pl_disabledSocials p) (pl_money p) (pl_social p).
Definition SetInWorld (b : bool) (p : Player) : Player :=
  mkPlayer (pl_guid p) (pl_name p) (pl_level p) (pl_class p) (pl_zone p) (pl_account p) (pl_team p)
    b (pl_guildId p) (pl_rank p) (pl_guildIdInvited p) (pl_disabledSocials p) (pl_money p) (pl_social p).
Definition pl_set_money (m : Z) (p : Player) : Player :=
  mkPlayer (pl_guid p) (pl_name p) (pl_level p) (pl_class p) (pl_zone p) (pl_account p) (pl_team p)
    (pl_inWorld p) (pl_guildId p) (pl_rank p) (pl_guildIdInvited p) (pl_disabledSocials p) m (pl_social p).

Record PlayerCacheData := mkPCD {
  uiLevel : Z; uiAccount : Z; uiClass : Z; uiZoneId : Z; sName : string }.

(** ** The tables

    [guild_member] is keyed by [guid] (its unique key), [guild_rank] by
    [(guildid, rid)], [guild_eventlog] by [(guildid, LogGuid)], [petition] by
    [ownerguid], [petition_sign] by [(petitionguid, playerguid)].  An [INSERT]
    that hits an existing key is refused. *)

Record guild_row := mkGRow {
  gr_name : string; gr_leaderguid : Z; gr_info : string; gr_motd : string; gr_createdate : Z;
  gr_emblem : Emblem }.
Record member_row := mkMRow { mr_guildid : Z; mr_rank : Z; mr_pnote : string; mr_offnote : string }.
Record petition_row := mkPRow { pr_petitionguid : Z; pr_charterguid : Z; pr_name : string }.
Record sign_row := mkSRow { sr_ownerguid : Z; sr_account : Z }.

Record GuildDB := mkDB {
  t_guild : gmap Z guild_row;
  t_guild_member : gmap Z member_row;
  t_guild_rank : gmap (Z * Z) RankInfo;
  t_guild_eventlog : gmap (Z * Z) GuildEventLogEntry;
  t_petition : gmap Z petition_row;
  t_petition_sign : gmap (Z * Z) sign_row }.

Definition GuildDB_empty : GuildDB := mkDB ∅ ∅ ∅ ∅ ∅ ∅.

Definition on_guild f d := mkDB (f (t_guild d)) (t_guild_member d) (t_guild_rank d)
  (t_guild_eventlog d) (t_petition d) (t_petition_sign d).
Definition on_member f d := mkDB (t_guild d) (f (t_guild_member d)) (t_guild_rank d)
  (t_guild_eventlog d) (t_petition d) (t_petition_sign d).
Definition on_rank f d := mkDB (t_guild d) (t_guild_member d) (f (t_guild_rank d))
  (t_guild_eventlog d) (t_petition d) (t_petition_sign d).
Definition on_eventlog f d := mkDB (t_guild d) (t_guild_member d) (t_guild_rank d)
  (f (t_guild_eventlog d)) (t_petition d) (t_petition_sign d).
Definition on_petition f d := mkDB (t_guild d) (t_guild_member d) (t_guild_rank d)
  (t_guild_eventlog d) (f (t_petition d)) (t_petition_sign d).
Definition on_sign f d := mkDB (t_guild d) (t_guild_member d) (t_guild_rank d)
  (t_guild_eventlog d) (t_petition d) (f (t_petition_sign d)).

(** ** The world the guild code works on *)

Record World := mkWorld {
  w_players : gmap Z Player;
  w_names : gmap string Z;
  m_GuildMap : gmap Z Guild;
  m_guid2guild : gmap Z Z;
  m_petitionMap : gmap Z Petition;
  m_guildBankSaveTimer : Z;
  m_GuildIds : Z;
  m_PetitionIds : Z;
  w_db : GuildDB }.

Definition w_set_players v w := mkWorld v (w_names w) (m_GuildMap w) (m_guid2guild w)
  (m_petitionMap w) (m_guildBankSaveTimer w) (m_GuildIds w) (m_PetitionIds w) (w_db w).
Definition w_set_names v w := mkWorld (w_players w) v (m_GuildMap w) (m_guid2guild w)
  (m_petitionMap w) (m_guildBankSaveTimer w) (m_GuildIds w) (m_PetitionIds w) (w_db w).
Definition w_set_guilds v w := mkWorld (w_players w) (w_names w) v (m_guid2guild w)
  (m_petitionMap w) (m_guildBankSaveTimer w) (m_GuildIds w) (m_PetitionIds w) (w_db w).
Definition w_set_guid2guild v w := mkWorld (w_players w) (w_names w) (m_GuildMap w) v
  (m_petitionMap w) (m_guildBankSaveTimer w) (m_GuildIds w) (m_PetitionIds w) (w_db w).
Definition w_set_petitions v w := mkWorld (w_players w) (w_names w) (m_GuildMap w) (m_guid2guild w)
  v (m_guildBankSaveTimer w) (m_GuildIds w) (m_PetitionIds w) (w_db w).
Definition w_set_saveTimer v w := mkWorld (w_players w) (w_names w) (m_GuildMap w) (m_guid2guild w)
  (m_petitionMap w) v (m_GuildIds w) (m_PetitionIds w) (w_db w).
Definition w_set_GuildIds v w := mkWorld (w_players w) (w_names w) (m_GuildMap w) (m_guid2guild w)
  (m_petitionMap w) (m_guildBankSaveTimer w) v (m_PetitionIds w) (w_db w).
Definition w_set_PetitionIds v w := mkWorld (w_players w) (w_names w) (m_GuildMap w) (m_guid2guild w)
  (m_petitionMap w) (m_guildBankSaveTimer w) (m_GuildIds w) v (w_db w).
Definition w_set_db v w := mkWorld (w_players w) (w_names w) (m_GuildMap w) (m_guid2guild w)
  (m_petitionMap w) (m_guildBankSaveTimer w) (m_GuildIds w) (m_PetitionIds w) v.
Definition w_on_db (f : GuildDB -> GuildDB) (w : World) : World := w_set_db (f (w_db w)) w.
Definition w_on_player (guid : Z) (f : Player -> Player) (w : World) : World :=
  w_set_players (alter f guid (w_players w)) w.

(** [ObjectAccessor::FindPlayerNotInWorld], [FindPlayer] (also
    [ObjectMgr::GetPlayer]). *)
Definition FindPlayerNotInWorld (guid : Z) (w : World) : option Player :=
  if guid =? 0 then None else w_players w !! guid.
Definition FindPlayer (guid : Z) (w : World) : option Player :=
  match FindPlayerNotInWorld guid w with
  | Some p => if pl_inWorld p then Some p else None
  | None => None
  end.

(** A member of the list a roster is built from. *)
Record TempMemberInfo := mkTMI { tm_Guid : Z; tm_Member : option Player; tm_Slot : MemberSlot }.

(** A character of the master node, as chat sees it. *)
Record ChatMaster := mkCM {
  cm_guid : Z; cm_name : string; cm_rank : Z; cm_chatTag : Z;
  cm_session : bool; cm_logout : bool; cm_social : option PlayerSocial }.

Record GuildEnv := mkGE {
  member_order : gmap Z MemberSlot -> list Z;
  guild_order : gmap Z Guild -> list Z;
  petition_order : gmap Z Petition -> list Z;
  cache_order : gset Z -> list Z;
  listener_order : gset Z -> list Z;
  sort_by_rank : list TempMemberInfo -> list TempMemberInfo;
  time_now : Z;
  localtime : Z -> Z * Z * Z;
  GetMangosString : Z -> Z -> string;
  GetPlayerDataByGUID : Z -> option PlayerCacheData;
  GetPlayerTeamByGUID : Z -> Z;
  GetZoneIdFromDB : Z -> Z;
  FindChatMaster : Z -> option ChatMaster;
  escape_string : string -> string;
  literal_value : string -> string;
  normalizePlayerName : string -> Z -> bool -> bool * string;
  OnAddMember : Z -> Z -> Z -> Z;
  CONFIG_GUILD_EVENT_LOG_COUNT : Z;
  CONFIG_ALLOW_TWO_SIDE_INTERACTION_GUILD : bool;
  CONFIG_MIN_PETITION_SIGNS : Z }.

(** The text a quoted, escaped literal stands for in a statement. *)
Definition sql_text (env : GuildEnv) (s : string) : string := literal_value env (escape_string env s).

(** Code of the registry and the handlers; code of a guild object, beside the
    world it belongs to. *)
Definition WM (A : Type) : Type := St (World * list effect) ByteBufferException A.
Definition GM (A : Type) : Type := St ((Guild * World) * list effect) ByteBufferException A.

Definition w_get {A} (f : World -> A) : WM A := st_get (fun s => f s.1).
Definition w_mod (f : World -> World) : WM unit := st_mod (fun s => (f s.1, s.2)).
Definition gw_get {A} (f : Guild * World -> A) : GM A := st_get (fun s => f s.1).
Definition gw_mod (f : Guild * World -> Guild * World) : GM unit := st_mod (fun s => (f s.1, s.2)).
Definition g_mod (f : Guild -> Guild) : GM unit := gw_mod (fun c => (f c.1, c.2)).
Definition world_mod (f : World -> World) : GM unit := gw_mod (fun c => (c.1, f c.2)).
Definition sql (f : GuildDB -> GuildDB) : GM unit := world_mod (w_on_db f).
(** ** The registry: [GuildMgr] *)

Definition GUILD_BANK_SAVE_INTERVAL := 60000.

(** [GuildMgr::GuildMgr()], before anything is loaded. *)
Definition World_new : World := mkWorld ∅ ∅ ∅ ∅ ∅ GUILD_BANK_SAVE_INTERVAL 1 1 GuildDB_empty.

(** [IdGenerator<uint32>::Generate] on [m_GuildIds] and on [m_PetitionIds]; [World::StopNow] does not
    stop the call. *)
Definition GenerateGuildId (w : World) : Z * World :=
  (m_GuildIds w, w_set_GuildIds (u32 (m_GuildIds w + 1)) w).

Definition GeneratePetitionID (w : World) : Z * World :=
  (m_PetitionIds w, w_set_PetitionIds (u32 (m_PetitionIds w + 1)) w).

Definition GetGuildById (id : Z) (w : World) : option Guild := m_GuildMap w !! id.

(** The first element in iteration order that satisfies [p]. *)
Fixpoint first_such {V} (p : V -> bool) (m : gmap Z V) (keys : list Z) : option V :=
  match keys with
  | [] => None
  | k :: keys' =>
      match m !! k with
      | Some v => if p v then Some v else first_such p m keys'
      | None => first_such p m keys'
      end
  end.

Definition GuildMemberAdded (guildId memberGuid : Z) (w : World) : World :=
  w_set_guid2guild (<[memberGuid := guildId]> (m_guid2guild w)) w.
Definition GuildMemberRemoved (memberGuid : Z) (w : World) : World :=
  w_set_guid2guild (delete memberGuid (m_guid2guild w)) w.
Definition GetPlayerGuild (lowguid : Z) (w : World) : option Guild :=
  match m_guid2guild w !! lowguid with Some id => GetGuildById id w | None => None end.

Definition RemoveGuild (guildId : Z) (w : World) : World :=
  w_set_guilds (delete guildId (m_GuildMap w)) w.

(** [GuildMgr::AddGuild]: new banks whatever the guild had. *)
Definition AddGuild (guild : Guild) : WM unit :=
  w_mod (fun w => w_set_guilds (<[m_Id guild := set_Banks true true guild]> (m_GuildMap w)) w) ;;;
  ev (EvBank (BankNew false)) ;;; ev (EvBank (BankNew true)).

Section registry.
Context (env : GuildEnv).

Definition GetGuildByName (name : string) (w : World) : option Guild :=
  first_such (fun g => bool_decide (m_Name g = name)) (m_GuildMap w) (guild_order env (m_GuildMap w)).
Definition GetGuildByLeader (guid : Z) (w : World) : option Guild :=
  first_such (fun g => m_LeaderGuid g =? guid) (m_GuildMap w) (guild_order env (m_GuildMap w)).
Definition GetGuildNameById (guildId : Z) (w : World) : string :=
  match m_GuildMap w !! guildId with Some g => m_Name g | None => "" end.

(** ** Petitions *)

Definition GetSignatureCount (p : Petition) : Z := u8 (Z.of_nat (length (pt_signatures p))).
Definition IsComplete (p : Petition) : bool :=
  Z.of_nat (length (pt_signatures p)) =? CONFIG_MIN_PETITION_SIGNS env.

Definition GetSignatureForAccount (accountId : Z) (p : Petition) : option PetitionSignature :=
  List.find (fun s => sg_playerAccount s =? accountId) (pt_signatures p).
(** [Petition::GetSignatureForPlayerGuid]. *)
Definition pt_GetSignatureForPlayerGuid (guid : Z) (p : Petition) : option PetitionSignature :=
  List.find (fun s => sg_playerGuid s =? guid) (pt_signatures p).
Definition GetSignatureForPlayer (player : Player) (p : Petition) : option PetitionSignature :=
  match GetSignatureForAccount (pl_account player) p with
  | Some s => Some s
  | None => pt_GetSignatureForPlayerGuid (pl_guid player) p
  end.

Definition AddSignature (s : PetitionSignature) (p : Petition) : Petition :=
  pt_set_signatures (pt_signatures p ++ [s]) p.

(** [m_signatures.remove(signature)] on the pointer [GetSignatureForPlayerGuid]
    found: the first signature of that player. *)
Fixpoint remove_first (guid : Z) (l : list PetitionSignature) : list PetitionSignature :=
  match l with
  | [] => []
  | s :: l' => if sg_playerGuid s =? guid then l' else s :: remove_first guid l'
  end.
Definition DeleteSignature (guid : Z) (p : Petition) : Petition :=
  pt_set_signatures (remove_first guid (pt_signatures p)) p.

(** [PetitionSignature::SaveToDB], [PetitionSignature::DeleteFromDB]. *)
Definition sign_SaveToDB (p : Petition) (s : PetitionSignature) : GuildDB -> GuildDB :=
  on_sign (sql_insert_row (pt_id p, GetCounter (sg_playerGuid s))
             (mkSRow (GetCounter (pt_ownerGuid p)) (sg_playerAccount s))).
Definition sign_DeleteFromDB (s : PetitionSignature) : GuildDB -> GuildDB :=
  on_sign (sql_delete_rows (fun _ r => sr_ownerguid r =? GetCounter (sg_playerGuid s))).

(** [GuildMgr::GetSignatureForPlayerGuid]: the signature and its petition. *)
Definition GetSignatureForPlayerGuid (guid : Z) (w : World) : option (Petition * PetitionSignature) :=
  match first_such (fun p => match pt_GetSignatureForPlayerGuid guid p with Some _ => true | None => false end)
          (m_petitionMap w) (petition_order env (m_petitionMap w)) with
  | Some p => match pt_GetSignatureForPlayerGuid guid p with Some s => Some (p, s) | None => None end
  | None => None
  end.

(** [signature->DeleteFromDB(); signature->GetSignaturePetition()->DeleteSignature(signature);]
    for the signature of a player, when there is one. *)
Definition drop_signature (guid : Z) (w : World) : World :=
  match GetSignatureForPlayerGuid guid w with
  | Some (p, s) =>
      w_set_petitions (alter (DeleteSignature guid) (pt_id p) (m_petitionMap w))
        (w_on_db (sign_DeleteFromDB s) w)
  | None => w
  end.

Definition GetPetitionById (id : Z) (w : World) : option Petition := m_petitionMap w !! id.
Definition GetPetitionByCharterGuid (charterGuid : Z) (w : World) : option Petition :=
  first_such (fun p => pt_charterGuid p =? charterGuid) (m_petitionMap w) (petition_order env (m_petitionMap w)).
Definition GetPetitionByOwnerGuid (ownerGuid : Z) (w : World) : option Petition :=
  first_such (fun p => pt_ownerGuid p =? ownerGuid) (m_petitionMap w) (petition_order env (m_petitionMap w)).

(** [Petition::SaveToDB], [Petition::Delete], [Petition::Rename]. *)
Definition petition_SaveToDB (p : Petition) : GuildDB -> GuildDB :=
  on_petition (sql_insert_row (GetCounter (pt_ownerGuid p))
    (mkPRow (pt_id p) (GetCounter (pt_charterGuid p)) (sql_text env (pt_name p)))).
Definition petition_Delete (p : Petition) (d : GuildDB) : GuildDB :=
  if truth (pt_id p) then
    on_sign (sql_delete_rows (fun k _ => k.1 =? pt_id p))
      (on_petition (sql_delete_rows (fun _ r => pr_petitionguid r =? pt_id p)) d)
  else d.
Definition petition_Rename (newname : string) (p : Petition) (w : World) : World :=
  w_set_petitions (alter (pt_set_name newname) (pt_id p) (m_petitionMap w))
    (w_on_db (on_petition (fmap (fun r =>
       if pr_petitionguid r =? pt_id p
       then mkPRow (pr_petitionguid r) (pr_charterguid r) (sql_text env newname) else r))) w).

Definition CreatePetition (id : Z) (player : Player) (charterGuid : Z) (name : string) (w : World) : World :=
  let p := mkPetition id charterGuid (pl_guid player) name (pl_team player) [] in
  w_set_petitions (<[pt_id p := p]> (m_petitionMap w)) (w_on_db (petition_SaveToDB p) w).
Definition DeletePetition (p : Petition) (w : World) : World :=
  w_on_db (petition_Delete p) (w_set_petitions (delete (pt_id p) (m_petitionMap w)) w).

(** [Petition::AddNewSignature] on the petition stored under [pid]. *)
Definition AddNewSignature (player : Player) (p : Petition) (w : World) : bool * World :=
  if IsComplete p then (false, w)
  else
    let s := mkSig (pl_guid player) (pl_account player) in
    (true, w_set_petitions (alter (AddSignature s) (pt_id p) (m_petitionMap w))
             (w_on_db (sign_SaveToDB p s) w)).

(** [Petition::BuildSignatureData]; [data << 0] writes an [int]. *)
Fixpoint BuildSignatureData (l : list PetitionSignature) : PK unit :=
  match l with
  | [] => st_ret tt
  | s :: l' => pk_guid (sg_playerGuid s) ;;; pk_u32 0 ;;; BuildSignatureData l'
  end.

(** [GuildMgr::LoadPetitions] on the rows of the two queries. *)
Definition load_petition (w : World) (r : Z * Z * Z * string) : World :=
  let '(ownerguid, petitionguid, charterguid, name) := r in
  let owner := ObjectGuid_low HIGHGUID_PLAYER ownerguid in
  let p := mkPetition petitionguid (ObjectGuid_low HIGHGUID_ITEM charterguid) owner name
             (GetPlayerTeamByGUID env owner) [] in
  w_set_petitions (<[pt_id p := p]> (m_petitionMap w)) w.
Definition load_signature (w : World) (r : Z * Z * Z * Z) : World :=
  let '(ownerguid, petitionId, playerguid, accountId) := r in
  let ownerGuid := ObjectGuid_low HIGHGUID_PLAYER ownerguid in
  let playerGuid := ObjectGuid_low HIGHGUID_PLAYER playerguid in
  match GetPetitionById petitionId w with
  | None => w_on_db (on_sign (sql_delete_rows (fun k _ => k.1 =? petitionId))) w
  | Some p =>
      let w1 :=
        if ownerGuid =? pt_ownerGuid p then w
        else w_on_db (on_sign (map_imap (fun k r =>
               Some (if k.1 =? pt_id p then mkSRow (GetCounter (pt_ownerGuid p)) (sr_account r) else r)))) w in
      w_set_petitions (alter (AddSignature (mkSig playerGuid accountId)) petitionId (m_petitionMap w1)) w1
  end.
Definition LoadPetitions (result : option (list (Z * Z * Z * string)))
    (signatures : option (list (Z * Z * Z * Z))) (w : World) : World :=
  let w0 := w_set_petitions ∅ w in
  match result with
  | None => w0
  | Some rows =>
      let w1 := fold_left load_petition rows w0 in
      match signatures with
      | None => w1
      | Some srows => fold_left load_signature srows w1
      end
  end.
End registry.
