(* ===== verification/Guild.v ===== *)
(** * Guild: the guild object

    Model of the class [Guild] and of [MemberSlot]
    ([src/game/Guild/Guild.h], [src/game/Guild/Guild.cpp]); the roster packets
    are in [GuildRoster].  A [MemberSlot*] is the key of the slot in
    [members]; following the pointer of an erased slot is undefined. *)

From stdpp Require Import gmap fin_maps strings.
From S2P Require Import Prelude ByteBuffer ObjectGuid Packets Effects Social GuildData.

Local Open Scope prog_scope.

(** ** Accessors *)

Definition GetMemberSize (g : Guild) : Z := u32 (Z.of_nat (base.size (members g))).
Definition GetRanksSize (g : Guild) : Z := u32 (Z.of_nat (length (m_Ranks g))).
Definition GetLowestRank (g : Guild) : Z := u32 (Z.of_nat (length (m_Ranks g)) - 1).
(** [m_Ranks[rankId]], when [rankId] is in range. *)
Definition rank_at (rankId : Z) (g : Guild) : option RankInfo :=
  if rankId >=? Z.of_nat (length (m_Ranks g)) then None else m_Ranks g !! Z.to_nat rankId.
Definition GetRankName (rankId : Z) (g : Guild) : string :=
  match rank_at rankId g with Some r => rk_Name r | None => "<unknown>" end.
Definition GetRankRights (rankId : Z) (g : Guild) : Z :=
  match rank_at rankId g with Some r => rk_Rights r | None => 0 end.
Definition HasRankRight (rankId right : Z) (g : Guild) : bool :=
  negb (Z.land (GetRankRights rankId g) right =? GR_RIGHT_EMPTY).
(** [GetMemberSlot(ObjectGuid)], [GetMemberSlot(std::string const&)]: the key. *)
Definition GetMemberSlot (guid : Z) (g : Guild) : option Z :=
  match members g !! GetCounter guid with Some _ => Some (GetCounter guid) | None => None end.
Definition GetRank (guid : Z) (g : Guild) : Z :=
  match members g !! GetCounter guid with Some m => s32 (ms_RankId m) | None => -1 end.
Definition IsMemberCacheEnabled (g : Guild) : bool := Z.of_nat (base.size (members g)) >=? OnlineMemberCache.
Definition IsRosterCacheEnabled (g : Guild) : bool := Z.of_nat (base.size (members g)) >=? RosterCache.

Definition AddToCache (guidLow : Z) (g : Guild) : Guild :=
  set_onlineCache ({[guidLow]} ∪ m_onlineMemberCache g) g.
Definition RemoveFromCache (guidLow : Z) (g : Guild) : Guild :=
  set_onlineCache (m_onlineMemberCache g ∖ {[guidLow]}) g.
Definition UpdateAccountsNumber (g : Guild) : Guild := set_accountsNumber 0 g.

Definition GetAccountsNumber (g : Guild) : Z * Guild :=
  if truth (m_accountsNumber g) then (m_accountsNumber g, g)
  else
    let accountsIdSet : gset Z := list_to_set ((fun kv => ms_accountId kv.2) <$> map_to_list (members g)) in
    let n := u32 (Z.of_nat (base.size accountsIdSet)) in
    (n, set_accountsNumber n g).

Definition AddGMListener (gm : Z) (g : Guild) : bool * Guild :=
  if bool_decide (gm ∈ m_GmListeners g) then (false, g)
  else (true, set_GmListeners ({[gm]} ∪ m_GmListeners g) g).

Inductive GuildAddStatus := ADD_OK | GUILD_FULL | ALREADY_IN_GUILD | UNKNOWN_PLAYER | PLAYER_DATA_ERROR.

#[global] Instance GuildAddStatus_eq_dec : EqDecision GuildAddStatus.
Proof. solve_decision. Defined.

(** [Player::_LoadGuild] on the row of [guild_member]. *)
Definition LoadGuild_player (result : option (Z * Z)) (w : World) (p : Player) : Player :=
  let p1 := match result with
            | Some (id, rank) => SetRank (u32 rank) (SetInGuild (u32 id) p)
            | None => SetRank 0 (SetInGuild 0 p)
            end in
  if truth (pl_guildId p1) then
    match GetGuildById (pl_guildId p1) w with
    | Some _ => p1
    | None => SetRank 0 (SetInGuild 0 p1)
    end
  else p1.

Section guild.
Context (env : GuildEnv).

Fixpoint slot_named (name : string) (ms : gmap Z MemberSlot) (keys : list Z) : option Z :=
  match keys with
  | [] => None
  | k :: keys' =>
      match ms !! k with
      | Some m => if bool_decide (ms_Name m = name) then Some k else slot_named name ms keys'
      | None => slot_named name ms keys'
      end
  end.
Definition GetMemberSlot_name (name : string) (g : Guild) : option Z :=
  slot_named name (members g) (member_order env (members g)).

(** ** Member slots *)

Definition on_slot (key : Z) (f : MemberSlot -> MemberSlot) : GM unit :=
  g_mod (fun g => set_members (alter f key (members g)) g).

(** [*slot]. *)
Definition slot_at (key : Z) : GM MemberSlot :=
  let! m := gw_get (fun c => members c.1 !! key) in deref m.

Definition SetMemberStats (player : Player) (m : MemberSlot) : MemberSlot :=
  mkMS (ms_guid m) (ms_accountId m) (pl_name player) (ms_RankId m) (pl_level player) (pl_class player)
    (pl_zone player) (ms_LogoutTime m) (ms_PublicNote m) (ms_OfficerNote m).
Definition UpdateLogoutTime (m : MemberSlot) : MemberSlot :=
  mkMS (ms_guid m) (ms_accountId m) (ms_Name m) (ms_RankId m) (ms_Level m) (ms_Class m) (ms_ZoneId m)
    (time_now env) (ms_PublicNote m) (ms_OfficerNote m).

(** The note kept in memory is the escaped one. *)
Definition SetPublicNote (key : Z) (publicNote : string) : GM unit :=
  let! m := slot_at key in
  if bool_decide (ms_PublicNote m = publicNote) then st_ret tt
  else
    on_slot key (ms_set_PublicNote (escape_string env publicNote)) ;;;
    sql (on_member (sql_update_row
      (fun r => mkMRow (mr_guildid r) (mr_rank r) (sql_text env publicNote) (mr_offnote r))
      (GetCounter (ms_guid m)))).
Definition SetOfficerNote (key : Z) (officerNote : string) : GM unit :=
  let! m := slot_at key in
  if bool_decide (ms_OfficerNote m = officerNote) then st_ret tt
  else
    on_slot key (ms_set_OfficerNote (escape_string env officerNote)) ;;;
    sql (on_member (sql_update_row
      (fun r => mkMRow (mr_guildid r) (mr_rank r) (mr_pnote r) (sql_text env officerNote))
      (GetCounter (ms_guid m)))).

Definition row_set_rank (newRank : Z) (r : member_row) : member_row :=
  mkMRow (mr_guildid r) newRank (mr_pnote r) (mr_offnote r).
Definition ChangeRank (key newRank : Z) : GM unit :=
  let! m := slot_at key in
  on_slot key (ms_set_RankId newRank) ;;;
  (let! player := gw_get (fun c => FindPlayer (ms_guid m) c.2) in
   match player with
   | Some p => world_mod (w_on_player (ms_guid m) (SetRank newRank))
   | None => st_ret tt
   end) ;;;
  sql (on_member (sql_update_row (row_set_rank newRank) (GetCounter (ms_guid m)))).

(** ** Broadcasts *)

Definition send_in_world (p : WorldPacket) (guid : Z) : GM unit :=
  let! player := gw_get (fun c => FindPlayer guid c.2) in
  match player with Some pl => ev (EvSend guid p) | None => st_ret tt end.

(** The tail of the broadcasts: game masters that listen in. *)
Definition send_listeners (p : WorldPacket) : GM unit :=
  let! gms := gw_get (fun c => listener_order env (m_GmListeners c.1)) in each (send_in_world p) gms.

Definition BroadcastPacket (p : WorldPacket) : GM unit :=
  let! cached := gw_get (fun c => IsMemberCacheEnabled c.1) in
  (if cached then
     let! keys := gw_get (fun c => cache_order env (m_onlineMemberCache c.1)) in
     each (fun k => match FindChatMaster env (ObjectGuid_low HIGHGUID_PLAYER k) with
                    | Some m => if cm_session m then ev (EvSend (cm_guid m) p) else fun s => (UB, s)
                    | None => st_ret tt
                    end) keys
   else
     let! keys := gw_get (fun c => member_order env (members c.1)) in
     each (fun k => send_in_world p (ObjectGuid_low HIGHGUID_PLAYER k)) keys) ;;;
  send_listeners p.

Definition BroadcastPacketToRank (p : WorldPacket) (rankId : Z) : GM unit :=
  let! keys := gw_get (fun c => member_order env (members c.1)) in
  each (fun k =>
    let! m := slot_at k in
    if ms_RankId m =? rankId then send_in_world p (ObjectGuid_low HIGHGUID_PLAYER k) else st_ret tt) keys.

(** The packet of [BroadcastEvent]; a missing string is a null pointer. *)
Definition EventPacket (event guid : Z) (str1 str2 str3 : option string) : PK unit :=
  let strCount := match str1, str2, str3 with
                  | None, _, _ => 0 | Some _, None, _ => 1 | Some _, Some _, None => 2
                  | Some _, Some _, Some _ => 3 end in
  let c (s : option string) := pk_buf (write_cstr (option_map bytes_of_string s)) in
  pk_init SMSG_GUILD_EVENT ;;; pk_u8 event ;;; pk_u8 strCount ;;;
  (match str3, str2, str1 with
   | Some _, _, _ => c str1 ;;; c str2 ;;; c str3
   | None, Some _, _ => c str1 ;;; c str2
   | None, None, Some _ => c str1
   | None, None, None => st_ret tt
   end) ;;;
  (if IsEmpty guid then st_ret tt else pk_guid guid).
Definition BroadcastEvent (event guid : Z) (str1 str2 str3 : option string) : GM unit :=
  let! data := made (EventPacket event guid str1 str2 str3) in BroadcastPacket data.

(** May the character [m] hear [sender]? *)
Definition hears (sender : Z) (m : ChatMaster) : bool :=
  cm_session m && negb (cm_logout m)
  && match cm_social m with Some s => negb (HasIgnore sender s) | None => false end.

Definition BroadcastToGuild_from (pPlayer : option ChatMaster) (msg : string) (language : Z) : GM unit :=
  match pPlayer with
  | None => st_ret tt
  | Some pl =>
      let! may := gw_get (fun c => HasRankRight (cm_rank pl) GR_RIGHT_GCHATSPEAK c.1) in
      if negb may then st_ret tt
      else
        let! data := made (BuildChatPacket CHAT_MSG_GUILD msg language (cm_chatTag pl) (cm_guid pl)
                             (Some (cm_name pl)) 0 None None 0) in
        let! cached := gw_get (fun c => IsMemberCacheEnabled c.1) in
        (if cached then
           let! keys := gw_get (fun c => cache_order env (m_onlineMemberCache c.1)) in
           each (fun k =>
             match FindChatMaster env (ObjectGuid_low HIGHGUID_PLAYER k) with
             | None => st_ret tt
             | Some m =>
                 let! slot := gw_get (fun c => members c.1 !! k) in
                 match slot with
                 | None => st_ret tt
                 | Some sl =>
                     let! listens := gw_get (fun c => HasRankRight (ms_RankId sl) GR_RIGHT_GCHATLISTEN c.1) in
                     if listens && hears (cm_guid pl) m then ev (EvSend (cm_guid m) data) else st_ret tt
                 end
             end) keys
         else
           let! keys := gw_get (fun c => member_order env (members c.1)) in
           each (fun k =>
             let! sl := slot_at k in
             let! listens := gw_get (fun c => HasRankRight (ms_RankId sl) GR_RIGHT_GCHATLISTEN c.1) in
             if negb listens then st_ret tt
             else
               match FindChatMaster env (ObjectGuid_low HIGHGUID_PLAYER k) with
               | Some m => if hears (cm_guid pl) m then ev (EvSend (cm_guid m) data) else st_ret tt
               | None => st_ret tt
               end) keys) ;;;
        send_listeners data
  end.

(** A session as chat uses it. *)
Record ChatSession := mkCS { cs_fingerprintBanned : bool; cs_master : option ChatMaster }.

Definition BroadcastToGuild (session : option ChatSession) (msg : string) (language : Z) : GM unit :=
  match session with
  | None => st_ret tt
  | Some s => if cs_fingerprintBanned s then st_ret tt else BroadcastToGuild_from (cs_master s) msg language
  end.

Definition BroadcastToOfficers (session : option ChatSession) (msg : string) (language : Z) : GM unit :=
  match session with
  | None => st_ret tt
  | Some s =>
      match cs_master s with
      | None => st_ret tt
      | Some pl =>
          let! may := gw_get (fun c => HasRankRight (cm_rank pl) GR_RIGHT_OFFCHATSPEAK c.1) in
          if negb may then st_ret tt
          else
            let! data := made (BuildChatPacket CHAT_MSG_OFFICER msg language (cm_chatTag pl) (cm_guid pl)
                                 (Some (cm_name pl)) 0 None None 0) in
            (let! keys := gw_get (fun c => member_order env (members c.1)) in
             each (fun k =>
               let! sl := slot_at k in
               let! listens := gw_get (fun c => HasRankRight (ms_RankId sl) GR_RIGHT_OFFCHATLISTEN c.1) in
               if negb listens then st_ret tt
               else
                 match FindChatMaster env (ObjectGuid_low HIGHGUID_PLAYER k) with
                 | Some m =>
                     if cm_session m then
                       let! social := deref (cm_social m) in
                       if negb (HasIgnore (cm_guid pl) social) then ev (EvSend (cm_guid m) data) else st_ret tt
                     else st_ret tt
                 | None => st_ret tt
                 end) keys) ;;;
            send_listeners data
      end
  end.

(** ** Ranks *)

Definition AddRank (name : string) (rights : Z) : GM unit :=
  g_mod (fun g => set_Ranks (m_Ranks g ++ [mkRI name rights]) g).

Definition CreateRank (name : string) (rights : Z) : GM unit :=
  let! n := gw_get (fun c => Z.of_nat (length (m_Ranks c.1))) in
  if n >=? GUILD_RANKS_MAX_COUNT then st_ret tt
  else
    let! id := gw_get (fun c => m_Id c.1) in
    AddRank name rights ;;;
    sql (on_rank (sql_insert_row (id, u32 n) (mkRI (sql_text env name) rights))).

Definition DelRank : GM unit :=
  let! n := gw_get (fun c => Z.of_nat (length (m_Ranks c.1))) in
  if n <=? GUILD_RANKS_MIN_COUNT then st_ret tt
  else
    let! rank := gw_get (fun c => GetLowestRank c.1) in
    let! id := gw_get (fun c => m_Id c.1) in
    sql (on_rank (sql_delete_rows (fun k _ => (k.2 >=? rank) && (k.1 =? id)))) ;;;
    let! banks := gw_get (fun c => _Bank c.1 && _InfernoBank c.1) in
    (if banks then
       ev (EvBank (BankUpdateMinranks false rank)) ;;; ev (EvBank (BankUpdateMinranks true rank))
     else fun s => (UB, s)) ;;;
    g_mod (fun g => set_Ranks (removelast (m_Ranks g)) g).

Definition SetRankName (rankId : Z) (name : string) : GM unit :=
  let! r := gw_get (fun c => rank_at rankId c.1) in
  match r with
  | None => st_ret tt
  | Some _ =>
      let! id := gw_get (fun c => m_Id c.1) in
      g_mod (fun g => set_Ranks (alter (fun i => mkRI name (rk_Rights i)) (Z.to_nat rankId) (m_Ranks g)) g) ;;;
      sql (on_rank (sql_update_row (fun i => mkRI (sql_text env name) (rk_Rights i)) (id, rankId)))
  end.
Definition SetRankRights (rankId rights : Z) : GM unit :=
  let! r := gw_get (fun c => rank_at rankId c.1) in
  match r with
  | None => st_ret tt
  | Some _ =>
      let! id := gw_get (fun c => m_Id c.1) in
      g_mod (fun g => set_Ranks (alter (fun i => mkRI (rk_Name i) rights) (Z.to_nat rankId) (m_Ranks g)) g) ;;;
      sql (on_rank (sql_update_row (fun i => mkRI (rk_Name i) rights) (id, rankId)))
  end.

Definition CreateDefaultGuildRanks (locale_idx : Z) : GM unit :=
  let! id := gw_get (fun c => m_Id c.1) in
  sql (on_rank (sql_delete_rows (fun k _ => k.1 =? id))) ;;;
  CreateRank (GetMangosString env LANG_GUILD_MASTER locale_idx) GR_RIGHT_ALL ;;;
  CreateRank (GetMangosString env LANG_GUILD_OFFICER locale_idx) GR_RIGHT_ALL ;;;
  CreateRank (GetMangosString env LANG_GUILD_VETERAN locale_idx)
    (Z.lor GR_RIGHT_GCHATLISTEN GR_RIGHT_GCHATSPEAK) ;;;
  CreateRank (GetMangosString env LANG_GUILD_MEMBER locale_idx)
    (Z.lor GR_RIGHT_GCHATLISTEN GR_RIGHT_GCHATSPEAK) ;;;
  CreateRank (GetMangosString env LANG_GUILD_INITIATE locale_idx)
    (Z.lor GR_RIGHT_GCHATLISTEN GR_RIGHT_GCHATSPEAK).

(** ** Members *)

Definition slot_of_player (plGuid : Z) (p : Player) (rank : Z) : MemberSlot :=
  mkMS plGuid (pl_account p) (pl_name p) rank (pl_level p) (pl_class p) (pl_zone p) (time_now env) "" "".
Definition slot_of_cache (plGuid : Z) (d : PlayerCacheData) (rank : Z) : MemberSlot :=
  mkMS plGuid (uiAccount d) (sName d) rank (u8 (uiLevel d)) (u8 (uiClass d)) (uiZoneId d) (time_now env) "" "".

(** The end of [AddMember]: the slot enters the list, the index and the table. *)
Definition enter_member (lowguid : Z) (newmember : MemberSlot) : GM unit :=
  g_mod (fun g => set_members (<[lowguid := newmember]> (members g)) g) ;;;
  let! id := gw_get (fun c => m_Id c.1) in
  world_mod (GuildMemberAdded id lowguid) ;;;
  sql (on_member (sql_insert_row lowguid
    (mkMRow id (ms_RankId newmember) (sql_text env (ms_PublicNote newmember))
       (sql_text env (ms_OfficerNote newmember))))).

Definition AddMember (plGuid plRank : Z) : GM GuildAddStatus :=
  let lowguid := GetCounter plGuid in
  let! pl := gw_get (fun c => FindPlayerNotInWorld plGuid c.2) in
  let! present := gw_get (fun c =>
    match pl with
    | Some p => truth (pl_guildId p)
    | None => bool_decide (is_Some (members c.1 !! u32 plGuid))
    end) in
  if present then st_ret ALREADY_IN_GUILD
  else
    world_mod (drop_signature env plGuid) ;;;
    match pl with
    | Some p =>
        let! id := gw_get (fun c => m_Id c.1) in
        let rank := u8 (OnAddMember env id plGuid (u8 plRank)) in
        ev (EvHook (HookAddMember id plGuid (u8 plRank))) ;;;
        enter_member lowguid (slot_of_player plGuid p rank) ;;;
        world_mod (w_on_player plGuid (fun p => SetGuildIdInvited 0 (SetRank rank (SetInGuild id p)))) ;;;
        g_mod (AddToCache lowguid) ;;;
        g_mod UpdateAccountsNumber ;;;
        st_ret ADD_OK
    | None =>
        match GetPlayerDataByGUID env lowguid with
        | None => st_ret UNKNOWN_PLAYER
        | Some data =>
            if bool_decide (sName data = "") then st_ret UNKNOWN_PLAYER
            else
              let newmember := slot_of_cache plGuid data plRank in
              (if (ms_Level newmember <? 1) || (ms_Level newmember >? PLAYER_STRONG_MAX_LEVEL)
               then st_ret PLAYER_DATA_ERROR
               else
                 let! ok := deref (playable (ms_Class newmember)) in
                 if negb ok then st_ret PLAYER_DATA_ERROR
                 else
                   enter_member lowguid newmember ;;;
                   g_mod UpdateAccountsNumber ;;;
                   st_ret ADD_OK)
        end
    end.

(** ** The leader *)

Definition SetLeader_slot (key : Z) : GM unit :=
  let! m := slot_at key in
  g_mod (set_Leader (ms_guid m)) ;;;
  ChangeRank key GR_GUILDMASTER ;;;
  let! id := gw_get (fun c => m_Id c.1) in
  sql (on_guild (sql_update_row
    (fun r => mkGRow (gr_name r) (GetCounter (ms_guid m)) (gr_info r) (gr_motd r) (gr_createdate r) (gr_emblem r)) id)).
Definition SetLeader (guid : Z) : GM unit :=
  let! slot := gw_get (fun c => GetMemberSlot guid c.1) in
  match slot with Some k => SetLeader_slot k | None => st_ret tt end.

Definition SetNewLeader_slots (newLeaderSlot : Z) (oldLeaderSlot : option Z) : GM unit :=
  SetLeader_slot newLeaderSlot ;;;
  match oldLeaderSlot with
  | Some old =>
      ChangeRank old GR_OFFICER ;;;
      let! o := slot_at old in
      let! n := slot_at newLeaderSlot in
      BroadcastEvent GE_LEADER_CHANGED 0 (Some (ms_Name o)) (Some (ms_Name n)) None
  | None => st_ret tt
  end.
Definition SetNewLeader (newLeaderGuid : Z) : GM unit :=
  let! newSlot := gw_get (fun c => GetMemberSlot newLeaderGuid c.1) in
  let! oldSlot := gw_get (fun c => GetMemberSlot (m_LeaderGuid c.1) c.1) in
  match newSlot, oldSlot with
  | Some n, Some o => if n =? o then st_ret tt else SetNewLeader_slots n (Some o)
  | _, _ => st_ret tt
  end.

(** The scan of [GetSuitableNewLeader]: the best candidate and the old leader. *)
Fixpoint scan_leader (lowGuid : Z) (ms : gmap Z MemberSlot) (keys : list Z) (newLeader oldLeader : option Z)
    : option Z * option Z :=
  match keys with
  | [] => (newLeader, oldLeader)
  | k :: keys' =>
      if k =? lowGuid then scan_leader lowGuid ms keys' newLeader (Some k)
      else
        let better :=
          match newLeader with
          | None => true
          | Some n => match ms !! n, ms !! k with
                      | Some mn, Some mk => ms_RankId mn >? ms_RankId mk
                      | _, _ => false
                      end
          end in
        scan_leader lowGuid ms keys' (if better then Some k else newLeader) oldLeader
  end.
(** The oldest invited officer of the event log. *)
Fixpoint oldest_officer (lowGuid : Z) (g : Guild) (log : list GuildEventLogEntry) : option Z :=
  match log with
  | [] => None
  | e :: log' =>
      if negb (EventType e =? GUILD_EVENT_LOG_INVITE_PLAYER) || (PlayerGuid2 e =? lowGuid)
      then oldest_officer lowGuid g log'
      else
        match GetMemberSlot (ObjectGuid_low HIGHGUID_PLAYER (PlayerGuid2 e)) g with
        | Some k =>
            match members g !! k with
            | Some m => if ms_RankId m =? GR_OFFICER then Some k else oldest_officer lowGuid g log'
            | None => oldest_officer lowGuid g log'
            end
        | None => oldest_officer lowGuid g log'
        end
  end.
Definition GetSuitableNewLeader (preferOldestOfficer : bool) (g : Guild) : option Z * option Z :=
  let lowGuid := GetCounter (m_LeaderGuid g) in
  let '(n, o) := scan_leader lowGuid (members g) (member_order env (members g)) None None in
  if preferOldestOfficer then
    match oldest_officer lowGuid g (m_GuildEventLog g) with
    | Some k => (Some k, o)
    | None => (n, o)
    end
  else (n, o).

(** ** Leaving *)

(** What [DelMember] does once the leadership is settled. *)
Definition erase_member (guid : Z) (isDisbanding : bool) : GM bool :=
  let lowguid := GetCounter guid in
  g_mod (fun g => set_members (delete lowguid (members g)) g) ;;;
  g_mod (RemoveFromCache lowguid) ;;;
  world_mod (GuildMemberRemoved lowguid) ;;;
  (let! player := gw_get (fun c => FindPlayer guid c.2) in
   match player with
   | Some p =>
       let! id := gw_get (fun c => m_Id c.1) in
       ev (EvHook (HookRemoveMember id guid isDisbanding false)) ;;;
       world_mod (w_on_player guid (fun p => SetRank 0 (SetInGuild 0 p)))
   | None => st_ret tt
   end) ;;;
  sql (on_member (delete lowguid)) ;;;
  (if negb isDisbanding then g_mod UpdateAccountsNumber else st_ret tt) ;;;
  gw_get (fun c => bool_decide (members c.1 = ∅)).

Definition DelMember (guid : Z) (isDisbanding : bool) : GM bool :=
  let! leader := gw_get (fun c => m_LeaderGuid c.1) in
  if (leader =? guid) && negb isDisbanding then
    let! found := gw_get (fun c => GetSuitableNewLeader false c.1) in
    match found.1 with
    | None => st_ret true
    | Some best =>
        SetNewLeader_slots best found.2 ;;;
        (match found.2 with
         | Some old =>
             let! o := slot_at old in
             BroadcastEvent GE_LEFT guid (Some (ms_Name o)) None None
         | None => st_ret tt
         end) ;;;
        erase_member guid isDisbanding
    end
  else erase_member guid isDisbanding.

(** [while (!members.empty()) DelMember(begin, true)]. *)
Fixpoint disband_loop (fuel : nat) : GM unit :=
  let! keys := gw_get (fun c => member_order env (members c.1)) in
  match keys with
  | [] => st_ret tt
  | k :: _ =>
      match fuel with
      | O => fun s => (Diverge, s)
      | S fuel' =>
          let! _ := DelMember (ObjectGuid_low HIGHGUID_PLAYER k) true in disband_loop fuel'
      end
  end.

Definition Disband : GM unit :=
  let! id := gw_get (fun c => m_Id c.1) in
  ev (EvHook (HookDisband id)) ;;;
  BroadcastEvent GE_DISBANDED 0 None None None ;;;
  let! n := gw_get (fun c => base.size (members c.1)) in
  disband_loop n ;;;
  sql (on_guild (delete id)) ;;;
  sql (on_rank (sql_delete_rows (fun k _ => k.1 =? id))) ;;;
  sql (on_eventlog (sql_delete_rows (fun k _ => k.1 =? id))) ;;;
  ev (EvBank (BankDeleteRows id)) ;;;
  let! b := gw_get (fun c => _Bank c.1) in
  (if b then ev (EvBank (BankDeleteFromDB false)) else st_ret tt) ;;;
  let! i := gw_get (fun c => _InfernoBank c.1) in
  (if i then ev (EvBank (BankDeleteFromDB true)) else st_ret tt) ;;;
  world_mod (RemoveGuild id).

(** ** Creation *)

Definition date_of (tm : Z * Z * Z) : CreateDate :=
  let '(tm_mday, tm_mon, tm_year) := tm in mkDate (u32 (tm_year + 1900)) (u32 (tm_mon + 1)) (u32 tm_mday).

(** [Create(Player* leader, std::string gname)]; [session] is the locale of the
    leader's session, if there is one. *)
Definition Create (leader : Z) (session : option Z) (gname : string) : GM bool :=
  let! taken := gw_get (fun c => GetGuildByName env gname c.2) in
  match taken, session with
  | Some _, _ => st_ret false
  | None, None => st_ret false
  | None, Some locale =>
      let! fresh := gw_get (fun c => GenerateGuildId c.2) in
      let id := fresh.1 in
      world_mod (fun _ => fresh.2) ;;;
      g_mod (set_identity id gname leader "" "No message set." (date_of (localtime env (time_now env)))) ;;;
      sql (on_member (sql_delete_rows (fun _ r => mr_guildid r =? id))) ;;;
      let! g := gw_get fst in
      sql (on_guild (sql_insert_row id
        (mkGRow (sql_text env gname) (GetCounter leader) (sql_text env (m_info g)) (sql_text env (m_motd g))
           (u64 (time_now env)) (m_Emblem g)))) ;;;
      CreateDefaultGuildRanks locale ;;;
      g_mod (set_Banks true true) ;;;
      ev (EvBank (BankNew false)) ;;; ev (EvBank (BankNew true)) ;;;
      let! status := AddMember leader GR_GUILDMASTER in
      (if bool_decide (status = ADD_OK) then ev (EvHook (HookCreate id leader gname)) else st_ret tt) ;;;
      st_ret (bool_decide (status = ADD_OK))
  end.

Definition sign_up (s : PetitionSignature) : GM unit :=
  if IsEmpty (sg_playerGuid s) then st_ret tt
  else
    let! lowest := gw_get (fun c => GetLowestRank c.1) in
    let! _ := AddMember (sg_playerGuid s) lowest in st_ret tt.
(** [Create(Petition* petition, Player* leader)]: the list of signatures is
    copied before [AddMember] takes them off the petition. *)
Definition Create_petition (petition : Petition) (leader : Z) (session : option Z) : GM bool :=
  let! ok := Create leader session (pt_name petition) in
  if negb ok then st_ret false
  else each sign_up (pt_signatures petition) ;;; st_ret true.

(** ** Texts, emblem, event log *)

Definition Rename (newName : string) : GM unit :=
  let! id := gw_get (fun c => m_Id c.1) in
  g_mod (set_Name newName) ;;;
  sql (on_guild (sql_update_row (fun r => mkGRow (sql_text env newName) (gr_leaderguid r) (gr_info r)
    (gr_motd r) (gr_createdate r) (gr_emblem r)) id)).
Definition SetMOTD (motd : string) : GM unit :=
  let! id := gw_get (fun c => m_Id c.1) in
  g_mod (set_motd motd) ;;;
  sql (on_guild (sql_update_row (fun r => mkGRow (gr_name r) (gr_leaderguid r) (gr_info r)
    (sql_text env motd) (gr_createdate r) (gr_emblem r)) id)).
Definition SetGINFO (ginfo : string) : GM unit :=
  let! id := gw_get (fun c => m_Id c.1) in
  g_mod (set_info ginfo) ;;;
  sql (on_guild (sql_update_row (fun r => mkGRow (gr_name r) (gr_leaderguid r) (sql_text env ginfo)
    (gr_motd r) (gr_createdate r) (gr_emblem r)) id)).
Definition SetEmblem (e : Emblem) : GM unit :=
  let! id := gw_get (fun c => m_Id c.1) in
  g_mod (set_Emblem_field e) ;;;
  sql (on_guild (sql_update_row (fun r => mkGRow (gr_name r) (gr_leaderguid r) (gr_info r)
    (gr_motd r) (gr_createdate r) e) id)).

Definition LogGuildEvent (EventType playerGuid1 playerGuid2 newRank : Z) : GM unit :=
  let e := mkGEL (u8 EventType) (GetCounter playerGuid1) (GetCounter playerGuid2) (u8 newRank)
             (u32 (time_now env)) in
  if CONFIG_GUILD_EVENT_LOG_COUNT env =? 0 then fun s => (UB, s)
  else
    let! next := gw_get (fun c =>
      u32 (m_GuildEventLogNextGuid c.1 + 1) mod CONFIG_GUILD_EVENT_LOG_COUNT env) in
    g_mod (fun g => set_eventLog
      ((if Z.of_nat (length (m_GuildEventLog g)) >=? GUILD_EVENTLOG_MAX_RECORDS
        then tail (m_GuildEventLog g) else m_GuildEventLog g) ++ [e]) next g) ;;;
    let! id := gw_get (fun c => m_Id c.1) in
    sql (on_eventlog (delete (id, next))) ;;;
    sql (on_eventlog (sql_insert_row (id, next) e)).

Definition GetGuildInviter (playerGuid : Z) (g : Guild) : Z :=
  match List.find (fun e => (EventType e =? GUILD_EVENT_LOG_INVITE_PLAYER) && (PlayerGuid2 e =? playerGuid))
          (m_GuildEventLog g) with
  | Some e => PlayerGuid1 e
  | None => 0
  end.

(** [LoadGuildEventLogFromDB] on the rows of its query, the latest first. *)
Definition LoadGuildEventLogFromDB (result : option (list (Z * GuildEventLogEntry))) : GM unit :=
  match result with
  | None | Some [] => st_ret tt
  | Some ((logGuid, e) :: rows) =>
      g_mod (fun g => set_eventLog (fold_left (fun l r => r.2 :: l) ((logGuid, e) :: rows) (m_GuildEventLog g))
                        (u32 logGuid) g)
  end.

(** ** Loading *)

Definition LoadGuildFromDB (result : option (Z * guild_row)) : GM bool :=
  match result with
  | None => st_ret false
  | Some (id, r) =>
      g_mod (fun g => set_Emblem_field (gr_emblem r)
        (set_identity (u32 id) (gr_name r) (ObjectGuid_low HIGHGUID_PLAYER (u32 (gr_leaderguid r)))
           (gr_info r) (gr_motd r)
           (if gr_createdate r >? 0 then date_of (localtime env (gr_createdate r)) else m_Created g) g)) ;;;
      st_ret true
  end.

(** A cursor on a query result: the rows not yet passed. *)
Record rank_row := mkRRow { rr_guildid : Z; rr_rid : Z; rr_name : string; rr_rights : Z }.

(** The loop of [LoadRanksFromDB]: the rows left and whether the numbering is
    broken. *)
Fixpoint load_ranks (rows : list rank_row) (broken : bool) : GM (list rank_row * bool) :=
  match rows with
  | [] => st_ret ([], broken)
  | r :: rows' =>
      let! id := gw_get (fun c => m_Id c.1) in
      if rr_guildid r <? id then
        sql (on_rank (sql_delete_rows (fun k _ => k.1 =? rr_guildid r))) ;;; load_ranks rows' broken
      else if rr_guildid r >? id then st_ret (rows, broken)
      else
        let! n := gw_get (fun c => Z.of_nat (length (m_Ranks c.1))) in
        AddRank (rr_name r) (if n =? 0 then Z.lor (rr_rights r) GR_RIGHT_ALL else rr_rights r) ;;;
        load_ranks rows' (broken || negb (rr_rid r =? n))
  end.

(** The rows of [guild_rank] that mirror a list of ranks. *)
Fixpoint store_ranks (id i : Z) (l : list RankInfo) (t : gmap (Z * Z) RankInfo) : gmap (Z * Z) RankInfo :=
  match l with
  | [] => t
  | r :: l' =>
      store_ranks id (i + 1) l'
        (sql_insert_row (id, u32 i) (mkRI (sql_text env (rk_Name r)) (rk_Rights r)) t)
  end.

Definition LoadRanksFromDB (result : option (list rank_row)) : GM (bool * option (list rank_row)) :=
  match result with
  | None => CreateDefaultGuildRanks 0 ;;; st_ret (true, None)
  | Some rows =>
      let! res := load_ranks rows false in
      let! n := gw_get (fun c => Z.of_nat (length (m_Ranks c.1))) in
      (if n <? GUILD_RANKS_MIN_COUNT then
         g_mod (set_Ranks []) ;;; CreateDefaultGuildRanks 0
       else if res.2 then
         let! g := gw_get fst in
         sql (on_rank (fun t => store_ranks (m_Id g) 0 (m_Ranks g) (sql_delete_rows (fun k _ => k.1 =? m_Id g) t)))
       else st_ret tt) ;;;
      st_ret (true, Some res.1)
  end.

Record load_row := mkLRow {
  lr_guildid : Z; lr_guid : Z; lr_rank : Z; lr_pnote : string; lr_offnote : string; lr_name : string;
  lr_level : Z; lr_class : Z; lr_zone : Z; lr_logout : Z; lr_account : Z }.

Definition slot_of_row (ranks : Z) (r : load_row) : MemberSlot :=
  mkMS (ObjectGuid_low HIGHGUID_PLAYER (lr_guid r)) (u32 (lr_account r)) (lr_name r)
    (if lr_rank r >=? ranks then u32 (ranks - 1) else lr_rank r)
    (u8 (lr_level r)) (u8 (lr_class r))
    (if truth (lr_zone r) then lr_zone r else GetZoneIdFromDB env (ObjectGuid_low HIGHGUID_PLAYER (lr_guid r)))
    (lr_logout r) (lr_pnote r) (lr_offnote r).

Fixpoint load_members (rows : list load_row) : GM (list load_row) :=
  match rows with
  | [] => st_ret []
  | r :: rows' =>
      let! id := gw_get (fun c => m_Id c.1) in
      if lr_guildid r <? id then
        sql (on_member (sql_delete_rows (fun _ x => mr_guildid x =? lr_guildid r))) ;;; load_members rows'
      else if lr_guildid r >? id then st_ret rows
      else
        let! ranks := gw_get (fun c => Z.of_nat (length (m_Ranks c.1))) in
        let newmember := slot_of_row ranks r in
        if (ms_Level newmember <? 1) || (ms_Level newmember >? PLAYER_STRONG_MAX_LEVEL) then
          sql (on_member (delete (lr_guid r))) ;;; load_members rows'
        else
          let! ok := deref (playable (ms_Class newmember)) in
          if negb ok then sql (on_member (delete (lr_guid r))) ;;; load_members rows'
          else if bool_decide (ms_Name newmember = "") then
            sql (on_member (delete (lr_guid r))) ;;; load_members rows'
          else
            g_mod (fun g => set_members (<[lr_guid r := newmember]> (members g)) g) ;;;
            world_mod (GuildMemberAdded id (lr_guid r)) ;;;
            load_members rows'
  end.
Definition LoadMembersFromDB (result : option (list load_row)) : GM (bool * option (list load_row)) :=
  match result with
  | None => st_ret (false, None)
  | Some rows =>
      let! rest := load_members rows in
      let! none := gw_get (fun c => bool_decide (members c.1 = ∅)) in
      if none then st_ret (false, Some rest)
      else g_mod UpdateAccountsNumber ;;; st_ret (true, Some rest)
  end.

Definition CheckGuildStructure : GM bool :=
  let! leader := gw_get (fun c => m_LeaderGuid c.1) in
  let! GM_rights := gw_get (fun c => GetRank leader c.1) in
  let! gone :=
    (if GM_rights =? -1 then DelMember leader false
     else if negb (GM_rights =? GR_GUILDMASTER) then SetLeader leader ;;; st_ret false
     else st_ret false) in
  if gone then st_ret false
  else
    (let! keys := gw_get (fun c => member_order env (members c.1)) in
     each (fun k =>
       let! m := slot_at k in
       let! l := gw_get (fun c => m_LeaderGuid c.1) in
       if (ms_RankId m =? GR_GUILDMASTER) && negb (l =? ms_guid m) then ChangeRank k GR_OFFICER
       else st_ret tt) keys) ;;;
    st_ret true.
End guild.

(** ** Guild objects in the registry *)

(** Run the code of the registered guild [id].  The object is shared with the
    registry, so its changes are seen there as long as it is registered. *)
Definition with_guild {A} (id : Z) (m : GM A) : WM A := fun s =>
  match m_GuildMap s.1 !! id with
  | None => (UB, s)
  | Some g =>
      let '(o, ((g', w'), log')) := m ((g, s.1), s.2) in
      (o, (w_set_guilds (match m_GuildMap w' !! id with
                         | Some _ => <[id := g']> (m_GuildMap w')
                         | None => m_GuildMap w'
                         end) w', log'))
  end.
(** [new Guild] and the code run on it before it is registered. *)
Definition with_new {A} (m : GM A) : WM (A * Guild) := fun s =>
  let '(o, ((g', w'), log')) := m ((Guild_new, s.1), s.2) in
  match o with
  | Ok a => (Ok (a, g'), (w', log'))
  | Throw e => (Throw e, (w', log'))
  | Abort => (Abort, (w', log'))
  | UB => (UB, (w', log'))
  | Diverge => (Diverge, (w', log'))
  end.

Section load.
Context (env : GuildEnv).

(** One guild of [GuildMgr::LoadGuilds]: loaded, or disbanded when the data is
    beyond repair. *)
Definition LoadGuild (row : Z * guild_row) (eventlog : Z -> option (list (Z * GuildEventLogEntry)))
    (ranks : option (list rank_row)) (mems : option (list load_row))
    : GM (bool * option (list rank_row) * option (list load_row)) :=
  let! ok1 := LoadGuildFromDB env (Some row) in
  let! r := LoadRanksFromDB env ranks in
  let! m := LoadMembersFromDB env mems in
  let! ok :=
    (if negb m.1 then st_ret false else CheckGuildStructure env) in
  (if ok then
     let! id := gw_get (fun c => m_Id c.1) in LoadGuildEventLogFromDB (eventlog id)
   else Disband env) ;;;
  st_ret (ok, r.2, m.2).

Fixpoint load_guilds (rows : list (Z * guild_row)) (eventlog : Z -> option (list (Z * GuildEventLogEntry)))
    (ranks : option (list rank_row)) (mems : option (list load_row)) : WM unit :=
  match rows with
  | [] => st_ret tt
  | row :: rows' =>
      let! res := with_new (LoadGuild row eventlog ranks mems) in
      let '(ok, ranks', mems', g) := res in
      (if ok then AddGuild g else st_ret tt) ;;;
      load_guilds rows' eventlog ranks' mems'
  end.
Definition LoadGuilds (result : option (list (Z * guild_row)))
    (eventlog : Z -> option (list (Z * GuildEventLogEntry)))
    (ranks : option (list rank_row)) (mems : option (list load_row)) : WM unit :=
  match result with
  | None => st_ret tt
  | Some rows =>
      load_guilds rows eventlog ranks mems ;;;
      w_mod (w_on_db (on_eventlog (sql_delete_rows
        (fun k _ => k.2 >? CONFIG_GUILD_EVENT_LOG_COUNT env))))
  end.

(** [GuildMgr::SaveGuildBanks]. *)
Definition SaveGuildBanks : WM unit :=
  w_mod (w_set_saveTimer GUILD_BANK_SAVE_INTERVAL) ;;;
  let! keys := w_get (fun w => guild_order env (m_GuildMap w)) in
  each (fun k =>
    let! g := w_get (fun w => m_GuildMap w !! k) in
    let! gd := deref g in
    if _Bank gd && _InfernoBank gd then
      ev (EvBank (BankSaveToDB (m_Id gd) false)) ;;; ev (EvBank (BankSaveToDB (m_Id gd) true))
    else fun s => (UB, s)) keys.
End load.
