(* ===== verification/GuildRoster.v ===== *)
(** * GuildRoster: the packets that describe a guild

    [Guild::BuildOnlineRosterPacket], [TempRosterOnline], [UpdateCaches],
    [Roster] and [Query] of [src/game/Guild/Guild.cpp], and the size and row
    count of the roster. *)

From stdpp Require Import gmap fin_maps strings sorting.
From Stdlib Require Import SpecFloat.
From S2P Require Import Prelude ByteBuffer Codec ObjectGuid Packets Effects Social GuildData Guild.

Local Open Scope prog_scope.

Definition MAX_UNCOMPRESSED_PACKET_SIZE := 0x8000.
Definition DAY := 86400.

(** ** [float(float(time(nullptr) - LogoutTime) / DAY)]

    The bytes of a [float]: the sign, the biased exponent and the fraction of
    the binary32 number. *)
Definition float_bits (f : spec_float) : Z :=
  match f with
  | S754_zero s => if s then 2 ^ 31 else 0
  | S754_infinity s => (if s then 2 ^ 31 else 0) + 0x7F800000
  | S754_nan => 0x7FC00000
  | S754_finite s m e =>
      (if s then 2 ^ 31 else 0)
      + (if Z.pos m <? 2 ^ 23 then Z.pos m else Z.shiftl (e + 150) 23 + (Z.pos m - 2 ^ 23))
  end.
Definition float_of (n : Z) : spec_float := binary_normalize 24 128 n 0 false.
(** The difference is taken on [uint64]. *)
Definition offline_days (now logout : Z) : Z :=
  float_bits (SFdiv 24 128 (float_of (u64 (now - logout))) (float_of DAY)).
Definition pk_float (bits : Z) : PK unit := pk_buf (write_float bits).


(** Everything before the members. *)
Definition roster_head (count : Z) (g : Guild) : PK unit :=
  pk_u32 count ;;; pk_str (m_motd g) ;;; pk_str (m_info g) ;;;
  pk_u32 (Z.of_nat (length (m_Ranks g))) ;;;
  pk_each (fun r => pk_u32 (rk_Rights r)) (m_Ranks g).
Definition head_size (g : Guild) : Z :=
  u32 (4 + (slen (m_motd g) + 1 + slen (m_info g) + 1) + 4 + 4 * Z.of_nat (length (m_Ranks g))).

(** Is the member shown as online? *)
Definition shown_online (i : TempMemberInfo) : bool :=
  match tm_Member i with Some p => negb (pl_disabledSocials p) | None => false end.

Section roster.
Context (env : GuildEnv).

(** The members in iteration order, with the players that are in the world. *)
Definition member_infos (g : Guild) (w : World) : list TempMemberInfo :=
  omap (fun k =>
    let guid := ObjectGuid_low HIGHGUID_PLAYER k in
    (fun m => mkTMI guid (FindPlayer guid w) m) <$> members g !! k)
    (member_order env (members g)).

(** ** The roster of online members *)

Definition online_block (sendOfficerNote : bool) (i : TempMemberInfo) : Z :=
  GUILD_MEMBER_BLOCK_SIZE_WITHOUT_NOTE + slen (ms_PublicNote (tm_Slot i))
  + (if sendOfficerNote then slen (ms_OfficerNote (tm_Slot i)) else 0).

(** [data.size() + GUILD_MEMBER_BLOCK_SIZE >= MAX_UNCOMPRESSED_PACKET_SIZE]
    when the packet is expected to be too big. *)
Definition no_room (inPacketCap : bool) (sz : Z) : bool :=
  negb inPacketCap && (u64 (sz + GUILD_MEMBER_BLOCK_SIZE) >=? MAX_UNCOMPRESSED_PACKET_SIZE).

Definition note_for (sendOfficerNote : bool) (m : MemberSlot) : string :=
  if sendOfficerNote then ms_OfficerNote m else "".

(** What both lambdas write for a member with a player. *)
Definition player_fields (p : Player) (m : MemberSlot) : PK unit :=
  pk_cstr (pl_name p) ;;; pk_u32 (ms_RankId m) ;;; pk_u8 (pl_level p) ;;; pk_u8 (pl_class p) ;;;
  pk_u32 (pl_zone p).
Definition slot_fields (m : MemberSlot) : PK unit :=
  pk_str (ms_Name m) ;;; pk_u32 (ms_RankId m) ;;; pk_u8 (ms_Level m) ;;; pk_u8 (ms_Class m) ;;;
  pk_u32 (ms_ZoneId m) ;;; pk_float (offline_days (time_now env) (ms_LogoutTime m)).

Definition online_row (sendOfficerNote : bool) (p : Player) (i : TempMemberInfo) : PK unit :=
  pk_guid (tm_Guid i) ;;; pk_u8 1 ;;; player_fields p (tm_Slot i) ;;;
  pk_str (ms_PublicNote (tm_Slot i)) ;;; pk_str (note_for sendOfficerNote (tm_Slot i)).

Fixpoint online_rows (inPacketCap sendOfficerNote : bool) (l : list TempMemberInfo) (finalCount : Z) : PK Z :=
  match l with
  | [] => st_ret finalCount
  | i :: l' =>
      match tm_Member i with
      | None => online_rows inPacketCap sendOfficerNote l' finalCount
      | Some p =>
          let! sz := pk_size in
          if no_room inPacketCap sz then st_ret finalCount
          else online_row sendOfficerNote p i ;;;
               online_rows inPacketCap sendOfficerNote l' (u32 (finalCount + 1))
      end
  end.

Definition BuildOnlineRosterPacket (sendOfficerNote : bool) (g : Guild) (w : World) : PK unit :=
  let online := List.filter shown_online (member_infos g w) in
  let totalSize := fold_left (fun t i => u32 (t + online_block sendOfficerNote i)) online (head_size g) in
  let inPacketCap := totalSize <? MAX_UNCOMPRESSED_PACKET_SIZE in
  pk_init SMSG_GUILD_ROSTER ;;;
  let! countPos := pk_wpos in
  roster_head (Z.of_nat (length online)) g ;;;
  let! finalCount := online_rows inPacketCap sendOfficerNote
                       (if inPacketCap then online else sort_by_rank env online) 0 in
  pk_put_u32 countPos finalCount.

(** ** The full roster *)

Definition full_block (i : TempMemberInfo) : Z :=
  GUILD_MEMBER_BLOCK_SIZE_WITHOUT_NOTE
  + (slen (ms_PublicNote (tm_Slot i)) + 1 + slen (ms_OfficerNote (tm_Slot i)) + 1).

Definition member_row_ (sendOfficerNote : bool) (i : TempMemberInfo) : PK unit :=
  pk_guid (tm_Guid i) ;;; pk_u8 (if shown_online i then 1 else 0) ;;;
  (match tm_Member i with
   | Some p => player_fields p (tm_Slot i)
   | None => slot_fields (tm_Slot i)
   end) ;;;
  pk_str (ms_PublicNote (tm_Slot i)) ;;; pk_str (note_for sendOfficerNote (tm_Slot i)).

(** The two loops of [Roster]: [skip] is the [continue] of the loop. *)
Fixpoint roster_rows (skip : TempMemberInfo -> bool) (inPacketCap sendOfficerNote : bool)
    (l : list TempMemberInfo) (finalCount : Z) : PK Z :=
  match l with
  | [] => st_ret finalCount
  | i :: l' =>
      if skip i then roster_rows skip inPacketCap sendOfficerNote l' finalCount
      else
        let! sz := pk_size in
        if no_room inPacketCap sz then st_ret finalCount
        else member_row_ sendOfficerNote i ;;;
             roster_rows skip inPacketCap sendOfficerNote l' (u32 (finalCount + 1))
  end.
Definition skip_online (i : TempMemberInfo) : bool :=
  match tm_Member i with None => true | Some _ => false end.
Definition skip_offline (i : TempMemberInfo) : bool :=
  shown_online i || bool_decide (ms_Name (tm_Slot i) = "").

(** [std::min(count, GUILD_MAX_MEMBERS)] on lengths. *)
Definition capped (n : nat) : nat := Nat.min n (Z.to_nat GUILD_MAX_MEMBERS).

Definition RosterPacket (sendOfficerNote : bool) (g : Guild) (w : World) : PK unit :=
  let infos := member_infos g w in
  let online := List.filter shown_online infos in
  let offline := List.filter (fun i => negb (shown_online i)) infos in
  let totalSize := fold_left (fun t i => u32 (t + full_block i)) infos (head_size g) in
  let count := capped (length online + length offline) in
  let onlineMembers := capped (length online) in
  let offlineMembers := Nat.min (length offline) (Z.to_nat GUILD_MAX_MEMBERS - onlineMembers) in
  let inPacketCap := totalSize <? MAX_UNCOMPRESSED_PACKET_SIZE in
  let sorted l := if inPacketCap then l else sort_by_rank env l in
  pk_init SMSG_GUILD_ROSTER ;;;
  let! countPos := pk_wpos in
  roster_head (Z.of_nat count) g ;;;
  let! n := roster_rows skip_online inPacketCap sendOfficerNote (take onlineMembers (sorted online)) 0 in
  let! finalCount :=
    roster_rows skip_offline inPacketCap sendOfficerNote (take offlineMembers (sorted offline)) n in
  pk_put_u32 countPos finalCount.

(** May the player behind [session] read officer notes?  A broadcast never
    shows them. *)
Definition reads_officer_notes (session : option Z) (c : Guild * World) : bool :=
  match session with
  | Some s =>
      match w_players c.2 !! s with
      | Some p => HasRankRight (pl_rank p) GR_RIGHT_VIEWOFFNOTE c.1
      | None => false
      end
  | None => false
  end.
Definition deliver (session : option Z) (p : WorldPacket) : GM unit :=
  match session with Some s => ev (EvSend s p) | None => BroadcastPacket env p end.

Definition Roster (session : option Z) : GM unit :=
  let! notes := gw_get (reads_officer_notes session) in
  let! k := gw_get (fun c => RosterPacket notes c.1 c.2) in
  let! data := made k in
  deliver session data.

Definition TempRosterOnline (session : option Z) : GM unit :=
  let! notes := gw_get (reads_officer_notes session) in
  let! enabled := gw_get (fun c => IsRosterCacheEnabled c.1) in
  let! cached := gw_get (fun c =>
    if notes then m_cachedOfficerRosterPacket (m_rosterPackets c.1)
    else m_cachedRosterPacket (m_rosterPackets c.1)) in
  match enabled, cached with
  | true, Some p => deliver session p
  | _, _ =>
      let! k := gw_get (fun c => BuildOnlineRosterPacket notes c.1 c.2) in
      let! data := made k in
      deliver session data
  end.

Definition UpdateCaches (diff : Z) : GM unit :=
  let! enabled := gw_get (fun c => IsMemberCacheEnabled c.1) in
  if negb enabled then st_ret tt
  else
    let! timer := gw_get (fun c => m_cacheTimer (m_rosterPackets c.1)) in
    if timer <? diff then
      let! k1 := gw_get (fun c => BuildOnlineRosterPacket false c.1 c.2) in
      let! plain := made k1 in
      let! k2 := gw_get (fun c => BuildOnlineRosterPacket true c.1 c.2) in
      let! officer := made k2 in
      g_mod (set_rosterPackets (mkRP (Some plain) (Some officer) CacheExpiryMs))
    else
      g_mod (fun g => set_rosterPackets
        (mkRP (m_cachedRosterPacket (m_rosterPackets g)) (m_cachedOfficerRosterPacket (m_rosterPackets g))
           (u32 (timer - diff))) g).

(** ** [Query] *)

Definition QueryPacket (g : Guild) : PK unit :=
  pk_init SMSG_GUILD_QUERY_RESPONSE ;;; pk_u32 (m_Id g) ;;; pk_str (m_Name g) ;;;
  pk_each (fun i => match m_Ranks g !! i with Some r => pk_str (rk_Name r) | None => pk_u8 0 end)
    (seq 0 (Z.to_nat GUILD_RANKS_MAX_COUNT)) ;;;
  pk_u32 (EmblemStyle (m_Emblem g)) ;;; pk_u32 (EmblemColor (m_Emblem g)) ;;;
  pk_u32 (BorderStyle (m_Emblem g)) ;;; pk_u32 (BorderColor (m_Emblem g)) ;;;
  pk_u32 (BackgroundColor (m_Emblem g)).
Definition Query (session : Z) : GM unit :=
  let! k := gw_get (fun c => QueryPacket c.1) in
  let! data := made k in
  ev (EvSend session data).

(** [GuildMgr::Update]. *)
Definition GuildMgr_Update (diff : Z) : WM unit :=
  let! timer := w_get m_guildBankSaveTimer in
  (if timer <? diff then SaveGuildBanks env else w_mod (w_set_saveTimer (u32 (timer - diff)))) ;;;
  let! keys := w_get (fun w => guild_order env (m_GuildMap w)) in
  each (fun k => with_guild k (UpdateCaches diff)) keys.
End roster.

Example float_one : offline_days 86400 0 = 0x3F800000.
Proof. reflexivity. Qed.
Example float_day_and_half : offline_days (86400 + 43200) 0 = 0x3FC00000.
Proof. reflexivity. Qed.

(** ** What the roster contains

    The bytes of the parts of the packet, and the members that get a row. *)

Definition str_bytes (s : string) : list Z := bytes_of_string s ++ [0].
Definition cstr_bytes (s : string) : list Z := strlen_prefix (bytes_of_string s) ++ [0].

(** The part of the head after the count. *)
Definition head_bytes (g : Guild) : list Z :=
  str_bytes (m_motd g) ++ str_bytes (m_info g) ++ le_bytes 4 (Z.of_nat (length (m_Ranks g)))
  ++ concat ((fun r => le_bytes 4 (rk_Rights r)) <$> m_Ranks g).

Section contents.
Context (env : GuildEnv).

Definition fields_bytes (name : list Z) (rank level cls zone : Z) : list Z :=
  name ++ le_bytes 4 rank ++ [u8 level] ++ [u8 cls] ++ le_bytes 4 zone.
Definition row_bytes (notes : bool) (i : TempMemberInfo) : list Z :=
  let m := tm_Slot i in
  le_bytes 8 (tm_Guid i) ++ [u8 (if shown_online i then 1 else 0)]
  ++ (match tm_Member i with
      | Some p => fields_bytes (cstr_bytes (pl_name p)) (ms_RankId m) (pl_level p) (pl_class p) (pl_zone p)
      | None => fields_bytes (str_bytes (ms_Name m)) (ms_RankId m) (ms_Level m) (ms_Class m) (ms_ZoneId m)
                ++ le_bytes 4 (offline_days (time_now env) (ms_LogoutTime m))
      end)
  ++ str_bytes (ms_PublicNote m) ++ str_bytes (note_for notes m).

(** The members a loop shows when it starts at payload size [sz]. *)
Fixpoint shown (skip : TempMemberInfo -> bool) (cap notes : bool) (l : list TempMemberInfo) (sz : Z)
    : list TempMemberInfo :=
  match l with
  | [] => []
  | i :: l' =>
      if skip i then shown skip cap notes l' sz
      else if no_room cap sz then []
      else i :: shown skip cap notes l' (sz + Z.of_nat (length (row_bytes notes i)))
  end.
Definition rows_bytes (notes : bool) (l : list TempMemberInfo) : list Z := concat (row_bytes notes <$> l).

Lemma builds_float bits : builds (pk_float bits) (le_bytes 4 bits).
Proof. apply builds_append. intros. by apply append_T_spec. Qed.
Hint Resolve builds_float : packets.

Lemma builds_fields (k : PK unit) name rank level cls zone :
  builds k name -> Forall (is_u 8) name ->
  builds (k ;;; pk_u32 rank ;;; pk_u8 level ;;; pk_u8 cls ;;; pk_u32 zone) (fields_bytes name rank level cls zone).
Proof. intros. unfold fields_bytes. repeat apply builds_seq; auto with packets. Qed.

Lemma str_bytes_u8 s : Forall (is_u 8) (str_bytes s).
Proof. unfold str_bytes. auto with packets. Qed.
Lemma cstr_bytes_u8 s : Forall (is_u 8) (cstr_bytes s).
Proof. unfold cstr_bytes. auto with packets. Qed.
Lemma fields_bytes_u8 name rank level cls zone :
  Forall (is_u 8) name -> Forall (is_u 8) (fields_bytes name rank level cls zone).
Proof. intros. unfold fields_bytes. auto 10 with packets. Qed.
Hint Resolve str_bytes_u8 cstr_bytes_u8 fields_bytes_u8 : packets.
Lemma row_bytes_u8 notes i : Forall (is_u 8) (row_bytes notes i).
Proof. unfold row_bytes. destruct (tm_Member i); auto 10 with packets. Qed.
Lemma rows_bytes_u8 notes l : Forall (is_u 8) (rows_bytes notes l).
Proof.
  induction l as [|i l IH]; [constructor|]. apply Forall_app. split; [apply row_bytes_u8|done].
Qed.

Lemma builds_row notes i : builds (member_row_ env notes i) (row_bytes notes i).
Proof.
  unfold member_row_, row_bytes.
  repeat (apply builds_seq; [by auto with packets|by auto with packets|]); auto with packets.
  apply builds_seq; [destruct (tm_Member i); auto with packets| |].
  - destruct (tm_Member i) as [p|].
    + apply builds_fields; [apply builds_cstr|auto with packets].
    + unfold slot_fields, fields_bytes. rewrite <- !app_assoc.
      repeat (apply builds_seq; [by auto with packets|by auto with packets|]). auto with packets.
  - apply builds_seq; [auto with packets|apply builds_str|apply builds_str].
Qed.

(** A loop writes the rows of the members it shows, and counts them. *)
Lemma roster_rows_spec skip cap notes l : forall n op xs,
  Forall (is_u 8) xs -> 0 <= n -> n + Z.of_nat (length l) < 2 ^ 32 ->
  Z.of_nat (length xs + length (rows_bytes notes l)) <= 10000000 ->
  let sh := shown skip cap notes l (Z.of_nat (length xs)) in
  roster_rows env skip cap notes l n (packet op xs) =
    (Ok (n + Z.of_nat (length sh)), packet op (xs ++ rows_bytes notes sh)).
Proof.
  induction l as [|i l IH]; intros n op xs Hx Hn Hnl Hlen; cbn [roster_rows shown].
  { cbn. by rewrite Z.add_0_r, app_nil_r. }
  unfold rows_bytes in Hlen. cbn [fmap list_fmap concat length] in Hlen, Hnl. rewrite length_app in Hlen.
  destruct (skip i); [apply IH; auto; unfold rows_bytes; lia|].
  unfold pk_size. rewrite st_bind_get. unfold size at 1, packet at 1. cbn [wp_buf _storage].
  destruct (no_room cap (Z.of_nat (length xs))); [cbn; by rewrite Z.add_0_r, app_nil_r|].
  rewrite (st_bind_ok _ _ _ _ _ (builds_row notes i op xs ltac:(lia) Hx)).
  rewrite (wrap_small 32 (n + 1)) by (unfold is_u; lia).
  rewrite IH; [|by apply Forall_app; split; [|apply row_bytes_u8]|lia|lia|
    rewrite length_app; unfold rows_bytes; lia].
  rewrite length_app, Nat2Z.inj_add. cbn [length]. unfold rows_bytes. cbn [fmap list_fmap concat].
  f_equal; [f_equal; lia|by rewrite <- app_assoc].
Qed.

Lemma shown_sublist skip cap notes l : forall sz, shown skip cap notes l sz `sublist_of` l.
Proof.
  induction l as [|i l IH]; intros sz; cbn [shown]; [done|].
  destruct (skip i); [by apply sublist_cons|]. destruct (no_room cap sz); [apply sublist_nil_l|].
  by apply sublist_skip.
Qed.
Lemma shown_all skip notes l : forall sz,
  shown skip true notes l sz = List.filter (fun i => negb (skip i)) l.
Proof.
  induction l as [|i l IH]; intros sz; cbn [shown List.filter]; [done|].
  destruct (skip i); cbn [negb]; [done|]. by rewrite IH.
Qed.

Lemma block_size : GUILD_MEMBER_BLOCK_SIZE = 99.
Proof. done. Qed.

(** When the packet is too big for everybody, the last row that is started
    ends below the limit plus one row. *)
Lemma shown_bound skip notes l b : forall sz,
  (forall i, i ∈ l -> Z.of_nat (length (row_bytes notes i)) <= b) ->
  0 <= sz -> 0 <= b <= 2 ^ 30 -> sz < 2 ^ 40 ->
  let sh := shown skip false notes l sz in
  sh = [] \/ sz + Z.of_nat (length (rows_bytes notes sh))
             < MAX_UNCOMPRESSED_PACKET_SIZE - GUILD_MEMBER_BLOCK_SIZE + b.
Proof.
  induction l as [|i l IH]; intros sz Hb Hsz Hbb Hs; cbn [shown]; [by left|].
  destruct (skip i); [apply IH; set_solver|]. unfold no_room. cbn [negb andb].
  rewrite block_size, wrap_small by (unfold is_u; lia).
  destruct (Z.geb_spec (sz + 99) MAX_UNCOMPRESSED_PACKET_SIZE) as [Hge|Hlt]; [by left|right].
  assert (Hi : Z.of_nat (length (row_bytes notes i)) <= b) by (apply Hb; set_solver).
  rewrite block_size in IH. unfold MAX_UNCOMPRESSED_PACKET_SIZE in *.
  unfold rows_bytes. cbn [fmap list_fmap concat]. rewrite length_app.
  destruct (IH (sz + Z.of_nat (length (row_bytes notes i)))) as [Hr|Hr]; [set_solver|lia..| |].
  - rewrite Hr. cbn [fmap list_fmap concat length]. lia.
  - unfold rows_bytes in Hr. lia.
Qed.

(** *** The whole packet *)

Definition in_cap (g : Guild) (w : World) : bool :=
  fold_left (fun t i => u32 (t + full_block i)) (member_infos env g w) (head_size g) <? MAX_UNCOMPRESSED_PACKET_SIZE.
Definition candidates (online : bool) (g : Guild) (w : World) : list TempMemberInfo :=
  let l := List.filter (fun i => Bool.eqb (shown_online i) online) (member_infos env g w) in
  if in_cap g w then l else sort_by_rank env l.
Definition online_part (g : Guild) (w : World) : list TempMemberInfo :=
  take (capped (length (candidates true g w))) (candidates true g w).
Definition offline_part (g : Guild) (w : World) : list TempMemberInfo :=
  take (Z.to_nat GUILD_MAX_MEMBERS - capped (length (candidates true g w))) (candidates false g w).

(** The members of the roster, in the order of the packet. *)
Definition roster_online (notes : bool) (g : Guild) (w : World) : list TempMemberInfo :=
  shown skip_online (in_cap g w) notes (online_part g w) (Z.of_nat (4 + length (head_bytes g))).
Definition roster_offline (notes : bool) (g : Guild) (w : World) : list TempMemberInfo :=
  shown skip_offline (in_cap g w) notes (offline_part g w)
    (Z.of_nat (4 + length (head_bytes g) + length (rows_bytes notes (roster_online notes g w)))).
Definition roster_members (notes : bool) (g : Guild) (w : World) : list TempMemberInfo :=
  roster_online notes g w ++ roster_offline notes g w.

Definition roster_payload (notes : bool) (g : Guild) (w : World) : list Z :=
  le_bytes 4 (Z.of_nat (length (roster_members notes g w))) ++ head_bytes g
  ++ rows_bytes notes (roster_members notes g w).

Lemma head_bytes_u8 g : Forall (is_u 8) (head_bytes g).
Proof.
  unfold head_bytes. repeat apply Forall_u8_app; auto with packets; try apply str_bytes_u8.
  apply concat_u8. intros. apply le_bytes_u8.
Qed.
Lemma builds_head count g : builds (roster_head count g) (le_bytes 4 count ++ head_bytes g).
Proof.
  unfold roster_head, head_bytes. apply builds_seq; [auto with packets..|].
  apply builds_seq; [apply str_bytes_u8|apply builds_str|].
  apply builds_seq; [apply str_bytes_u8|apply builds_str|].
  apply builds_seq; [auto with packets..|]. apply builds_each. intros r _. split; auto with packets.
Qed.

Lemma rows_bytes_app notes l1 l2 : rows_bytes notes (l1 ++ l2) = rows_bytes notes l1 ++ rows_bytes notes l2.
Proof. unfold rows_bytes. by rewrite fmap_app, concat_app. Qed.

Lemma rows_bytes_bound notes l b :
  (forall i, i ∈ l -> Z.of_nat (length (row_bytes notes i)) <= b) ->
  Z.of_nat (length (rows_bytes notes l)) <= b * Z.of_nat (length l).
Proof.
  induction l as [|i l IH]; intros H; [cbn; lia|]. unfold rows_bytes in *. cbn [fmap list_fmap concat length].
  rewrite length_app. specialize (IH ltac:(set_solver)). specialize (H i ltac:(set_solver)). lia.
Qed.
End contents.

Section packet.
Context (env : GuildEnv).
Context (sort_perm : forall l, sort_by_rank env l ≡ₚ l).

Lemma candidates_length online g w :
  length (candidates env online g w)
  = length (List.filter (fun i => Bool.eqb (shown_online i) online) (member_infos env g w)).
Proof. unfold candidates. destruct (in_cap env g w); [done|by rewrite sort_perm]. Qed.
Lemma candidates_elem online g w i : i ∈ candidates env online g w -> i ∈ member_infos env g w.
Proof.
  unfold candidates. destruct (in_cap env g w); [|rewrite sort_perm];
    intros Hi%list_elem_of_In; apply filter_In in Hi as [? _]; by apply list_elem_of_In.
Qed.
Lemma filter_eqb_true l :
  List.filter (fun i => Bool.eqb (shown_online i) true) l = List.filter shown_online l.
Proof. apply filter_ext. by intros i; destruct (shown_online i). Qed.
Lemma filter_eqb_false l :
  List.filter (fun i => Bool.eqb (shown_online i) false) l = List.filter (fun i => negb (shown_online i)) l.
Proof. apply filter_ext. by intros i; destruct (shown_online i). Qed.

Lemma part_lengths g w :
  (length (online_part env g w) <= 868)%nat /\ (length (offline_part env g w) <= 868)%nat
  /\ (length (online_part env g w) + length (offline_part env g w) <= 868)%nat.
Proof.
  unfold online_part, offline_part, capped. rewrite !length_take.
  change (Z.to_nat GUILD_MAX_MEMBERS) with 868%nat. lia.
Qed.

Lemma RosterPacket_parts notes g w :
  RosterPacket env notes g w =
  (pk_init SMSG_GUILD_ROSTER ;;;
   let! countPos := pk_wpos in
   roster_head (Z.of_nat (capped (length (candidates env true g w) + length (candidates env false g w)))) g ;;;
   let! n := roster_rows env skip_online (in_cap env g w) notes (online_part env g w) 0 in
   let! finalCount := roster_rows env skip_offline (in_cap env g w) notes (offline_part env g w) n in
   pk_put_u32 countPos finalCount).
Proof.
  assert (Htake : offline_part env g w
    = take (Nat.min (length (candidates env false g w))
              (Z.to_nat GUILD_MAX_MEMBERS - capped (length (candidates env true g w)))) (candidates env false g w)).
  { unfold offline_part. generalize (candidates env false g w). intros l.
    generalize (Z.to_nat GUILD_MAX_MEMBERS - capped (length (candidates env true g w)))%nat. intros n. destruct (Nat.le_ge_cases (length l) n); [by rewrite Nat.min_l, !take_ge by lia|by rewrite Nat.min_r]. }
  rewrite Htake. unfold online_part. rewrite !candidates_length.
  unfold candidates. rewrite filter_eqb_true, filter_eqb_false. reflexivity.
Qed.

(** Rows of at most [b] bytes: what the two loops may write. *)
Lemma rows_fit notes g w b :
  (forall i, i ∈ member_infos env g w -> Z.of_nat (length (row_bytes env notes i)) <= b) -> 0 <= b ->
  Z.of_nat (length (rows_bytes env notes (online_part env g w)))
  + Z.of_nat (length (rows_bytes env notes (offline_part env g w))) <= 868 * b
  /\ Z.of_nat (length (rows_bytes env notes (roster_online env notes g w)))
     <= Z.of_nat (length (rows_bytes env notes (online_part env g w)))
  /\ Z.of_nat (length (rows_bytes env notes (roster_offline env notes g w)))
     <= Z.of_nat (length (rows_bytes env notes (offline_part env g w))).
Proof.
  intros Hb Hb0. destruct (part_lengths g w) as (L1 & L2 & L3).
  assert (Hcat : forall l1 l2, l1 `sublist_of` l2 ->
    (length (rows_bytes env notes l1) <= length (rows_bytes env notes l2))%nat).
  { intros l1 l2 H. unfold rows_bytes. induction H; cbn; rewrite ?length_app; lia. }
  split_and!.
  - pose proof (rows_bytes_bound env notes (online_part env g w) b) as B1.
    pose proof (rows_bytes_bound env notes (offline_part env g w) b) as B2.
    specialize (B1 ltac:(intros i Hi; apply Hb, (candidates_elem true); by eapply subseteq_take)).
    specialize (B2 ltac:(intros i Hi; apply Hb, (candidates_elem false); by eapply subseteq_take)). nia.
  - apply Nat2Z.inj_le, Hcat. unfold roster_online. apply shown_sublist.
  - apply Nat2Z.inj_le, Hcat. unfold roster_offline. apply shown_sublist.
Qed.

(** The packet is exactly its payload, when the payload stays below the limit
    of [append]. *)
Lemma RosterPacket_spec notes g w b :
  (forall i, i ∈ member_infos env g w -> Z.of_nat (length (row_bytes env notes i)) <= b) ->
  Z.of_nat (4 + length (head_bytes g)) + 868 * b <= 10000000 -> 0 <= b ->
  RosterPacket env notes g w WorldPacket_empty
  = (Ok tt, packet SMSG_GUILD_ROSTER (roster_payload env notes g w)).
Proof.
  intros Hb Hlim Hb0. destruct (part_lengths g w) as (L1 & L2 & L3).
  destruct (rows_fit notes g w b Hb Hb0) as (B1 & B2 & B3).
  assert (Hsh : roster_online env notes g w `sublist_of` online_part env g w)
    by (unfold roster_online; apply shown_sublist). apply sublist_length in Hsh.
  rewrite RosterPacket_parts. set (count := Z.of_nat (capped _)).
  unfold pk_init at 1. rewrite st_bind_mod. change (Initialize _ WorldPacket_empty) with (packet SMSG_GUILD_ROSTER []).
  unfold pk_wpos. rewrite st_bind_get. change (_wpos (wp_buf (packet SMSG_GUILD_ROSTER []))) with 0.
  set (hd := le_bytes 4 count ++ head_bytes g).
  assert (Hlh : length hd = (4 + length (head_bytes g))%nat) by (unfold hd; by rewrite length_app, length_le_bytes).
  assert (H8 : Forall (is_u 8) hd) by (apply Forall_app; split; [apply le_bytes_u8|apply head_bytes_u8]).
  rewrite (st_bind_ok _ _ _ _ _ (builds_head count g SMSG_GUILD_ROSTER [] ltac:(fold hd; rewrite Hlh; cbn; nia)
    ltac:(constructor))). fold hd. rewrite app_nil_l.
  rewrite (st_bind_ok _ _ _ _ _ (roster_rows_spec env skip_online (in_cap env g w) notes (online_part env g w) 0
    SMSG_GUILD_ROSTER hd H8 ltac:(lia) ltac:(lia) ltac:(rewrite Hlh; nia))).
  rewrite Hlh, Z.add_0_l. fold (roster_online env notes g w).
  set (on := roster_online env notes g w) in *.
  assert (Hlh2 : length (hd ++ rows_bytes env notes on)
    = (4 + length (head_bytes g) + length (rows_bytes env notes on))%nat) by (by rewrite length_app, Hlh).
  rewrite (st_bind_ok _ _ _ _ _ (roster_rows_spec env skip_offline (in_cap env g w) notes (offline_part env g w)
    (Z.of_nat (length on)) SMSG_GUILD_ROSTER _ (Forall_u8_app _ _ H8 (rows_bytes_u8 env notes _)) ltac:(lia) ltac:(lia)
    ltac:(rewrite Hlh2; nia))).
  rewrite Hlh2. fold on. fold (roster_offline env notes g w). set (off := roster_offline env notes g w) in *.
  unfold hd. rewrite <- !app_assoc. unfold pk_put_u32.
  pose proof (put_packet SMSG_GUILD_ROSTER [] (le_bytes 4 count)
    (head_bytes g ++ rows_bytes env notes on ++ rows_bytes env notes off)
    (u32 (Z.of_nat (length on) + Z.of_nat (length off)))) as Hput. cbn [app length] in Hput.
  change (Z.of_nat 0) with 0 in Hput. etrans; [apply Hput; [apply length_le_bytes|rewrite !length_app, length_le_bytes; lia]|].
  unfold roster_payload, roster_members. fold on off. rewrite (le_bytes_wrap 4), length_app, rows_bytes_app.
  by rewrite Nat2Z.inj_add.
Qed.
End packet.

(** ** The size of the roster *)

Section bound.
Context (env : GuildEnv).
Context (sort_perm : forall l, sort_by_rank env l ≡ₚ l).

(** Texts within the limits of the client and of the handlers. *)
Record texts_within (name note : Z) (g : Guild) (w : World) : Prop := {
  tw_motd : slen (m_motd g) <= GUILD_MOTD_MAX_LENGTH;
  tw_info : slen (m_info g) <= GUILD_INFO_MAX_LENGTH;
  tw_ranks : Z.of_nat (length (m_Ranks g)) <= GUILD_RANKS_MAX_COUNT;
  tw_slots : forall i, i ∈ member_infos env g w ->
    slen (ms_Name (tm_Slot i)) <= name /\ slen (ms_PublicNote (tm_Slot i)) <= note
    /\ slen (ms_OfficerNote (tm_Slot i)) <= note
    /\ forall p, tm_Member i = Some p -> slen (pl_name p) <= name }.

Fixpoint total (l : list TempMemberInfo) : Z :=
  match l with [] => 0 | i :: l' => full_block i + total l' end.

Lemma length_str_bytes s : Z.of_nat (length (str_bytes s)) = slen s + 1.
Proof. unfold str_bytes, slen. rewrite length_app, length_bytes_of_string. cbn. lia. Qed.
Lemma length_cstr_bytes s : Z.of_nat (length (cstr_bytes s)) <= slen s + 1.
Proof.
  unfold cstr_bytes, slen. pose proof (strlen_prefix_length (bytes_of_string s)) as H.
  rewrite length_bytes_of_string in H. rewrite length_app. cbn. lia.
Qed.
Lemma length_row notes i name :
  slen (ms_Name (tm_Slot i)) <= name -> (forall p, tm_Member i = Some p -> slen (pl_name p) <= name) ->
  Z.of_nat (length (row_bytes env notes i))
  <= 26 + name + slen (ms_PublicNote (tm_Slot i)) + slen (ms_OfficerNote (tm_Slot i)).
Proof.
  intros Hs Hp. unfold row_bytes, fields_bytes. rewrite !length_app, !Nat2Z.inj_add, !length_str_bytes, length_le_bytes.
  assert (slen (note_for notes (tm_Slot i)) <= slen (ms_OfficerNote (tm_Slot i)))
    by (destruct notes; cbn; unfold slen; cbn; lia).
  destruct (tm_Member i) as [p|].
  - specialize (Hp p eq_refl). pose proof (length_cstr_bytes (pl_name p)).
    rewrite !length_app, !Nat2Z.inj_add, !length_le_bytes. cbn [length]. lia.
  - rewrite !length_app, !Nat2Z.inj_add, !length_le_bytes, length_str_bytes. cbn [length]. lia.
Qed.

Lemma length_head g : Z.of_nat (length (head_bytes g))
  = slen (m_motd g) + slen (m_info g) + 6 + 4 * Z.of_nat (length (m_Ranks g)).
Proof.
  unfold head_bytes. rewrite !length_app, !Nat2Z.inj_add, !length_str_bytes, length_le_bytes.
  assert (forall l : list RankInfo, length (concat ((fun r => le_bytes 4 (rk_Rights r)) <$> l)) = (4 * length l)%nat) as ->.
  { induction l as [|r l IH]; [done|]. cbn [fmap list_fmap concat]. rewrite length_app, IH, length_le_bytes. cbn. lia. }
  lia.
Qed.

Lemma full_block_pos i : 0 <= full_block i.
Proof. unfold full_block, slen. change GUILD_MEMBER_BLOCK_SIZE_WITHOUT_NOTE with 37. lia. Qed.
Lemma total_pos l : 0 <= total l.
Proof. induction l as [|i l IH]; cbn [total]; [lia|]. pose proof (full_block_pos i). lia. Qed.
Lemma fold_total l : forall t, 0 <= t -> t + total l < 2 ^ 32 ->
  fold_left (fun t i => u32 (t + full_block i)) l t = t + total l.
Proof.
  induction l as [|i l IH]; intros t Ht Hl; cbn [total fold_left] in *; [lia|].
  pose proof (full_block_pos i). pose proof (total_pos l).
  rewrite wrap_small by (unfold is_u; lia). rewrite IH by lia. lia.
Qed.
Lemma total_split (P : TempMemberInfo -> bool) l :
  total l = total (List.filter P l) + total (List.filter (fun i => negb (P i)) l).
Proof. induction l as [|i l IH]; cbn [total List.filter]; [done|]. destruct (P i); cbn [total negb]; lia. Qed.
Lemma total_sublist l1 l2 : l1 `sublist_of` l2 -> total l1 <= total l2.
Proof. induction 1; cbn [total]; [done|lia|]. pose proof (full_block_pos x). lia. Qed.

Lemma rows_total notes l name note g w :
  texts_within name note g w -> name <= 13 -> (forall i, i ∈ l -> i ∈ member_infos env g w) ->
  Z.of_nat (length (rows_bytes env notes l)) <= total l.
Proof.
  intros Ht Hn. induction l as [|i l IH]; intros Hin; cbn [total]; [done|]. unfold rows_bytes in *.
  cbn [fmap list_fmap concat]. rewrite length_app.
  destruct (tw_slots _ _ _ _ Ht i (Hin i ltac:(set_solver))) as (H1 & H2 & H3 & H4).
  pose proof (length_row notes i name H1 H4). specialize (IH ltac:(set_solver)).
  unfold full_block. change GUILD_MEMBER_BLOCK_SIZE_WITHOUT_NOTE with 37. lia.
Qed.

(** Everybody fits when the estimate says so. *)
Lemma roster_in_cap notes name note g w :
  texts_within name note g w -> name <= 13 -> in_cap env g w = true ->
  head_size g + total (member_infos env g w) < 2 ^ 32 ->
  Z.of_nat (length (roster_payload env notes g w)) < MAX_UNCOMPRESSED_PACKET_SIZE.
Proof.
  intros Ht Hn Hcap Hwrap. pose proof (tw_motd _ _ _ _ Ht) as Hm. pose proof (tw_info _ _ _ _ Ht) as Hi.
  pose proof (tw_ranks _ _ _ _ Ht) as Hr. unfold GUILD_MOTD_MAX_LENGTH, GUILD_INFO_MAX_LENGTH, GUILD_RANKS_MAX_COUNT in *.
  assert (Hhd : head_size g = Z.of_nat (4 + length (head_bytes g))).
  { unfold head_size. rewrite Nat2Z.inj_add, length_head, wrap_small; [lia|unfold is_u, slen in *; lia]. }
  pose proof Hcap as Hcap'. unfold in_cap in Hcap'. rewrite fold_total in Hcap' by lia.
  unfold roster_payload. rewrite !length_app, length_le_bytes.
  assert (Z.of_nat (length (rows_bytes env notes (roster_members env notes g w))) <= total (member_infos env g w)); [|lia].
  unfold roster_members. rewrite rows_bytes_app, length_app, Nat2Z.inj_add.
  assert (Hpart : forall sh l P, sh `sublist_of` l -> l = List.filter P (member_infos env g w) ->
    Z.of_nat (length (rows_bytes env notes sh)) <= total (List.filter P (member_infos env g w))).
  { intros sh l P Hs ->. etrans; [eapply rows_total; [done..|]|by apply total_sublist].
    intros i Hin. eapply elem_of_sublist in Hin; [|done].
    apply list_elem_of_In in Hin. apply filter_In in Hin as [? _]. by apply list_elem_of_In. }
  rewrite (total_split shown_online). apply Z.add_le_mono.
  - eapply (Hpart _ (candidates env true g w)).
    + unfold roster_online. etrans; [apply shown_sublist|]. unfold online_part. apply sublist_take.
    + unfold candidates. rewrite Hcap. apply filter_eqb_true.
  - eapply (Hpart _ (candidates env false g w)).
    + unfold roster_offline. etrans; [apply shown_sublist|]. unfold offline_part. apply sublist_take.
    + unfold candidates. rewrite Hcap. apply filter_eqb_false.
Qed.

(** Otherwise the check before each row bounds the packet. *)
Lemma roster_over_cap notes name note g w :
  texts_within name note g w -> in_cap env g w = false -> 0 <= name <= 2000 -> 0 <= note <= 2000 ->
  Z.of_nat (length (roster_payload env notes g w))
  < MAX_UNCOMPRESSED_PACKET_SIZE - 99 + (26 + name + note + note).
Proof.
  intros Ht Hcap Hn Hno. pose proof (tw_motd _ _ _ _ Ht) as Hm. pose proof (tw_info _ _ _ _ Ht) as Hi.
  pose proof (tw_ranks _ _ _ _ Ht) as Hr. unfold GUILD_MOTD_MAX_LENGTH, GUILD_INFO_MAX_LENGTH, GUILD_RANKS_MAX_COUNT in *.
  assert (Hrow : forall i, i ∈ member_infos env g w ->
    Z.of_nat (length (row_bytes env notes i)) <= 26 + name + note + note).
  { intros i Hin. destruct (tw_slots _ _ _ _ Ht i Hin) as (H1 & H2 & H3 & H4).
    pose proof (length_row notes i name H1 H4). lia. }
  pose proof (length_head g) as Hhd.
  assert (Hon : forall i, i ∈ online_part env g w -> Z.of_nat (length (row_bytes env notes i)) <= 26 + name + note + note)
    by (intros i Hin; apply Hrow, (candidates_elem env sort_perm true); by eapply subseteq_take).
  assert (Hoff : forall i, i ∈ offline_part env g w -> Z.of_nat (length (row_bytes env notes i)) <= 26 + name + note + note)
    by (intros i Hin; apply Hrow, (candidates_elem env sort_perm false); by eapply subseteq_take).
  pose proof (shown_bound env skip_online notes (online_part env g w) _ (Z.of_nat (4 + length (head_bytes g))) Hon
    ltac:(lia) ltac:(lia) ltac:(lia)) as B1.
  unfold roster_payload, roster_members. rewrite rows_bytes_app, !length_app, length_le_bytes.
  rewrite <- Hcap in B1. change (shown env skip_online (in_cap env g w) _ _ _) with (roster_online env notes g w) in B1.
  cbv zeta in B1. rewrite block_size in B1. unfold MAX_UNCOMPRESSED_PACKET_SIZE in *.
  set (on := roster_online env notes g w) in *.
  assert (Hon_small : Z.of_nat (4 + length (head_bytes g) + length (rows_bytes env notes on)) < 2 ^ 40).
  { destruct B1 as [-> |B1]; cbn [rows_bytes fmap list_fmap concat length]; lia. }
  pose proof (shown_bound env skip_offline notes (offline_part env g w) _
    (Z.of_nat (4 + length (head_bytes g) + length (rows_bytes env notes on))) Hoff
    ltac:(lia) ltac:(lia) ltac:(lia)) as B2.
  rewrite <- Hcap in B2. change (shown env skip_offline (in_cap env g w) _ _ _) with (roster_offline env notes g w) in B2.
  cbv zeta in B2. rewrite block_size in B2. unfold MAX_UNCOMPRESSED_PACKET_SIZE in B2.
  destruct B2 as [-> |B2]; [destruct B1 as [-> |B1]|]; cbn [rows_bytes fmap list_fmap concat length]; lia.
Qed.

(** Who is listed when everybody fits: members without a name are left out. *)
Definition everybody (l : list TempMemberInfo) : list TempMemberInfo :=
  List.filter shown_online l
  ++ List.filter (fun i => negb (shown_online i) && negb (bool_decide (ms_Name (tm_Slot i) = ""))) l.

Lemma total_length l : 39 * Z.of_nat (length l) <= total l.
Proof.
  induction l as [|i l IH]; cbn [total length]; [done|]. unfold full_block, slen.
  change GUILD_MEMBER_BLOCK_SIZE_WITHOUT_NOTE with 37. lia.
Qed.
Lemma filter_filter (P Q : TempMemberInfo -> bool) l :
  List.filter Q (List.filter P l) = List.filter (fun i => P i && Q i) l.
Proof. induction l as [|i l IH]; cbn; [done|]. destruct (P i); cbn; [destruct (Q i)|]; by rewrite ?IH. Qed.

Lemma roster_everybody notes g w :
  in_cap env g w = true -> head_size g + total (member_infos env g w) < 2 ^ 32 -> 0 <= head_size g ->
  roster_members env notes g w = everybody (member_infos env g w).
Proof.
  intros Hcap Hwrap Hh. pose proof Hcap as Hsz. unfold in_cap in Hsz. rewrite fold_total in Hsz by lia.
  set (infos := member_infos env g w) in *.
  assert (Hlen : (length infos <= 868)%nat).
  { pose proof (total_length infos). unfold MAX_UNCOMPRESSED_PACKET_SIZE in Hsz. lia. }
  assert (Hf : (length (List.filter shown_online infos) + length (List.filter (fun i => negb (shown_online i)) infos)
                <= 868)%nat).
  { etrans; [|exact Hlen]. clear. induction infos as [|i l IH]; cbn [List.filter length]; [lia|].
    destruct (shown_online i); cbn [negb length]; lia. }
  unfold roster_members, roster_online, roster_offline, online_part, offline_part, everybody, capped.
  change (Z.to_nat GUILD_MAX_MEMBERS) with 868%nat.
  unfold candidates. rewrite Hcap, filter_eqb_true, filter_eqb_false. fold infos.
  rewrite !shown_all, !take_ge by lia. rewrite !filter_filter. f_equal.
  - apply filter_ext. intros i. unfold shown_online, skip_online. by destruct (tm_Member i) as [p|]; [destruct (negb _)|].
  - apply filter_ext. intros i. unfold skip_offline. by destruct (shown_online i).
Qed.
End bound.

(** C30. The roster of a guild whose texts are within the client's limits is
    built, is at most 0x8000 bytes long, and starts with the number of the rows
    that follow; everybody with a name is listed when the size estimate is
    below the limit. *)
Theorem roster_bounded env notes g w :
  (forall l, sort_by_rank env l ≡ₚ l) -> texts_within env 12 GUILD_NOTE_MAX_LENGTH g w ->
  head_size g + total (member_infos env g w) < 2 ^ 32 ->
  RosterPacket env notes g w WorldPacket_empty = (Ok tt, packet SMSG_GUILD_ROSTER (roster_payload env notes g w))
  /\ Z.of_nat (length (roster_payload env notes g w)) <= MAX_UNCOMPRESSED_PACKET_SIZE
  /\ roster_payload env notes g w
     = le_bytes 4 (Z.of_nat (length (roster_members env notes g w))) ++ head_bytes g
       ++ rows_bytes env notes (roster_members env notes g w)
  /\ (in_cap env g w = true -> roster_members env notes g w = everybody (member_infos env g w)).
Proof.
  intros Hs Ht Hw. pose proof (length_head g) as Hh.
  pose proof (tw_motd _ _ _ _ _ Ht) as H1. pose proof (tw_info _ _ _ _ _ Ht) as H2. pose proof (tw_ranks _ _ _ _ _ Ht) as H3.
  unfold GUILD_MOTD_MAX_LENGTH, GUILD_INFO_MAX_LENGTH, GUILD_RANKS_MAX_COUNT, GUILD_NOTE_MAX_LENGTH in *.
  split_and!; [| |done|].
  - apply (RosterPacket_spec env Hs notes g w 100); [|lia|lia].
    intros i Hi. destruct (tw_slots _ _ _ _ _ Ht i Hi) as (G1 & G2 & G3 & G4).
    pose proof (length_row env notes i 12 G1 G4). lia.
  - destruct (in_cap env g w) eqn:E.
    + pose proof (roster_in_cap env Hs notes 12 31 g w Ht ltac:(lia) E Hw). lia.
    + pose proof (roster_over_cap env Hs notes 12 31 g w Ht E ltac:(lia) ltac:(lia)). lia.
  - intros E. apply roster_everybody; [done..|]. unfold head_size. apply (wrap_range 32); lia.
Qed.
