(* ===== verification/GuildHandlers.v ===== *)
(** * GuildHandlers: the guild opcodes

    Model of [src/game/Handlers/GuildHandler.cpp].  A handler takes the guid
    [me] of the session's player and the received packet. *)

From stdpp Require Import gmap fin_maps strings.
From S2P Require Import Prelude ByteBuffer ObjectGuid Packets Effects Incoming Social GuildData Guild GuildRoster.

Local Open Scope prog_scope.

(** ** Input *)

(** [GetPlayer()]: the session's player. *)
Definition GetPlayer (me : Z) : WM Player := let! p := w_get (fun w => w_players w !! me) in deref p.
(** The same from inside the code of a guild. *)
Definition g_GetPlayer (me : Z) : GM Player := let! p := gw_get (fun c => w_players c.2 !! me) in deref p.

(** [SendGuildCommandResult]. *)
Definition CommandResult (typecmd : Z) (str : string) (cmdresult : Z) : PK unit :=
  pk_init SMSG_GUILD_COMMAND_RESULT ;;; pk_u32 typecmd ;;; pk_str str ;;; pk_u32 cmdresult.
Definition SendGuildCommandResult {C} (me typecmd : Z) (str : string) (cmdresult : Z)
    : St (C * list effect) ByteBufferException unit :=
  let! data := made (CommandResult typecmd str cmdresult) in ev (EvSend me data).

Definition SendSaveGuildEmblem {C} (me msg : Z) : St (C * list effect) ByteBufferException unit :=
  let! data := made (pk_init MSG_SAVE_GUILD_EMBLEM ;;; pk_u32 msg) in ev (EvSend me data).

Definition UNIT_NPC_FLAG_PETITIONER := 0x200.
Definition UNIT_NPC_FLAG_TABARDDESIGNER := 0x400.
Definition GOLD := 10000.
Definition MAX_MONEY_AMOUNT := 0x7FFFFFFF - 1.

(** The rest of the player: what it can interact with, and the scripts. *)
Record PlayerEnv := mkPE {
  NPCIfCanInteractWith : Z -> Z -> Z -> bool;
  FeignsDeath : Z -> bool;
  OnMoneyChanged : Z -> Z -> Z }.

Section handlers.
Context (env : GuildEnv) (penv : PlayerEnv).

(** [Player::ModifyMoney]. *)
Definition ModifyMoney (guid d : Z) (p : Player) : Player :=
  let amount := OnMoneyChanged penv guid d in
  pl_set_money
    (if amount <? 0 then
       if pl_money p >? u32 (- amount) then u32 (pl_money p + amount) else 0
     else if pl_money p <? u32 (MAX_MONEY_AMOUNT - amount) then u32 (pl_money p + amount)
     else MAX_MONEY_AMOUNT) p.

(** [ObjectAccessor::FindPlayerByName] normalises the name once more. *)
Definition FindPlayerByName (name : string) (w : World) : option Player :=
  let '(ok, n) := normalizePlayerName env name MAX_INTERNAL_PLAYER_NAME true in
  if ok then
    match w_names w !! n with
    | Some g => match w_players w !! g with
                | Some p => if pl_inWorld p then Some p else None
                | None => None
                end
    | None => None
    end
  else None.

(** [if (!guild) { SendGuildCommandResult(GUILD_CREATE_S, "", ERR_GUILD_PLAYER_NOT_IN_GUILD); return; }]
    around the code that works on the guild of [me]. *)
Definition in_guild (me : Z) (k : GM unit) : WM unit :=
  let! player := GetPlayer me in
  let! guild := w_get (GetGuildById (pl_guildId player)) in
  match guild with
  | None => SendGuildCommandResult me GUILD_CREATE_S "" ERR_GUILD_PLAYER_NOT_IN_GUILD
  | Some _ => with_guild (pl_guildId player) k
  end.

(** The check of a rank right at the start of the guild code. *)
Definition require_right (me right typecmd : Z) (k : GM unit) : GM unit :=
  let! player := g_GetPlayer me in
  let! may := gw_get (fun c => HasRankRight (pl_rank player) right c.1) in
  if negb may then SendGuildCommandResult me typecmd "" ERR_GUILD_PERMISSIONS else k.

(** [if (GetPlayer()->GetObjectGuid() != guild->GetLeaderGuid()) ...]. *)
Definition require_leader (me : Z) (k : GM unit) : GM unit :=
  let! leader := gw_get (fun c => m_LeaderGuid c.1) in
  if negb (me =? leader) then SendGuildCommandResult me GUILD_INVITE_S "" ERR_GUILD_PERMISSIONS else k.

(** [MemberSlot* slot = guild->GetMemberSlot(name); if (!slot) ...]. *)
Definition require_slot (me : Z) (name : string) (k : Z -> MemberSlot -> GM unit) : GM unit :=
  let! slot := gw_get (fun c => GetMemberSlot_name env name c.1) in
  match slot with
  | None => SendGuildCommandResult me GUILD_INVITE_S name ERR_GUILD_PLAYER_NOT_IN_GUILD_S
  | Some key => let! m := slot_at key in k key m
  end.

(** [if (guild->DelMember(guid)) { guild->Disband(); delete guild; return; }]. *)
Definition remove_or_disband (guid : Z) (k : GM unit) : GM unit :=
  let! last := DelMember env guid false in
  if last then Disband env else k.

(** ** Handlers *)

Definition HandleGuildQueryOpcode (me : Z) (b : ByteBuffer) : WM unit :=
  recv read_u32 b (fun guildId _ =>
    let! guild := w_get (GetGuildById guildId) in
    match guild with
    | Some _ => with_guild guildId (Query me)
    | None => SendGuildCommandResult me GUILD_CREATE_S "" ERR_GUILD_PLAYER_NOT_IN_GUILD
    end).

(** [locale]: the locale of the session. *)
Definition HandleGuildCreateOpcode (me locale : Z) (b : ByteBuffer) : WM unit :=
  recv read_str b (fun gname _ =>
    let! player := GetPlayer me in
    if truth (pl_guildId player) then st_ret tt
    else
      let! res := with_new (Create env me (Some locale) gname) in
      if res.1 then AddGuild res.2 else st_ret tt).

Definition InvitePacket (inviter guildName : string) : PK unit :=
  pk_init SMSG_GUILD_INVITE ;;; pk_cstr inviter ;;; pk_str guildName.

Definition HandleGuildInviteOpcode (me : Z) (b : ByteBuffer) : WM unit :=
  recv read_str b (fun name _ =>
    let '(ok, Invitedname) := normalizePlayerName env name MAX_INTERNAL_PLAYER_NAME true in
    let! found := w_get (fun w => if ok then FindPlayerByName Invitedname w else None) in
    match found with
    | None => SendGuildCommandResult me GUILD_INVITE_S Invitedname ERR_GUILD_PLAYER_NOT_FOUND_S
    | Some player =>
        in_guild me (
          let! mine := g_GetPlayer me in
          if HasIgnore me (pl_social player) then st_ret tt
          else if negb (CONFIG_ALLOW_TWO_SIDE_INTERACTION_GUILD env) && negb (pl_team player =? pl_team mine) then
            SendGuildCommandResult me GUILD_INVITE_S Invitedname ERR_GUILD_NOT_ALLIED
          else if truth (pl_guildId player) then
            SendGuildCommandResult me GUILD_INVITE_S (pl_name player) ERR_ALREADY_IN_GUILD_S
          else if truth (pl_guildIdInvited player) then
            SendGuildCommandResult me GUILD_INVITE_S (pl_name player) ERR_ALREADY_INVITED_TO_GUILD_S
          else
            require_right me GR_RIGHT_INVITE GUILD_INVITE_S (
              world_mod (w_on_player (pl_guid player) (SetGuildIdInvited (pl_guildId mine))) ;;;
              LogGuildEvent env GUILD_EVENT_LOG_INVITE_PLAYER me (pl_guid player) 0 ;;;
              let! gname := gw_get (fun c => m_Name c.1) in
              let! data := made (InvitePacket (pl_name mine) gname) in
              ev (EvSend (pl_guid player) data) ;;;
              ev (EvHook (HookGuildInvite (pl_guid player)))))
    end).

(** [normalizePlayerName(plName)] at the start of a handler: the name, or
    nothing is done. *)
Definition normalized (name : string) (max_len : Z) (checkCaps : bool) (k : string -> WM unit) : WM unit :=
  let '(ok, n) := normalizePlayerName env name max_len checkCaps in
  if ok then k n else st_ret tt.

Definition HandleGuildRemoveOpcode (me : Z) (b : ByteBuffer) : WM unit :=
  recv read_str b (fun name _ =>
    normalized name MAX_INTERNAL_PLAYER_NAME true (fun plName =>
      let! player := GetPlayer me in
      if negb (pl_inWorld player) then st_ret tt
      else
        in_guild me (
          require_right me GR_RIGHT_REMOVE GUILD_INVITE_S (
            require_slot me plName (fun key slot =>
              if ms_RankId slot =? GR_GUILDMASTER then
                SendGuildCommandResult me GUILD_QUIT_S "" ERR_GUILD_LEADER_LEAVE
              else if pl_rank player >=? ms_RankId slot then
                SendGuildCommandResult me GUILD_QUIT_S plName ERR_GUILD_RANK_TOO_HIGH_S
              else
                remove_or_disband (ms_guid slot) (
                  LogGuildEvent env GUILD_EVENT_LOG_UNINVITE_PLAYER me (ms_guid slot) 0 ;;;
                  BroadcastEvent env GE_REMOVED 0 (Some plName) (Some (pl_name player)) None)))))).

Definition HandleGuildAcceptOpcode (me : Z) : WM unit :=
  let! player := GetPlayer me in
  let! guild := w_get (GetGuildById (u32 (pl_guildIdInvited player))) in
  match guild with
  | None => st_ret tt
  | Some g =>
      if truth (pl_guildId player) then st_ret tt
      else if negb (CONFIG_ALLOW_TWO_SIDE_INTERACTION_GUILD env)
              && negb (pl_team player =? GetPlayerTeamByGUID env (m_LeaderGuid g)) then st_ret tt
      else
        with_guild (u32 (pl_guildIdInvited player)) (
          let! lowest := gw_get (fun c => GetLowestRank c.1) in
          let! status := AddMember env me lowest in
          if negb (bool_decide (status = ADD_OK)) then st_ret tt
          else
            LogGuildEvent env GUILD_EVENT_LOG_JOIN_GUILD me 0 0 ;;;
            BroadcastEvent env GE_JOINED me (Some (pl_name player)) None None)
  end.

Definition HandleGuildDeclineOpcode (me : Z) : WM unit :=
  let! player := GetPlayer me in
  if truth (pl_guildId player) || negb (truth (pl_guildIdInvited player)) then st_ret tt
  else
    (let! guild := w_get (GetGuildById (u32 (pl_guildIdInvited player))) in
     match guild with
     | None => st_ret tt
     | Some g =>
         let inviterGuid := GetGuildInviter me g in
         if IsEmpty inviterGuid then st_ret tt
         else
           let! inviter := w_get (FindPlayer inviterGuid) in
           match inviter with
           | None => st_ret tt
           | Some _ =>
               let! data := made (pk_init SMSG_GUILD_DECLINE ;;; pk_cstr (pl_name player)) in
               ev (EvSend inviterGuid data)
           end
     end) ;;;
    w_mod (w_on_player me (SetGuildIdInvited 0)).

Definition InfoPacket (g : Guild) (accounts : Z) : PK unit :=
  pk_init SMSG_GUILD_INFO ;;; pk_str (m_Name g) ;;;
  pk_u32 (CreatedDay (m_Created g)) ;;; pk_u32 (CreatedMonth (m_Created g)) ;;;
  pk_u32 (CreatedYear (m_Created g)) ;;; pk_u32 (GetMemberSize g) ;;; pk_u32 accounts.
Definition HandleGuildInfoOpcode (me : Z) : WM unit :=
  in_guild me (
    let! res := gw_get (fun c => GetAccountsNumber c.1) in
    g_mod (fun _ => res.2) ;;;
    let! g := gw_get fst in
    let! data := made (InfoPacket g res.1) in
    ev (EvSend me data)).

Definition HandleGuildRosterOpcode (me : Z) : WM unit :=
  let! player := GetPlayer me in
  let! guild := w_get (GetGuildById (pl_guildId player)) in
  match guild with
  | Some _ => with_guild (pl_guildId player) (Roster env (Some me))
  | None => st_ret tt
  end.

(** What [ChangeRank] is followed by in the two handlers. *)
Definition announce_rank (me key event logtype newRankId : Z) (plName : string) : GM unit :=
  ChangeRank key newRankId ;;;
  let! slot := slot_at key in
  LogGuildEvent env logtype me (ms_guid slot) newRankId ;;;
  let! mine := g_GetPlayer me in
  let! rname := gw_get (fun c => GetRankName newRankId c.1) in
  BroadcastEvent env event 0 (Some (pl_name mine)) (Some plName) (Some rname).

Definition HandleGuildPromoteOpcode (me : Z) (b : ByteBuffer) : WM unit :=
  recv read_str b (fun name _ =>
    normalized name MAX_INTERNAL_PLAYER_NAME true (fun plName =>
      in_guild me (
        require_right me GR_RIGHT_PROMOTE GUILD_INVITE_S (
          require_slot me plName (fun key slot =>
            let! mine := g_GetPlayer me in
            if ms_guid slot =? me then
              SendGuildCommandResult me GUILD_INVITE_S "" ERR_GUILD_NAME_INVALID
            else if u32 (pl_rank mine + 1) >=? ms_RankId slot then
              SendGuildCommandResult me GUILD_INVITE_S plName ERR_GUILD_RANK_TOO_HIGH_S
            else
              announce_rank me key GE_PROMOTION GUILD_EVENT_LOG_PROMOTE_PLAYER
                (u32 (ms_RankId slot - 1)) plName))))).

Definition HandleGuildDemoteOpcode (me : Z) (b : ByteBuffer) : WM unit :=
  recv read_str b (fun name _ =>
    normalized name MAX_INTERNAL_PLAYER_NAME true (fun plName =>
      in_guild me (
        require_right me GR_RIGHT_DEMOTE GUILD_INVITE_S (
          require_slot me plName (fun key slot =>
            let! mine := g_GetPlayer me in
            let! lowest := gw_get (fun c => GetLowestRank c.1) in
            if ms_guid slot =? me then
              SendGuildCommandResult me GUILD_INVITE_S "" ERR_GUILD_NAME_INVALID
            else if pl_rank mine >=? ms_RankId slot then
              SendGuildCommandResult me GUILD_INVITE_S plName ERR_GUILD_RANK_TOO_HIGH_S
            else if ms_RankId slot >=? lowest then
              SendGuildCommandResult me GUILD_INVITE_S plName ERR_GUILD_RANK_TOO_LOW_S
            else
              announce_rank me key GE_DEMOTION GUILD_EVENT_LOG_DEMOTE_PLAYER
                (u32 (ms_RankId slot + 1)) plName))))).

Definition HandleGuildLeaveOpcode (me : Z) : WM unit :=
  in_guild me (
    let! leads := gw_get (fun c => me =? m_LeaderGuid c.1) in
    let! n := gw_get (fun c => GetMemberSize c.1) in
    if leads && (n >? 1) then SendGuildCommandResult me GUILD_QUIT_S "" ERR_GUILD_LEADER_LEAVE
    else if leads then Disband env
    else
      let! gname := gw_get (fun c => m_Name c.1) in
      SendGuildCommandResult me GUILD_QUIT_S gname ERR_PLAYER_NO_MORE_IN_GUILD ;;;
      let! mine := g_GetPlayer me in
      remove_or_disband me (
        LogGuildEvent env GUILD_EVENT_LOG_LEAVE_GUILD me 0 0 ;;;
        BroadcastEvent env GE_LEFT me (Some (pl_name mine)) None None)).

Definition HandleGuildDisbandOpcode (me : Z) : WM unit :=
  in_guild me (require_leader me (Disband env)).

Definition HandleGuildLeaderOpcode (me : Z) (b : ByteBuffer) : WM unit :=
  recv read_str b (fun name _ =>
    normalized name MAX_INTERNAL_PLAYER_NAME true (fun n =>
      in_guild me (require_leader me (
        let! oldSlot := gw_get (fun c => GetMemberSlot me c.1) in
        match oldSlot with
        | None => SendGuildCommandResult me GUILD_INVITE_S "" ERR_GUILD_PERMISSIONS
        | Some old =>
            require_slot me n (fun key _ =>
              if old =? key then SendGuildCommandResult me GUILD_INVITE_S n ERR_ALREADY_IN_GUILD_S
              else SetNewLeader_slots env key (Some old))
        end)))).

Definition HandleGuildMOTDOpcode (me : Z) (b : ByteBuffer) : WM unit :=
  recv (if empty_bb b then st_ret ""%string else read_str) b (fun MOTD _ =>
    if slen MOTD >? GUILD_MOTD_MAX_LENGTH then st_ret tt
    else
      in_guild me (require_right me GR_RIGHT_SETMOTD GUILD_INVITE_S (
        SetMOTD env MOTD ;;;
        BroadcastEvent env GE_MOTD 0 (Some MOTD) None None))).

(** The two note handlers differ in the right and the field. *)
Definition set_note (me right : Z) (store : Z -> string -> GM unit) (b : ByteBuffer) : WM unit :=
  recv read_str b (fun name b1 => recv read_str b1 (fun note0 _ =>
    normalized name MAX_INTERNAL_PLAYER_NAME true (fun n =>
    normalized note0 GUILD_NOTE_MAX_LENGTH false (fun note =>
      in_guild me (require_right me right GUILD_INVITE_S (
        require_slot me n (fun key _ =>
          if slen note >? GUILD_NOTE_MAX_LENGTH then st_ret tt
          else store key note ;;; Roster env (Some me)))))))).
Definition HandleGuildSetPublicNoteOpcode (me : Z) (b : ByteBuffer) : WM unit :=
  set_note me GR_RIGHT_EPNOTE (SetPublicNote env) b.
Definition HandleGuildSetOfficerNoteOpcode (me : Z) (b : ByteBuffer) : WM unit :=
  set_note me GR_RIGHT_EOFFNOTE (SetOfficerNote env) b.

(** [guild->Query(this); guild->SendRoster();] *)
Definition show_ranks (me : Z) : GM unit := Query me ;;; Roster env None.

(** The packet is read after the permission check. *)
Definition HandleGuildRankOpcode (me : Z) (b : ByteBuffer) : WM unit :=
  let! player := GetPlayer me in
  let! guild := w_get (GetGuildById (pl_guildId player)) in
  match guild with
  | None => SendGuildCommandResult me GUILD_CREATE_S "" ERR_GUILD_PLAYER_NOT_IN_GUILD
  | Some g =>
      if negb (me =? m_LeaderGuid g) then SendGuildCommandResult me GUILD_INVITE_S "" ERR_GUILD_PERMISSIONS
      else
        recv read_u32 b (fun rankId b1 => recv read_u32 b1 (fun rights b2 => recv read_str b2 (fun rname _ =>
          normalized rname 25 false (fun rankname =>
            with_guild (pl_guildId player) (
              SetRankName env rankId rankname ;;;
              SetRankRights rankId (if rankId =? GR_GUILDMASTER then GR_RIGHT_ALL else rights) ;;;
              show_ranks me)))))
  end.

Definition HandleGuildAddRankOpcode (me : Z) (b : ByteBuffer) : WM unit :=
  recv read_str b (fun name _ =>
    normalized name MAX_INTERNAL_PLAYER_NAME true (fun rankname =>
      in_guild me (require_leader me (
        let! n := gw_get (fun c => GetRanksSize c.1) in
        if n >=? GUILD_RANKS_MAX_COUNT then st_ret tt
        else
          CreateRank env rankname (Z.lor GR_RIGHT_GCHATLISTEN GR_RIGHT_GCHATSPEAK) ;;;
          show_ranks me)))).

Definition HandleGuildDelRankOpcode (me : Z) : WM unit :=
  in_guild me (require_leader me (DelRank ;;; show_ranks me)).

Definition HandleGuildChangeInfoTextOpcode (me : Z) (b : ByteBuffer) : WM unit :=
  recv read_str b (fun info _ =>
    normalized info GUILD_INFO_MAX_LENGTH false (fun GINFO =>
      if slen GINFO >? GUILD_INFO_MAX_LENGTH then st_ret tt
      else
        in_guild me (require_right me GR_RIGHT_MODIFY_GUILD_INFO GUILD_CREATE_S (SetGINFO env GINFO)))).

Definition HandleSaveGuildEmblemOpcode (me : Z) (b : ByteBuffer) : WM unit :=
  recv read_guid b (fun vendorGuid b1 =>
  recv read_u32 b1 (fun style b2 => recv read_u32 b2 (fun color b3 => recv read_u32 b3 (fun bstyle b4 =>
  recv read_u32 b4 (fun bcolor b5 => recv read_u32 b5 (fun bg _ =>
    if negb (NPCIfCanInteractWith penv me vendorGuid UNIT_NPC_FLAG_TABARDDESIGNER) then
      SendSaveGuildEmblem me ERR_GUILDEMBLEM_FAIL_NO_MESSAGE
    else
      (if FeignsDeath penv me then ev (EvPlayer me CallRemoveFeignDeath) else st_ret tt) ;;;
      let! player := GetPlayer me in
      let! guild := w_get (GetGuildById (pl_guildId player)) in
      match guild with
      | None => SendSaveGuildEmblem me ERR_GUILDEMBLEM_NOGUILD
      | Some g =>
          if negb (m_LeaderGuid g =? me) then SendSaveGuildEmblem me ERR_GUILDEMBLEM_NOTGUILDMASTER
          else if pl_money player <? 10 * GOLD then SendSaveGuildEmblem me ERR_GUILDEMBLEM_NOTENOUGHMONEY
          else
            w_mod (w_on_player me (ModifyMoney me (- (10 * GOLD)))) ;;;
            with_guild (pl_guildId player) (
              SetEmblem (mkEmblem style color bstyle bcolor bg) ;;;
              SendSaveGuildEmblem me ERR_GUILDEMBLEM_SUCCESS ;;;
              Query me)
      end)))))).
End handlers.
