(* ===== verification/GuildPetitions.v ===== *)
(** * GuildPetitions: charters and the guild commands

    Model of [src/game/Handlers/PetitionsHandler.cpp], of the guild part of
    [Player::DeleteFromDB] and of the death of a hardcore guild leader
    ([src/game/Objects/Player.cpp]), and of the guild commands of
    [src/game/Commands/Commands.cpp] once their arguments are read. *)

From stdpp Require Import gmap fin_maps strings.
From S2P Require Import Prelude ByteBuffer ObjectGuid Packets Effects Incoming Social GuildData Guild GuildRoster GuildHandlers.

Local Open Scope prog_scope.

Definition GUILD_CHARTER := 5863.
Definition GUILD_CHARTER_COST := 1000.
Definition CHARTER_DISPLAY_ID := 16161.

Definition SMSG_PETITION_SHOWLIST := 0x1BC.
Definition SMSG_PETITION_SHOW_SIGNATURES := 0x1BF.
Definition SMSG_PETITION_SIGN_RESULTS := 0x1C1.
Definition MSG_PETITION_DECLINE := 0x1C2.
Definition SMSG_TURN_IN_PETITION_RESULTS := 0x1C5.
Definition SMSG_PETITION_QUERY_RESPONSE := 0x1C7.
Definition MSG_PETITION_RENAME := 0x2C1.

Definition BUY_ERR_CANT_FIND_ITEM := 0.
Definition BUY_ERR_NOT_ENOUGHT_MONEY := 2.
Definition EQUIP_ERR_OK := 0.
Definition LANG_PLAYER_IN_GUILD := 500.
Definition LANG_GUILD_NOT_CREATED := 501.
Definition LANG_GUILD_NOT_FOUND := 562.

(** Item: its guid, its template and the petition written on it. *)
Record Item := mkItem { it_guid : Z; it_entry : Z; it_enchantment : Z }.

(** The inventory and the names the handlers rely on. *)
Record PetitionEnv := mkPtE {
  GetItemByGuid : Z -> Z -> option Item;
  bag_slots : Z -> list (list (option Item));
  IsTabardDesigner : Z -> bool;
  IsReservedName : string -> bool;
  IsValidCharterName : string -> bool;
  GetItemPrototype : Z -> option Z;
  CanStoreNewItem : Z -> Z -> Z -> Z;
  StoreNewItem : Z -> Z -> option Z }.

Section petitions.
Context (env : GuildEnv) (penv : PlayerEnv) (ienv : PetitionEnv).

(** [signs] bytes, then the signatures. *)
Definition SignaturesPacket (itemguid ownerGuid petitionguid : Z) (p : Petition) : PK unit :=
  pk_init SMSG_PETITION_SHOW_SIGNATURES ;;; pk_guid itemguid ;;; pk_guid ownerGuid ;;;
  pk_u32 petitionguid ;;; pk_u8 (GetSignatureCount p) ;;; BuildSignatureData (pt_signatures p).
Definition SignResult (itemGuid me result : Z) : PK unit :=
  pk_init SMSG_PETITION_SIGN_RESULTS ;;; pk_guid itemGuid ;;; pk_guid me ;;; pk_u32 result.
Definition TurnInResult (result : Z) : PK unit :=
  pk_init SMSG_TURN_IN_PETITION_RESULTS ;;; pk_u32 result.
Definition QueryResponse (petitionguid : Z) (p : Petition) : PK unit :=
  pk_init SMSG_PETITION_QUERY_RESPONSE ;;; pk_u32 petitionguid ;;; pk_guid (pt_ownerGuid p) ;;;
  pk_str (pt_name p) ;;; pk_u8 0 ;;; pk_u32 1 ;;; pk_u32 9 ;;; pk_u32 9 ;;; pk_u32 0 ;;; pk_u32 0 ;;;
  pk_u32 0 ;;; pk_u32 0 ;;; pk_u32 0 ;;; pk_buf (write_u16 0) ;;; pk_u32 0 ;;; pk_u32 0 ;;; pk_u32 0 ;;;
  pk_u32 0.
Definition ShowListPacket (guid : Z) : PK unit :=
  pk_init SMSG_PETITION_SHOWLIST ;;; pk_guid guid ;;; pk_u8 1 ;;; pk_u32 1 ;;; pk_u32 GUILD_CHARTER ;;;
  pk_u32 CHARTER_DISPLAY_ID ;;; pk_u32 GUILD_CHARTER_COST ;;; pk_u32 1.

Definition send_to (who : Z) (k : PK unit) : WM unit := let! data := made k in ev (EvSend who data).

(** The fixed part of the packet around the name. *)
Definition read_buy : BB (Z * string) :=
  let! guidNPC := read_guid in
  read_skip 4 ;;; read_skip 8 ;;;
  let! name := read_str in
  read_skip 4 ;;; read_skip 4 ;;; read_skip 4 ;;; read_skip 4 ;;; read_skip 4 ;;;
  read_skip 4 ;;; read_skip 4 ;;; read_skip 4 ;;; read_skip 4 ;;; read_skip 4 ;;;
  read_skip 2 ;;; read_skip 1 ;;;
  let! _ := read_u32 in
  read_skip 4 ;;;
  st_ret (guidNPC, name).

(** [charter->SetUInt32Value(ITEM_FIELD_ENCHANTMENT, petitionId)] is the
    business of the inventory and not tracked. *)
Definition HandlePetitionBuyOpcode (me : Z) (b : ByteBuffer) : WM unit :=
  recv read_buy b (fun r _ =>
    let '(guidNPC, name) := r in
    if negb (NPCIfCanInteractWith penv me guidNPC UNIT_NPC_FLAG_PETITIONER) then st_ret tt
    else if negb (IsTabardDesigner ienv guidNPC) then st_ret tt
    else
      (if FeignsDeath penv me then ev (EvPlayer me CallRemoveFeignDeath) else st_ret tt) ;;;
      let! player := GetPlayer me in
      if truth (pl_guildId player) then st_ret tt
      else
        let! owned := w_get (GetPetitionByOwnerGuid env me) in
        match owned with
        | Some _ => st_ret tt
        | None =>
            let! taken := w_get (GetGuildByName env name) in
            match taken with
            | Some _ => SendGuildCommandResult me GUILD_CREATE_S name ERR_GUILD_NAME_EXISTS_S
            | None =>
                if IsReservedName ienv name || negb (IsValidCharterName ienv name) then
                  SendGuildCommandResult me GUILD_CREATE_S name ERR_GUILD_NAME_INVALID
                else
                  match GetItemPrototype ienv GUILD_CHARTER with
                  | None => ev (EvPlayer me (CallBuyError BUY_ERR_CANT_FIND_ITEM))
                  | Some buyCount =>
                      if pl_money player <? GUILD_CHARTER_COST then
                        ev (EvPlayer me (CallBuyError BUY_ERR_NOT_ENOUGHT_MONEY))
                      else
                        let msg := CanStoreNewItem ienv me GUILD_CHARTER buyCount in
                        if negb (msg =? EQUIP_ERR_OK) then ev (EvPlayer me (CallEquipError msg))
                        else
                          w_mod (w_on_player me (ModifyMoney penv me (- GUILD_CHARTER_COST))) ;;;
                          match StoreNewItem ienv me GUILD_CHARTER with
                          | None => st_ret tt
                          | Some charter =>
                              let! fresh := w_get GeneratePetitionID in
                              w_mod (fun _ => fresh.2) ;;;
                              ev (EvPlayer me (CallSendNewItem charter)) ;;;
                              w_mod (CreatePetition env fresh.1 player charter name) ;;;
                              ev (EvPlayer me CallSaveInventoryAndGold)
                          end
                  end
            end
        end).

Definition HandlePetitionShowSignOpcode (me : Z) (b : ByteBuffer) : WM unit :=
  recv read_guid b (fun itemguid _ =>
    let! player := GetPlayer me in
    if truth (pl_guildId player) then st_ret tt
    else
      match GetItemByGuid ienv me itemguid with
      | None => st_ret tt
      | Some charter =>
          let! petition := w_get (GetPetitionById (it_enchantment charter)) in
          match petition with
          | None => st_ret tt
          | Some p => send_to me (SignaturesPacket itemguid me (it_enchantment charter) p)
          end
      end).

Definition HandlePetitionQueryOpcode (me : Z) (b : ByteBuffer) : WM unit :=
  recv read_u32 b (fun petitionguid b1 => recv read_guid b1 (fun _ _ =>
    let! petition := w_get (GetPetitionById petitionguid) in
    match petition with
    | None => st_ret tt
    | Some p => send_to me (QueryResponse petitionguid p)
    end)).

Definition HandlePetitionRenameOpcode (me : Z) (b : ByteBuffer) : WM unit :=
  recv read_guid b (fun itemGuid b1 => recv read_str b1 (fun newname _ =>
    match GetItemByGuid ienv me itemGuid with
    | None => st_ret tt
    | Some charter =>
        let! taken := w_get (GetGuildByName env newname) in
        match taken with
        | Some _ => SendGuildCommandResult me GUILD_CREATE_S newname ERR_GUILD_NAME_EXISTS_S
        | None =>
            if IsReservedName ienv newname || negb (IsValidCharterName ienv newname) then
              SendGuildCommandResult me GUILD_CREATE_S newname ERR_GUILD_NAME_INVALID
            else
              let! petition := w_get (GetPetitionById (it_enchantment charter)) in
              match petition with
              | None => st_ret tt
              | Some p =>
                  w_mod (petition_Rename env newname p) ;;;
                  send_to me (pk_init MSG_PETITION_RENAME ;;; pk_guid itemGuid ;;; pk_str newname)
              end
        end
    end)).

Definition HandlePetitionSignOpcode (me : Z) (b : ByteBuffer) : WM unit :=
  recv read_guid b (fun itemGuid b1 => recv read_u8 b1 (fun _ _ =>
    let! petition := w_get (GetPetitionByCharterGuid env itemGuid) in
    match petition with
    | None => st_ret tt
    | Some p =>
        let! player := GetPlayer me in
        if IsComplete env p then st_ret tt
        else if pt_ownerGuid p =? me then send_to me (SignResult itemGuid me PETITION_SIGN_CANT_SIGN_OWN)
        else if negb (CONFIG_ALLOW_TWO_SIDE_INTERACTION_GUILD env) && negb (pl_team player =? pt_team p) then
          SendGuildCommandResult me GUILD_CREATE_S "" ERR_GUILD_NOT_ALLIED
        else if truth (pl_guildId player) then
          SendGuildCommandResult me GUILD_INVITE_S (pl_name player) ERR_ALREADY_IN_GUILD_S
        else if truth (pl_guildIdInvited player) then
          SendGuildCommandResult me GUILD_INVITE_S (pl_name player) ERR_ALREADY_INVITED_TO_GUILD_S
        else if GetSignatureCount p >=? 9 then st_ret tt
        else
          let! owner := w_get (FindPlayer (pt_ownerGuid p)) in
          match GetSignatureForPlayer player p with
          | Some _ =>
              send_to me (SignResult itemGuid me PETITION_SIGN_ALREADY_SIGNED) ;;;
              match owner with
              | Some _ => SendGuildCommandResult (pt_ownerGuid p) GUILD_INVITE_S (pl_name player)
                            ERR_ALREADY_INVITED_TO_GUILD_S
              | None => st_ret tt
              end
          | None =>
              w_mod (drop_signature env me) ;;;
              let! res := w_get (AddNewSignature env player p) in
              if negb res.1 then st_ret tt
              else
                w_mod (fun _ => res.2) ;;;
                send_to me (SignResult itemGuid me PETITION_SIGN_OK) ;;;
                match owner with
                | Some _ => send_to (pt_ownerGuid p) (SignResult itemGuid me PETITION_SIGN_OK)
                | None => st_ret tt
                end
          end
    end)).

Definition HandlePetitionDeclineOpcode (me : Z) (b : ByteBuffer) : WM unit :=
  recv read_guid b (fun itemGuid _ =>
    let! petition := w_get (GetPetitionByCharterGuid env itemGuid) in
    match petition with
    | None => st_ret tt
    | Some p =>
        let! owner := w_get (FindPlayer (pt_ownerGuid p)) in
        match owner with
        | Some _ => send_to (pt_ownerGuid p) (pk_init MSG_PETITION_DECLINE ;;; pk_guid me)
        | None => st_ret tt
        end
    end).

Definition HandleOfferPetitionOpcode (me : Z) (b : ByteBuffer) : WM unit :=
  recv read_guid b (fun itemGuid b1 => recv read_guid b1 (fun playerGuid _ =>
    let! found := w_get (FindPlayer playerGuid) in
    match found with
    | None => st_ret tt
    | Some player =>
        let! mine := GetPlayer me in
        if negb (CONFIG_ALLOW_TWO_SIDE_INTERACTION_GUILD env) && negb (pl_team mine =? pl_team player) then
          SendGuildCommandResult me GUILD_CREATE_S "" ERR_GUILD_NOT_ALLIED
        else if truth (pl_guildId player) then
          SendGuildCommandResult me GUILD_INVITE_S (pl_name mine) ERR_ALREADY_IN_GUILD_S
        else if truth (pl_guildIdInvited player) then
          SendGuildCommandResult me GUILD_INVITE_S (pl_name mine) ERR_ALREADY_INVITED_TO_GUILD_S
        else
          match GetItemByGuid ienv me itemGuid with
          | None => st_ret tt
          | Some charter =>
              let! petition := w_get (GetPetitionById (it_enchantment charter)) in
              match petition with
              | None => st_ret tt
              | Some p => send_to playerGuid (SignaturesPacket itemGuid me (it_enchantment charter) p)
              end
          end
    end)).

(** The scan of the bags: the first charter in slot order. *)
Definition bag_charter (me : Z) : option Item :=
  List.find (fun i => it_entry i =? GUILD_CHARTER) (omap id (concat (bag_slots ienv me))).

Definition HandleTurnInPetitionOpcode (me locale : Z) (b : ByteBuffer) : WM unit :=
  recv read_guid b (fun itemGuid _ =>
    match (match GetItemByGuid ienv me itemGuid with Some c => Some c | None => bag_charter me end) with
    | None => st_ret tt
    | Some charter =>
        let! petition := w_get (GetPetitionById (it_enchantment charter)) in
        match petition with
        | None => st_ret tt
        | Some p =>
            let! player := GetPlayer me in
            if truth (pl_guildId player) then send_to me (TurnInResult PETITION_SIGN_ALREADY_IN_GUILD)
            else if negb (me =? pt_ownerGuid p) then st_ret tt
            else if negb (IsComplete env p) then send_to me (TurnInResult PETITION_SIGN_NEED_MORE)
            else
              let! taken := w_get (GetGuildByName env (pt_name p)) in
              match taken with
              | Some _ => SendGuildCommandResult me GUILD_CREATE_S (pt_name p) ERR_GUILD_NAME_EXISTS_S
              | None =>
                  let! res := with_new (Create_petition env p me (Some locale)) in
                  if negb res.1 then st_ret tt
                  else
                    AddGuild res.2 ;;;
                    w_mod (DeletePetition p) ;;;
                    ev (EvPlayer me (CallDestroyItem (it_guid charter))) ;;;
                    send_to me (TurnInResult PETITION_SIGN_OK)
              end
        end
    end).

Definition SendPetitionShowList (me guid : Z) : WM unit :=
  if negb (NPCIfCanInteractWith penv me guid UNIT_NPC_FLAG_PETITIONER) then st_ret tt
  else
    (if FeignsDeath penv me then ev (EvPlayer me CallRemoveFeignDeath) else st_ret tt) ;;;
    send_to me (ShowListPacket guid).
Definition HandlePetitionShowListOpcode (me : Z) (b : ByteBuffer) : WM unit :=
  recv read_guid b (fun guid _ => SendPetitionShowList me guid).

(** ** Other users of guilds *)

(** The guild and petition part of [Player::DeleteFromDB]. *)
Definition DeleteFromDB_guild (playerguid : Z) : WM unit :=
  (let! guild := w_get (GetPlayerGuild (u32 playerguid)) in
   match guild with
   | Some g => with_guild (m_Id g) (remove_or_disband env playerguid (st_ret tt))
   | None => st_ret tt
   end) ;;;
  (let! petition := w_get (GetPetitionByOwnerGuid env playerguid) in
   match petition with Some p => w_mod (DeletePetition p) | None => st_ret tt end) ;;;
  w_mod (drop_signature env playerguid).

(** The death of a hardcore guild leader ([Player::KillPlayer]). *)
Definition hardcore_leader_death (me : Z) : WM unit :=
  let! player := GetPlayer me in
  let! guild := w_get (GetGuildById (pl_guildId player)) in
  match guild with
  | None => st_ret tt
  | Some g =>
      if m_LeaderGuid g =? me then
        with_guild (pl_guildId player) (
          let! found := gw_get (fun c => GetSuitableNewLeader env true c.1) in
          match found.1 with
          | Some n => SetNewLeader_slots env n found.2
          | None => st_ret tt
          end)
      else st_ret tt
  end.

(** A charter is destroyed ([Player::DestroyItem]). *)
Definition destroy_charter (petitionId : Z) : WM unit :=
  let! petition := w_get (GetPetitionById petitionId) in
  match petition with Some p => w_mod (DeletePetition p) | None => st_ret tt end.

(** [ObjectAccessor::AddObject], [ObjectAccessor::RemoveObject]. *)
Definition AddObject (p : Player) (w : World) : World :=
  w_set_names (<[pl_name p := pl_guid p]> (w_names w)) (w_set_players (<[pl_guid p := p]> (w_players w)) w).
Definition RemoveObject (p : Player) (w : World) : World :=
  w_set_names (delete (pl_name p) (w_names w)) (w_set_players (delete (pl_guid p) (w_players w)) w).

Definition MotdPacket (g : Guild) : PK unit :=
  pk_init SMSG_GUILD_EVENT ;;; pk_u8 GE_MOTD ;;; pk_u8 1 ;;; pk_str (m_motd g).
(** The guild part of a login ([WorldSession::HandlePlayerLogin]): the row of
    [guild_member] is read, the guild is told, the player becomes known to the
    server; [Map::Add] has put it into the world, or not. *)
Definition login_guild (player : Player) : WM unit :=
  let! row := w_get (fun w => option_map (fun r => (mr_guildid r, mr_rank r))
                                (t_guild_member (w_db w) !! GetCounter (pl_guid player))) in
  let! p := w_get (fun w => LoadGuild_player row w player) in
  let! guild := w_get (GetGuildById (pl_guildId p)) in
  (match guild with
   | Some g =>
       let! data := made (MotdPacket g) in
       ev (EvSend (pl_guid p) data) ;;;
       with_guild (pl_guildId p) (BroadcastEvent env GE_SIGNED_ON (pl_guid p) (Some (pl_name p)) None None)
   | None => st_ret tt
   end) ;;;
  w_mod (AddObject p) ;;;
  let! guild := w_get (GetGuildById (pl_guildId p)) in
  match guild with
  | Some _ => with_guild (pl_guildId p) (g_mod (AddToCache (GetCounter (pl_guid p))))
  | None => st_ret tt
  end.
(** The guild part of [WorldSession::LogoutPlayer]; [masterGuild] is the guild
    id the session's [MasterPlayer] last copied. *)
Definition logout_guild (me masterGuild : Z) : WM unit :=
  let! player := GetPlayer me in
  let! guild := w_get (GetGuildById (pl_guildId player)) in
  (match guild with
   | Some _ =>
       with_guild (pl_guildId player) (
         (let! slot := gw_get (fun c => GetMemberSlot me c.1) in
          match slot with
          | Some k => on_slot k (fun m => UpdateLogoutTime env (SetMemberStats player m))
          | None => st_ret tt
          end) ;;;
         BroadcastEvent env GE_SIGNED_OFF me (Some (pl_name player)) None None)
   | None => st_ret tt
   end) ;;;
  w_mod (RemoveObject player) ;;;
  let! guild := w_get (GetGuildById masterGuild) in
  match guild with
  | Some _ => with_guild masterGuild (g_mod (RemoveFromCache (GetCounter me)))
  | None => st_ret tt
  end.

(** ** Commands: the result is the command's return value *)

Definition quote : string := String (Ascii.ascii_of_N 34) "".
Definition sys_message (me lang : Z) : WM bool := ev (EvPlayer me (CallSysMessage lang)) ;;; st_ret false.

Definition HandleGuildCreateCommand (me target locale : Z) (guildname : string) : WM bool :=
  let! player := GetPlayer target in
  if truth (pl_guildId player) then ev (EvPlayer me (CallSysMessage LANG_PLAYER_IN_GUILD)) ;;; st_ret true
  else
    let! res := with_new (Create env target (Some locale) guildname) in
    if negb res.1 then sys_message me LANG_GUILD_NOT_CREATED
    else AddGuild res.2 ;;; st_ret true.

Definition add_error (status : GuildAddStatus) : string :=
  match status with
  | ALREADY_IN_GUILD => "Player is already in a guild."
  | GUILD_FULL => "The target guild is full."
  | PLAYER_DATA_ERROR => "Player data appears to be corrupt - tell an administrator."
  | UNKNOWN_PLAYER => "Unable to find target player."
  | ADD_OK => "Unhandled guild invite error."
  end.
Definition HandleGuildInviteCommand (me target_guid : Z) (glName : string) : WM bool :=
  let! found := w_get (GetGuildByName env glName) in
  match found with
  | None => sys_message me LANG_GUILD_NOT_FOUND
  | Some g =>
      let! status := with_guild (m_Id g) (
        let! lowest := gw_get (fun c => GetLowestRank c.1) in AddMember env target_guid lowest) in
      if negb (bool_decide (status = ADD_OK)) then
        ev (EvPlayer me (CallSysText (add_error status))) ;;; st_ret false
      else
        ev (EvPlayer me (CallSysText (String.append "Player added to " (String.append glName ".")))) ;;; st_ret true
  end.

(** [target ? target->GetGuildId() : Player::GetGuildIdFromDB(target_guid)]. *)
Definition GetGuildIdFromDB (guid : Z) (w : World) : Z :=
  match t_guild_member (w_db w) !! GetCounter guid with Some r => mr_guildid r | None => 0 end.
Definition target_guild_id (target : bool) (target_guid : Z) (w : World) : Z :=
  if target then match w_players w !! target_guid with Some p => pl_guildId p | None => 0 end
  else GetGuildIdFromDB target_guid w.

Definition HandleGuildUninviteCommand (me : Z) (target : bool) (target_guid : Z) : WM bool :=
  let! glId := w_get (target_guild_id target target_guid) in
  if negb (truth glId) then st_ret false
  else
    let! guild := w_get (GetGuildById glId) in
    match guild with
    | None => sys_message me LANG_GUILD_NOT_FOUND
    | Some _ => with_guild glId (remove_or_disband env target_guid (st_ret tt)) ;;; st_ret true
    end.

Definition HandleGuildRankCommand (me : Z) (target : bool) (target_guid newrank : Z) : WM bool :=
  let! glId := w_get (target_guild_id target target_guid) in
  if negb (truth glId) then sys_message me LANG_GUILD_NOT_FOUND
  else
    let! guild := w_get (GetGuildById glId) in
    match guild with
    | None => st_ret false
    | Some g =>
        if newrank >? GetLowestRank g then st_ret false
        else
          match GetMemberSlot target_guid g with
          | None => st_ret false
          | Some key => with_guild glId (ChangeRank key newrank) ;;; st_ret true
          end
    end.

Definition HandleGuildDeleteCommand (me : Z) (gld : string) : WM bool :=
  let! found := w_get (GetGuildByName env gld) in
  match found with
  | None => sys_message me LANG_GUILD_NOT_FOUND
  | Some g => with_guild (m_Id g) (Disband env) ;;; st_ret true
  end.

Definition HandleGuildRenameCommand (me : Z) (currentName newName : string) : WM bool :=
  let! found := w_get (GetGuildByName env currentName) in
  match found with
  | None => sys_message me LANG_GUILD_NOT_FOUND
  | Some g =>
      let! existing := w_get (GetGuildByName env newName) in
      match existing with
      | Some _ =>
          ev (EvPlayer me (CallSysText (String.append "A guild with the name '"
            (String.append newName "' already exists")))) ;;; st_ret false
      | None =>
          with_guild (m_Id g) (Rename env newName) ;;;
          ev (EvPlayer me (CallSysText (String.append "Guild '" (String.append currentName
            (String.append "' successfully renamed to '" (String.append newName
              "'. Players must relog to see the changes")))))) ;;;
          st_ret true
      end
  end.

Definition HandleGuildLeaderCommand (me : Z) (target : bool) (playerGuid : Z) (playerName : string) : WM bool :=
  let! found := w_get (fun w =>
    if target then match w_players w !! playerGuid with Some p => GetGuildById (pl_guildId p) w | None => None end
    else GetPlayerGuild (GetCounter playerGuid) w) in
  match found with
  | None => ev (EvPlayer me (CallSysText "Player is not in a guild.")) ;;; st_ret false
  | Some g =>
      if m_LeaderGuid g =? playerGuid then
        ev (EvPlayer me (CallSysText "Player is already the guild leader.")) ;;; st_ret false
      else
        with_guild (m_Id g) (SetNewLeader env playerGuid) ;;;
        ev (EvPlayer me (CallSysText (String.append "Leader of " (String.append quote (String.append (m_Name g)
          (String.append quote (String.append " changed to " (String.append playerName ".")))))))) ;;;
        st_ret true
  end.

Definition HandleGuildListenCommand (me : Z) (guildName : string) : WM bool :=
  let! found := w_get (GetGuildByName env guildName) in
  match found with
  | None => sys_message me LANG_GUILD_NOT_FOUND
  | Some g =>
      with_guild (m_Id g) (
        let! res := gw_get (fun c => AddGMListener me c.1) in
        g_mod (fun _ => res.2) ;;; st_ret res.1)
  end.
End petitions.
