(* ===== verification/GuildInv.v ===== *)
(** * GuildInv: the invariant of guilds and what keeps it

    A guild has one guild master, the leader; members, the index of the
    registry, the table and the players agree on who is in which guild; nobody
    who signed a petition is in a guild.  The methods of [Guild] are specified
    by weakest preconditions on a guild and the world around it. *)

From stdpp Require Import gmap fin_maps strings.
From S2P Require Import Prelude ByteBuffer Codec ObjectGuid Packets Effects Incoming Social GuildData Guild GuildRoster.

Local Open Scope prog_scope.

(** ** What the parameters promise *)

Definition short (s : string) : Prop := slen s <= 2000.

Class EnvOk (env : GuildEnv) : Prop := {
  env_members : forall m, member_order env m ≡ₚ (map_to_list m).*1;
  env_guilds : forall m, guild_order env m ≡ₚ (map_to_list m).*1;
  env_petitions : forall m, petition_order env m ≡ₚ (map_to_list m).*1;
  env_sort : forall l, sort_by_rank env l ≡ₚ l;
  env_log_count : 0 < CONFIG_GUILD_EVENT_LOG_COUNT env;
  env_session : forall k m, FindChatMaster env k = Some m -> cm_session m = true;
  env_hook : forall id p r, 0 <= r <= 9 ->
    0 <= OnAddMember env id p r <= 9 /\ (OnAddMember env id p r = 0 <-> r = 0);
  env_cache : forall k d, GetPlayerDataByGUID env k = Some d -> 1 <= uiClass d <= 32 /\ short (sName d);
  env_strings : forall e l, short (GetMangosString env e l);
  env_escape : forall s, slen (escape_string env s) <= 2 * slen s;
  env_normalize : forall s n c,
    slen (normalizePlayerName env s n c).2 <= 4 * slen s
    /\ ((normalizePlayerName env s n c).1 = true -> slen (normalizePlayerName env s n c).2 <= 4 * n) }.

(** ** The invariant *)

Definition keys_ok (g : Guild) : Prop :=
  forall k m, members g !! k = Some m ->
    ms_guid m = k /\ 0 < k < 2 ^ 32 /\ 0 <= ms_RankId m <= 9
    /\ short (ms_Name m) /\ short (ms_PublicNote m) /\ short (ms_OfficerNote m).
Definition ranks_ok (g : Guild) : Prop :=
  5 <= Z.of_nat (length (m_Ranks g)) <= 10
  /\ (exists r, m_Ranks g !! 0%nat = Some r /\ Z.land (rk_Rights r) GR_RIGHT_ALL = GR_RIGHT_ALL)
  /\ Forall (fun r => short (rk_Name r)) (m_Ranks g).
Definition texts_ok (g : Guild) : Prop :=
  slen (m_Name g) <= 100000 /\ short (m_motd g) /\ short (m_info g).
Definition banks_ok (g : Guild) : Prop := _Bank g = true /\ _InfernoBank g = true.

(** One guild master: the leader. *)
Definition leader_ok (g : Guild) : Prop :=
  (exists m, members g !! m_LeaderGuid g = Some m /\ ms_RankId m = GR_GUILDMASTER)
  /\ forall k m, members g !! k = Some m -> ms_RankId m = GR_GUILDMASTER -> k = m_LeaderGuid g.

Record gbase (g : Guild) : Prop := {
  gb_keys : keys_ok g; gb_ranks : ranks_ok g; gb_texts : texts_ok g; gb_banks : banks_ok g }.
Definition gwf (g : Guild) : Prop := gbase g /\ leader_ok g.

Definition player_ok (p : Z) (pl : Player) : Prop :=
  pl_guid pl = p /\ 0 < p < 2 ^ 32 /\ 0 <= pl_rank pl <= 9 /\ short (pl_name pl).

(** Petitions: every signature is by another player. *)
Record petitions_ok (pts : gmap Z Petition) : Prop := {
  po_id : forall pid pt, pts !! pid = Some pt -> pt_id pt = pid;
  po_nodup : forall pid pt, pts !! pid = Some pt -> NoDup (sg_playerGuid <$> pt_signatures pt);
  po_once : forall pid pt pid' pt' s s', pts !! pid = Some pt -> pts !! pid' = Some pt' ->
    s ∈ pt_signatures pt -> s' ∈ pt_signatures pt' -> sg_playerGuid s = sg_playerGuid s' -> pid = pid';
  po_guid : forall pid pt s, pts !! pid = Some pt -> s ∈ pt_signatures pt -> 0 < sg_playerGuid s < 2 ^ 32;
  po_name : forall pid pt, pts !! pid = Some pt -> slen (pt_name pt) <= 100000;
  po_few : forall pid pt, pts !! pid = Some pt -> (length (pt_signatures pt) <= 9)%nat }.

(** The registry [G], the index [idx], the rows of [guild_member], the players
    and the petitions agree. *)
Record agree (G : gmap Z Guild) (idx : gmap Z Z) (rows : gmap Z member_row) (pls : gmap Z Player)
    (pts : gmap Z Petition) (ids : Z) : Prop := {
  ag_id : forall id g, G !! id = Some g -> m_Id g = id /\ 0 < id < ids;
  ag_index : forall id g k, G !! id = Some g -> (is_Some (members g !! k) <-> idx !! k = Some id);
  ag_reg : forall k id, idx !! k = Some id -> is_Some (G !! id);
  ag_rows : forall id g k m, G !! id = Some g -> members g !! k = Some m ->
    exists row, rows !! k = Some row /\ mr_guildid row = id /\ mr_rank row = ms_RankId m;
  ag_rows_index : forall k row, rows !! k = Some row -> idx !! k = Some (mr_guildid row);
  ag_players : forall p pl, pls !! p = Some pl ->
    player_ok p pl /\ forall id, idx !! p = Some id -> pl_guildId pl = id;
  ag_sign : forall pid pt s, pts !! pid = Some pt -> s ∈ pt_signatures pt -> idx !! sg_playerGuid s = None;
  ag_names : forall id1 g1 id2 g2, G !! id1 = Some g1 -> G !! id2 = Some g2 -> m_Name g1 = m_Name g2 -> id1 = id2;
  ag_ids : 0 < ids <= 2 ^ 32;
  ag_petitions : petitions_ok pts }.

Definition agree_w (G : gmap Z Guild) (w : World) : Prop :=
  agree G (m_guid2guild w) (t_guild_member (w_db w)) (w_players w) (m_petitionMap w) (m_GuildIds w).

Definition world_ok (w : World) : Prop :=
  agree_w (m_GuildMap w) w /\ forall id g, m_GuildMap w !! id = Some g -> gwf g.

(** The same while the code of the guild [id] runs: the object is ahead of the
    registry, and its own clauses are tracked apart. *)
Record focus (id : Z) (c : Guild * World) : Prop := {
  fo_id : m_Id c.1 = id;
  fo_agree : agree_w (<[id := c.1]> (m_GuildMap c.2)) c.2;
  fo_others : forall id' g', id' <> id -> m_GuildMap c.2 !! id' = Some g' -> gwf g' }.

(** ** Rules for the primitives *)

Section rules.
Context (X : Guild * World -> Prop).

Lemma wp_g_mod f (Q : unit -> Guild * World -> Prop) c : Q tt (f c.1, c.2) -> wp X (g_mod f) Q c.
Proof. by intros H log. Qed.
Lemma wp_world_mod f (Q : unit -> Guild * World -> Prop) c : Q tt (c.1, f c.2) -> wp X (world_mod f) Q c.
Proof. by intros H log. Qed.
Lemma wp_sql f (Q : unit -> Guild * World -> Prop) c : Q tt (c.1, w_on_db f c.2) -> wp X (sql f) Q c.
Proof. by intros H log. Qed.
Lemma wp_gw_get {A} (f : Guild * World -> A) (Q : A -> Guild * World -> Prop) c :
  Q (f c) c -> wp X (gw_get f) Q c.
Proof. by intros H log. Qed.
Lemma wp_slot_at key m (Q : MemberSlot -> Guild * World -> Prop) c :
  members c.1 !! key = Some m -> Q m c -> wp X (slot_at key) Q c.
Proof. intros Hm HQ. apply wp_bind, wp_gw_get. rewrite Hm. by apply wp_ret. Qed.
End rules.

Lemma logs_gw_get {A} (f : Guild * World -> A) : logs_only (gw_get f).
Proof. apply logs_get. Qed.
Lemma logs_w_get {A} (f : World -> A) : logs_only (w_get f).
Proof. apply logs_get. Qed.
#[export] Hint Resolve logs_gw_get logs_w_get : logs.

(** Code that only logs, up to the parameters it looks at. *)
Ltac logs_auto :=
  repeat match goal with
  | |- logs_only (st_bind _ _) => apply logs_bind; [|intros ?]
  | |- logs_only (each _ _) => apply logs_each; intros ? ?
  | |- logs_only (match ?x with _ => _ end) => destruct x eqn:?
  end; auto with logs.

(** Walking through a program. *)
Ltac wp_step :=
  match goal with
  | |- wp _ (st_bind _ _) _ _ => apply wp_bind
  | |- wp _ (g_mod _) _ _ => apply wp_g_mod
  | |- wp _ (sql _) _ _ => apply wp_sql
  | |- wp _ (world_mod _) _ _ => apply wp_world_mod
  | |- wp _ (gw_get _) _ _ => apply wp_gw_get
  | |- wp _ (st_ret _) _ _ => apply wp_ret
  | |- wp _ (ev _) _ _ => apply wp_logs; [apply logs_ev|intros _]
  end; cbv beta.
Ltac wps := repeat wp_step.

(** ** Guids of players *)

Lemma low_player k : 0 < k < 2 ^ 32 -> ObjectGuid_low HIGHGUID_PLAYER k = k.
Proof.
  intros Hk. rewrite ObjectGuid_low_sum by (unfold is_u, HIGHGUID_PLAYER; lia).
  unfold HIGHGUID_PLAYER. lia.
Qed.

Lemma counter_player k : 0 <= k < 2 ^ 32 -> GetCounter k = k.
Proof. intros. apply GetCounter_player. by unfold is_u. Qed.

(** An iteration order visits the keys of the container. *)
Lemma elem_of_keys {V} (m : gmap Z V) l k : l ≡ₚ (map_to_list m).*1 -> k ∈ l <-> is_Some (m !! k).
Proof.
  intros ->. rewrite list_elem_of_fmap. split.
  - intros ([k' v] & -> & H%elem_of_map_to_list). by exists v.
  - intros [v Hv]. exists (k, v). split; [done|]. by apply elem_of_map_to_list.
Qed.

Section order.
Context (env : GuildEnv) `{!EnvOk env}.

Lemma elem_of_member_order m k : k ∈ member_order env m <-> is_Some (m !! k).
Proof. apply elem_of_keys, env_members. Qed.
Lemma elem_of_petition_order m k : k ∈ petition_order env m <-> is_Some (m !! k).
Proof. apply elem_of_keys, env_petitions. Qed.
Lemma elem_of_guild_order m k : k ∈ guild_order env m <-> is_Some (m !! k).
Proof. apply elem_of_keys, env_guilds. Qed.
Lemma NoDup_member_order m : NoDup (member_order env m).
Proof. rewrite env_members. apply NoDup_fst_map_to_list. Qed.
End order.

(** ** Transitions that keep the agreement *)

Section transitions.
Context (G : gmap Z Guild) (idx : gmap Z Z) (rows : gmap Z member_row) (pls : gmap Z Player)
        (pts : gmap Z Petition) (ids : Z).
Implicit Types (g : Guild) (m : MemberSlot).

(** Only the members, the name and the id of a guild matter. *)
Lemma agree_guild id g g' :
  m_Id g' = m_Id g -> m_Name g' = m_Name g -> members g' = members g ->
  agree (<[id := g]> G) idx rows pls pts ids -> agree (<[id := g']> G) idx rows pls pts ids.
Proof.
  intros Hi Hn Hm H. destruct H as [A1 A2 A3 A4 A5 A6 A7 A8 A9 A10].
  assert (Hback : forall id1 g1, <[id := g']> G !! id1 = Some g1 ->
    exists g2, <[id := g]> G !! id1 = Some g2 /\ m_Id g1 = m_Id g2 /\ m_Name g1 = m_Name g2
               /\ members g1 = members g2).
  { intros id1 g1 [[-> <-]|[Hne Hl]]%lookup_insert_Some.
    - exists g. by rewrite lookup_insert_eq.
    - exists g1. by rewrite lookup_insert_ne. }
  split; auto.
  - intros id1 g1 (g2 & Hg2 & -> & _)%Hback. by apply A1.
  - intros id1 g1 k (g2 & Hg2 & _ & _ & ->)%Hback. by apply A2.
  - intros k id1 Hk. apply A3 in Hk. rewrite lookup_insert_is_Some' in *. tauto.
  - intros id1 g1 k m (g2 & Hg2 & _ & _ & ->)%Hback. by apply A4.
  - intros id1 g1 id2 g2 (h1 & Hh1 & _ & -> & _)%Hback (h2 & Hh2 & _ & -> & _)%Hback. eauto.
Qed.

(** A slot and its row change alike, and perhaps its player's rank. *)
Lemma agree_slot id g k m f h pls' :
  members g !! k = Some m ->
  (forall row, mr_guildid (h row) = mr_guildid row) ->
  (forall row, mr_rank row = ms_RankId m -> mr_rank (h row) = ms_RankId (f m)) ->
  (pls' = pls \/ exists r, 0 <= r <= 9 /\ pls' = alter (SetRank r) k pls) ->
  agree (<[id := g]> G) idx rows pls pts ids ->
  agree (<[id := set_members (alter f k (members g)) g]> G) idx (alter h k rows) pls' pts ids.
Proof.
  intros Hm Hh1 Hh2 Hp H. destruct H as [A1 A2 A3 A4 A5 A6 A7 A8 A9 A10].
  assert (Hg : <[id := g]> G !! id = Some g) by by rewrite lookup_insert_eq.
  assert (Ho : forall id1 g1, id <> id1 -> G !! id1 = Some g1 -> <[id := g]> G !! id1 = Some g1)
    by (intros; by rewrite lookup_insert_ne).
  assert (Hk : idx !! k = Some id) by (apply (A2 id g); [done|by exists m]).
  split; auto.
  - intros id1 g1 [[<- <-]|[Hne Hl]]%lookup_insert_Some; [by apply (A1 id g)|auto].
  - intros id1 g1 k1 [[<- <-]|[Hne Hl]]%lookup_insert_Some; [|auto].
    simpl. rewrite lookup_alter_is_Some. by apply A2.
  - intros k1 id1 H1%A3. rewrite lookup_insert_is_Some' in *. tauto.
  - intros id1 g1 k1 m1 [[<- <-]|[Hne Hl]]%lookup_insert_Some Hm1; simpl in *.
    + apply lookup_alter_Some in Hm1 as [(<- & m0 & Hm0 & ->)|[Hk1 Hm1]].
      * destruct (A4 id g k m) as (row & Hrow & Hid & Hrk); [done..|]. simplify_eq.
        exists (h row). rewrite lookup_alter_eq, Hrow, Hh1. split_and!; auto.
      * rewrite lookup_alter_ne by done. by apply (A4 id g).
    + assert (k <> k1). { intros <-. assert (idx !! k = Some id1) as Hc; [|congruence].
        apply (A2 id1 g1); [auto|by exists m1]. }
      rewrite lookup_alter_ne by done. apply (A4 id1 g1); auto.
  - intros k1 row [(<- & row0 & Hrow & ->)|[Hk1 Hrow]]%lookup_alter_Some; [rewrite Hh1|]; by apply A5.
  - intros p pl Hpl. destruct Hp as [->|(r & Hr & ->)]; [by apply A6|].
    apply lookup_alter_Some in Hpl as [(<- & pl0 & Hpl0 & ->)|[Hne Hpl]]; [|by apply A6].
    destruct (A6 _ _ Hpl0) as [(Hg1 & Hu & Hrk & Hn) Hid]. by split.
  - intros id1 g1 id2 g2 [[<- <-]|[Hne1 Hl1]]%lookup_insert_Some [[<- <-]|[Hne2 Hl2]]%lookup_insert_Some Hn;
      try done; simpl in Hn; eapply A8; try exact Hn; auto.
Qed.

(** A player that is in no guild becomes a member. *)
Lemma agree_enter id g k m row pls' :
  m_Id g = id -> idx !! k = None -> 0 < k < 2 ^ 32 ->
  mr_guildid row = id -> mr_rank row = ms_RankId m ->
  (forall pid pt s, pts !! pid = Some pt -> s ∈ pt_signatures pt -> sg_playerGuid s <> k) ->
  (forall p, p <> k -> pls' !! p = pls !! p) ->
  (forall pl, pls' !! k = Some pl -> player_ok k pl /\ pl_guildId pl = id) ->
  agree (<[id := g]> G) idx rows pls pts ids ->
  agree (<[id := set_members (<[k := m]> (members g)) g]> G) (<[k := id]> idx)
    (sql_insert_row k row rows) pls' pts ids.
Proof.
  intros Hid Hk Hku Hrid Hrr Hpt Hps Hpk H. destruct H as [A1 A2 A3 A4 A5 A6 A7 A8 A9 A10].
  assert (Hnr : rows !! k = None).
  { destruct (rows !! k) as [r0|] eqn:E; [|done]. apply A5 in E. congruence. }
  unfold sql_insert_row. rewrite Hnr.
  assert (Hnk : forall id1 g1, <[id := g]> G !! id1 = Some g1 -> members g1 !! k = None).
  { intros id1 g1 H1. destruct (members g1 !! k) as [m1|] eqn:E; [|done].
    assert (idx !! k = Some id1); [apply (A2 id1 g1); [done|by exists m1]|congruence]. }
  assert (Hg : <[id := g]> G !! id = Some g) by by rewrite lookup_insert_eq.
  assert (Ho : forall id1 g1, id <> id1 -> G !! id1 = Some g1 -> <[id := g]> G !! id1 = Some g1)
    by (intros; by rewrite lookup_insert_ne).
  split; auto.
  - intros id1 g1 [[<- <-]|[Hne Hl]]%lookup_insert_Some; [by apply (A1 id g)|auto].
  - intros id1 g1 k1 [[<- <-]|[Hne Hl]]%lookup_insert_Some; simpl;
      (destruct (decide (k1 = k)) as [->|Hk1]; [rewrite !lookup_insert_eq|rewrite !lookup_insert_ne by done]).
    + split; [done|by eexists].
    + by apply A2.
    + rewrite (Hnk id1 g1) by auto. split; [by intros []|congruence].
    + by apply A2; auto.
  - intros k1 id1. rewrite lookup_insert_is_Some'.
    intros [[_ <-]|[_ H1%A3]]%lookup_insert_Some; [by left|]. by rewrite lookup_insert_is_Some' in H1.
  - intros id1 g1 k1 m1 [[<- <-]|[Hne Hl]]%lookup_insert_Some; simpl.
    + intros [[<- <-]|[Hk1 Hm1]]%lookup_insert_Some.
      * exists row. by rewrite lookup_insert_eq.
      * rewrite lookup_insert_ne by done. by apply (A4 id g).
    + intros Hm1. assert (k <> k1). { intros <-. rewrite (Hnk id1 g1) in Hm1; [done|auto]. }
      rewrite lookup_insert_ne by done. apply (A4 id1 g1); auto.
  - intros k1 row1 [[<- <-]|[Hk1 H1]]%lookup_insert_Some.
    + rewrite lookup_insert_eq. by rewrite Hrid.
    + rewrite lookup_insert_ne by done. by apply A5.
  - intros p pl Hpl. destruct (decide (p = k)) as [->|Hpk1].
    + destruct (Hpk pl Hpl) as [Hok Hi]. split; [done|]. intros id1. rewrite lookup_insert_eq. congruence.
    + rewrite lookup_insert_ne by done. apply A6. by rewrite <- Hps.
  - intros pid pt s Hpid Hs. rewrite lookup_insert_ne by (intros Heq; by eapply (Hpt pid pt s)). eauto.
  - intros id1 g1 id2 g2 [[<- <-]|[Hne1 Hl1]]%lookup_insert_Some [[<- <-]|[Hne2 Hl2]]%lookup_insert_Some Hn;
      try done; simpl in Hn; eapply A8; try exact Hn; auto.
Qed.

(** A member, or nobody, leaves. *)
Lemma agree_erase id g k pls' :
  (idx !! k = Some id \/ idx !! k = None) ->
  (pls' = pls \/ pls' = alter (fun p => SetRank 0 (SetInGuild 0 p)) k pls) ->
  agree (<[id := g]> G) idx rows pls pts ids ->
  agree (<[id := set_members (delete k (members g)) g]> G) (delete k idx) (delete k rows) pls' pts ids.
Proof.
  intros Hk Hp H. destruct H as [A1 A2 A3 A4 A5 A6 A7 A8 A9 A10].
  assert (Hg : <[id := g]> G !! id = Some g) by by rewrite lookup_insert_eq.
  assert (Ho : forall id1 g1, id <> id1 -> G !! id1 = Some g1 -> <[id := g]> G !! id1 = Some g1)
    by (intros; by rewrite lookup_insert_ne).
  assert (Hout : forall id1 g1, id <> id1 -> G !! id1 = Some g1 -> members g1 !! k = None).
  { intros id1 g1 Hne H1. destruct (members g1 !! k) as [m1|] eqn:E; [|done].
    assert (idx !! k = Some id1); [apply (A2 id1 g1); [auto|by exists m1]|destruct Hk; congruence]. }
  split; auto.
  - intros id1 g1 [[<- <-]|[Hne Hl]]%lookup_insert_Some; [by apply (A1 id g)|auto].
  - intros id1 g1 k1 [[<- <-]|[Hne Hl]]%lookup_insert_Some; simpl;
      (destruct (decide (k1 = k)) as [->|Hk1];
       [rewrite ?lookup_delete_eq|rewrite ?lookup_delete_ne by done]).
    + split; [by intros []|done].
    + by apply A2.
    + rewrite (Hout id1 g1) by done. split; [by intros []|done].
    + by apply A2; auto.
  - intros k1 id1 [_ H1%A3]%lookup_delete_Some. rewrite lookup_insert_is_Some' in *. tauto.
  - intros id1 g1 k1 m1 [[<- <-]|[Hne Hl]]%lookup_insert_Some; simpl.
    + intros [Hk1 Hm1]%lookup_delete_Some. rewrite lookup_delete_ne by done. by apply (A4 id g).
    + intros Hm1. assert (k <> k1). { intros <-. rewrite (Hout id1 g1) in Hm1; [done..]. }
      rewrite lookup_delete_ne by done. apply (A4 id1 g1); auto.
  - intros k1 row1 [Hk1 H1]%lookup_delete_Some. rewrite lookup_delete_ne by done. by apply A5.
  - intros p pl Hpl. destruct Hp as [->| ->].
    + destruct (A6 _ _ Hpl) as [Hok Hi]. split; [done|]. intros id1 [_ ?]%lookup_delete_Some. auto.
    + apply lookup_alter_Some in Hpl as [(<- & pl0 & Hpl0 & ->)|[Hne Hpl]].
      * destruct (A6 _ _ Hpl0) as [(Hg1 & Hu & Hrk & Hn) Hid]. split; [unfold player_ok; cbn; split_and!; auto; lia|].
        intros id1. by rewrite lookup_delete_eq.
      * destruct (A6 _ _ Hpl) as [Hok Hi]. split; [done|]. intros id1 [_ ?]%lookup_delete_Some. auto.
  - intros pid pt s Hpid Hs. rewrite lookup_delete_None. right. eauto.
  - intros id1 g1 id2 g2 [[<- <-]|[Hne1 Hl1]]%lookup_insert_Some [[<- <-]|[Hne2 Hl2]]%lookup_insert_Some Hn;
      try done; simpl in Hn; eapply A8; try exact Hn; auto.
Qed.

(** An empty guild is unregistered. *)
Lemma agree_unregister id g :
  members g = ∅ -> agree (<[id := g]> G) idx rows pls pts ids -> agree (delete id G) idx rows pls pts ids.
Proof.
  intros Hm H. destruct H as [A1 A2 A3 A4 A5 A6 A7 A8 A9 A10].
  assert (Hb : forall id1 g1, delete id G !! id1 = Some g1 -> <[id := g]> G !! id1 = Some g1)
    by (intros id1 g1 [? ?]%lookup_delete_Some; by rewrite lookup_insert_ne).
  split; eauto.
  intros k id1 Hk. destruct (A3 k id1 Hk) as [g1 H1]. exists g1.
  apply lookup_insert_Some in H1 as [[-> ->]|[Hne H1]].
  - assert (is_Some (members g1 !! k)) as [? Hc]; [|by rewrite Hm in Hc].
    apply (A2 id1 g1); [by rewrite lookup_insert_eq|done].
  - by rewrite lookup_delete_ne.
Qed.

(** A new guild without members is registered. *)
Lemma agree_register id g :
  G !! id = None -> m_Id g = id -> 0 < id < ids -> members g = ∅ ->
  (forall id1 g1, G !! id1 = Some g1 -> m_Name g1 <> m_Name g) ->
  agree G idx rows pls pts ids -> agree (<[id := g]> G) idx rows pls pts ids.
Proof.
  intros Hf Hi Hids Hm Hn H. destruct H as [A1 A2 A3 A4 A5 A6 A7 A8 A9 A10].
  split; auto.
  - intros id1 g1 [[<- <-]|[Hne Hl]]%lookup_insert_Some; auto.
  - intros id1 g1 k [[<- <-]|[Hne Hl]]%lookup_insert_Some; [|auto].
    rewrite Hm, lookup_empty. split; [by intros []|]. intros [g2 Hc]%A3. congruence.
  - intros k id1 H1%A3. rewrite lookup_insert_is_Some'. by right.
  - intros id1 g1 k m [[<- <-]|[Hne Hl]]%lookup_insert_Some Hk; [by rewrite Hm in Hk|eauto].
  - intros id1 g1 id2 g2 [[<- <-]|[Hne1 Hl1]]%lookup_insert_Some [[<- <-]|[Hne2 Hl2]]%lookup_insert_Some He;
      [done|..|eauto]; exfalso; eapply Hn; eauto.
Qed.
End transitions.

(** ** Petitions *)

Section petitions.
Context (env : GuildEnv) `{!EnvOk env}.

Lemma first_such_Some {V} (p : V -> bool) (m : gmap Z V) keys v :
  first_such p m keys = Some v -> exists k, k ∈ keys /\ m !! k = Some v /\ p v = true.
Proof.
  induction keys as [|k keys IH]; simpl; [done|].
  destruct (m !! k) as [v'|] eqn:E; [destruct (p v') eqn:Ep|].
  - intros [= ->]. exists k. split_and!; [set_solver|done..].
  - intros (k' & ? & ?)%IH. exists k'. set_solver.
  - intros (k' & ? & ?)%IH. exists k'. set_solver.
Qed.
Lemma first_such_None {V} (p : V -> bool) (m : gmap Z V) keys k v :
  first_such p m keys = None -> k ∈ keys -> m !! k = Some v -> p v = false.
Proof.
  induction keys as [|k' keys IH]; simpl; [set_solver|].
  intros Hn [->|Hk]%elem_of_cons Hv.
  - rewrite Hv in Hn. by destruct (p v).
  - destruct (m !! k') as [v'|]; [destruct (p v')|]; auto; done.
Qed.
(** No guild of that name: [GetGuildByName] looks at all of them. *)
Lemma GetGuildByName_None name w :
  GetGuildByName env name w = None -> forall id g, m_GuildMap w !! id = Some g -> m_Name g <> name.
Proof.
  intros Hn id g Hg He. eapply first_such_None in Hn; [|apply (elem_of_guild_order env); by exists g|done].
  by rewrite bool_decide_eq_true_2 in Hn.
Qed.
Lemma GetGuildByName_Some name w g :
  GetGuildByName env name w = Some g -> exists id, m_GuildMap w !! id = Some g /\ m_Name g = name.
Proof. intros (k & _ & Hk & Hb)%first_such_Some. exists k. by apply bool_decide_eq_true in Hb. Qed.

Lemma remove_first_sub k l s : s ∈ remove_first k l -> s ∈ l.
Proof.
  induction l as [|x l IH]; simpl; [done|]. destruct (_ =? _); [set_solver|].
  intros [->|H]%elem_of_cons; [set_solver|]. set_solver.
Qed.
Lemma remove_first_NoDup k l : NoDup (sg_playerGuid <$> l) -> NoDup (sg_playerGuid <$> remove_first k l).
Proof.
  induction l as [|x l IH]; simpl; [done|]. intros [Hx Hl]%NoDup_cons. destruct (_ =? _); [done|].
  simpl. apply NoDup_cons. split; [|by apply IH].
  intros (s & Hs & Hin)%list_elem_of_fmap. apply Hx, list_elem_of_fmap. exists s.
  split; [done|]. by eapply remove_first_sub.
Qed.
Lemma remove_first_gone k l s :
  NoDup (sg_playerGuid <$> l) -> s ∈ remove_first k l -> sg_playerGuid s <> k.
Proof.
  induction l as [|x l IH]; simpl; [intros _ []%elem_of_nil|]. intros [Hx Hl]%NoDup_cons.
  destruct (Z.eqb_spec (sg_playerGuid x) k) as [<-|Hne].
  - intros Hs Heq. apply Hx, list_elem_of_fmap. by exists s.
  - intros [->|Hs]%elem_of_cons; [done|]. by apply IH.
Qed.

Lemma remove_first_length k l : (length (remove_first k l) <= length l)%nat.
Proof. induction l as [|x l IH]; simpl; [done|]. destruct (_ =? _); simpl; lia. Qed.

Lemma find_guid_Some k p s :
  pt_GetSignatureForPlayerGuid k p = Some s -> s ∈ pt_signatures p /\ sg_playerGuid s = k.
Proof. intros [H1 H2]%find_some. split; [by apply list_elem_of_In|lia]. Qed.
Lemma find_guid_None k p s :
  pt_GetSignatureForPlayerGuid k p = None -> s ∈ pt_signatures p -> sg_playerGuid s <> k.
Proof. intros Hn Hs%list_elem_of_In. apply (find_none _ _ Hn) in Hs. lia. Qed.

(** Fewer signatures. *)
Lemma agree_petitions G idx rows pls pts pts' ids :
  petitions_ok pts' ->
  (forall pid pt s, pts' !! pid = Some pt -> s ∈ pt_signatures pt -> idx !! sg_playerGuid s = None) ->
  agree G idx rows pls pts ids -> agree G idx rows pls pts' ids.
Proof. intros Ho Hs []. by split. Qed.

(** Dropping the signature of [k] leaves none by [k]. *)
Lemma drop_signature_spec k w :
  petitions_ok (m_petitionMap w) ->
  let pts' := m_petitionMap (drop_signature env k w) in
  petitions_ok pts'
  /\ (forall pid pt s, pts' !! pid = Some pt -> s ∈ pt_signatures pt ->
        sg_playerGuid s <> k
        /\ exists pt0, m_petitionMap w !! pid = Some pt0 /\ s ∈ pt_signatures pt0).
Proof.
  intros Hok. pose proof Hok as [P1 P2 P3 P4 P5 P6]. unfold drop_signature, GetSignatureForPlayerGuid.
  destruct (first_such _ _ _) as [p|] eqn:E; simpl.
  - apply first_such_Some in E as (pid0 & _ & Hp & Hb).
    destruct (pt_GetSignatureForPlayerGuid k p) as [s0|] eqn:E2; [|done]. simpl.
    apply find_guid_Some in E2 as [Hs0 Hk0]. rewrite (P1 _ _ Hp).
    assert (Hback : forall pid pt, alter (DeleteSignature k) pid0 (m_petitionMap w) !! pid = Some pt ->
      exists pt0, m_petitionMap w !! pid = Some pt0 /\ pt_id pt = pt_id pt0 /\ pt_name pt = pt_name pt0
        /\ (forall s, s ∈ pt_signatures pt -> s ∈ pt_signatures pt0 /\ sg_playerGuid s <> k)
        /\ NoDup (sg_playerGuid <$> pt_signatures pt) /\ (length (pt_signatures pt) <= 9)%nat).
    { intros pid pt [(<- & pt0 & H0 & ->)|[Hne H0]]%lookup_alter_Some.
      - exists pt0. simpl. split_and!; try done; [|apply remove_first_NoDup; eauto|].
        2: { etrans; [apply remove_first_length|eauto]. }
        intros s Hs. split; [by eapply remove_first_sub|]. eapply remove_first_gone; eauto.
      - exists pt. split_and!; eauto. intros s Hs. split; [done|]. intros Heq. apply Hne.
        eapply P3; [exact Hp|exact H0|exact Hs0|exact Hs|congruence]. }
    split; [split|].
    + intros pid pt (pt0 & H0 & -> & _)%Hback. by apply P1.
    + intros pid pt (pt0 & _ & _ & _ & _ & ? & _)%Hback. done.
    + intros pid pt pid' pt' s s' (q & Hq & _ & _ & Hs & _)%Hback (q' & Hq' & _ & _ & Hs' & _)%Hback H1 H2.
      apply (P3 _ _ _ _ _ _ Hq Hq'); [by apply Hs|by apply Hs'].
    + intros pid pt s (pt0 & H0 & _ & _ & Hs & _)%Hback H1. apply (P4 pid pt0); [done|by apply Hs].
    + intros pid pt (pt0 & H0 & _ & -> & _)%Hback. eauto.
    + intros pid pt (pt0 & _ & _ & _ & _ & _ & ?)%Hback. done.
    + intros pid pt s (pt0 & H0 & _ & _ & Hs & _)%Hback H1. destruct (Hs s H1). eauto.
  - split; [done|]. intros pid pt s Hpt Hs. split; [|by exists pt].
    eapply first_such_None in E; [|apply (elem_of_petition_order env); by exists pt|done]. simpl in E.
    destruct (pt_GetSignatureForPlayerGuid k pt) eqn:E2; [done|]. by eapply find_guid_None.
Qed.
(** A petition stays, with no more signatures than it had. *)
Lemma drop_petition k w pid p :
  m_petitionMap w !! pid = Some p ->
  exists p', m_petitionMap (drop_signature env k w) !! pid = Some p'
    /\ (length (pt_signatures p') <= length (pt_signatures p))%nat.
Proof.
  intros Hp. unfold drop_signature. destruct (GetSignatureForPlayerGuid env k w) as [[q s]|]; [|by exists p].
  cbn. destruct (decide (pt_id q = pid)) as [<-|Hne].
  - exists (DeleteSignature k p). rewrite lookup_alter_eq, Hp. split; [done|]. apply remove_first_length.
  - exists p. by rewrite lookup_alter_ne.
Qed.
Lemma drop_signature_frame k w :
  let w' := drop_signature env k w in
  m_GuildMap w' = m_GuildMap w /\ m_guid2guild w' = m_guid2guild w
  /\ t_guild_member (w_db w') = t_guild_member (w_db w) /\ w_players w' = w_players w
  /\ m_GuildIds w' = m_GuildIds w /\ w_names w' = w_names w.
Proof. unfold drop_signature. by destruct (GetSignatureForPlayerGuid env k w) as [[]|]. Qed.
End petitions.

(** ** Guild objects after an operation *)

Definition ranked (k r : Z) (g : Guild) : Guild := set_members (alter (ms_set_RankId r) k (members g)) g.
Definition erased (k : Z) (isDisbanding : bool) (g : Guild) : Guild :=
  let g1 := RemoveFromCache k (set_members (delete k (members g)) g) in
  if isDisbanding then g1 else UpdateAccountsNumber g1.

(** The online players stay online, the registry stays as it is. *)
Record stays (c c' : Guild * World) : Prop := {
  st_online : forall p, is_Some (w_players c.2 !! p) -> is_Some (w_players c'.2 !! p);
  st_registry : m_GuildMap c'.2 = m_GuildMap c.2;
  st_index : forall p i, m_guid2guild c'.2 !! p = Some i -> m_guid2guild c.2 !! p = Some i }.

#[global] Instance stays_preorder : PreOrder stays.
Proof.
  split; [by split; eauto|]. intros c1 c2 c3 [H1 E1 I1] [H2 E2 I2]. split; [eauto|congruence|eauto].
Qed.

(** Changes of the guild and the world that the agreement does not see. *)
Lemma focus_frame id g w g' w' :
  m_Id g' = m_Id g -> m_Name g' = m_Name g -> members g' = members g ->
  m_GuildMap w' = m_GuildMap w -> m_guid2guild w' = m_guid2guild w ->
  t_guild_member (w_db w') = t_guild_member (w_db w) -> w_players w' = w_players w ->
  m_petitionMap w' = m_petitionMap w -> m_GuildIds w' = m_GuildIds w ->
  focus id (g, w) -> focus id (g', w').
Proof.
  intros Hi Hn Hm Hg Hx Hr Hp Ht Hs [F1 F2 F3]. split; simpl in *; [congruence| |by rewrite Hg].
  unfold agree_w in *. rewrite Hg, Hx, Hr, Hp, Ht, Hs. eapply agree_guild; [..|exact F2]; congruence.
Qed.
Lemma stays_frame g w g' w' :
  m_GuildMap w' = m_GuildMap w -> m_guid2guild w' = m_guid2guild w -> w_players w' = w_players w ->
  stays (g, w) (g', w').
Proof. intros H1 H2 H3. split; simpl; by rewrite ?H1, ?H2, ?H3. Qed.

Lemma keys_ranked k r g : keys_ok g -> 0 <= r <= 9 -> keys_ok (ranked k r g).
Proof.
  intros Hk Hr k1 m1. cbn [members ranked set_members].
  intros [(<- & m0 & H0 & ->)|[Hne H1]]%lookup_alter_Some; [|by apply Hk].
  apply Hk in H0. simpl. tauto.
Qed.
Lemma keys_erased k b g : keys_ok g -> keys_ok (erased k b g).
Proof. intros Hk k1 m1. destruct b; simpl; intros [_ H]%lookup_delete_Some; by apply Hk. Qed.
Lemma gbase_ranked k r g : gbase g -> 0 <= r <= 9 -> gbase (ranked k r g).
Proof. intros [] Hr. split; auto. by apply keys_ranked. Qed.
Lemma gbase_set_Leader v g : gbase g -> gbase (set_Leader v g).
Proof. by intros []. Qed.
Lemma gbase_erased k b g : gbase g -> gbase (erased k b g).
Proof. intros []. split; [by apply keys_erased|by destruct b..]. Qed.

(** ** The leader *)

(** [best_of ms S n]: [n] is a slot of lowest rank id among [S]. *)
Definition best_of (ms : gmap Z MemberSlot) (S : list Z) (n : option Z) : Prop :=
  match n with
  | None => S = []
  | Some k => k ∈ S /\ forall k' m m', k' ∈ S -> ms !! k = Some m -> ms !! k' = Some m' ->
                ms_RankId m <= ms_RankId m'
  end.

(** The scan for a successor: the leader is skipped, the lowest rank id wins. *)
Lemma scan_best low ms keys : forall S n0 o0,
  (forall k, k ∈ S ++ keys -> is_Some (ms !! k)) -> best_of ms S n0 ->
  best_of ms (S ++ filter (fun k => k <> low) keys) (scan_leader low ms keys n0 o0).1.
Proof.
  induction keys as [|x keys IH]; intros S n0 o0 Hin Hb; cbn [scan_leader].
  { by rewrite filter_nil, app_nil_r. }
  assert (forall S', S' ⊆ S ++ [x] -> forall k, k ∈ S' ++ keys -> is_Some (ms !! k)) as Hin'
    by (intros S' HS k Hk; apply Hin; set_solver).
  destruct (Z.eqb_spec x low) as [->|Hxl].
  { rewrite filter_cons_False by tauto. apply IH; [|done]. apply Hin'. set_solver. }
  rewrite filter_cons_True, (cons_middle x S), app_assoc by done. apply IH; [by apply Hin'|].
  destruct (Hin x ltac:(set_solver)) as [mx Hx]. destruct n0 as [y|]; cbn [best_of] in Hb.
  - destruct Hb as [Hy Hmin]. destruct (Hin y ltac:(set_solver)) as [my Hmy]. rewrite Hmy, Hx.
    destruct (Z.gtb_spec (ms_RankId my) (ms_RankId mx)); (split; [set_solver|]);
      intros k' m m' [Hk'| ->%list_elem_of_singleton]%elem_of_app Hm Hm'; simplify_eq;
      first [lia|specialize (Hmin k' my m' Hk' Hmy Hm'); lia].
  - subst S. split; [set_solver|]. intros k' m m' ->%list_elem_of_singleton ? ?. simplify_eq. lia.
Qed.
Lemma scan_old low ms keys : forall n0 o0,
  (scan_leader low ms keys n0 o0).2 = if bool_decide (low ∈ keys) then Some low else o0.
Proof.
  induction keys as [|x keys IH]; intros n0 o0; cbn [scan_leader]; [done|].
  destruct (Z.eqb_spec x low) as [->|Hxl]; rewrite IH.
  - rewrite (bool_decide_eq_true_2 (low ∈ low :: keys)) by set_solver. by case_bool_decide.
  - rewrite (bool_decide_ext (low ∈ x :: keys) (low ∈ keys)); [done|set_solver].
Qed.

(** The successor of the leader of a guild. *)
Lemma suitable_spec env `{!EnvOk env} g :
  keys_ok g -> leader_ok g ->
  (GetSuitableNewLeader env false g).2 = Some (m_LeaderGuid g)
  /\ best_of (members g) (filter (fun k => k <> m_LeaderGuid g) (member_order env (members g)))
       (GetSuitableNewLeader env false g).1.
Proof.
  intros Hk [(m & Hm & _) _]. destruct (Hk _ _ Hm) as (_ & Hu & _).
  unfold GetSuitableNewLeader. rewrite counter_player by lia.
  pose proof (scan_old (m_LeaderGuid g) (members g) (member_order env (members g)) None None) as Ho.
  pose proof (scan_best (m_LeaderGuid g) (members g) (member_order env (members g)) [] None None) as Hb.
  destruct (scan_leader _ _ _ _ _) as [n o]. cbn [fst snd] in *. split.
  - rewrite Ho, bool_decide_eq_true_2; [done|]. by apply (elem_of_member_order env); exists m.
  - apply Hb; [|done]. intros k Hk'. by apply (elem_of_member_order env).
Qed.

Lemma leader_erased k b g : leader_ok g -> k <> m_LeaderGuid g -> leader_ok (erased k b g).
Proof.
  intros [(m & Hm & Hr) Hu] Hk.
  assert (Hl : m_LeaderGuid (erased k b g) = m_LeaderGuid g) by by destruct b.
  assert (Hms : members (erased k b g) = delete k (members g)) by by destruct b.
  split; rewrite Hl, Hms.
  - exists m. by rewrite lookup_delete_ne.
  - intros k1 m1 [_ H1]%lookup_delete_Some. by apply Hu.
Qed.
(** Handing over the leadership. *)
Lemma leader_handover n mn o g :
  leader_ok g -> o = m_LeaderGuid g -> n <> o -> members g !! n = Some mn ->
  leader_ok (ranked o 1 (ranked n 0 (set_Leader n g))).
Proof.
  intros [(m & Hm & Hr) Hu] -> Hne Hn. split; cbn.
  - exists (ms_set_RankId 0 mn). by rewrite lookup_alter_ne, lookup_alter_eq, Hn.
  - intros k1 m1 [(<- & m0 & _ & ->)|[Hk1 [(<- & m0 & H0 & ->)|[Hk2 H1]]%lookup_alter_Some]]%lookup_alter_Some;
      cbn; [done|done|]. intros Hz. by apply (Hu k1 m1) in Hz.
Qed.

(** ** Specifications of the methods *)

Section specs.
Context (env : GuildEnv) `{!EnvOk env} (X : Guild * World -> Prop).
Implicit Types (c : Guild * World).

Lemma ChangeRank_spec id k m r c :
  focus id c -> keys_ok c.1 -> members c.1 !! k = Some m -> 0 <= r <= 9 ->
  wp X (ChangeRank k r) (fun _ c' => focus id c' /\ c'.1 = ranked k r c.1 /\ stays c c') c.
Proof.
  intros [F1 F2 F3] Hk Hm Hr. destruct (Hk _ _ Hm) as (Hg & Hu & _).
  unfold ChangeRank. apply wp_bind. eapply wp_slot_at; [done|]. rewrite Hg.
  unfold on_slot. wps. cbn [fst snd]. rewrite counter_player by lia.
  destruct (FindPlayer k c.2) as [p|]; wps; cbn [fst snd]; (split; [|split; [done|]]);
    split; try done; cbn [fst snd]; try (by eapply agree_slot; [..|left|exact F2]).
  - eapply agree_slot; [done..|right; by exists r|exact F2].
  - intros q Hq. cbn. by rewrite lookup_alter_is_Some.
Qed.

Lemma SetLeader_slot_spec id k m c :
  focus id c -> keys_ok c.1 -> members c.1 !! k = Some m ->
  wp X (SetLeader_slot k)
    (fun _ c' => focus id c' /\ c'.1 = ranked k 0 (set_Leader k c.1) /\ stays c c') c.
Proof.
  intros HF Hk Hm. destruct (Hk _ _ Hm) as (Hg & Hu & _). destruct c as [g w]. cbn [fst] in *.
  unfold SetLeader_slot. apply wp_bind. eapply wp_slot_at; [done|]. rewrite Hg. wps.
  eapply wp_conseq; [eapply (ChangeRank_spec id k m)|].
  - by eapply focus_frame, HF.
  - done.
  - done.
  - unfold GR_GUILDMASTER. lia.
  - intros _ [g1 w1] (F & He & S). cbn [fst] in He. subst g1. wps. cbn [fst snd] in *.
    split_and!; [by eapply focus_frame, F|done|].
    transitivity (set_Leader k g, w); [by apply stays_frame|]. etrans; [exact S|]. by apply stays_frame.
Qed.

(** Packets with a few short strings. *)
Lemma fits_event e guid s1 s2 s3 :
  (forall s, s1 = Some s \/ s2 = Some s \/ s3 = Some s -> slen s <= 100000) ->
  logs_only (BroadcastEvent env e guid s1 s2 s3).
Proof.
  intros Hs. unfold BroadcastEvent. apply logs_bind.
  - unfold EventPacket. eapply (logs_made_fits _ _ (1 + (1 + (300003 + 8)))); [|done].
    repeat apply fits_seq; auto with packets.
    + assert (Hc : forall o : option string, (forall s, o = Some s -> slen s <= 100000) ->
        fits (pk_buf (write_cstr (option_map bytes_of_string o))) 100001).
      { intros [s|] Ho; [eapply fits_weaken; [apply (fits_cstr s)|specialize (Ho s eq_refl); unfold slen in *; lia]|].
        eapply fits_weaken; [apply (fits_cstr "")|]. simpl. lia. }
      destruct s3, s2, s1; try (eapply fits_weaken; [repeat apply fits_seq; apply Hc; naive_solver|lia]);
        by apply fits_ret.
    + destruct (IsEmpty guid); [by apply fits_ret|auto with packets].
  - intros p. unfold BroadcastPacket, send_listeners, send_in_world.
    logs_auto.
    match goal with
    | H : FindChatMaster env _ = Some ?m, H' : cm_session ?m = false |- _ => by rewrite (env_session _ _ H) in H'
    end.
Qed.

Lemma SetNewLeader_slots_spec id n mn o mo c :
  focus id c -> keys_ok c.1 -> members c.1 !! n = Some mn -> members c.1 !! o = Some mo -> n <> o ->
  wp X (SetNewLeader_slots env n (Some o))
    (fun _ c' => focus id c' /\ c'.1 = ranked o 1 (ranked n 0 (set_Leader n c.1)) /\ stays c c') c.
Proof.
  intros HF Hk Hn Ho Hne. unfold SetNewLeader_slots. apply wp_bind.
  eapply wp_conseq; [by eapply SetLeader_slot_spec|]. intros _ c1 (F1 & E1 & S1). cbv beta.
  assert (Hk1 : keys_ok c1.1) by (rewrite E1; apply keys_ranked; [done|lia]).
  assert (Ho1 : members c1.1 !! o = Some mo) by (rewrite E1; cbn; by rewrite lookup_alter_ne).
  assert (Hn1 : members c1.1 !! n = Some (ms_set_RankId 0 mn)) by (rewrite E1; cbn; by rewrite lookup_alter_eq, Hn).
  apply wp_bind. eapply wp_conseq; [eapply (ChangeRank_spec id o mo GR_OFFICER); [done..|unfold GR_OFFICER; lia]|].
  intros _ c2 (F2 & E2 & S2). cbv beta.
  apply wp_bind. eapply wp_slot_at; [by rewrite E2; cbn; rewrite lookup_alter_eq, Ho1|].
  apply wp_bind. eapply wp_slot_at; [rewrite E2; cbn; by rewrite lookup_alter_ne by done|].
  apply wp_logs; [|intros _; split_and!; [done|by rewrite E2, E1|by etrans]].
  apply fits_event. destruct (Hk _ _ Hn) as (_ & _ & _ & Hs & _). destruct (Hk _ _ Ho) as (_ & _ & _ & Hs' & _).
  unfold short in *. cbn. naive_solver lia.
Qed.

Lemma erase_member_spec id k b c :
  focus id c -> 0 < k < 2 ^ 32 -> (m_guid2guild c.2 !! k = Some id \/ m_guid2guild c.2 !! k = None) ->
  wp X (erase_member k b)
    (fun last c' => focus id c' /\ c'.1 = erased k b c.1 /\ stays c c'
       /\ last = bool_decide (members c'.1 = ∅)) c.
Proof.
  intros [F1 F2 F3] Hu Hi. unfold erase_member. rewrite counter_player by lia. wps. cbn [fst snd].
  set (w1 := GuildMemberRemoved k c.2). set (g1 := RemoveFromCache k _).
  assert (Hgen : forall pls', (pls' = w_players c.2 \/
      pls' = alter (fun p => SetRank 0 (SetInGuild 0 p)) k (w_players c.2)) ->
    let c' := (erased k b c.1, w_on_db (on_member (delete k)) (w_set_players pls' w1)) in
    focus id c' /\ c'.1 = erased k b c.1 /\ stays c c').
  { intros pls' Hp c'. assert (Hm : members (erased k b c.1) = delete k (members c.1)) by by destruct b.
    split; [|split; [done|]]; split; cbn [fst snd c']; auto.
    - rewrite <- F1. by destruct b.
    - eapply (agree_guild _ _ _ _ _ _ _ (set_members (delete k (members c.1)) c.1)); [by destruct b..|].
      eapply agree_erase; [done| |exact F2]. done.
    - intros p Hq. cbn. destruct Hp as [->| ->]; [done|]. by rewrite lookup_alter_is_Some.
    - intros p i. cbn. by intros [_ ?]%lookup_delete_Some. }
  assert (Hpl : w_set_players (w_players c.2) w1 = w1) by by destruct c as [? []].
  destruct (FindPlayer k w1) as [p|]; wps; cbn [fst snd].
  - destruct (Hgen _ (or_intror eq_refl)) as (H1 & H2 & H3).
    destruct b; cbn [negb]; wps; by split_and!.
  - destruct (Hgen _ (or_introl eq_refl)) as (H1 & H2 & H3). rewrite Hpl in H1, H3.
    destruct b; cbn [negb]; wps; by split_and!.
Qed.

(** A member of the guild, or somebody in no guild. *)
Definition removable (id k : Z) (c : Guild * World) : Prop :=
  0 < k < 2 ^ 32 /\ (m_guid2guild c.2 !! k = Some id \/ m_guid2guild c.2 !! k = None).

Lemma removable_stays id k c c' : stays c c' -> removable id k c -> removable id k c'.
Proof.
  intros [_ _ Hs] [Hu Hi]. split; [done|].
  destruct (m_guid2guild c'.2 !! k) as [i|] eqn:E; [|by right]. apply Hs in E. destruct Hi; [left|]; congruence.
Qed.

(** The slot of a leader that steps down, announced and erased. *)
Lemma DelMember_leader_spec id n mn c :
  focus id c -> gbase c.1 -> leader_ok c.1 -> removable id (m_LeaderGuid c.1) c ->
  members c.1 !! n = Some mn -> n <> m_LeaderGuid c.1 ->
  wp X (SetNewLeader_slots env n (Some (m_LeaderGuid c.1)) ;;;
        (let! o := slot_at (m_LeaderGuid c.1) in
         BroadcastEvent env GE_LEFT (m_LeaderGuid c.1) (Some (ms_Name o)) None None) ;;;
        erase_member (m_LeaderGuid c.1) false)
    (fun last c' => focus id c' /\ stays c c' /\ last = bool_decide (members c'.1 = ∅)
       /\ c'.1 = erased (m_LeaderGuid c.1) false (ranked (m_LeaderGuid c.1) 1 (ranked n 0 (set_Leader n c.1)))) c.
Proof.
  intros HF Hb [(ml & Hml & _) _] Hrem Hmn Hnl. set (l := m_LeaderGuid c.1) in *.
  apply wp_bind. eapply wp_conseq; [eapply (SetNewLeader_slots_spec id n mn l ml); try done; apply Hb|].
  intros _ c1 (F1 & E1 & S1). cbv beta. apply wp_bind, wp_bind.
  eapply wp_slot_at; [by rewrite E1; cbn; rewrite lookup_alter_eq, lookup_alter_ne, Hml by done|].
  apply wp_logs.
  { apply fits_event. destruct (gb_keys _ Hb _ _ Hml) as (_ & _ & _ & Hs & _).
    unfold short in Hs. cbn. naive_solver lia. }
  intros _. pose proof (removable_stays _ _ _ _ S1 Hrem) as [Hu1 Hi1].
  eapply wp_conseq; [by eapply (erase_member_spec id l false c1)|].
  intros last c2 (F2 & E2 & S2 & Hlast). split_and!; [done|by etrans|done|by rewrite E2, E1].
Qed.

Lemma DelMember_spec id k c :
  focus id c -> gbase c.1 -> leader_ok c.1 -> removable id k c ->
  wp X (DelMember env k false)
    (fun last c' => focus id c' /\ gbase c'.1 /\ stays c c' /\ (last = false -> leader_ok c'.1)) c.
Proof.
  intros HF Hb Hl Hrem. unfold DelMember. wps. cbn [negb]. rewrite andb_true_r.
  destruct (Z.eqb_spec (m_LeaderGuid c.1) k) as [<-|Hne]; wps.
  - destruct (suitable_spec env c.1 (gb_keys _ Hb) Hl) as [Ho Hn].
    destruct (GetSuitableNewLeader env false c.1) as [[n|] o]; cbn [fst snd best_of] in *; subst o.
    + destruct Hn as [[Hnl [mn Hmn]%(elem_of_member_order env)]%list_elem_of_filter _].
      eapply wp_conseq; [by eapply DelMember_leader_spec|].
      intros last c' (F & S & _ & E). cbv beta. rewrite E. split_and!; [done| |done|].
      * apply gbase_erased, gbase_ranked; [apply gbase_ranked; [by apply gbase_set_Leader|lia]|lia].
      * intros _. apply leader_erased; [by eapply leader_handover|by cbn].
    + wps. by split_and!.
  - destruct Hrem as [Hu Hi]. eapply wp_conseq; [by eapply erase_member_spec|].
    intros last c' (F & E & S & _). cbv beta. rewrite E. split_and!; [done|by apply gbase_erased|done|].
    intros _. by apply leader_erased.
Qed.

(** The loop of [Disband] ends with nobody left. *)
Lemma disband_loop_spec id fuel : forall c,
  focus id c -> keys_ok c.1 -> (base.size (members c.1) <= fuel)%nat ->
  wp X (disband_loop env fuel) (fun _ c' => focus id c' /\ members c'.1 = ∅ /\ stays c c') c.
Proof.
  induction fuel as [|fuel IH]; intros c HF Hk Hsz; cbn [disband_loop]; wps.
  - destruct (member_order env (members c.1)) as [|k keys] eqn:E; wps.
    + split_and!; [done| |done]. apply map_size_empty_iff. lia.
    + assert (k ∈ member_order env (members c.1)) as [m Hm]%(elem_of_member_order env) by (rewrite E; set_solver).
      apply Nat.le_0_r, map_size_empty_iff in Hsz. by rewrite Hsz in Hm.
  - destruct (member_order env (members c.1)) as [|k keys] eqn:E; wps.
    + split_and!; [done| |done]. apply map_empty. intros k. apply eq_None_not_Some.
      intros Hs%(elem_of_member_order env). rewrite E in Hs. set_solver.
    + assert (k ∈ member_order env (members c.1)) as [m Hm]%(elem_of_member_order env) by (rewrite E; set_solver).
      destruct (Hk _ _ Hm) as (_ & Hu & _). rewrite low_player by lia.
      unfold DelMember. wps. cbn [negb]. rewrite andb_false_r.
      eapply wp_conseq; [eapply (erase_member_spec id k true); [done..|]|].
      { left. apply (ag_index _ _ _ _ _ _ (fo_agree _ _ HF) id c.1); [by rewrite lookup_insert_eq|by exists m]. }
      intros _ c' (F & Ec & S & _). cbv beta. eapply wp_conseq; [apply IH; [done| |]|].
      * rewrite Ec. by apply keys_erased.
      * rewrite Ec. cbn. rewrite map_size_delete_Some by by exists m. lia.
      * intros _ c2 (F2 & E2 & S2). split_and!; [done|done|by etrans].
Qed.

Lemma Disband_spec id c :
  focus id c -> keys_ok c.1 ->
  wp X (Disband env) (fun _ c' => m_GuildMap c'.2 = delete id (m_GuildMap c.2)
    /\ agree_w (m_GuildMap c'.2) c'.2 /\ m_Id c'.1 = id) c.
Proof.
  intros HF Hk. unfold Disband. wps. apply wp_logs; [apply fits_event; naive_solver|]. intros _. wps.
  eapply wp_conseq; [by eapply disband_loop_spec|]. intros _ [g1 w1] ([F1 F2 F3] & Hm & S). cbn [fst snd] in *.
  assert (Hfin : forall f w2, m_GuildMap w2 = m_GuildMap w1 -> m_guid2guild w2 = m_guid2guild w1 ->
    t_guild_member (w_db w2) = t_guild_member (w_db w1) -> w_players w2 = w_players w1 ->
    m_petitionMap w2 = m_petitionMap w1 -> m_GuildIds w2 = m_GuildIds w1 ->
    f = RemoveGuild (m_Id c.1) ->
    m_GuildMap (f w2) = delete id (m_GuildMap c.2) /\ agree_w (m_GuildMap (f w2)) (f w2) /\ m_Id g1 = id).
  { pose proof (st_registry _ _ S) as Hreg. cbn [snd] in Hreg.
    intros f w2 H1 H2 H3 H4 H5 H6 ->. rewrite (fo_id _ _ HF). cbn. rewrite H1, Hreg.
    split_and!; [done| |done]. unfold agree_w. cbn. rewrite H2, H3, H4, H5, H6.
    rewrite <- Hreg. by eapply agree_unregister. }
  wps. destruct (_Bank _); wps; destruct (_InfernoBank _); wps; by apply Hfin.
Qed.

(** [joined k m g g']: the slot [m] entered under [k], nothing else that
    matters changed. *)
Record joined (k : Z) (m : MemberSlot) (g g' : Guild) : Prop := {
  jo_new : members g !! k = None;
  jo_members : members g' = <[k := m]> (members g);
  jo_leader : m_LeaderGuid g' = m_LeaderGuid g;
  jo_ranks : m_Ranks g' = m_Ranks g;
  jo_texts : m_Name g' = m_Name g /\ m_motd g' = m_motd g /\ m_info g' = m_info g /\ m_Id g' = m_Id g;
  jo_banks : _Bank g' = _Bank g /\ _InfernoBank g' = _InfernoBank g }.

(** A slot [AddMember] may make for [k] with rank [r]. *)
Definition fresh_slot (k r : Z) (m : MemberSlot) : Prop :=
  ms_guid m = k /\ 0 <= ms_RankId m <= 9 /\ (ms_RankId m = 0 <-> r = 0)
  /\ short (ms_Name m) /\ short (ms_PublicNote m) /\ short (ms_OfficerNote m).

(** What [AddMember] may change of the world. *)
Record grows (k : Z) (c c' : Guild * World) : Prop := {
  gr_online : forall p, is_Some (w_players c.2 !! p) -> is_Some (w_players c'.2 !! p);
  gr_registry : m_GuildMap c'.2 = m_GuildMap c.2;
  gr_index : forall p, p <> k -> m_guid2guild c'.2 !! p = m_guid2guild c.2 !! p;
  gr_names : w_names c'.2 = w_names c.2 }.

Lemma focus_enter id k m row g w g' pls' :
  focus id (g, w) -> m_guid2guild w !! k = None -> 0 < k < 2 ^ 32 ->
  mr_guildid row = id -> mr_rank row = ms_RankId m ->
  (forall pid pt s, m_petitionMap w !! pid = Some pt -> s ∈ pt_signatures pt -> sg_playerGuid s <> k) ->
  (forall p, p <> k -> pls' !! p = w_players w !! p) ->
  (forall pl, pls' !! k = Some pl -> player_ok k pl /\ pl_guildId pl = id) ->
  joined k m g g' ->
  focus id (g', w_set_players pls' (w_on_db (on_member (sql_insert_row k row)) (GuildMemberAdded id k w))).
Proof.
  intros [F1 F2 F3] Hk Hu H1 H2 Hp Hps Hpk [J1 J2 J3 J4 (J5 & _ & _ & J6) J7]. split; cbn [fst snd] in *.
  - congruence.
  - eapply (agree_guild _ _ _ _ _ _ _ (set_members (<[k := m]> (members g)) g)); [done..|].
    by eapply agree_enter.
  - done.
Qed.

Lemma focus_drop id k c :
  focus id c -> focus id (c.1, drop_signature env k c.2).
Proof.
  intros [F1 F2 F3]. destruct (drop_signature_frame env k c.2) as (E1 & E2 & E3 & E4 & E5 & E6).
  destruct (drop_signature_spec env k c.2 (ag_petitions _ _ _ _ _ _ F2)) as [P1 P2].
  split; cbn [fst snd]; [done| |by rewrite E1].
  unfold agree_w. rewrite E1, E2, E3, E4, E5. eapply agree_petitions; [done| |exact F2].
  intros pid pt s Hpt Hs. destruct (P2 pid pt s Hpt Hs) as (_ & pt0 & Hpt0 & Hs0).
  by eapply (ag_sign _ _ _ _ _ _ F2).
Qed.

(** The two ends of [AddMember], for a player that is in no guild and has
    signed nothing. *)
Lemma enter_online id k m c f :
  focus id c -> m_guid2guild c.2 !! k = None -> 0 < k < 2 ^ 32 -> members c.1 !! k = None ->
  (forall pid pt s, m_petitionMap c.2 !! pid = Some pt -> s ∈ pt_signatures pt -> sg_playerGuid s <> k) ->
  (forall pl, w_players c.2 !! k = Some pl -> player_ok k (f pl) /\ pl_guildId (f pl) = id) ->
  let row := mkMRow id (ms_RankId m) (sql_text env (ms_PublicNote m)) (sql_text env (ms_OfficerNote m)) in
  let c' := (UpdateAccountsNumber (AddToCache k (set_members (<[k := m]> (members c.1)) c.1)),
             w_on_player k f (w_on_db (on_member (sql_insert_row k row)) (GuildMemberAdded id k c.2))) in
  focus id c' /\ grows k c c' /\ joined k m c.1 c'.1.
Proof.
  intros HF Hk Hu Hm Hs Hf row c'. destruct c as [g w]. cbn [fst snd] in *.
  assert (HJ : joined k m g c'.1) by by split. split_and!; [|split; cbn; auto|done].
  - eapply (focus_enter id k m row g w _ (alter f k (w_players w))); try done.
    + intros p Hp. by rewrite lookup_alter_ne.
    + intros pl. rewrite lookup_alter_eq. intros (pl0 & H0 & ->)%fmap_Some. by apply Hf.
  - intros p. by rewrite lookup_alter_is_Some.
  - intros p Hp. by rewrite lookup_insert_ne.
Qed.
Lemma enter_offline id k m c :
  focus id c -> m_guid2guild c.2 !! k = None -> 0 < k < 2 ^ 32 -> members c.1 !! k = None ->
  (forall pid pt s, m_petitionMap c.2 !! pid = Some pt -> s ∈ pt_signatures pt -> sg_playerGuid s <> k) ->
  w_players c.2 !! k = None ->
  let row := mkMRow id (ms_RankId m) (sql_text env (ms_PublicNote m)) (sql_text env (ms_OfficerNote m)) in
  let c' := (UpdateAccountsNumber (set_members (<[k := m]> (members c.1)) c.1),
             w_on_db (on_member (sql_insert_row k row)) (GuildMemberAdded id k c.2)) in
  focus id c' /\ grows k c c' /\ joined k m c.1 c'.1.
Proof.
  intros HF Hk Hu Hm Hs Hf row c'. destruct c as [g w]. cbn [fst snd] in *.
  assert (HJ : joined k m g c'.1) by by split. split_and!; [|split; cbn; auto|done].
  - eapply (focus_enter id k m row g w _ (w_players w)); try done.
    intros pl Hpl. by rewrite Hf in Hpl.
  - intros p Hp. by rewrite lookup_insert_ne.
Qed.

Lemma grows_drop k c c' : grows k (c.1, drop_signature env k c.2) c' -> grows k c c'.
Proof.
  destruct (drop_signature_frame env k c.2) as (E1 & E2 & E3 & E4 & E5 & E6).
  intros [G1 G2 G3 G4]. cbn [fst snd] in *. rewrite E4 in G1. rewrite E1 in G2. rewrite E6 in G4.
  split; auto. intros p Hp. rewrite G3 by done. by rewrite E2.
Qed.

Lemma AddMember_spec id k r c :
  focus id c -> 0 < k < 2 ^ 32 -> 0 <= r <= 9 -> (w_players c.2 !! k = None -> m_guid2guild c.2 !! k = None) ->
  wp X (AddMember env k r)
    (fun status c' => focus id c' /\ grows k c c' /\
       match status with
       | ADD_OK => exists m, fresh_slot k r m /\ joined k m c.1 c'.1
       | _ => c'.1 = c.1 /\ m_guid2guild c'.2 = m_guid2guild c.2
       end) c.
Proof.
  intros HF Hu Hr Hj. unfold AddMember. rewrite counter_player by lia. wps.
  assert (FindPlayerNotInWorld k c.2 = w_players c.2 !! k) as ->.
  { unfold FindPlayerNotInWorld. destruct (Z.eqb_spec k 0); [lia|done]. }
  pose proof (fo_agree _ _ HF) as HA. pose proof (focus_drop id k c HF) as HF1.
  destruct (drop_signature_frame env k c.2) as (E1 & E2 & E3 & E4 & E5 & E6).
  destruct (drop_signature_spec env k c.2 (ag_petitions _ _ _ _ _ _ HA)) as [_ P2].
  pose proof (fun c' => grows_drop k c c') as Hdrop.
  set (w1 := drop_signature env k c.2) in *. pose proof (fo_id _ _ HF) as Hid.
  assert (Hsign : forall pid pt s, m_petitionMap w1 !! pid = Some pt -> s ∈ pt_signatures pt -> sg_playerGuid s <> k)
    by (intros pid pt s H1 H2; by destruct (P2 pid pt s H1 H2)).
  assert (Hnone : m_guid2guild c.2 !! k = None -> members c.1 !! k = None).
  { intros Hn. apply eq_None_not_Some. intros Hs.
    apply (ag_index _ _ _ _ _ _ HA id c.1) in Hs; [congruence|by rewrite lookup_insert_eq]. }
  assert (Hrefl : grows k c (c.1, w1)) by (apply Hdrop; by split).
  destruct (w_players c.2 !! k) as [pl|] eqn:Epl.
  - destruct (ag_players _ _ _ _ _ _ HA k pl Epl) as [(Hpg & _ & Hrk & Hsn) Hgid].
    destruct (truth (pl_guildId pl)) eqn:Et; wps; [by split_and!|]. cbn [fst snd].
    assert (Hk : m_guid2guild c.2 !! k = None).
    { destruct (m_guid2guild c.2 !! k) as [i|] eqn:Ei; [|done]. pose proof (Hgid i eq_refl).
      destruct (ag_reg _ _ _ _ _ _ HA k i Ei) as [gi Hgi]. apply (ag_id _ _ _ _ _ _ HA) in Hgi.
      unfold truth in Et. lia. }
    unfold enter_member. wps. cbn [fst snd m_Id set_members]. fold w1. rewrite Hid, (wrap_small 8 r) by (unfold is_u; lia).
    destruct (env_hook id k r Hr) as [Hh1 Hh2]. rewrite (wrap_small 8 (OnAddMember _ _ _ _)) by (unfold is_u; lia).
    set (m := slot_of_player env k pl (OnAddMember env id k r)).
    destruct (enter_online id k m (c.1, w1) (fun p => SetGuildIdInvited 0 (SetRank (OnAddMember env id k r) (SetInGuild id p))))
      as (R1 & R2 & R3); cbn [fst snd]; auto; [by rewrite E2| |].
    { rewrite E4, Epl. intros pl' [= <-]. by split_and!. }
    split_and!; [exact R1|by apply Hdrop|]. exists m. split; [|done]. unfold fresh_slot, short, slen in *. cbn. lia.
  - specialize (Hj eq_refl). rewrite (wrap_small 32 k), (Hnone Hj) by (unfold is_u; lia).
    rewrite bool_decide_eq_false_2 by by intros []. wps. cbn [fst snd]. fold w1.
    destruct (GetPlayerDataByGUID env k) as [d|] eqn:Ed; [|by wps].
    destruct (env_cache k d Ed) as [Hc1 Hc2]. case_bool_decide; [by wps|].
    destruct ((_ <? 1) || _); [by wps|]. wps. cbn [ms_Class slot_of_cache].
    rewrite (wrap_small 8 (uiClass d)) by (unfold is_u; lia). unfold playable.
    replace ((1 <=? uiClass d) && (uiClass d <=? 32)) with true by lia. cbn [deref]. wps.
    destruct (truth _); cbn [negb]; [|by wps]. unfold enter_member. wps. cbn [fst snd m_Id set_members]. rewrite Hid.
    destruct (enter_offline id k (slot_of_cache env k d r) (c.1, w1)) as (R1 & R2 & R3); cbn [fst snd]; auto;
      [by rewrite E2|by rewrite E4|].
    split_and!; [exact R1|by apply Hdrop|]. exists (slot_of_cache env k d r).
    split; [|done]. unfold fresh_slot, short, slen in *. cbn. lia.
Qed.
End specs.
