(* ===== verification/GuildKeep.v ===== *)
(** * GuildKeep: the guild methods that leave the membership alone

    Ranks, notes, texts, the event log and the packets: each keeps the
    invariant of the guild it works on. *)

From stdpp Require Import gmap fin_maps strings.
From S2P Require Import Prelude ByteBuffer Codec ObjectGuid Packets Effects Incoming Social GuildData Guild GuildRoster GuildInv.

Local Open Scope prog_scope.

(** A guild in order, in a world in order. *)
Definition good (id : Z) (c : Guild * World) : Prop := focus id c /\ gwf c.1.
Definition kept (id : Z) (c c' : Guild * World) : Prop := good id c' /\ stays c c'.

Lemma kept_refl id c : good id c -> kept id c c.
Proof. by split. Qed.
Lemma kept_trans id c1 c2 c3 : kept id c1 c2 -> kept id c2 c3 -> kept id c1 c3.
Proof. intros [_ S1] [G S2]. split; [done|by etrans]. Qed.

(** Nothing the agreement looks at changes, and the leader is the same. *)
Lemma kept_frame id g w g' w' :
  good id (g, w) ->
  m_Id g' = m_Id g -> m_Name g' = m_Name g -> members g' = members g -> m_LeaderGuid g' = m_LeaderGuid g ->
  m_GuildMap w' = m_GuildMap w -> m_guid2guild w' = m_guid2guild w ->
  t_guild_member (w_db w') = t_guild_member (w_db w) -> w_players w' = w_players w ->
  m_petitionMap w' = m_petitionMap w -> m_GuildIds w' = m_GuildIds w ->
  ranks_ok g' -> texts_ok g' -> banks_ok g' -> kept id (g, w) (g', w').
Proof.
  intros [HF [Hb Hl]] ? ? Hm Hle ? ? ? ? ? ? ? ? ?. split; [|by apply stays_frame].
  split; [by eapply focus_frame|]. split; cbn [fst] in *.
  - split; auto. unfold keys_ok. rewrite Hm. apply Hb.
  - unfold leader_ok in *. by rewrite Hm, Hle.
Qed.

(** Composition of code that keeps the guild in order. *)
Lemma wp_kept_seq X id {A} (m : GM A) (k : A -> GM unit) c :
  wp X m (fun _ c' => kept id c c') c ->
  (forall a c', kept id c c' -> wp X (k a) (fun _ c'' => kept id c' c'') c') ->
  wp X (st_bind m k) (fun _ c' => kept id c c') c.
Proof.
  intros Hm Hk. apply wp_bind. eapply wp_conseq; [exact Hm|]. cbv beta. intros a c1 H1.
  eapply wp_conseq; [apply (Hk a c1 H1)|]. cbv beta. intros _ c2 H2. exact (kept_trans _ _ _ _ H1 H2).
Qed.
Lemma wp_kept_logs X id {A} (m : GM A) c : logs_only m -> good id c -> wp X m (fun _ c' => kept id c c') c.
Proof. intros Hm Hg. apply wp_logs; [done|]. intros _. by apply kept_refl. Qed.

(** A slot changes in a field the agreement does not look at. *)
Lemma kept_note id k m f h g w :
  good id (g, w) -> members g !! k = Some m ->
  (forall m, ms_guid (f m) = ms_guid m /\ ms_RankId (f m) = ms_RankId m) ->
  short (ms_Name (f m)) -> short (ms_PublicNote (f m)) -> short (ms_OfficerNote (f m)) ->
  (forall row, mr_guildid (h row) = mr_guildid row /\ mr_rank (h row) = mr_rank row) ->
  kept id (g, w) (set_members (alter f k (members g)) g, w_on_db (on_member (alter h k)) w).
Proof.
  intros [[F1 F2 F3] [[Hk Hr Ht Hb] Hl]] Hm Hf Hs0 Hs1 Hs2 Hh. cbn [fst snd] in F1, F2, F3, Hk, Hr, Ht, Hb, Hl.
  split; [|by apply stays_frame]. split; [split; cbn [fst snd]; auto|split; [split; auto|]].
  - eapply agree_slot; [exact Hm|intros row; apply Hh| |by left|exact F2].
    intros row Hrow. destruct (Hh row) as [_ ->]. by destruct (Hf m) as (_ & ->).
  - intros k1 m1. cbn. intros [(<- & m0 & H0 & ->)|[Hne H1]]%lookup_alter_Some; [|by apply Hk].
    assert (m0 = m) as -> by congruence. destruct (Hk k m Hm) as (K1 & K2 & K3 & _).
    destruct (Hf m) as (-> & ->). tauto.
  - destruct Hl as [(ml & Hml & Hrl) Hu]. split; cbn.
    + destruct (decide (m_LeaderGuid g = k)) as [He|Hne].
      * exists (f ml). rewrite He, lookup_alter_eq, <- He, Hml. split; [done|]. by destruct (Hf ml) as (_ & ->).
      * exists ml. by rewrite lookup_alter_ne.
    + intros k1 m1 [(<- & m0 & H0 & ->)|[Hne H1]]%lookup_alter_Some; [|by apply Hu].
      destruct (Hf m0) as (_ & ->). by apply Hu.
Qed.
(** Only the slot in memory changes. *)
Lemma kept_slot id k m f g w :
  good id (g, w) -> members g !! k = Some m ->
  (forall m, ms_guid (f m) = ms_guid m /\ ms_RankId (f m) = ms_RankId m) ->
  short (ms_Name (f m)) -> short (ms_PublicNote (f m)) -> short (ms_OfficerNote (f m)) ->
  kept id (g, w) (set_members (alter f k (members g)) g, w).
Proof.
  intros HG Hm Hf H1 H2 H3. pose proof (kept_note id k m f (fun r => r) g w HG Hm Hf H1 H2 H3) as Hn.
  assert (He : w_on_db (on_member (alter (fun r => r) k)) w = w).
  { destruct w as [? ? ? ? ? ? ? ? []]. unfold w_on_db, on_member, w_set_db. cbn. rewrite alter_id; done. }
  rewrite He in Hn. by apply Hn.
Qed.

Section keep.
Context (env : GuildEnv) `{!EnvOk env} (X : Guild * World -> Prop) (id : Z).
Implicit Types (c : Guild * World).

Ltac frame := eapply kept_frame; [eassumption|reflexivity..| | |]; try assumption.

Lemma LogGuildEvent_kept t p1 p2 r c :
  good id c -> wp X (LogGuildEvent env t p1 p2 r) (fun _ c' => kept id c c') c.
Proof.
  intros HG. unfold LogGuildEvent. pose proof env_log_count. destruct (Z.eqb_spec (CONFIG_GUILD_EVENT_LOG_COUNT env) 0); [lia|].
  destruct c as [g w]. pose proof HG as [_ [[Hk Hr Ht Hb] Hl]]. wps. cbn [fst snd] in *. frame.
Qed.

Lemma SetMOTD_kept s c : good id c -> short s -> wp X (SetMOTD env s) (fun _ c' => kept id c c') c.
Proof.
  intros HG Hs. destruct c as [g w]. pose proof HG as [_ [[Hk Hr Ht Hb] Hl]]. unfold SetMOTD. wps. cbn [fst snd] in *.
  frame. by destruct Ht as (? & ? & ?).
Qed.
Lemma SetGINFO_kept s c : good id c -> short s -> wp X (SetGINFO env s) (fun _ c' => kept id c c') c.
Proof.
  intros HG Hs. destruct c as [g w]. pose proof HG as [_ [[Hk Hr Ht Hb] Hl]]. unfold SetGINFO. wps. cbn [fst snd] in *.
  frame. by destruct Ht as (? & ? & ?).
Qed.
Lemma SetEmblem_kept e c : good id c -> wp X (SetEmblem e) (fun _ c' => kept id c c') c.
Proof.
  intros HG. destruct c as [g w]. pose proof HG as [_ [[Hk Hr Ht Hb] Hl]]. unfold SetEmblem. wps. cbn [fst snd] in *. frame.
Qed.

(** ** Ranks *)

Lemma CreateRank_kept name rights c :
  good id c -> short name -> wp X (CreateRank env name rights) (fun _ c' => kept id c c') c.
Proof.
  intros HG Hn. destruct c as [g w]. pose proof HG as [_ [[Hk Hr Ht Hb] Hl]]. unfold CreateRank. wps. cbn [fst snd] in *.
  destruct (Z.geb_spec (Z.of_nat (length (m_Ranks g))) GUILD_RANKS_MAX_COUNT) as [Hge|Hlt]; wps; [by apply kept_refl|].
  unfold AddRank. wps. cbn [fst snd] in *. frame.
  destruct Hr as (Hl1 & (r & Hr0 & Hr1) & Hf). unfold GUILD_RANKS_MAX_COUNT in Hlt. unfold ranks_ok. cbn [m_Ranks set_Ranks].
  rewrite length_app. cbn [length]. split_and!; [lia..| |].
  - exists r. split; [|done]. by apply lookup_app_l_Some.
  - apply Forall_app. split; [done|]. by constructor.
Qed.

Lemma DelRank_kept c : good id c -> wp X DelRank (fun _ c' => kept id c c') c.
Proof.
  intros HG. destruct c as [g w]. pose proof HG as [_ [[Hk Hr Ht Hb] Hl]]. unfold DelRank. wps. cbn [fst snd] in *.
  destruct (Z.leb_spec (Z.of_nat (length (m_Ranks g))) GUILD_RANKS_MIN_COUNT) as [Hle|Hgt]; wps; [by apply kept_refl|].
  cbn [fst]. destruct Hb as [Hb1 Hb2] eqn:E. rewrite Hb1, Hb2. cbn [andb]. wps. cbn [fst snd] in *. frame.
  destruct Hr as (Hl1 & (r & Hr0 & Hr1) & Hf). unfold GUILD_RANKS_MIN_COUNT in Hgt.
  destruct (m_Ranks g) as [|r' l'] eqn:Er; [cbn in *; lia|].
  assert (Hlast : exists l x, r' :: l' = l ++ [x]).
  { exists (removelast (r' :: l')), (List.last (r' :: l') r). by apply app_removelast_last. }
  destruct Hlast as (l & x & Hlx). unfold ranks_ok. cbn [m_Ranks set_Ranks]. rewrite Hlx in *.
  rewrite removelast_last. rewrite length_app in Hl1, Hgt. cbn in Hl1, Hgt. split_and!; [lia..| |].
  - exists r. split; [|done]. rewrite lookup_app_l in Hr0 by lia. done.
  - by apply Forall_app in Hf as [? _].
Qed.

(** A rank is rewritten; the first keeps its rights. *)
Lemma ranks_alter g i f :
  ranks_ok g -> (forall r, short (rk_Name r) -> short (rk_Name (f r))) ->
  (forall r, i = 0%nat -> Z.land (rk_Rights r) GR_RIGHT_ALL = GR_RIGHT_ALL ->
     Z.land (rk_Rights (f r)) GR_RIGHT_ALL = GR_RIGHT_ALL) ->
  ranks_ok (set_Ranks (alter f i (m_Ranks g)) g).
Proof.
  intros (Hl1 & (r & Hr0 & Hr1) & Hf) Hn Hr. split_and!; cbn; rewrite ?length_alter; try lia.
  - destruct (decide (i = 0%nat)) as [->|Hi].
    + exists (f r). rewrite list_lookup_alter_eq, Hr0. split; [done|by apply Hr].
    + exists r. by rewrite list_lookup_alter_ne.
  - apply Forall_alter; [done|]. intros x _ Hx. by apply Hn.
Qed.

Lemma SetRankName_kept rankId name c :
  good id c -> short name -> wp X (SetRankName env rankId name) (fun _ c' => kept id c c') c.
Proof.
  intros HG Hn. destruct c as [g w]. pose proof HG as [_ [[Hk Hr Ht Hb] Hl]]. unfold SetRankName. wps. cbn [fst snd] in *.
  destruct (rank_at rankId g); wps; [|by apply kept_refl]. frame. by apply ranks_alter.
Qed.
Lemma SetRankRights_kept rankId rights c :
  good id c -> 0 <= rankId -> (rankId = 0 -> rights = GR_RIGHT_ALL) ->
  wp X (SetRankRights rankId rights) (fun _ c' => kept id c c') c.
Proof.
  intros HG H0 Hn. destruct c as [g w]. pose proof HG as [_ [[Hk Hr Ht Hb] Hl]]. unfold SetRankRights. wps. cbn [fst snd] in *.
  destruct (rank_at rankId g); wps; [|by apply kept_refl]. frame. apply ranks_alter; auto.
  intros r0 Hi _. cbn. by rewrite Hn by lia.
Qed.

(** ** Notes *)

Lemma SetPublicNote_kept k note c :
  good id c -> is_Some (members c.1 !! k) -> slen note <= GUILD_NOTE_MAX_LENGTH ->
  wp X (SetPublicNote env k note) (fun _ c' => kept id c c') c.
Proof.
  intros HG [m Hm] Hn. destruct c as [g w]. unfold SetPublicNote. wps. eapply wp_slot_at; [done|].
  pose proof HG as [_ [[Hk _ _ _] _]]. destruct (Hk k m Hm) as (K1 & K2 & K3 & K4 & K5 & K6).
  case_bool_decide; wps; [by apply kept_refl|]. unfold on_slot. wps. cbn [fst snd] in *. rewrite K1, counter_player by lia.
  eapply kept_note; try done. pose proof (env_escape note). unfold short, GUILD_NOTE_MAX_LENGTH in *. cbn. lia.
Qed.
Lemma SetOfficerNote_kept k note c :
  good id c -> is_Some (members c.1 !! k) -> slen note <= GUILD_NOTE_MAX_LENGTH ->
  wp X (SetOfficerNote env k note) (fun _ c' => kept id c c') c.
Proof.
  intros HG [m Hm] Hn. destruct c as [g w]. unfold SetOfficerNote. wps. eapply wp_slot_at; [done|].
  pose proof HG as [_ [[Hk _ _ _] _]]. destruct (Hk k m Hm) as (K1 & K2 & K3 & K4 & K5 & K6).
  case_bool_decide; wps; [by apply kept_refl|]. unfold on_slot. wps. cbn [fst snd] in *. rewrite K1, counter_player by lia.
  eapply kept_note; try done. pose proof (env_escape note). unfold short, GUILD_NOTE_MAX_LENGTH in *. cbn. lia.
Qed.

(** ** Packets *)

Lemma Query_same me c : good id c -> wp X (Query me) (fun _ c' => c' = c) c.
Proof.
  intros HG. pose proof HG as [_ [[Hk (Hl1 & _ & Hf) (Ht & _ & _) Hb] Hl]]. unfold Query. wps.
  apply wp_logs; [|intros p; by wps].
  unfold QueryPacket. eapply (logs_made_fits _ _ (4 + (100001 + (2001 * 10 + (4 + (4 + (4 + (4 + 4)))))))); [|done].
  apply fits_seq; [auto with packets|]. apply fits_seq; [eapply fits_weaken; [apply fits_str|unfold slen in Ht; lia]|].
  apply fits_seq; [|repeat apply fits_seq; auto with packets].
  eapply fits_weaken; [apply (fits_each _ 2001)|by cbn]; [|lia].
  intros i _. destruct (m_Ranks c.1 !! i) as [r|] eqn:Er.
  - eapply fits_weaken; [apply fits_str|]. eapply (Forall_lookup_1 _ _ _ _ Hf) in Er. unfold short, slen in Er. cbn in Er. lia.
  - eapply fits_weaken; [apply fits_u8|lia].
Qed.

Lemma Query_logs me c : good id c -> wp X (Query me) (fun _ c' => kept id c c') c.
Proof. intros HG. eapply wp_conseq; [by apply Query_same|]. cbv beta. intros _ c' ->. by apply kept_refl. Qed.

(** Any roster of a guild in order is built. *)
Lemma roster_made notes c : good id c ->
  RosterPacket env notes c.1 c.2 WorldPacket_empty
  = (Ok tt, packet SMSG_GUILD_ROSTER (roster_payload env notes c.1 c.2)).
Proof.
  intros [HF [[Hk (Hl1 & _ & Hf) (_ & Ht1 & Ht2) Hb] Hl]]. destruct c as [g w]. cbn [fst snd] in *.
  pose proof (length_head g) as Hh. unfold short in *.
  apply (RosterPacket_spec env env_sort notes g w 6100); [|lia|lia].
  intros i (k & Hk1 & Hi)%list_elem_of_omap. destruct (members g !! k) as [m|] eqn:Em; [|done].
  cbn in Hi. injection Hi as <-. destruct (Hk k m Em) as (K1 & K2 & K3 & K4 & K5 & K6). unfold short in *.
  etrans; [apply (length_row env notes _ 2000)|cbn; lia]; cbn; [lia|].
  intros p Hp. unfold FindPlayer, FindPlayerNotInWorld in Hp. rewrite low_player in Hp by lia.
  destruct (k =? 0); [done|]. destruct (w_players w !! k) as [pl|] eqn:Epl; [|done].
  destruct (pl_inWorld pl); [|done]. injection Hp as <-.
  by destruct (ag_players _ _ _ _ _ _ (fo_agree _ _ HF) k pl Epl) as [(_ & _ & _ & ?) _].
Qed.
Lemma BroadcastPacket_logs p : logs_only (BroadcastPacket env p).
Proof.
  unfold BroadcastPacket, send_listeners, send_in_world. logs_auto.
  match goal with
  | H : FindChatMaster env _ = Some ?m, H' : cm_session ?m = false |- _ => by rewrite (env_session _ _ H) in H'
  end.
Qed.
Lemma Roster_same session c : good id c -> wp X (Roster env session) (fun _ c' => c' = c) c.
Proof.
  intros HG. unfold Roster. wps. apply wp_logs; [by eapply logs_made, roster_made|].
  intros p. apply wp_logs; [|done]. unfold deliver. destruct session; auto with logs. apply BroadcastPacket_logs.
Qed.
Lemma Roster_kept session c : good id c -> wp X (Roster env session) (fun _ c' => kept id c c') c.
Proof. intros HG. eapply wp_conseq; [by apply Roster_same|]. cbv beta. intros _ c' ->. by apply kept_refl. Qed.
End keep.
