(* ===== verification/GuildSteps.v ===== *)
(** * GuildSteps: the requests that reach a guild

    Every opcode of [GuildHandler.cpp] and [PetitionsHandler.cpp], the login and
    logout of a player, the deletion of a character and the guild commands keep
    the world in order, and none of them runs into undefined behaviour. *)

From stdpp Require Import gmap fin_maps strings.
From S2P Require Import Prelude ByteBuffer Codec ObjectGuid Packets Effects Incoming Social GuildData Guild GuildRoster.
From S2P Require Import GuildHandlers GuildPetitions GuildInv GuildKeep.

Local Open Scope prog_scope.

(** ** From the registry to a guild and back *)

(** The state in which code of the guild [id] may end: the guild is in order and
    still registered, or it is gone. *)
Definition ends (id : Z) (c : Guild * World) : Prop :=
  (good id c /\ is_Some (m_GuildMap c.2 !! id)) \/ (world_ok c.2 /\ m_GuildMap c.2 !! id = None).

Lemma good_registered w id g : world_ok w -> m_GuildMap w !! id = Some g -> good id (g, w).
Proof.
  intros [HA HG] Hg. split; [|by eapply HG]. split; cbn [fst snd].
  - by apply (ag_id _ _ _ _ _ _ HA).
  - by rewrite insert_id.
  - intros id' g' _ Hg'. by eapply HG.
Qed.
Lemma good_back id c : good id c -> world_ok (w_set_guilds (<[id := c.1]> (m_GuildMap c.2)) c.2).
Proof.
  intros [[F1 F2 F3] Hw]. split; [exact F2|]. cbn.
  intros id' g' [[<- <-]|[Hne Hg]]%lookup_insert_Some; [done|]. eapply F3; eauto.
Qed.
Lemma ends_back id c : ends id c ->
  world_ok (w_set_guilds (match m_GuildMap c.2 !! id with
                          | Some _ => <[id := c.1]> (m_GuildMap c.2)
                          | None => m_GuildMap c.2 end) c.2).
Proof.
  intros [[HG [g0 ->]]|[Hw ->]]; [by apply good_back|]. by destruct c as [? []].
Qed.

(** [wp_in id m c]: on the guild [id], [m] ends in order. *)
Abbreviation wp_in id m c := (wp (ends id) m (fun _ => ends id) c).

Lemma wp_with_guild {A} id (m : GM A) g w :
  m_GuildMap w !! id = Some g -> wp_in id m (g, w) ->
  wp world_ok (with_guild id m) (fun _ => world_ok) w.
Proof.
  intros Hg Hm log. unfold with_guild. cbn [fst snd]. rewrite Hg. specialize (Hm log).
  destruct (m (g, w, log)) as [[a|e| | |] [[g' w'] log']]; try done; by apply (ends_back id (g', w')).
Qed.

(** A guild in order that is registered. *)
Definition live (id : Z) (c : Guild * World) : Prop := good id c /\ is_Some (m_GuildMap c.2 !! id).
Lemma live_ends id c : live id c -> ends id c.
Proof. by left. Qed.
Lemma live_kept id c c' : live id c -> kept id c c' -> live id c'.
Proof. intros [_ Hr] [HG S]. split; [done|]. by rewrite (st_registry _ _ S). Qed.
#[export] Hint Resolve live_ends : logs.

Section rules.
Context (env : GuildEnv) `{!EnvOk env}.

Section world.
Context (X : World -> Prop).

Lemma wp_w_get {A} (f : World -> A) (Q : A -> World -> Prop) w : Q (f w) w -> wp X (w_get f) Q w.
Proof. by intros H log. Qed.
Lemma wp_w_mod f (Q : unit -> World -> Prop) w : Q tt (f w) -> wp X (w_mod f) Q w.
Proof. by intros H log. Qed.
Lemma wp_GetPlayer me pl (Q : Player -> World -> Prop) w :
  w_players w !! me = Some pl -> Q pl w -> wp X (GetPlayer me) Q w.
Proof. intros Hp HQ. apply wp_bind, wp_w_get. rewrite Hp. by apply wp_ret. Qed.
End world.
Lemma wp_g_GetPlayer X me pl (Q : Player -> Guild * World -> Prop) c :
  w_players c.2 !! me = Some pl -> Q pl c -> wp X (g_GetPlayer me) Q c.
Proof. intros Hp HQ. apply wp_bind, wp_gw_get. rewrite Hp. by apply wp_ret. Qed.

Lemma result_logs {C} me cmd s r : slen s <= 1000000 ->
  logs_only (SendGuildCommandResult (C:=C) me cmd s r).
Proof.
  intros Hs. unfold SendGuildCommandResult. apply logs_bind; [|auto with logs].
  eapply (logs_made_fits _ _ (4 + (1000001 + 4))); [|done].
  repeat apply fits_seq; auto with packets. eapply fits_weaken; [apply fits_str|unfold slen in Hs; lia].
Qed.
Lemma emblem_logs {C} me msg : logs_only (SendSaveGuildEmblem (C:=C) me msg).
Proof.
  unfold SendSaveGuildEmblem. apply logs_bind; [|auto with logs].
  by eapply (logs_made_fits _ _ 4); [auto with packets|].
Qed.
Lemma empty_fits : slen "" <= 1000000.
Proof. done. Qed.
Hint Resolve result_logs emblem_logs empty_fits : logs.

Lemma wp_quiet id {A} (m : GM A) c : ends id c -> logs_only m -> wp_in id m c.
Proof. intros He Hm. by apply wp_logs. Qed.
Lemma wp_quiet_world {A} (m : WM A) w : world_ok w -> logs_only m -> wp world_ok m (fun _ => world_ok) w.
Proof. intros He Hm. by apply wp_logs. Qed.

(** One step that keeps the guild, and the rest. *)
Lemma wp_then id {A B} (m : GM A) (k : A -> GM B) c :
  live id c -> wp (ends id) m (fun _ c' => kept id c c') c ->
  (forall a c', live id c' -> stays c c' -> wp_in id (k a) c') -> wp_in id (st_bind m k) c.
Proof.
  intros Hc Hm Hk. apply wp_bind. eapply wp_conseq; [exact Hm|]. cbv beta. intros a c' Hkept.
  apply Hk; [by eapply live_kept|apply Hkept].
Qed.
Lemma wp_kept_ends id {A} (m : GM A) c :
  live id c -> wp (ends id) m (fun _ c' => kept id c c') c -> wp_in id m c.
Proof.
  intros Hc Hm. eapply wp_conseq; [exact Hm|]. intros a c' Hk. apply live_ends. by eapply live_kept.
Qed.

Lemma Disband_ends id c : focus id c -> keys_ok c.1 -> wp_in id (Disband env) c.
Proof.
  intros HF Hk. eapply wp_conseq; [by apply Disband_spec|]. intros _ c' (Hreg & HA & _). right.
  split; [split; [done|]|by rewrite Hreg, lookup_delete_eq]. rewrite Hreg.
  intros id' g' [Hne Hg]%lookup_delete_Some. eapply (fo_others _ _ HF); eauto.
Qed.
Lemma remove_ends id k tl c :
  live id c -> removable id k c -> (forall c', live id c' -> stays c c' -> wp_in id tl c') ->
  wp_in id (remove_or_disband env k tl) c.
Proof.
  intros [[HF [Hb Hl]] Hr] Hk Htl. unfold remove_or_disband. apply wp_bind.
  eapply wp_conseq; [by apply (DelMember_spec env _ id k c)|]. intros [|] c' (F & B & S & L).
  - apply Disband_ends; [done|apply B].
  - apply Htl; [|done]. split; [split; [done|split; auto]|]. by rewrite (st_registry _ _ S).
Qed.

(** ** The guards of the handlers *)

(** The session's player. *)
Definition online (me : Z) (w : World) : Prop := is_Some (w_players w !! me).

Lemma online_short me pl w : world_ok w -> w_players w !! me = Some pl -> player_ok me pl.
Proof. intros [HA _] Hp. by apply (ag_players _ _ _ _ _ _ HA). Qed.
Lemma online_short_g id me pl c : good id c -> w_players c.2 !! me = Some pl -> player_ok me pl.
Proof. intros [HF _] Hp. by apply (ag_players _ _ _ _ _ _ (fo_agree _ _ HF)). Qed.

Lemma in_guild_ok me k w :
  world_ok w -> online me w ->
  (forall pl g, w_players w !! me = Some pl -> live (pl_guildId pl) (g, w) -> wp_in (pl_guildId pl) k (g, w)) ->
  wp world_ok (in_guild me k) (fun _ => world_ok) w.
Proof.
  intros HW [pl Hpl] Hk. unfold in_guild. apply wp_bind. eapply wp_GetPlayer; [done|].
  apply wp_bind, wp_w_get. unfold GetGuildById. destruct (m_GuildMap w !! pl_guildId pl) as [g|] eqn:Eg.
  - eapply wp_with_guild; [done|]. apply Hk; [done|]. split; [by apply good_registered|by exists g].
  - apply wp_quiet_world; [done|]. auto with logs.
Qed.

(** In the guild of its player, the session's player may be removed. *)
Lemma removable_self me pl g w :
  live (pl_guildId pl) (g, w) -> w_players w !! me = Some pl -> removable (pl_guildId pl) me (g, w).
Proof.
  intros [[HF _] _] Hpl. destruct (ag_players _ _ _ _ _ _ (fo_agree _ _ HF) me pl Hpl) as [(_ & Hu & _) Hi].
  split; [done|]. cbn [snd]. destruct (m_guid2guild w !! me) as [i|] eqn:E; [|by right]. left.
  f_equal. symmetry. by apply Hi.
Qed.
Lemma removable_member id k c : good id c -> is_Some (members c.1 !! k) -> removable id k c.
Proof.
  intros [HF [[Hk _ _ _] _]] [m Hm]. split; [by apply (Hk k m Hm)|]. left.
  apply (ag_index _ _ _ _ _ _ (fo_agree _ _ HF) id c.1); [by rewrite lookup_insert_eq|by exists m].
Qed.

Lemma require_right_ok id me right cmd k c :
  live id c -> online me c.2 -> wp_in id k c -> wp_in id (require_right me right cmd k) c.
Proof.
  intros Hc [pl Hpl] Hk. unfold require_right. apply wp_bind. eapply wp_g_GetPlayer; [done|].
  wps. destruct (HasRankRight _ _ _); cbn [negb]; [done|]. apply wp_quiet; auto with logs.
Qed.
Lemma require_leader_ok id me k c :
  live id c -> (me = m_LeaderGuid c.1 -> wp_in id k c) -> wp_in id (require_leader me k) c.
Proof.
  intros Hc Hk. unfold require_leader. wps.
  destruct (Z.eqb_spec me (m_LeaderGuid c.1)); cbn [negb]; [auto|]. apply wp_quiet; auto with logs.
Qed.

Lemma slot_named_Some name ms keys k :
  slot_named name ms keys = Some k -> exists m, ms !! k = Some m /\ ms_Name m = name.
Proof.
  induction keys as [|x keys IH]; simpl; [done|]. destruct (ms !! x) as [m|] eqn:E; [|done].
  case_bool_decide; [|done]. intros [= <-]. by exists m.
Qed.
Lemma require_slot_ok id me name k c :
  live id c -> slen name <= 1000000 ->
  (forall key m, members c.1 !! key = Some m -> ms_guid m = key -> wp_in id (k key m) c) ->
  wp_in id (require_slot env me name k) c.
Proof.
  intros Hc Hn Hk. unfold require_slot. wps. destruct (GetMemberSlot_name env name c.1) as [key|] eqn:E.
  - apply slot_named_Some in E as (m & Hm & _). apply wp_bind. eapply wp_slot_at; [done|]. apply Hk; [done|].
    destruct Hc as [[_ [[HK _ _ _] _]] _]. by apply (HK key m).
  - apply wp_quiet; auto with logs.
Qed.

Lemma normalized_ok s n c k w :
  world_ok w -> (forall t, slen t <= 4 * n -> wp world_ok (k t) (fun _ => world_ok) w) ->
  wp world_ok (normalized env s n c k) (fun _ => world_ok) w.
Proof.
  intros HW Hk. unfold normalized. destruct (env_normalize s n c) as [_ Hn].
  destruct (normalizePlayerName env s n c) as [[|] t]; [by apply Hk, Hn|]. by apply wp_ret.
Qed.
End rules.
#[export] Hint Resolve result_logs emblem_logs empty_fits : logs.
