(* ===== verification/GuildOps.v ===== *)
(** * GuildOps: the guild opcodes keep the world in order *)

From stdpp Require Import gmap fin_maps strings.
From S2P Require Import Prelude ByteBuffer Codec ObjectGuid Packets Effects Incoming Social GuildData Guild GuildRoster.
From S2P Require Import GuildHandlers GuildPetitions GuildInv GuildKeep GuildSteps.

Local Open Scope prog_scope.

(** [sound m w]: from [w], [m] returns or throws, in a world in order. *)
Abbreviation sound m w := (wp world_ok m (fun _ => world_ok) w).
Abbreviation wp_in id m c := (wp (ends id) m (fun _ => ends id) c).

Section ops.
Context (env : GuildEnv) (penv : PlayerEnv) `{!EnvOk env}.
Context (me : Z) (b : ByteBuffer) (w : World).
Context (HW : world_ok w) (Hme : online me w) (Hb : arrived b).

Ltac quiet := apply wp_quiet; [by auto with logs|]; auto with logs.

(** An event with strings of known length. *)
Ltac event_fits := apply (fits_event env); intros ? [?|[?|?]]; simplify_eq; unfold short in *; lia.

(** The guild of the session's player, with its facts. *)
Ltac in_my_guild :=
  apply in_guild_ok; [done..|]; intros pl g Hpl HL;
  pose proof (online_short me pl w HW Hpl) as (Hpg & Hpu & Hpr & Hpn).

(** *** Queries *)

Lemma HandleGuildQueryOpcode_ok : sound (HandleGuildQueryOpcode me b) w.
Proof.
  unfold HandleGuildQueryOpcode. apply wp_recv_u32; [done..|]. intros id b' _ _.
  apply wp_bind, wp_w_get. unfold GetGuildById. destruct (m_GuildMap w !! id) as [g|] eqn:Eg.
  - assert (HL : live id (g, w)) by (split; [by apply good_registered|by exists g]).
    eapply wp_with_guild; [done|]. apply wp_kept_ends; [done|]. apply Query_logs, HL.
  - apply wp_quiet_world; auto with logs.
Qed.

Lemma HandleGuildInfoOpcode_ok : sound (HandleGuildInfoOpcode me) w.
Proof.
  unfold HandleGuildInfoOpcode. in_my_guild. wps. cbn [fst snd].
  apply wp_logs.
  { destruct HL as [[_ [[_ _ (Ht & _) _] _]] _]. cbn [fst snd] in Ht. unfold slen in Ht.
    unfold InfoPacket. eapply (logs_made_fits _ _ (100001 + (4 + (4 + (4 + (4 + 4)))))); [|done].
    apply fits_seq; [eapply fits_weaken; [apply fits_str|]|repeat apply fits_seq; auto with packets].
    unfold GetAccountsNumber. destruct (truth _); cbn; lia. }
  intros p. wps. left. split; [|apply HL]. destruct HL as [HG _].
  assert (Hk : kept (pl_guildId pl) (g, w) ((GetAccountsNumber g).2, w)); [|apply Hk].
  pose proof HG as [_ [[Hk Hr Ht Hbk] Hl]].
  unfold GetAccountsNumber. destruct (truth _); cbn [fst snd]; [by apply kept_refl|].
  by eapply kept_frame.
Qed.

Lemma HandleGuildRosterOpcode_ok : sound (HandleGuildRosterOpcode env me) w.
Proof.
  unfold HandleGuildRosterOpcode. destruct Hme as [pl Hpl]. apply wp_bind. eapply wp_GetPlayer; [done|].
  apply wp_bind, wp_w_get. unfold GetGuildById. destruct (m_GuildMap w !! pl_guildId pl) as [g|] eqn:Eg;
    [|by apply wp_ret].
  assert (HL : live (pl_guildId pl) (g, w)) by (split; [by apply good_registered|by exists g]).
  eapply wp_with_guild; [done|]. apply wp_kept_ends; [done|]. by apply Roster_kept, HL.
Qed.

(** *** Invitations *)

(** A player record changes in fields the invariant does not look at. *)
Lemma agree_player G idx rows pls pts ids k f :
  (forall p, player_ok k p -> player_ok k (f p)) -> (forall p, pl_guildId (f p) = pl_guildId p) ->
  agree G idx rows pls pts ids -> agree G idx rows (alter f k pls) pts ids.
Proof.
  intros Hf Hg [A1 A2 A3 A4 A5 A6 A7 A8 A9 A10]. split; auto.
  intros p pl [(<- & pl0 & H0 & ->)|[Hne H0]]%lookup_alter_Some; [|by apply A6].
  destruct (A6 _ _ H0) as [Ho Hi]. rewrite Hg. auto.
Qed.
Lemma kept_player id k f c :
  (forall p, player_ok k p -> player_ok k (f p)) -> (forall p, pl_guildId (f p) = pl_guildId p) ->
  good id c -> kept id c (c.1, w_on_player k f c.2).
Proof.
  intros Hf Hg [[F1 F2 F3] Hw]. split.
  - split; [|done]. split; cbn [fst snd]; [done| |done]. by apply agree_player.
  - split; cbn; auto. intros p. by rewrite lookup_alter_is_Some.
Qed.
Lemma world_player k f w0 :
  (forall p, player_ok k p -> player_ok k (f p)) -> (forall p, pl_guildId (f p) = pl_guildId p) ->
  world_ok w0 -> world_ok (w_on_player k f w0).
Proof. intros Hf Hg [HA HG]. split; [by apply agree_player|done]. Qed.

Lemma HandleGuildInviteOpcode_ok : sound (HandleGuildInviteOpcode env me b) w.
Proof.
  unfold HandleGuildInviteOpcode. apply wp_recv_str; [done..|]. intros name b' _ Hn.
  destruct (env_normalize name MAX_INTERNAL_PLAYER_NAME true) as [Hlen _].
  destruct (normalizePlayerName env name MAX_INTERNAL_PLAYER_NAME true) as [ok nm]. cbn [snd] in Hlen.
  apply wp_bind, wp_w_get. destruct (if ok then _ else None) as [q|] eqn:Eq;
    [|apply wp_quiet_world; [done|apply result_logs; lia]].
  assert (Hq : w_players w !! pl_guid q = Some q).
  { destruct ok; [|done]. unfold FindPlayerByName in Eq. destruct (normalizePlayerName env nm _ _) as [[|] n2]; [|done].
    destruct (w_names w !! n2) as [k|]; [|done]. destruct (w_players w !! k) as [q'|] eqn:E; [|done].
    destruct (pl_inWorld q'); [|done]. injection Eq as ->.
    by destruct (online_short k q w HW E) as (-> & _). }
  destruct (online_short _ _ _ HW Hq) as (_ & _ & _ & Hqn). unfold short in Hqn.
  in_my_guild. unfold short in Hpn. apply wp_bind. eapply wp_g_GetPlayer; [done|].
  destruct (HasIgnore _ _); [by apply wp_ret, live_ends|].
  destruct (_ && _); [quiet; apply result_logs; lia|].
  destruct (truth _); [quiet; apply result_logs; lia|].
  destruct (truth _); [quiet; apply result_logs; lia|].
  apply require_right_ok; [done|by exists pl|].
  apply wp_then; [done| |].
  { wps. by apply kept_player, HL. }
  intros _ c1 H1 S1. apply wp_then; [done|by apply LogGuildEvent_kept, H1|]. intros _ c2 H2 S2. wps.
  apply wp_logs; [|intros; wps; by apply live_ends].
  destruct H2 as [[_ [[_ _ (Ht & _) _] _]] _]. unfold slen in *.
  eapply (logs_made_fits _ _ (2001 + 100001)); [|done].
  apply fits_seq; (eapply fits_weaken; [auto with packets|lia]).
Qed.

Lemma lowest_range g : ranks_ok g -> 4 <= GetLowestRank g <= 9.
Proof.
  intros ([H1 H2] & _). unfold GetLowestRank. rewrite wrap_small by (unfold is_u; lia). lia.
Qed.

(** A newcomer below the guild master. *)
Lemma joined_gwf k r m g g' : 0 < k < 2 ^ 32 -> r <> 0 -> fresh_slot k r m -> joined k m g g' -> gwf g -> gwf g'.
Proof.
  intros Hk Hr (S1 & S2 & S3 & S4) [J1 J2 J3 J4 (J5 & J6 & J7 & _) [J8 J9]] [[K1 K2 K3 K4] [(ml & L1 & L2) L3]].
  split; [split|].
  - intros k1 m1. rewrite J2. intros [[<- <-]|[_ H1]]%lookup_insert_Some; [|by apply K1]. tauto.
  - unfold ranks_ok. by rewrite J4.
  - unfold texts_ok. by rewrite J5, J6, J7.
  - unfold banks_ok. by rewrite J8, J9.
  - unfold leader_ok. rewrite J2, J3. split.
    + exists ml. split; [|done]. rewrite lookup_insert_ne; [done|]. intros ->. congruence.
    + intros k1 m1 [[<- <-]|[_ H1]]%lookup_insert_Some Hz; [|by eapply L3]. unfold GR_GUILDMASTER in Hz. tauto.
Qed.
Lemma AddMember_good X id k r c :
  good id c -> 0 < k < 2 ^ 32 -> 1 <= r <= 9 -> (w_players c.2 !! k = None -> m_guid2guild c.2 !! k = None) ->
  wp X (AddMember env k r) (fun _ c' => good id c' /\ grows k c c') c.
Proof.
  intros [HF HG] Hk Hrk Hn. eapply wp_conseq; [apply (AddMember_spec env X id k r c); auto; lia|].
  intros st c' (F & Gr & Hst). split; [|done]. split; [done|].
  destruct st as [| | | |]; try (by destruct Hst as [-> _]).
  destruct Hst as (m & Hm & Hj). eapply joined_gwf; eauto. lia.
Qed.

Lemma HandleGuildAcceptOpcode_ok : sound (HandleGuildAcceptOpcode env me) w.
Proof.
  unfold HandleGuildAcceptOpcode. destruct Hme as [pl Hpl]. apply wp_bind. eapply wp_GetPlayer; [done|].
  destruct (online_short me pl w HW Hpl) as (Hpg & Hpu & Hpr & Hpn). unfold short in Hpn.
  apply wp_bind, wp_w_get. unfold GetGuildById. set (id := u32 _).
  destruct (m_GuildMap w !! id) as [g|] eqn:Eg; [|by apply wp_ret].
  destruct (truth _); [by apply wp_ret|]. destruct (_ && _); [by apply wp_ret|].
  assert (HL : live id (g, w)) by (split; [by apply good_registered|by exists g]).
  eapply wp_with_guild; [done|]. wps.
  assert (4 <= GetLowestRank g <= 9) by apply lowest_range, HL.
  eapply wp_conseq; [apply (AddMember_good _ id); [apply HL|done|..]|]; cbn [fst snd]; [lia|congruence|].
  intros st c1 [G1 Gr]. cbv beta.
  assert (H1 : live id c1) by (split; [done|rewrite (gr_registry _ _ _ Gr); by exists g]). destruct (negb _); [by apply wp_ret, live_ends|].
  apply wp_then; [done|by apply LogGuildEvent_kept, H1|]. intros _ c2 H2 _. quiet. event_fits.
Qed.

Lemma HandleGuildDeclineOpcode_ok : sound (HandleGuildDeclineOpcode me) w.
Proof.
  unfold HandleGuildDeclineOpcode. destruct Hme as [pl Hpl]. apply wp_bind. eapply wp_GetPlayer; [done|].
  destruct (online_short me pl w HW Hpl) as (Hpg & Hpu & Hpr & Hpn). unfold short, slen in Hpn.
  destruct (_ || _); [by apply wp_ret|]. apply wp_bind, wp_logs.
  - apply logs_bind; [auto with logs|]. intros [g|]; [|auto with logs]. destruct (IsEmpty _); [auto with logs|].
    apply logs_bind; [auto with logs|]. intros [q|]; [|auto with logs]. apply logs_bind; [|auto with logs].
    eapply (logs_made_fits _ _ 2001); [|done]. eapply fits_weaken; [apply fits_cstr|lia].
  - intros _. apply wp_w_mod. by apply world_player.
Qed.

(** *** Ranks of members *)

Lemma leader_ranked k m r g :
  leader_ok g -> members g !! k = Some m -> ms_RankId m <> 0 -> r <> 0 -> leader_ok (ranked k r g).
Proof.
  intros [(ml & L1 & L2) L3] Hm Hk Hr. split; cbn.
  - exists ml. split; [|done]. rewrite lookup_alter_ne; [done|]. intros ->. unfold GR_GUILDMASTER in L2. congruence.
  - intros k1 m1 [(<- & m0 & _ & ->)|[_ H1]]%lookup_alter_Some Hz; [by cbn in Hz|by eapply L3].
Qed.
Lemma ChangeRank_kept X id k m r c :
  good id c -> members c.1 !! k = Some m -> ms_RankId m <> 0 -> 1 <= r <= 9 ->
  wp X (ChangeRank k r) (fun _ c' => kept id c c' /\ c'.1 = ranked k r c.1) c.
Proof.
  intros [HF [HB HL]] Hm Hr0 Hr. eapply wp_conseq; [apply (ChangeRank_spec X id k m r c); [done|apply HB|done|lia]|].
  intros _ c' (F & E & S). split; [|done]. split; [|done]. split; [done|]. rewrite E.
  split; [apply gbase_ranked; [done|lia]|]. eapply leader_ranked; eauto. lia.
Qed.

Lemma rank_name_short rid g : ranks_ok g -> slen (GetRankName rid g) <= 2000.
Proof.
  intros (_ & _ & Hf). unfold GetRankName, rank_at. destruct (_ >=? _); [done|].
  destruct (m_Ranks g !! Z.to_nat rid) as [r|] eqn:E; [|done]. by apply (Forall_lookup_1 _ _ _ _ Hf E).
Qed.
Lemma announce_rank_ok id key m e t r nm c :
  live id c -> online me c.2 -> members c.1 !! key = Some m -> ms_RankId m <> 0 -> 1 <= r <= 9 ->
  slen nm <= 100 -> wp_in id (announce_rank env me key e t r nm) c.
Proof.
  intros HL Ho Hm H0 Hr Hn. unfold announce_rank. apply wp_bind.
  eapply wp_conseq; [by eapply (ChangeRank_kept _ id key m r c), Hr; [apply HL|..]|].
  intros _ c1 [K1 E1]. cbv beta. pose proof (live_kept _ _ _ HL K1) as HL1. apply wp_bind.
  eapply wp_slot_at; [rewrite E1; cbn; by rewrite lookup_alter_eq, Hm|].
  apply wp_then; [done|by apply LogGuildEvent_kept, HL1|]. intros _ c2 HL2 S2. apply wp_bind.
  destruct (st_online _ _ S2 me (st_online _ _ (proj2 K1) me Ho)) as [pl Hpl].
  eapply wp_g_GetPlayer; [done|]. destruct (online_short_g id me pl c2 (proj1 HL2) Hpl) as (_ & _ & _ & Hs).
  wps. quiet. pose proof (rank_name_short r c2.1) as Hrn. specialize (Hrn ltac:(apply HL2)). event_fits.
Qed.

Lemma HandleGuildPromoteOpcode_ok : sound (HandleGuildPromoteOpcode env me b) w.
Proof.
  unfold HandleGuildPromoteOpcode. apply wp_recv_str; [done..|]. intros name b' _ _.
  apply normalized_ok; [done..|]. intros nm Hn. unfold MAX_INTERNAL_PLAYER_NAME in Hn.
  in_my_guild. apply require_right_ok; [done|by exists pl|]. apply require_slot_ok; [done..|lia|].
  intros key m Hm Hkey. apply wp_bind. eapply wp_g_GetPlayer; [done|].
  destruct (ms_guid m =? me); [quiet|].
  assert (0 <= ms_RankId m <= 9) as Hrm by (destruct HL as [[_ [[K _ _ _] _]] _]; by apply (K key m)).
  rewrite (wrap_small 32 (pl_rank pl + 1)) by (unfold is_u; lia).
  destruct (Z.geb_spec (pl_rank pl + 1) (ms_RankId m)); [quiet; apply result_logs; lia|].
  rewrite wrap_small by (unfold is_u; lia).
  eapply announce_rank_ok; [done|by exists pl|done|lia..].
Qed.
Lemma HandleGuildDemoteOpcode_ok : sound (HandleGuildDemoteOpcode env me b) w.
Proof.
  unfold HandleGuildDemoteOpcode. apply wp_recv_str; [done..|]. intros name b' _ _.
  apply normalized_ok; [done..|]. intros nm Hn. unfold MAX_INTERNAL_PLAYER_NAME in Hn.
  in_my_guild. apply require_right_ok; [done|by exists pl|]. apply require_slot_ok; [done..|lia|].
  intros key m Hm Hkey. apply wp_bind. eapply wp_g_GetPlayer; [done|]. wps.
  destruct (ms_guid m =? me); [quiet|].
  assert (4 <= GetLowestRank g <= 9) as Hlow by apply lowest_range, HL. cbn [fst].
  destruct (Z.geb_spec (pl_rank pl) (ms_RankId m)); [quiet; apply result_logs; lia|].
  destruct (Z.geb_spec (ms_RankId m) (GetLowestRank g)); [quiet; apply result_logs; lia|].
  rewrite wrap_small by (unfold is_u; lia).
  eapply announce_rank_ok; [done|by exists pl|done|lia..].
Qed.

(** *** Leaving *)

(** What follows a removal: an entry of the log and an event. *)
Lemma log_event_ok id t p1 p2 r e guid s1 s2 s3 c :
  live id c -> (forall s, s1 = Some s \/ s2 = Some s \/ s3 = Some s -> slen s <= 100000) ->
  wp_in id (LogGuildEvent env t p1 p2 r ;;; BroadcastEvent env e guid s1 s2 s3) c.
Proof.
  intros HL Hs. apply wp_then; [done|by apply LogGuildEvent_kept, HL|]. intros _ c' HL' _. quiet.
  by apply (fits_event env).
Qed.
Lemma HandleGuildRemoveOpcode_ok : sound (HandleGuildRemoveOpcode env me b) w.
Proof.
  unfold HandleGuildRemoveOpcode. apply wp_recv_str; [done..|]. intros name b' _ _.
  apply normalized_ok; [done..|]. intros nm Hn. unfold MAX_INTERNAL_PLAYER_NAME in Hn.
  destruct Hme as [mine Hmine]. apply wp_bind. eapply wp_GetPlayer; [done|].
  destruct (negb _); [by apply wp_ret|]. in_my_guild. simplify_eq.
  apply require_right_ok; [done|by exists mine|]. apply require_slot_ok; [done..|lia|].
  intros key m Hm Hkey. destruct (_ =? _); [quiet|]. destruct (_ >=? _); [quiet; apply result_logs; lia|].
  apply remove_ends; [done|done| |].
  - apply removable_member; [apply HL|]. rewrite Hkey. by exists m.
  - intros c' HL' _. apply log_event_ok; [done|].
    intros ? [?|[?|?]]; simplify_eq; unfold short in *; lia.
Qed.

Lemma HandleGuildLeaveOpcode_ok : sound (HandleGuildLeaveOpcode env me) w.
Proof.
  unfold HandleGuildLeaveOpcode. in_my_guild. wps. cbn [fst]. destruct (_ && _); [quiet|].
  destruct (me =? _); [apply Disband_ends; [done|apply HL..]|].
  apply wp_bind, wp_gw_get, wp_bind, wp_logs.
  { apply result_logs. destruct HL as [[_ [[_ _ (Ht & _) _] _]] _]. cbn [fst] in *. lia. }
  intros _. apply wp_bind. eapply wp_g_GetPlayer; [done|].
  apply remove_ends; [done|done|by eapply removable_self|]. intros c' HL' _. apply log_event_ok; [done|].
  intros ? [?|[?|?]]; simplify_eq; unfold short in *; lia.
Qed.

Lemma HandleGuildDisbandOpcode_ok : sound (HandleGuildDisbandOpcode env me) w.
Proof.
  unfold HandleGuildDisbandOpcode. in_my_guild. apply require_leader_ok; [done|]. intros _.
  apply Disband_ends; [done|apply HL..].
Qed.

(** *** The leader *)

Lemma handover_kept X id n mn o c :
  good id c -> o = m_LeaderGuid c.1 -> n <> o -> members c.1 !! n = Some mn ->
  wp X (SetNewLeader_slots env n (Some o)) (fun _ c' => kept id c c') c.
Proof.
  intros [HF [HB HL]] -> Hne Hn. pose proof HL as [(mo & Ho & _) _].
  eapply wp_conseq; [eapply (SetNewLeader_slots_spec env X id n mn _ mo); try done; apply HB|].
  intros _ c' (F & E & S). split; [|done]. split; [done|]. rewrite E. split.
  - apply gbase_ranked; [apply gbase_ranked; [by apply gbase_set_Leader|lia]|lia].
  - by eapply leader_handover.
Qed.
Lemma GetMemberSlot_Some guid g k : GetMemberSlot guid g = Some k -> is_Some (members g !! k) /\ k = GetCounter guid.
Proof. unfold GetMemberSlot. destruct (members g !! GetCounter guid) eqn:E; [|done]. intros [= <-]. by rewrite E. Qed.

Lemma HandleGuildLeaderOpcode_ok : sound (HandleGuildLeaderOpcode env me b) w.
Proof.
  unfold HandleGuildLeaderOpcode. apply wp_recv_str; [done..|]. intros name b' _ _.
  apply normalized_ok; [done..|]. intros nm Hn. unfold MAX_INTERNAL_PLAYER_NAME in Hn.
  in_my_guild. apply require_leader_ok; [done|]. intros Hlead. wps. cbn [fst].
  destruct (GetMemberSlot me g) as [old|] eqn:Eo; [|quiet]. apply GetMemberSlot_Some in Eo as [_ ->].
  rewrite counter_player by lia. apply require_slot_ok; [done..|lia|]. intros key m Hm Hkey.
  destruct (Z.eqb_spec me key) as [->|Hne]; [quiet; apply result_logs; lia|].
  apply wp_kept_ends; [done|]. by eapply handover_kept; [apply HL|..].
Qed.

(** *** Texts, notes, ranks *)

Lemma HandleGuildMOTDOpcode_ok : sound (HandleGuildMOTDOpcode env me b) w.
Proof.
  unfold HandleGuildMOTDOpcode. apply (wp_recv _ _ _ (fun _ => True)); [|done..|].
  { destruct (empty_bb b); [constructor|apply reader_str]. }
  intros s b' _ _. destruct (Z.gtb_spec (slen s) GUILD_MOTD_MAX_LENGTH) as [|Hs]; [by apply wp_ret|].
  unfold GUILD_MOTD_MAX_LENGTH in Hs.
  in_my_guild. apply require_right_ok; [done|by exists pl|].
  apply wp_then; [done|apply SetMOTD_kept; [apply HL|unfold short; lia]|]. intros _ c' HL' _. quiet. event_fits.
Qed.
Lemma HandleGuildChangeInfoTextOpcode_ok : sound (HandleGuildChangeInfoTextOpcode env me b) w.
Proof.
  unfold HandleGuildChangeInfoTextOpcode. apply wp_recv_str; [done..|]. intros s b' _ _.
  apply normalized_ok; [done..|]. intros nm _.
  destruct (Z.gtb_spec (slen nm) GUILD_INFO_MAX_LENGTH) as [|Hs]; [by apply wp_ret|].
  unfold GUILD_INFO_MAX_LENGTH in Hs.
  in_my_guild. apply require_right_ok; [done|by exists pl|]. apply wp_kept_ends; [done|].
  apply SetGINFO_kept; [apply HL|unfold short; lia].
Qed.

(** Both notes. *)
Lemma set_note_ok right store :
  (forall X id k s c, good id c -> is_Some (members c.1 !! k) -> slen s <= GUILD_NOTE_MAX_LENGTH ->
     wp X (store k s) (fun _ c' => kept id c c') c) ->
  sound (set_note env me right store b) w.
Proof.
  intros Hstore. unfold set_note. apply wp_recv_str; [done..|]. intros name b1 Hb1 _.
  apply wp_recv_str; [done..|]. intros s b2 _ _.
  apply normalized_ok; [done..|]. intros nm Hn. unfold MAX_INTERNAL_PLAYER_NAME in Hn.
  apply normalized_ok; [done..|]. intros note _.
  in_my_guild. apply require_right_ok; [done|by exists pl|]. apply require_slot_ok; [done..|lia|].
  intros key m Hm Hkey. destruct (Z.gtb_spec (slen note) GUILD_NOTE_MAX_LENGTH) as [|Hs]; [by apply wp_ret, live_ends|].
  apply wp_then; [done|apply Hstore; [apply HL|by exists m|lia]|]. intros _ c' HL' _.
  apply wp_kept_ends; [done|]. by apply Roster_kept, HL'.
Qed.
Lemma HandleGuildSetPublicNoteOpcode_ok : sound (HandleGuildSetPublicNoteOpcode env me b) w.
Proof. apply set_note_ok. intros. by apply SetPublicNote_kept. Qed.
Lemma HandleGuildSetOfficerNoteOpcode_ok : sound (HandleGuildSetOfficerNoteOpcode env me b) w.
Proof. apply set_note_ok. intros. by apply SetOfficerNote_kept. Qed.

Lemma show_ranks_ok id c : live id c -> wp_in id (show_ranks env me) c.
Proof.
  intros HL. unfold show_ranks. apply wp_then; [done|by apply Query_logs, HL|]. intros _ c' HL' _.
  apply wp_kept_ends; [done|]. by apply Roster_kept, HL'.
Qed.
Lemma HandleGuildRankOpcode_ok : sound (HandleGuildRankOpcode env me b) w.
Proof.
  unfold HandleGuildRankOpcode. destruct Hme as [pl Hpl]. apply wp_bind. eapply wp_GetPlayer; [done|].
  apply wp_bind, wp_w_get. unfold GetGuildById. destruct (m_GuildMap w !! pl_guildId pl) as [g|] eqn:Eg;
    [|apply wp_quiet_world; auto with logs].
  assert (HL : live (pl_guildId pl) (g, w)) by (split; [by apply good_registered|by exists g]).
  destruct (negb _); [apply wp_quiet_world; auto with logs|].
  apply wp_recv_u32; [done..|]. intros rid b1 Hb1 Hrid. apply wp_recv_u32; [done..|]. intros rights b2 Hb2 _.
  apply wp_recv_str; [done..|]. intros s b3 _ _. apply normalized_ok; [done..|]. intros nm Hn.
  eapply wp_with_guild; [done|]. apply wp_then; [done|apply SetRankName_kept; [apply HL|unfold short; lia]|].
  intros _ c1 H1 _. apply wp_then; [done|apply SetRankRights_kept; [apply H1|done|]|].
  { intros ->. by rewrite Z.eqb_refl. }
  intros _ c2 H2 _. by apply show_ranks_ok.
Qed.
Lemma HandleGuildAddRankOpcode_ok : sound (HandleGuildAddRankOpcode env me b) w.
Proof.
  unfold HandleGuildAddRankOpcode. apply wp_recv_str; [done..|]. intros name b' _ _.
  apply normalized_ok; [done..|]. intros nm Hn. unfold MAX_INTERNAL_PLAYER_NAME in Hn.
  in_my_guild. apply require_leader_ok; [done|]. intros _. wps. destruct (_ >=? _); [by apply wp_ret, live_ends|].
  apply wp_then; [done|apply CreateRank_kept; [apply HL|unfold short; lia]|]. intros _ c' HL' _. by apply show_ranks_ok.
Qed.
Lemma HandleGuildDelRankOpcode_ok : sound (HandleGuildDelRankOpcode env me) w.
Proof.
  unfold HandleGuildDelRankOpcode. in_my_guild. apply require_leader_ok; [done|]. intros _.
  apply wp_then; [done|by apply DelRank_kept, HL|]. intros _ c' HL' _. by apply show_ranks_ok.
Qed.

(** *** The emblem *)

Lemma HandleSaveGuildEmblemOpcode_ok : sound (HandleSaveGuildEmblemOpcode penv me b) w.
Proof.
  unfold HandleSaveGuildEmblemOpcode. apply wp_recv_guid; [done..|]. intros v b1 Hb1.
  apply wp_recv_u32; [done..|]. intros e1 b2 Hb2 _. apply wp_recv_u32; [done..|]. intros e2 b3 Hb3 _.
  apply wp_recv_u32; [done..|]. intros e3 b4 Hb4 _. apply wp_recv_u32; [done..|]. intros e4 b5 Hb5 _.
  apply wp_recv_u32; [done..|]. intros e5 b6 Hb6 _.
  destruct (negb _); [apply wp_quiet_world; auto with logs|].
  apply wp_bind, wp_logs; [auto with logs|]. intros _. destruct Hme as [pl Hpl].
  apply wp_bind. eapply wp_GetPlayer; [done|].
  apply wp_bind, wp_w_get. unfold GetGuildById. destruct (m_GuildMap w !! pl_guildId pl) as [g|] eqn:Eg;
    [|apply wp_quiet_world; auto with logs].
  destruct (negb _); [apply wp_quiet_world; auto with logs|].
  destruct (_ <? _); [apply wp_quiet_world; auto with logs|].
  apply wp_bind, wp_w_mod. set (w1 := w_on_player _ _ w).
  assert (HW1 : world_ok w1) by by apply world_player.
  assert (HL : live (pl_guildId pl) (g, w1)) by (split; [by apply good_registered|by exists g]).
  eapply wp_with_guild; [done|]. apply wp_then; [done|by apply SetEmblem_kept, HL|]. intros _ c1 H1 _.
  apply wp_bind, wp_logs; [auto with logs|]. intros _.
  apply wp_kept_ends; [done|]. by apply Query_logs, H1.
Qed.
End ops.
