(* ===== verification/GuildFound.v ===== *)
(** * GuildFound: founding a guild, petitions, commands

    A new guild has its founder as its guild master before the registry hears
    of it; a charter that is turned in brings its signers along.  The petition
    opcodes, the commands and the life of a player keep the world in order. *)

From stdpp Require Import gmap fin_maps strings.
From S2P Require Import Prelude ByteBuffer Codec ObjectGuid Packets Effects Incoming Social GuildData Guild GuildRoster.
From S2P Require Import GuildHandlers GuildPetitions GuildInv GuildKeep GuildSteps GuildOps.

Local Open Scope prog_scope.

Lemma wp_with_new {A} (m : GM A) (Q : A * Guild -> World -> Prop) w :
  wp (fun c => world_ok c.2) m (fun a c => Q (a, c.1) c.2) (Guild_new, w) -> wp world_ok (with_new m) Q w.
Proof.
  intros Hm log. unfold with_new. cbn [fst snd]. specialize (Hm log).
  by destruct (m (Guild_new, w, log)) as [[a|e| | |] [[g' w'] log']].
Qed.

(** A guild in order the registry does not know. *)
Definition newborn (id : Z) (c : Guild * World) : Prop := good id c /\ m_GuildMap c.2 !! id = None.

(** A guild without members leaves no trace in the agreement. *)
Lemma stillborn id c : focus id c -> members c.1 = ∅ -> m_GuildMap c.2 !! id = None -> world_ok c.2.
Proof.
  intros [F1 F2 F3] Hm Hr. split.
  - rewrite <- (delete_id (m_GuildMap c.2) id) at 1 by done. by eapply agree_unregister.
  - intros id' g' Hg. apply (F3 id'); [congruence|done].
Qed.

Lemma AddGuild_ok g w : newborn (m_Id g) (g, w) -> wp world_ok (AddGuild g) (fun _ w' =>
  world_ok w' /\ m_petitionMap w' = m_petitionMap w) w.
Proof.
  intros [[[F1 F2 F3] [[K1 K2 K3 K4] L]] Hr]. unfold AddGuild. cbn [fst snd] in *.
  apply wp_bind, wp_w_mod, wp_bind, wp_logs; [auto with logs|]. intros _. apply wp_logs; [auto with logs|]. intros _.
  split; [|done]. split; cbn.
  - by eapply (agree_guild _ _ _ _ _ _ (m_Id g) g).
  - intros id' g' [[<- <-]|[Hne Hg]]%lookup_insert_Some; [by split|]. eapply F3; eauto.
Qed.

(** The five ranks of a new guild. *)
Definition default_ranks (env : GuildEnv) (locale : Z) : list RankInfo :=
  let chat := Z.lor GR_RIGHT_GCHATLISTEN GR_RIGHT_GCHATSPEAK in
  [mkRI (GetMangosString env LANG_GUILD_MASTER locale) GR_RIGHT_ALL;
   mkRI (GetMangosString env LANG_GUILD_OFFICER locale) GR_RIGHT_ALL;
   mkRI (GetMangosString env LANG_GUILD_VETERAN locale) chat;
   mkRI (GetMangosString env LANG_GUILD_MEMBER locale) chat;
   mkRI (GetMangosString env LANG_GUILD_INITIATE locale) chat].

Section found.
Context (env : GuildEnv) `{!EnvOk env}.

Lemma CreateRank_grow X name rights c :
  Z.of_nat (length (m_Ranks c.1)) < 10 ->
  wp X (CreateRank env name rights)
    (fun _ c' => exists f, c' = (set_Ranks (m_Ranks c.1 ++ [mkRI name rights]) c.1, w_on_db (on_rank f) c.2)) c.
Proof.
  intros Hn. unfold CreateRank, AddRank. wps. unfold GUILD_RANKS_MAX_COUNT.
  destruct (Z.geb_spec (Z.of_nat (length (m_Ranks c.1))) 10); [lia|]. wps. by eexists.
Qed.
Lemma CreateDefaultGuildRanks_spec X locale c :
  m_Ranks c.1 = [] ->
  wp X (CreateDefaultGuildRanks env locale)
    (fun _ c' => exists f, c' = (set_Ranks (default_ranks env locale) c.1, w_on_db (on_rank f) c.2)) c.
Proof.
  intros Hr. destruct c as [g w]. cbn [fst snd] in *. unfold CreateDefaultGuildRanks. wps. cbn [fst snd].
  do 4 (eapply wp_conseq; [apply CreateRank_grow; cbn [fst m_Ranks set_Ranks]; rewrite ?Hr; cbn; lia|];
        intros _ c' [? ->]; cbn [fst snd m_Ranks set_Ranks]; try wp_step).
  eapply wp_conseq; [apply CreateRank_grow; cbn [fst m_Ranks set_Ranks]; rewrite ?Hr; cbn; lia|].
  intros _ c' [f ->]. cbn [fst snd m_Ranks set_Ranks]. rewrite Hr. eexists (fun t => f _). reflexivity.
Qed.
Lemma default_ranks_ok locale g : ranks_ok (set_Ranks (default_ranks env locale) g).
Proof.
  split_and!; cbn [m_Ranks set_Ranks]; [cbn; lia..| |].
  - eexists. split; [reflexivity|]. done.
  - repeat constructor; apply env_strings.
Qed.

(** The guild before its founder joins. *)
Definition founded (id me locale : Z) (gname : string) : Guild :=
  set_Banks true true (set_Ranks (default_ranks env locale)
    (set_identity id gname me "" "No message set." (date_of (localtime env (time_now env))) Guild_new)).

Lemma fresh_rows w : world_ok w ->
  sql_delete_rows (fun _ r => mr_guildid r =? m_GuildIds w) (t_guild_member (w_db w)) = t_guild_member (w_db w).
Proof.
  intros [HA _]. apply map_filter_id. intros k r Hr. cbn.
  apply (ag_rows_index _ _ _ _ _ _ HA) in Hr. destruct (ag_reg _ _ _ _ _ _ HA _ _ Hr) as [g Hg].
  apply (ag_id _ _ _ _ _ _ HA) in Hg. lia.
Qed.

(** A new id, a new name and nobody in it: the agreement holds. *)
Lemma founded_focus me locale gname w w' :
  world_ok w -> m_GuildIds w + 1 < 2 ^ 32 ->
  (forall id g, m_GuildMap w !! id = Some g -> m_Name g <> gname) ->
  m_GuildMap w' = m_GuildMap w -> m_guid2guild w' = m_guid2guild w ->
  t_guild_member (w_db w') = t_guild_member (w_db w) -> w_players w' = w_players w ->
  m_petitionMap w' = m_petitionMap w -> m_GuildIds w' = m_GuildIds w + 1 ->
  focus (m_GuildIds w) (founded (m_GuildIds w) me locale gname, w') /\ m_GuildMap w' !! m_GuildIds w = None.
Proof.
  intros [HA HG] Hid Hn E1 E2 E3 E4 E5 E6.
  assert (Hf : m_GuildMap w !! m_GuildIds w = None).
  { apply eq_None_not_Some. intros [g Hg]. apply (ag_id _ _ _ _ _ _ HA) in Hg. lia. }
  pose proof (ag_ids _ _ _ _ _ _ HA). split; [|congruence]. split; cbn [fst snd].
  - done.
  - unfold agree_w. rewrite E1, E2, E3, E4, E5, E6. apply agree_register; [done|done|lia|done|done|].
    destruct HA as [A1 A2 A3 A4 A5 A6 A7 A8 A9 A10]. split; auto; [|lia].
    intros id g Hg. destruct (A1 id g Hg). split; [done|lia].
  - rewrite E1. intros id' g' _. apply HG.
Qed.

(** The founder joins as guild master. *)
Lemma founder_gwf id me locale gname m g' :
  0 < me < 2 ^ 32 -> slen gname <= 100000 -> fresh_slot me 0 m ->
  joined me m (founded id me locale gname) g' -> gwf g'.
Proof.
  intros Hu Hn (S1 & S2 & S3 & S4) [J1 J2 J3 J4 (J5 & J6 & J7 & _) [J8 J9]].
  assert (Hm : members g' = {[me := m]}) by done. split; [split|].
  - intros k1 m1. rewrite Hm. intros [<- <-]%lookup_singleton_Some. tauto.
  - unfold ranks_ok. rewrite J4. apply (default_ranks_ok locale Guild_new).
  - unfold texts_ok. by rewrite J5, J6, J7.
  - unfold banks_ok. by rewrite J8, J9.
  - unfold leader_ok. rewrite Hm, J3. split.
    + exists m. rewrite lookup_singleton_eq. split; [done|]. unfold GR_GUILDMASTER. tauto.
    + intros k1 m1 [<- _]%lookup_singleton_Some _. done.
Qed.

(** What a successful [Create] leaves. *)
Record born (me : Z) (w : World) (c : Guild * World) : Prop := {
  bo_new : newborn (m_Id c.1) c;
  bo_online : forall p, is_Some (w_players w !! p) -> is_Some (w_players c.2 !! p);
  bo_index : forall p, p <> me -> m_guid2guild c.2 !! p = m_guid2guild w !! p }.

Lemma Create_ok me locale gname w :
  world_ok w -> online me w -> m_GuildIds w + 1 < 2 ^ 32 -> slen gname <= 100000 ->
  wp (fun c => world_ok c.2) (Create env me (Some locale) gname)
    (fun ok c => if ok then born me w c else world_ok c.2) (Guild_new, w).
Proof.
  intros HW [pl Hpl] Hid Hn. destruct (online_short me pl w HW Hpl) as (Hpg & Hpu & Hpr & Hpn).
  pose proof (ag_ids _ _ _ _ _ _ (proj1 HW)). unfold Create. wps. cbn [snd].
  destruct (GetGuildByName env gname w) as [g|] eqn:Et; [by apply wp_ret|].
  pose proof (GetGuildByName_None env gname w Et) as Hfree.
  cbn [GenerateGuildId fst snd]. wps. cbn [fst snd].
  eapply wp_conseq; [by apply CreateDefaultGuildRanks_spec|]. intros _ c [f ->]. cbv beta.
  cbn [fst snd]. wps. cbn [fst snd]. set (w' := w_on_db _ _).
  destruct (founded_focus me locale gname w w' HW Hid Hfree) as [HF Hreg]; try done.
  { exact (fresh_rows w HW). }
  { cbn. apply wrap_small. unfold is_u. lia. }
  eapply wp_conseq;
    [eapply (AddMember_spec env _ _ me GR_GUILDMASTER); [exact HF|done|unfold GR_GUILDMASTER; lia|]|].
  { assert (He : w_players w' !! me = Some pl) by exact Hpl. cbn [snd]. by rewrite He. }
  cbn [fst snd]. intros st c (F & Gr & Hst). cbv beta.
  assert (Hreg' : m_GuildMap c.2 !! m_GuildIds w = None) by (rewrite (gr_registry _ _ _ Gr); exact Hreg).
  destruct st; try (rewrite bool_decide_eq_false_2 by done; wps; destruct Hst as [He _];
    eapply stillborn; [exact F|by rewrite He|done]).
  rewrite bool_decide_eq_true_2 by done. wps. destruct Hst as (m & Hm & Hj).
  pose proof (fo_id _ _ F) as Hfid. split; [|apply Gr|apply Gr].
  rewrite Hfid. split; [|done]. split; [done|]. by eapply founder_gwf.
Qed.

Lemma HandleGuildCreateOpcode_ok me locale b w :
  world_ok w -> online me w -> arrived b -> m_GuildIds w + 1 < 2 ^ 32 ->
  sound (HandleGuildCreateOpcode env me locale b) w.
Proof.
  intros HW Ho Hb Hid. unfold HandleGuildCreateOpcode. apply wp_recv_str; [done..|]. intros s b' _ Hs.
  pose proof Ho as [pl Hpl]. apply wp_bind. eapply wp_GetPlayer; [done|]. destruct (truth _); [by apply wp_ret|].
  apply wp_bind, wp_with_new. eapply wp_conseq; [apply Create_ok; [done..|lia]|].
  intros [|] c Hc; cbn [fst snd]; [|by apply wp_ret].
  eapply wp_conseq; [apply AddGuild_ok|by intros _ w' []]. destruct c. apply Hc.
Qed.

(** The signers of a charter join one after the other. *)
Lemma sign_up_all X id sigs : forall c,
  newborn id c -> NoDup (sg_playerGuid <$> sigs) ->
  (forall s, s ∈ sigs -> 0 < sg_playerGuid s < 2 ^ 32
     /\ (w_players c.2 !! sg_playerGuid s = None -> m_guid2guild c.2 !! sg_playerGuid s = None)) ->
  wp X (each (sign_up env) sigs) (fun _ c' => newborn id c') c.
Proof.
  induction sigs as [|s sigs IH]; intros c [HG Hr] Hnd Hs; cbn [each]; [by apply wp_ret|].
  rewrite fmap_cons in Hnd. apply NoDup_cons in Hnd as [Hni Hnd]. destruct (Hs s) as [Hu Hj]; [set_solver|].
  apply wp_bind. unfold sign_up. unfold IsEmpty. destruct (Z.eqb_spec (sg_playerGuid s) 0); [lia|].
  wps. assert (4 <= GetLowestRank c.1 <= 9) by apply lowest_range, HG.
  eapply wp_conseq; [apply (AddMember_good env X id); [done|done|lia|done]|]. intros st c1 [G1 Gr]. wps.
  apply IH; [split; [done|by rewrite (gr_registry _ _ _ Gr)]|done|].
  intros s' Hs'. destruct (Hs s') as [Hu' Hj']; [set_solver|]. split; [done|]. intros Hn.
  rewrite (gr_index _ _ _ Gr).
  - apply Hj'. apply eq_None_not_Some. intros Hy%(gr_online _ _ _ Gr). rewrite Hn in Hy. by destruct Hy.
  - intros He. apply Hni. rewrite <- He. apply list_elem_of_fmap. by exists s'.
Qed.

Lemma Create_petition_ok me locale pid p w :
  world_ok w -> online me w -> m_GuildIds w + 1 < 2 ^ 32 -> m_petitionMap w !! pid = Some p ->
  wp (fun c => world_ok c.2) (Create_petition env p me (Some locale))
    (fun ok c => if ok then newborn (m_Id c.1) c else world_ok c.2) (Guild_new, w).
Proof.
  intros HW Ho Hid Hp. pose proof (proj1 HW) as HA. pose proof (ag_petitions _ _ _ _ _ _ HA) as [P1 P2 P3 P4 P5 P6].
  unfold Create_petition. apply wp_bind. eapply wp_conseq; [by apply Create_ok; eauto|].
  intros [|] c Hc; cbn [negb]; wps; [|done]. destruct Hc as [Hb Hon Hix].
  eapply wp_conseq; [apply (sign_up_all _ (m_Id c.1)); [done|by eapply P2|]|].
  - intros s Hs. split; [by eapply P4|]. intros Hn. destruct (decide (sg_playerGuid s = me)) as [He|Hne].
    + exfalso. apply eq_None_not_Some in Hn. apply Hn, Hon. by rewrite He.
    + rewrite Hix by done. by eapply (ag_sign _ _ _ _ _ _ HA).
  - cbv beta. intros _ c' Hc'. wps. by rewrite (fo_id _ _ (proj1 (proj1 Hc'))).
Qed.

(** *** Petitions *)

Lemma world_petitions w pts db :
  petitions_ok pts ->
  (forall pid pt s, pts !! pid = Some pt -> s ∈ pt_signatures pt -> m_guid2guild w !! sg_playerGuid s = None) ->
  t_guild_member db = t_guild_member (w_db w) ->
  world_ok w -> world_ok (w_set_petitions pts (w_set_db db w)).
Proof.
  intros Hok Hs Hdb [HA HG]. split; [|done]. unfold agree_w. cbn. rewrite Hdb. by eapply agree_petitions.
Qed.

Lemma drop_signature_ok k w : world_ok w -> world_ok (drop_signature env k w).
Proof.
  intros [HA HG]. destruct (drop_signature_frame env k w) as (E1 & E2 & E3 & E4 & E5 & E6).
  destruct (drop_signature_spec env k w (ag_petitions _ _ _ _ _ _ HA)) as [P1 P2].
  split; [|by rewrite E1]. unfold agree_w. rewrite E1, E2, E3, E4, E5. eapply agree_petitions; [done| |exact HA].
  intros pid pt s Hpt Hs. destruct (P2 pid pt s Hpt Hs) as (_ & pt0 & H0 & Hs0). by eapply (ag_sign _ _ _ _ _ _ HA).
Qed.
Lemma DeletePetition_ok p w : world_ok w -> world_ok (DeletePetition p w).
Proof.
  intros HW. pose proof HW as [HA _]. pose proof (ag_petitions _ _ _ _ _ _ HA) as [P1 P2 P3 P4 P5 P6].
  assert (Hb : forall pid pt, delete (pt_id p) (m_petitionMap w) !! pid = Some pt -> m_petitionMap w !! pid = Some pt)
    by (intros pid pt H; by apply lookup_delete_Some in H as [_ ?]).
  apply (world_petitions w (delete (pt_id p) (m_petitionMap w)) (petition_Delete p (w_db w))); [| | |done].
  - split; eauto.
  - intros pid pt s H1%Hb. by eapply (ag_sign _ _ _ _ _ _ HA).
  - unfold petition_Delete. by destruct (truth _).
Qed.

Lemma send_logs {P} who (k : PK unit) op n : P = (pk_init op ;;; k) -> fits k n -> n <= 10000000 -> logs_only (send_to who P).
Proof. intros -> Hk Hn. apply logs_bind; [by eapply logs_made_fits|auto with logs]. Qed.
Lemma TurnIn_logs who r : logs_only (send_to who (TurnInResult r)).
Proof. eapply send_logs; [reflexivity|apply fits_u32|done]. Qed.
Lemma SignResult_logs who i m r : logs_only (send_to who (SignResult i m r)).
Proof. eapply send_logs; [reflexivity|repeat apply fits_seq; auto with packets|done]. Qed.

Lemma HandleTurnInPetitionOpcode_ok ienv me locale b w :
  world_ok w -> online me w -> arrived b -> m_GuildIds w + 1 < 2 ^ 32 ->
  sound (HandleTurnInPetitionOpcode env ienv me locale b) w.
Proof.
  intros HW Ho Hb Hid. unfold HandleTurnInPetitionOpcode. apply wp_recv_guid; [done..|]. intros i b' _.
  destruct (match GetItemByGuid ienv me i with Some c => Some c | None => bag_charter ienv me end) as [ch|];
    [|by apply wp_ret].
  apply wp_bind, wp_w_get. destruct (GetPetitionById (it_enchantment ch) w) as [p|] eqn:Ep; [|by apply wp_ret].
  pose proof Ho as [pl Hpl]. apply wp_bind. eapply wp_GetPlayer; [done|].
  destruct (truth _); [apply wp_quiet_world; [done|apply TurnIn_logs]|]. destruct (negb _); [by apply wp_ret|].
  destruct (negb _); [apply wp_quiet_world; [done|apply TurnIn_logs]|]. apply wp_bind, wp_w_get.
  pose proof (po_name _ (ag_petitions _ _ _ _ _ _ (proj1 HW)) _ _ Ep).
  destruct (GetGuildByName env _ w); [apply wp_quiet_world; [done|apply result_logs; lia]|].
  apply wp_bind, wp_with_new. eapply wp_conseq; [by eapply Create_petition_ok|].
  intros [|] c Hc; cbn [fst snd negb]; [|by apply wp_ret]. apply wp_bind.
  eapply wp_conseq; [apply AddGuild_ok; by destruct c|]. intros _ w' [HW' _]. cbv beta.
  apply wp_bind, wp_w_mod, wp_bind, wp_logs; [auto with logs|]. intros _.
  apply wp_quiet_world; [by apply DeletePetition_ok|apply TurnIn_logs].
Qed.
End found.
