(* ===== verification/GuildLife.v ===== *)
(** * GuildLife: charters, commands and the lives of players *)

From stdpp Require Import gmap fin_maps strings.
From S2P Require Import Prelude ByteBuffer Codec ObjectGuid Packets Effects Incoming Social GuildData Guild GuildRoster.
From S2P Require Import GuildHandlers GuildPetitions GuildInv GuildKeep GuildSteps GuildOps GuildFound.

Local Open Scope prog_scope.

(** ** Petition opcodes *)

Section charters.
Context (env : GuildEnv) (penv : PlayerEnv) (ienv : PetitionEnv) `{!EnvOk env}.
Context (me : Z) (b : ByteBuffer) (w : World).
Context (HW : world_ok w) (Hme : online me w) (Hb : arrived b).

Let HA : agree_w (m_GuildMap w) w := proj1 HW.
Let HP : petitions_ok (m_petitionMap w) := ag_petitions _ _ _ _ _ _ HA.

(** A new petition has no signatures. *)
Lemma CreatePetition_ok id pl ch name w0 :
  world_ok w0 -> slen name <= 100000 -> world_ok (CreatePetition env id pl ch name w0).
Proof.
  intros HW0 Hn. pose proof (proj1 HW0) as HA0. destruct (ag_petitions _ _ _ _ _ _ HA0) as [P1 P2 P3 P4 P5 P6].
  set (p := mkPetition id ch (pl_guid pl) name (pl_team pl) []).
  assert (Hin : forall pid pt s, <[id := p]> (m_petitionMap w0) !! pid = Some pt -> s ∈ pt_signatures pt ->
    m_petitionMap w0 !! pid = Some pt).
  { intros pid pt s [[<- <-]|[_ ?]]%lookup_insert_Some; [cbn; set_solver|done]. }
  apply (world_petitions w0 (<[id := p]> (m_petitionMap w0)) (petition_SaveToDB env p (w_db w0))); [| |done|done].
  - split.
    + intros pid pt [[<- <-]|[_ ?]]%lookup_insert_Some; [done|eauto].
    + intros pid pt [[<- <-]|[_ ?]]%lookup_insert_Some; [constructor|eauto].
    + intros pid pt pid' pt' s s' H1 H2 H3 H4. eapply P3; eauto.
    + intros pid pt s H1 H2. eapply P4; eauto.
    + intros pid pt [[<- <-]|[_ ?]]%lookup_insert_Some; [done|eauto].
    + intros pid pt [[<- <-]|[_ ?]]%lookup_insert_Some; [cbn; lia|eauto].
  - intros pid pt s H1 H2. eapply (ag_sign _ _ _ _ _ _ HA0); eauto.
Qed.

(** A petition is renamed. *)
Lemma petition_Rename_ok name p : slen name <= 100000 -> world_ok (petition_Rename env name p w).
Proof.
  intros Hn. destruct HP as [P1 P2 P3 P4 P5 P6].
  assert (Hback : forall pid pt, alter (pt_set_name name) (pt_id p) (m_petitionMap w) !! pid = Some pt ->
    exists pt0, m_petitionMap w !! pid = Some pt0 /\ pt_id pt = pt_id pt0
      /\ pt_signatures pt = pt_signatures pt0 /\ slen (pt_name pt) <= 100000).
  { intros pid pt [(<- & pt0 & H0 & ->)|[Hne H0]]%lookup_alter_Some; [by exists pt0|exists pt; eauto]. }
  eapply (world_petitions w); [| |done|done].
  - split.
    + intros pid pt (pt0 & H0 & -> & _)%Hback. eauto.
    + intros pid pt (pt0 & H0 & _ & -> & _)%Hback. eauto.
    + intros pid pt pid' pt' s s' (q & Hq & _ & -> & _)%Hback (q' & Hq' & _ & -> & _)%Hback. by apply (P3 _ q _ q').
    + intros pid pt s (pt0 & H0 & _ & -> & _)%Hback. by apply (P4 pid).
    + by intros pid pt (pt0 & _ & _ & _ & ?)%Hback.
    + intros pid pt (pt0 & H0 & _ & -> & _)%Hback. eauto.
  - intros pid pt s (pt0 & H0 & _ & -> & _)%Hback. by apply (ag_sign _ _ _ _ _ _ HA pid).
Qed.

(** A signature is added to a petition that has less than nine, by a player in
    no guild who signed nothing. *)
Lemma AddSignature_ok pid p s w0 db :
  world_ok w0 -> m_petitionMap w0 !! pid = Some p -> (length (pt_signatures p) < 9)%nat ->
  0 < sg_playerGuid s < 2 ^ 32 -> m_guid2guild w0 !! sg_playerGuid s = None ->
  (forall pid pt s', m_petitionMap w0 !! pid = Some pt -> s' ∈ pt_signatures pt -> sg_playerGuid s' <> sg_playerGuid s) ->
  t_guild_member db = t_guild_member (w_db w0) ->
  world_ok (w_set_petitions (alter (AddSignature s) pid (m_petitionMap w0)) (w_set_db db w0)).
Proof.
  intros HW0 Hp Hl Hu Hi Hs Hdb. pose proof (proj1 HW0) as HA0. destruct (ag_petitions _ _ _ _ _ _ HA0) as [P1 P2 P3 P4 P5 P6].
  assert (Hback : forall pid' pt, alter (AddSignature s) pid (m_petitionMap w0) !! pid' = Some pt ->
    exists pt0, m_petitionMap w0 !! pid' = Some pt0 /\ pt_id pt = pt_id pt0 /\ pt_name pt = pt_name pt0
      /\ (pt_signatures pt = pt_signatures pt0 \/ pid' = pid /\ pt_signatures pt = pt_signatures pt0 ++ [s])).
  { intros pid' pt [(<- & pt0 & H0 & ->)|[Hne H0]]%lookup_alter_Some; [exists pt0; cbn; auto 10|exists pt; auto 10]. }
  assert (Hin : forall pid' pt s', alter (AddSignature s) pid (m_petitionMap w0) !! pid' = Some pt ->
    s' ∈ pt_signatures pt -> (exists pt0, m_petitionMap w0 !! pid' = Some pt0 /\ s' ∈ pt_signatures pt0)
      \/ (pid' = pid /\ s' = s)).
  { intros pid' pt s' (pt0 & H0 & _ & _ & [-> |[-> ->]])%Hback Hs'; [eauto|].
    apply elem_of_app in Hs' as [?| ->%list_elem_of_singleton]; eauto. }
  apply world_petitions; [split| |done|done].
  - intros pid' pt (pt0 & H0 & -> & _)%Hback. eauto.
  - intros pid' pt (pt0 & H0 & _ & _ & [-> |[-> ->]])%Hback; [eauto|].
    rewrite fmap_app. apply NoDup_app. split_and!; [eauto| |apply NoDup_singleton].
    intros k (s' & -> & Hs')%list_elem_of_fmap Hk%list_elem_of_singleton. by eapply Hs.
  - intros p1 pt1 p2 pt2 s1 s2 H1 H2 HI1%(Hin p1 pt1 s1 H1) HI2%(Hin p2 pt2 s2 H2) He.
    destruct HI1 as [(q1 & Hq1 & Hs1)|[-> ->]], HI2 as [(q2 & Hq2 & Hs2)|[-> ->]]; [by eapply (P3 _ q1 _ q2)|..|done].
    + exfalso. by eapply Hs.
    + exfalso. symmetry in He. by eapply Hs.
  - intros p1 pt1 s1 H1 [(q1 & Hq1 & Hs1)|[-> ->]]%(Hin p1 pt1 s1 H1); [by eapply P4|done].
  - intros pid' pt (pt0 & H0 & _ & -> & _)%Hback. eauto.
  - intros pid' pt (pt0 & H0 & _ & _ & [-> |[-> ->]])%Hback; [eauto|].
    assert (pt0 = p) as -> by congruence. rewrite length_app. cbn. lia.
  - intros p1 pt1 s1 H1 [(q1 & Hq1 & Hs1)|[-> ->]]%(Hin p1 pt1 s1 H1); [by eapply (ag_sign _ _ _ _ _ _ HA0)|done].
Qed.

(** *** Packets *)

Lemma fits_signatures l : fits (BuildSignatureData l) (12 * Z.of_nat (length l)).
Proof.
  induction l as [|s l IH]; cbn [BuildSignatureData length]; [by apply fits_ret|].
  eapply fits_weaken; [apply fits_seq; [apply fits_guid|apply fits_seq; [apply fits_u32|exact IH]]|lia].
Qed.
Lemma Signatures_logs who i o pg pid p : m_petitionMap w !! pid = Some p -> logs_only (send_to who (SignaturesPacket i o pg p)).
Proof.
  intros Hp. pose proof (po_few _ HP _ _ Hp).
  eapply (send_logs _ _ _ (8 + (8 + (4 + (1 + 12 * Z.of_nat (length (pt_signatures p))))))); [reflexivity| |lia].
  repeat apply fits_seq; auto with packets. apply fits_signatures.
Qed.
Lemma fits_u16 v : fits (pk_buf (write_u16 v)) 2.
Proof.
  apply (fits_builds _ (le_bytes 2 v)); [apply builds_append; intros; by apply append_T_spec|apply le_bytes_u8|
    by rewrite length_le_bytes].
Qed.
Lemma QueryResponse_logs who pg pid p : m_petitionMap w !! pid = Some p -> logs_only (send_to who (QueryResponse pg p)).
Proof.
  intros Hp. pose proof (po_name _ HP _ _ Hp) as Hn. unfold slen in Hn.
  eapply (send_logs _ _ _ (4 + (8 + (100001 + 100)))); [reflexivity| |lia].
  do 2 (apply fits_seq; [auto with packets|]). apply fits_seq; [eapply fits_weaken; [apply fits_str|lia]|].
  eapply fits_weaken; [repeat (apply fits_seq; [auto using fits_u16 with packets|]); apply fits_u32|lia].
Qed.

Ltac silent := first [by apply wp_ret|apply wp_quiet_world; [done|]].

Lemma HandlePetitionShowSignOpcode_ok : sound (HandlePetitionShowSignOpcode ienv me b) w.
Proof.
  unfold HandlePetitionShowSignOpcode. apply wp_recv_guid; [done..|]. intros i b' _. destruct Hme as [pl Hpl].
  apply wp_bind. eapply wp_GetPlayer; [done|]. destruct (truth _); [silent|].
  destruct (GetItemByGuid ienv me i) as [ch|]; [|silent]. apply wp_bind, wp_w_get.
  destruct (GetPetitionById _ w) as [p|] eqn:Ep; [|silent]. silent. by eapply Signatures_logs.
Qed.
Lemma HandlePetitionQueryOpcode_ok : sound (HandlePetitionQueryOpcode me b) w.
Proof.
  unfold HandlePetitionQueryOpcode. apply wp_recv_u32; [done..|]. intros pg b1 Hb1 _. apply wp_recv_guid; [done..|].
  intros _ b2 _. apply wp_bind, wp_w_get. destruct (GetPetitionById pg w) as [p|] eqn:Ep; silent.
  by eapply QueryResponse_logs.
Qed.
Lemma HandlePetitionDeclineOpcode_ok : sound (HandlePetitionDeclineOpcode env me b) w.
Proof.
  unfold HandlePetitionDeclineOpcode. apply wp_recv_guid; [done..|]. intros i b1 _. apply wp_bind, wp_w_get.
  destruct (GetPetitionByCharterGuid env i w) as [p|]; [|silent]. apply wp_bind, wp_w_get.
  destruct (FindPlayer _ w); silent. eapply send_logs; [reflexivity|apply fits_guid|done].
Qed.
Lemma HandleOfferPetitionOpcode_ok : sound (HandleOfferPetitionOpcode env ienv me b) w.
Proof.
  unfold HandleOfferPetitionOpcode. apply wp_recv_guid; [done..|]. intros i b1 Hb1.
  apply wp_recv_guid; [done..|]. intros k b2 _. apply wp_bind, wp_w_get. destruct (FindPlayer k w) as [q|]; [|silent].
  destruct Hme as [pl Hpl]. apply wp_bind. eapply wp_GetPlayer; [done|].
  destruct (online_short me pl w HW Hpl) as (_ & _ & _ & Hn). unfold short in Hn.
  destruct (_ && _); [silent; auto with logs|]. destruct (truth _); [silent; apply result_logs; lia|].
  destruct (truth _); [silent; apply result_logs; lia|]. destruct (GetItemByGuid ienv me i) as [ch|]; [|silent].
  apply wp_bind, wp_w_get. destruct (GetPetitionById _ w) as [p|] eqn:Ep; silent. by eapply Signatures_logs.
Qed.
Lemma HandlePetitionShowListOpcode_ok : sound (HandlePetitionShowListOpcode penv me b) w.
Proof.
  unfold HandlePetitionShowListOpcode. apply wp_recv_guid; [done..|]. intros k b1 _. unfold SendPetitionShowList.
  destruct (negb _); [silent|]. silent. apply logs_bind; [auto with logs|]. intros _.
  eapply send_logs; [reflexivity|repeat apply fits_seq; auto with packets|done].
Qed.

Lemma HandlePetitionRenameOpcode_ok : sound (HandlePetitionRenameOpcode env ienv me b) w.
Proof.
  unfold HandlePetitionRenameOpcode. apply wp_recv_guid; [done..|]. intros i b1 Hb1.
  apply wp_recv_str; [done..|]. intros s b2 _ Hs. destruct (GetItemByGuid ienv me i) as [ch|]; [|silent].
  apply wp_bind, wp_w_get. destruct (GetGuildByName env s w); [silent; apply result_logs; lia|].
  destruct (_ || _); [silent; apply result_logs; lia|]. apply wp_bind, wp_w_get.
  destruct (GetPetitionById _ w) as [p|]; [|silent]. apply wp_bind, wp_w_mod.
  apply wp_quiet_world; [apply petition_Rename_ok; lia|]. unfold slen in Hs.
  eapply (send_logs _ _ _ (8 + 65536)); [reflexivity| |done].
  apply fits_seq; [auto with packets|]. eapply fits_weaken; [apply fits_str|lia].
Qed.

Lemma HandlePetitionBuyOpcode_ok : sound (HandlePetitionBuyOpcode env penv ienv me b) w.
Proof.
  unfold HandlePetitionBuyOpcode, read_buy.
  apply wp_recv_bind, wp_recv_guid; [done..|]. intros npc b0 Hb0.
  do 2 (apply wp_recv_bind, wp_recv_skip; [lia|done..|]; intros _ ? ?).
  apply wp_recv_bind, wp_recv_str; [done..|]. intros name b1 Hb1 Hn.
  do 12 (apply wp_recv_bind, wp_recv_skip; [lia|done..|]; intros _ ? ?).
  apply wp_recv_bind, wp_recv_u32; [done..|]. intros _ b2 Hb2 _.
  apply wp_recv_bind, wp_recv_skip; [lia|done..|]. intros _ b3 Hb3. apply wp_recv_ret.
  destruct (negb _); [silent|]. destruct (negb _); [silent|].
  apply wp_bind, wp_logs; [auto with logs|]. intros _. destruct Hme as [pl Hpl].
  apply wp_bind. eapply wp_GetPlayer; [done|]. destruct (truth _); [silent|]. apply wp_bind, wp_w_get.
  destruct (GetPetitionByOwnerGuid env me w); [silent|]. apply wp_bind, wp_w_get.
  destruct (GetGuildByName env name w); [silent; apply result_logs; lia|].
  destruct (_ || _); [silent; apply result_logs; lia|]. destruct (GetItemPrototype _ _); [|silent; auto with logs].
  destruct (_ <? _); [silent; auto with logs|]. cbv zeta. destruct (negb _); [silent; auto with logs|].
  apply wp_bind, wp_w_mod. assert (HW1 : world_ok (w_on_player me (ModifyMoney penv me (- GUILD_CHARTER_COST)) w))
    by by apply world_player.
  destruct (StoreNewItem ienv me GUILD_CHARTER) as [ch|]; [|by apply wp_ret]. apply wp_bind, wp_w_get, wp_bind, wp_w_mod.
  apply wp_bind, wp_logs; [auto with logs|]. intros _. apply wp_bind, wp_w_mod.
  apply wp_logs; [auto with logs|]. intros _. apply CreatePetition_ok; [exact HW1|lia].
Qed.

(** Signing drops an older signature first. *)
Lemma HandlePetitionSignOpcode_ok : sound (HandlePetitionSignOpcode env me b) w.
Proof.
  unfold HandlePetitionSignOpcode. apply wp_recv_guid; [done..|]. intros i b1 Hb1. apply wp_recv_u8; [done..|].
  intros _ b2 _. apply wp_bind, wp_w_get. destruct (GetPetitionByCharterGuid env i w) as [p|] eqn:Ep; [|silent].
  destruct Hme as [pl Hpl]. apply wp_bind. eapply wp_GetPlayer; [done|].
  destruct (ag_players _ _ _ _ _ _ HA me pl Hpl) as [(Hpg & Hpu & _ & Hn) Hgid]. unfold short in Hn.
  destruct (IsComplete env p) eqn:Ec; [silent|]. destruct (_ =? me); [silent; apply SignResult_logs|].
  destruct (_ && _); [silent; auto with logs|]. destruct (truth (pl_guildId pl)) eqn:Et; [silent; apply result_logs; lia|].
  destruct (truth (pl_guildIdInvited pl)); [silent; apply result_logs; lia|].
  destruct (Z.geb_spec (GetSignatureCount p) 9) as [|Hcnt]; [silent|]. apply wp_bind, wp_w_get.
  destruct (GetSignatureForPlayer pl p).
  { apply wp_quiet_world; [done|]. apply logs_bind; [apply SignResult_logs|]. intros _.
    destruct (FindPlayer _ w); [apply result_logs; lia|auto with logs]. }
  apply (first_such_Some env) in Ep as (pid & _ & Hp & _). pose proof (po_id _ HP _ _ Hp) as Hpid.
  pose proof (po_few _ HP _ _ Hp) as Hfew.
  unfold GetSignatureCount in Hcnt. rewrite wrap_small in Hcnt by (unfold is_u; lia).
  apply wp_bind, wp_w_mod, wp_bind, wp_w_get. unfold AddNewSignature. rewrite Ec. cbn [fst snd negb].
  apply wp_bind, wp_w_mod.
  apply wp_quiet_world.
  2: { apply logs_bind; [apply SignResult_logs|]. intros _.
       destruct (FindPlayer _ w); [apply SignResult_logs|auto with logs]. }
  destruct (drop_signature_frame env me w) as (E1 & E2 & E3 & E4 & E5 & E6).
  destruct (drop_signature_spec env me w HP) as [_ D2].
  destruct (drop_petition env me w pid p Hp) as (p' & Hp' & Hlen).
  set (w1 := drop_signature env me w) in *. rewrite Hpg, Hpid.
  eapply (AddSignature_ok pid p' (mkSig me (pl_account pl)) w1); cbn [sg_playerGuid]; [by apply drop_signature_ok|done|lia|done|..|done].
  - rewrite E2. destruct (m_guid2guild w !! me) as [j|] eqn:Ej; [|done]. pose proof (Hgid j eq_refl).
    destruct (ag_reg _ _ _ _ _ _ HA me j Ej) as [gj Hgj]. apply (ag_id _ _ _ _ _ _ HA) in Hgj. unfold truth in Et. lia.
  - intros pid' pt s' H1 H2. by destruct (D2 pid' pt s' H1 H2).
Qed.
End charters.

(** ** The lives of players *)

Section life.
Context (env : GuildEnv) (penv : PlayerEnv) (ienv : PetitionEnv) `{!EnvOk env}.
Context (w : World) (HW : world_ok w).

Let HA : agree_w (m_GuildMap w) w := proj1 HW.

(** The guild under an id, when it is registered. *)
Lemma registered_ok {A} id (m : GM A) g :
  m_GuildMap w !! id = Some g -> (live id (g, w) -> wp_in id m (g, w)) -> sound (with_guild id m) w.
Proof.
  intros Hg Hm. eapply wp_with_guild; [done|]. apply Hm. split; [by apply good_registered|by exists g].
Qed.

(** A player record that agrees with the index. *)
Lemma AddObject_ok p :
  player_ok (pl_guid p) p -> (forall id, m_guid2guild w !! pl_guid p = Some id -> pl_guildId p = id) ->
  world_ok (AddObject p w).
Proof.
  intros Hp Hi. destruct HA as [A1 A2 A3 A4 A5 A6 A7 A8 A9 A10]. split; [|apply HW]. split; auto.
  intros q pl. cbn. intros [[<- <-]|[Hne Hq]]%lookup_insert_Some; [done|by apply A6].
Qed.
Lemma RemoveObject_ok p : world_ok (RemoveObject p w).
Proof.
  destruct HA as [A1 A2 A3 A4 A5 A6 A7 A8 A9 A10]. split; [|apply HW]. split; auto.
  intros q pl. cbn. intros [_ Hq]%lookup_delete_Some. by apply A6.
Qed.

(** The row a login reads says what the index says. *)
Lemma LoadGuild_player_ok p :
  0 < pl_guid p < 2 ^ 32 -> short (pl_name p) ->
  let row := option_map (fun r => (mr_guildid r, mr_rank r)) (t_guild_member (w_db w) !! GetCounter (pl_guid p)) in
  let p' := LoadGuild_player row w p in
  pl_guid p' = pl_guid p /\ pl_name p' = pl_name p /\ player_ok (pl_guid p) p'
  /\ (forall id, m_guid2guild w !! pl_guid p = Some id -> pl_guildId p' = id).
Proof.
  intros Hu Hn. rewrite counter_player by lia.
  destruct (t_guild_member (w_db w) !! pl_guid p) as [r|] eqn:Er; cbn [option_map].
  - pose proof (ag_rows_index _ _ _ _ _ _ HA _ _ Er) as Hi.
    destruct (ag_reg _ _ _ _ _ _ HA _ _ Hi) as [g Hg]. destruct (ag_id _ _ _ _ _ _ HA _ _ Hg) as [_ Hid].
    destruct (proj2 (ag_index _ _ _ _ _ _ HA _ _ _ Hg) Hi) as [m Hm].
    destruct (ag_rows _ _ _ _ _ _ HA _ _ _ _ Hg Hm) as (r' & Hr' & _ & Hrk). assert (r' = r) as -> by congruence.
    destruct (gb_keys _ (proj1 (proj2 HW _ _ Hg)) _ _ Hm) as (_ & _ & Hrank & _).
    pose proof (ag_ids _ _ _ _ _ _ HA).
    unfold LoadGuild_player. rewrite !wrap_small by (unfold is_u; lia). cbn [pl_guildId SetRank SetInGuild pl_set_guild].
    unfold truth. destruct (Z.eqb_spec (mr_guildid r) 0); [lia|]. cbn [negb]. unfold GetGuildById. rewrite Hg.
    unfold player_ok. cbn. split_and!; try done; [lia..|congruence].
  - assert (Hnone : m_guid2guild w !! pl_guid p = None).
    { apply eq_None_not_Some. intros [i Hi]. destruct (ag_reg _ _ _ _ _ _ HA _ _ Hi) as [g Hg].
      destruct (proj2 (ag_index _ _ _ _ _ _ HA _ _ _ Hg) Hi) as [m Hm].
      destruct (ag_rows _ _ _ _ _ _ HA _ _ _ _ Hg Hm) as (r & Hr & _). congruence. }
    cbn. unfold player_ok. cbn. split_and!; try done; [lia..|]. rewrite Hnone. done.
Qed.
End life.

Lemma wp_with_guild_logs X {A} id (m : GM A) g (Q : A -> World -> Prop) w :
  m_GuildMap w !! id = Some g -> logs_only m -> (forall a, Q a w) -> wp X (with_guild id m) Q w.
Proof.
  intros Hg Hm HQ log. unfold with_guild. cbn [fst snd]. rewrite Hg. specialize (Hm (g, w) (fun _ => False) log).
  destruct (m (g, w, log)) as [[a|e| | |] [[g' w'] log']]; try done. cbn in Hm. injection Hm as -> ->.
  cbn. rewrite Hg, insert_id by done. destruct w. apply HQ.
Qed.

Section steps.
Context (env : GuildEnv) (penv : PlayerEnv) (ienv : PetitionEnv) `{!EnvOk env}.
Implicit Types (w : World).

Ltac event_fits := apply (fits_event env); intros ? [?|[?|?]]; simplify_eq; unfold short in *; lia.

(** The cache of online members is not looked at. *)
Lemma cache_ok w id f :
  world_ok w -> (forall g, f g = set_onlineCache (m_onlineMemberCache (f g)) g) ->
  sound (let! guild := w_get (GetGuildById id) in
         match guild with Some _ => with_guild id (g_mod f) | None => st_ret tt end) w.
Proof.
  intros HW Hf. apply wp_bind, wp_w_get. unfold GetGuildById. destruct (m_GuildMap w !! id) as [g|] eqn:Eg; [|by apply wp_ret].
  eapply registered_ok; [done..|]. intros HL. wps. cbn [fst snd]. left. pose proof HL as [HG Hr]. split; [|done].
  assert (Hk : kept id (g, w) (f g, w)); [|apply Hk]. rewrite Hf. pose proof HG as [_ [[K1 K2 K3 K4] L]].
  by eapply kept_frame.
Qed.

Lemma login_guild_ok p w :
  world_ok w -> 0 < pl_guid p < 2 ^ 32 -> short (pl_name p) -> sound (login_guild env p) w.
Proof.
  intros HW Hu Hn. unfold login_guild. apply wp_bind, wp_w_get, wp_bind, wp_w_get.
  destruct (LoadGuild_player_ok w HW p Hu Hn) as (Eg & En & Hok & Hi).
  set (p' := LoadGuild_player _ w p) in *. apply wp_bind, wp_w_get.
  apply wp_bind. apply (wp_conseq _ _ (fun _ w' => w' = w)).
  - unfold GetGuildById. destruct (m_GuildMap w !! pl_guildId p') as [g|] eqn:Egd; [|by apply wp_ret].
    destruct (proj2 HW _ _ Egd) as [[_ _ (_ & Hm & _) _] _]. unfold short, slen in Hm.
    apply wp_bind, wp_logs.
    { unfold MotdPacket. eapply (logs_made_fits _ _ (1 + (1 + 2001))); [|done].
      apply fits_seq; [auto with packets|]. apply fits_seq; [auto with packets|].
      eapply fits_weaken; [apply fits_str|lia]. }
    intros d. apply wp_bind, wp_logs; [auto with logs|]. intros _. eapply wp_with_guild_logs; [done| |done].
    rewrite En. event_fits.
  - intros _ w' ->. apply wp_bind, wp_w_mod. apply cache_ok; [|done].
    apply AddObject_ok; [done|by rewrite Eg|by rewrite Eg].
Qed.

Lemma logout_guild_ok me mg w : world_ok w -> online me w -> sound (logout_guild env me mg) w.
Proof.
  intros HW [pl Hpl]. unfold logout_guild. apply wp_bind. eapply wp_GetPlayer; [done|].
  destruct (online_short me pl w HW Hpl) as (_ & Hu & _ & Hn).
  apply wp_bind, wp_w_get, wp_bind. eapply wp_conseq.
  - unfold GetGuildById. destruct (m_GuildMap w !! pl_guildId pl) as [g|] eqn:Eg;
      [|by apply (wp_ret _ _ (fun _ => world_ok))].
    eapply registered_ok; [done..|]. intros HL. apply wp_then; [done| |].
    + wps. cbn [fst]. destruct (GetMemberSlot me g) as [k|] eqn:Ek; [|wps; apply kept_refl, HL].
      apply GetMemberSlot_Some in Ek as [[m Hm] ->]. unfold on_slot. wps. cbn [fst snd].
      destruct HL as [HG _]. pose proof HG as [_ [[K _ _ _] _]]. destruct (K _ _ Hm) as (_ & _ & _ & K1 & K2 & K3).
      by eapply kept_slot.
    + intros _ c' HL' _. apply wp_quiet; [by apply live_ends|]. event_fits.
  - cbv beta. intros _ w' HW'. apply wp_bind, wp_w_mod. apply cache_ok; [by apply RemoveObject_ok|done].
Qed.

Lemma destroy_charter_ok pid w : world_ok w -> sound (destroy_charter pid) w.
Proof.
  intros HW. unfold destroy_charter. apply wp_bind, wp_w_get. destruct (GetPetitionById pid w) as [p|].
  - apply wp_w_mod. by apply DeletePetition_ok.
  - by apply wp_ret.
Qed.

Lemma DeleteFromDB_guild_ok k w : world_ok w -> 0 < k < 2 ^ 32 -> sound (DeleteFromDB_guild env k) w.
Proof.
  intros HW Hu. unfold DeleteFromDB_guild. rewrite (wrap_small 32 k) by (unfold is_u; lia).
  apply wp_bind. apply (wp_conseq _ _ (fun _ => world_ok)).
  - apply wp_bind, wp_w_get. unfold GetPlayerGuild. destruct (m_guid2guild w !! k) as [i|] eqn:Ei; [|by apply wp_ret].
    unfold GetGuildById. destruct (m_GuildMap w !! i) as [g|] eqn:Eg; [|by apply wp_ret].
    destruct (ag_id _ _ _ _ _ _ (proj1 HW) _ _ Eg) as [-> _]. eapply registered_ok; [done..|]. intros HL.
    apply remove_ends; [done|done|by split; auto|]. intros c' HL' _. by apply wp_ret, live_ends.
  - intros _ w1 HW1. apply wp_bind. apply (wp_conseq _ _ (fun _ => world_ok)).
    + apply wp_bind, wp_w_get. destruct (GetPetitionByOwnerGuid env k w1); [|by apply wp_ret].
      apply wp_w_mod. by apply DeletePetition_ok.
    + intros _ w2 HW2. apply wp_w_mod. by apply drop_signature_ok.
Qed.

(** The successor of a hardcore leader is a member and somebody else. *)
Lemma oldest_officer_Some low g log k :
  oldest_officer low g log = Some k -> exists m, members g !! k = Some m /\ ms_RankId m = GR_OFFICER.
Proof.
  induction log as [|e log IH]; cbn [oldest_officer]; [done|]. destruct (_ || _); [done|].
  destruct (GetMemberSlot _ g) as [k'|]; [|done]. destruct (members g !! k') as [m|] eqn:Em; [|done].
  destruct (Z.eqb_spec (ms_RankId m) GR_OFFICER); [|done]. intros [= <-]. by exists m.
Qed.
Lemma successor_spec prefer g n :
  keys_ok g -> leader_ok g -> (GetSuitableNewLeader env prefer g).1 = Some n ->
  (GetSuitableNewLeader env prefer g).2 = Some (m_LeaderGuid g)
  /\ is_Some (members g !! n) /\ n <> m_LeaderGuid g.
Proof.
  intros Hk Hl. destruct (suitable_spec env g Hk Hl) as [Ho Hb]. revert Ho Hb. unfold GetSuitableNewLeader.
  destruct (scan_leader _ _ _ _ _) as [n' o]. cbn [fst snd]. intros -> Hb.
  assert (Hscan : n' = Some n -> is_Some (members g !! n) /\ n <> m_LeaderGuid g).
  { intros ->. destruct Hb as [[Hne Hin]%list_elem_of_filter _]. split; [by apply (elem_of_member_order env)|done]. }
  destruct prefer; [|cbn; tauto]. destruct (oldest_officer _ _ _) as [k|] eqn:Eo; [|cbn; tauto].
  cbn [fst snd]. intros [= <-]. apply oldest_officer_Some in Eo as (m & Hm & Hr). split_and!; [done|by exists m|].
  intros ->. destruct Hl as [(ml & Hml & Hrl) _]. unfold GR_OFFICER, GR_GUILDMASTER in *. congruence.
Qed.
Lemma hardcore_leader_death_ok me w : world_ok w -> online me w -> sound (hardcore_leader_death env me) w.
Proof.
  intros HW [pl Hpl]. unfold hardcore_leader_death. apply wp_bind. eapply wp_GetPlayer; [done|].
  apply wp_bind, wp_w_get. unfold GetGuildById. destruct (m_GuildMap w !! pl_guildId pl) as [g|] eqn:Eg; [|by apply wp_ret].
  destruct (_ =? me); [|by apply wp_ret]. eapply registered_ok; [done..|]. intros HL. wps. cbn [fst].
  destruct (GetSuitableNewLeader env true g).1 as [n|] eqn:En; [|by apply wp_ret, live_ends].
  pose proof HL as [[_ [[K _ _ _] L]] _]. destruct (successor_spec true g n K L En) as (-> & [mn Hn] & Hne).
  apply wp_kept_ends; [done|]. by eapply handover_kept; [by apply EnvOk0|apply HL|..].
Qed.

(** ** Commands *)

Lemma HandleGuildCreateCommand_ok me target locale name w :
  world_ok w -> online target w -> m_GuildIds w + 1 < 2 ^ 32 -> slen name <= 100000 ->
  sound (HandleGuildCreateCommand env me target locale name) w.
Proof.
  intros HW Ho Hid Hn. unfold HandleGuildCreateCommand. pose proof Ho as [pl Hpl].
  apply wp_bind. eapply wp_GetPlayer; [done|]. destruct (truth _).
  { apply wp_bind, wp_logs; [auto with logs|]. intros _. by apply wp_ret. }
  apply wp_bind, wp_with_new. eapply wp_conseq; [by apply Create_ok|].
  intros [|] c Hc; cbn [fst snd negb].
  - apply wp_bind. eapply wp_conseq; [apply AddGuild_ok; destruct c; apply Hc|]. intros _ w' [? _]. by apply wp_ret.
  - apply wp_quiet_world; [done|]. unfold sys_message. auto with logs.
Qed.

Lemma HandleGuildUninviteCommand_ok me target k w :
  world_ok w -> 0 < k < 2 ^ 32 -> sound (HandleGuildUninviteCommand env me target k) w.
Proof.
  intros HW Hu. unfold HandleGuildUninviteCommand. apply wp_bind, wp_w_get. set (id := target_guild_id target k w).
  destruct (truth _) eqn:Et; cbn [negb]; [|by apply wp_ret]. apply wp_bind, wp_w_get. unfold GetGuildById.
  destruct (m_GuildMap w !! id) as [g|] eqn:Eg; [|apply wp_quiet_world; [done|unfold sys_message; auto with logs]].
  apply wp_bind. apply (wp_conseq _ _ (fun _ => world_ok)); [|intros _ w' HW'; by apply wp_ret].
  eapply registered_ok; [done..|]. intros HL. apply remove_ends; [done|done| |intros c' HL' _; by apply wp_ret, live_ends].
  split; [done|]. cbn [snd]. destruct (m_guid2guild w !! k) as [i|] eqn:Ei; [left|by right]. f_equal. unfold id, target_guild_id in *.
  destruct target.
  - destruct (w_players w !! k) as [pl|] eqn:Ep; [|done]. symmetry. by apply (ag_players _ _ _ _ _ _ (proj1 HW) k pl Ep).
  - unfold GetGuildIdFromDB in *. rewrite counter_player in * by lia.
    destruct (t_guild_member (w_db w) !! k) as [r|] eqn:Er; [|done].
    apply (ag_rows_index _ _ _ _ _ _ (proj1 HW)) in Er. congruence.
Qed.

Lemma HandleGuildDeleteCommand_ok me name w : world_ok w -> sound (HandleGuildDeleteCommand env me name) w.
Proof.
  intros HW. unfold HandleGuildDeleteCommand. apply wp_bind, wp_w_get.
  destruct (GetGuildByName env name w) as [g|] eqn:Eg; [|apply wp_quiet_world; [done|unfold sys_message; auto with logs]].
  apply (GetGuildByName_Some env) in Eg as (id & Hg & _). destruct (ag_id _ _ _ _ _ _ (proj1 HW) _ _ Hg) as [-> _].
  apply wp_bind. apply (wp_conseq _ _ (fun _ => world_ok)); [|intros _ w' HW'; by apply wp_ret].
  eapply registered_ok; [done..|]. intros [[HF [[K _ _ _] _]] _]. by apply Disband_ends.
Qed.

(** A guild takes a free name. *)
Lemma agree_rename G idx rows pls pts ids id g name :
  (forall id1 g1, G !! id1 = Some g1 -> m_Name g1 <> name) ->
  agree (<[id := g]> G) idx rows pls pts ids -> agree (<[id := set_Name name g]> G) idx rows pls pts ids.
Proof.
  intros Hn [A1 A2 A3 A4 A5 A6 A7 A8 A9 A10].
  assert (Hback : forall id1 g1, <[id := set_Name name g]> G !! id1 = Some g1 ->
    exists g2, <[id := g]> G !! id1 = Some g2 /\ m_Id g1 = m_Id g2 /\ members g1 = members g2).
  { intros id1 g1 [[<- <-]|[Hne Hl]]%lookup_insert_Some; [exists g; by rewrite lookup_insert_eq|].
    exists g1. by rewrite lookup_insert_ne. }
  split; auto.
  - intros id1 g1 (g2 & Hg2 & -> & _)%Hback. by apply A1.
  - intros id1 g1 k (g2 & Hg2 & _ & ->)%Hback. by apply A2.
  - intros k id1 Hk%A3. rewrite lookup_insert_is_Some' in *. tauto.
  - intros id1 g1 k m (g2 & Hg2 & _ & ->)%Hback. by apply A4.
  - intros id1 g1 id2 g2 [[<- <-]|[Hne1 H1]]%lookup_insert_Some [[<- <-]|[Hne2 H2]]%lookup_insert_Some He; [done|..].
    + exfalso. by eapply Hn.
    + exfalso. by eapply Hn.
    + apply (A8 id1 g1 id2 g2); [by rewrite lookup_insert_ne..|done].
Qed.
Lemma HandleGuildRenameCommand_ok me old new w :
  world_ok w -> slen new <= 100000 -> sound (HandleGuildRenameCommand env me old new) w.
Proof.
  intros HW Hn. unfold HandleGuildRenameCommand. apply wp_bind, wp_w_get.
  destruct (GetGuildByName env old w) as [g|] eqn:Eg; [|apply wp_quiet_world; [done|unfold sys_message; auto with logs]].
  apply (GetGuildByName_Some env) in Eg as (id & Hg & _). destruct (ag_id _ _ _ _ _ _ (proj1 HW) _ _ Hg) as [-> _].
  apply wp_bind, wp_w_get. destruct (GetGuildByName env new w) eqn:Ex; [apply wp_quiet_world; auto with logs|].
  pose proof (GetGuildByName_None env new w Ex) as Hfree.
  apply wp_bind. apply (wp_conseq _ _ (fun _ => world_ok)); [|intros _ w' HW'; apply wp_quiet_world; [done|auto with logs]].
  eapply registered_ok; [done..|]. intros [[[F1 F2 F3] [[K1 K2 (K3 & K3' & K3'') K4] L]] Hr].
  unfold Rename. wps. cbn [fst snd] in *. left. split; [|done]. split; [|by split]. split; cbn [fst snd]; [done| |done].
  by apply agree_rename.
Qed.

Lemma HandleGuildLeaderCommand_ok me target k nm w : world_ok w -> sound (HandleGuildLeaderCommand env me target k nm) w.
Proof.
  intros HW. unfold HandleGuildLeaderCommand. apply wp_bind, wp_w_get.
  destruct (if target then _ else _) as [g|] eqn:Eg; [|apply wp_quiet_world; auto with logs].
  assert (exists id, m_GuildMap w !! id = Some g) as [id Hg].
  { destruct target; [destruct (w_players w !! k); [by eexists|done]|].
    unfold GetPlayerGuild in Eg. destruct (m_guid2guild w !! GetCounter k); [by eexists|done]. }
  destruct (ag_id _ _ _ _ _ _ (proj1 HW) _ _ Hg) as [-> _]. destruct (_ =? k); [apply wp_quiet_world; auto with logs|].
  apply wp_bind. apply (wp_conseq _ _ (fun _ => world_ok)); [|intros _ w' HW'; apply wp_quiet_world; [done|auto with logs]].
  eapply registered_ok; [done..|]. intros HL. unfold SetNewLeader. wps. cbn [fst].
  destruct (GetMemberSlot k g) as [n|] eqn:En; [|by apply wp_ret, live_ends].
  destruct (GetMemberSlot (m_LeaderGuid g) g) as [o|] eqn:Eo; [|by apply wp_ret, live_ends].
  apply GetMemberSlot_Some in En as [[mn Hmn] _]. apply GetMemberSlot_Some in Eo as [_ Ho].
  assert (o = m_LeaderGuid g) as ->.
  { pose proof HL as [[_ [[K _ _ _] [(ml & Hml & _) _]]] _]. cbn [fst] in *. rewrite Ho. apply counter_player.
    destruct (K _ _ Hml) as (_ & ? & _). lia. }
  destruct (Z.eqb_spec n (m_LeaderGuid g)); [by apply wp_ret, live_ends|].
  apply wp_kept_ends; [done|]. by eapply handover_kept; [done|apply HL|..].
Qed.

Lemma HandleGuildListenCommand_ok me name w : world_ok w -> sound (HandleGuildListenCommand env me name) w.
Proof.
  intros HW. unfold HandleGuildListenCommand. apply wp_bind, wp_w_get.
  destruct (GetGuildByName env name w) as [g|] eqn:Eg; [|apply wp_quiet_world; [done|unfold sys_message; auto with logs]].
  apply (GetGuildByName_Some env) in Eg as (id & Hg & _). destruct (ag_id _ _ _ _ _ _ (proj1 HW) _ _ Hg) as [-> _].
  eapply registered_ok; [done..|]. intros HL. wps. cbn [fst snd]. left. destruct HL as [HG Hr]. split; [|done].
  assert (Hk : kept id (g, w) ((AddGMListener me g).2, w)); [|apply Hk]. unfold AddGMListener.
  case_bool_decide; cbn [snd]; [by apply kept_refl|]. pose proof HG as [_ [[K1 K2 K3 K4] L]]. by eapply kept_frame.
Qed.
End steps.
