(* ===== verification/GuildProps.v ===== *)
(** * GuildProps: what the guild server promises, and where it does not

    Histories of requests, the authority of ranks, succession, and the
    behaviours that fall short: deleted ranks, players between maps, game
    masters' invitations, notes, signatures. *)

From stdpp Require Import gmap fin_maps strings relations.
From S2P Require Import Prelude ByteBuffer Codec ObjectGuid Packets Effects Incoming Social GuildData Guild GuildRoster.
From S2P Require Import GuildHandlers GuildPetitions GuildInv GuildKeep GuildSteps GuildOps GuildFound GuildLife.

Local Open Scope prog_scope.

(** ** Histories *)

(** The opcodes of [GuildHandler.cpp] and [PetitionsHandler.cpp]. *)
Inductive opcode :=
| CMSG_GUILD_QUERY | CMSG_GUILD_CREATE | CMSG_GUILD_INVITE | CMSG_GUILD_ACCEPT | CMSG_GUILD_DECLINE
| CMSG_GUILD_INFO | CMSG_GUILD_ROSTER | CMSG_GUILD_PROMOTE | CMSG_GUILD_DEMOTE | CMSG_GUILD_LEAVE
| CMSG_GUILD_REMOVE | CMSG_GUILD_DISBAND | CMSG_GUILD_LEADER | CMSG_GUILD_MOTD | CMSG_GUILD_RANK
| CMSG_GUILD_ADD_RANK | CMSG_GUILD_DEL_RANK | CMSG_GUILD_SET_PUBLIC_NOTE | CMSG_GUILD_SET_OFFICER_NOTE
| CMSG_GUILD_INFO_TEXT | CMSG_SAVE_GUILD_EMBLEM
| CMSG_PETITION_SHOWLIST | CMSG_PETITION_BUY | CMSG_PETITION_SHOW_SIGNATURES | CMSG_PETITION_SIGN
| CMSG_PETITION_DECLINE | CMSG_OFFER_PETITION | CMSG_TURN_IN_PETITION | CMSG_PETITION_QUERY
| CMSG_PETITION_RENAME.

(** What can happen to guilds: requests of a player's session, players that log
    in, change maps and log out, characters that are deleted, and the commands
    of game masters ([invite] and [rank] apart). *)
Inductive request :=
| Client (o : opcode) (me locale : Z) (b : ByteBuffer)
| Login (p : Player)
| Logout (me masterGuild : Z)
| Travel (me : Z) (inWorld : bool)
| DeleteCharacter (guid : Z)
| HardcoreDeath (me : Z)
| DestroyCharter (petitionId : Z)
| CmdCreate (me target locale : Z) (name : string)
| CmdUninvite (me : Z) (target : bool) (guid : Z)
| CmdDelete (me : Z) (name : string)
| CmdRename (me : Z) (old new : string)
| CmdLeader (me : Z) (target : bool) (guid : Z) (name : string)
| CmdListen (me : Z) (name : string).

Section histories.
Context (env : GuildEnv) (penv : PlayerEnv) (ienv : PetitionEnv).

Definition serve (o : opcode) (me locale : Z) (b : ByteBuffer) : WM unit :=
  match o with
  | CMSG_GUILD_QUERY => HandleGuildQueryOpcode me b
  | CMSG_GUILD_CREATE => HandleGuildCreateOpcode env me locale b
  | CMSG_GUILD_INVITE => HandleGuildInviteOpcode env me b
  | CMSG_GUILD_ACCEPT => HandleGuildAcceptOpcode env me
  | CMSG_GUILD_DECLINE => HandleGuildDeclineOpcode me
  | CMSG_GUILD_INFO => HandleGuildInfoOpcode me
  | CMSG_GUILD_ROSTER => HandleGuildRosterOpcode env me
  | CMSG_GUILD_PROMOTE => HandleGuildPromoteOpcode env me b
  | CMSG_GUILD_DEMOTE => HandleGuildDemoteOpcode env me b
  | CMSG_GUILD_LEAVE => HandleGuildLeaveOpcode env me
  | CMSG_GUILD_REMOVE => HandleGuildRemoveOpcode env me b
  | CMSG_GUILD_DISBAND => HandleGuildDisbandOpcode env me
  | CMSG_GUILD_LEADER => HandleGuildLeaderOpcode env me b
  | CMSG_GUILD_MOTD => HandleGuildMOTDOpcode env me b
  | CMSG_GUILD_RANK => HandleGuildRankOpcode env me b
  | CMSG_GUILD_ADD_RANK => HandleGuildAddRankOpcode env me b
  | CMSG_GUILD_DEL_RANK => HandleGuildDelRankOpcode env me
  | CMSG_GUILD_SET_PUBLIC_NOTE => HandleGuildSetPublicNoteOpcode env me b
  | CMSG_GUILD_SET_OFFICER_NOTE => HandleGuildSetOfficerNoteOpcode env me b
  | CMSG_GUILD_INFO_TEXT => HandleGuildChangeInfoTextOpcode env me b
  | CMSG_SAVE_GUILD_EMBLEM => HandleSaveGuildEmblemOpcode penv me b
  | CMSG_PETITION_SHOWLIST => HandlePetitionShowListOpcode penv me b
  | CMSG_PETITION_BUY => HandlePetitionBuyOpcode env penv ienv me b
  | CMSG_PETITION_SHOW_SIGNATURES => HandlePetitionShowSignOpcode ienv me b
  | CMSG_PETITION_SIGN => HandlePetitionSignOpcode env me b
  | CMSG_PETITION_DECLINE => HandlePetitionDeclineOpcode env me b
  | CMSG_OFFER_PETITION => HandleOfferPetitionOpcode env ienv me b
  | CMSG_TURN_IN_PETITION => HandleTurnInPetitionOpcode env ienv me locale b
  | CMSG_PETITION_QUERY => HandlePetitionQueryOpcode me b
  | CMSG_PETITION_RENAME => HandlePetitionRenameOpcode env ienv me b
  end.

Definition run (r : request) : WM unit :=
  match r with
  | Client o me locale b => serve o me locale b
  | Login p => login_guild env p
  | Logout me mg => logout_guild env me mg
  | Travel me inWorld => w_mod (w_on_player me (SetInWorld inWorld))
  | DeleteCharacter k => DeleteFromDB_guild env k
  | HardcoreDeath me => hardcore_leader_death env me
  | DestroyCharter pid => destroy_charter pid
  | CmdCreate me target locale name => HandleGuildCreateCommand env me target locale name ;;; st_ret tt
  | CmdUninvite me target k => HandleGuildUninviteCommand env me target k ;;; st_ret tt
  | CmdDelete me name => HandleGuildDeleteCommand env me name ;;; st_ret tt
  | CmdRename me old new => HandleGuildRenameCommand env me old new ;;; st_ret tt
  | CmdLeader me target k name => HandleGuildLeaderCommand env me target k name ;;; st_ret tt
  | CmdListen me name => HandleGuildListenCommand env me name ;;; st_ret tt
  end.

(** A session has its player, a packet arrived, guids are those of players,
    and guild ids are not used up. *)
Definition allowed (r : request) (w : World) : Prop :=
  match r with
  | Client o me _ b => online me w /\ arrived b /\ m_GuildIds w + 1 < 2 ^ 32
  | Login p => 0 < pl_guid p < 2 ^ 32 /\ short (pl_name p)
  | Logout me _ | HardcoreDeath me => online me w
  | Travel _ _ | DestroyCharter _ | CmdDelete _ _ | CmdLeader _ _ _ _ | CmdListen _ _ => True
  | DeleteCharacter k | CmdUninvite _ _ k => 0 < k < 2 ^ 32
  | CmdCreate _ target _ name => online target w /\ m_GuildIds w + 1 < 2 ^ 32 /\ slen name <= 100000
  | CmdRename _ _ new => slen new <= 100000
  end.

(** A request is served, whatever the outcome. *)
Inductive step : World -> World -> Prop :=
| step_run r w log out w' log' : allowed r w -> run r (w, log) = (out, (w', log')) -> step w w'.

Context `{!EnvOk env}.

Lemma serve_ok o me locale b w :
  world_ok w -> online me w -> arrived b -> m_GuildIds w + 1 < 2 ^ 32 -> sound (serve o me locale b) w.
Proof.
  intros HW Ho Hb Hid. destruct o; cbn [serve].
  - by apply HandleGuildQueryOpcode_ok.
  - by apply HandleGuildCreateOpcode_ok.
  - by apply HandleGuildInviteOpcode_ok.
  - by apply HandleGuildAcceptOpcode_ok.
  - by apply HandleGuildDeclineOpcode_ok.
  - by apply HandleGuildInfoOpcode_ok.
  - by apply HandleGuildRosterOpcode_ok.
  - by apply HandleGuildPromoteOpcode_ok.
  - by apply HandleGuildDemoteOpcode_ok.
  - by apply HandleGuildLeaveOpcode_ok.
  - by apply HandleGuildRemoveOpcode_ok.
  - by apply HandleGuildDisbandOpcode_ok.
  - by apply HandleGuildLeaderOpcode_ok.
  - by apply HandleGuildMOTDOpcode_ok.
  - by apply HandleGuildRankOpcode_ok.
  - by apply HandleGuildAddRankOpcode_ok.
  - by apply HandleGuildDelRankOpcode_ok.
  - by apply HandleGuildSetPublicNoteOpcode_ok.
  - by apply HandleGuildSetOfficerNoteOpcode_ok.
  - by apply HandleGuildChangeInfoTextOpcode_ok.
  - by apply HandleSaveGuildEmblemOpcode_ok.
  - by apply HandlePetitionShowListOpcode_ok.
  - by apply HandlePetitionBuyOpcode_ok.
  - by apply HandlePetitionShowSignOpcode_ok.
  - by apply HandlePetitionSignOpcode_ok.
  - by apply HandlePetitionDeclineOpcode_ok.
  - by apply HandleOfferPetitionOpcode_ok.
  - by apply HandleTurnInPetitionOpcode_ok.
  - by apply HandlePetitionQueryOpcode_ok.
  - by apply HandlePetitionRenameOpcode_ok.
Qed.

Lemma sound_unit {A} (m : WM A) w : sound m w -> sound (m ;;; st_ret tt) w.
Proof. intros Hm. apply wp_bind. eapply wp_conseq; [exact Hm|]. intros a w' Hw. by apply wp_ret. Qed.

Lemma run_ok r w : world_ok w -> allowed r w -> sound (run r) w.
Proof.
  intros HW. destruct r; cbn [run allowed]; intros Ha; try apply sound_unit.
  - destruct Ha as (? & ? & ?). by apply serve_ok.
  - destruct Ha. by apply login_guild_ok.
  - by apply logout_guild_ok.
  - apply wp_w_mod. by apply world_player.
  - by apply DeleteFromDB_guild_ok.
  - by apply hardcore_leader_death_ok.
  - by apply destroy_charter_ok.
  - destruct Ha as (? & ? & ?). by apply HandleGuildCreateCommand_ok.
  - by apply HandleGuildUninviteCommand_ok.
  - by apply HandleGuildDeleteCommand_ok.
  - by apply HandleGuildRenameCommand_ok.
  - by apply HandleGuildLeaderCommand_ok.
  - by apply HandleGuildListenCommand_ok.
Qed.

Lemma world_new_ok : world_ok World_new.
Proof.
  assert (He : forall {V} k (v : V), (∅ : gmap Z V) !! k = Some v -> False) by (intros V k v; by rewrite lookup_empty).
  split; [split|]; cbn; try (intros; exfalso; eauto; fail); [done|].
  split; intros; exfalso; eauto.
Qed.

Lemma history_ok w : rtc step World_new w -> world_ok w.
Proof.
  apply (rtc_ind_r world_ok); [apply world_new_ok|].
  intros w1 w2 _ [r w0 log out w' log' Ha Hr] HW. pose proof (run_ok r w0 HW Ha log) as Hs.
  rewrite Hr in Hs. by destruct out.
Qed.
End histories.

(** ** A sample server *)

(** Quotes are escaped with a backslash. *)
Fixpoint sample_escape (s : string) : string :=
  match s with
  | EmptyString => EmptyString
  | String c s' =>
      if Ascii.eqb c (Ascii.ascii_of_N 39)
      then String (Ascii.ascii_of_N 92) (String c (sample_escape s')) else String c (sample_escape s')
  end.
Fixpoint sample_literal (s : string) : string :=
  match s with
  | EmptyString => EmptyString
  | String c s' =>
      if Ascii.eqb c (Ascii.ascii_of_N 92)
      then match s' with String c' s'' => String c' (sample_literal s'') | EmptyString => EmptyString end
      else String c (sample_literal s')
  end.
Definition sample_env : GuildEnv :=
  mkGE (fun m => (map_to_list m).*1) (fun m => (map_to_list m).*1) (fun m => (map_to_list m).*1)
    elements elements (fun l => l) 1000 (fun _ => (1, 0, 120)) (fun _ _ => "rank"%string)
    (fun _ => Some (mkPCD 60 7 1 12 "Cid"%string)) (fun _ => 0) (fun _ => 0) (fun _ => None)
    sample_escape sample_literal (fun s n _ => (slen s <=? n, s)) (fun _ _ r => r) 100 true 9.
Definition sample_penv : PlayerEnv := mkPE (fun _ _ _ => true) (fun _ => false) (fun _ d => d).
Definition sample_ienv : PetitionEnv :=
  mkPtE (fun _ _ => None) (fun _ => []) (fun _ => true) (fun _ => false) (fun _ => true) (fun _ => Some 1)
    (fun _ _ _ => 0) (fun _ _ => Some 77).

Lemma sample_escape_length s : slen (sample_escape s) <= 2 * slen s.
Proof.
  unfold slen. induction s as [|c s IH]; [done|]. simpl sample_escape. destruct (Ascii.eqb _ _); simpl String.length; lia.
Qed.
#[global] Instance sample_ok : EnvOk sample_env.
Proof.
  split; try done.
  - intros k d [= <-]. split; [cbn; lia|done].
  - apply sample_escape_length.
  - intros s n c. cbn [normalizePlayerName sample_env fst snd]. split; [unfold slen; lia|]. unfold slen. lia.
Qed.

Definition sample_player (guid : Z) (name : string) : Player :=
  mkPlayer guid name 60 1 12 guid 0 true 0 0 0 false 1000000 (mkPS guid ∅).
Definition sample_packet (l : list string) : ByteBuffer :=
  let bytes := concat ((fun s => bytes_of_string s ++ [0]) <$> l) in
  mkBB 0 (Z.of_nat (length bytes)) bytes.
Lemma sample_arrived l : Z.of_nat (length (_storage (sample_packet l))) <= 65535 -> arrived (sample_packet l).
Proof.
  intros Hl. assert (Hb : Forall (is_u 8) (_storage (sample_packet l))).
  { unfold sample_packet. cbn [_storage]. clear Hl. induction l as [|s l IH]; [constructor|].
    rewrite fmap_cons. cbn [concat]. rewrite !Forall_app. split_and!; [apply bytes_of_string_u8| |done].
    constructor; [unfold is_u; lia|constructor]. }
  split; [|exact Hl]. unfold sample_packet in *. cbn [_storage] in *. split; unfold size; cbn [_rpos _wpos _storage]; try lia. done.
Qed.

(** Requests one after the other. *)
Fixpoint play (rs : list request) (w : World) : World :=
  match rs with
  | [] => w
  | r :: rs' => play rs' (run sample_env sample_penv sample_ienv r (w, [])).2.1
  end.
Fixpoint playable_all (rs : list request) (w : World) : Prop :=
  match rs with
  | [] => True
  | r :: rs' => allowed r w /\ playable_all rs' (run sample_env sample_penv sample_ienv r (w, [])).2.1
  end.
Lemma play_rtc rs : forall w, playable_all rs w -> rtc (step sample_env sample_penv sample_ienv) w (play rs w).
Proof.
  induction rs as [|r rs IH]; intros w; cbn [play playable_all]; [done|]. intros [Ha Hr].
  eapply rtc_l; [|by apply IH].
  destruct (run sample_env sample_penv sample_ienv r (w, [])) as [out [w' log']] eqn:E. by econstructor.
Qed.


(** Ann founds a guild, Bob is invited, accepts, is promoted, becomes the
    leader; Ann leaves. *)
Definition ask (o : opcode) (me : Z) (l : list string) : request := Client o me 0 (sample_packet l).
Definition sample_history : list request :=
  [Login (sample_player 1 "Ann"); Login (sample_player 2 "Bob");
   ask CMSG_GUILD_CREATE 1 ["Wolves"%string]; ask CMSG_GUILD_INVITE 1 ["Bob"%string]; ask CMSG_GUILD_ACCEPT 2 [];
   ask CMSG_GUILD_PROMOTE 1 ["Bob"%string]; ask CMSG_GUILD_LEADER 1 ["Bob"%string]; ask CMSG_GUILD_LEAVE 1 []].

(** Every request of a sample history is allowed when it comes. *)
Ltac sample_requests :=
  cbn [playable_all allowed take app sample_history ask];
  repeat match goal with |- _ /\ _ => split end; try done;
  try (apply sample_arrived; vm_compute; discriminate);
  try (unfold online; eexists; vm_compute; reflexivity); vm_compute; congruence.


(** Ann leads, Bob is a member. *)
Definition sample_world : World := play (take 5 sample_history) World_new.
Definition sample_guild : Guild := match m_GuildMap sample_world !! 1 with Some g => g | None => Guild_new end.

Lemma sample_world_ok : world_ok sample_world.
Proof.
  apply (history_ok sample_env sample_penv sample_ienv), play_rtc.
  sample_requests.
Qed.
Lemma sample_registered : m_GuildMap sample_world !! 1 = Some sample_guild.
Proof. unfold sample_guild. destruct (m_GuildMap sample_world !! 1) eqn:E; [done|]. by vm_compute in E. Qed.
Lemma sample_good : good 1 (sample_guild, sample_world).
Proof. apply good_registered; [apply sample_world_ok|apply sample_registered]. Qed.
Lemma sample_online me : me ∈ [1; 2] -> online me sample_world.
Proof.
  intros Hm. assert (me = 1 \/ me = 2) as [-> | ->] by set_solver; unfold online; eexists; vm_compute; reflexivity.
Qed.

Lemma roster_bounded_witness :
  Z.of_nat (length (roster_payload sample_env true sample_guild sample_world)) <= MAX_UNCOMPRESSED_PACKET_SIZE
  /\ length (roster_members sample_env true sample_guild sample_world) = 2%nat.
Proof.
  split; [|by vm_compute].
  apply (roster_bounded sample_env true sample_guild sample_world); [done| |vm_compute; reflexivity].
  split; [vm_compute; congruence..|]. intros i Hi.
  assert (Hall : Forall (fun i => slen (ms_Name (tm_Slot i)) <= 12 /\ slen (ms_PublicNote (tm_Slot i)) <= GUILD_NOTE_MAX_LENGTH
    /\ slen (ms_OfficerNote (tm_Slot i)) <= GUILD_NOTE_MAX_LENGTH
    /\ slen (from_option pl_name EmptyString (tm_Member i)) <= 12)
    (member_infos sample_env sample_guild sample_world)).
  { apply (bool_decide_unpack _). vm_compute. exact I. }
  rewrite Forall_forall in Hall. destruct (Hall i Hi) as (? & ? & ? & Hp). split_and!; [done..|].
  intros p Hm. by rewrite Hm in Hp.
Defined.
