(* ===== verification/GuildAuthority.v ===== *)
(** * GuildAuthority: who may do what to whom

    Promotion, demotion and removal respect the ranks; the leadership passes to
    a member of the lowest rank id; loading repairs the leadership. *)

From stdpp Require Import gmap fin_maps strings.
From S2P Require Import Prelude ByteBuffer Codec ObjectGuid Packets Effects Incoming Social GuildData Guild GuildRoster.
From S2P Require Import GuildHandlers GuildPetitions GuildInv GuildKeep GuildSteps GuildOps GuildFound GuildLife GuildProps.

Local Open Scope prog_scope.

(** The world after the code of the guild [id] ended in [c]. *)
Definition back (id : Z) (c : Guild * World) : World :=
  w_set_guilds (match m_GuildMap c.2 !! id with
                | Some _ => <[id := c.1]> (m_GuildMap c.2)
                | None => m_GuildMap c.2
                end) c.2.

Lemma back_same id g w : m_GuildMap w !! id = Some g -> back id (g, w) = w.
Proof. intros Hg. unfold back. cbn. rewrite Hg, insert_id by done. by destruct w. Qed.

Lemma wp_with_guild_back {A} X (Q : A -> World -> Prop) id (m : GM A) g w :
  m_GuildMap w !! id = Some g -> wp (fun c => X (back id c)) m (fun a c => Q a (back id c)) (g, w) ->
  wp X (with_guild id m) Q w.
Proof.
  intros Hg Hm log. unfold with_guild. cbn [fst snd]. rewrite Hg. specialize (Hm log).
  by destruct (m (g, w, log)) as [[a|e| | |] [[g' w'] log']].
Qed.

Section walk.
Context (env : GuildEnv) `{!EnvOk env} (me : Z) (Q : World -> Prop).

Lemma in_guild_walk k w pl :
  Q w -> w_players w !! me = Some pl ->
  (forall g, m_GuildMap w !! pl_guildId pl = Some g ->
     wp (fun c => Q (back (pl_guildId pl) c)) k (fun _ c => Q (back (pl_guildId pl) c)) (g, w)) ->
  wp Q (in_guild me k) (fun _ => Q) w.
Proof.
  intros HQ Hpl Hk. unfold in_guild. apply wp_bind. eapply wp_GetPlayer; [done|].
  apply wp_bind, wp_w_get. unfold GetGuildById. destruct (m_GuildMap w !! pl_guildId pl) as [g|] eqn:Eg.
  - eapply wp_with_guild_back; [done|]. by apply Hk.
  - apply wp_logs; [|done]. auto with logs.
Qed.
Lemma normalized_walk s n b k w :
  Q w -> (forall t, slen t <= 4 * n -> wp Q (k t) (fun _ => Q) w) -> wp Q (normalized env s n b k) (fun _ => Q) w.
Proof.
  intros HW Hk. unfold normalized. destruct (env_normalize s n b) as [_ Hn].
  destruct (normalizePlayerName env s n b) as [[|] t]; [by apply Hk, Hn|]. by apply wp_ret.
Qed.
End walk.

Section walk_guild.
Context (env : GuildEnv) `{!EnvOk env} (me : Z) (P : Guild * World -> Prop).

Lemma require_right_walk right cmd k c pl :
  P c -> w_players c.2 !! me = Some pl ->
  (HasRankRight (pl_rank pl) right c.1 = true -> wp P k (fun _ => P) c) ->
  wp P (require_right me right cmd k) (fun _ => P) c.
Proof.
  intros HP Hpl Hk. unfold require_right. apply wp_bind. eapply wp_g_GetPlayer; [done|].
  wps. destruct (HasRankRight _ _ _); cbn [negb]; [auto|]. apply wp_logs; auto with logs.
Qed.
Lemma require_slot_walk name k c :
  P c -> slen name <= 1000000 -> keys_ok c.1 ->
  (forall key m, members c.1 !! key = Some m -> ms_guid m = key -> wp P (k key m) (fun _ => P) c) ->
  wp P (require_slot env me name k) (fun _ => P) c.
Proof.
  intros HP Hn HK Hk. unfold require_slot. wps. destruct (GetMemberSlot_name env name c.1) as [key|] eqn:E.
  - apply slot_named_Some in E as (m & Hm & _). apply wp_bind. eapply wp_slot_at; [done|]. apply Hk; [done|].
    by apply (HK key m).
  - apply wp_logs; auto with logs.
Qed.
End walk_guild.

(** ** Ranks of others *)

(** From [w] to [w'], the guilds are the same and have the same members, and a
    member's slot is as it was or has another rank: that of another than [me],
    changed by [d], both ranks being below that of [me], who is in the guild
    and has the right to. *)
Definition rank_moves (me right d : Z) (w w' : World) : Prop :=
  dom (m_GuildMap w') = dom (m_GuildMap w) /\
  forall id g g', m_GuildMap w !! id = Some g -> m_GuildMap w' !! id = Some g' ->
    dom (members g') = dom (members g) /\
    forall k m m', members g !! k = Some m -> members g' !! k = Some m' ->
      m' = m
      \/ (k <> me /\ m' = ms_set_RankId (ms_RankId m + d) m
          /\ exists pl, w_players w !! me = Some pl /\ pl_guildId pl = id
               /\ HasRankRight (pl_rank pl) right g = true
               /\ pl_rank pl < ms_RankId m /\ pl_rank pl < ms_RankId m + d).

Lemma rank_moves_refl me right d w : rank_moves me right d w w.
Proof. split; [done|]. intros id g g' Hg Hg'. assert (g' = g) as -> by congruence. split; [done|]. intros k m m' Hm Hm'. left. congruence. Qed.

(** The log of a guild is written, its members stay. *)
Lemma LogGuildEvent_members env `{!EnvOk env} X t p1 p2 r c :
  wp X (LogGuildEvent env t p1 p2 r)
    (fun _ c' => (members c'.1 = members c.1 /\ m_Ranks c'.1 = m_Ranks c.1) /\ m_GuildMap c'.2 = m_GuildMap c.2 /\ w_players c'.2 = w_players c.2) c.
Proof.
  unfold LogGuildEvent. pose proof env_log_count. destruct (Z.eqb_spec (CONFIG_GUILD_EVENT_LOG_COUNT env) 0); [lia|].
  by wps.
Qed.

(** One rank changed. *)
Lemma rank_moves_ranked me right d id g w g' w' pl k m :
  m_GuildMap w !! id = Some g -> m_GuildMap w' = m_GuildMap w ->
  members g' = members (ranked k (ms_RankId m + d) g) -> members g !! k = Some m ->
  w_players w !! me = Some pl -> pl_guildId pl = id -> HasRankRight (pl_rank pl) right g = true ->
  k <> me -> pl_rank pl < ms_RankId m -> pl_rank pl < ms_RankId m + d ->
  rank_moves me right d w (back id (g', w')).
Proof.
  intros Hg Hreg Hmem Hm Hpl Hid Hr Hk H1 H2. unfold back, rank_moves. cbn [fst snd]. rewrite Hreg, Hg. cbn. split.
  { apply dom_insert_lookup_L. by exists g. }
  intros id1 g1 g1' Hg1 [[<- <-]|[Hne Hg1']]%lookup_insert_Some.
  - assert (g1 = g) as -> by congruence. rewrite Hmem. cbn. split; [apply dom_alter_L|]. intros k1 m1 m1' Hm1.
    intros [(<- & m0 & Hm0 & ->)|[Hne Hm1']]%lookup_alter_Some; [|left; congruence].
    assert (m0 = m /\ m1 = m) as [-> ->] by (split; congruence). right. split_and!; [done..|]. by exists pl.
  - assert (g1' = g1) as -> by congruence. split; [done|]. intros k1 m1 m1' Hm1 Hm1'. left. congruence.
Qed.

Section authority.
Context (env : GuildEnv) (penv : PlayerEnv) `{!EnvOk env}.
Context (me : Z) (b : ByteBuffer) (w : World).
Context (HW : world_ok w) (Hme : online me w) (Hb : arrived b).

Lemma announce_moves right d g pl key m e t nm :
  m_GuildMap w !! pl_guildId pl = Some g -> w_players w !! me = Some pl ->
  HasRankRight (pl_rank pl) right g = true -> members g !! key = Some m -> key <> me ->
  pl_rank pl < ms_RankId m -> pl_rank pl < ms_RankId m + d -> ms_RankId m + d <= 9 -> slen nm <= 100 ->
  let P c := rank_moves me right d w (back (pl_guildId pl) c) in
  wp P (announce_rank env me key e t (ms_RankId m + d) nm) (fun _ => P) (g, w).
Proof.
  intros Hg Hpl Hr Hm Hk H1 H2 H3 Hn P. pose proof (good_registered w _ g HW Hg) as HG.
  destruct (online_short me pl w HW Hpl) as (_ & _ & Hpr & Hpn). unfold announce_rank. apply wp_bind.
  pose proof HG as [HF [HB _]].
  eapply wp_conseq; [eapply (ChangeRank_spec _ (pl_guildId pl) key m); [exact HF|apply HB|done|lia]|].
  intros _ c1 (F1 & E1 & S1). cbv beta. cbn [fst] in E1.
  apply wp_bind. eapply wp_slot_at; [rewrite E1; cbn; by rewrite lookup_alter_eq, Hm|].
  apply wp_bind. eapply wp_conseq; [by apply LogGuildEvent_members|]. intros _ c2 ((M2 & K2) & R2 & P2). cbv beta.
  destruct (st_online _ _ S1 me) as [pl1 Hpl1]; [by exists pl|].
  apply wp_bind. eapply wp_g_GetPlayer; [by rewrite P2|]. wps. apply wp_logs.
  - apply (fits_event env). destruct (ag_players _ _ _ _ _ _ (fo_agree _ _ F1) me pl1 Hpl1) as [(_ & _ & _ & Hs) _].
    assert (Hrn : slen (GetRankName (ms_RankId m + d) c2.1) <= 100000).
    { etrans; [apply rank_name_short|lia]. unfold ranks_ok. rewrite K2, E1. apply HB. }
    intros ? [?|[?|?]]; simplify_eq; unfold short in *; lia.
  - intros _. destruct c2 as [g2 w2]. eapply rank_moves_ranked; try done.
    + cbn in R2. rewrite R2. apply S1.
    + cbn in M2. by rewrite M2, E1.
Qed.

(** Promoting: nobody joins or leaves a guild, and a rank changes only if
    the player of the session, in that guild and with the right to promote,
    lifts another member by one rank that is still below its own. *)
Lemma promote_moves :
  wp (rank_moves me GR_RIGHT_PROMOTE (-1) w) (HandleGuildPromoteOpcode env me b)
     (fun _ => rank_moves me GR_RIGHT_PROMOTE (-1) w) w.
Proof.
  unfold HandleGuildPromoteOpcode. pose proof (rank_moves_refl me GR_RIGHT_PROMOTE (-1) w) as Hrefl.
  apply wp_recv_str; [done..|]. intros name b' _ _. apply (normalized_walk env); [done|]. intros nm Hn.
  unfold MAX_INTERNAL_PLAYER_NAME in Hn. destruct Hme as [pl Hpl]. eapply in_guild_walk; [done..|]. intros g Hg.
  destruct (good_registered w _ g HW Hg) as [_ [HB _]]. destruct (online_short me pl w HW Hpl) as (_ & _ & Hpr & _).
  assert (Hsame : rank_moves me GR_RIGHT_PROMOTE (-1) w (back (pl_guildId pl) (g, w))) by by rewrite back_same.
  eapply require_right_walk; [done..|]. intros Hr. apply require_slot_walk; [done|lia|apply HB|].
  intros key m Hm Hkey. destruct (gb_keys _ HB _ _ Hm) as (_ & _ & Hrk & _). cbn [fst] in *.
  apply wp_bind. eapply wp_g_GetPlayer; [done|]. rewrite Hkey.
  destruct (Z.eqb_spec key me); [apply wp_logs; auto with logs|].
  rewrite (wrap_small 32 (pl_rank pl + 1)) by (unfold is_u; lia).
  destruct (Z.geb_spec (pl_rank pl + 1) (ms_RankId m)); [apply wp_logs; [apply result_logs; lia|done]|].
  rewrite wrap_small by (unfold is_u; lia). replace (ms_RankId m - 1) with (ms_RankId m + -1) by lia.
  apply announce_moves; try done; lia.
Qed.

(** Demoting: the same with the right to demote, by one rank down. *)
Lemma demote_moves :
  wp (rank_moves me GR_RIGHT_DEMOTE 1 w) (HandleGuildDemoteOpcode env me b)
     (fun _ => rank_moves me GR_RIGHT_DEMOTE 1 w) w.
Proof.
  unfold HandleGuildDemoteOpcode. pose proof (rank_moves_refl me GR_RIGHT_DEMOTE 1 w) as Hrefl.
  apply wp_recv_str; [done..|]. intros name b' _ _. apply (normalized_walk env); [done|]. intros nm Hn.
  unfold MAX_INTERNAL_PLAYER_NAME in Hn. destruct Hme as [pl Hpl]. eapply in_guild_walk; [done..|]. intros g Hg.
  destruct (good_registered w _ g HW Hg) as [_ [HB _]]. destruct (online_short me pl w HW Hpl) as (_ & _ & Hpr & _).
  assert (Hsame : rank_moves me GR_RIGHT_DEMOTE 1 w (back (pl_guildId pl) (g, w))) by by rewrite back_same.
  eapply require_right_walk; [done..|]. intros Hr. apply require_slot_walk; [done|lia|apply HB|].
  intros key m Hm Hkey. destruct (gb_keys _ HB _ _ Hm) as (_ & _ & Hrk & _). cbn [fst] in *.
  apply wp_bind. eapply wp_g_GetPlayer; [done|]. wps. cbn [fst]. rewrite Hkey.
  pose proof (lowest_range g (gb_ranks _ HB)).
  destruct (Z.eqb_spec key me); [apply wp_logs; auto with logs|].
  destruct (Z.geb_spec (pl_rank pl) (ms_RankId m)); [apply wp_logs; [apply result_logs; lia|done]|].
  destruct (Z.geb_spec (ms_RankId m) (GetLowestRank g)); [apply wp_logs; [apply result_logs; lia|done]|].
  rewrite wrap_small by (unfold is_u; lia). apply announce_moves; try done; lia.
Qed.

(** ** Removal *)

(** From [w] to [w'], everybody stays in the guilds they were in, with the slot
    they had, but for the one that [gone] names, whom [me] outranks. *)
Definition removes (gone : option (Z * Z)) (w' : World) : Prop :=
  (forall id g k m, m_GuildMap w !! id = Some g -> members g !! k = Some m -> gone <> Some (id, k) ->
     exists g', m_GuildMap w' !! id = Some g' /\ members g' !! k = Some m)
  /\ forall id k, gone = Some (id, k) ->
       exists g g' m pl, m_GuildMap w !! id = Some g /\ members g !! k = Some m
         /\ m_GuildMap w' !! id = Some g' /\ members g' !! k = None
         /\ w_players w !! me = Some pl /\ pl_guildId pl = id /\ pl_inWorld pl = true
         /\ HasRankRight (pl_rank pl) GR_RIGHT_REMOVE g = true /\ pl_rank pl < ms_RankId m.

Lemma removes_refl : removes None w.
Proof. split; [|done]. intros id g k m Hg Hm _. by exists g. Qed.

Lemma removes_erased g g' w' pl k m :
  m_GuildMap w !! pl_guildId pl = Some g -> m_GuildMap w' = m_GuildMap w -> members g' = delete k (members g) ->
  members g !! k = Some m -> w_players w !! me = Some pl -> pl_inWorld pl = true ->
  HasRankRight (pl_rank pl) GR_RIGHT_REMOVE g = true -> pl_rank pl < ms_RankId m ->
  removes (Some (pl_guildId pl, k)) (back (pl_guildId pl) (g', w')).
Proof.
  intros Hg Hreg Hmem Hm Hpl Hin Hr Hlt. unfold removes, back. cbn [fst snd]. rewrite Hreg, Hg. cbn. split.
  - intros id1 g1 k1 m1 Hg1 Hm1 Hne. destruct (decide (id1 = pl_guildId pl)) as [->|Hid].
    + exists g'. rewrite lookup_insert_eq, Hmem. split; [done|]. assert (g1 = g) as -> by congruence.
      rewrite lookup_delete_ne; [done|]. congruence.
    + exists g1. by rewrite lookup_insert_ne.
  - intros id1 k1 [= <- <-]. exists g, g', m, pl. rewrite lookup_insert_eq, Hmem, lookup_delete_eq. by split_and!.
Qed.

(** A member who is not the leader leaves a guild that goes on. *)
Lemma DelMember_other X id k m c :
  good id c -> members c.1 !! k = Some m -> k <> m_LeaderGuid c.1 ->
  wp X (DelMember env k false)
    (fun last c' => last = false /\ good id c' /\ members c'.1 = delete k (members c.1)
       /\ m_GuildMap c'.2 = m_GuildMap c.2) c.
Proof.
  intros HG Hm Hne. pose proof HG as [HF [HB HL]]. destruct (removable_member id k c HG) as [Hu Hi]; [by exists m|].
  unfold DelMember. wps. destruct (Z.eqb_spec (m_LeaderGuid c.1) k) as [He|_]; [congruence|]. cbn [andb].
  eapply wp_conseq; [by apply (erase_member_spec X id k false c)|]. intros last c' (F & E & S & ->). cbv beta.
  assert (Hmem : members c'.1 = delete k (members c.1)) by by rewrite E.
  pose proof HL as [(ml & Hml & _) _]. split_and!; [|split; [done|]|done|apply S].
  - apply bool_decide_eq_false_2. intros He. rewrite He in Hmem.
    assert (Hx : (delete k (members c.1)) !! m_LeaderGuid c.1 = Some ml) by by rewrite lookup_delete_ne.
    by rewrite <- Hmem in Hx.
  - rewrite E. split; [by apply gbase_erased|by apply leader_erased].
Qed.

Lemma remove_only :
  wp (fun w' => exists gone, removes gone w') (HandleGuildRemoveOpcode env me b)
     (fun _ w' => exists gone, removes gone w') w.
Proof.
  unfold HandleGuildRemoveOpcode. assert (Hrefl : exists gone, removes gone w) by (exists None; apply removes_refl).
  apply wp_recv_str; [done..|]. intros name b' _ _. apply (normalized_walk env _); [done|]. intros nm Hn.
  unfold MAX_INTERNAL_PLAYER_NAME in Hn. destruct Hme as [pl Hpl]. apply wp_bind. eapply wp_GetPlayer; [done|].
  destruct (pl_inWorld pl) eqn:Ein; cbn [negb]; [|by apply wp_ret]. eapply in_guild_walk; [done..|]. intros g Hg.
  pose proof (good_registered w _ g HW Hg) as HG. pose proof HG as [_ [HB HL]].
  destruct (online_short me pl w HW Hpl) as (_ & _ & _ & Hpn). unfold short in Hpn.
  assert (Hsame : exists gone, removes gone (back (pl_guildId pl) (g, w))) by by rewrite back_same.
  eapply require_right_walk; [done..|]. intros Hr. apply require_slot_walk; [done|lia|apply HB|].
  intros key m Hm Hkey. cbn [fst] in *. destruct (Z.eqb_spec (ms_RankId m) GR_GUILDMASTER); [apply wp_logs; auto with logs|].
  destruct (Z.geb_spec (pl_rank pl) (ms_RankId m)); [apply wp_logs; [apply result_logs; lia|done]|].
  unfold remove_or_disband. apply wp_bind. rewrite Hkey. eapply wp_conseq.
  { eapply (DelMember_other _ (pl_guildId pl) key m); [done..|]. intros He. destruct HL as [(ml & Hml & Hrl) _]. cbn [fst] in *. rewrite <- He in Hml. congruence. }
  intros last c1 (-> & G1 & M1 & R1). cbv beta. apply wp_bind.
  eapply wp_conseq; [by apply LogGuildEvent_members|]. intros _ c2 ((M2 & _) & R2 & _). cbv beta. apply wp_logs.
  - apply (fits_event env). intros ? [?|[?|?]]; simplify_eq; lia.
  - intros _. exists (Some (pl_guildId pl, key)). destruct c2 as [g2 w2]. cbn [fst snd] in *.
    eapply removes_erased; try done; congruence.
Qed.
End authority.

(** C13. Promoting and demoting respect the ranks: whatever becomes of the
    request, the guilds stay and nobody joins or leaves one, and a slot changes
    only if the player of the session, in that guild and with the right to
    promote (or demote), moves another member of a lower rank by one rank up (or
    down), to a rank still below its own; nothing else in the slot changes. *)
Theorem rank_authority env `{!EnvOk env} me b w :
  world_ok w -> online me w -> arrived b ->
  wp (rank_moves me GR_RIGHT_PROMOTE (-1) w) (HandleGuildPromoteOpcode env me b)
     (fun _ => rank_moves me GR_RIGHT_PROMOTE (-1) w) w
  /\ wp (rank_moves me GR_RIGHT_DEMOTE 1 w) (HandleGuildDemoteOpcode env me b)
       (fun _ => rank_moves me GR_RIGHT_DEMOTE 1 w) w.
Proof. intros. split; [by apply promote_moves|by apply demote_moves]. Qed.

(** The rank of a member of the sample guild after a request. *)
Definition rank_after {A} (m : WM A) (w : World) (k : Z) : option Z :=
  match m_GuildMap (m (w, [])).2.1 !! 1 with Some g => ms_RankId <$> members g !! k | None => None end.

Lemma rank_authority_witness :
  let ask := sample_packet ["Bob"%string] in
  wp (rank_moves 1 GR_RIGHT_PROMOTE (-1) sample_world) (HandleGuildPromoteOpcode sample_env 1 ask)
     (fun _ => rank_moves 1 GR_RIGHT_PROMOTE (-1) sample_world) sample_world
  /\ rank_after (HandleGuildPromoteOpcode sample_env 1 ask) sample_world 2 = Some 3
  /\ rank_after (HandleGuildPromoteOpcode sample_env 2 ask) sample_world 2 = Some 4.
Proof.
  intros ask. assert (Ha : arrived ask) by (apply sample_arrived; vm_compute; congruence).
  assert (Ho : online 1 sample_world) by (apply sample_online; set_solver).
  split; [exact (proj1 (rank_authority sample_env 1 ask sample_world sample_world_ok Ho Ha))|]. by vm_compute.
Defined.

(** Removing: at most one member leaves a guild, the guild stays
    registered with everybody else in the slot they had, and the remover is a
    player in the world, of that guild, with the right to remove and of a
    higher rank than the one removed. *)
Theorem remove_authority env `{!EnvOk env} me b w :
  world_ok w -> online me w -> arrived b ->
  wp (fun w' => exists gone, removes me w gone w') (HandleGuildRemoveOpcode env me b)
     (fun _ w' => exists gone, removes me w gone w') w.
Proof. intros. by apply remove_only. Qed.

Lemma remove_authority_witness :
  let ask := sample_packet ["Bob"%string] in
  wp (fun w' => exists gone, removes 1 sample_world gone w') (HandleGuildRemoveOpcode sample_env 1 ask)
     (fun _ w' => exists gone, removes 1 sample_world gone w') sample_world
  /\ rank_after (HandleGuildRemoveOpcode sample_env 1 ask) sample_world 2 = None
  /\ rank_after (HandleGuildRemoveOpcode sample_env 1 ask) sample_world 1 = Some 0.
Proof.
  intros ask. assert (Ha : arrived ask) by (apply sample_arrived; vm_compute; congruence).
  assert (Ho : online 1 sample_world) by (apply sample_online; set_solver).
  split; [exact (remove_authority sample_env 1 ask sample_world sample_world_ok Ho Ha)|]. by vm_compute.
Defined.

(** ** Succession *)

Section succession.
Context (env : GuildEnv) `{!EnvOk env} (X : Guild * World -> Prop).
Implicit Types (c : Guild * World).

(** C21. When the leader of a guild with other members is removed, a member of
    the lowest rank id among the others becomes its guild master, and nobody
    else's slot changes. *)
Theorem leader_succession id c :
  good id c -> (1 < base.size (members c.1))%nat ->
  wp X (DelMember env (m_LeaderGuid c.1) false)
    (fun last c' => last = false /\ exists n mn, members c.1 !! n = Some mn /\ n <> m_LeaderGuid c.1
       /\ (forall k m, members c.1 !! k = Some m -> k <> m_LeaderGuid c.1 -> ms_RankId mn <= ms_RankId m)
       /\ m_LeaderGuid c'.1 = n
       /\ members c'.1 = <[n := ms_set_RankId GR_GUILDMASTER mn]> (delete (m_LeaderGuid c.1) (members c.1))) c.
Proof.
  intros HG Hsz. pose proof HG as [HF [HB HL]]. set (l := m_LeaderGuid c.1).
  unfold DelMember. wps. cbn [negb]. rewrite Z.eqb_refl. cbn [andb]. wps.
  destruct (suitable_spec env c.1 (gb_keys _ HB) HL) as [Ho Hb].
  destruct (GetSuitableNewLeader env false c.1) as [[n|] o]; cbn [fst snd best_of] in *; subst o.
  - destruct Hb as [[Hne [mn Hmn]%(elem_of_member_order env)]%list_elem_of_filter Hmin].
    pose proof HL as [(ml & Hml & _) _].
    eapply wp_conseq; [eapply (DelMember_leader_spec env X id n mn c); try done|].
    { apply removable_member; [done|by exists ml]. }
    intros last c' (F & S & -> & E). cbv beta.
    assert (Hmem : members c'.1 = <[n := ms_set_RankId GR_GUILDMASTER mn]> (delete l (members c.1))).
    { rewrite E. cbn. fold l. apply map_eq. intros k. destruct (decide (k = l)) as [->|Hkl].
      - by rewrite lookup_delete_eq, lookup_insert_ne, lookup_delete_eq by done.
      - rewrite lookup_delete_ne, lookup_alter_ne by done. destruct (decide (k = n)) as [->|Hkn].
        + by rewrite lookup_alter_eq, lookup_insert_eq, Hmn.
        + by rewrite lookup_alter_ne, lookup_insert_ne, lookup_delete_ne by done. }
    split; [apply bool_decide_eq_false_2; rewrite Hmem; apply insert_non_empty|].
    exists n, mn. split_and!; try done; [|by rewrite E].
    intros k m Hk Hkl. apply (Hmin k mn m); [|done..]. apply list_elem_of_filter. split; [done|].
    apply (elem_of_member_order env). by exists m.
  - exfalso. pose proof HL as [(ml & Hml & _) _]. fold l in Hml.
    assert (Hsub : members c.1 ⊆ {[l := ml]}).
    { apply map_subseteq_spec. intros k m Hk. destruct (decide (k = l)) as [->|Hkl]; [rewrite lookup_singleton_eq; congruence|].
      exfalso. assert (k ∈ filter (fun k => k <> l) (member_order env (members c.1))) as Hin; [|fold l in Hb; rewrite Hb in Hin; set_solver].
      apply list_elem_of_filter. split; [done|]. apply (elem_of_member_order env). by exists m. }
    apply map_subseteq_size in Hsub. rewrite map_size_singleton in Hsub. lia.
Qed.
End succession.

Lemma leader_succession_witness :
  wp (fun _ => False) (DelMember sample_env (m_LeaderGuid sample_guild) false)
    (fun last c' => last = false /\ exists n mn, members sample_guild !! n = Some mn /\ n <> m_LeaderGuid sample_guild
       /\ (forall k m, members sample_guild !! k = Some m -> k <> m_LeaderGuid sample_guild -> ms_RankId mn <= ms_RankId m)
       /\ m_LeaderGuid c'.1 = n
       /\ members c'.1 = <[n := ms_set_RankId GR_GUILDMASTER mn]> (delete (m_LeaderGuid sample_guild) (members sample_guild)))
    (sample_guild, sample_world)
  /\ m_LeaderGuid (DelMember sample_env 1 false ((sample_guild, sample_world), [])).2.1.1 = 2.
Proof.
  assert (Hs : (1 < base.size (members sample_guild))%nat) by (vm_compute; lia).
  split; [exact (leader_succession sample_env (fun _ => False) 1 (sample_guild, sample_world) sample_good Hs)|].
  by vm_compute.
Defined.
