(* ===== verification/GuildRepair.v ===== *)
(** * GuildRepair: what loading makes of a guild

    [CheckGuildStructure] on the members of a guild as the database left them. *)

From stdpp Require Import gmap fin_maps strings.
From S2P Require Import Prelude ByteBuffer Codec ObjectGuid Packets Effects Incoming Social GuildData Guild GuildRoster.
From S2P Require Import GuildHandlers GuildPetitions GuildInv GuildKeep GuildSteps GuildOps GuildFound GuildLife GuildProps GuildAuthority.

Local Open Scope prog_scope.

Section repair.
Context (env : GuildEnv) `{!EnvOk env} (X : Guild * World -> Prop).
Implicit Types (c : Guild * World).

(** The methods on the guild object, whatever the world. *)
Lemma ChangeRank_run k m r c : members c.1 !! k = Some m -> wp X (ChangeRank k r) (fun _ c' => c'.1 = ranked k r c.1) c.
Proof.
  intros Hm. unfold ChangeRank. apply wp_bind. eapply wp_slot_at; [done|]. unfold on_slot. wps. cbn [fst snd].
  by destruct (FindPlayer _ _); wps.
Qed.
Lemma SetLeader_slot_run k m c :
  members c.1 !! k = Some m -> ms_guid m = k ->
  wp X (SetLeader_slot k) (fun _ c' => c'.1 = ranked k GR_GUILDMASTER (set_Leader k c.1)) c.
Proof.
  intros Hm Hg. unfold SetLeader_slot. apply wp_bind. eapply wp_slot_at; [done|]. rewrite Hg. wps.
  eapply wp_conseq; [by eapply ChangeRank_run|]. cbv beta. intros _ [g' w'] E. cbn [fst] in E. subst g'. by wps.
Qed.
Lemma erase_member_run k c :
  0 <= k < 2 ^ 32 ->
  wp X (erase_member k false) (fun last c' => c'.1 = erased k false c.1 /\ last = bool_decide (members c'.1 = ∅)) c.
Proof.
  intros Hk. unfold erase_member. rewrite counter_player by lia. wps. cbn [fst snd].
  destruct (FindPlayer _ _); wps; cbn [negb]; by wps.
Qed.

(** The pass over the members: guild masters other than the leader become
    officers. *)
Definition demote_other (l : Z) (m : MemberSlot) : MemberSlot :=
  if (ms_RankId m =? GR_GUILDMASTER) && negb (l =? ms_guid m) then ms_set_RankId GR_OFFICER m else m.

Lemma demote_idem l m : demote_other l (demote_other l m) = demote_other l m.
Proof. unfold demote_other at 2 3. destruct (_ && _) eqn:E; [reflexivity|]. unfold demote_other. by rewrite E. Qed.

Lemma demote_pass keys : forall c,
  (forall k, k ∈ keys -> is_Some (members c.1 !! k)) ->
  wp X (each (fun k =>
       let! m := slot_at k in
       let! l := gw_get (fun c => m_LeaderGuid c.1) in
       if (ms_RankId m =? GR_GUILDMASTER) && negb (l =? ms_guid m) then ChangeRank k GR_OFFICER
       else st_ret tt) keys)
    (fun _ c' => m_LeaderGuid c'.1 = m_LeaderGuid c.1 /\ forall k, members c'.1 !! k =
       (fun m => if bool_decide (k ∈ keys) then demote_other (m_LeaderGuid c.1) m else m) <$> members c.1 !! k) c.
Proof.
  induction keys as [|k keys IH]; intros c Hin; cbn [each].
  { apply wp_ret. split; [done|]. intros k. rewrite bool_decide_eq_false_2 by set_solver. by rewrite option_fmap_id. }
  destruct (Hin k ltac:(set_solver)) as [m Hm]. apply wp_bind.
  apply (wp_conseq _ _ (fun _ c' => m_LeaderGuid c'.1 = m_LeaderGuid c.1
    /\ members c'.1 = alter (demote_other (m_LeaderGuid c.1)) k (members c.1))).
  - apply wp_bind. eapply wp_slot_at; [done|]. wps. unfold demote_other. destruct (_ && _) eqn:E.
    + eapply wp_conseq; [by eapply ChangeRank_run|]. cbv beta. intros _ c' ->. split; [done|]. cbn.
      apply alter_ext. intros m' Hm'. assert (m' = m) as -> by congruence. by rewrite E.
    + wps. split; [done|]. symmetry. apply alter_id. intros m' Hm'. assert (m' = m) as -> by congruence. by rewrite E.
  - intros _ c1 [L1 M1]. eapply wp_conseq; [apply IH|].
    + intros k' Hk'. rewrite M1, lookup_alter_is_Some. apply Hin. set_solver.
    + intros _ c2 [L2 M2]. cbv beta in *. split; [congruence|]. intros k'. rewrite M2, L1, M1.
      destruct (decide (k' = k)) as [->|Hne].
      * rewrite lookup_alter_eq, Hm. cbn. rewrite (bool_decide_eq_true_2 (k ∈ k :: keys)) by set_solver.
        case_bool_decide; [by rewrite demote_idem|done].
      * rewrite lookup_alter_ne by done. rewrite (bool_decide_ext (k' ∈ k :: keys) (k' ∈ keys)) by set_solver. done.
Qed.

(** A member leads with the rank of a guild master. *)
Definition headed (g : Guild) : Prop :=
  exists m, members g !! m_LeaderGuid g = Some m /\ ms_RankId m = GR_GUILDMASTER.

(** The leader is one of the members after the first half. *)
Definition settle_leader : GM bool :=
  let! leader := gw_get (fun c => m_LeaderGuid c.1) in
  let! GM_rights := gw_get (fun c => GetRank leader c.1) in
  (if GM_rights =? -1 then DelMember env leader false
   else if negb (GM_rights =? GR_GUILDMASTER) then SetLeader leader ;;; st_ret false
   else st_ret false).

Lemma keys_leader g : keys_ok g -> keys_ok (set_Leader (m_LeaderGuid g) g).
Proof. done. Qed.

Lemma settle_leader_spec c :
  keys_ok c.1 -> 0 <= m_LeaderGuid c.1 < 2 ^ 32 -> members c.1 <> ∅ ->
  wp X settle_leader (fun gone c' => gone = false /\ headed c'.1 /\ keys_ok c'.1
    /\ (forall k, is_Some (members c'.1 !! k) <-> is_Some (members c.1 !! k))
    /\ (headed c.1 -> members c'.1 = members c.1 /\ m_LeaderGuid c'.1 = m_LeaderGuid c.1)) c.
Proof.
  intros HK Hl Hne. unfold settle_leader. wps. set (l := m_LeaderGuid c.1) in *. unfold GetRank. rewrite counter_player by lia.
  destruct (members c.1 !! l) as [m|] eqn:Em.
  - destruct (HK l m Em) as (Hg & Hu & Hr & _). assert (s32 (ms_RankId m) = ms_RankId m) as ->.
    { apply swrap_small; [lia|]. unfold is_s. lia. }
    destruct (Z.eqb_spec (ms_RankId m) (-1)); [lia|]. destruct (Z.eqb_spec (ms_RankId m) GR_GUILDMASTER) as [Hz|Hz]; cbn [negb].
    + wps. split_and!; try done. by exists m.
    + unfold SetLeader, GetMemberSlot. rewrite counter_player by lia. wps. rewrite Em.
      eapply wp_conseq; [by eapply SetLeader_slot_run|]. cbv beta. intros _ [g' w'] E. cbn [fst] in E. subst g'. wps.
      split_and!; [done|..].
      * exists (ms_set_RankId GR_GUILDMASTER m). cbn. by rewrite lookup_alter_eq, Em.
      * apply keys_ranked; [done|unfold GR_GUILDMASTER; lia].
      * intros k. cbn. by rewrite lookup_alter_is_Some.
      * intros (m' & Hm' & Hz'). fold l in Hm'. congruence.
  - rewrite Z.eqb_refl. unfold DelMember. wps. fold l. rewrite Z.eqb_refl. cbn [andb negb]. wps.
    assert (Hno : l ∉ member_order env (members c.1)) by (intros [? ?]%(elem_of_member_order env); congruence).
    unfold GetSuitableNewLeader. fold l. rewrite counter_player by lia.
    pose proof (scan_old l (members c.1) (member_order env (members c.1)) None None) as Ho.
    pose proof (scan_best l (members c.1) (member_order env (members c.1)) [] None None) as Hb.
    destruct (scan_leader _ _ _ _ _) as [n o]. cbn [fst snd] in *. rewrite bool_decide_eq_false_2 in Ho by done. subst o.
    specialize (Hb ltac:(intros k Hk; by apply (elem_of_member_order env)) eq_refl). cbn [app] in Hb.
    destruct n as [n|]; cbn [best_of] in Hb.
    + destruct Hb as [[Hnl [mn Hmn]%(elem_of_member_order env)]%list_elem_of_filter _].
      destruct (HK n mn Hmn) as (Hg & _). unfold SetNewLeader_slots. wps.
      eapply wp_conseq; [by eapply SetLeader_slot_run|]. cbv beta. intros _ c1 E1. wps.
      eapply wp_conseq; [by eapply (erase_member_run l)|]. cbv beta. intros last c2 [E2 ->].
      assert (Hmem : members c2.1 = alter (ms_set_RankId GR_GUILDMASTER) n (members c.1)).
      { rewrite E2, E1. cbn. apply delete_id. by rewrite lookup_alter_ne. }
      assert (Hhd : headed c2.1).
      { exists (ms_set_RankId GR_GUILDMASTER mn). rewrite Hmem. split; [|done]. rewrite E2, E1. cbn.
        by rewrite lookup_alter_eq, Hmn. }
      split_and!.
      * apply bool_decide_eq_false_2. intros He. destruct Hhd as (m' & Hm' & _). by rewrite He in Hm'.
      * done.
      * rewrite E2, E1. apply keys_erased, keys_ranked; [done|unfold GR_GUILDMASTER; lia].
      * intros k. by rewrite Hmem, lookup_alter_is_Some.
      * intros (m' & Hm' & _). fold l in Hm'. congruence.
    + exfalso. apply Hne, map_empty. intros k. apply eq_None_not_Some. intros Hs%(elem_of_member_order env).
      assert (k ∈ filter (fun k => k <> l) (member_order env (members c.1))) as Hin; [|rewrite Hb in Hin; set_solver].
      apply list_elem_of_filter. split; [|done]. by intros ->.
Qed.

(** C24. Whatever the database holds, the check that ends the loading of a guild
    with members returns with the leader as its only guild master: a leader
    that is missing is replaced by a member of the lowest rank id, a leader of
    another rank is made guild master, other guild masters become officers;
    nobody joins or leaves, and a guild in order is left as it is. *)
Theorem structure_repaired c :
  keys_ok c.1 -> 0 <= m_LeaderGuid c.1 < 2 ^ 32 -> members c.1 <> ∅ ->
  wp X (CheckGuildStructure env)
    (fun ok c' => ok = true /\ leader_ok c'.1
       /\ (forall k, is_Some (members c'.1 !! k) <-> is_Some (members c.1 !! k))
       /\ (leader_ok c.1 -> members c'.1 = members c.1 /\ m_LeaderGuid c'.1 = m_LeaderGuid c.1)) c.
Proof.
  intros HK Hl Hne. apply (wp_bind X settle_leader). eapply wp_conseq; [by apply settle_leader_spec|]. cbv beta.
  intros gone c1 (-> & (ml & Hml & Hz) & HK1 & Hdom & Hsame). wps.
  eapply wp_conseq; [apply demote_pass; intros k; apply (elem_of_member_order env)|]. cbv beta. intros _ c2 [L2 M2]. wps.
  assert (M2' : forall k, members c2.1 !! k = demote_other (m_LeaderGuid c1.1) <$> members c1.1 !! k).
  { intros k. rewrite M2. destruct (members c1.1 !! k) as [m|] eqn:Em; [|done]. cbn.
    rewrite bool_decide_eq_true_2; [done|]. apply (elem_of_member_order env). by exists m. }
  assert (Hguid : forall k m, members c1.1 !! k = Some m -> ms_guid m = k) by (intros k m Hm; by apply (HK1 k m)).
  split_and!; [done|split| |].
  - exists ml. rewrite L2, M2', Hml. split; [|done]. cbn. unfold demote_other. rewrite (Hguid _ _ Hml), Z.eqb_refl.
    by rewrite andb_false_r.
  - intros k m'. rewrite L2, M2'. intros (m & Hm & ->)%fmap_Some Hr. unfold demote_other in Hr. rewrite (Hguid _ _ Hm) in Hr.
    destruct (Z.eqb_spec (m_LeaderGuid c1.1) k) as [->|Hk]; [done|]. cbn [negb] in Hr. rewrite andb_true_r in Hr.
    destruct (Z.eqb_spec (ms_RankId m) GR_GUILDMASTER); done.
  - intros k. rewrite M2', fmap_is_Some. apply Hdom.
  - intros [Hh Hu]. destruct (Hsame Hh) as [Em El]. split; [|congruence]. apply map_eq. intros k. rewrite M2', Em.
    destruct (members c.1 !! k) as [m|] eqn:Ek; [|done]. cbn. unfold demote_other.
    destruct (Z.eqb_spec (ms_RankId m) GR_GUILDMASTER) as [Hm|]; [|done].
    rewrite El, <- (Hu k m Ek Hm). rewrite <- Em in Ek. by rewrite (Hguid _ _ Ek), Z.eqb_refl.
Qed.
End repair.

(** A guild whose leader is gone, with two guild masters. *)
Definition sample_broken : Guild :=
  set_Leader 9 (set_members (ms_set_RankId 0 <$> members sample_guild) sample_guild).

Lemma keys_masters l g : keys_ok g -> keys_ok (set_Leader l (set_members (ms_set_RankId 0 <$> members g) g)).
Proof.
  intros HK k m. cbn. rewrite lookup_fmap. intros (m0 & Hm & ->)%fmap_Some.
  destruct (HK k m0 Hm) as (Hg & Hu & _ & Hn). cbn. split_and!; [done|apply Hu|apply Hu|lia|lia|apply Hn..].
Qed.

Lemma structure_repaired_witness :
  let c := (sample_broken, sample_world) in
  wp (fun _ => False) (CheckGuildStructure sample_env)
    (fun ok c' => ok = true /\ leader_ok c'.1
       /\ (forall k, is_Some (members c'.1 !! k) <-> is_Some (members c.1 !! k))
       /\ (leader_ok c.1 -> members c'.1 = members c.1 /\ m_LeaderGuid c'.1 = m_LeaderGuid c.1)) c
  /\ m_LeaderGuid (CheckGuildStructure sample_env (c, [])).2.1.1 <> 9.
Proof.
  intros c. assert (Hk : keys_ok c.1) by exact (keys_masters 9 sample_guild (gb_keys _ (proj1 (proj2 sample_good)))).
  assert (Hl : 0 <= m_LeaderGuid c.1 < 2 ^ 32) by by cbn.
  assert (Hne : members c.1 <> ∅) by (vm_compute; discriminate).
  split; [exact (structure_repaired sample_env (fun _ => False) c Hk Hl Hne)|]. by vm_compute.
Defined.
