(* ===== verification/GuildFlaws.v ===== *)
(** * GuildFlaws: where the guild code falls short

    Deleted ranks, players between maps, notes, signatures and the commands of
    game masters. *)

From stdpp Require Import gmap fin_maps strings.
From S2P Require Import Prelude ByteBuffer Codec ObjectGuid Packets Effects Incoming Social GuildData Guild GuildRoster.
From S2P Require Import GuildHandlers GuildPetitions GuildInv GuildKeep GuildSteps GuildOps GuildFound GuildLife GuildProps GuildAuthority.

Local Open Scope prog_scope.

(** A rank that does not exist has every right: [GetRankRights] gives no bits,
    and [HasRankRight] compares the result with [GR_RIGHT_EMPTY]. *)
Lemma missing_rank_rights rankId right g :
  Z.of_nat (length (m_Ranks g)) <= rankId -> HasRankRight rankId right g = true.
Proof.
  intros Hr. unfold HasRankRight, GetRankRights, rank_at.
  destruct (Z.geb_spec rankId (Z.of_nat (length (m_Ranks g)))); [|lia]. by rewrite Z.land_0_l.
Qed.

Section flaws.
Context (env : GuildEnv) `{!EnvOk env}.

Lemma DelRank_run X c :
  (5 < length (m_Ranks c.1))%nat -> banks_ok c.1 ->
  wp X DelRank (fun _ c' => c'.1 = set_Ranks (removelast (m_Ranks c.1)) c.1 /\ m_GuildMap c'.2 = m_GuildMap c.2) c.
Proof.
  intros Hl [B1 B2]. unfold DelRank. wps. cbn [fst]. unfold GUILD_RANKS_MIN_COUNT.
  destruct (Z.leb_spec (Z.of_nat (length (m_Ranks c.1))) 5); [lia|]. wps. cbn [fst snd]. rewrite B1, B2. cbn [andb]. by wps.
Qed.
Lemma length_removelast {A} (l : list A) : length (removelast l) = pred (length l).
Proof.
  destruct l as [|x l]; [done|]. assert (Hl : x :: l <> []) by done.
  pose proof (app_removelast_last x Hl) as He. apply (f_equal length) in He. rewrite length_app in He. cbn [length] in *. lia.
Qed.

(** C39. When the leader of a guild with more than five ranks deletes the
    lowest one, the members of that rank keep it, and have every right from
    then on: to invite, to remove, to promote, to set the message. *)
Theorem deleted_rank_rights me pl g k m w :
  world_ok w -> w_players w !! me = Some pl -> m_GuildMap w !! pl_guildId pl = Some g -> me = m_LeaderGuid g ->
  (5 < length (m_Ranks g))%nat -> members g !! k = Some m -> ms_RankId m = GetLowestRank g ->
  wp (fun _ => False) (HandleGuildDelRankOpcode env me)
    (fun _ w' => exists g', m_GuildMap w' !! pl_guildId pl = Some g' /\ members g' !! k = Some m
       /\ forall right, HasRankRight (ms_RankId m) right g' = true) w.
Proof.
  intros HW Hpl Hg Hlead Hlen Hm Hr. pose proof (good_registered w _ g HW Hg) as HG. pose proof HG as [_ [HB _]].
  unfold HandleGuildDelRankOpcode, in_guild. apply wp_bind. eapply wp_GetPlayer; [done|].
  apply wp_bind, wp_w_get. unfold GetGuildById. rewrite Hg. eapply wp_with_guild_back; [done|].
  unfold require_leader. wps. cbn [fst]. rewrite <- Hlead, Z.eqb_refl. cbn [negb]. apply wp_bind.
  eapply wp_conseq; [apply wp_and; [by apply (DelRank_kept _ (pl_guildId pl))|apply DelRank_run; [done|apply HB]]|].
  cbv beta. intros _ c1 [[G1 S1] [E1 R1]]. unfold show_ranks. apply wp_bind.
  eapply wp_conseq; [by apply (Query_same _ (pl_guildId pl))|]. cbv beta. intros _ c2 ->.
  eapply wp_conseq; [by apply (Roster_same env _ (pl_guildId pl))|]. cbv beta. intros _ c3 ->.
  cbn [fst snd] in E1, R1. exists c1.1. unfold back. rewrite R1, Hg. cbn. rewrite lookup_insert_eq. split_and!; [done|by rewrite E1|].
  intros right. apply missing_rank_rights. rewrite Hr, E1. cbn. rewrite length_removelast.
  pose proof (lowest_range g (gb_ranks _ HB)). unfold GetLowestRank in *. rewrite wrap_small; [lia|].
  destruct (gb_ranks _ HB) as [? _]. cbn [fst] in *. unfold is_u. lia.
Qed.

(** A member who is online but between two maps is removed from the guild,
    the index and the table, and keeps the guild id and the rank: the server
    goes on to serve that player as a member, with the rights of the rank. *)
Theorem removed_between_maps X id k m pl c :
  good id c -> members c.1 !! k = Some m -> k <> m_LeaderGuid c.1 ->
  w_players c.2 !! k = Some pl -> pl_inWorld pl = false ->
  wp X (DelMember env k false)
    (fun last c' => last = false /\ members c'.1 !! k = None /\ m_guid2guild c'.2 !! k = None
       /\ t_guild_member (w_db c'.2) !! k = None
       /\ w_players c'.2 !! k = Some pl /\ pl_guildId pl = id) c.
Proof.
  intros HG Hm Hne Hpl Hin. destruct (removable_member id k c HG) as [Hu Hi]; [by exists m|].
  pose proof HG as [HF _]. destruct (ag_players _ _ _ _ _ _ (fo_agree _ _ HF) k pl Hpl) as [_ Hid].
  assert (Hidx : m_guid2guild c.2 !! k = Some id).
  { apply (ag_index _ _ _ _ _ _ (fo_agree _ _ HF) id c.1); [by rewrite lookup_insert_eq|by exists m]. }
  eapply wp_conseq; [apply wp_and; [by eapply (DelMember_other env X id k m c)|]|].
  - instantiate (1 := fun _ c' => w_players c'.2 = w_players c.2 /\ m_guid2guild c'.2 = delete k (m_guid2guild c.2)
      /\ t_guild_member (w_db c'.2) = delete k (t_guild_member (w_db c.2))).
    unfold DelMember. wps. destruct (Z.eqb_spec (m_LeaderGuid c.1) k); [congruence|]. cbn [andb].
    unfold erase_member. rewrite counter_player by lia. wps. cbn [fst snd].
    assert (FindPlayer k (GuildMemberRemoved k c.2) = None) as ->.
    { unfold FindPlayer, FindPlayerNotInWorld. destruct (k =? 0); [done|]. cbn. by rewrite Hpl, Hin. }
    cbn [negb]. by wps.
  - cbv beta. intros last c' ((-> & _ & -> & _) & -> & -> & ->). rewrite !lookup_delete_eq. split_and!; auto.
Qed.

(** A note that the database has to escape is kept escaped in memory and
    unescaped in the table: what members read changes with a restart, and the
    escaped text may be longer than a note may be. *)
Theorem note_kept_escaped X k note m row c :
  keys_ok c.1 -> members c.1 !! k = Some m -> t_guild_member (w_db c.2) !! k = Some row -> ms_PublicNote m <> note ->
  literal_value env (escape_string env note) = note ->
  wp X (SetPublicNote env k note)
    (fun _ c' => exists m' row', members c'.1 !! k = Some m' /\ ms_PublicNote m' = escape_string env note
       /\ t_guild_member (w_db c'.2) !! k = Some row' /\ mr_pnote row' = note) c.
Proof.
  intros HK Hm Hrow Hne Hlit. destruct (HK k m Hm) as (Hg & Hu & _). unfold SetPublicNote. apply wp_bind.
  eapply wp_slot_at; [done|]. rewrite bool_decide_eq_false_2 by done. unfold on_slot. wps. cbn [fst snd].
  rewrite Hg, counter_player by lia. exists (ms_set_PublicNote (escape_string env note) m).
  eexists. cbn. unfold sql_update_row. rewrite !lookup_alter_eq, Hm, Hrow. cbn. split_and!; [done..|]. exact Hlit.
Qed.

(** A signature that is withdrawn (its player joins a guild, signs another
    charter or is deleted) is gone from the petition in memory, while its row
    stays in the table: the statement deletes the rows of the charter the
    player owns, if any.  The signature is back after a restart. *)
Theorem withdrawn_signature_stays k w key row :
  petitions_ok (m_petitionMap w) -> t_petition_sign (w_db w) !! key = Some row -> sr_ownerguid row <> GetCounter k ->
  let w' := drop_signature env k w in
  t_petition_sign (w_db w') !! key = Some row
  /\ forall pid pt s, m_petitionMap w' !! pid = Some pt -> s ∈ pt_signatures pt -> sg_playerGuid s <> k.
Proof.
  intros HP Hrow Ho w'. split.
  - unfold w', drop_signature. destruct (GetSignatureForPlayerGuid env k w) as [[p s]|] eqn:Es; [|done]. cbn.
    assert (sg_playerGuid s = k) as Hs.
    { unfold GetSignatureForPlayerGuid in Es. destruct (first_such _ _ _) as [q|]; [|done].
      destruct (pt_GetSignatureForPlayerGuid k q) as [s'|] eqn:E; [|done]. injection Es as -> ->.
      apply find_guid_Some in E. tauto. }
    rewrite Hs. unfold sql_delete_rows. apply map_lookup_filter_Some. split; [done|]. cbn. lia.
  - intros pid pt s Hpt Hs. by destruct (proj2 (drop_signature_spec env k w HP) pid pt s Hpt Hs).
Qed.

(** ** Commands *)

Lemma AddMember_offline X k r d c :
  0 < k < 2 ^ 32 -> w_players c.2 !! k = None -> members c.1 !! k = None ->
  GetPlayerDataByGUID env k = Some d -> sName d <> ""%string -> 1 <= uiLevel d <= 255 ->
  playable (uiClass d) = Some true -> 1 <= uiClass d <= 255 ->
  wp X (AddMember env k r)
    (fun st c' => st = ADD_OK /\ members c'.1 = <[k := slot_of_cache env k d r]> (members c.1)
       /\ m_GuildMap c'.2 = m_GuildMap c.2
       /\ (forall row, t_guild_member (w_db c.2) !! k = Some row -> t_guild_member (w_db c'.2) !! k = Some row)) c.
Proof.
  intros Hu Hoff Hno Hd Hn Hl Hp Hc. unfold AddMember. rewrite counter_player by lia. wps.
  assert (FindPlayerNotInWorld k c.2 = None) as ->.
  { unfold FindPlayerNotInWorld. by destruct (k =? 0). }
  rewrite (wrap_small 32 k), Hno by (unfold is_u; lia). rewrite bool_decide_eq_false_2 by by intros []. wps.
  rewrite Hd, bool_decide_eq_false_2 by done. cbn [ms_Level slot_of_cache].
  rewrite (wrap_small 8 (uiLevel d)) by (unfold is_u; lia). unfold PLAYER_STRONG_MAX_LEVEL.
  destruct ((uiLevel d <? 1) || (uiLevel d >? 255)) eqn:El; [lia|]. cbn [ms_Class slot_of_cache].
  rewrite (wrap_small 8 (uiClass d)), Hp by (unfold is_u; lia). cbn [deref]. wps. cbn [negb].
  unfold enter_member. wps. cbn [fst snd].
  destruct (drop_signature_frame env k c.2) as (E1 & _ & E3 & _). split_and!; [done|done|exact E1|].
  intros row Hrow. cbn. rewrite E3. unfold sql_insert_row. by rewrite Hrow.
Qed.

(** A game master's invitation of an offline character that is in another
    guild is accepted: the character has a slot in both guilds, and the table
    still names the first. *)
Theorem invited_into_two_guilds X me k name d g2 id1 w :
  world_ok w -> 0 < k < 2 ^ 32 -> w_players w !! k = None -> GetGuildByName env name w = Some g2 ->
  m_guid2guild w !! k = Some id1 -> id1 <> m_Id g2 -> GetPlayerDataByGUID env k = Some d -> sName d <> ""%string ->
  1 <= uiLevel d <= 255 -> playable (uiClass d) = Some true ->
  wp X (HandleGuildInviteCommand env me k name)
    (fun ok w' => ok = true /\ exists g1 g2' row, m_GuildMap w' !! id1 = Some g1 /\ is_Some (members g1 !! k)
       /\ m_GuildMap w' !! m_Id g2 = Some g2' /\ is_Some (members g2' !! k)
       /\ t_guild_member (w_db w') !! k = Some row /\ mr_guildid row = id1) w.
Proof.
  intros HW Hu Hoff Hn Hi Hne Hd Hsn Hl Hp. pose proof (proj1 HW) as HA.
  pose proof Hn as (id2 & Hg2 & _)%(GetGuildByName_Some env).
  destruct (ag_id _ _ _ _ _ _ HA _ _ Hg2) as [Hid2 _]. subst id2.
  destruct (ag_reg _ _ _ _ _ _ HA _ _ Hi) as [g1 Hg1]. pose proof (proj2 (ag_index _ _ _ _ _ _ HA _ _ _ Hg1) Hi) as [m1 Hm1].
  destruct (ag_rows _ _ _ _ _ _ HA _ _ _ _ Hg1 Hm1) as (row & Hrow & Hrid & _).
  assert (Hno : members g2 !! k = None).
  { apply eq_None_not_Some. intros Hs%(ag_index _ _ _ _ _ _ HA _ _ _ Hg2). congruence. }
  assert (Hc : 1 <= uiClass d <= 255).
  { unfold playable in Hp. destruct (_ && _) eqn:E; [lia|done]. }
  unfold HandleGuildInviteCommand. apply wp_bind, wp_w_get. rewrite Hn. apply wp_bind.
  eapply wp_with_guild_back; [done|]. wps. eapply wp_conseq; [by eapply (AddMember_offline _ k _ d)|]. cbv beta. cbn [fst snd].
  intros st c' (-> & M & R & T). rewrite bool_decide_eq_true_2 by done. cbn [negb].
  apply wp_bind, wp_logs; [auto with logs|]. intros _. apply wp_ret. split; [done|]. unfold back. rewrite R, Hg2.
  exists g1, c'.1, row. cbn. rewrite lookup_insert_ne, lookup_insert_eq, M, lookup_insert_eq by done.
  split_and!; eauto.
Qed.

(** The rank command gives a member the rank of a guild master beside the
    leader; the leader stays the leader. *)
Theorem second_guildmaster X me k m g w :
  world_ok w -> m_GuildMap w !! m_Id g = Some g -> members g !! k = Some m -> k <> m_LeaderGuid g ->
  wp X (HandleGuildRankCommand me false k GR_GUILDMASTER)
    (fun ok w' => ok = true /\ exists g', m_GuildMap w' !! m_Id g = Some g' /\ ~ leader_ok g'
       /\ m_LeaderGuid g' = m_LeaderGuid g) w.
Proof.
  intros HW Hg Hm Hne. pose proof (good_registered w _ g HW Hg) as HG. pose proof HG as [HF [HB HL]].
  destruct (removable_member (m_Id g) k (g, w) HG) as [Hu _]; [by exists m|].
  destruct (ag_rows _ _ _ _ _ _ (proj1 HW) _ _ _ _ Hg Hm) as (row & Hrow & Hrid & _).
  destruct (ag_id _ _ _ _ _ _ (proj1 HW) _ _ Hg) as [_ Hid].
  unfold HandleGuildRankCommand, target_guild_id, GetGuildIdFromDB. rewrite counter_player by lia.
  apply wp_bind, wp_w_get. rewrite Hrow, Hrid. unfold truth. destruct (Z.eqb_spec (m_Id g) 0); [lia|]. cbn [negb].
  apply wp_bind, wp_w_get. unfold GetGuildById. rewrite Hg.
  pose proof (lowest_range g (gb_ranks _ HB)). destruct (Z.gtb_spec GR_GUILDMASTER (GetLowestRank g)); [unfold GR_GUILDMASTER in *; lia|].
  unfold GetMemberSlot. rewrite counter_player, Hm by lia. apply wp_bind. eapply wp_with_guild_back; [done|].
  eapply wp_conseq; [eapply (ChangeRank_spec _ (m_Id g) k m); [done|apply HB|done|unfold GR_GUILDMASTER; lia]|]. cbv beta.
  intros _ c' (_ & E & S). apply wp_ret. split; [done|]. exists c'.1. unfold back. rewrite (st_registry _ _ S). cbn [snd]. rewrite Hg. cbn.
  rewrite lookup_insert_eq, E. split_and!; [done| |done]. intros [_ Hone]. apply Hne.
  apply (Hone k (ms_set_RankId GR_GUILDMASTER m)); [|done]. cbn. by rewrite lookup_alter_eq, Hm.
Qed.
End flaws.

(** ** Samples *)

Lemma sample_play rs : playable_all rs World_new -> world_ok (play rs World_new).
Proof. intros Hr. by apply (history_ok sample_env sample_penv sample_ienv), play_rtc. Qed.
Definition guild_in (w : World) (id : Z) : Guild := match m_GuildMap w !! id with Some g => g | None => Guild_new end.
Definition slot_in (g : Guild) (k : Z) : MemberSlot :=
  match members g !! k with Some m => m | None => mkMS 0 0 "" 0 0 0 0 0 "" "" end.

(** A sixth rank, and Bob in it. *)
Definition six_ranks : World :=
  play [Login (sample_player 1 "Ann"); Login (sample_player 2 "Bob"); ask CMSG_GUILD_CREATE 1 ["Wolves"%string];
        ask CMSG_GUILD_ADD_RANK 1 ["Peon"%string]; ask CMSG_GUILD_INVITE 1 ["Bob"%string]; ask CMSG_GUILD_ACCEPT 2 []] World_new.

Lemma deleted_rank_rights_witness :
  wp (fun _ => False) (HandleGuildDelRankOpcode sample_env 1)
    (fun _ w' => exists g', m_GuildMap w' !! 1 = Some g' /\ members g' !! 2 = Some (slot_in (guild_in six_ranks 1) 2)
       /\ forall right, HasRankRight (ms_RankId (slot_in (guild_in six_ranks 1) 2)) right g' = true) six_ranks
  /\ HasRankRight (ms_RankId (slot_in (guild_in six_ranks 1) 2)) GR_RIGHT_REMOVE (guild_in six_ranks 1) = false.
Proof.
  assert (HW : world_ok six_ranks) by (apply sample_play; sample_requests).
  assert (exists pl, w_players six_ranks !! 1 = Some pl /\ pl_guildId pl = 1) as (pl & Hpl & Hid)
    by (eexists; split; vm_compute; reflexivity).
  assert (Hg : m_GuildMap six_ranks !! pl_guildId pl = Some (guild_in six_ranks 1)) by (rewrite Hid; vm_compute; reflexivity).
  assert (Hlen : (5 < length (m_Ranks (guild_in six_ranks 1)))%nat) by (vm_compute; lia).
  assert (Hm : members (guild_in six_ranks 1) !! 2 = Some (slot_in (guild_in six_ranks 1) 2)) by (vm_compute; reflexivity).
  assert (Hl : 1 = m_LeaderGuid (guild_in six_ranks 1)) by (vm_compute; reflexivity).
  assert (Hr : ms_RankId (slot_in (guild_in six_ranks 1) 2) = GetLowestRank (guild_in six_ranks 1)) by (vm_compute; reflexivity).
  pose proof (deleted_rank_rights sample_env 1 pl (guild_in six_ranks 1) 2 (slot_in (guild_in six_ranks 1) 2) six_ranks
    HW Hpl Hg Hl Hlen Hm Hr) as H.
  rewrite Hid in H. split; [exact H|by vm_compute].
Defined.

(** Bob passes through a portal. *)
Definition bob_travels : World := play (take 5 sample_history ++ [Travel 2 false]) World_new.

Lemma removed_between_maps_witness :
  let c := (guild_in bob_travels 1, bob_travels) in
  exists pl, wp (fun _ => False) (DelMember sample_env 2 false)
    (fun last c' => last = false /\ members c'.1 !! 2 = None /\ m_guid2guild c'.2 !! 2 = None
       /\ t_guild_member (w_db c'.2) !! 2 = None /\ w_players c'.2 !! 2 = Some pl /\ pl_guildId pl = 1) c.
Proof.
  intros c. assert (HW : world_ok bob_travels) by (apply sample_play; sample_requests).
  assert (HG : good 1 c) by (apply good_registered; [exact HW|vm_compute; reflexivity]).
  assert (exists pl, w_players bob_travels !! 2 = Some pl /\ pl_inWorld pl = false) as (pl & Hpl & Hin)
    by (eexists; split; vm_compute; reflexivity).
  assert (Hm : members c.1 !! 2 = Some (slot_in c.1 2)) by (vm_compute; reflexivity).
  assert (Hne : 2 <> m_LeaderGuid c.1) by (vm_compute; discriminate).
  exists pl. exact (removed_between_maps sample_env (fun _ => False) 1 2 (slot_in c.1 2) pl c HG Hm Hne Hpl Hin).
Defined.

Definition sample_note : string :=
  String (Ascii.ascii_of_N 73) (String (Ascii.ascii_of_N 116) (String (Ascii.ascii_of_N 39) (String (Ascii.ascii_of_N 115) ""))).

Lemma note_kept_escaped_witness :
  escape_string sample_env sample_note <> sample_note
  /\ wp (fun _ => False) (SetPublicNote sample_env 2 sample_note)
    (fun _ c' => exists m' row', members c'.1 !! 2 = Some m' /\ ms_PublicNote m' = escape_string sample_env sample_note
       /\ t_guild_member (w_db c'.2) !! 2 = Some row' /\ mr_pnote row' = sample_note) (sample_guild, sample_world).
Proof.
  assert (Hk : keys_ok sample_guild) by exact (gb_keys _ (proj1 (proj2 sample_good))).
  assert (Hm : members sample_guild !! 2 = Some (slot_in sample_guild 2)) by (vm_compute; reflexivity).
  assert (exists row, t_guild_member (w_db sample_world) !! 2 = Some row) as [row Hrow]
    by (eexists; vm_compute; reflexivity).
  assert (Hne : ms_PublicNote (slot_in sample_guild 2) <> sample_note) by (vm_compute; discriminate).
  split; [vm_compute; discriminate|].
  exact (note_kept_escaped sample_env (fun _ => False) 2 sample_note _ row (sample_guild, sample_world) Hk Hm Hrow Hne eq_refl).
Defined.

(** A charter of player 3, signed by player 2. *)
Definition signed_world : World :=
  w_set_petitions {[5 := mkPetition 5 50 3 "Bears" 0 [mkSig 2 7]]}
    (w_on_db (on_sign (fun _ => {[(5, 2) := mkSRow 3 7]})) World_new).

Lemma withdrawn_signature_stays_witness :
  t_petition_sign (w_db (drop_signature sample_env 2 signed_world)) !! (5, 2) = Some (mkSRow 3 7)
  /\ forall pid pt s, m_petitionMap (drop_signature sample_env 2 signed_world) !! pid = Some pt ->
       s ∈ pt_signatures pt -> sg_playerGuid s <> 2.
Proof.
  assert (HP : petitions_ok (m_petitionMap signed_world)).
  { split; cbn.
    - by intros pid pt [<- <-]%lookup_singleton_Some.
    - intros pid pt [<- <-]%lookup_singleton_Some. apply NoDup_singleton.
    - by intros pid pt pid' pt' s s' [<- <-]%lookup_singleton_Some [<- <-]%lookup_singleton_Some.
    - intros pid pt s [<- <-]%lookup_singleton_Some ->%list_elem_of_singleton. cbn. lia.
    - by intros pid pt [<- <-]%lookup_singleton_Some.
    - intros pid pt [<- <-]%lookup_singleton_Some. cbn. lia. }
  apply (withdrawn_signature_stays sample_env 2 signed_world (5, 2) (mkSRow 3 7) HP); [done|vm_compute; discriminate].
Defined.

(** Bob logs out; Cid founds the Bears. *)
Definition two_guilds : World :=
  play (take 5 sample_history ++ [Logout 2 1; Login (sample_player 3 "Cid"); ask CMSG_GUILD_CREATE 3 ["Bears"%string]]) World_new.

Lemma invited_into_two_guilds_witness :
  wp (fun _ => False) (HandleGuildInviteCommand sample_env 1 2 "Bears")
    (fun ok w' => ok = true /\ exists g1 g2' row, m_GuildMap w' !! 1 = Some g1 /\ is_Some (members g1 !! 2)
       /\ m_GuildMap w' !! 2 = Some g2' /\ is_Some (members g2' !! 2)
       /\ t_guild_member (w_db w') !! 2 = Some row /\ mr_guildid row = 1) two_guilds.
Proof.
  assert (HW : world_ok two_guilds) by (apply sample_play; sample_requests).
  apply (invited_into_two_guilds sample_env (fun _ => False) 1 2 "Bears" (mkPCD 60 7 1 12 "Cid") (guild_in two_guilds 2) 1 two_guilds HW);
    first [lia|by vm_compute|vm_compute; congruence].
Defined.

Lemma second_guildmaster_witness :
  wp (fun _ => False) (HandleGuildRankCommand 1 false 2 GR_GUILDMASTER)
    (fun ok w' => ok = true /\ exists g', m_GuildMap w' !! 1 = Some g' /\ ~ leader_ok g'
       /\ m_LeaderGuid g' = m_LeaderGuid sample_guild) sample_world.
Proof.
  apply (second_guildmaster (fun _ => False) 1 2 (slot_in sample_guild 2) sample_guild sample_world sample_world_ok);
    [apply sample_registered|vm_compute; reflexivity|vm_compute; discriminate].
Defined.
