(* ===== verification/GroupData.v ===== *)
(** * Groups: data, players and the objects they live in

    [src/game/Group/Group.h] and [GroupReference.h], the group fields of
    [src/game/Objects/Player.h], the group map of [src/game/ObjectMgr.h] and
    the tables [groups] and [group_member].

    A group is an object on a heap: [Group*] is an address, a group that is
    deleted leaves it, and following a stale address is undefined behaviour.
    An online player is named by his guid. *)

From S2P Require Import Prelude ByteBuffer ObjectGuid Packets Effects Social.

Local Open Scope prog_scope.

(** ** Constants *)

Definition MAX_GROUP_SIZE := 5.
Definition MAX_RAID_SIZE := 40.
Definition MAX_RAID_SUBGROUPS := MAX_RAID_SIZE / MAX_GROUP_SIZE.
Definition TARGET_ICON_COUNT := 8.

Definition FREE_FOR_ALL := 0.
Definition MASTER_LOOT := 2.
Definition GROUP_LOOT := 3.
Definition NEED_BEFORE_GREED := 4.

Definition GROUP_LEAVE := 0.
Definition GROUP_KICK := 1.
Definition GROUP_JOIN := 0.
Definition GROUP_LFG := 1.

Definition ROLL_PASS := 0.
Definition ROLL_NEED := 1.
Definition ROLL_GREED := 2.
Definition MAX_ROLL_FROM_CLIENT := 3.
Definition ROLL_NOT_EMITED_YET := 3.
Definition ROLL_NOT_VALID := 4.

Definition MEMBER_STATUS_OFFLINE := 0x0000.
Definition MEMBER_STATUS_ONLINE := 0x0001.
Definition MEMBER_STATUS_PVP := 0x0002.
Definition MEMBER_STATUS_DEAD := 0x0004.
Definition MEMBER_STATUS_GHOST := 0x0008.
Definition MEMBER_STATUS_PVP_FFA := 0x0010.
Definition MEMBER_STATUS_AFK := 0x0040.
Definition MEMBER_STATUS_DND := 0x0080.

Definition GROUPTYPE_NORMAL := 0.
Definition GROUPTYPE_RAID := 1.

Definition GROUP_UPDATE_FLAG_NONE := 0x00000000.
Definition GROUP_UPDATE_FULL := 0x001FFFFF.

Definition ITEM_QUALITY_NORMAL := 1.
Definition ITEM_QUALITY_UNCOMMON := 2.
Definition ITEM_QUALITY_LEGENDARY := 5.

Definition TEAM_NONE := 0.
Definition TEAM_CROSSFACTION := 1.
Definition HORDE := 67.
Definition ALLIANCE := 469.

Definition RACE_HUMAN := 1.
Definition RACE_DWARF := 3.
Definition RACE_NIGHTELF := 4.
Definition RACE_GNOME := 7.
Definition RACE_HIGH_ELF := 10.

Definition MEETINGSTONE_STATUS_LEAVE_QUEUE := 0.
Definition MEETINGSTONE_STATUS_JOINED_QUEUE := 1.
Definition MEETINGSTONE_STATUS_PARTY_MEMBER_LEFT_LFG := 2.
Definition MEETINGSTONE_STATUS_PARTY_MEMBER_REMOVED_PARTY_REMOVED := 3.
Definition MEETINGSTONE_STATUS_LOOKING_FOR_NEW_PARTY_IN_QUEUE := 4.
Definition MEETINGSTONE_STATUS_NONE := 5.
Definition MEETINGSTONE_FAIL_PARTYLEADER := 1.
Definition MEETINGSTONE_FAIL_FULL_GROUP := 2.
Definition MEETINGSTONE_FAIL_RAID_GROUP := 3.

Definition CLASS_WARRIOR := 1.
Definition CLASS_PALADIN := 2.
Definition CLASS_HUNTER := 3.
Definition CLASS_ROGUE := 4.
Definition CLASS_PRIEST := 5.
Definition CLASS_SHAMAN := 7.
Definition CLASS_MAGE := 8.
Definition CLASS_WARLOCK := 9.
Definition CLASS_DRUID := 11.

Definition LFG_ROLE_NONE := 0x00.
Definition LFG_ROLE_TANK := 0x01.
Definition LFG_ROLE_HEALER := 0x02.
Definition LFG_ROLE_DPS := 0x04.
Definition LFG_PRIORITY_NONE := 0.
Definition LFG_PRIORITY_LOW := 1.
Definition LFG_PRIORITY_NORMAL := 2.
Definition LFG_PRIORITY_HIGH := 3.
Definition PLAYER_CLIENT_LEAVE := 0.
Definition PLAYER_SYSTEM_LEAVE := 1.
Definition GROUP_CLIENT_LEAVE := 0.
Definition GROUP_SYSTEM_LEAVE := 1.

Definition SMSG_GROUP_INVITE := 0x06F.
Definition SMSG_GROUP_DECLINE := 0x074.
Definition SMSG_GROUP_UNINVITE := 0x077.
Definition SMSG_GROUP_SET_LEADER := 0x079.
Definition SMSG_GROUP_DESTROYED := 0x07C.
Definition SMSG_GROUP_LIST := 0x07D.
Definition SMSG_PARTY_COMMAND_RESULT := 0x07F.
Definition MSG_MINIMAP_PING := 0x1D5.
Definition MSG_RANDOM_ROLL := 0x1FB.
Definition GAMEOBJECT_TYPE_MEETINGSTONE := 23.
Definition SMSG_MEETINGSTONE_SETQUEUE := 0x295.
Definition SMSG_MEETINGSTONE_COMPLETE := 0x297.
Definition SMSG_MEETINGSTONE_IN_PROGRESS := 0x298.
Definition SMSG_MEETINGSTONE_MEMBER_ADDED := 0x299.
Definition SMSG_MEETINGSTONE_JOINFAILED := 0x2BB.
Definition SMSG_LOOT_ALL_PASSED := 0x29E.
Definition SMSG_LOOT_ROLL_WON := 0x29F.
Definition SMSG_LOOT_START_ROLL := 0x2A1.
Definition SMSG_LOOT_ROLL := 0x2A2.
Definition SMSG_LOOT_MASTER_LIST := 0x2A4.
Definition MSG_RAID_TARGET_UPDATE := 0x321.
Definition MSG_RAID_READY_CHECK := 0x322.

(** ** Members, rolls and loot *)

Record MemberSlot := mkMS { ms_guid : Z; ms_name : string; ms_group : Z; ms_assistant : bool }.
Definition ms_set_group (v : Z) (m : MemberSlot) : MemberSlot := mkMS (ms_guid m) (ms_name m) v (ms_assistant m).
Definition ms_set_assistant (v : bool) (m : MemberSlot) : MemberSlot := mkMS (ms_guid m) (ms_name m) (ms_group m) v.

(** The reference of a roll to its loot is empty once the loot is cleared. *)
Record Roll := mkRoll {
  lootedTargetGUID : Z; r_itemid : Z; itemRandomPropId : Z; playerVote : gmap Z Z;
  totalPlayersRolling : Z; totalNeed : Z; totalGreed : Z; totalPass : Z; itemSlot : Z; r_loot : option Z }.
Definition Roll_new (target itemid randomPropertyId : Z) : Roll :=
  mkRoll target itemid randomPropertyId ∅ 0 0 0 0 0 None.
Definition set_votes (votes : gmap Z Z) (rolling need greed pass : Z) (r : Roll) : Roll :=
  mkRoll (lootedTargetGUID r) (r_itemid r) (itemRandomPropId r) votes rolling need greed pass (itemSlot r) (r_loot r).
Definition set_loot (slot : Z) (loot : option Z) (r : Roll) : Roll :=
  mkRoll (lootedTargetGUID r) (r_itemid r) (itemRandomPropId r) (playerVote r) (totalPlayersRolling r)
    (totalNeed r) (totalGreed r) (totalPass r) slot loot.

Record LootItem := mkLI {
  li_itemid : Z; li_randomPropertyId : Z; li_count : Z; is_looted : bool; is_blocked : bool;
  freeforall : bool; is_underthreshold : bool; lootOwner : Z }.
Definition li_set (looted blocked under : bool) (owner : Z) (i : LootItem) : LootItem :=
  mkLI (li_itemid i) (li_randomPropertyId i) (li_count i) looted blocked (freeforall i) under owner.
Record Loot := mkLoot { items : list LootItem; unlootedCount : Z }.

(** ** The group *)

Record Group := mkGroup {
  m_Id : Z; m_memberSlots : list MemberSlot; m_memberMgr : list (Z * bool); m_invitees : gset Z;
  m_leaderGuid : Z; m_leaderName : string; m_leaderLastOnline : Z; m_mainTankGuid : Z;
  m_mainAssistantGuid : Z; m_groupType : Z; m_bgGroup : bool; m_targetIcons : list Z;
  m_lootMethod : Z; m_lootThreshold : Z; m_looterGuid : Z; RollId : list Roll;
  m_subGroupsCounts : option (list Z); m_groupTeam : Z; m_LFGAreaId : Z; m_isCrossfaction : bool }.

(** [Group::Group()]. *)
Definition Group_new : Group :=
  mkGroup 0 [] [] ∅ 0 "" 0 0 0 GROUPTYPE_NORMAL false (replicate 8 0) FREE_FOR_ALL ITEM_QUALITY_UNCOMMON 0 []
    None TEAM_NONE 0 false.

Definition set_Id v g := mkGroup v (m_memberSlots g) (m_memberMgr g) (m_invitees g) (m_leaderGuid g)
  (m_leaderName g) (m_leaderLastOnline g) (m_mainTankGuid g) (m_mainAssistantGuid g) (m_groupType g) (m_bgGroup
  g) (m_targetIcons g) (m_lootMethod g) (m_lootThreshold g) (m_looterGuid g) (RollId g) (m_subGroupsCounts g)
  (m_groupTeam g) (m_LFGAreaId g) (m_isCrossfaction g).
Definition set_slots v g := mkGroup (m_Id g) v (m_memberMgr g) (m_invitees g) (m_leaderGuid g) (m_leaderName
  g) (m_leaderLastOnline g) (m_mainTankGuid g) (m_mainAssistantGuid g) (m_groupType g) (m_bgGroup g)
  (m_targetIcons g) (m_lootMethod g) (m_lootThreshold g) (m_looterGuid g) (RollId g) (m_subGroupsCounts g)
  (m_groupTeam g) (m_LFGAreaId g) (m_isCrossfaction g).
Definition set_memberMgr v g := mkGroup (m_Id g) (m_memberSlots g) v (m_invitees g) (m_leaderGuid g)
  (m_leaderName g) (m_leaderLastOnline g) (m_mainTankGuid g) (m_mainAssistantGuid g) (m_groupType g) (m_bgGroup
  g) (m_targetIcons g) (m_lootMethod g) (m_lootThreshold g) (m_looterGuid g) (RollId g) (m_subGroupsCounts g)
  (m_groupTeam g) (m_LFGAreaId g) (m_isCrossfaction g).
Definition set_invitees v g := mkGroup (m_Id g) (m_memberSlots g) (m_memberMgr g) v (m_leaderGuid g)
  (m_leaderName g) (m_leaderLastOnline g) (m_mainTankGuid g) (m_mainAssistantGuid g) (m_groupType g) (m_bgGroup
  g) (m_targetIcons g) (m_lootMethod g) (m_lootThreshold g) (m_looterGuid g) (RollId g) (m_subGroupsCounts g)
  (m_groupTeam g) (m_LFGAreaId g) (m_isCrossfaction g).
Definition set_leader v0 v1 g := mkGroup (m_Id g) (m_memberSlots g) (m_memberMgr g) (m_invitees g) v0 v1
  (m_leaderLastOnline g) (m_mainTankGuid g) (m_mainAssistantGuid g) (m_groupType g) (m_bgGroup g) (m_targetIcons
  g) (m_lootMethod g) (m_lootThreshold g) (m_looterGuid g) (RollId g) (m_subGroupsCounts g) (m_groupTeam g)
  (m_LFGAreaId g) (m_isCrossfaction g).
Definition set_lastOnline v g := mkGroup (m_Id g) (m_memberSlots g) (m_memberMgr g) (m_invitees g)
  (m_leaderGuid g) (m_leaderName g) v (m_mainTankGuid g) (m_mainAssistantGuid g) (m_groupType g) (m_bgGroup g)
  (m_targetIcons g) (m_lootMethod g) (m_lootThreshold g) (m_looterGuid g) (RollId g) (m_subGroupsCounts g)
  (m_groupTeam g) (m_LFGAreaId g) (m_isCrossfaction g).
Definition set_mainTank v g := mkGroup (m_Id g) (m_memberSlots g) (m_memberMgr g) (m_invitees g) (m_leaderGuid
  g) (m_leaderName g) (m_leaderLastOnline g) v (m_mainAssistantGuid g) (m_groupType g) (m_bgGroup g)
  (m_targetIcons g) (m_lootMethod g) (m_lootThreshold g) (m_looterGuid g) (RollId g) (m_subGroupsCounts g)
  (m_groupTeam g) (m_LFGAreaId g) (m_isCrossfaction g).
Definition set_mainAssistant v g := mkGroup (m_Id g) (m_memberSlots g) (m_memberMgr g) (m_invitees g)
  (m_leaderGuid g) (m_leaderName g) (m_leaderLastOnline g) (m_mainTankGuid g) v (m_groupType g) (m_bgGroup g)
  (m_targetIcons g) (m_lootMethod g) (m_lootThreshold g) (m_looterGuid g) (RollId g) (m_subGroupsCounts g)
  (m_groupTeam g) (m_LFGAreaId g) (m_isCrossfaction g).
Definition set_groupType v g := mkGroup (m_Id g) (m_memberSlots g) (m_memberMgr g) (m_invitees g)
  (m_leaderGuid g) (m_leaderName g) (m_leaderLastOnline g) (m_mainTankGuid g) (m_mainAssistantGuid g) v
  (m_bgGroup g) (m_targetIcons g) (m_lootMethod g) (m_lootThreshold g) (m_looterGuid g) (RollId g)
  (m_subGroupsCounts g) (m_groupTeam g) (m_LFGAreaId g) (m_isCrossfaction g).
Definition set_bgGroup v g := mkGroup (m_Id g) (m_memberSlots g) (m_memberMgr g) (m_invitees g) (m_leaderGuid
  g) (m_leaderName g) (m_leaderLastOnline g) (m_mainTankGuid g) (m_mainAssistantGuid g) (m_groupType g) v
  (m_targetIcons g) (m_lootMethod g) (m_lootThreshold g) (m_looterGuid g) (RollId g) (m_subGroupsCounts g)
  (m_groupTeam g) (m_LFGAreaId g) (m_isCrossfaction g).
Definition set_targetIcons v g := mkGroup (m_Id g) (m_memberSlots g) (m_memberMgr g) (m_invitees g)
  (m_leaderGuid g) (m_leaderName g) (m_leaderLastOnline g) (m_mainTankGuid g) (m_mainAssistantGuid g)
  (m_groupType g) (m_bgGroup g) v (m_lootMethod g) (m_lootThreshold g) (m_looterGuid g) (RollId g)
  (m_subGroupsCounts g) (m_groupTeam g) (m_LFGAreaId g) (m_isCrossfaction g).
Definition set_lootRules v0 v1 g := mkGroup (m_Id g) (m_memberSlots g) (m_memberMgr g) (m_invitees g)
  (m_leaderGuid g) (m_leaderName g) (m_leaderLastOnline g) (m_mainTankGuid g) (m_mainAssistantGuid g)
  (m_groupType g) (m_bgGroup g) (m_targetIcons g) v0 v1 (m_looterGuid g) (RollId g) (m_subGroupsCounts g)
  (m_groupTeam g) (m_LFGAreaId g) (m_isCrossfaction g).
Definition set_looterGuid v g := mkGroup (m_Id g) (m_memberSlots g) (m_memberMgr g) (m_invitees g)
  (m_leaderGuid g) (m_leaderName g) (m_leaderLastOnline g) (m_mainTankGuid g) (m_mainAssistantGuid g)
  (m_groupType g) (m_bgGroup g) (m_targetIcons g) (m_lootMethod g) (m_lootThreshold g) v (RollId g)
  (m_subGroupsCounts g) (m_groupTeam g) (m_LFGAreaId g) (m_isCrossfaction g).
Definition set_rolls v g := mkGroup (m_Id g) (m_memberSlots g) (m_memberMgr g) (m_invitees g) (m_leaderGuid g)
  (m_leaderName g) (m_leaderLastOnline g) (m_mainTankGuid g) (m_mainAssistantGuid g) (m_groupType g) (m_bgGroup
  g) (m_targetIcons g) (m_lootMethod g) (m_lootThreshold g) (m_looterGuid g) v (m_subGroupsCounts g)
  (m_groupTeam g) (m_LFGAreaId g) (m_isCrossfaction g).
Definition set_counts v g := mkGroup (m_Id g) (m_memberSlots g) (m_memberMgr g) (m_invitees g) (m_leaderGuid
  g) (m_leaderName g) (m_leaderLastOnline g) (m_mainTankGuid g) (m_mainAssistantGuid g) (m_groupType g)
  (m_bgGroup g) (m_targetIcons g) (m_lootMethod g) (m_lootThreshold g) (m_looterGuid g) (RollId g) v
  (m_groupTeam g) (m_LFGAreaId g) (m_isCrossfaction g).
Definition set_groupTeam v g := mkGroup (m_Id g) (m_memberSlots g) (m_memberMgr g) (m_invitees g)
  (m_leaderGuid g) (m_leaderName g) (m_leaderLastOnline g) (m_mainTankGuid g) (m_mainAssistantGuid g)
  (m_groupType g) (m_bgGroup g) (m_targetIcons g) (m_lootMethod g) (m_lootThreshold g) (m_looterGuid g) (RollId
  g) (m_subGroupsCounts g) v (m_LFGAreaId g) (m_isCrossfaction g).
Definition set_crossfaction v g := mkGroup (m_Id g) (m_memberSlots g) (m_memberMgr g) (m_invitees g)
  (m_leaderGuid g) (m_leaderName g) (m_leaderLastOnline g) (m_mainTankGuid g) (m_mainAssistantGuid g)
  (m_groupType g) (m_bgGroup g) (m_targetIcons g) (m_lootMethod g) (m_lootThreshold g) (m_looterGuid g) (RollId
  g) (m_subGroupsCounts g) (m_groupTeam g) (m_LFGAreaId g) v.
(** [Group::SetLFGAreaId]. *)
Definition set_LFGAreaId v g := mkGroup (m_Id g) (m_memberSlots g) (m_memberMgr g) (m_invitees g)
  (m_leaderGuid g) (m_leaderName g) (m_leaderLastOnline g) (m_mainTankGuid g) (m_mainAssistantGuid g)
  (m_groupType g) (m_bgGroup g) (m_targetIcons g) (m_lootMethod g) (m_lootThreshold g) (m_looterGuid g) (RollId
  g) (m_subGroupsCounts g) (m_groupTeam g) v (m_isCrossfaction g).

(** ** Players *)

(** [m_group] and [m_originalGroup] with their subgroups, and [m_groupInvite]. *)
Record GroupRefs := mkRefs {
  m_group : option Z; iSubGroup : Z; m_originalGroup : option Z; iOriginalSubGroup : Z;
  m_groupInvite : option Z }.
Definition NoRefs : GroupRefs := mkRefs None 0 None 0 None.

(** What [GetGroupMemberStatus] reads. *)
Record PlayerState := mkPState { IsPvP : bool; IsDead : bool; IsGhost : bool; IsFFAPvP : bool; IsAFK : bool; IsDND : bool }.

Record Player := mkPlayer {
  pl_guid : Z; pl_name : string; pl_team : Z; pl_level : Z; pl_hardcore : bool; pl_inWorld : bool;
  pl_logout : bool; pl_inBattleGround : bool; pl_mapId : Z; pl_instanceId : Z; pl_social : PlayerSocial;
  pl_state : PlayerState; pl_refs : GroupRefs; pl_leaderFlag : bool; m_groupUpdateMask : Z; pl_class : Z }.
Definition pl_set (inWorld : bool) (refs : GroupRefs) (flag : bool) (mask : Z) (p : Player) : Player :=
  mkPlayer (pl_guid p) (pl_name p) (pl_team p) (pl_level p) (pl_hardcore p) inWorld (pl_logout p)
    (pl_inBattleGround p) (pl_mapId p) (pl_instanceId p) (pl_social p) (pl_state p) refs flag mask (pl_class p).
Definition set_refs (f : GroupRefs -> GroupRefs) (p : Player) : Player :=
  pl_set (pl_inWorld p) (f (pl_refs p)) (pl_leaderFlag p) (m_groupUpdateMask p) p.
Definition set_leaderFlag (b : bool) (p : Player) : Player :=
  pl_set (pl_inWorld p) (pl_refs p) b (m_groupUpdateMask p) p.
(** [Player::SetGroupUpdateFlag]. *)
Definition SetGroupUpdateFlag (flag : Z) (p : Player) : Player :=
  pl_set (pl_inWorld p) (pl_refs p) (pl_leaderFlag p) (Z.lor (m_groupUpdateMask p) flag) p.
Definition SetInWorld (b : bool) (p : Player) : Player :=
  pl_set b (pl_refs p) (pl_leaderFlag p) (m_groupUpdateMask p) p.

Definition GetGroup (p : Player) : option Z := m_group (pl_refs p).
Definition GetSubGroup (p : Player) : Z := iSubGroup (pl_refs p).
Definition GetOriginalGroup (p : Player) : option Z := m_originalGroup (pl_refs p).
Definition GetOriginalSubGroup (p : Player) : Z := iOriginalSubGroup (pl_refs p).
Definition GetGroupInvite (p : Player) : option Z := m_groupInvite (pl_refs p).
(** [Player::SetGroupInvite]. *)
Definition SetGroupInvite (group : option Z) : Player -> Player :=
  set_refs (fun r => mkRefs (m_group r) (iSubGroup r) (m_originalGroup r) (iOriginalSubGroup r) group).

(** The cached data of a character, online or not. *)
Record PlayerCacheData := mkPCD {
  sName : string; uiRace : Z; pc_level : Z; pc_hardcore : bool; uiClass : Z }.

(** ** The tables *)

Record groups_row := mkGRow {
  gr_leaderGuid : Z; gr_mainTank : Z; gr_mainAssistant : Z; gr_lootMethod : Z; gr_looterGuid : Z;
  gr_lootThreshold : Z; gr_icons : list Z; gr_isRaid : bool }.
Record member_row := mkMRow { mr_assistant : bool; mr_subgroup : Z }.

(** ** The role queue

    [src/game/LFG/LFGMgr.h]: players and groups that wait at meeting stones. *)

Record LFGPlayerQueueInfo := mkLFGP {
  roleMask : Z; lp_team : Z; lp_areaId : Z; timeInLFG : Z; hasQueuePriority : bool; lp_isHardcore : bool;
  lp_name : string; rolePriority : list (Z * Z) }.
Definition LFGPlayerQueueInfo_new : LFGPlayerQueueInfo := mkLFGP 0 0 0 0 false false "" [].
Record LFGGroupQueueInfo := mkLFGG {
  availableRoles : Z; dpsCount : Z; lg_team : Z; lg_areaId : Z; lg_isHardcore : bool; groupTimer : Z }.
Record LFGQueue := mkLFG {
  m_QueuedPlayers : gmap Z LFGPlayerQueueInfo; m_OfflinePlayers : gmap Z LFGPlayerQueueInfo;
  m_QueuedGroups : gmap Z LFGGroupQueueInfo }.

(** ** The world *)

Record GroupWorld := mkGW {
  w_players : gmap Z Player; w_names : gmap string Z; w_heap : gmap Z Group; w_next : Z;
  m_GroupMap : gmap Z Z; m_GroupIds : Z; w_loots : gmap Z Loot; w_draws : Z;
  t_groups : gmap Z groups_row; t_group_member : gmap (Z * Z) member_row;
  w_lfg : LFGQueue }.
Definition w_set_players v w := mkGW v (w_names w) (w_heap w) (w_next w) (m_GroupMap w) (m_GroupIds w)
  (w_loots w) (w_draws w) (t_groups w) (t_group_member w) (w_lfg w).
Definition w_set_heap v w := mkGW (w_players w) (w_names w) v (w_next w) (m_GroupMap w) (m_GroupIds w)
  (w_loots w) (w_draws w) (t_groups w) (t_group_member w) (w_lfg w).
Definition w_set_alloc v0 v1 w := mkGW (w_players w) (w_names w) v0 v1 (m_GroupMap w) (m_GroupIds w) (w_loots
  w) (w_draws w) (t_groups w) (t_group_member w) (w_lfg w).
Definition w_set_GroupMap v w := mkGW (w_players w) (w_names w) (w_heap w) (w_next w) v (m_GroupIds w)
  (w_loots w) (w_draws w) (t_groups w) (t_group_member w) (w_lfg w).
Definition w_set_GroupIds v w := mkGW (w_players w) (w_names w) (w_heap w) (w_next w) (m_GroupMap w) v
  (w_loots w) (w_draws w) (t_groups w) (t_group_member w) (w_lfg w).
Definition w_set_loots v w := mkGW (w_players w) (w_names w) (w_heap w) (w_next w) (m_GroupMap w) (m_GroupIds
  w) v (w_draws w) (t_groups w) (t_group_member w) (w_lfg w).
Definition w_set_draws v w := mkGW (w_players w) (w_names w) (w_heap w) (w_next w) (m_GroupMap w) (m_GroupIds
  w) (w_loots w) v (t_groups w) (t_group_member w) (w_lfg w).
Definition w_set_groups v w := mkGW (w_players w) (w_names w) (w_heap w) (w_next w) (m_GroupMap w) (m_GroupIds
  w) (w_loots w) (w_draws w) v (t_group_member w) (w_lfg w).
Definition w_set_group_member v w := mkGW (w_players w) (w_names w) (w_heap w) (w_next w) (m_GroupMap w)
  (m_GroupIds w) (w_loots w) (w_draws w) (t_groups w) v (w_lfg w).

Definition w_set_lfg v w := mkGW (w_players w) (w_names w) (w_heap w) (w_next w) (m_GroupMap w) (m_GroupIds w)
  (w_loots w) (w_draws w) (t_groups w) (t_group_member w) v.
Definition on_players (f : gmap Z LFGPlayerQueueInfo -> gmap Z LFGPlayerQueueInfo) (w : GroupWorld) : GroupWorld :=
  w_set_lfg (mkLFG (f (m_QueuedPlayers (w_lfg w))) (m_OfflinePlayers (w_lfg w)) (m_QueuedGroups (w_lfg w))) w.
Definition on_offline (f : gmap Z LFGPlayerQueueInfo -> gmap Z LFGPlayerQueueInfo) (w : GroupWorld) : GroupWorld :=
  w_set_lfg (mkLFG (m_QueuedPlayers (w_lfg w)) (f (m_OfflinePlayers (w_lfg w))) (m_QueuedGroups (w_lfg w))) w.
Definition on_groups (f : gmap Z LFGGroupQueueInfo -> gmap Z LFGGroupQueueInfo) (w : GroupWorld) : GroupWorld :=
  w_set_lfg (mkLFG (m_QueuedPlayers (w_lfg w)) (m_OfflinePlayers (w_lfg w)) (f (m_QueuedGroups (w_lfg w)))) w.

(** ** The rest of the server

    [urand n lo hi] is the [n]-th number drawn.  A character of the cache is
    named by the counter of its guid, a loot and a player by address and guid.
    [MeetingStone k guid] is the type and the area of the object [guid] when
    the player [k] can interact with it. *)
Record GroupEnv := mkGE {
  invite_order : gset Z -> list Z;
  group_order : gmap Z Z -> list Z;
  vote_order : gmap Z Z -> list Z;
  time_now : Z;
  urand : Z -> Z -> Z -> Z;
  GetPlayerDataByGUID : Z -> option PlayerCacheData;
  TeamForRace : Z -> Z;
  GetPlayerGuidByName : string -> Z;
  normalizePlayerName : string -> bool * string;
  HardcoreResult : Z -> Z -> option string;
  CanMemberAccept : Z -> Z -> bool;
  LeaderLoading : Z -> bool;
  IsWithinLootXPDist : Z -> Z -> bool;
  CanUseItem : Z -> Z -> bool;
  AllowedForPlayer : LootItem -> Z -> Z -> bool;
  IsAllowedLooter : Z -> Z -> bool;
  ItemQuality : Z -> option Z;
  CanStoreNewItem : Z -> Z -> Z -> Z;
  GroupLootTimer : Z -> Z -> Z;
  IsSelfMover : Z -> bool;
  MeetingStone : Z -> Z -> option (Z * Z);
  CONFIG_ALLOW_TWO_SIDE_INTERACTION_GROUP : bool }.

(** ** Programs *)

Definition GM (A : Type) : Type := St (GroupWorld * list effect) ByteBufferException A.
Definition look {A} (f : GroupWorld -> A) : GM A := st_get (fun s => f s.1).
Definition alter_world (f : GroupWorld -> GroupWorld) : GM unit := st_mod (fun s => (f s.1, s.2)).
Definition call (c : group_call) : GM unit := ev (EvGroup c).
Definition aborts {A} : GM A := fun s => (Abort, s).

(** [group->...] and [player->...]. *)
Definition group_at (a : Z) : GM Group := let! g := look (fun w => w_heap w !! a) in deref g.
Definition g_mod (a : Z) (f : Group -> Group) : GM unit :=
  group_at a ;;; alter_world (fun w => w_set_heap (alter f a (w_heap w)) w).
Definition player_at (k : Z) : GM Player := let! p := look (fun w => w_players w !! k) in deref p.
Definition p_mod (k : Z) (f : Player -> Player) : GM unit :=
  player_at k ;;; alter_world (fun w => w_set_players (alter f k (w_players w)) w).

(** [ObjectAccessor::FindPlayerNotInWorld]; [ObjectMgr::GetPlayer] by guid and
    by name. *)
Definition FindPlayerNotInWorld (guid : Z) (w : GroupWorld) : option Player :=
  if guid =? 0 then None else w_players w !! guid.
Definition GetPlayer (guid : Z) (w : GroupWorld) : option Player :=
  match FindPlayerNotInWorld guid w with
  | Some p => if pl_inWorld p then Some p else None
  | None => None
  end.
Definition GetPlayer_name (name : string) (w : GroupWorld) : option Player :=
  match w_names w !! name with Some k => GetPlayer k w | None => None end.

(** [player->GetSession()->SendPacket(...)] with the packet that [k] writes. *)
Definition send (to : Z) (k : PK unit) : GM unit := let! data := made k in ev (EvSend to data).

(** ** References between players and groups

    [Reference<Group, Player>]: [link] puts a player at the head of the list of
    the group, [unlink] takes him out; [DelinkMember] is empty. *)

Definition ref_of (original : bool) (p : Player) : option Z :=
  if original then GetOriginalGroup p else GetGroup p.
Definition set_ref (original : bool) (a : option Z) : Player -> Player := set_refs (fun r =>
  if original then mkRefs (m_group r) (iSubGroup r) a (iOriginalSubGroup r) (m_groupInvite r)
  else mkRefs a (iSubGroup r) (m_originalGroup r) (iOriginalSubGroup r) (m_groupInvite r)).
(** [GroupReference::setSubGroup]. *)
Definition setSubGroup (original : bool) (v : Z) : Player -> Player := set_refs (fun r =>
  if original then mkRefs (m_group r) (iSubGroup r) (m_originalGroup r) v (m_groupInvite r)
  else mkRefs (m_group r) v (m_originalGroup r) (iOriginalSubGroup r) (m_groupInvite r)).

Definition unlink (original : bool) (k : Z) : GM unit :=
  let! p := player_at k in
  match ref_of original p with
  | Some a =>
      g_mod a (fun g => set_memberMgr (filter (fun e => e <> (k, original)) (m_memberMgr g)) g) ;;;
      p_mod k (set_ref original None)
  | None => st_ret tt
  end.
Definition link (original : bool) (a k : Z) : GM unit :=
  unlink original k ;;;
  p_mod k (set_ref original (Some a)) ;;;
  g_mod a (fun g => set_memberMgr ((k, original) :: m_memberMgr g) g).

(** [Player::SetGroup] and [Player::SetOriginalGroup]; the subgroup is an
    [int8]. *)
Definition set_group (original : bool) (k : Z) (group : option Z) (subgroup : Z) : GM unit :=
  match group with
  | None => unlink original k
  | Some a =>
      if s8 subgroup <? 0 then aborts
      else link original a k ;;; p_mod k (setSubGroup original (u8 (s8 subgroup)))
  end.
Definition SetGroup : Z -> option Z -> Z -> GM unit := set_group false.
Definition SetOriginalGroup : Z -> option Z -> Z -> GM unit := set_group true.
Definition SetBattleGroundRaid (k : Z) (a subgroup : Z) : GM unit :=
  let! p := player_at k in
  SetOriginalGroup k (GetGroup p) (GetSubGroup p) ;;;
  unlink false k ;;; link false a k ;;; p_mod k (setSubGroup false (u8 (s8 subgroup))).
Definition RemoveFromBattleGroundRaid (k : Z) : GM unit :=
  unlink false k ;;;
  let! p := player_at k in
  (match GetOriginalGroup p with
   | Some a => link false a k ;;; p_mod k (setSubGroup false (GetOriginalSubGroup p))
   | None => st_ret tt
   end) ;;;
  SetOriginalGroup k None 0.

(** [RefManager::clearReferences]: every reference to the group is emptied. *)
Fixpoint clear_refs (l : list (Z * bool)) (ps : gmap Z Player) : gmap Z Player :=
  match l with
  | [] => ps
  | (k, original) :: l' => clear_refs l' (alter (set_ref original None) k ps)
  end.

(** [new Group]. *)
Definition new_group : GM Z :=
  let! a := look w_next in
  alter_world (fun w => w_set_alloc (<[w_next w := Group_new]> (w_heap w)) (w_next w + 1) w) ;;;
  st_ret a.

(** [Group::GetFirstMember] and the rest of the chain. *)
Definition GetMembers (a : Z) : GM (list (Z * bool)) := let! g := group_at a in st_ret (m_memberMgr g).
(** The subgroup of the reference a chain element belongs to. *)
Definition ref_subGroup (original : bool) (p : Player) : Z :=
  if original then GetOriginalSubGroup p else GetSubGroup p.
