(* ===== verification/GroupRolls.v ===== *)
(** * Group: loot rolls

    The loot part of [src/game/Group/Group.cpp].  [RollId] is a list; an
    iterator into it is an index.  A loot lives on a heap of its own, and
    clearing it ([Loot::clear] of [src/game/LootMgr.h]) empties the reference
    of every roll on it. *)

From S2P Require Import Prelude ByteBuffer ObjectGuid Packets Effects Social GroupData.

Local Open Scope prog_scope.

Definition LOOT_ROLL_TIMEOUT := 60000.

Section rolls.
Context (env : GroupEnv).

(** [Roll::isValid]. *)
Definition isValid (r : Roll) : bool := bool_decide (is_Some (r_loot r)).

Definition roll_at (a : Z) (i : nat) : GM Roll := let! g := group_at a in deref (RollId g !! i).
Definition roll_mod (a : Z) (i : nat) (f : Roll -> Roll) : GM unit :=
  g_mod a (fun g => set_rolls (alter f i (RollId g)) g).
Definition loot_at (l : Z) : GM Loot := let! x := look (fun w => w_loots w !! l) in deref x.
Definition item_at (l slot : Z) : GM LootItem :=
  let! x := loot_at l in deref (items x !! Z.to_nat slot).
Definition item_mod (l slot : Z) (f : LootItem -> LootItem) : GM unit :=
  item_at l slot ;;;
  alter_world (fun w => w_set_loots (alter (fun x =>
    mkLoot (alter f (Z.to_nat slot) (items x)) (unlootedCount x)) l (w_loots w)) w).
(** [roll->getLoot()->...]. *)
Definition getLoot (r : Roll) : GM Z := deref (r_loot r).

(** ** Packets *)

Definition StartRollPacket (CountDown : Z) (r : Roll) : PK unit :=
  pk_init SMSG_LOOT_START_ROLL ;;; pk_guid (lootedTargetGUID r) ;;; pk_u32 (itemSlot r) ;;;
  pk_u32 (r_itemid r) ;;; pk_u32 0 ;;; pk_u32 (itemRandomPropId r) ;;; pk_u32 CountDown.
Definition RollPacket (targetGuid rollNumber rollType : Z) (r : Roll) : PK unit :=
  pk_init SMSG_LOOT_ROLL ;;; pk_guid (lootedTargetGUID r) ;;; pk_u32 (itemSlot r) ;;; pk_guid targetGuid ;;;
  pk_u32 (r_itemid r) ;;; pk_u32 0 ;;; pk_u32 (itemRandomPropId r) ;;; pk_u8 rollNumber ;;; pk_u8 rollType.
Definition RollWonPacket (targetGuid rollNumber rollType : Z) (r : Roll) : PK unit :=
  pk_init SMSG_LOOT_ROLL_WON ;;; pk_guid (lootedTargetGUID r) ;;; pk_u32 (itemSlot r) ;;; pk_u32 (r_itemid r) ;;;
  pk_u32 0 ;;; pk_u32 (itemRandomPropId r) ;;; pk_guid targetGuid ;;; pk_u8 rollNumber ;;; pk_u8 rollType.
Definition AllPassedPacket (r : Roll) : PK unit :=
  pk_init SMSG_LOOT_ALL_PASSED ;;; pk_guid (lootedTargetGUID r) ;;; pk_u32 (itemSlot r) ;;; pk_u32 (r_itemid r) ;;;
  pk_u32 (itemRandomPropId r) ;;; pk_u32 0.

(** The loop over the votes the four senders share. *)
Definition to_voters (k : PK unit) (r : Roll) : GM unit :=
  let! data := made k in
  each (fun guid =>
    let! p := look (GetPlayer guid) in
    match p, playerVote r !! guid with
    | Some _, Some v => if v =? ROLL_NOT_VALID then st_ret tt else ev (EvSend guid data)
    | _, _ => st_ret tt
    end) (vote_order env (playerVote r)).
Definition SendLootStartRoll (CountDown : Z) (r : Roll) : GM unit := to_voters (StartRollPacket CountDown r) r.
Definition SendLootRoll (targetGuid rollNumber rollType : Z) (r : Roll) : GM unit :=
  to_voters (RollPacket targetGuid rollNumber rollType r) r.
Definition SendLootRollWon (targetGuid rollNumber rollType : Z) (r : Roll) : GM unit :=
  to_voters (RollWonPacket targetGuid rollNumber rollType r) r.
Definition SendLootAllPassed (r : Roll) : GM unit := to_voters (AllPassedPacket r) r.

(** ** Ending a roll *)

(** [urand(1, 100)] and the next draw. *)
Definition draw (lo hi : Z) : GM Z :=
  let! n := look w_draws in
  alter_world (w_set_draws (n + 1)) ;;; st_ret (urand env n lo hi).

(** The loop of [CountTheRoll] over the voters of one kind. *)
Fixpoint contest (kind : Z) (r : Roll) (voters : list Z) (maxguid maxresul : Z) : GM (Z * Z) :=
  match voters with
  | [] => st_ret (maxguid, maxresul)
  | k :: voters' =>
      if bool_decide (playerVote r !! k = Some kind) then
        let! n := draw 1 100 in
        let randomN := u8 n in
        SendLootRoll k randomN kind r ;;;
        (if maxresul <? randomN then contest kind r voters' k randomN
         else contest kind r voters' maxguid maxresul)
      else contest kind r voters' maxguid maxresul
  end.

(** What a winner in the world is given. *)
Definition award (maxguid : Z) (r : Roll) (l : Z) : GM unit :=
  let! item := item_at l (itemSlot r) in
  let msg := CanStoreNewItem env maxguid (r_itemid r) (li_count item) in
  if msg =? 0 then
    item_mod l (itemSlot r) (fun i => li_set true (is_blocked i) (is_underthreshold i) (lootOwner i) i) ;;;
    call (GLootRemoved l (itemSlot r)) ;;;
    alter_world (fun w => w_set_loots (alter (fun x => mkLoot (items x) (u8 (unlootedCount x - 1))) l (w_loots w)) w) ;;;
    call (GStoreItem maxguid (r_itemid r) (li_randomPropertyId item))
  else
    item_mod l (itemSlot r) (fun i => li_set (is_looted i) false (is_underthreshold i) maxguid i) ;;;
    call (GEquipError maxguid msg (r_itemid r)).

(** [RollId.erase(rollI); delete roll]. *)
Definition erase_roll (a : Z) (i : nat) : GM unit := g_mod a (fun g => set_rolls (delete i (RollId g)) g).

Definition CountTheRoll (a : Z) (i : nat) : GM unit :=
  let! r := roll_at a i in
  if negb (isValid r) then erase_roll a i
  else
    let voters := vote_order env (playerVote r) in
    (if totalNeed r >? 0 then
       match voters with
       | [] => st_ret tt
       | first :: _ =>
           let! best := contest ROLL_NEED r voters first 0 in
           SendLootRollWon best.1 best.2 ROLL_NEED r ;;;
           let! player := look (GetPlayer best.1) in
           let! l := getLoot r in
           item_at l (itemSlot r) ;;;
           match player with
           | Some _ => award best.1 r l
           | None => item_mod l (itemSlot r) (fun i =>
               li_set (is_looted i) (is_blocked i) (is_underthreshold i) best.1 i)
           end
       end
     else if totalGreed r >? 0 then
       match voters with
       | [] => st_ret tt
       | first :: _ =>
           let! best := contest ROLL_GREED r voters first 0 in
           SendLootRollWon best.1 best.2 ROLL_GREED r ;;;
           let! player := look (GetPlayer best.1) in
           match player with
           | Some _ => let! l := getLoot r in award best.1 r l
           | None => st_ret tt
           end
       end
     else
       SendLootAllPassed r ;;;
       let! l := getLoot r in
       item_mod l (itemSlot r) (fun i => li_set (is_looted i) false (is_underthreshold i) (lootOwner i) i)) ;;;
    erase_roll a i.

(** ** Voting *)

(** The [switch] of [CountRollVote]. *)
Definition cast_vote (guid vote : Z) (r : Roll) : Roll :=
  let vs := <[guid := vote]> (playerVote r) in
  if vote =? ROLL_PASS then set_votes vs (totalPlayersRolling r) (totalNeed r) (totalGreed r) (u8 (totalPass r + 1)) r
  else if vote =? ROLL_NEED then set_votes vs (totalPlayersRolling r) (u8 (totalNeed r + 1)) (totalGreed r) (totalPass r) r
  else if vote =? ROLL_GREED then set_votes vs (totalPlayersRolling r) (totalNeed r) (u8 (totalGreed r + 1)) (totalPass r) r
  else r.
Definition show_vote (guid vote : Z) (r : Roll) : GM unit :=
  if vote =? ROLL_PASS then SendLootRoll guid 128 128 r
  else if vote =? ROLL_NEED then SendLootRoll guid 0 0 r
  else if vote =? ROLL_GREED then SendLootRoll guid 128 2 r
  else st_ret tt.

(** [CountRollVote(playerGUID, rollI, vote)]. *)
Definition CountRollVote_at (a guid : Z) (i : nat) (vote : Z) : GM bool :=
  let! r := roll_at a i in
  match playerVote r !! guid with
  | None => st_ret true
  | Some _ =>
      let! none := (match r_loot r with
                    | Some l => let! x := loot_at l in st_ret (bool_decide (items x = []))
                    | None => st_ret false
                    end) in
      if (none : bool) then st_ret false
      else
        show_vote guid vote r ;;;
        roll_mod a i (cast_vote guid vote) ;;;
        let! r1 := roll_at a i in
        if totalPass r1 + totalNeed r1 + totalGreed r1 >=? totalPlayersRolling r1
        then CountTheRoll a i ;;; st_ret true
        else st_ret false
  end.

(** The search of [CountRollVote(player, lootedTarget, itemSlot, vote)]. *)
Definition is_roll (lootedTarget slot : Z) (r : Roll) : bool :=
  isValid r && (lootedTargetGUID r =? lootedTarget) && (itemSlot r =? slot).
Definition CountRollVote (a player lootedTarget slot vote : Z) : GM bool :=
  let! g := group_at a in
  match list_find (fun r => is_roll lootedTarget slot r = true) (RollId g) with
  | None => st_ret false
  | Some (i, _) => CountRollVote_at a player i vote ;;; st_ret true
  end.

(** A member leaves: his votes are taken back. *)
Definition drop_vote (guid : Z) (r : Roll) : Roll :=
  match playerVote r !! guid with
  | None => r
  | Some v =>
      set_votes (delete guid (playerVote r))
        (if v =? ROLL_NOT_VALID then totalPlayersRolling r else u8 (totalPlayersRolling r - 1))
        (if v =? ROLL_NEED then u8 (totalNeed r - 1) else totalNeed r)
        (if v =? ROLL_GREED then u8 (totalGreed r - 1) else totalGreed r)
        (if v =? ROLL_PASS then u8 (totalPass r - 1) else totalPass r) r
  end.
(** The loop of [_removeRolls] from index [i] on; each roll is visited at most
    twice. *)
Fixpoint remove_rolls (fuel : nat) (a guid : Z) (i : nat) : GM unit :=
  match fuel with
  | O => fun s => (Diverge, s)
  | S fuel' =>
      let! g := group_at a in
      match RollId g !! i with
      | None => st_ret tt
      | Some r =>
          match playerVote r !! guid with
          | None => remove_rolls fuel' a guid (S i)
          | Some _ =>
              roll_mod a i (drop_vote guid) ;;;
              let! gone := CountRollVote_at a guid i ROLL_NOT_EMITED_YET in
              remove_rolls fuel' a guid (if gone then i else S i)
          end
      end
  end.
Definition _removeRolls (a guid : Z) : GM unit :=
  let! g := group_at a in remove_rolls (2 * length (RollId g) + 1) a guid 0.

(** [EndRoll]: the scan starts again after each roll it ends. *)
Fixpoint end_rolls (fuel : nat) (a l : Z) (i : nat) : GM unit :=
  match fuel with
  | O => fun s => (Diverge, s)
  | S fuel' =>
      let! g := group_at a in
      match RollId g !! i with
      | None => st_ret tt
      | Some r =>
          if bool_decide (r_loot r = Some l) then CountTheRoll a i ;;; end_rolls fuel' a l 0
          else end_rolls fuel' a l (S i)
      end
  end.
Definition EndRoll (a l : Z) : GM unit :=
  let! g := group_at a in end_rolls ((length (RollId g) + 1) * (length (RollId g) + 1)) a l 0.

(** ** Starting rolls *)

(** The members who may roll, and how many. *)
Fixpoint gather_rollers (method target l : Z) (item : LootItem) (refs : list (Z * bool)) (r : Roll) : GM Roll :=
  match refs with
  | [] => st_ret r
  | (k, _) :: refs' =>
      let! p := player_at k in
      if pl_inWorld p && (negb (method =? NEED_BEFORE_GREED) || CanUseItem env k (li_itemid item))
         && AllowedForPlayer env item k target && IsAllowedLooter env l k && IsWithinLootXPDist env k target
      then gather_rollers method target l item refs'
             (set_votes (<[k := ROLL_NOT_EMITED_YET]> (playerVote r)) (u8 (totalPlayersRolling r + 1))
                (totalNeed r) (totalGreed r) (totalPass r) r)
      else gather_rollers method target l item refs' r
  end.

Definition StartLootRoll (a target method l slot : Z) : GM unit :=
  let! loot := loot_at l in
  match items loot !! Z.to_nat slot with
  | None => st_ret tt
  | Some item =>
      let! refs := GetMembers a in
      let! r := gather_rollers method target l item refs (Roll_new target (li_itemid item) (li_randomPropertyId item)) in
      if totalPlayersRolling r >? 0 then
        let r1 := set_loot slot (Some l) r in
        SendLootStartRoll LOOT_ROLL_TIMEOUT r1 ;;;
        item_mod l slot (fun i => li_set (is_looted i) true (is_underthreshold i) (lootOwner i) i) ;;;
        call (GLootTimer target) ;;;
        g_mod a (fun g => set_rolls (RollId g ++ [r1]) g) ;;;
        call (GHookRoll a target slot (li_itemid item))
      else st_ret tt
  end.

(** The loop of [GroupLoot] and of [NeedBeforeGreed] over the slots from
    [slot] on. *)
Fixpoint roll_items (n : nat) (a target method l slot : Z) : GM unit :=
  match n with
  | O => st_ret tt
  | S n' =>
      let! item := item_at l slot in
      (if freeforall item then st_ret tt
       else
         match ItemQuality env (li_itemid item) with
         | None => st_ret tt
         | Some quality =>
             let! g := group_at a in
             if quality >=? m_lootThreshold g then StartLootRoll a target method l slot
             else item_mod l slot (fun i => li_set (is_looted i) (is_blocked i) true (lootOwner i) i)
         end) ;;;
      roll_items n' a target method l (slot + 1)
  end.
Definition GroupLoot (a target l : Z) : GM unit :=
  let! loot := loot_at l in roll_items (length (items loot)) a target GROUP_LOOT l 0.
Definition NeedBeforeGreed (a target l : Z) : GM unit :=
  let! loot := loot_at l in roll_items (length (items loot)) a target NEED_BEFORE_GREED l 0.

(** [MasterLoot]: the candidates the master of the loot may give to. *)
Fixpoint candidates (target l : Z) (refs : list (Z * bool)) : GM (list Z) :=
  match refs with
  | [] => st_ret []
  | (k, _) :: refs' =>
      let! p := player_at k in
      let! rest := candidates target l refs' in
      st_ret (if pl_inWorld p && IsWithinLootXPDist env k target && IsAllowedLooter env l k then k :: rest else rest)
  end.
Definition MasterListPacket (ks : list Z) : PK unit :=
  pk_init SMSG_LOOT_MASTER_LIST ;;; pk_u8 0 ;;; pk_each pk_guid ks ;;; pk_put_u8 0 (Z.of_nat (length ks)).
Definition MasterLoot (a target l player : Z) : GM unit :=
  let! g := group_at a in
  loot_at l ;;;
  alter_world (fun w => w_set_loots (alter (fun x => mkLoot ((fun i =>
    match ItemQuality env (li_itemid i) with
    | Some quality => if quality <? m_lootThreshold g then li_set (is_looted i) (is_blocked i) true (lootOwner i) i else i
    | None => i
    end) <$> items x) (unlootedCount x)) l (w_loots w)) w) ;;;
  let! refs := GetMembers a in
  let! ks := candidates target l refs in
  send player (MasterListPacket ks).

(** [SendLootStartRollsForPlayer]: the rolls a member who is back has still to
    vote on, while the timer of the corpse runs. *)
Definition SendLootStartRollsForPlayer (a player : Z) : GM unit :=
  let! g := group_at a in
  each (fun r =>
    if isValid r && bool_decide (playerVote r !! player = Some ROLL_NOT_EMITED_YET)
    then
      let countDown := GroupLootTimer env player (lootedTargetGUID r) in
      if countDown =? 0 then st_ret tt else send player (StartRollPacket countDown r)
    else st_ret tt) (RollId g).

(** [Loot::clear]. *)
Definition drop_loot (l : Z) (r : Roll) : Roll :=
  if bool_decide (r_loot r = Some l) then set_loot (itemSlot r) None r else r.
Definition clear_loot (l : Z) (w : GroupWorld) : GroupWorld :=
  w_set_loots (<[l := mkLoot [] 0]> (w_loots w))
    (w_set_heap ((fun g => set_rolls (drop_loot l <$> RollId g) g) <$> w_heap w) w).
End rolls.
