(* ===== verification/GroupLists.v ===== *)
(** * Groups: properties, subgroup counters and lists

    The inline operations of [src/game/Group/Group.h] and the broadcasts of
    [src/game/Group/Group.cpp].  The member list keeps its
    order; the flag [m_bgGroup] is the pointer to the battleground of a
    battleground raid. *)

From S2P Require Import Prelude ByteBuffer ObjectGuid Packets Effects Social GroupData GroupRolls.

Local Open Scope prog_scope.

(** ** Properties *)

Definition isRaidGroup (g : Group) : bool := m_groupType g =? GROUPTYPE_RAID.
Definition isBGGroup (g : Group) : bool := m_bgGroup g.
Definition GetMembersCount (g : Group) : Z := u32 (Z.of_nat (length (m_memberSlots g))).
Definition GetMembersMinCount (g : Group) : Z := if isBGGroup g then 1 else 2.
Definition IsFull (g : Group) : bool :=
  if m_groupType g =? GROUPTYPE_NORMAL then Z.of_nat (length (m_memberSlots g)) >=? MAX_GROUP_SIZE
  else Z.of_nat (length (m_memberSlots g)) >=? MAX_RAID_SIZE.
Definition IsCreated (g : Group) : bool := GetMembersCount g >? 0.
Definition IsLeader (guid : Z) (g : Group) : bool := m_leaderGuid g =? guid.
Definition isInLFG (g : Group) : bool := m_LFGAreaId g >? 0.

(** [_getMemberCSlot]: the first slot of the guid. *)
Definition member_slot (guid : Z) (g : Group) : option MemberSlot :=
  snd <$> list_find (fun m => ms_guid m = guid) (m_memberSlots g).
Definition IsMember (guid : Z) (g : Group) : bool := bool_decide (is_Some (member_slot guid g)).
Definition GetMemberGuid (name : string) (g : Group) : Z :=
  match list_find (fun m => ms_name m = name) (m_memberSlots g) with Some (_, m) => ms_guid m | None => 0 end.
Definition IsAssistant (guid : Z) (g : Group) : bool :=
  match member_slot guid g with Some m => ms_assistant m | None => false end.
Definition GetMemberGroup (guid : Z) (g : Group) : Z :=
  match member_slot guid g with Some m => ms_group m | None => MAX_RAID_SUBGROUPS + 1 end.
Definition GetTargetIcon (id : Z) (g : Group) : Z :=
  if id <? TARGET_ICON_COUNT then default 0 (m_targetIcons g !! Z.to_nat id) else 0.
Definition IsCrossfaction (g : Group) : bool := if isBGGroup g then false else m_isCrossfaction g.

(** [_getMemberWSlot] and a change of the slot. *)
Fixpoint alter_slot (guid : Z) (f : MemberSlot -> MemberSlot) (l : list MemberSlot) : list MemberSlot :=
  match l with
  | [] => []
  | m :: l' => if ms_guid m =? guid then f m :: l' else m :: alter_slot guid f l'
  end.
Fixpoint erase_slot (guid : Z) (l : list MemberSlot) : list MemberSlot :=
  match l with
  | [] => []
  | m :: l' => if ms_guid m =? guid then l' else m :: erase_slot guid l'
  end.

Section lists.
Context (env : GroupEnv).

(** ** Subgroup counters *)

Definition count_at (subgroup : Z) (c : list Z) : GM Z := deref (c !! Z.to_nat subgroup).
Definition HasFreeSlotSubGroup (a subgroup : Z) : GM bool :=
  let! g := group_at a in
  match m_subGroupsCounts g with
  | Some c => let! n := count_at subgroup c in st_ret (n <? MAX_GROUP_SIZE)
  | None => st_ret false
  end.
Definition counter_add (a subgroup d : Z) : GM unit :=
  let! g := group_at a in
  match m_subGroupsCounts g with
  | Some c =>
      count_at subgroup c ;;;
      g_mod a (set_counts (Some (alter (fun n => u8 (n + d)) (Z.to_nat subgroup) c)))
  | None => st_ret tt
  end.
Definition SubGroupCounterIncrease (a subgroup : Z) : GM unit := counter_add a subgroup 1.
Definition SubGroupCounterDecrease (a subgroup : Z) : GM unit := counter_add a subgroup (-1).
Definition _initRaidSubGroupsCounter (a : Z) : GM unit :=
  g_mod a (set_counts (Some (replicate 8 0))) ;;;
  let! g := group_at a in
  each (fun m => SubGroupCounterIncrease a (ms_group m)) (m_memberSlots g).

(** ** Broadcasts *)

Definition GetGroupMemberStatus (member : option Player) : Z :=
  let bit (b : bool) v := if b then v else 0 in
  match member with
  | Some p =>
      if pl_logout p then MEMBER_STATUS_OFFLINE
      else
        let s := pl_state p in
        Z.lor MEMBER_STATUS_ONLINE (Z.lor (bit (IsPvP s) MEMBER_STATUS_PVP) (Z.lor (bit (IsDead s) MEMBER_STATUS_DEAD)
          (Z.lor (bit (IsGhost s) MEMBER_STATUS_GHOST) (Z.lor (bit (IsFFAPvP s) MEMBER_STATUS_PVP_FFA)
          (Z.lor (bit (IsAFK s) MEMBER_STATUS_AFK) (bit (IsDND s) MEMBER_STATUS_DND))))))
  | None => MEMBER_STATUS_OFFLINE
  end.

(** [group] is -1 for all subgroups. *)
Definition BroadcastPacket (a : Z) (packet : PK unit) (ignorePlayersInBGRaid : bool) (group ignore : Z) : GM unit :=
  let! data := made packet in
  let! refs := GetMembers a in
  each (fun e =>
    let '(k, original) := e in
    let! pl := player_at k in
    if (negb (ignore =? 0) && (k =? ignore)) || (ignorePlayersInBGRaid && negb (bool_decide (GetGroup pl = Some a)))
    then st_ret tt
    else if (group =? -1) || (ref_subGroup original pl =? group) then ev (EvSend k data) else st_ret tt) refs.
Definition BroadcastReadyCheck (a : Z) (packet : PK unit) : GM unit :=
  let! data := made packet in
  let! g := group_at a in
  each (fun e =>
    player_at e.1 ;;;
    if IsLeader e.1 g || IsAssistant e.1 g then ev (EvSend e.1 data) else st_ret tt) (m_memberMgr g).
Definition OfflineReadyCheck : GM unit := st_ret tt.

(** The flags of a member as the client gets them. *)
Definition slot_flags (m : MemberSlot) : Z := Z.lor (ms_group m) (if ms_assistant m then 0x80 else 0).
Definition member_part (w : GroupWorld) (m : MemberSlot) : PK unit :=
  pk_str (ms_name m) ;;; pk_guid (ms_guid m) ;;;
  pk_u8 (GetGroupMemberStatus (GetPlayer (ms_guid m) w)) ;;; pk_u8 (slot_flags m).
Definition loot_part (g : Group) : PK unit :=
  pk_u8 (m_lootMethod g) ;;;
  pk_guid (if m_lootMethod g =? MASTER_LOOT then m_looterGuid g else 0) ;;;
  pk_u8 (m_lootThreshold g) ;;; pk_u8 0.
Definition ListPacket (g : Group) (w : GroupWorld) (m : MemberSlot) : PK unit :=
  let others := filter (fun x => ms_guid x <> ms_guid m) (m_memberSlots g) in
  pk_init SMSG_GROUP_LIST ;;; pk_u8 (m_groupType g) ;;; pk_u8 (slot_flags m) ;;;
  let! countPos := pk_wpos in
  pk_u32 0 ;;; pk_each (member_part w) others ;;; pk_put_u32 countPos (Z.of_nat (length others)) ;;;
  pk_guid (m_leaderGuid g) ;;;
  (if bool_decide (others = []) then st_ret tt else loot_part g).

(** The marked targets, the empty ones left out. *)
Fixpoint icon_rows (i : Z) (l : list Z) : list (Z * Z) :=
  match l with
  | [] => []
  | t :: l' => if t =? 0 then icon_rows (i + 1) l' else (i, t) :: icon_rows (i + 1) l'
  end.
Definition IconListPacket (g : Group) : PK unit :=
  pk_init MSG_RAID_TARGET_UPDATE ;;; pk_u8 1 ;;;
  pk_each (fun r => pk_u8 r.1 ;;; pk_guid r.2) (icon_rows 0 (m_targetIcons g)).
Definition SendTargetIconList (a me : Z) : GM unit :=
  let! g := group_at a in send me (IconListPacket g).

Definition SendUpdate (a : Z) : GM unit :=
  let! g := group_at a in
  let marked := negb (isRaidGroup g) && negb (bool_decide (icon_rows 0 (m_targetIcons g) = [])) in
  each (fun m =>
    let! w := look id in
    match GetPlayer (ms_guid m) w with
    | Some p =>
        if bool_decide (GetGroup p = Some a) then
          send (ms_guid m) (ListPacket g w m) ;;;
          (if marked then send (ms_guid m) (IconListPacket g) else st_ret tt)
        else st_ret tt
    | None => st_ret tt
    end) (m_memberSlots g).

(** The list a player without a group gets. *)
Definition EmptyListPacket : PK unit := pk_init SMSG_GROUP_LIST ;;; pk_guid 0 ;;; pk_guid 0 ;;; pk_guid 0.

Definition UpdatePlayerOutOfRange (player : Z) : GM unit :=
  let! p := player_at player in
  if pl_inWorld p && negb (m_groupUpdateMask p =? GROUP_UPDATE_FLAG_NONE) then call (GStats player) else st_ret tt.
Definition UpdatePlayerOnlineStatus (a player : Z) (online : bool) : GM unit :=
  let! g := group_at a in
  if negb (IsMember player g) then st_ret tt
  else
    SendUpdate a ;;;
    if online then p_mod player (SetGroupUpdateFlag GROUP_UPDATE_FULL) ;;; UpdatePlayerOutOfRange player
    else if IsLeader player g then g_mod a (set_lastOnline (time_now env)) else st_ret tt.
Definition BroadcastGroupUpdate (a : Z) : GM unit :=
  let! g := group_at a in
  each (fun m =>
    let! p := look (GetPlayer (ms_guid m)) in
    match p with Some _ => call (GValues (ms_guid m)) | None => st_ret tt end) (m_memberSlots g).

(** [BroadcastPacket] of [SMSG_GROUP_SET_LEADER]. *)
Definition LeaderPacket (name : string) : PK unit := pk_init SMSG_GROUP_SET_LEADER ;;; pk_str name.

(** [Player::UpdateGroupLeaderFlag]. *)
Definition UpdateGroupLeaderFlag (k : Z) (remove : bool) : GM unit :=
  let! p := player_at k in
  let! leads := (match GetGroup p with
                 | Some a => let! g := group_at a in st_ret (m_leaderGuid g =? k)
                 | None => st_ret false
                 end) in
  if pl_leaderFlag p then
    if remove || negb leads then p_mod k (set_leaderFlag false) else st_ret tt
  else if negb remove && leads then p_mod k (set_leaderFlag true) else st_ret tt.
Definition _updateLeaderFlag (a : Z) (remove : bool) : GM unit :=
  let! g := group_at a in
  let! p := look (GetPlayer (m_leaderGuid g)) in
  match p with Some _ => UpdateGroupLeaderFlag (m_leaderGuid g) remove | None => st_ret tt end.

End lists.
