(* ===== verification/LFG.v ===== *)
(** * LFG: roles and the queues of the meeting stones

    [src/game/LFG/LFGMgr.cpp] without its update, and the roles a group has to
    offer ([Group::CalculateLFGRoles] of [src/game/Group/Group.cpp]). *)

From S2P Require Import Prelude ByteBuffer ObjectGuid Packets Effects Social GroupData GroupRolls GroupLists.

Local Open Scope prog_scope.

(** ** Roles *)

Definition PotentialRoles : list Z := [LFG_ROLE_TANK; LFG_ROLE_HEALER; LFG_ROLE_DPS].
Definition GetMaximumDPSSlots := 3.

(** [LFGQueue::CalculateRoles]. *)
Definition CalculateRoles (playerClass : Z) : Z :=
  if playerClass =? CLASS_DRUID then Z.lor (Z.lor LFG_ROLE_TANK LFG_ROLE_DPS) LFG_ROLE_HEALER
  else if playerClass =? CLASS_HUNTER then LFG_ROLE_DPS
  else if playerClass =? CLASS_MAGE then LFG_ROLE_DPS
  else if playerClass =? CLASS_PALADIN then Z.lor (Z.lor LFG_ROLE_TANK LFG_ROLE_DPS) LFG_ROLE_HEALER
  else if playerClass =? CLASS_PRIEST then Z.lor LFG_ROLE_DPS LFG_ROLE_HEALER
  else if playerClass =? CLASS_ROGUE then LFG_ROLE_DPS
  else if playerClass =? CLASS_SHAMAN then Z.lor LFG_ROLE_DPS LFG_ROLE_HEALER
  else if playerClass =? CLASS_WARLOCK then LFG_ROLE_DPS
  else if playerClass =? CLASS_WARRIOR then Z.lor LFG_ROLE_TANK LFG_ROLE_DPS
  else LFG_ROLE_NONE.

Definition getPriority (playerClass playerRoles : Z) : Z :=
  if playerRoles =? LFG_ROLE_TANK then
    if playerClass =? CLASS_DRUID then LFG_PRIORITY_NORMAL
    else if playerClass =? CLASS_PALADIN then LFG_PRIORITY_NORMAL
    else if playerClass =? CLASS_WARRIOR then LFG_PRIORITY_HIGH
    else LFG_PRIORITY_NONE
  else if playerRoles =? LFG_ROLE_HEALER then
    if playerClass =? CLASS_DRUID then LFG_PRIORITY_HIGH
    else if playerClass =? CLASS_PALADIN then LFG_PRIORITY_HIGH
    else if playerClass =? CLASS_PRIEST then LFG_PRIORITY_HIGH
    else if playerClass =? CLASS_SHAMAN then LFG_PRIORITY_HIGH
    else LFG_PRIORITY_NONE
  else if playerRoles =? LFG_ROLE_DPS then
    if playerClass =? CLASS_DRUID then LFG_PRIORITY_NORMAL
    else if playerClass =? CLASS_HUNTER then LFG_PRIORITY_HIGH
    else if playerClass =? CLASS_MAGE then LFG_PRIORITY_HIGH
    else if playerClass =? CLASS_PALADIN then LFG_PRIORITY_NORMAL
    else if playerClass =? CLASS_PRIEST then LFG_PRIORITY_LOW
    else if playerClass =? CLASS_ROGUE then LFG_PRIORITY_HIGH
    else if playerClass =? CLASS_SHAMAN then LFG_PRIORITY_NORMAL
    else if playerClass =? CLASS_WARLOCK then LFG_PRIORITY_HIGH
    else if playerClass =? CLASS_WARRIOR then LFG_PRIORITY_NORMAL
    else LFG_PRIORITY_NONE
  else LFG_PRIORITY_NONE.

(** [LFGPlayerQueueInfo::CalculateRoles]: the priorities are appended. *)
Definition info_CalculateRoles (playerClass : Z) (i : LFGPlayerQueueInfo) : LFGPlayerQueueInfo :=
  mkLFGP (CalculateRoles playerClass) (lp_team i) (lp_areaId i) (timeInLFG i) (hasQueuePriority i) (lp_isHardcore i)
    (lp_name i) (rolePriority i ++ ((fun role => (role, getPriority playerClass role)) <$> PotentialRoles)).
Definition GetRolePriority (role : Z) (i : LFGPlayerQueueInfo) : Z :=
  match list_find (fun e => e.1 = role) (rolePriority i) with Some (_, e) => e.2 | None => LFG_PRIORITY_NONE end.

(** ** The roles a group still offers *)

(** The roles that are left, the damage dealers counted, and the members who
    have a role. *)
Record LFGRoles := mkRoles { initRoles : Z; dps_count : Z; processed : list Z }.

(** A flag is taken away. *)
Definition without_role (role roles : Z) : Z := Z.land roles (Z.lnot role).

(** [Group::FillPremadeLFG]: [None] when somebody else comes first. *)
Definition FillPremadeLFG (class_of : Z -> Z) (slots : list MemberSlot) (plrGuid playerClass requiredRole : Z) (s : LFGRoles)
    : option LFGRoles :=
  let first m := negb (plrGuid =? ms_guid m) && negb (bool_decide (ms_guid m ∈ processed s))
                 && (getPriority playerClass requiredRole <? getPriority (class_of (ms_guid m)) requiredRole) in
  if existsb first slots then None
  else
    let '(roles, dps) :=
      if requiredRole =? LFG_ROLE_TANK then (without_role LFG_ROLE_TANK (initRoles s), dps_count s)
      else if requiredRole =? LFG_ROLE_HEALER then (without_role LFG_ROLE_HEALER (initRoles s), dps_count s)
      else if requiredRole =? LFG_ROLE_DPS then
        if dps_count s <? GetMaximumDPSSlots then
          (if dps_count s + 1 >=? GetMaximumDPSSlots then without_role LFG_ROLE_DPS (initRoles s) else initRoles s, dps_count s + 1)
        else (initRoles s, dps_count s)
      else (initRoles s, dps_count s) in
    Some (mkRoles roles dps (processed s ++ [plrGuid])).

(** The roles a member is tried for, up to the first he gets. *)
Fixpoint take_role (class_of : Z -> Z) (slots : list MemberSlot) (k : Z) (roles : list Z) (s : LFGRoles) : LFGRoles :=
  match roles with
  | [] => s
  | role :: roles' =>
      let c := class_of k in
      if (Z.land (CalculateRoles c) role =? 0) || negb (Z.land role (initRoles s) =? role)
      then take_role class_of slots k roles' s
      else
        match FillPremadeLFG class_of slots k c role s with
        | Some s' => s'
        | None => take_role class_of slots k roles' s
        end
  end.
Definition premade_roles (class_of : Z -> Z) (slots : list MemberSlot) : LFGRoles :=
  foldl (fun s m => take_role class_of slots (ms_guid m) PotentialRoles s)
    (mkRoles (Z.lor (Z.lor LFG_ROLE_TANK LFG_ROLE_DPS) LFG_ROLE_HEALER) 0 []) slots.

Section lfg.
Context (env : GroupEnv).

(** [ObjectMgr::GetPlayerClassByGUID]; the cache knows every character. *)
Definition GetPlayerClassByGUID (w : GroupWorld) (guid : Z) : Z :=
  match GetPlayer guid w with
  | Some p => pl_class p
  | None => match GetPlayerDataByGUID env (GetCounter guid) with Some d => u8 (uiClass d) | None => 0 end
  end.
(** [Group::CalculateLFGRoles]. *)
Definition CalculateLFGRoles (w : GroupWorld) (g : Group) (data : LFGGroupQueueInfo) : LFGGroupQueueInfo :=
  let s := premade_roles (GetPlayerClassByGUID w) (m_memberSlots g) in
  mkLFGG (initRoles s) (dps_count s) (lg_team data) (lg_areaId data) (lg_isHardcore data) (groupTimer data).

(** ** Packets *)

Definition BuildSetQueuePacket (areaId status : Z) : PK unit :=
  pk_init SMSG_MEETINGSTONE_SETQUEUE ;;; pk_u32 areaId ;;; pk_u8 status.
Definition BuildMemberAddedPacket (plrGuid : Z) : PK unit := pk_init SMSG_MEETINGSTONE_MEMBER_ADDED ;;; pk_guid plrGuid.
Definition BuildInProgressPacket : PK unit := pk_init SMSG_MEETINGSTONE_IN_PROGRESS.
Definition BuildCompletePacket : PK unit := pk_init SMSG_MEETINGSTONE_COMPLETE.
(** [WorldSession::SendMeetingstoneSetqueue]. *)
Definition SendMeetingstoneSetqueue (k areaid status : Z) : GM unit := send k (BuildSetQueuePacket areaid status).

(** ** The queues *)

(** Five minutes. *)
Definition GROUP_TIMER := 5 * 60 * 1000.

Definition queued_player (leader : Player) (areaId : Z) (i : LFGPlayerQueueInfo) : LFGPlayerQueueInfo :=
  let i1 := info_CalculateRoles (pl_class leader)
    (mkLFGP (roleMask i) (pl_team leader) areaId (timeInLFG i) false (lp_isHardcore i) (lp_name i) (rolePriority i)) in
  mkLFGP (roleMask i1) (lp_team i1) (lp_areaId i1) (timeInLFG i1) (hasQueuePriority i1) (pl_hardcore leader) (pl_name leader)
    (rolePriority i1).
Definition AddToQueue (leader queueAreaID : Z) : GM unit :=
  let! p := player_at leader in
  match GetGroup p with
  | Some a =>
      let! g := group_at a in
      if IsLeader leader g then
        let! w := look id in
        alter_world (on_groups (<[m_Id g := CalculateLFGRoles w g
          (mkLFGG 0 0 (pl_team p) queueAreaID (pl_hardcore p) GROUP_TIMER)]>)) ;;;
        g_mod a (set_LFGAreaId queueAreaID) ;;;
        BroadcastPacket a (BuildSetQueuePacket queueAreaID MEETINGSTONE_STATUS_JOINED_QUEUE) true (-1) 0
      else st_ret tt
  | None =>
      let! q := look (fun w => m_QueuedPlayers (w_lfg w) !! leader) in
      alter_world (on_players (<[leader := queued_player p queueAreaID (default LFGPlayerQueueInfo_new q)]>)) ;;;
      SendMeetingstoneSetqueue leader queueAreaID MEETINGSTONE_STATUS_JOINED_QUEUE
  end.

Definition RestoreOfflinePlayer (k : Z) : GM unit :=
  let! offlinePlr := look (fun w => m_OfflinePlayers (w_lfg w) !! k) in
  match offlinePlr with
  | Some i =>
      SendMeetingstoneSetqueue k (lp_areaId i) MEETINGSTONE_STATUS_JOINED_QUEUE ;;;
      alter_world (on_players (<[k := i]>)) ;;; alter_world (on_offline (delete k))
  | None => SendMeetingstoneSetqueue k 0 MEETINGSTONE_STATUS_NONE
  end.

Definition IsPlayerInQueue (k : Z) (w : GroupWorld) : bool := bool_decide (is_Some (m_QueuedPlayers (w_lfg w) !! k)).

Definition RemovePlayerFromQueue (plrGuid leaveMethod : Z) : GM unit :=
  let! q := look (fun w => m_QueuedPlayers (w_lfg w) !! plrGuid) in
  match q with
  | Some _ =>
      (if leaveMethod =? PLAYER_CLIENT_LEAVE then
         let! player := look (GetPlayer plrGuid) in
         match player with Some _ => send plrGuid (BuildSetQueuePacket 0 MEETINGSTONE_STATUS_LEAVE_QUEUE) | None => st_ret tt end
       else st_ret tt) ;;;
      alter_world (on_players (delete plrGuid))
  | None => st_ret tt
  end.

Definition RemoveGroupFromQueue (groupId leaveMethod : Z) : GM unit :=
  let! q := look (fun w => m_QueuedGroups (w_lfg w) !! groupId) in
  match q with
  | Some _ =>
      let! grp := look (fun w => m_GroupMap w !! groupId) in
      (match grp with
       | Some a =>
           (if leaveMethod =? GROUP_CLIENT_LEAVE
            then BroadcastPacket a (BuildSetQueuePacket 0 MEETINGSTONE_STATUS_LEAVE_QUEUE) true (-1) 0
            else
              BroadcastPacket a BuildCompletePacket true (-1) 0 ;;;
              BroadcastPacket a (BuildSetQueuePacket 0 MEETINGSTONE_STATUS_NONE) true (-1) 0) ;;;
           g_mod a (set_LFGAreaId 0)
       | None => st_ret tt
       end) ;;;
      alter_world (on_groups (delete groupId))
  | None => st_ret tt
  end.

(** [LFGQueue::UpdateGroup]. *)
Definition UpdateGroup (groupId : Z) : GM unit :=
  let! q := look (fun w => m_QueuedGroups (w_lfg w) !! groupId) in
  match q with
  | Some i =>
      let! grp := look (fun w => m_GroupMap w !! groupId) in
      match grp with
      | Some a =>
          let! g := group_at a in
          if IsFull g then st_ret tt
          else let! w := look id in alter_world (on_groups (<[groupId := CalculateLFGRoles w g i]>))
      | None => st_ret tt
      end
  | None => st_ret tt
  end.

(** [LFGQueue::FindInArea]. *)
Definition FindInArea (w : GroupWorld) (area team exclude : Z) : list Z :=
  List.filter (fun k => negb (k =? exclude) &&
    match m_QueuedPlayers (w_lfg w) !! k with Some i => (lp_areaId i =? area) && (lp_team i =? team) | None => false end)
    (sorted_keys (m_QueuedPlayers (w_lfg w))).
End lfg.
