(* ===== verification/Group.v ===== *)
(** * Group: membership, leadership and raid subgroups

    [src/game/Group/Group.cpp]: invitations, joining, creating, leading,
    leaving and disbanding, without experience and instances. *)

From S2P Require Import Prelude ByteBuffer ObjectGuid Packets Effects Social GroupData GroupRolls GroupLists LFG.

Local Open Scope prog_scope.

Section group.
Context (env : GroupEnv).

(** ** Invitations *)

Definition RemoveInvite (a player : Z) : GM Z :=
  let! g := group_at a in
  (if bool_decide (player ∈ m_invitees g) then
     let! p := player_at player in
     if bool_decide (GetGroupInvite p = Some a) then
       g_mod a (set_invitees (m_invitees g ∖ {[player]})) ;;; p_mod player (SetGroupInvite None)
     else aborts
   else st_ret tt) ;;;
  let! g := group_at a in st_ret (GetMembersCount g).
Definition RemoveAllInvites (a : Z) : GM unit :=
  let! g := group_at a in
  each (fun k =>
    let! p := player_at k in
    if bool_decide (GetGroupInvite p = Some a) then p_mod k (SetGroupInvite None) else aborts)
    (invite_order env (m_invitees g)) ;;;
  g_mod a (set_invitees ∅).
Definition GetInvited (a guid : Z) : GM (option Z) :=
  let! g := group_at a in st_ret (if bool_decide (guid ∈ m_invitees g) then Some guid else None).
Fixpoint first_named (name : string) (l : list Z) : GM (option Z) :=
  match l with
  | [] => st_ret None
  | k :: l' => let! p := player_at k in if bool_decide (pl_name p = name) then st_ret (Some k) else first_named name l'
  end.
Definition GetInvited_name (a : Z) (name : string) : GM (option Z) :=
  let! g := group_at a in first_named name (invite_order env (m_invitees g)).

(** The group that counts for invitations: not the raid of a battleground. *)
Definition social_group (p : Player) : GM (option Z) :=
  match GetGroup p with
  | Some a => let! g := group_at a in st_ret (if isBGGroup g then GetOriginalGroup p else Some a)
  | None => st_ret None
  end.
Definition AddInvite (a player : Z) : GM bool :=
  let! p := player_at player in
  if bool_decide (is_Some (GetGroupInvite p)) then st_ret false
  else
    let! group := social_group p in
    match group with
    | Some _ => st_ret false
    | None =>
        RemoveInvite a player ;;;
        g_mod a (fun g => set_invitees ({[player]} ∪ m_invitees g) g) ;;;
        p_mod player (SetGroupInvite (Some a)) ;;;
        call (GHookInvite a player) ;;;
        st_ret true
    end.
Definition AddLeaderInvite (a player : Z) : GM bool :=
  let! ok := AddInvite a player in
  if negb ok then st_ret false
  else
    _updateLeaderFlag a true ;;;
    let! p := player_at player in
    g_mod a (set_leader player (pl_name p)) ;;;
    _updateLeaderFlag a false ;;;
    st_ret true.

(** ** Joining *)

Definition is_horde_race (race : Z) : bool :=
  negb ((race =? RACE_DWARF) || (race =? RACE_GNOME) || (race =? RACE_HIGH_ELF) || (race =? RACE_HUMAN) || (race =? RACE_NIGHTELF)).
(** [player->GetTeamId() == TEAM_HORDE], or the race of a member who is
    offline. *)
Definition is_horde (w : GroupWorld) (m : MemberSlot) : bool :=
  match FindPlayerNotInWorld (ms_guid m) w with
  | Some p => negb (pl_team p =? ALLIANCE)
  | None =>
      match GetPlayerDataByGUID env (GetCounter (ms_guid m)) with
      | Some d => is_horde_race (uiRace d)
      | None => false
      end
  end.
Definition UpdateCrossfaction (a : Z) : GM bool :=
  let! g := group_at a in
  let! w := look id in
  let hordeCount := Z.of_nat (length (filter (fun m => is_horde w m = true) (m_memberSlots g))) in
  let x := negb (hordeCount =? 0) && negb (hordeCount =? GetMembersCount g) in
  g_mod a (set_crossfaction x) ;;; st_ret x.

(** [m_groupTeam] once a character of a team joins. *)
Definition joined_team (groupTeam team : Z) : Z :=
  let t := if ((groupTeam =? ALLIANCE) && (team =? HORDE)) || ((groupTeam =? HORDE) && (team =? ALLIANCE))
           then TEAM_CROSSFACTION else groupTeam in
  if t =? TEAM_NONE then team else t.

Definition member_row_of (m : MemberSlot) : member_row := mkMRow (ms_assistant m) (ms_group m).
Definition _addMember_at (a guid : Z) (name : string) (isAssistant : bool) (group : Z) : GM bool :=
  let! g := group_at a in
  if IsFull g || (guid =? 0) then st_ret false
  else
    let! player := look (GetPlayer guid) in
    let member := mkMS guid name group isAssistant in
    g_mod a (fun g => set_slots (m_memberSlots g ++ [member]) g) ;;;
    SubGroupCounterIncrease a group ;;;
    (match player with
     | Some p =>
         (match GetGroupInvite p with Some b => RemoveInvite b guid ;;; st_ret tt | None => st_ret tt end) ;;;
         p_mod guid (SetGroupInvite None) ;;;
         (match GetGroup p with
          | Some _ => if isBGGroup g then SetBattleGroundRaid guid a group else SetOriginalGroup guid (Some a) group
          | None => SetGroup guid (Some a) group
          end) ;;;
         call (GRejoinInstance a guid)
     | None => st_ret tt
     end) ;;;
    (if isBGGroup g then st_ret tt
     else alter_world (fun w => w_set_group_member
            (sql_insert_row (m_Id g, GetCounter guid) (member_row_of member) (t_group_member w)) w)) ;;;
    st_ret true.
(** The first subgroup with a free place. *)
Definition free_subgroup (c : list Z) : option nat := fst <$> list_find (fun n => n < MAX_GROUP_SIZE) c.
Definition _addMember (a guid : Z) (name : string) (isAssistant : bool) : GM bool :=
  let! g := group_at a in
  match m_subGroupsCounts g with
  | Some c =>
      match free_subgroup c with
      | Some i => _addMember_at a guid name isAssistant (Z.of_nat i)
      | None => st_ret false
      end
  | None => _addMember_at a guid name isAssistant 0
  end.

Definition crossfaction_message : string := "This party has members from both factions. Engaging in PvP or attacking PvP enabled NPCs in the open world is forbidden.".
Definition notify_crossfaction (a guid : Z) : GM unit :=
  let! g := group_at a in
  if isBGGroup g || (GetMembersCount g =? 1) then st_ret tt
  else
    let was := IsCrossfaction g in
    let! now := UpdateCrossfaction a in
    if negb was && now then
      each (fun m =>
        let! p := look (GetPlayer (ms_guid m)) in
        match p with
        | Some p => if bool_decide (GetGroup p = Some a) then call (GSysText (ms_guid m) crossfaction_message) else st_ret tt
        | None => st_ret tt
        end) (m_memberSlots g)
    else if was then
      let! p := look (GetPlayer guid) in
      match p with Some _ => call (GSysText guid crossfaction_message) | None => st_ret tt end
    else st_ret tt.
Definition AddMember (a guid : Z) (name : string) (joinMethod : Z) : GM bool :=
  let! ok := _addMember a guid name false in
  if negb ok then st_ret false
  else
    SendUpdate a ;;;
    notify_crossfaction a guid ;;;
    let! player := look (GetPlayer guid) in
    (match player with
     | Some p =>
         g_mod a (fun g => set_groupTeam (joined_team (m_groupTeam g) (pl_team p)) g) ;;;
         let! g := group_at a in
         (if IsLeader guid g || isBGGroup g then st_ret tt else call (GResetOwnInstances guid)) ;;;
         p_mod guid (SetGroupUpdateFlag GROUP_UPDATE_FULL) ;;;
         call (GAuraMask guid) ;;;
         (if isRaidGroup g then call (GQuestObjects guid) else st_ret tt) ;;;
         (if isInLFG g && negb (joinMethod =? GROUP_LFG) then
            SendMeetingstoneSetqueue guid (m_LFGAreaId g) MEETINGSTONE_STATUS_JOINED_QUEUE ;;; UpdateGroup env (m_Id g)
          else st_ret tt) ;;;
         call (GRejoinInstance a guid)
     | None => st_ret tt
     end) ;;;
    call (GHookAdd a guid) ;;;
    st_ret true.

(** The row of [groups] of a group. *)
Definition groups_row_of (g : Group) : groups_row :=
  mkGRow (GetCounter (m_leaderGuid g)) (GetCounter (m_mainTankGuid g)) (GetCounter (m_mainAssistantGuid g))
    (m_lootMethod g) (GetCounter (m_looterGuid g)) (m_lootThreshold g) (m_targetIcons g) (isRaidGroup g).
(** [INSERT INTO groups]: refused when the leader has another group's row. *)
Definition insert_groups (id : Z) (r : groups_row) (t : gmap Z groups_row) : gmap Z groups_row :=
  if bool_decide (map_Forall (fun _ r' => gr_leaderGuid r' <> gr_leaderGuid r) t) then sql_insert_row id r t else t.
Definition GenerateGroupId : GM Z :=
  let! id := look m_GroupIds in alter_world (w_set_GroupIds (u32 (id + 1))) ;;; st_ret id.

Definition Create (a guid : Z) (name : string) : GM bool :=
  g_mod a (set_leader guid name) ;;;
  g_mod a (set_lastOnline (time_now env)) ;;;
  g_mod a (fun g => set_groupType (if isBGGroup g then GROUPTYPE_RAID else GROUPTYPE_NORMAL) g) ;;;
  let! g := group_at a in
  (if isRaidGroup g then _initRaidSubGroupsCounter a else st_ret tt) ;;;
  g_mod a (set_lootRules GROUP_LOOT ITEM_QUALITY_UNCOMMON) ;;;
  g_mod a (set_looterGuid guid) ;;;
  (if isBGGroup g then st_ret tt
   else
     let! id := GenerateGroupId in
     g_mod a (set_Id id) ;;;
     call (GInstancesToGroup a guid) ;;;
     let! g := group_at a in
     alter_world (fun w => w_set_groups (delete id (t_groups w)) w) ;;;
     alter_world (fun w => w_set_group_member (sql_delete_rows (fun k _ => k.1 =? id) (t_group_member w)) w) ;;;
     alter_world (fun w => w_set_groups (insert_groups id (groups_row_of g) (t_groups w)) w)) ;;;
  let! ok := AddMember a guid name GROUP_JOIN in
  if negb ok then st_ret false
  else
    _updateLeaderFlag a false ;;;
    let! g := group_at a in
    call (GHookCreate a (m_leaderGuid g) (m_groupType g)) ;;;
    st_ret true.

(** ** Leaders *)

(** [UPDATE groups SET leaderGuid]: refused when another row has the leader. *)
Definition row_set_leader (leader : Z) (r : groups_row) : groups_row :=
  mkGRow leader (gr_mainTank r) (gr_mainAssistant r) (gr_lootMethod r) (gr_looterGuid r) (gr_lootThreshold r)
    (gr_icons r) (gr_isRaid r).
Definition update_leader (id leader : Z) (t : gmap Z groups_row) : gmap Z groups_row :=
  if bool_decide (map_Forall (fun k r => k = id \/ gr_leaderGuid r <> leader) t)
  then sql_update_row (row_set_leader leader) id t else t.

(** [_setLeader]; the instances the group is bound to follow the leader. *)
Definition _setLeader (a guid : Z) : GM unit :=
  let! g := group_at a in
  match member_slot guid g with
  | None => st_ret tt
  | Some slot =>
      (if isBGGroup g then st_ret tt
       else
         call (GLeaderInstances a (m_leaderGuid g) (ms_guid slot)) ;;;
         alter_world (fun w => w_set_groups (update_leader (m_Id g) (GetCounter (ms_guid slot)) (t_groups w)) w)) ;;;
      _updateLeaderFlag a true ;;;
      g_mod a (set_leader (ms_guid slot) (ms_name slot)) ;;;
      g_mod a (set_lastOnline (time_now env)) ;;;
      _updateLeaderFlag a false
  end.
Definition ChangeLeader (a guid : Z) : GM unit :=
  let! g := group_at a in
  match member_slot guid g with
  | None => st_ret tt
  | Some slot =>
      _setLeader a guid ;;;
      BroadcastPacket a (LeaderPacket (ms_name slot)) true (-1) 0 ;;;
      SendUpdate a ;;;
      call (GHookLeader a guid (m_leaderGuid g))
  end.

(** The scan of [_chooseLeader]: the first candidate who fits, and the first
    one available. *)
Fixpoint scan_leader (w : GroupWorld) (a leader : Z) (raid : bool) (l : list MemberSlot) (first : Z) : Z * Z :=
  match l with
  | [] => (0, first)
  | m :: l' =>
      if ms_guid m =? leader then scan_leader w a leader raid l' first
      else
        match GetPlayer (ms_guid m) w with
        | Some p =>
            if bool_decide (GetGroup p = Some a) then
              if raid && negb (ms_assistant m)
              then scan_leader w a leader raid l' (if first =? 0 then ms_guid m else first)
              else (ms_guid m, first)
            else scan_leader w a leader raid l' first
        | None => scan_leader w a leader raid l' first
        end
  end.
Definition _chooseLeader (a : Z) (offline : bool) : GM unit :=
  let! g := group_at a in
  if GetMembersCount g <? GetMembersMinCount g then st_ret tt
  else
    let! w := look id in
    let '(chosen, first) := scan_leader w a (m_leaderGuid g) (isRaidGroup g) (m_memberSlots g) 0 in
    let chosen := if chosen =? 0 then first else chosen in
    if offline && (chosen =? 0) then st_ret tt
    else
      let! front := deref (head (m_memberSlots g)) in
      let chosen := if chosen =? 0 then ms_guid front else chosen in
      if offline then ChangeLeader a chosen else _setLeader a chosen.
Definition UpdateOfflineLeader (a time delay : Z) : GM unit :=
  let! g := group_at a in
  if isBGGroup g then st_ret tt
  else
    let! leader := look (GetPlayer (m_leaderGuid g)) in
    match leader with
    | Some _ => g_mod a (set_lastOnline time)
    | None =>
        if (time - m_leaderLastOnline g <? delay) || LeaderLoading env (m_leaderGuid g) then st_ret tt
        else _chooseLeader a true
    end.

(** ** Leaving *)

(** What removal and disbanding do to the references of a player. *)
Definition detach (a : Z) (bg : bool) (guid : Z) : GM unit :=
  if bg then RemoveFromBattleGroundRaid guid
  else
    let! p := player_at guid in
    if bool_decide (GetOriginalGroup p = Some a) then SetOriginalGroup guid None 0 else SetGroup guid None 0.
(** The player's other group, or the empty list. *)
Definition show_left (guid : Z) : GM unit :=
  let! p := player_at guid in
  match GetGroup p with Some b => SendUpdate b | None => send guid EmptyListPacket end.
(** [_removeMember]: has the leader changed? *)
Definition _removeMember (a guid : Z) : GM bool :=
  let! player := look (GetPlayer guid) in
  let! g := group_at a in
  (match player with Some _ => detach a (isBGGroup g) guid | None => st_ret tt end) ;;;
  _removeRolls env a guid ;;;
  let! g := group_at a in
  (match member_slot guid g with
   | Some slot =>
       SubGroupCounterDecrease a (ms_group slot) ;;;
       g_mod a (fun g => set_slots (erase_slot guid (m_memberSlots g)) g)
   | None => st_ret tt
   end) ;;;
  (if isBGGroup g then st_ret tt
   else alter_world (fun w => w_set_group_member (sql_delete_rows (fun k _ => k.2 =? GetCounter guid) (t_group_member w)) w)) ;;;
  if m_leaderGuid g =? guid then _updateLeaderFlag a true ;;; _chooseLeader a false ;;; st_ret true
  else st_ret false.

(** The packets of the meeting stone a group sends itself. *)
Definition QueuePacket (areaId status : Z) : PK unit :=
  pk_init SMSG_MEETINGSTONE_SETQUEUE ;;; pk_u32 areaId ;;; pk_u8 status.
Definition QueueDisbandedPacket : PK unit :=
  pk_init SMSG_MEETINGSTONE_SETQUEUE ;;; pk_u32 0 ;;; pk_u32 MEETINGSTONE_STATUS_NONE.

Fixpoint disband_members (a : Z) (g : Group) (hideDestroy : bool) (initiator : Z) (l : list MemberSlot) (remaining : option Z)
    : GM (option Z) :=
  match l with
  | [] => st_ret remaining
  | m :: l' =>
      let k := ms_guid m in
      let! player := look (GetPlayer k) in
      match player with
      | None => disband_members a g hideDestroy initiator l' remaining
      | Some _ =>
          detach a (isBGGroup g) k ;;;
          (if isRaidGroup g then call (GQuestObjects k) else st_ret tt) ;;;
          (if hideDestroy then st_ret tt else send k (pk_init SMSG_GROUP_DESTROYED)) ;;;
          show_left k ;;;
          let! p := player_at k in
          let! h := group_at a in
          (if isInLFG h && bool_decide (GetGroup p = None)
           then RemoveGroupFromQueue (m_Id h) GROUP_CLIENT_LEAVE ;;; send k QueueDisbandedPacket else st_ret tt) ;;;
          if (initiator =? 0) || (initiator =? k)
          then call (GHomebind k) ;;; disband_members a g hideDestroy initiator l' remaining
          else disband_members a g hideDestroy initiator l' (Some k)
      end
  end.
(** [CountTheRoll] until no roll is left. *)
Fixpoint count_rolls (n : nat) (a : Z) : GM unit :=
  match n with
  | O => st_ret tt
  | S n' => CountTheRoll env a 0 ;;; count_rolls n' a
  end.
Definition Disband (a : Z) (hideDestroy : bool) (initiator : Z) : GM unit :=
  call (GHookDisband a) ;;;
  let! g := group_at a in
  let! remaining := disband_members a g hideDestroy initiator (m_memberSlots g) None in
  let! g := group_at a in
  count_rolls (length (RollId g)) a ;;;
  g_mod a (set_slots []) ;;;
  RemoveAllInvites a ;;;
  (if isBGGroup g then st_ret tt
   else
     alter_world (fun w => w_set_groups (delete (m_Id g) (t_groups w)) w) ;;;
     alter_world (fun w => w_set_group_member (sql_delete_rows (fun k _ => k.1 =? m_Id g) (t_group_member w)) w) ;;;
     (match remaining with Some k => call (GInheritInstance a k) | None => st_ret tt end) ;;;
     call (GResetInstances a)) ;;;
  _updateLeaderFlag a true ;;;
  g_mod a (set_leader 0 "").

(** The end of [RemoveMember]; [g] is the group before. *)
Definition after_removal (a guid removeMethod : Z) (g : Group) (leaderChanged : bool) : GM unit :=
  UpdateCrossfaction a ;;;
  let! player := look (GetPlayer guid) in
  (match player with
   | Some _ =>
       (if isRaidGroup g then call (GQuestObjects guid) else st_ret tt) ;;;
       (if removeMethod =? GROUP_KICK then
          send guid (pk_init SMSG_GROUP_UNINVITE) ;;;
          (if isInLFG g then
             BroadcastPacket a (QueuePacket 0 MEETINGSTONE_STATUS_PARTY_MEMBER_REMOVED_PARTY_REMOVED) true (-1) 0 ;;;
             RemoveGroupFromQueue (m_Id g) GROUP_CLIENT_LEAVE ;;;
             let! h := group_at a in
             SendMeetingstoneSetqueue guid (m_LFGAreaId h) MEETINGSTONE_STATUS_LOOKING_FOR_NEW_PARTY_IN_QUEUE ;;;
             AddToQueue env guid (m_LFGAreaId h)
           else st_ret tt)
        else st_ret tt) ;;;
       (if (removeMethod =? GROUP_LEAVE) && isInLFG g then
          SendMeetingstoneSetqueue guid 0 MEETINGSTONE_STATUS_NONE ;;;
          BroadcastPacket a (QueuePacket (m_LFGAreaId g) MEETINGSTONE_STATUS_PARTY_MEMBER_LEFT_LFG) true (-1) 0
        else st_ret tt) ;;;
       show_left guid ;;;
       call (GHomebind guid)
   | None => st_ret tt
   end) ;;;
  (if leaderChanged then
     let! h := group_at a in
     BroadcastPacket a (LeaderPacket (m_leaderName h)) true (-1) 0 ;;; RemoveGroupFromQueue (m_Id h) GROUP_CLIENT_LEAVE
   else st_ret tt) ;;;
  let! h := group_at a in
  (if isInLFG h then UpdateGroup env (m_Id h) else st_ret tt) ;;;
  SendUpdate a ;;;
  call (GHookRemove a guid removeMethod).
Definition RemoveMember (a guid removeMethod : Z) : GM Z :=
  let! g := group_at a in
  (if GetMembersCount g >? GetMembersMinCount g
   then let! leaderChanged := _removeMember a guid in after_removal a guid removeMethod g leaderChanged
   else Disband a true guid) ;;;
  let! g := group_at a in st_ret (GetMembersCount g).

(** [delete group]. *)
Definition delete_group (a : Z) : GM unit :=
  let! g := group_at a in
  (if isBGGroup g then call (GBgRaidGone a) else st_ret tt) ;;;
  RemoveAllInvites a ;;;
  call (GForgetInstances a) ;;;
  let! g := group_at a in
  alter_world (fun w => w_set_players (clear_refs (m_memberMgr g) (w_players w)) w) ;;;
  alter_world (fun w => w_set_heap (delete a (w_heap w)) w).
End group.
