(* ===== verification/GroupRaid.v ===== *)
(** * Group: raids, roles, icons, loot rules and loading

    The rest of [src/game/Group/Group.cpp] that is modelled, and
    [ObjectMgr::LoadGroups]. *)

From S2P Require Import Prelude ByteBuffer ObjectGuid Packets Effects Social GroupData GroupRolls GroupLists LFG Group.

Local Open Scope prog_scope.

Section raid.
Context (env : GroupEnv).

Definition update_groups (g : Group) (f : groups_row -> groups_row) : GM unit :=
  if isBGGroup g then st_ret tt
  else alter_world (fun w => w_set_groups (sql_update_row f (m_Id g) (t_groups w)) w).
(** [UPDATE group_member ... WHERE memberGuid]: the rows of the member in every
    group. *)
Definition update_member (g : Group) (guid : Z) (f : member_row -> member_row) : GM unit :=
  if isBGGroup g then st_ret tt
  else alter_world (fun w => w_set_group_member
         (map_imap (fun k r => Some (if k.2 =? GetCounter guid then f r else r)) (t_group_member w)) w).

Definition ConvertToRaid (a : Z) : GM unit :=
  g_mod a (set_groupType GROUPTYPE_RAID) ;;;
  _initRaidSubGroupsCounter a ;;;
  let! g := group_at a in
  update_groups g (fun r => mkGRow (gr_leaderGuid r) (gr_mainTank r) (gr_mainAssistant r) (gr_lootMethod r)
    (gr_looterGuid r) (gr_lootThreshold r) (gr_icons r) true) ;;;
  SendUpdate a ;;;
  each (fun m =>
    let! p := look (GetPlayer (ms_guid m)) in
    match p with Some _ => call (GQuestObjects (ms_guid m)) | None => st_ret tt end) (m_memberSlots g).

(** ** Target icons *)

Definition IconPacket (id targetGuid : Z) : PK unit :=
  pk_init MSG_RAID_TARGET_UPDATE ;;; pk_u8 0 ;;; pk_u8 id ;;; pk_guid targetGuid.
(** The end of [SetTargetIcon], which is all of it for an empty target. *)
Definition put_icon (a id targetGuid : Z) : GM unit :=
  g_mod a (fun g => set_targetIcons (<[Z.to_nat id := targetGuid]> (m_targetIcons g)) g) ;;;
  BroadcastPacket a (IconPacket id targetGuid) true (-1) 0.
(** The loop that takes the target's other icons away. *)
Fixpoint clean_icons (n : nat) (a i targetGuid : Z) : GM unit :=
  match n with
  | O => st_ret tt
  | S n' =>
      let! g := group_at a in
      let! t := deref (m_targetIcons g !! Z.to_nat i) in
      (if t =? targetGuid then put_icon a i 0 else st_ret tt) ;;;
      clean_icons n' a (i + 1) targetGuid
  end.
Definition SetTargetIcon (a id targetGuid : Z) : GM unit :=
  if id >=? TARGET_ICON_COUNT then st_ret tt
  else
    (if targetGuid =? 0 then st_ret tt else clean_icons 8 a 0 targetGuid) ;;;
    put_icon a id targetGuid.
Definition ClearTargetIcon (a targetGuid : Z) : GM unit :=
  let! g := group_at a in
  match list_find (fun t => t = targetGuid) (m_targetIcons g) with
  | Some (i, _) => SetTargetIcon a (Z.of_nat i) 0
  | None => st_ret tt
  end.

(** ** Subgroups *)

Definition SameSubGroup (a : Z) (member1 member2 : Player) : bool :=
  bool_decide (GetGroup member1 = Some a) && bool_decide (GetGroup member2 = Some a)
  && (GetSubGroup member1 =? GetSubGroup member2).

Definition row_set_subgroup (v : Z) (r : member_row) : member_row := mkMRow (mr_assistant r) v.
Definition _setMembersGroup (a guid group : Z) : GM bool :=
  let! g := group_at a in
  match member_slot guid g with
  | None => st_ret false
  | Some _ =>
      g_mod a (fun g => set_slots (alter_slot guid (ms_set_group group) (m_memberSlots g)) g) ;;;
      SubGroupCounterIncrease a group ;;;
      update_member g guid (row_set_subgroup group) ;;;
      st_ret true
  end.
(** A raid whose subgroup [group] exists and has room. *)
Definition can_move (a group : Z) : GM bool :=
  let! g := group_at a in
  if negb (isRaidGroup g) || (group >=? MAX_RAID_SUBGROUPS) then st_ret false
  else
    match m_subGroupsCounts g with
    | Some c => let! n := count_at group c in st_ret (n <? MAX_GROUP_SIZE)
    | None => st_ret true
    end.
Definition ChangeMembersGroup_player (a player group : Z) : GM unit :=
  let! g := group_at a in
  if negb (isRaidGroup g) || (group >=? MAX_RAID_SUBGROUPS) then st_ret tt
  else
    let prevSubGroup := GetMemberGroup player g in
    if (prevSubGroup =? group) || (prevSubGroup >=? MAX_RAID_SUBGROUPS) then st_ret tt
    else
      let! ok := can_move a group in
      if negb ok then st_ret tt
      else
        let! set := _setMembersGroup a player group in
        if negb set then st_ret tt
        else
          let! p := player_at player in
          (if bool_decide (GetGroup p = Some a) then
             p_mod player (setSubGroup false group) ;;; SubGroupCounterDecrease a prevSubGroup
           else
             p_mod player (setSubGroup true group) ;;; SubGroupCounterDecrease a (GetOriginalSubGroup p)) ;;;
          SendUpdate a.
Definition ChangeMembersGroup (a guid group : Z) : GM unit :=
  let! ok := can_move a group in
  if negb ok then st_ret tt
  else
    let! player := look (GetPlayer guid) in
    match player with
    | Some _ => ChangeMembersGroup_player a guid group
    | None =>
        let! g := group_at a in
        let prevSubGroup := GetMemberGroup guid g in
        if prevSubGroup =? group then st_ret tt
        else
          let! set := _setMembersGroup a guid group in
          if set : bool then SubGroupCounterDecrease a prevSubGroup ;;; SendUpdate a else st_ret tt
    end.

Definition _swapMembersGroup (a guid swapGuid : Z) : GM bool :=
  let! g := group_at a in
  match member_slot guid g, member_slot swapGuid g with
  | Some slot, Some swapSlot =>
      g_mod a (fun g => set_slots (alter_slot guid (ms_set_group (ms_group swapSlot))
        (alter_slot swapGuid (ms_set_group (ms_group slot)) (m_memberSlots g))) g) ;;;
      update_member g guid (row_set_subgroup (ms_group swapSlot)) ;;;
      update_member g swapGuid (row_set_subgroup (ms_group slot)) ;;;
      st_ret true
  | _, _ => st_ret false
  end.
(** The reference of an online member follows the slot. *)
Definition move_ref (a k group : Z) : GM unit :=
  let! p := player_at k in
  p_mod k (setSubGroup (negb (bool_decide (GetGroup p = Some a))) group).
(** Both versions of [SwapMembersGroup]: a reference is updated for whoever is
    online. *)
Definition SwapMembersGroup (a guid swapGuid : Z) : GM unit :=
  let! g := group_at a in
  if negb (isRaidGroup g) then st_ret tt
  else
    let! player := look (GetPlayer guid) in
    let! swapPlayer := look (GetPlayer swapGuid) in
    let group := GetMemberGroup guid g in
    let swapGroup := GetMemberGroup swapGuid g in
    if (group =? swapGroup) || (group >=? MAX_RAID_SUBGROUPS) || (swapGroup >=? MAX_RAID_SUBGROUPS) then st_ret tt
    else
      let! done := _swapMembersGroup a guid swapGuid in
      if negb done then st_ret tt
      else
        (match player with Some _ => move_ref a guid swapGroup | None => st_ret tt end) ;;;
        (match swapPlayer with Some _ => move_ref a swapGuid group | None => st_ret tt end) ;;;
        SendUpdate a.

(** ** Assistants, main tank and main assistant *)

Definition _setAssistantFlag (a guid : Z) (state : bool) : GM bool :=
  let! g := group_at a in
  match member_slot guid g with
  | None => st_ret false
  | Some _ =>
      g_mod a (fun g => set_slots (alter_slot guid (ms_set_assistant state) (m_memberSlots g)) g) ;;;
      update_member g guid (fun r => mkMRow state (mr_subgroup r)) ;;;
      st_ret true
  end.
Definition SetAssistant (a guid : Z) (state : bool) : GM unit :=
  let! g := group_at a in
  if negb (isRaidGroup g) then st_ret tt
  else let! ok := _setAssistantFlag a guid state in if ok : bool then SendUpdate a else st_ret tt.

Definition row_set_tank (v : Z) (r : groups_row) : groups_row :=
  mkGRow (gr_leaderGuid r) v (gr_mainAssistant r) (gr_lootMethod r) (gr_looterGuid r) (gr_lootThreshold r) (gr_icons r) (gr_isRaid r).
Definition row_set_mainAssistant (v : Z) (r : groups_row) : groups_row :=
  mkGRow (gr_leaderGuid r) (gr_mainTank r) v (gr_lootMethod r) (gr_looterGuid r) (gr_lootThreshold r) (gr_icons r) (gr_isRaid r).
(** Storing one of the two roles; an empty guid takes the role away. *)
Definition store_tank (a guid : Z) : GM unit :=
  g_mod a (set_mainTank guid) ;;;
  let! g := group_at a in update_groups g (row_set_tank (GetCounter guid)).
Definition store_assistant (a guid : Z) : GM unit :=
  g_mod a (set_mainAssistant guid) ;;;
  let! g := group_at a in update_groups g (row_set_mainAssistant (GetCounter guid)).
Definition _setMainTank (a guid : Z) : GM bool :=
  let! g := group_at a in
  if m_mainTankGuid g =? guid then st_ret false
  else if negb (guid =? 0) && negb (IsMember guid g) then st_ret false
  else
    (if negb (guid =? 0) && (m_mainAssistantGuid g =? guid) then store_assistant a 0 else st_ret tt) ;;;
    store_tank a guid ;;; st_ret true.
Definition _setMainAssistant (a guid : Z) : GM bool :=
  let! g := group_at a in
  if m_mainAssistantGuid g =? guid then st_ret false
  else if negb (guid =? 0) && negb (IsMember guid g) then st_ret false
  else
    (if negb (guid =? 0) && (m_mainTankGuid g =? guid) then store_tank a 0 else st_ret tt) ;;;
    store_assistant a guid ;;; st_ret true.
Definition SetMainTank (a guid : Z) : GM unit :=
  let! g := group_at a in
  if negb (isRaidGroup g) then st_ret tt
  else let! ok := _setMainTank a guid in if ok : bool then SendUpdate a else st_ret tt.
Definition SetMainAssistant (a guid : Z) : GM unit :=
  let! g := group_at a in
  if negb (isRaidGroup g) then st_ret tt
  else let! ok := _setMainAssistant a guid in if ok : bool then SendUpdate a else st_ret tt.

(** ** Loot rules and the round robin *)

Definition SetLootMethod (method : Z) (g : Group) : Group := set_lootRules method (m_lootThreshold g) g.
Definition SetLootThreshold (threshold : Z) (g : Group) : Group := set_lootRules (m_lootMethod g) threshold g.
Definition SetLooterGuid (guid : Z) (g : Group) : Group := set_looterGuid guid g.

(** The first member in the world and near the looted object. *)
Definition first_near (w : GroupWorld) (target : Z) (l : list MemberSlot) : option Z :=
  ms_guid <$> (snd <$> list_find (fun m =>
    is_Some (GetPlayer (ms_guid m) w) /\ IsWithinLootXPDist env (ms_guid m) target = true) l).
Definition near (w : GroupWorld) (target k : Z) : bool :=
  bool_decide (is_Some (GetPlayer k w)) && IsWithinLootXPDist env k target.
(** The members after the current looter, and those up to him. *)
Definition split_looter (looter : Z) (l : list MemberSlot) : list MemberSlot * list MemberSlot :=
  match list_find (fun m => ms_guid m = looter) l with
  | Some (i, _) => (drop (S i) l, take (S i) l)
  | None => ([], l)
  end.
Definition UpdateLooterGuid (a target : Z) (ifneed : bool) : GM unit :=
  let! g := group_at a in
  if (m_lootMethod g =? MASTER_LOOT) || (m_lootMethod g =? FREE_FOR_ALL) then st_ret tt
  else
    let! w := look id in
    let old := m_looterGuid g in
    if ifneed && IsMember old g && near w target old then st_ret tt
    else
      let '(after, upto) := split_looter old (m_memberSlots g) in
      let next := match first_near w target after with Some k => Some k | None => first_near w target upto end in
      match next with
      | Some k => if old =? k then st_ret tt else g_mod a (SetLooterGuid k) ;;; SendUpdate a
      | None => g_mod a (SetLooterGuid 0) ;;; SendUpdate a
      end.

(** ** Hardcore characters *)

Fixpoint hardcore_members (invitee : Player) (w : GroupWorld) (l : list MemberSlot) : bool :=
  match l with
  | [] => true
  | m :: l' =>
      (match GetPlayer (ms_guid m) w with
       | Some _ => bool_decide (HardcoreResult env (ms_guid m) (pl_guid invitee) = None)
       | None =>
           let '(level, hardcore) :=
             match GetPlayerDataByGUID env (GetCounter (ms_guid m)) with
             | Some d => (u8 (pc_level d), pc_hardcore d)
             | None => (0, false)
             end in
           if hardcore then pl_hardcore invitee && (Z.abs (pl_level invitee - level) <=? 5)
           else negb (pl_hardcore invitee)
       end) && hardcore_members invitee w l'
  end.
Definition HandleHardcoreInteraction (a invitee : Z) : GM bool :=
  let! g := group_at a in
  let! p := player_at invitee in
  let! w := look id in
  st_ret (hardcore_members p w (m_memberSlots g)).

(** ** The registry and loading *)

Definition GetGroupById (id : Z) (w : GroupWorld) : option Z := m_GroupMap w !! id.
Definition AddGroup (a : Z) : GM unit :=
  let! g := group_at a in alter_world (fun w => w_set_GroupMap (<[m_Id g := a]> (m_GroupMap w)) w).
Definition RemoveGroup (a : Z) : GM unit :=
  let! g := group_at a in alter_world (fun w => w_set_GroupMap (delete (m_Id g) (m_GroupMap w)) w).
Fixpoint group_with (guid : Z) (l : list Z) : GM (option Z) :=
  match l with
  | [] => st_ret None
  | id :: l' =>
      let! a := look (GetGroupById id) in
      match a with
      | None => group_with guid l'
      | Some a => let! g := group_at a in if IsMember guid g then st_ret (Some a) else group_with guid l'
      end
  end.
Definition GetGroupByMember (guid : Z) : GM (option Z) :=
  let! ids := look (fun w => group_order env (m_GroupMap w)) in group_with guid ids.

Definition LoadGroupFromDB (a id : Z) (r : groups_row) : GM bool :=
  let leader := ObjectGuid_low HIGHGUID_PLAYER (gr_leaderGuid r) in
  g_mod a (set_Id id) ;;; g_mod a (set_leader leader "") ;;;
  match GetPlayerDataByGUID env (GetCounter leader) with
  | None => st_ret false
  | Some d =>
      g_mod a (set_leader leader (sName d)) ;;;
      g_mod a (set_lastOnline (time_now env)) ;;;
      g_mod a (set_groupType (if gr_isRaid r then GROUPTYPE_RAID else GROUPTYPE_NORMAL)) ;;;
      (if gr_isRaid r then _initRaidSubGroupsCounter a else st_ret tt) ;;;
      g_mod a (set_mainTank (ObjectGuid_low HIGHGUID_PLAYER (gr_mainTank r))) ;;;
      g_mod a (set_mainAssistant (ObjectGuid_low HIGHGUID_PLAYER (gr_mainAssistant r))) ;;;
      g_mod a (set_lootRules (gr_lootMethod r) (gr_lootThreshold r)) ;;;
      g_mod a (set_looterGuid (ObjectGuid_low HIGHGUID_PLAYER (gr_looterGuid r))) ;;;
      g_mod a (set_targetIcons (gr_icons r)) ;;;
      st_ret true
  end.
Definition LoadMemberFromDB (a guidLow subgroup : Z) (assistant : bool) : GM bool :=
  match GetPlayerDataByGUID env guidLow with
  | None => st_ret false
  | Some d =>
      g_mod a (fun g => set_slots
        (m_memberSlots g ++ [mkMS (ObjectGuid_low HIGHGUID_PLAYER guidLow) (sName d) subgroup assistant]) g) ;;;
      SubGroupCounterIncrease a subgroup ;;;
      g_mod a (fun g => set_groupTeam (joined_team (m_groupTeam g) (TeamForRace env (uiRace d))) g) ;;;
      st_ret true
  end.

Fixpoint load_groups (rows : list (Z * groups_row)) : GM unit :=
  match rows with
  | [] => st_ret tt
  | (id, r) :: rows' =>
      let! a := new_group in
      let! ok := LoadGroupFromDB a id r in
      (if ok then AddGroup a else Disband env a false 0 ;;; delete_group env a) ;;;
      load_groups rows'
  end.
(** [DELETE FROM group_member WHERE memberGuid]. *)
Definition forget_member (guidLow : Z) : GM unit :=
  alter_world (fun w => w_set_group_member (sql_delete_rows (fun k _ => k.2 =? guidLow) (t_group_member w)) w).
Fixpoint load_members (rows : list (Z * bool * Z * Z)) : GM unit :=
  match rows with
  | [] => st_ret tt
  | (memberGuid, assistant, subgroup, groupId) :: rows' =>
      let! group := look (GetGroupById groupId) in
      (match group with
       | None => forget_member memberGuid
       | Some a =>
           let! ok := LoadMemberFromDB a memberGuid subgroup assistant in
           if ok : bool then st_ret tt else forget_member memberGuid
       end) ;;;
      load_members rows'
  end.
(** Groups of less than two or more than 40 members go. *)
Fixpoint clean_groups (ids : list Z) : GM unit :=
  match ids with
  | [] => st_ret tt
  | id :: ids' =>
      let! group := look (GetGroupById id) in
      (match group with
       | None => st_ret tt
       | Some a =>
           let! g := group_at a in
           if (GetMembersCount g <? 2) || (GetMembersCount g >? 40) then
             Disband env a false 0 ;;; delete_group env a ;;;
             alter_world (fun w => w_set_GroupMap (delete id (m_GroupMap w)) w)
           else st_ret tt
       end) ;;;
      clean_groups ids'
  end.
Definition LoadGroups (groups : option (list (Z * groups_row))) (rows : option (list (Z * bool * Z * Z))) : GM unit :=
  match groups with
  | None => st_ret tt
  | Some gs =>
      load_groups gs ;;;
      (match rows with Some rs => load_members rs | None => st_ret tt end) ;;;
      let! ids := look (fun w => group_order env (m_GroupMap w)) in
      clean_groups ids
  end.
End raid.
