(* ===== verification/GroupHandlers.v ===== *)
(** * Group: opcodes, and the life of a player in groups

    [src/game/Handlers/GroupHandler.cpp] without the statistics of members,
    the group functions of [src/game/Objects/Player.cpp], and the group part
    of login, logout, character deletion and teleport to a raid. *)

From stdpp Require Import strings.
From S2P Require Import Prelude ByteBuffer ObjectGuid Packets Effects Incoming Social.
From S2P Require Import GroupData GroupRolls GroupLists LFG Group GroupRaid.

Local Open Scope prog_scope.

Definition PARTY_OP_INVITE := 0.
Definition PARTY_OP_LEAVE := 2.
Definition ERR_PARTY_RESULT_OK := 0.
Definition ERR_BAD_PLAYER_NAME_S := 1.
Definition ERR_TARGET_NOT_IN_GROUP_S := 2.
Definition ERR_GROUP_FULL := 3.
Definition ERR_ALREADY_IN_GROUP_S := 4.
Definition ERR_NOT_IN_GROUP := 5.
Definition ERR_NOT_LEADER := 6.
Definition ERR_PLAYER_WRONG_FACTION := 7.
Definition ERR_IGNORING_YOU_S := 8.
Definition ERR_INTERNAL_BATTLEGROUND := 10.

Section handlers.
Context (env : GroupEnv).

Definition ResultPacket (operation : Z) (member : string) (res : Z) : PK unit :=
  pk_init SMSG_PARTY_COMMAND_RESULT ;;; pk_u32 operation ;;; pk_str member ;;; pk_u32 res.
Definition SendPartyResult (me operation : Z) (member : string) (res : Z) : GM unit :=
  send me (ResultPacket operation member res).

(** ** Functions of the player *)

Definition UninviteFromGroup (k : Z) : GM unit :=
  let! p := player_at k in
  match GetGroupInvite p with
  | None => st_ret tt
  | Some a =>
      RemoveInvite a k ;;;
      let! g := group_at a in
      if GetMembersCount g <=? 1 then
        (if IsCreated g then Disband env a true 0 ;;; RemoveGroup a else RemoveAllInvites env a) ;;;
        delete_group env a
      else st_ret tt
  end.
Definition RemoveFromGroup (group : option Z) (guid : Z) : GM unit :=
  match group with
  | None => st_ret tt
  | Some a =>
      let! n := RemoveMember env a guid GROUP_LEAVE in
      if n <=? 1 then RemoveGroup a ;;; delete_group env a else st_ret tt
  end.
(** [RemoveFromGroup()]. *)
Definition RemoveSelfFromGroup (k : Z) : GM unit := let! p := player_at k in RemoveFromGroup (GetGroup p) k.
Definition CanUninviteFromGroup (me uninvitedGuid : Z) : GM Z :=
  let! p := player_at me in
  match GetGroup p with
  | None => st_ret ERR_NOT_IN_GROUP
  | Some a =>
      let! g := group_at a in
      st_ret (if m_leaderGuid g =? uninvitedGuid then ERR_NOT_LEADER
              else if negb (IsLeader me g) && negb (IsAssistant me g) then ERR_NOT_LEADER
              else if pl_inBattleGround p then ERR_INTERNAL_BATTLEGROUND
              else ERR_PARTY_RESULT_OK)
  end.

(** ** Invitations *)

Definition InvitePacket (name : string) : PK unit := pk_init SMSG_GROUP_INVITE ;;; pk_str name.
Definition DeclinePacket (name : string) : PK unit := pk_init SMSG_GROUP_DECLINE ;;; pk_str name.
Definition hardcore_message : string := "You are able to group up only with other Hardcore characters as long as the difference between your levels isn't higher than 5.".

(** A refusal of the handler: a result for the player. *)
Definition refused (me : Z) (name : string) (res : Z) : GM unit := SendPartyResult me PARTY_OP_INVITE name res.

(** The end of [HandleGroupInviteOpcode], once the target may be invited:
    [group] is the group of the inviter. *)
Definition invite_to (me player : Z) (name membername : string) (group : option Z) : GM unit :=
  let! ok :=
    (match group with
     | None =>
         let! a := new_group in
         let! led := AddLeaderInvite a me in
         if negb led then delete_group env a ;;; st_ret false
         else
           let! invited := AddInvite a player in
           if negb invited then delete_group env a ;;; st_ret false else st_ret true
     | Some a => AddInvite a player
     end) in
  if negb ok then st_ret tt
  else send player (InvitePacket name) ;;; SendPartyResult me PARTY_OP_INVITE membername ERR_PARTY_RESULT_OK.
Definition HandleGroupInviteOpcode (me : Z) (b : ByteBuffer) : GM unit :=
  recv read_str b (fun name0 _ =>
    let '(ok, membername) := normalizePlayerName env name0 in
    if negb ok then refused me membername ERR_BAD_PLAYER_NAME_S
    else
      let! player := look (GetPlayer_name membername) in
      match player with
      | None => refused me membername ERR_BAD_PLAYER_NAME_S
      | Some player =>
          let! mine := player_at me in
          match HardcoreResult env me (pl_guid player) with
          | Some text => refused me membername ERR_BAD_PLAYER_NAME_S ;;; call (GNotification me text)
          | None =>
              if negb (CONFIG_ALLOW_TWO_SIDE_INTERACTION_GROUP env) && negb (pl_team mine =? pl_team player)
              then refused me membername ERR_PLAYER_WRONG_FACTION
              else if (pl_mapId mine >? 1) && truth (pl_instanceId mine) && truth (pl_instanceId player)
                      && negb (pl_instanceId mine =? pl_instanceId player) && (pl_mapId mine =? pl_mapId player)
              then st_ret tt
              else if HasIgnore me (pl_social player) then refused me membername ERR_IGNORING_YOU_S
              else
                let! group := social_group mine in
                let! group2 := social_group player in
                if bool_decide (is_Some group2) || bool_decide (is_Some (GetGroupInvite player))
                then refused me membername ERR_ALREADY_IN_GROUP_S
                else
                  match group with
                  | None => invite_to me (pl_guid player) (pl_name mine) membername None
                  | Some a =>
                      let! g := group_at a in
                      if negb (IsLeader me g) && negb (IsAssistant me g) then refused me "" ERR_NOT_LEADER
                      else if IsFull g then refused me "" ERR_GROUP_FULL
                      else
                        let! allowed := HandleHardcoreInteraction env a (pl_guid player) in
                        if negb allowed
                        then refused me membername ERR_BAD_PLAYER_NAME_S ;;; call (GNotification me hardcore_message)
                        else invite_to me (pl_guid player) (pl_name mine) membername (Some a)
                  end
          end
      end).

Definition HandleGroupAcceptOpcode (me : Z) : GM unit :=
  let! p := player_at me in
  match GetGroupInvite p with
  | None => st_ret tt
  | Some a =>
      let! g := group_at a in
      if (m_leaderGuid g =? me) || negb (CanMemberAccept env a me) then st_ret tt
      else
        RemoveInvite a me ;;;
        if IsFull g then refused me "" ERR_GROUP_FULL
        else
          let! allowed := HandleHardcoreInteraction env a me in
          if negb allowed then call (GNotification me hardcore_message)
          else
            let! leader := look (GetPlayer (m_leaderGuid g)) in
            let! ready :=
              (if IsCreated g then st_ret true
               else
                 (match leader with Some _ => RemoveInvite a (m_leaderGuid g) ;;; st_ret tt | None => st_ret tt end) ;;;
                 let! created := Create env a (m_leaderGuid g) (m_leaderName g) in
                 if created : bool then AddGroup a ;;; st_ret true else st_ret false) in
            if negb ready then st_ret tt
            else
              let! added := AddMember env a me (pl_name p) GROUP_JOIN in
              if added : bool then BroadcastGroupUpdate a else st_ret tt
  end.

Definition HandleGroupDeclineOpcode (me : Z) : GM unit :=
  let! p := player_at me in
  match GetGroupInvite p with
  | None => st_ret tt
  | Some a =>
      let! g := group_at a in
      let! leader := look (GetPlayer (m_leaderGuid g)) in
      UninviteFromGroup me ;;;
      match leader with
      | Some _ => send (m_leaderGuid g) (DeclinePacket (pl_name p))
      | None => st_ret tt
      end
  end.

(** ** Removing *)

Definition HandleGroupUninviteGuidOpcode (me : Z) (b : ByteBuffer) : GM unit :=
  recv read_guid b (fun guid _ =>
    if guid =? me then st_ret tt
    else
      let! res := CanUninviteFromGroup me guid in
      if negb (res =? ERR_PARTY_RESULT_OK) then SendPartyResult me PARTY_OP_LEAVE "" res
      else
        let! p := player_at me in
        match GetGroup p with
        | None => st_ret tt
        | Some a =>
            let! g := group_at a in
            if IsMember guid g then RemoveFromGroup (Some a) guid
            else
              let! plr := GetInvited a guid in
              match plr with
              | Some k => UninviteFromGroup k
              | None => SendPartyResult me PARTY_OP_LEAVE "" ERR_TARGET_NOT_IN_GROUP_S
              end
        end).
(** The two tails of [HandleGroupUninviteOpcode]. *)
Definition if_may_uninvite (me guid : Z) (k : GM unit) : GM unit :=
  let! res := CanUninviteFromGroup me guid in
  if negb (res =? ERR_PARTY_RESULT_OK) then SendPartyResult me PARTY_OP_LEAVE "" res else k.
Definition HandleGroupUninviteOpcode (me : Z) (b : ByteBuffer) : GM unit :=
  recv read_str b (fun name0 _ =>
    let '(ok, membername) := normalizePlayerName env name0 in
    if negb ok then st_ret tt
    else
      let! p := player_at me in
      if bool_decide (pl_name p = membername) then st_ret tt
      else
        match GetGroup p with
        | None => st_ret tt
        | Some a =>
            let! g := group_at a in
            let guid := GetMemberGuid membername g in
            if negb (guid =? 0) then if_may_uninvite me guid (RemoveFromGroup (Some a) guid)
            else
              let! plr := GetInvited_name env a membername in
              match plr with
              | Some k => if_may_uninvite me k (UninviteFromGroup k)
              | None => SendPartyResult me PARTY_OP_LEAVE membername ERR_TARGET_NOT_IN_GROUP_S
              end
        end).

Definition HandleGroupSetLeaderOpcode (me : Z) (b : ByteBuffer) : GM unit :=
  recv read_guid b (fun guid _ =>
    let! p := player_at me in
    match GetGroup p with
    | None => st_ret tt
    | Some a =>
        let! player := look (GetPlayer guid) in
        match player with
        | None => st_ret tt
        | Some q =>
            let! g := group_at a in
            if negb (IsLeader me g) || negb (bool_decide (GetGroup q = Some a)) then st_ret tt
            else ChangeLeader env a guid
        end
    end).
Definition HandleGroupDisbandOpcode (me : Z) : GM unit :=
  let! p := player_at me in
  match GetGroup p with
  | None => st_ret tt
  | Some a =>
      if pl_inBattleGround p then st_ret tt
      else
        SendPartyResult me PARTY_OP_LEAVE (pl_name p) ERR_PARTY_RESULT_OK ;;;
        BroadcastGroupUpdate a ;;;
        RemoveSelfFromGroup me
  end.

(** ** Loot *)

Definition HandleLootMethodOpcode (me : Z) (b : ByteBuffer) : GM unit :=
  recv read_u32 b (fun lootMethod b1 => recv read_guid b1 (fun lootMaster b2 => recv read_u32 b2 (fun lootThreshold _ =>
    if lootMethod >? 4 then st_ret tt
    else if (lootThreshold <? ITEM_QUALITY_NORMAL) || (lootThreshold >? ITEM_QUALITY_LEGENDARY) then st_ret tt
    else
      let! p := player_at me in
      let! group := (match GetGroup p with
                     | None => st_ret (GetOriginalGroup p)
                     | Some a => let! g := group_at a in st_ret (if isBGGroup g then GetOriginalGroup p else Some a)
                     end) in
      match group with
      | None => st_ret tt
      | Some a =>
          let! g := group_at a in
          if negb (IsLeader me g) then st_ret tt
          else
            g_mod a (SetLootMethod lootMethod) ;;;
            g_mod a (SetLooterGuid lootMaster) ;;;
            g_mod a (SetLootThreshold lootThreshold) ;;;
            SendUpdate a
      end))).
Definition HandleLootRoll (me : Z) (b : ByteBuffer) : GM unit :=
  recv read_guid b (fun lootedTarget b1 => recv read_u32 b1 (fun slot b2 => recv read_u8 b2 (fun rollType _ =>
    let! p := player_at me in
    match GetGroup p with
    | None => st_ret tt
    | Some a =>
        if rollType >=? MAX_ROLL_FROM_CLIENT then st_ret tt
        else CountRollVote env a me lootedTarget slot rollType ;;; st_ret tt
    end))).

(** ** Pings, rolls and target icons *)

(** The two floats are forwarded bit by bit. *)
Definition PingPacket (me x y : Z) : PK unit := pk_init MSG_MINIMAP_PING ;;; pk_guid me ;;; pk_u32 x ;;; pk_u32 y.
Definition HandleMinimapPingOpcode (me : Z) (b : ByteBuffer) : GM unit :=
  recv read_u32 b (fun x b1 => recv read_u32 b1 (fun y _ =>
    let! p := player_at me in
    match GetGroup p with
    | None => st_ret tt
    | Some a => BroadcastPacket a (PingPacket me x y) true (-1) me
    end)).
Definition RandomRollPacket (minimum maximum roll me : Z) : PK unit :=
  pk_init MSG_RANDOM_ROLL ;;; pk_u32 minimum ;;; pk_u32 maximum ;;; pk_u32 roll ;;; pk_guid me.
Definition HandleRandomRollOpcode (me : Z) (b : ByteBuffer) : GM unit :=
  recv read_u32 b (fun minimum b1 => recv read_u32 b1 (fun maximum _ =>
    if (minimum >? maximum) || (maximum >? 10000) then st_ret tt
    else
      let! roll := draw env minimum maximum in
      let! p := player_at me in
      match GetGroup p with
      | Some a => BroadcastPacket a (RandomRollPacket minimum maximum roll me) false (-1) 0
      | None => send me (RandomRollPacket minimum maximum roll me)
      end)).
Definition HandleRaidTargetUpdateOpcode (me : Z) (b : ByteBuffer) : GM unit :=
  recv read_u8 b (fun x b1 =>
    let! p := player_at me in
    match (match GetGroup p with Some a => Some a | None => GetOriginalGroup p end) with
    | None => st_ret tt
    | Some a =>
        if x =? 0xFF then SendTargetIconList a me
        else
          let! g := group_at a in
          if negb (IsLeader me g) && negb (IsAssistant me g) then st_ret tt
          else recv read_guid b1 (fun guid _ => SetTargetIcon a x guid)
    end).

(** ** Raids *)

Definition HandleGroupRaidConvertOpcode (me : Z) : GM unit :=
  let! p := player_at me in
  match GetGroup p with
  | None => st_ret tt
  | Some a =>
      if pl_inBattleGround p then st_ret tt
      else
        let! g := group_at a in
        if negb (IsLeader me g) || (GetMembersCount g <? GetMembersMinCount g) then st_ret tt
        else SendPartyResult me PARTY_OP_INVITE "" ERR_PARTY_RESULT_OK ;;; ConvertToRaid a
  end.
(** The group of the player, for its leader and its assistants. *)
Definition as_officer (me : Z) (k : Z -> GM unit) : GM unit :=
  let! p := player_at me in
  match GetGroup p with
  | None => st_ret tt
  | Some a =>
      let! g := group_at a in
      if negb (IsLeader me g) && negb (IsAssistant me g) then st_ret tt else k a
  end.
Definition HandleGroupChangeSubGroupOpcode (me : Z) (b : ByteBuffer) : GM unit :=
  recv read_str b (fun name b1 => recv read_u8 b1 (fun groupNr _ =>
    if groupNr >=? MAX_RAID_SUBGROUPS then st_ret tt
    else as_officer me (fun a =>
      let! free := HasFreeSlotSubGroup a groupNr in
      if negb free then st_ret tt
      else
        let! player := look (GetPlayer_name name) in
        match player with
        | Some q => ChangeMembersGroup_player a (pl_guid q) groupNr
        | None =>
            let guid := GetPlayerGuidByName env name in
            if guid =? 0 then st_ret tt else ChangeMembersGroup a guid groupNr
        end))).
Definition HandleGroupSwapSubGroupOpcode (me : Z) (b : ByteBuffer) : GM unit :=
  recv read_str b (fun name b1 => recv read_str b1 (fun nameSwapWith _ =>
    as_officer me (fun a =>
      let! player := look (GetPlayer_name name) in
      let! swapPlayer := look (GetPlayer_name nameSwapWith) in
      match player, swapPlayer with
      | Some p, Some q => SwapMembersGroup a (pl_guid p) (pl_guid q)
      | _, _ =>
          let swapGuid := GetPlayerGuidByName env name in
          let swapWithGuid := GetPlayerGuidByName env nameSwapWith in
          if (swapGuid =? 0) || (swapWithGuid =? 0) then st_ret tt else SwapMembersGroup a swapGuid swapWithGuid
      end))).
Definition HandleGroupAssistantLeaderOpcode (me : Z) (b : ByteBuffer) : GM unit :=
  recv read_guid b (fun guid b1 => recv read_u8 b1 (fun flag _ =>
    let! p := player_at me in
    match GetGroup p with
    | None => st_ret tt
    | Some a =>
        let! g := group_at a in
        if negb (IsLeader me g) then st_ret tt else SetAssistant a guid (truth flag)
    end)).
Definition AnswerPacket (me state : Z) : PK unit := pk_init MSG_RAID_READY_CHECK ;;; pk_guid me ;;; pk_u8 state.
Definition HandleRaidReadyCheckOpcode (me : Z) (b : ByteBuffer) : GM unit :=
  if size b =? 0 then
    as_officer me (fun a => BroadcastPacket a (pk_init MSG_RAID_READY_CHECK) false (-1) 0 ;;; OfflineReadyCheck)
  else
    recv read_u8 b (fun state _ =>
      let! p := player_at me in
      match GetGroup p with
      | None => st_ret tt
      | Some a =>
          let! g := group_at a in
          let! gleader := look (GetPlayer (m_leaderGuid g)) in
          match gleader with
          | Some _ => send (m_leaderGuid g) (AnswerPacket me state)
          | None => st_ret tt
          end
      end).
End handlers.
