(* ===== verification/MeetingStones.v ===== *)
(** * MeetingStones: the update of the role queue, and its opcodes

    [LFGQueue::Update] with what only it uses of [src/game/LFG/LFGMgr.cpp], the
    opcodes of [src/game/Handlers/LFGHandler.cpp] and the script command of
    [src/game/Maps/ScriptCommands.cpp]. *)

From S2P Require Import Prelude ByteBuffer ObjectGuid Packets Effects Incoming Social.
From S2P Require Import GroupData GroupRolls GroupLists LFG Group GroupRaid GroupHandlers.

Local Open Scope prog_scope.

(** Half an hour. *)
Definition PRIORITY_TIME := 30 * 60 * 1000.
Definition _groupSize : nat := 5.

(** ** Entries *)

Definition ticked (diff : Z) (i : LFGPlayerQueueInfo) : LFGPlayerQueueInfo :=
  let t := u32 (timeInLFG i + diff) in
  mkLFGP (roleMask i) (lp_team i) (lp_areaId i) t (if t >=? PRIORITY_TIME then true else hasQueuePriority i)
    (lp_isHardcore i) (lp_name i) (rolePriority i).
Definition set_groupTimer (t : Z) (e : LFGGroupQueueInfo) : LFGGroupQueueInfo :=
  mkLFGG (availableRoles e) (dpsCount e) (lg_team e) (lg_areaId e) (lg_isHardcore e) t.
(** The end of [FindRoleToGroup]: the role is taken from what the group offers. *)
Definition take_offer (role : Z) (e : LFGGroupQueueInfo) : option LFGGroupQueueInfo :=
  let set roles dps := mkLFGG roles dps (lg_team e) (lg_areaId e) (lg_isHardcore e) (groupTimer e) in
  if role =? LFG_ROLE_TANK then Some (set (without_role LFG_ROLE_TANK (availableRoles e)) (dpsCount e))
  else if role =? LFG_ROLE_HEALER then Some (set (without_role LFG_ROLE_HEALER (availableRoles e)) (dpsCount e))
  else if role =? LFG_ROLE_DPS then
    Some (if dpsCount e <? GetMaximumDPSSlots
          then set (if dpsCount e + 1 >=? GetMaximumDPSSlots then without_role LFG_ROLE_DPS (availableRoles e) else availableRoles e)
                 (dpsCount e + 1)
          else e)
  else None.
(** The player [j] has to be served in this role before the player [k].  The
    two priorities are stored in variables of type [bool]. *)
Definition ahead (role k : Z) (i : LFGPlayerQueueInfo) (j : Z) (o : LFGPlayerQueueInfo) : bool :=
  negb (k =? j) && (lp_areaId i =? lp_areaId o) && (lp_team i =? lp_team o) && (Z.land (roleMask o) role =? role)
  && ((truth (GetRolePriority role o) && negb (truth (GetRolePriority role i)))
      || (hasQueuePriority o && (timeInLFG o >? timeInLFG i))
      || (negb (hasQueuePriority i) && (timeInLFG o >? timeInLFG i))).
(** The group is looking for players like this one. *)
Definition suits (e : LFGGroupQueueInfo) (i : LFGPlayerQueueInfo) : bool :=
  (lp_team i =? lg_team e) && (lp_areaId i =? lg_areaId e) && Bool.eqb (lp_isHardcore i) (lg_isHardcore e).

(** The entries the iterators of the queue point at. *)
Definition queued_player_at (k : Z) : GM LFGPlayerQueueInfo := let! i := look (fun w => m_QueuedPlayers (w_lfg w) !! k) in deref i.
Definition queued_group_at (id : Z) : GM LFGGroupQueueInfo := let! e := look (fun w => m_QueuedGroups (w_lfg w) !! id) in deref e.

Section update.
Context (env : GroupEnv).

(** ** The update *)

Definition tick_player (diff k : Z) : GM unit :=
  let! plr := look (GetPlayer k) in
  match plr with
  | None =>
      let! i := queued_player_at k in
      alter_world (on_offline (<[k := i]>)) ;;; alter_world (on_players (delete k))
  | Some _ => alter_world (on_players (alter (ticked diff) k))
  end.

Definition FindRoleToGroup (playerGuid a role : Z) : GM bool :=
  let! g := group_at a in
  let! q := look w_lfg in
  match m_QueuedGroups q !! m_Id g, m_QueuedPlayers q !! playerGuid with
  | Some e, Some i =>
      if bool_decide (map_Exists (fun j o => ahead role playerGuid i j o = true) (m_QueuedPlayers q)) then st_ret false
      else
        match take_offer role e with
        | None => st_ret false
        | Some e' =>
            alter_world (on_groups (<[m_Id g := e']>)) ;;;
            BroadcastPacket a (BuildMemberAddedPacket playerGuid) true (-1) 0 ;;;
            AddMember env a playerGuid (lp_name i) GROUP_LFG ;;;
            RemovePlayerFromQueue playerGuid PLAYER_SYSTEM_LEAVE ;;;
            st_ret true
        end
  | _, _ => st_ret false
  end.
(** The roles a queued player is tried for, up to the first he gets. *)
Fixpoint find_role (id a k : Z) (roles : list Z) : GM bool :=
  match roles with
  | [] => st_ret false
  | role :: roles' =>
      let! i := queued_player_at k in
      if Z.land (roleMask i) role =? 0 then find_role id a k roles'
      else
        let! e := queued_group_at id in
        if Z.land role (availableRoles e) =? role then
          let! found := FindRoleToGroup k a role in
          if found : bool then st_ret true else find_role id a k roles'
        else find_role id a k roles'
  end.
(** The players who are tried for the group [id] at [a], until it is full. *)
Fixpoint fill_group (id a : Z) (players : list Z) : GM unit :=
  match players with
  | [] => st_ret tt
  | k :: players' =>
      let! i := queued_player_at k in
      let! e := queued_group_at id in
      if suits e i then
        let! groupFound := find_role id a k PotentialRoles in
        let! g := group_at a in
        if groupFound && IsFull g then st_ret tt else fill_group id a players'
      else fill_group id a players'
  end.
(** The groups; one that is full ends the round. *)
Fixpoint fill_groups (diff : Z) (ids : list Z) : GM unit :=
  match ids with
  | [] => st_ret tt
  | id :: ids' =>
      let! grp := look (GetGroupById id) in
      match grp with
      | None => alter_world (on_groups (delete id)) ;;; fill_groups diff ids'
      | Some a =>
          let! g := group_at a in
          if IsFull g then RemoveGroupFromQueue id GROUP_SYSTEM_LEAVE
          else
            let! players := look (fun w => sorted_keys (m_QueuedPlayers (w_lfg w))) in
            fill_group id a players ;;;
            let! g := group_at a in
            if IsFull g then RemoveGroupFromQueue id GROUP_SYSTEM_LEAVE
            else
              let! e := queued_group_at id in
              (if groupTimer e <=? diff then
                 BroadcastPacket a BuildInProgressPacket true (-1) 0 ;;;
                 alter_world (on_groups (alter (set_groupTimer GROUP_TIMER) id))
               else alter_world (on_groups (alter (set_groupTimer (groupTimer e - diff)) id))) ;;;
              fill_groups diff ids'
      end
  end.
(** The new group [a] is created for its leader. *)
Definition make_group (a leader : Z) (name : string) : GM bool :=
  let! g := group_at a in
  if IsCreated g then st_ret true
  else
    let! created := Create env a leader name in
    if created : bool then AddGroup a ;;; st_ret true else st_ret false.
(** A new group of the first player of the queue and the first who waits for
    the same. *)
Definition form_group : GM unit :=
  let! players := look (fun w => m_QueuedPlayers (w_lfg w)) in
  if (length (sorted_keys players) <? _groupSize)%nat then st_ret tt
  else
    let! leader := deref (head (sorted_keys players)) in
    let! i := queued_player_at leader in
    let! playersInArea := look (fun w => FindInArea w (lp_areaId i) (lp_team i) leader) in
    if (length playersInArea <? _groupSize - 1)%nat then st_ret tt
    else
      let! front := deref (head playersInArea) in
      let! pLeader := look (GetPlayer leader) in
      let! pMember := look (GetPlayer front) in
      match pLeader, pMember with
      | Some pl, Some pm =>
          let! a := new_group in
          let! ready := make_group a (pl_guid pl) (pl_name pl) in
          if negb ready then st_ret tt
          else
            send leader (BuildMemberAddedPacket (pl_guid pm)) ;;;
            AddMember env a (pl_guid pm) (pl_name pm) GROUP_LFG ;;;
            let! i := queued_player_at leader in
            AddToQueue env (pl_guid pl) (lp_areaId i) ;;;
            RemovePlayerFromQueue leader PLAYER_SYSTEM_LEAVE ;;;
            RemovePlayerFromQueue (pl_guid pm) PLAYER_SYSTEM_LEAVE
      | _, _ => st_ret tt
      end.
(** [LFGQueue::Update]. *)
Definition Update (diff : Z) : GM unit :=
  let! q := look w_lfg in
  if bool_decide (m_QueuedGroups q = ∅) && bool_decide (m_QueuedPlayers q = ∅) then st_ret tt
  else
    each (tick_player diff) (sorted_keys (m_QueuedPlayers q)) ;;;
    let! ids := look (fun w => sorted_keys (m_QueuedGroups (w_lfg w))) in
    fill_groups diff ids ;;;
    form_group.

(** ** Opcodes *)

Definition JoinFailedPacket (status : Z) : PK unit := pk_init SMSG_MEETINGSTONE_JOINFAILED ;;; pk_u8 status.
Definition SendMeetingstoneFailed (me status : Z) : GM unit := send me (JoinFailedPacket status).

Definition HandleMeetingStoneJoinOpcode (me : Z) (b : ByteBuffer) : GM unit :=
  recv read_guid b (fun guid _ =>
    if negb (IsSelfMover env me) then st_ret tt
    else
      match MeetingStone env me guid with
      | None => st_ret tt
      | Some (type, areaID) =>
          if negb (type =? GAMEOBJECT_TYPE_MEETINGSTONE) then st_ret tt
          else
            let! p := player_at me in
            match GetGroup p with
            | Some a =>
                let! g := group_at a in
                if negb (IsLeader me g) then SendMeetingstoneFailed me MEETINGSTONE_FAIL_PARTYLEADER
                else if isRaidGroup g then SendMeetingstoneFailed me MEETINGSTONE_FAIL_RAID_GROUP
                else if IsFull g then SendMeetingstoneFailed me MEETINGSTONE_FAIL_FULL_GROUP
                else AddToQueue env me areaID
            | None => AddToQueue env me areaID
            end
      end).
Definition HandleMeetingStoneLeaveOpcode (me : Z) : GM unit :=
  let! p := player_at me in
  match GetGroup p with
  | Some a =>
      let! g := group_at a in
      if IsLeader me g && isInLFG g then RemoveGroupFromQueue (m_Id g) GROUP_CLIENT_LEAVE
      else SendMeetingstoneSetqueue me 0 MEETINGSTONE_STATUS_NONE
  | None => RemovePlayerFromQueue me PLAYER_CLIENT_LEAVE
  end.
Definition HandleMeetingStoneInfoOpcode (me : Z) : GM unit :=
  let! p := player_at me in
  match GetGroup p with
  | Some a =>
      let! g := group_at a in
      if isInLFG g then SendMeetingstoneSetqueue me (m_LFGAreaId g) MEETINGSTONE_STATUS_JOINED_QUEUE
      else SendMeetingstoneSetqueue me 0 MEETINGSTONE_STATUS_NONE
  | None => RestoreOfflinePlayer me
  end.
(** The script command: [target] and [source] are the players among the two
    objects, and [abort] what a script does when it fails. *)
Definition ScriptCommand_MeetingStone (target source : option Z) (areaId : Z) (abort : bool) : GM bool :=
  match (match target with Some k => Some k | None => source end) with
  | None => st_ret abort
  | Some k =>
      let! queued := look (IsPlayerInQueue k) in
      (if queued then st_ret tt else AddToQueue env k areaId) ;;; st_ret false
  end.
End update.
