(* ===== verification/GroupLife.v ===== *)
(** * Group: the life of a player in groups

    The group part of entering the game ([Player::_LoadGroup] and
    [HandlePlayerLogin]), of leaving it ([WorldSession::LogoutPlayer] and the
    destructor of [Player]), of the deletion of a character, of the change to a
    hardcore character and of the update of the world. *)

From S2P Require Import Prelude ByteBuffer ObjectGuid Packets Effects Social.
From S2P Require Import GroupData GroupRolls GroupLists LFG Group GroupRaid GroupHandlers.

Local Open Scope prog_scope.

(** A player of this name and guid is found, or no longer found. *)
Definition w_enter (k : Z) (p : Player) (w : GroupWorld) : GroupWorld :=
  mkGW (<[k := p]> (w_players w)) (<[pl_name p := k]> (w_names w)) (w_heap w) (w_next w) (m_GroupMap w)
    (m_GroupIds w) (w_loots w) (w_draws w) (t_groups w) (t_group_member w) (w_lfg w).
Definition w_leave (k : Z) (p : Player) (w : GroupWorld) : GroupWorld :=
  mkGW (delete k (w_players w)) (delete (pl_name p) (w_names w)) (w_heap w) (w_next w) (m_GroupMap w)
    (m_GroupIds w) (w_loots w) (w_draws w) (t_groups w) (t_group_member w) (w_lfg w).
Definition SetLogout (p : Player) : Player :=
  mkPlayer (pl_guid p) (pl_name p) (pl_team p) (pl_level p) (pl_hardcore p) (pl_inWorld p) true
    (pl_inBattleGround p) (pl_mapId p) (pl_instanceId p) (pl_social p) (pl_state p) (pl_refs p)
    (pl_leaderFlag p) (m_groupUpdateMask p) (pl_class p).
Definition SetHardcore (p : Player) : Player :=
  mkPlayer (pl_guid p) (pl_name p) (pl_team p) (pl_level p) true (pl_inWorld p) (pl_logout p)
    (pl_inBattleGround p) (pl_mapId p) (pl_instanceId p) (pl_social p) (pl_state p) (pl_refs p)
    (pl_leaderFlag p) (m_groupUpdateMask p) (pl_class p).

(** [SELECT groupId FROM group_member WHERE memberGuid]: the first row. *)
Definition select_group (guidLow : Z) (t : gmap (Z * Z) member_row) : option Z :=
  head ((fun e => e.1.1) <$> filter (fun e => e.1.2 = guidLow) (map_to_list t)).

Section life.
Context (env : GroupEnv).

(** [Player::_LoadGroup]. *)
Definition _LoadGroup (k : Z) (groupId : option Z) : GM unit :=
  (match groupId with
   | None => st_ret tt
   | Some id =>
       let! group := look (GetGroupById id) in
       match group with
       | None => st_ret tt
       | Some a => let! g := group_at a in SetGroup k (Some a) (GetMemberGroup k g)
       end
   end) ;;;
  UpdateGroupLeaderFlag k false.
(** A character [p] enters the game. *)
Definition login_group (p : Player) : GM unit :=
  let k := pl_guid p in
  let! t := look t_group_member in
  alter_world (w_enter k (pl_set false NoRefs (pl_leaderFlag p) (m_groupUpdateMask p) p)) ;;;
  _LoadGroup k (select_group (GetCounter k) t) ;;;
  p_mod k (SetInWorld true) ;;;
  let! p := player_at k in
  match GetGroup p with
  | Some a => UpdatePlayerOnlineStatus env a k true
  | None => st_ret tt
  end.

(** [LogoutPlayer]; [socket]: the connection is still there.  At the end the
    destructor of the player asserts that no invitation is left and unlinks the
    references. *)
Definition logout_group (k : Z) (socket : bool) : GM unit :=
  p_mod k SetLogout ;;;
  UninviteFromGroup env k ;;;
  let! p := player_at k in
  (match GetGroup p with
   | Some a =>
       let! g := group_at a in
       if negb (isRaidGroup g) && socket then RemoveSelfFromGroup env k else st_ret tt
   | None => st_ret tt
   end) ;;;
  let! p := player_at k in
  (match GetGroup p with
   | Some a => UpdatePlayerOnlineStatus env a k false
   | None => st_ret tt
   end) ;;;
  let! p := player_at k in
  if bool_decide (is_Some (GetGroupInvite p)) then aborts
  else unlink true k ;;; unlink false k ;;; alter_world (w_leave k p).

(** [Player::DeleteFromDB]. *)
Definition DeleteFromDB_group (playerguid : Z) : GM unit :=
  let! group := GetGroupByMember env playerguid in
  match group with
  | Some a => RemoveFromGroup env (Some a) playerguid
  | None => st_ret tt
  end.

(** [Player::SetupHardcoreMode]. *)
Definition SetupHardcoreMode (k : Z) : GM bool :=
  let! p := player_at k in
  if pl_hardcore p then st_ret false
  else
    p_mod k SetHardcore ;;;
    (match GetGroup p with
     | Some a => RemoveAllInvites env a ;;; RemoveMember env a k GROUP_LEAVE ;;; st_ret tt
     | None => st_ret tt
     end) ;;;
    st_ret true.

(** [World::Update]. *)
Definition update_leaders (now delay : Z) : GM unit :=
  if delay =? 0 then st_ret tt
  else
    let! groups := look m_GroupMap in
    each (fun id =>
      match groups !! id with
      | Some a => UpdateOfflineLeader env a now delay
      | None => st_ret tt
      end) (group_order env groups).
End life.
