(* ===== verification/GroupInv.v ===== *)
(** * GroupInv: who is in which group

    The view of a world is what membership is about: slots, references,
    invitations, identities, the registry and the two tables, without the rest
    of groups and players.  The invariant is stated on views: the references of
    online players, the slots of groups and the rows agree, everyone is in one
    group at most, an invited player is in none, a registered group has a
    leader among two or more members and a group that is not registered is one
    its inviter still leads. *)

From stdpp Require Import gmap fin_maps strings.
From S2P Require Import Prelude ByteBuffer Codec ObjectGuid Packets Effects Incoming Social.
From S2P Require Import GroupData GroupRolls GroupLists LFG Group GroupRaid GroupHandlers MeetingStones GroupLife.

Local Open Scope prog_scope.

(** ** What the parameters promise *)

Definition short (s : string) : Prop := slen s <= 2000.

Class GroupEnvOk (env : GroupEnv) : Prop := {
  ge_invites : forall s, invite_order env s ≡ₚ elements s;
  ge_groups : forall m, group_order env m ≡ₚ (map_to_list m).*1;
  ge_votes : forall m, vote_order env m ≡ₚ (map_to_list m).*1;
  ge_urand : forall n lo hi, lo <= hi -> lo <= urand env n lo hi <= hi;
  ge_normalize : forall s, slen (normalizePlayerName env s).2 <= 4 * slen s }.

(** ** Views *)

Record GCore := mkGC {
  c_slots : list MemberSlot; c_mgr : list (Z * bool); c_inv : gset Z; c_leader : Z; c_name : string;
  c_id : Z; c_type : Z; c_bg : bool; c_counts : option (list Z); c_icons : nat }.
Record PCore := mkPC {
  p_guid : Z; p_name : string; p_world : bool; p_group : option Z; p_sub : Z; p_orig : option Z;
  p_origSub : Z; p_invite : option Z }.
Record View := mkV {
  v_heap : gmap Z GCore; v_ps : gmap Z PCore; v_next : Z; v_reg : gmap Z Z; v_ids : Z;
  v_groups : gmap Z (Z * bool); v_rows : gmap (Z * Z) member_row }.

Definition core (g : Group) : GCore :=
  mkGC (m_memberSlots g) (m_memberMgr g) (m_invitees g) (m_leaderGuid g) (m_leaderName g) (m_Id g)
    (m_groupType g) (m_bgGroup g) (m_subGroupsCounts g) (length (m_targetIcons g)).
Definition pcore (p : Player) : PCore :=
  mkPC (pl_guid p) (pl_name p) (pl_inWorld p) (GetGroup p) (GetSubGroup p) (GetOriginalGroup p)
    (GetOriginalSubGroup p) (GetGroupInvite p).
Definition grow (r : groups_row) : Z * bool := (gr_leaderGuid r, gr_isRaid r).
Definition view (w : GroupWorld) : View :=
  mkV (core <$> w_heap w) (pcore <$> w_players w) (w_next w) (m_GroupMap w) (m_GroupIds w)
    (grow <$> t_groups w) (t_group_member w).

(** ** The invariant *)

Definition guids (l : list MemberSlot) : list Z := ms_guid <$> l.
Definition slot_in (k : Z) (l : list MemberSlot) : option MemberSlot :=
  snd <$> list_find (fun m => ms_guid m = k) l.
Definition capacity (c : GCore) : Z := if c_type c =? GROUPTYPE_NORMAL then MAX_GROUP_SIZE else MAX_RAID_SIZE.

Definition slot_ok (m : MemberSlot) : Prop :=
  0 < ms_guid m < 2 ^ 32 /\ short (ms_name m) /\ 0 <= ms_group m < MAX_RAID_SUBGROUPS.
Record group_ok (c : GCore) : Prop := {
  go_once : NoDup (guids (c_slots c)); go_slots : Forall slot_ok (c_slots c); go_bg : c_bg c = false;
  go_size : Z.of_nat (length (c_slots c)) <= capacity c; go_icons : c_icons c = 8%nat; go_name : short (c_name c);
  go_mgr : NoDup (c_mgr c) }.
Record player_ok (k : Z) (p : PCore) : Prop := {
  po_guid : p_guid p = k; po_range : 0 < k < 2 ^ 32; po_world : p_world p = true;
  po_name : short (p_name p); po_orig : p_orig p = None }.

(** The members of a subgroup. *)
Definition sub_count (l : list MemberSlot) (i : Z) : Z := Z.of_nat (length (filter (fun m => ms_group m = i) l)).
Definition raid_counts (l : list MemberSlot) : list Z := sub_count l <$> seqZ 0 8.
Definition counts_ok (c : GCore) : Prop :=
  match c_counts c with
  | Some n => c_type c = GROUPTYPE_RAID /\ n = raid_counts (c_slots c) /\ Forall (fun x => x <= MAX_GROUP_SIZE) n
  | None => c_type c = GROUPTYPE_NORMAL /\ Forall (fun m => ms_group m = 0) (c_slots c)
  end.

(** What holds whatever group is being changed. *)
Record base (V : View) : Prop := {
  b_next : forall a c, v_heap V !! a = Some c -> a < v_next V;
  b_wf : forall a c, v_heap V !! a = Some c -> group_ok c;
  b_player : forall k p, v_ps V !! k = Some p -> player_ok k p;
  b_ref : forall k p a, v_ps V !! k = Some p -> p_group p = Some a ->
    exists c, v_heap V !! a = Some c /\ k ∈ guids (c_slots c) /\ (k, false) ∈ c_mgr c;
  b_mgr : forall a c e, v_heap V !! a = Some c -> e ∈ c_mgr c ->
    e.2 = false /\ exists p, v_ps V !! e.1 = Some p /\ p_group p = Some a;
  b_invite : forall k p a, v_ps V !! k = Some p -> p_invite p = Some a ->
    p_group p = None /\ exists c, v_heap V !! a = Some c /\ k ∈ c_inv c;
  b_invited : forall a c k, v_heap V !! a = Some c -> k ∈ c_inv c ->
    exists p, v_ps V !! k = Some p /\ p_invite p = Some a;
  b_once : forall a b c d k, v_heap V !! a = Some c -> v_heap V !! b = Some d ->
    k ∈ guids (c_slots c) -> k ∈ guids (c_slots d) -> a = b;
  b_id : forall a c, v_heap V !! a = Some c -> 0 <= c_id c < v_ids V /\ (c_id c = 0 -> c_slots c = []);
  b_unique : forall a b c d, v_heap V !! a = Some c -> v_heap V !! b = Some d -> c_id c = c_id d -> c_id c <> 0 -> a = b;
  b_reg : forall id a, v_reg V !! id = Some a -> exists c, v_heap V !! a = Some c /\ c_id c = id /\ id <> 0;
  b_groups : forall id r, v_groups V !! id = Some r -> exists a c, v_heap V !! a = Some c /\ c_id c = id /\ id <> 0;
  b_rows : forall id k r, v_rows V !! (id, k) = Some r -> exists a c, v_heap V !! a = Some c /\ c_id c = id /\ id <> 0;
  b_ids : 0 < v_ids V <= 2 ^ 32 }.

(** The members of the group at [a] are known to the players, the table and the
    counters. *)
Record linked (V : View) (a : Z) (c : GCore) : Prop := {
  l_member : forall k p m, v_ps V !! k = Some p -> slot_in k (c_slots c) = Some m ->
    p_group p = Some a /\ p_sub p = ms_group m;
  l_rows : c_id c <> 0 -> forall k, v_rows V !! (c_id c, k) = member_row_of <$> slot_in k (c_slots c);
  l_counts : counts_ok c }.
(** Either the group is created and registered, or its leader is invited. *)
Definition settled_group (V : View) (a : Z) (c : GCore) : Prop :=
  (c_slots c = [] /\ c_id c = 0 /\ c_counts c = None /\ c_leader c ∈ c_inv c)
  \/ ((2 <= length (c_slots c))%nat /\ v_reg V !! c_id c = Some a /\ c_leader c ∈ guids (c_slots c)
      /\ v_groups V !! c_id c = Some (c_leader c, c_type c =? GROUPTYPE_RAID)).

Definition inv_but (x : option Z) (V : View) : Prop :=
  base V /\ forall a c, v_heap V !! a = Some c -> Some a <> x -> linked V a c /\ settled_group V a c.
Definition inv : View -> Prop := inv_but None.

(** The loot that is rolled for is there. *)
Definition rolls_ok (w : GroupWorld) : Prop := forall a g r l,
  w_heap w !! a = Some g -> r ∈ RollId g -> r_loot r = Some l ->
  exists x, w_loots w !! l = Some x /\ 0 <= itemSlot r < Z.of_nat (length (items x)).
(** A group in the queue offers at most three places for damage dealers, and
    says so as long as one is left. *)
Record offer_ok (e : LFGGroupQueueInfo) : Prop := {
  of_roles : 0 <= availableRoles e < 8; of_count : 0 <= dpsCount e <= GetMaximumDPSSlots;
  of_flag : Z.testbit (availableRoles e) 2 = (dpsCount e <? GetMaximumDPSSlots) }.
Definition entry_ok (i : LFGPlayerQueueInfo) : Prop := short (lp_name i).
Record queue_ok (q : LFGQueue) : Prop := {
  q_players : map_Forall (fun _ => entry_ok) (m_QueuedPlayers q);
  q_offline : map_Forall (fun _ => entry_ok) (m_OfflinePlayers q);
  q_groups : map_Forall (fun _ => offer_ok) (m_QueuedGroups q) }.
(** What the view leaves aside. *)
Definition aside_ok (w : GroupWorld) : Prop := rolls_ok w /\ queue_ok (w_lfg w).

Definition world_ok (w : GroupWorld) : Prop := inv (view w) /\ aside_ok w.

(** ** Changes of views *)

Definition v_put_g (a : Z) (c : GCore) (V : View) : View :=
  mkV (<[a := c]> (v_heap V)) (v_ps V) (v_next V) (v_reg V) (v_ids V) (v_groups V) (v_rows V).
Definition v_put_p (k : Z) (p : PCore) (V : View) : View :=
  mkV (v_heap V) (<[k := p]> (v_ps V)) (v_next V) (v_reg V) (v_ids V) (v_groups V) (v_rows V).
Definition v_set_ps (ps : gmap Z PCore) (V : View) : View :=
  mkV (v_heap V) ps (v_next V) (v_reg V) (v_ids V) (v_groups V) (v_rows V).
Definition v_set_heap (h : gmap Z GCore) (V : View) : View :=
  mkV h (v_ps V) (v_next V) (v_reg V) (v_ids V) (v_groups V) (v_rows V).
Definition v_set_reg (m : gmap Z Z) (V : View) : View :=
  mkV (v_heap V) (v_ps V) (v_next V) m (v_ids V) (v_groups V) (v_rows V).
Definition v_set_groups (t : gmap Z (Z * bool)) (V : View) : View :=
  mkV (v_heap V) (v_ps V) (v_next V) (v_reg V) (v_ids V) t (v_rows V).
Definition v_set_rows (t : gmap (Z * Z) member_row) (V : View) : View :=
  mkV (v_heap V) (v_ps V) (v_next V) (v_reg V) (v_ids V) (v_groups V) t.

Definition put_g (a : Z) (g : Group) (w : GroupWorld) : GroupWorld := w_set_heap (<[a := g]> (w_heap w)) w.
Definition put_p (k : Z) (p : Player) (w : GroupWorld) : GroupWorld := w_set_players (<[k := p]> (w_players w)) w.

Lemma view_put_g a g w : view (put_g a g w) = v_put_g a (core g) (view w).
Proof. unfold view, put_g, v_put_g. cbn. by rewrite fmap_insert. Qed.
Lemma view_put_p k p w : view (put_p k p w) = v_put_p k (pcore p) (view w).
Proof. unfold view, put_p, v_put_p. cbn. by rewrite fmap_insert. Qed.
Lemma view_group w a g : w_heap w !! a = Some g -> v_heap (view w) !! a = Some (core g).
Proof. intros H. cbn. by rewrite lookup_fmap, H. Qed.
Lemma view_player w k p : w_players w !! k = Some p -> v_ps (view w) !! k = Some (pcore p).
Proof. intros H. cbn. by rewrite lookup_fmap, H. Qed.
Lemma group_view w a c : v_heap (view w) !! a = Some c -> exists g, w_heap w !! a = Some g /\ core g = c.
Proof. cbn. rewrite lookup_fmap. intros (g & ? & ?)%fmap_Some. eauto. Qed.
Lemma player_view w k c : v_ps (view w) !! k = Some c -> exists p, w_players w !! k = Some p /\ pcore p = c.
Proof. cbn. rewrite lookup_fmap. intros (g & ? & ?)%fmap_Some. eauto. Qed.
(** A group or player that only changes outside the view. *)
Lemma view_same_g a g g' w : w_heap w !! a = Some g -> core g' = core g -> view (put_g a g' w) = view w.
Proof.
  intros Hg Hc. unfold view, put_g. cbn. rewrite fmap_insert, Hc, insert_id; [done|]. by rewrite lookup_fmap, Hg.
Qed.
Lemma view_same_p k p p' w : w_players w !! k = Some p -> pcore p' = pcore p -> view (put_p k p' w) = view w.
Proof.
  intros Hp Hc. unfold view, put_p. cbn. rewrite fmap_insert, Hc, insert_id; [done|]. by rewrite lookup_fmap, Hp.
Qed.

(** ** Rules for the primitives *)

Lemma alter_is_insert {A} (f : A -> A) (m : gmap Z A) i x : m !! i = Some x -> alter f i m = <[i := f x]> m.
Proof.
  intros Hx. apply map_eq. intros j. destruct (decide (i = j)) as [<-|];
    rewrite ?lookup_insert_eq, ?lookup_alter_eq, ?Hx, ?lookup_insert_ne, ?lookup_alter_ne by done; done.
Qed.

Section rules.
Context (X : GroupWorld -> Prop).

Lemma wp_look {A} (f : GroupWorld -> A) (Q : A -> GroupWorld -> Prop) w : Q (f w) w -> wp X (look f) Q w.
Proof. by intros H log. Qed.
Lemma wp_alter_world f (Q : unit -> GroupWorld -> Prop) w : Q tt (f w) -> wp X (alter_world f) Q w.
Proof. by intros H log. Qed.
Lemma wp_deref {A} (o : option A) a (Q : A -> GroupWorld -> Prop) w : o = Some a -> Q a w -> wp X (deref o) Q w.
Proof. intros -> H. by apply wp_ret. Qed.
Lemma wp_group_at a g (Q : Group -> GroupWorld -> Prop) w :
  w_heap w !! a = Some g -> Q g w -> wp X (group_at a) Q w.
Proof. intros Hg HQ. apply wp_bind, wp_look. by apply (wp_deref _ g). Qed.
Lemma wp_player_at k p (Q : Player -> GroupWorld -> Prop) w :
  w_players w !! k = Some p -> Q p w -> wp X (player_at k) Q w.
Proof. intros Hg HQ. apply wp_bind, wp_look. by apply (wp_deref _ p). Qed.
Lemma wp_group_mod a f g (Q : unit -> GroupWorld -> Prop) w :
  w_heap w !! a = Some g -> Q tt (put_g a (f g) w) -> wp X (g_mod a f) Q w.
Proof.
  intros Hg HQ. apply wp_bind, (wp_group_at a g); [done|]. apply wp_alter_world. by rewrite (alter_is_insert f _ a g).
Qed.
Lemma wp_player_mod k f p (Q : unit -> GroupWorld -> Prop) w :
  w_players w !! k = Some p -> Q tt (put_p k (f p) w) -> wp X (p_mod k f) Q w.
Proof.
  intros Hp HQ. apply wp_bind, (wp_player_at k p); [done|]. apply wp_alter_world. by rewrite (alter_is_insert f _ k p).
Qed.
End rules.

(** ** Code that leaves membership alone

    [calm P m]: from a world whose view satisfies [P], [m] returns and changes
    nothing in the view. *)

Definition calm {A} (P : View -> Prop) (m : GM A) : Prop := forall X w,
  base (view w) -> P (view w) -> aside_ok w ->
  wp X m (fun _ w' => view w' = view w /\ aside_ok w') w.

Definition live (a : Z) (V : View) : Prop := is_Some (v_heap V !! a).
Definition online (k : Z) (V : View) : Prop := is_Some (v_ps V !! k).

(** Putting a group or a player back with its rolls keeps them in order. *)
Lemma rolls_put_g w a g g' : aside_ok w -> w_heap w !! a = Some g -> RollId g' = RollId g -> aside_ok (put_g a g' w).
Proof.
  intros [H Hq] Hg Hr. split; [|done]. intros b h r l. cbn. intros [[<- <-]|[_ Hb]]%lookup_insert_Some; [rewrite Hr|]; by eapply H.
Qed.

Section calm_rules.
Context {P : View -> Prop}.

Lemma calm_ret {A} (a : A) : calm P (st_ret a).
Proof. intros X w _ _ Hr. by apply wp_ret. Qed.
Lemma calm_bind {A B} (m : GM A) (k : A -> GM B) : calm P m -> (forall a, calm P (k a)) -> calm P (st_bind m k).
Proof.
  intros Hm Hk X w Hb HP Hr. apply wp_bind. eapply wp_conseq; [by apply Hm|]. cbv beta. intros a w1 [Hv Hr1].
  eapply wp_conseq; [apply (Hk a X w1); [by rewrite Hv..|done]|]. cbv beta. intros b w2 [Hv2 Hr2].
  split; [congruence|done].
Qed.
Lemma calm_logs {A} (m : GM A) : logs_only m -> calm P m.
Proof. intros Hm X w Hb HP Hr. by apply wp_logs. Qed.
Lemma calm_weaken {A} (P' : View -> Prop) (m : GM A) : calm P' m -> (forall V, base V -> P V -> P' V) -> calm P m.
Proof. intros Hm HP X w Hb Hv Hr. apply Hm; auto. Qed.
Lemma calm_look {A B} (f : GroupWorld -> A) (k : A -> GM B) :
  (forall w, base (view w) -> P (view w) -> calm (fun V => P V /\ V = view w) (k (f w))) -> calm P (st_bind (look f) k).
Proof. intros Hk X w Hb HP Hr. apply wp_bind, wp_look. by apply Hk. Qed.
Lemma calm_group_at {B} a (k : Group -> GM B) :
  (forall V, base V -> P V -> live a V) ->
  (forall g, calm (fun V => P V /\ v_heap V !! a = Some (core g)) (k g)) -> calm P (st_bind (group_at a) k).
Proof.
  intros Hl Hk X w Hb HP Hr. destruct (Hl _ Hb HP) as [c Hc]. destruct (group_view _ _ _ Hc) as (g & Hg & <-).
  apply wp_bind, (wp_group_at X a g); [done|]. by apply Hk.
Qed.
Lemma calm_player_at {B} k (f : Player -> GM B) :
  (forall V, base V -> P V -> online k V) ->
  (forall p, calm (fun V => P V /\ v_ps V !! k = Some (pcore p)) (f p)) -> calm P (st_bind (player_at k) f).
Proof.
  intros Hl Hk X w Hb HP Hr. destruct (Hl _ Hb HP) as [c Hc]. destruct (player_view _ _ _ Hc) as (g & Hg & <-).
  apply wp_bind, (wp_player_at X k g); [done|]. by apply Hk.
Qed.
(** A group changes outside its view. *)
Lemma calm_g_mod a f :
  (forall V, base V -> P V -> live a V) -> (forall g, core (f g) = core g /\ RollId (f g) = RollId g) -> calm P (g_mod a f).
Proof.
  intros Hl Hf X w Hb HP Hr. destruct (Hl _ Hb HP) as [c Hc]. destruct (group_view _ _ _ Hc) as (g & Hg & <-).
  apply (wp_group_mod X a f g); [done|]. destruct (Hf g). split; [by eapply view_same_g|by eapply rolls_put_g].
Qed.
Lemma calm_p_mod k f :
  (forall V, base V -> P V -> online k V) -> (forall p, pcore (f p) = pcore p) -> calm P (p_mod k f).
Proof.
  intros Hl Hf X w Hb HP Hr. destruct (Hl _ Hb HP) as [c Hc]. destruct (player_view _ _ _ Hc) as (g & Hg & <-).
  apply (wp_player_mod X k f g); [done|]. split; [by eapply view_same_p|done].
Qed.
Lemma calm_alter f : (forall w, view (f w) = view w) -> (forall w, aside_ok w -> aside_ok (f w)) -> calm P (alter_world f).
Proof. intros Hv Hf X w Hb HP Hr. apply wp_alter_world. auto. Qed.
Lemma calm_each {A} (f : A -> GM unit) l : (forall x, x ∈ l -> calm P (f x)) -> calm P (each f l).
Proof.
  induction l as [|x l IH]; intros Hf; cbn [each]; [apply calm_ret|].
  apply calm_bind; [apply Hf; set_solver|]. intros _. apply IH. set_solver.
Qed.
End calm_rules.

Lemma logs_call c : logs_only (call c).
Proof. apply logs_ev. Qed.
Lemma logs_look {A} (f : GroupWorld -> A) : logs_only (look f).
Proof. apply logs_get. Qed.
#[export] Hint Resolve logs_call logs_look : logs.

(** A calm program keeps the invariant. *)
Lemma wp_calm {A} X x (m : GM A) (P : View -> Prop) w :
  calm P m -> P (view w) -> inv_but x (view w) -> aside_ok w ->
  wp X m (fun _ w' => inv_but x (view w') /\ aside_ok w' /\ view w' = view w) w.
Proof.
  intros Hm HP Hi Hr. eapply wp_conseq; [apply Hm; [apply Hi|done|done]|]. cbv beta. intros a w' [Hv Hr'].
  by rewrite Hv.
Qed.
