(* ===== verification/GroupCalm.v ===== *)
(** * GroupCalm: packets, flags, icons, loot rules and loot rolls

    The operations of groups that change nobody's membership: they return, and
    leave the view as it was. *)

From stdpp Require Import gmap fin_maps strings.
From S2P Require Import Prelude ByteBuffer Codec ObjectGuid Packets Effects Incoming Social.
From S2P Require Import GroupData GroupRolls GroupLists LFG Group GroupRaid GroupHandlers MeetingStones GroupLife GroupInv.

Local Open Scope prog_scope.

(** ** Packets *)

(** A packet that [k] builds is sent, and nothing else happens. *)
Definition sendable (k : PK unit) : Prop := exists p, k WorldPacket_empty = (Ok tt, p).
Create HintDb sendable.

Lemma sendable_fits op k n : fits k n -> n <= 10000000 -> sendable (pk_init op ;;; k).
Proof. intros Hk Hn. by eapply fits_built. Qed.
Lemma sendable_init op : sendable (pk_init op).
Proof. by eexists. Qed.
Lemma logs_send to k : sendable k -> logs_only (send to k).
Proof. intros [p Hp]. apply logs_bind; [by eapply logs_made|]. intros. apply logs_ev. Qed.
#[export] Hint Resolve logs_send sendable_init : logs.

(** The bytes of a string with its end. *)
Definition zstr (s : string) : list Z := bytes_of_string s ++ [0].
Lemma zstr_u8 s : Forall (is_u 8) (zstr s).
Proof. unfold zstr. auto with packets. Qed.
#[export] Hint Resolve zstr_u8 : packets.

(** The list a member gets: the flags of the others, the leader, and the loot
    rules unless he is alone. *)
Definition member_bytes (w : GroupWorld) (m : MemberSlot) : list Z :=
  zstr (ms_name m) ++ le_bytes 8 (ms_guid m)
  ++ [u8 (GetGroupMemberStatus (GetPlayer (ms_guid m) w))] ++ [u8 (slot_flags m)].
Definition loot_bytes (g : Group) : list Z :=
  [u8 (m_lootMethod g)] ++ le_bytes 8 (if m_lootMethod g =? MASTER_LOOT then m_looterGuid g else 0)
  ++ [u8 (m_lootThreshold g)] ++ [u8 0].
Definition others (g : Group) (m : MemberSlot) : list MemberSlot :=
  filter (fun x => ms_guid x <> ms_guid m) (m_memberSlots g).
Definition list_bytes (g : Group) (w : GroupWorld) (m : MemberSlot) : list Z :=
  ([u8 (m_groupType g)] ++ [u8 (slot_flags m)]) ++ le_bytes 4 (Z.of_nat (length (others g m)))
  ++ concat (member_bytes w <$> others g m) ++ le_bytes 8 (m_leaderGuid g)
  ++ (if bool_decide (others g m = []) then [] else loot_bytes g).

Lemma builds_member w m : builds (member_part w m) (member_bytes w m).
Proof.
  unfold member_part, member_bytes.
  repeat (first [apply builds_seq; [auto with packets|apply builds_str || auto with packets|]|auto with packets]).
Qed.
Lemma member_bytes_u8 w m : Forall (is_u 8) (member_bytes w m).
Proof. unfold member_bytes. auto with packets. Qed.
Lemma builds_loot g : builds (loot_part g) (loot_bytes g).
Proof. unfold loot_part, loot_bytes. repeat (first [apply builds_seq; [auto with packets..|]|auto with packets]). Qed.

(** A packet whose 32 bit count, after [pre], is patched once the rows are
    written. *)
Lemma patched_packet op pre mid post (bs1 bs2 bs3 : list Z) n :
  builds pre bs1 -> Forall (is_u 8) bs1 -> builds mid bs2 -> Forall (is_u 8) bs2 -> builds post bs3 ->
  Z.of_nat (length bs1 + 4 + length bs2 + length bs3) <= 10000000 ->
  (pk_init op ;;; pre ;;; (let! pos := pk_wpos in pk_u32 0 ;;; mid ;;; pk_put_u32 pos n ;;; post)) WorldPacket_empty
  = (Ok tt, packet op (bs1 ++ le_bytes 4 n ++ bs2 ++ bs3)).
Proof.
  intros H1 U1 H2 U2 H3 Hl. unfold pk_init. rewrite st_bind_mod.
  change (Initialize op WorldPacket_empty) with (packet op []).
  rewrite (st_bind_ok _ _ _ _ _ (H1 op [] ltac:(simpl; lia) ltac:(constructor))), app_nil_l.
  unfold pk_wpos. rewrite st_bind_get. change (_wpos (wp_buf (packet op bs1))) with (Z.of_nat (length bs1)).
  assert (Hn : forall x, length (le_bytes 4 x) = 4%nat) by apply (length_le_bytes 4).
  rewrite (st_bind_ok _ _ _ _ _ (builds_u32 0 op bs1 ltac:(rewrite Hn; lia) U1)).
  rewrite (st_bind_ok _ _ _ _ _ (H2 op (bs1 ++ le_bytes 4 0) ltac:(rewrite length_app, Hn; lia) ltac:(auto with packets))).
  unfold pk_put_u32. rewrite <- app_assoc.
  rewrite (st_bind_ok _ _ _ _ _ (put_packet op bs1 (le_bytes 4 0) bs2 (u32 n) eq_refl
    ltac:(rewrite !length_app, Hn; lia))).
  rewrite (le_bytes_wrap 4), H3; [by rewrite <- !app_assoc|rewrite !length_app, Hn; lia|auto with packets].
Qed.

(** A slot whose name is short takes few bytes. *)
Lemma length_member_bytes w m : slot_ok m -> Z.of_nat (length (member_bytes w m)) <= 2011.
Proof.
  intros (_ & Hs & _). unfold member_bytes, zstr. rewrite !length_app, length_le_bytes, length_bytes_of_string.
  unfold short, slen in Hs. cbn [length]. lia.
Qed.
Lemma length_rows w l : Forall slot_ok l ->
  Z.of_nat (length (concat (member_bytes w <$> l))) <= 2011 * Z.of_nat (length l).
Proof.
  induction 1 as [|m l Hm _ IH]; [done|]. cbn [fmap list_fmap concat length]. rewrite length_app.
  pose proof (length_member_bytes w m Hm). lia.
Qed.
Lemma length_loot_bytes g : length (loot_bytes g) = 11%nat.
Proof. unfold loot_bytes. by rewrite !length_app, length_le_bytes. Qed.

Definition group_fits (g : Group) : Prop := Forall slot_ok (m_memberSlots g) /\ (length (m_memberSlots g) <= 40)%nat.

(** The packet of a group list, byte for byte. *)
Lemma ListPacket_bytes g w m : group_fits g ->
  ListPacket g w m WorldPacket_empty = (Ok tt, packet SMSG_GROUP_LIST (list_bytes g w m)).
Proof.
  intros [Hs Hl]. unfold ListPacket, list_bytes. fold (others g m).
  assert (Ho : Forall slot_ok (others g m)) by by apply Forall_filter.
  assert (Hol : (length (others g m) <= 40)%nat).
  { unfold others. pose proof (length_filter (fun x => ms_guid x <> ms_guid m) (m_memberSlots g)). lia. }
  etrans; [|eapply (patched_packet SMSG_GROUP_LIST (pk_u8 (m_groupType g) ;;; pk_u8 (slot_flags m))
    (pk_each (member_part w) (others g m))
    (pk_guid (m_leaderGuid g) ;;; if bool_decide (others g m = []) then st_ret tt else loot_part g))].
  - unfold pk_init. rewrite !st_bind_mod. by rewrite <- st_bind_assoc.
  - apply builds_seq; auto with packets.
  - auto with packets.
  - apply builds_each. intros x _. split; [apply builds_member|apply member_bytes_u8].
  - apply concat_u8. intros. apply member_bytes_u8.
  - apply builds_seq; [auto with packets..|]. case_bool_decide; [apply builds_ret|apply builds_loot].
  - pose proof (length_rows w (others g m) Ho). rewrite !length_app, length_le_bytes.
    assert ((length (if bool_decide (others g m = []) then [] else loot_bytes g) <= 11)%nat)
      by (case_bool_decide; [cbn; lia|by rewrite length_loot_bytes]). cbn [length]. lia.
Qed.
Lemma sendable_list g w m : group_fits g -> sendable (ListPacket g w m).
Proof. intros H. eexists. by apply ListPacket_bytes. Qed.

Lemma length_icon_rows i l : (length (icon_rows i l) <= length l)%nat.
Proof. revert i. induction l as [|t l IH]; intros i; cbn; [done|]. specialize (IH (i + 1)). case_match; cbn; lia. Qed.
Lemma sendable_icons g : (length (m_targetIcons g) <= 8)%nat -> sendable (IconListPacket g).
Proof.
  intros Hl. unfold IconListPacket. eapply sendable_fits; [apply fits_seq; [auto with packets|]|].
  - apply (fits_each _ 9); [|lia]. intros x _. eapply fits_weaken; [auto with packets|lia].
  - pose proof (length_icon_rows 0 (m_targetIcons g)). lia.
Qed.
Lemma sendable_leader name : short name -> sendable (LeaderPacket name).
Proof. intros H. unfold LeaderPacket. eapply sendable_fits; [auto with packets|]. unfold short, slen in H. lia. Qed.
Lemma sendable_empty : sendable EmptyListPacket.
Proof. unfold EmptyListPacket. eapply sendable_fits; [auto 10 with packets|lia]. Qed.
Lemma sendable_queue a s : sendable (QueuePacket a s).
Proof. unfold QueuePacket. eapply sendable_fits; [auto 10 with packets|lia]. Qed.
Lemma sendable_disbanded : sendable QueueDisbandedPacket.
Proof. unfold QueueDisbandedPacket. eapply sendable_fits; [auto 10 with packets|lia]. Qed.
#[export] Hint Resolve sendable_list sendable_icons sendable_leader sendable_empty sendable_queue sendable_disbanded : logs.

(** ** Walking through calm code *)

Lemma GetPlayer_Some k w p : GetPlayer k w = Some p -> w_players w !! k = Some p.
Proof. unfold GetPlayer, FindPlayerNotInWorld. intros. by repeat (case_match; simplify_eq). Qed.
Lemma GetPlayer_view k w p : GetPlayer k w = Some p -> v_ps (view w) !! k = Some (pcore p).
Proof. intros. by apply view_player, GetPlayer_Some. Qed.

Section walking.
Context {P : View -> Prop}.

Lemma calm_assoc {A B C} (m : GM A) (f : A -> GM B) (k : B -> GM C) :
  calm P (st_bind m (fun a => st_bind (f a) k)) -> calm P (st_bind (st_bind m f) k).
Proof. intros H X w Hb HP Hr log. rewrite st_bind_assoc. by apply H. Qed.
Lemma calm_ret_bind {A B} (a : A) (k : A -> GM B) : calm P (k a) -> calm P (st_bind (st_ret a) k).
Proof. intros H X w Hb HP Hr log. rewrite st_bind_ret. by apply H. Qed.
(** A fact that follows from the view. *)
Lemma calm_pure {A} (phi : Prop) (m : GM A) :
  (forall V, base V -> P V -> phi) -> (phi -> calm P m) -> calm P m.
Proof. intros Hp Hm X w Hb HP Hr. apply Hm; eauto. Qed.
End walking.

(** The group or the player a program follows is there. *)
Ltac in_view :=
  let HB := fresh "HB" in let HP := fresh "HP" in
  intros ? HB HP; cbv beta in HP; unfold live, online in *;
  repeat match goal with H : _ /\ _ |- _ => destruct H end; subst;
  first [ assumption | eexists; eassumption | eexists; eapply GetPlayer_view; eassumption
        | eexists; eapply view_player; eassumption | solve [eauto 6] ].
Ltac calm_step :=
  lazymatch goal with
  | |- calm _ (st_bind (st_bind _ _) _) => apply calm_assoc
  | |- calm _ (st_bind (st_ret _) _) => apply calm_ret_bind
  | |- calm _ (st_bind (group_at ?a) _) => apply calm_group_at; [in_view|intros ?g]
  | |- calm _ (st_bind (player_at _) _) => apply calm_player_at; [in_view|intros ?p]
  | |- calm _ (st_bind (look _) _) => apply calm_look; intros ?w _ _
  | |- calm _ (st_bind _ _) => apply calm_bind; [|intros ?]
  | |- calm _ (st_ret _) => apply calm_ret
  | |- calm _ (each _ _) => apply calm_each; intros ? ?
  | |- calm _ (g_mod _ _) => apply calm_g_mod; [in_view|intros ?; split; reflexivity]
  | |- calm _ (p_mod _ _) => apply calm_p_mod; [in_view|intros ?; reflexivity]
  | |- calm _ (ev _) => apply calm_logs, logs_ev
  | |- calm _ (call _) => apply calm_logs, logs_call
  | |- calm _ (send _ _) => apply calm_logs, logs_send; eauto with logs
  | |- calm _ (match ?x with _ => _ end) => destruct x eqn:?
  end.
Create HintDb calm.
#[export] Hint Extern 1 (forall V, base V -> _ -> live _ V) => in_view : calm.
#[export] Hint Extern 1 (forall V, base V -> _ -> online _ V) => in_view : calm.
Ltac calms := repeat (calm_step; cbv beta); try (eauto with calm logs).

(** ** Broadcasts *)

Section broadcasts.
Context (env : GroupEnv).

Lemma calm_made {P : View -> Prop} {B} k (f : WorldPacket -> GM B) : sendable k -> (forall p, calm P (f p)) -> calm P (st_bind (made k) f).
Proof. intros [p Hp] Hf. apply calm_bind; [|done]. by eapply calm_logs, logs_made. Qed.

(** Everybody a group refers to is online. *)
Lemma members_online a g e : e ∈ m_memberMgr g ->
  forall V, base V -> v_heap V !! a = Some (core g) -> online e.1 V.
Proof. intros He V HB Hg. destruct (b_mgr V HB a (core g) e Hg He) as (_ & p & Hp & _). by exists p. Qed.

Lemma BroadcastPacket_calm (P : View -> Prop) a packet b gr ig :
  (forall V, base V -> P V -> live a V) -> sendable packet -> calm P (BroadcastPacket a packet b gr ig).
Proof.
  intros Hl Hp. unfold BroadcastPacket, GetMembers. apply calm_made; [done|]. intros data. calms.
  subst. apply calm_player_at; [|intros; calms]. intros V HB [HP Hg]. by eapply (members_online a g (_, _)).
Qed.
Lemma BroadcastReadyCheck_calm (P : View -> Prop) a packet :
  (forall V, base V -> P V -> live a V) -> sendable packet -> calm P (BroadcastReadyCheck a packet).
Proof.
  intros Hl Hp. unfold BroadcastReadyCheck. apply calm_made; [done|]. intros data. calms.
  apply calm_player_at; [|intros; calms]. intros V HB [HP Hg]. by eapply members_online.
Qed.

Lemma group_fits_ok g : group_ok (core g) -> group_fits g.
Proof.
  intros [_ Hs _ Hl _ _ _]. split; [done|]. unfold capacity, MAX_GROUP_SIZE, MAX_RAID_SIZE in Hl. cbn in Hl. case_match; lia.
Qed.
Lemma icons_ok g : group_ok (core g) -> (length (m_targetIcons g) <= 8)%nat.
Proof. intros [_ _ _ _ Hi _ _]. cbn in Hi. lia. Qed.

Lemma SendUpdate_calm (P : View -> Prop) a : (forall V, base V -> P V -> live a V) -> calm P (SendUpdate a).
Proof.
  intros Hl. unfold SendUpdate. calm_step.
  apply (calm_pure (group_ok (core g))); [intros V HB [_ Hg]; by eapply b_wf|]. intros Hok.
  pose proof (group_fits_ok g Hok). pose proof (icons_ok g Hok). calms.
Qed.
Lemma SendTargetIconList_calm (P : View -> Prop) a me : (forall V, base V -> P V -> live a V) -> calm P (SendTargetIconList a me).
Proof.
  intros Hl. unfold SendTargetIconList. calm_step.
  apply (calm_pure (group_ok (core g))); [intros V HB [_ Hg]; by eapply b_wf|]. intros Hok. pose proof (icons_ok g Hok). calms.
Qed.
Lemma BroadcastGroupUpdate_calm (P : View -> Prop) a : (forall V, base V -> P V -> live a V) -> calm P (BroadcastGroupUpdate a).
Proof. intros Hl. unfold BroadcastGroupUpdate. calms. Qed.
End broadcasts.

(** ** Flags, icons, loot rules, roles *)

Section fields.
Context (env : GroupEnv).

Lemma group_is_live V k p a : base V -> v_ps V !! k = Some p -> p_group p = Some a -> live a V.
Proof. intros HB Hp Ha. destruct (b_ref V HB k p a Hp Ha) as (c & Hc & _). by exists c. Qed.
Lemma UpdateGroupLeaderFlag_calm (P : View -> Prop) k b : (forall V, base V -> P V -> online k V) -> calm P (UpdateGroupLeaderFlag k b).
Proof.
  intros Hl. unfold UpdateGroupLeaderFlag. calm_step. apply calm_bind.
  - destruct (GetGroup p) as [a|] eqn:Ha; [|calms]. apply calm_group_at; [|intros; calms].
    intros V HB [HP Hp]. by eapply group_is_live.
  - intros leads. calms.
Qed.
Lemma _updateLeaderFlag_calm (P : View -> Prop) a b : (forall V, base V -> P V -> live a V) -> calm P (_updateLeaderFlag a b).
Proof. intros Hl. unfold _updateLeaderFlag. calms. apply UpdateGroupLeaderFlag_calm. in_view. Qed.
End fields.
#[export] Hint Resolve BroadcastPacket_calm BroadcastReadyCheck_calm SendUpdate_calm SendTargetIconList_calm
  BroadcastGroupUpdate_calm UpdateGroupLeaderFlag_calm _updateLeaderFlag_calm : calm.

(** Rows of [groups] that keep leader and kind. *)
Lemma view_groups w t : grow <$> t = grow <$> t_groups w -> view (w_set_groups t w) = view w.
Proof. intros H. unfold view. cbn. by rewrite H. Qed.
Lemma calm_groups (P : View -> Prop) f :
  (forall w, grow <$> f w = grow <$> t_groups w) -> calm P (alter_world (fun w => w_set_groups (f w) w)).
Proof. intros Hf. apply calm_alter; [intros w; by apply view_groups|]. intros w [Hr Hq]. by split. Qed.

Section fields2.
Context (env : GroupEnv).

Lemma UpdatePlayerOutOfRange_calm (P : View -> Prop) k :
  (forall V, base V -> P V -> online k V) -> calm P (UpdatePlayerOutOfRange k).
Proof. intros Hl. unfold UpdatePlayerOutOfRange. calms. Qed.
Hint Resolve UpdatePlayerOutOfRange_calm : calm.
Lemma UpdatePlayerOnlineStatus_calm (P : View -> Prop) a k b :
  (forall V, base V -> P V -> live a V) -> (forall V, base V -> P V -> online k V) ->
  calm P (UpdatePlayerOnlineStatus env a k b).
Proof. intros Hl Ho. unfold UpdatePlayerOnlineStatus. calms. Qed.
Lemma UpdateCrossfaction_calm (P : View -> Prop) a :
  (forall V, base V -> P V -> live a V) -> calm P (UpdateCrossfaction env a).
Proof. intros Hl. unfold UpdateCrossfaction. calms. Qed.
Hint Resolve UpdateCrossfaction_calm : calm.
Lemma notify_crossfaction_calm (P : View -> Prop) a k :
  (forall V, base V -> P V -> live a V) -> calm P (notify_crossfaction env a k).
Proof. intros Hl. unfold notify_crossfaction. calms. Qed.

Lemma put_icon_calm (P : View -> Prop) a i t : (forall V, base V -> P V -> live a V) -> calm P (put_icon a i t).
Proof.
  intros Hl. unfold put_icon. apply calm_bind; [|intros []; calms].
  - apply calm_g_mod; [in_view|]. intros g. unfold core. cbn. by rewrite length_insert.
  - apply BroadcastPacket_calm; [done|]. unfold IconPacket. eapply sendable_fits; [auto 10 with packets|lia].
Qed.
Hint Resolve put_icon_calm : calm.
Lemma clean_icons_calm (P : View -> Prop) n a i t :
  (forall V, base V -> P V -> live a V) -> 0 <= i -> i + Z.of_nat n <= 8 -> calm P (clean_icons n a i t).
Proof.
  intros Hl. revert i. induction n as [|n IH]; intros i H0 H8; cbn [clean_icons]; [apply calm_ret|].
  calm_step. apply (calm_pure (length (m_targetIcons g) = 8%nat)).
  { intros V HB [_ Hg]. by apply (b_wf V HB) in Hg as [_ _ _ _ Hi _ _]. }
  intros H. destruct (lookup_lt_is_Some_2 (m_targetIcons g) (Z.to_nat i)) as [v Hv]; [lia|].
  rewrite Hv. cbn [deref]. apply calm_ret_bind. apply calm_bind; [calms|]. intros _.
  eapply calm_weaken; [apply IH; lia|]. tauto.
Qed.
Lemma SetTargetIcon_calm (P : View -> Prop) a i t :
  (forall V, base V -> P V -> live a V) -> calm P (SetTargetIcon a i t).
Proof. intros Hl. unfold SetTargetIcon. calms. apply clean_icons_calm; [in_view|lia..]. Qed.
Hint Resolve SetTargetIcon_calm : calm.
Lemma ClearTargetIcon_calm (P : View -> Prop) a t :
  (forall V, base V -> P V -> live a V) -> calm P (ClearTargetIcon a t).
Proof. intros Hl. unfold ClearTargetIcon. calms. Qed.

Lemma update_groups_calm (P : View -> Prop) g f : (forall r, grow (f r) = grow r) -> calm P (update_groups g f).
Proof.
  intros Hf. unfold update_groups. calms. apply calm_groups. intros w. unfold sql_update_row.
  apply map_eq. intros i. rewrite !lookup_fmap. destruct (decide (m_Id g = i)) as [<-|].
  - rewrite lookup_alter_eq. destruct (t_groups w !! m_Id g); cbn; [by rewrite Hf|done].
  - by rewrite lookup_alter_ne.
Qed.
Lemma store_tank_calm (P : View -> Prop) a k : (forall V, base V -> P V -> live a V) -> calm P (store_tank a k).
Proof. intros Hl. unfold store_tank. calms. by apply update_groups_calm. Qed.
Lemma store_assistant_calm (P : View -> Prop) a k : (forall V, base V -> P V -> live a V) -> calm P (store_assistant a k).
Proof. intros Hl. unfold store_assistant. calms. by apply update_groups_calm. Qed.
Hint Resolve store_tank_calm store_assistant_calm : calm.
Lemma SetMainTank_calm (P : View -> Prop) a k : (forall V, base V -> P V -> live a V) -> calm P (SetMainTank a k).
Proof. intros Hl. unfold SetMainTank, _setMainTank. calms. Qed.
Lemma SetMainAssistant_calm (P : View -> Prop) a k :
  (forall V, base V -> P V -> live a V) -> calm P (SetMainAssistant a k).
Proof. intros Hl. unfold SetMainAssistant, _setMainAssistant. calms. Qed.
Lemma UpdateLooterGuid_calm (P : View -> Prop) a t b :
  (forall V, base V -> P V -> live a V) -> calm P (UpdateLooterGuid env a t b).
Proof. intros Hl. unfold UpdateLooterGuid. calms. Qed.
End fields2.
#[export] Hint Resolve UpdatePlayerOutOfRange_calm UpdatePlayerOnlineStatus_calm UpdateCrossfaction_calm
  notify_crossfaction_calm SetTargetIcon_calm ClearTargetIcon_calm SetMainTank_calm SetMainAssistant_calm
  UpdateLooterGuid_calm : calm.

(** ** The role queue *)

(** The roles a group offers, whoever its members are. *)
Definition roles_ok (s : LFGRoles) : Prop :=
  0 <= initRoles s < 8 /\ 0 <= dps_count s <= GetMaximumDPSSlots
  /\ Z.testbit (initRoles s) 2 = (dps_count s <? GetMaximumDPSSlots).

Lemma small_roles r : 0 <= r < 8 -> r = 0 \/ r = 1 \/ r = 2 \/ r = 3 \/ r = 4 \/ r = 5 \/ r = 6 \/ r = 7.
Proof. lia. Qed.
Ltac each_role H := apply small_roles in H; decompose [or] H; subst; clear H; split; vm_compute; repeat split; congruence.
Lemma without_tank r : 0 <= r < 8 -> 0 <= without_role LFG_ROLE_TANK r < 8 /\ Z.testbit (without_role LFG_ROLE_TANK r) 2 = Z.testbit r 2.
Proof. intros H. each_role H. Qed.
Lemma without_healer r : 0 <= r < 8 -> 0 <= without_role LFG_ROLE_HEALER r < 8 /\ Z.testbit (without_role LFG_ROLE_HEALER r) 2 = Z.testbit r 2.
Proof. intros H. each_role H. Qed.
Lemma without_dps r : 0 <= r < 8 -> 0 <= without_role LFG_ROLE_DPS r < 8 /\ Z.testbit (without_role LFG_ROLE_DPS r) 2 = false.
Proof. intros H. each_role H. Qed.

(** A damage dealer more. *)
Lemma one_more_dealer roles dps : 0 <= roles < 8 -> 0 <= dps < GetMaximumDPSSlots -> Z.testbit roles 2 = true ->
  let roles' := if dps + 1 >=? GetMaximumDPSSlots then without_role LFG_ROLE_DPS roles else roles in
  0 <= roles' < 8 /\ 0 <= dps + 1 <= GetMaximumDPSSlots /\ Z.testbit roles' 2 = (dps + 1 <? GetMaximumDPSSlots).
Proof.
  unfold GetMaximumDPSSlots. intros Hr Hd Hb. rewrite Z.geb_leb. destruct (without_dps roles Hr) as [? H0].
  destruct (Z.leb_spec 3 (dps + 1)); (split; [done|split; [lia|]]); rewrite ?H0, ?Hb; symmetry; [apply Z.ltb_ge|apply Z.ltb_lt]; lia.
Qed.
Lemma FillPremadeLFG_ok class_of slots k c role s s' : roles_ok s -> FillPremadeLFG class_of slots k c role s = Some s' -> roles_ok s'.
Proof.
  intros (Hr & Hd & Hf). unfold FillPremadeLFG. destruct (existsb _ _); [done|].
  destruct (role =? LFG_ROLE_TANK); [|destruct (role =? LFG_ROLE_HEALER); [|destruct (role =? LFG_ROLE_DPS)]].
  - intros [= <-]. destruct (without_tank _ Hr) as [? E]. by rewrite <- E in Hf.
  - intros [= <-]. destruct (without_healer _ Hr) as [? E]. by rewrite <- E in Hf.
  - destruct (Z.ltb_spec (dps_count s) GetMaximumDPSSlots) as [Hlt|Hge]; intros [= <-].
    { apply one_more_dealer; [done|lia|]. done. }
    split; [done|split; [done|]]. cbn [initRoles dps_count]. rewrite Hf. symmetry. by apply Z.ltb_ge.
  - by intros [= <-].
Qed.
Lemma take_role_ok class_of slots k roles s : roles_ok s -> roles_ok (take_role class_of slots k roles s).
Proof.
  intros Hs. induction roles as [|role roles IH]; cbn [take_role]; [done|]. destruct (_ || _); [done|].
  destruct (FillPremadeLFG _ _ _ _ _ _) eqn:E; [exact (FillPremadeLFG_ok _ _ _ _ _ _ _ Hs E)|done].
Qed.
Lemma premade_roles_ok class_of slots : roles_ok (premade_roles class_of slots).
Proof.
  unfold premade_roles. assert (H0 : roles_ok (mkRoles (Z.lor (Z.lor LFG_ROLE_TANK LFG_ROLE_DPS) LFG_ROLE_HEALER) 0 []))
    by (repeat split; vm_compute; congruence).
  revert H0. generalize (mkRoles (Z.lor (Z.lor LFG_ROLE_TANK LFG_ROLE_DPS) LFG_ROLE_HEALER) 0 []).
  generalize slots at 2 as l. induction l as [|m l IH]; intros s Hs; [done|]. cbn [foldl]. by apply IH, take_role_ok.
Qed.
Lemma CalculateLFGRoles_ok env w g e : offer_ok (CalculateLFGRoles env w g e).
Proof. destruct (premade_roles_ok (GetPlayerClassByGUID env w) (m_memberSlots g)) as (? & ? & ?). by split. Qed.

(** Changes of the queue. *)
Lemma calm_queue (P : View -> Prop) f : (forall q, queue_ok q -> queue_ok (f q)) ->
  calm P (alter_world (fun w => w_set_lfg (f (w_lfg w)) w)).
Proof. intros Hf. apply calm_alter; [done|]. intros w [Hr Hq]. split; [done|]. by apply Hf. Qed.
Lemma calm_enqueue (P : View -> Prop) k i : entry_ok i -> calm P (alter_world (on_players (<[k := i]>))).
Proof.
  intros Hi. apply (calm_queue P (fun q => mkLFG (<[k := i]> (m_QueuedPlayers q)) (m_OfflinePlayers q) (m_QueuedGroups q))).
  intros q [? ? ?]. split; try done. by apply map_Forall_insert_2.
Qed.
Lemma calm_dequeue (P : View -> Prop) k : calm P (alter_world (on_players (delete k))).
Proof.
  apply (calm_queue P (fun q => mkLFG (delete k (m_QueuedPlayers q)) (m_OfflinePlayers q) (m_QueuedGroups q))).
  intros q [? ? ?]. split; try done. by apply map_Forall_delete.
Qed.
Lemma calm_set_offline (P : View -> Prop) k i : entry_ok i -> calm P (alter_world (on_offline (<[k := i]>))).
Proof.
  intros Hi. apply (calm_queue P (fun q => mkLFG (m_QueuedPlayers q) (<[k := i]> (m_OfflinePlayers q)) (m_QueuedGroups q))).
  intros q [? ? ?]. split; try done. by apply map_Forall_insert_2.
Qed.
Lemma calm_drop_offline (P : View -> Prop) k : calm P (alter_world (on_offline (delete k))).
Proof.
  apply (calm_queue P (fun q => mkLFG (m_QueuedPlayers q) (delete k (m_OfflinePlayers q)) (m_QueuedGroups q))).
  intros q [? ? ?]. split; try done. by apply map_Forall_delete.
Qed.
Lemma calm_offer (P : View -> Prop) id e : offer_ok e -> calm P (alter_world (on_groups (<[id := e]>))).
Proof.
  intros Hi. apply (calm_queue P (fun q => mkLFG (m_QueuedPlayers q) (m_OfflinePlayers q) (<[id := e]> (m_QueuedGroups q)))).
  intros q [? ? ?]. split; try done. by apply map_Forall_insert_2.
Qed.
Lemma calm_drop_offer (P : View -> Prop) id : calm P (alter_world (on_groups (delete id))).
Proof.
  apply (calm_queue P (fun q => mkLFG (m_QueuedPlayers q) (m_OfflinePlayers q) (delete id (m_QueuedGroups q)))).
  intros q [? ? ?]. split; try done. by apply map_Forall_delete.
Qed.
#[export] Hint Resolve CalculateLFGRoles_ok calm_enqueue calm_dequeue calm_set_offline calm_drop_offline calm_offer calm_drop_offer : calm.
(** What is found in a queue in order. *)
Lemma calm_look_aside {A B} (P : View -> Prop) (f : GroupWorld -> A) (k : A -> GM B) :
  (forall w, aside_ok w -> calm P (k (f w))) -> calm P (st_bind (look f) k).
Proof. intros Hk X w Hb HP Hr. apply wp_bind, wp_look. by apply Hk. Qed.

Lemma sendable_set_queue a s : sendable (BuildSetQueuePacket a s).
Proof. unfold BuildSetQueuePacket. eapply sendable_fits; [auto 10 with packets|lia]. Qed.
Lemma sendable_added k : sendable (BuildMemberAddedPacket k).
Proof. unfold BuildMemberAddedPacket. eapply sendable_fits; [auto 10 with packets|lia]. Qed.
Lemma sendable_progress : sendable BuildInProgressPacket.
Proof. apply sendable_init. Qed.
Lemma sendable_complete : sendable BuildCompletePacket.
Proof. apply sendable_init. Qed.
#[export] Hint Resolve sendable_set_queue sendable_added sendable_progress sendable_complete : logs.
Lemma SendMeetingstoneSetqueue_calm (P : View -> Prop) k a s : calm P (SendMeetingstoneSetqueue k a s).
Proof. apply calm_logs, logs_send, sendable_set_queue. Qed.
#[export] Hint Resolve SendMeetingstoneSetqueue_calm : calm.

Section queue.
Context (env : GroupEnv) (P : View -> Prop).

(** A registered group is there. *)
Lemma registered_live id w a : m_GroupMap w !! id = Some a -> forall V, base V -> P V /\ V = view w -> live a V.
Proof. intros H V HB [_ ->]. destruct (b_reg _ HB id a H) as (c & Hc & _). by exists c. Qed.
Lemma registered_calm {B} id (k : option Z -> GM B) :
  calm P (k None) ->
  (forall a (Q : View -> Prop), (forall V, base V -> Q V -> P V /\ live a V) -> calm Q (k (Some a))) ->
  calm P (let! grp := look (fun w => m_GroupMap w !! id) in k grp).
Proof.
  intros Hn Hs. apply calm_look. intros w _ _. destruct (m_GroupMap w !! id) as [a|] eqn:Ha.
  - apply Hs. intros V HB HP. split; [apply HP|]. by eapply registered_live.
  - eapply calm_weaken; [exact Hn|]. tauto.
Qed.
Lemma RemoveGroupFromQueue_calm id method : calm P (RemoveGroupFromQueue id method).
Proof.
  unfold RemoveGroupFromQueue. apply calm_look. intros w0 _ _. destruct (_ !! id); [|apply calm_ret].
  eapply calm_weaken; [|intros V _ [HP _]; exact HP]. apply registered_calm; [calms|].
  intros a Q HQ. assert (Hl : forall V, base V -> Q V -> live a V) by (intros V HB HV; by apply HQ).
  destruct (method =? GROUP_CLIENT_LEAVE); calms.
Qed.
Lemma UpdateGroup_calm id : calm P (UpdateGroup env id).
Proof.
  unfold UpdateGroup. apply calm_look. intros w0 _ _. destruct (_ !! id); [|apply calm_ret].
  eapply calm_weaken; [|intros V _ [HP _]; exact HP]. apply registered_calm; [calms|].
  intros a Q HQ. assert (Hl : forall V, base V -> Q V -> live a V) by (intros V HB HV; by apply HQ). calms.
Qed.
Lemma AddToQueue_calm k area : (forall V, base V -> P V -> online k V) -> calm P (AddToQueue env k area).
Proof.
  intros Hl. unfold AddToQueue. calm_step. destruct (GetGroup p) as [a|] eqn:Ha.
  - assert (Hg : forall V, base V -> P V /\ v_ps V !! k = Some (pcore p) -> live a V)
      by (intros V HB [_ Hp]; by eapply group_is_live). calms.
  - apply (calm_pure (short (pl_name p))); [|intros Hn; calms]. intros V HB [_ Hp]. apply (b_player V HB k _ Hp).
Qed.
Lemma RemovePlayerFromQueue_calm k method : calm P (RemovePlayerFromQueue k method).
Proof. unfold RemovePlayerFromQueue. calms. Qed.
Lemma RestoreOfflinePlayer_calm k : calm P (RestoreOfflinePlayer k).
Proof.
  unfold RestoreOfflinePlayer. apply calm_look_aside. intros w [_ Hq]. destruct (_ !! k) as [i|] eqn:E; [|calms].
  pose proof (q_offline _ Hq k i E). calms.
Qed.
End queue.
#[export] Hint Resolve RemoveGroupFromQueue_calm UpdateGroup_calm AddToQueue_calm RemovePlayerFromQueue_calm
  RestoreOfflinePlayer_calm : calm.
