(* ===== verification/GroupVotes.v ===== *)
(** * GroupVotes: loot rolls

    A roll that ends gives its item to nobody but a voter of the strongest kind
    of vote cast, the one with the highest number; voting, leaving, starting
    and ending rolls touch nobody's membership and never leave the loot that is
    rolled for. *)

From stdpp Require Import gmap fin_maps strings.
From S2P Require Import Prelude ByteBuffer Codec ObjectGuid Packets Effects Incoming Social.
From S2P Require Import GroupData GroupRolls GroupLists LFG Group GroupRaid GroupHandlers MeetingStones GroupLife GroupInv GroupCalm.

Local Open Scope prog_scope.

(** ** Numbers drawn and items changed *)

(** Between [w] and [w'] only draws and the state of items change. *)
Record tidy_step (w w' : GroupWorld) : Prop := {
  ti_heap : w_heap w' = w_heap w; ti_view : view w' = view w; ti_players : w_players w' = w_players w;
  ti_loot : forall l x, w_loots w !! l = Some x ->
    exists x', w_loots w' !! l = Some x' /\ length (items x') = length (items x);
  ti_lfg : w_lfg w' = w_lfg w }.
#[global] Instance tidy_preorder : PreOrder tidy_step.
Proof.
  split; [by split; eauto|]. intros w1 w2 w3 [H1 V1 P1 L1 Q1] [H2 V2 P2 L2 Q2]. split; try congruence.
  intros l x (x' & Hx' & He)%L1. destruct (L2 l x' Hx') as (x'' & ? & ?). exists x''. split; [done|congruence].
Qed.
Lemma tidy_rolls w w' : tidy_step w w' -> aside_ok w -> aside_ok w'.
Proof.
  intros [Hh _ _ Hl Hq] [Hr Ho]. split; [|by rewrite Hq]. intros a g r l Hg Hin Hlo. rewrite Hh in Hg. destruct (Hr a g r l Hg Hin Hlo) as (x & Hx & Hs).
  destruct (Hl l x Hx) as (x' & Hx' & He). exists x'. by rewrite He.
Qed.

Definition tidy {A} (m : GM A) (w : GroupWorld) (Q : A -> GroupWorld -> Prop) : Prop :=
  forall X, wp X m (fun a w' => tidy_step w w' /\ Q a w') w.
Lemma tidy_bind {A B} (m : GM A) (k : A -> GM B) w Q R :
  tidy m w Q -> (forall a w', tidy_step w w' -> Q a w' -> tidy (k a) w' R) -> tidy (st_bind m k) w R.
Proof.
  intros Hm Hk X. apply wp_bind. eapply wp_conseq; [apply Hm|]. cbv beta. intros a w1 [Hs Hq].
  eapply wp_conseq; [by apply Hk|]. cbv beta. intros b w2 [Hs2 ?]. split; [by etrans|done].
Qed.
Lemma tidy_logs {A} (m : GM A) w : logs_only m -> tidy m w (fun _ w' => w' = w).
Proof. intros Hm X. by apply wp_logs. Qed.
Lemma tidy_ret {A} (a : A) w (Q : A -> GroupWorld -> Prop) : Q a w -> tidy (st_ret a) w Q.
Proof. intros HQ X. by apply wp_ret. Qed.
Lemma tidy_conseq {A} (m : GM A) w (Q R : A -> GroupWorld -> Prop) :
  tidy m w Q -> (forall a w', tidy_step w w' -> Q a w' -> R a w') -> tidy m w R.
Proof. intros Hm HR X. eapply wp_conseq; [apply Hm|]. cbv beta. intros a w' [? ?]. auto. Qed.

Section votes.
Context (env : GroupEnv) `{!GroupEnvOk env}.

Lemma logs_to_voters k r : sendable k -> logs_only (to_voters env k r).
Proof.
  intros [p Hp]. unfold to_voters. apply logs_bind; [by eapply logs_made|]. intros data.
  apply logs_each. intros x _. apply logs_bind; [apply logs_look|]. intros q.
  repeat case_match; auto with logs.
Qed.
Lemma logs_start c r : logs_only (SendLootStartRoll env c r).
Proof. apply logs_to_voters. unfold StartRollPacket. eapply sendable_fits; [auto 10 with packets|lia]. Qed.
Lemma logs_roll g n t r : logs_only (SendLootRoll env g n t r).
Proof. apply logs_to_voters. unfold RollPacket. eapply sendable_fits; [auto 12 with packets|lia]. Qed.
Lemma logs_won g n t r : logs_only (SendLootRollWon env g n t r).
Proof. apply logs_to_voters. unfold RollWonPacket. eapply sendable_fits; [auto 12 with packets|lia]. Qed.
Lemma logs_passed r : logs_only (SendLootAllPassed env r).
Proof. apply logs_to_voters. unfold AllPassedPacket. eapply sendable_fits; [auto 12 with packets|lia]. Qed.
Hint Resolve logs_start logs_roll logs_won logs_passed : logs.

Lemma tidy_draw lo hi w : lo <= hi -> tidy (draw env lo hi) w (fun n _ => lo <= n <= hi).
Proof.
  intros Hl X. unfold draw. apply wp_bind, wp_look. apply wp_bind, wp_alter_world. apply wp_ret.
  split; [by split; eauto|by apply ge_urand].
Qed.

Lemma tidy_items w l f : (forall x, length (items (f x)) = length (items x)) ->
  tidy_step w (w_set_loots (alter f l (w_loots w)) w).
Proof.
  intros Hf. split; try done. intros l' x Hx. cbn. destruct (decide (l = l')) as [<-|].
  - exists (f x). by rewrite lookup_alter_eq, Hx.
  - exists x. by rewrite lookup_alter_ne.
Qed.
(** The item of a roll is there. *)
Definition item_there (l s : Z) (w : GroupWorld) : Prop :=
  exists x i, w_loots w !! l = Some x /\ items x !! Z.to_nat s = Some i.
Lemma item_there_step l s w w' : tidy_step w w' -> item_there l s w -> item_there l s w'.
Proof.
  intros [_ _ _ Hl] (x & i & Hx & Hi). destruct (Hl l x Hx) as (x' & Hx' & He).
  destruct (lookup_lt_is_Some_2 (items x') (Z.to_nat s)) as [j Hj]; [rewrite He; by eapply lookup_lt_Some|].
  by exists x', j.
Qed.
Lemma tidy_item_at l s w : item_there l s w ->
  tidy (item_at l s) w (fun i w' => w' = w /\ exists x, w_loots w !! l = Some x /\ items x !! Z.to_nat s = Some i).
Proof.
  intros (x & i & Hx & Hi) X. unfold item_at, loot_at. apply wp_bind, wp_bind, wp_look. rewrite Hx.
  apply wp_ret. rewrite Hi. apply wp_ret. split_and!; [done..|eauto].
Qed.
Lemma tidy_item_mod l s f w : item_there l s w -> tidy (item_mod l s f) w (fun _ w' =>
  w' = w_set_loots (alter (fun x => mkLoot (alter f (Z.to_nat s) (items x)) (unlootedCount x)) l (w_loots w)) w).
Proof.
  intros Hi. unfold item_mod. eapply tidy_bind; [by apply tidy_item_at|]. intros i w' Ht [-> _] X.
  apply wp_alter_world. split; [|done]. apply tidy_items. intros x. cbn. by rewrite length_alter.
Qed.
Lemma tidy_award k r l w : item_there l (itemSlot r) w -> tidy (award env k r l) w (fun _ _ => True).
Proof.
  intros Hi. unfold award. eapply tidy_bind; [by apply tidy_item_at|]. intros i w1 _ [-> _]. case_match.
  - eapply tidy_bind; [by apply tidy_item_mod|]. intros _ w2 _ _.
    eapply tidy_bind; [apply tidy_logs, logs_call|]. intros _ w3 _ _.
    eapply (tidy_bind _ _ _ (fun _ _ => True)); [intros X; apply wp_alter_world; split; [by apply tidy_items|done]|].
    intros _ w4 _ _. eapply tidy_conseq; [apply tidy_logs, logs_call|done].
  - eapply tidy_bind; [by apply tidy_item_mod|]. intros _ w2 _ _.
    eapply tidy_conseq; [apply tidy_logs, logs_call|done].
Qed.

(** ** The contest *)

(** The voters of one kind, in the order of the iteration, and the number each
    of them draws when the contest starts at the [n]-th draw. *)
Definition contenders (kind : Z) (r : Roll) (voters : list Z) : list Z :=
  filter (fun k => playerVote r !! k = Some kind) voters.
Definition number (n : Z) (i : nat) : Z := urand env (n + Z.of_nat i) 1 100.

(** The best of the numbers so far, and who had it first. *)
Definition best_so_far (n : Z) (ks : list Z) (start best : Z * Z) : Prop :=
  (best = start /\ forall i k, ks !! i = Some k -> number n i <= start.2)
  \/ exists i k, ks !! i = Some k /\ best = (k, number n i) /\ start.2 < number n i
       /\ (forall j k', ks !! j = Some k' -> number n j <= number n i)
       /\ forall j, (j < i)%nat -> number n j < number n i.

Lemma number_range n i : 1 <= number n i <= 100.
Proof. by apply ge_urand. Qed.
Lemma best_so_far_cons n k ks start best :
  best_so_far (n + 1) ks (if start.2 <? number n 0 then (k, number n 0) else start) best ->
  best_so_far n (k :: ks) start best.
Proof.
  assert (Hn : forall i, number (n + 1) i = number n (S i)) by (intros i; unfold number; f_equal; lia).
  unfold best_so_far. setoid_rewrite Hn.
  destruct (Z.ltb_spec start.2 (number n 0)) as [Hlt|Hge]; cbn [fst snd].
  - intros [[-> Hmax]|(i & k' & Hi & -> & Hgt & Hmax & Hfirst)]; right.
    + exists 0%nat, k. split_and!; [done|done|done| |lia].
      intros [|j] k' Hj; [lia|]. by eapply Hmax.
    + exists (S i), k'. split_and!; [done|done|lia| |].
      * intros [|j] k2 Hj; [lia|]. by eapply Hmax.
      * intros [|j] Hj; [lia|]. apply Hfirst. lia.
  - intros [[-> Hmax]|(i & k' & Hi & -> & Hgt & Hmax & Hfirst)]; [left|right].
    + split; [done|]. intros [|i] k' Hi; [lia|]. by eapply Hmax.
    + exists (S i), k'. split_and!; [done|done|done| |].
      * intros [|j] k2 Hj; [lia|]. by eapply Hmax.
      * intros [|j] Hj; [lia|]. apply Hfirst. lia.
Qed.

Lemma contest_best kind r voters start w :
  0 <= start.2 <= 100 ->
  tidy (contest env kind r voters start.1 start.2) w
    (fun best _ => best_so_far (w_draws w) (contenders kind r voters) start best).
Proof.
  revert start w. induction voters as [|k voters IH]; intros [mg mr] w H0; cbn [contest fst snd] in *.
  - apply tidy_ret. left. split; [done|]. intros i k' Hi. done.
  - unfold contenders. rewrite filter_cons. destruct (decide (playerVote r !! k = Some kind)) as [He|He].
    + rewrite bool_decide_eq_true_2 by done. pose proof (number_range (w_draws w) 0) as Hr.
      assert (Hu : u8 (urand env (w_draws w) 1 100) = number (w_draws w) 0).
      { unfold number. rewrite Z.add_0_r. apply wrap_small. rewrite <- (Z.add_0_r (w_draws w)).
        unfold number in Hr. unfold is_u. change (w_draws w + Z.of_nat 0) with (w_draws w + 0) in Hr. lia. }
      eapply (tidy_bind _ _ w (fun n w' => n = urand env (w_draws w) 1 100 /\ w_draws w' = w_draws w + 1)).
      { intros X. unfold draw. apply wp_bind, wp_look. apply wp_bind, wp_alter_world. apply wp_ret.
        split; [by split; eauto|done]. }
      intros n w1 _ [-> Hd]. rewrite Hu. eapply tidy_bind; [apply tidy_logs; auto with logs|]. intros _ w2 _ ->.
      eapply (tidy_conseq _ _ (fun best _ => best_so_far (w_draws w1) (contenders kind r voters)
        (if mr <? number (w_draws w) 0 then (k, number (w_draws w) 0) else (mg, mr)) best)).
      * destruct (mr <? number (w_draws w) 0) eqn:E; [apply (IH (k, number (w_draws w) 0))|apply (IH (mg, mr))]; cbn; lia.
      * intros best _ _ Hb. apply best_so_far_cons. cbn [snd]. by rewrite <- Hd.
    + rewrite bool_decide_eq_false_2 by done. by apply (IH (mg, mr)).
Qed.

(** ** Ending rolls *)

(** The rolls of the group at [a] are [l], and the view is [V]. *)
Definition rolling (V : View) (a : Z) (l : list Roll) (w : GroupWorld) : Prop :=
  view w = V /\ aside_ok w /\ exists g, w_heap w !! a = Some g /\ RollId g = l.

Lemma rolling_tidy V a l w w' : tidy_step w w' -> rolling V a l w -> rolling V a l w'.
Proof.
  intros Ht (HV & Hr & g & Hg & Hl). split_and!; [by rewrite (ti_view _ _ Ht)|by eapply tidy_rolls|].
  exists g. by rewrite (ti_heap _ _ Ht).
Qed.
Lemma wp_rolling {A} X (m : GM A) V a l w Q :
  rolling V a l w -> tidy m w Q -> wp X m (fun x w' => rolling V a l w' /\ Q x w') w.
Proof.
  intros HR Hm. eapply wp_conseq; [apply Hm|]. cbv beta. intros x w' [Ht HQ]. split; [by eapply rolling_tidy|done].
Qed.
Lemma wp_roll_at X V a l i r w Q :
  rolling V a l w -> l !! i = Some r -> Q r w -> wp X (roll_at a i) Q w.
Proof.
  intros (_ & _ & g & Hg & <-) Hi HQ. unfold roll_at. apply wp_bind, (wp_group_at X a g); [done|].
  by apply (wp_deref X _ r).
Qed.
Lemma wp_set_rolls X V a l f w (Q : unit -> GroupWorld -> Prop) :
  rolling V a l w -> (forall r, r ∈ f l -> exists r0, r0 ∈ l /\ itemSlot r = itemSlot r0 /\ r_loot r = r_loot r0) ->
  (forall w', rolling V a (f l) w' -> w_loots w' = w_loots w -> Q tt w') ->
  wp X (g_mod a (fun g => set_rolls (f (RollId g)) g)) Q w.
Proof.
  intros (HV & [Hr Hq] & g & Hg & Hl) Hf HQ. apply (wp_group_mod X a _ g); [done|]. apply HQ; [|done]. split_and!; [..|split|].
  - rewrite <- HV. by eapply view_same_g.
  - intros b h r lo. cbn. intros [[<- <-]|[_ Hb]]%lookup_insert_Some; [|by eapply Hr].
    cbn. rewrite Hl. intros Hin Hlo. destruct (Hf r Hin) as (r0 & Hin0 & Hs & Hl0). rewrite Hs.
    eapply Hr; [exact Hg|by rewrite Hl|congruence].
  - done.
  - exists (set_rolls (f (RollId g)) g). cbn. rewrite lookup_insert_eq. by rewrite Hl.
Qed.

Lemma rolling_item V a l i r lo w :
  rolling V a l w -> l !! i = Some r -> r_loot r = Some lo -> item_there lo (itemSlot r) w.
Proof.
  intros (_ & [Hr _] & g & Hg & <-) Hi Hlo. apply list_elem_of_lookup_2 in Hi.
  destruct (Hr a g r lo Hg Hi Hlo) as (x & Hx & Hs).
  destruct (lookup_lt_is_Some_2 (items x) (Z.to_nat (itemSlot r))) as [j Hj]; [lia|]. by exists x, j.
Qed.

(** What happens to the item, before the roll is erased. *)
Definition resolve (r : Roll) : GM unit :=
  let voters := vote_order env (playerVote r) in
  if totalNeed r >? 0 then
    match voters with
    | [] => st_ret tt
    | first :: _ =>
        let! best := contest env ROLL_NEED r voters first 0 in
        SendLootRollWon env best.1 best.2 ROLL_NEED r ;;;
        let! player := look (GetPlayer best.1) in
        let! l := getLoot r in
        item_at l (itemSlot r) ;;;
        match player with
        | Some _ => award env best.1 r l
        | None => item_mod l (itemSlot r) (fun i => li_set (is_looted i) (is_blocked i) (is_underthreshold i) best.1 i)
        end
    end
  else if totalGreed r >? 0 then
    match voters with
    | [] => st_ret tt
    | first :: _ =>
        let! best := contest env ROLL_GREED r voters first 0 in
        SendLootRollWon env best.1 best.2 ROLL_GREED r ;;;
        let! player := look (GetPlayer best.1) in
        match player with
        | Some _ => let! l := getLoot r in award env best.1 r l
        | None => st_ret tt
        end
    end
  else
    SendLootAllPassed env r ;;;
    let! l := getLoot r in
    item_mod l (itemSlot r) (fun i => li_set (is_looted i) false (is_underthreshold i) (lootOwner i) i).
Lemma CountTheRoll_resolve a i :
  CountTheRoll env a i = (let! r := roll_at a i in
    if negb (isValid r) then erase_roll a i else resolve r ;;; erase_roll a i).
Proof. done. Qed.

Lemma tidy_getLoot r lo w : r_loot r = Some lo -> tidy (getLoot r) w (fun l w' => l = lo /\ w' = w).
Proof. intros H X. unfold getLoot. apply (wp_deref X _ lo); [done|]. done. Qed.
Lemma tidy_resolve r lo w : r_loot r = Some lo -> item_there lo (itemSlot r) w -> tidy (resolve r) w (fun _ _ => True).
Proof.
  intros Hlo Hi. unfold resolve. destruct (totalNeed r >? 0).
  { destruct (vote_order env (playerVote r)) as [|k ks]; [by apply tidy_ret|].
    eapply tidy_bind; [apply (contest_best ROLL_NEED r (k :: ks) (k, 0)); cbn; lia|]. intros best w1 H1 _.
    eapply tidy_bind; [apply tidy_logs; auto with logs|]. intros _ w2 _ ->.
    eapply tidy_bind; [apply tidy_logs, logs_look|]. intros pl w3 _ ->.
    eapply tidy_bind; [by apply (tidy_getLoot _ lo)|]. intros l w4 _ [-> ->].
    assert (Hi1 : item_there lo (itemSlot r) w1) by by eapply item_there_step.
    eapply tidy_bind; [by apply tidy_item_at|]. intros it w5 _ [-> _].
    destruct pl; [by apply tidy_award|]. eapply tidy_conseq; [by apply tidy_item_mod|done]. }
  destruct (totalGreed r >? 0).
  { destruct (vote_order env (playerVote r)) as [|k ks]; [by apply tidy_ret|].
    eapply tidy_bind; [apply (contest_best ROLL_GREED r (k :: ks) (k, 0)); cbn; lia|]. intros best w1 H1 _.
    eapply tidy_bind; [apply tidy_logs; auto with logs|]. intros _ w2 _ ->.
    eapply tidy_bind; [apply tidy_logs, logs_look|]. intros pl w3 _ ->.
    destruct pl; [|by apply tidy_ret]. eapply tidy_bind; [by apply (tidy_getLoot _ lo)|]. intros l w4 _ [-> ->].
    apply tidy_award. by eapply item_there_step. }
  eapply tidy_bind; [apply tidy_logs; auto with logs|]. intros _ w2 _ ->.
  eapply tidy_bind; [by apply (tidy_getLoot _ lo)|]. intros l w4 _ [-> ->].
  eapply tidy_conseq; [by apply tidy_item_mod|done].
Qed.

Lemma CountTheRoll_wp X V a l i r w :
  rolling V a l w -> l !! i = Some r -> wp X (CountTheRoll env a i) (fun _ w' => rolling V a (delete i l) w') w.
Proof.
  intros HR Hi. rewrite CountTheRoll_resolve. apply wp_bind, (wp_roll_at X V a l i r); [done..|].
  assert (He : forall w', rolling V a l w' -> wp X (erase_roll a i) (fun _ w' => rolling V a (delete i l) w') w').
  { intros w' HR'. unfold erase_roll. apply (wp_set_rolls X V a l (delete i)); [done| |auto].
    intros q Hq. exists q. split; [|done]. apply list_elem_of_lookup in Hq as [j Hj].
    destruct (decide (j < i)%nat) as [Hlt|Hge].
    - rewrite list_lookup_delete_lt in Hj by done. by eapply list_elem_of_lookup_2.
    - rewrite list_lookup_delete_ge in Hj by lia. by eapply list_elem_of_lookup_2. }
  destruct (isValid r) eqn:Hv; [|by apply He]. cbn [negb].
  apply bool_decide_eq_true in Hv as [lo Hlo]. apply wp_bind.
  eapply wp_conseq; [apply (wp_rolling X _ V a l); [done|apply (tidy_resolve r lo); [done|by eapply rolling_item]]|].
  cbv beta. intros _ w' [HR' _]. by apply He.
Qed.

Lemma count_rolls_wp X V a n l w :
  rolling V a l w -> n = length l -> wp X (count_rolls env n a) (fun _ w' => rolling V a [] w') w.
Proof.
  revert l w. induction n as [|n IH]; intros [|r l] w HR Hn; try done; cbn [count_rolls]; [by apply wp_ret|].
  apply wp_bind. eapply wp_conseq; [by apply (CountTheRoll_wp X V a (r :: l) 0 r)|]. cbv beta.
  intros _ w' HR'. apply (IH l); [done|by injection Hn].
Qed.

(** ** Voting *)

Lemma rolling_alter V a l i f w X (Q : unit -> GroupWorld -> Prop) :
  rolling V a l w -> (forall r, itemSlot (f r) = itemSlot r /\ r_loot (f r) = r_loot r) ->
  (forall w', rolling V a (alter f i l) w' -> w_loots w' = w_loots w -> Q tt w') -> wp X (roll_mod a i f) Q w.
Proof.
  intros HR Hf HQ. unfold roll_mod. apply (wp_set_rolls X V a l (alter f i)); [done| |done].
  intros r Hr. apply list_elem_of_lookup in Hr as [j Hj]. destruct (decide (i = j)) as [<-|Hne].
  - rewrite list_lookup_alter_eq in Hj. apply fmap_Some in Hj as (r0 & H0 & ->). destruct (Hf r0).
    exists r0. split; [by eapply list_elem_of_lookup_2|done].
  - rewrite list_lookup_alter_ne in Hj by done. exists r. split; [by eapply list_elem_of_lookup_2|done].
Qed.
Lemma cast_vote_frame k v r : itemSlot (cast_vote k v r) = itemSlot r /\ r_loot (cast_vote k v r) = r_loot r.
Proof. unfold cast_vote. by repeat case_match. Qed.
Lemma logs_show_vote k v r : logs_only (show_vote env k v r).
Proof. unfold show_vote. repeat case_match; auto with logs. Qed.

(** The loot of a valid roll has items. *)
Lemma rolling_loot V a l i r lo w :
  rolling V a l w -> l !! i = Some r -> r_loot r = Some lo -> exists x, w_loots w !! lo = Some x /\ items x <> [].
Proof.
  intros HR Hi Hlo. destruct (rolling_item V a l i r lo w HR Hi Hlo) as (x & it & Hx & Hit). exists x.
  split; [done|]. intros He. by rewrite He in Hit.
Qed.

(** A vote: nothing for somebody who may not roll; otherwise it is counted, and
    the roll ends when the votes reach the number of rollers. *)
Definition voted (k v : Z) (i : nat) (l : list Roll) (r : Roll) : bool * list Roll :=
  match playerVote r !! k with
  | None => (true, l)
  | Some _ =>
      let r1 := cast_vote k v r in
      if totalPass r1 + totalNeed r1 + totalGreed r1 >=? totalPlayersRolling r1
      then (true, delete i l) else (false, alter (cast_vote k v) i l)
  end.
Lemma CountRollVote_at_wp X V a l i r k v w :
  rolling V a l w -> l !! i = Some r ->
  wp X (CountRollVote_at env a k i v) (fun b w' => b = (voted k v i l r).1 /\ rolling V a (voted k v i l r).2 w') w.
Proof.
  intros HR Hi. unfold CountRollVote_at, voted. apply wp_bind, (wp_roll_at X V a l i r); [done..|].
  destruct (playerVote r !! k) as [v0|]; [|by apply wp_ret]. apply wp_bind.
  apply (wp_conseq X _ (fun b w' => b = false /\ w' = w)).
  { destruct (r_loot r) as [lo|] eqn:Hlo; [|by apply wp_ret].
    destruct (rolling_loot V a l i r lo w HR Hi Hlo) as (x & Hx & Hne). unfold loot_at.
    apply wp_bind, wp_bind, wp_look. apply (wp_deref X _ x); [done|]. apply wp_ret.
    split; [by apply bool_decide_eq_false|done]. }
  cbv beta. intros b w' [-> ->]. apply wp_bind, wp_logs; [apply logs_show_vote|]. intros _.
  apply wp_bind. apply (rolling_alter V a l i); [done|apply cast_vote_frame|]. intros w1 HR1 _.
  assert (Hi1 : alter (cast_vote k v) i l !! i = Some (cast_vote k v r)) by by rewrite list_lookup_alter_eq, Hi.
  apply wp_bind, (wp_roll_at X V a (alter (cast_vote k v) i l) i (cast_vote k v r)); [done..|].
  destruct (_ >=? _); [|by apply wp_ret]. apply wp_bind.
  eapply wp_conseq; [by eapply CountTheRoll_wp|]. cbv beta. intros _ w2 HR2. apply wp_ret. split; [done|].
  cbn [snd]. replace (delete i l) with (delete i (alter (cast_vote k v) i l)); [done|].
  clear. revert i. induction l as [|q l IH]; intros [|i]; cbn; try done. f_equal. apply IH.
Qed.

(** ** A member leaves *)

Lemma drop_vote_frame k r : itemSlot (drop_vote k r) = itemSlot r /\ r_loot (drop_vote k r) = r_loot r.
Proof. unfold drop_vote. by repeat case_match. Qed.
Lemma drop_vote_gone k r : playerVote (drop_vote k r) !! k = None.
Proof. unfold drop_vote. destruct (playerVote r !! k) eqn:E; [cbn; by rewrite lookup_delete_eq|done]. Qed.
Lemma drop_vote_none k r : playerVote r !! k = None -> drop_vote k r = r.
Proof. unfold drop_vote. by intros ->. Qed.

(** The steps left from index [i]: two for a roll with a vote of his, one for
    any other. *)
Fixpoint visits (k : Z) (l : list Roll) : nat :=
  match l with
  | [] => 1
  | r :: l' => (match playerVote r !! k with Some _ => 2 | None => 1 end) + visits k l'
  end.
Lemma visits_bound k l : (visits k l <= 2 * length l + 1)%nat.
Proof. induction l as [|r l IH]; cbn; [lia|]. case_match; lia. Qed.

Lemma remove_rolls_wp X V a k fuel l1 l2 w :
  rolling V a (l1 ++ l2) w -> (visits k l2 <= fuel)%nat ->
  wp X (remove_rolls env fuel a k (length l1)) (fun _ w' => rolling V a (l1 ++ (drop_vote k <$> l2)) w') w.
Proof.
  revert l1 l2 w. induction fuel as [|fuel IH]; intros l1 l2 w HR Hf; [destruct l2; cbn in Hf; repeat case_match; lia|].
  cbn [remove_rolls]. destruct HR as (HV & Hr & g & Hg & Hl). apply wp_bind, (wp_group_at X a g); [done|].
  assert (HR : rolling V a (l1 ++ l2) w) by (split_and!; eauto). rewrite Hl.
  destruct l2 as [|r l2]; [rewrite app_nil_r, lookup_ge_None_2 by lia; by apply wp_ret|].
  rewrite list_lookup_middle by done. cbn [visits] in Hf.
  destruct (playerVote r !! k) as [v|] eqn:Hv.
  - apply wp_bind, (rolling_alter V a (l1 ++ r :: l2)); [done|apply drop_vote_frame|]. intros w1 HR1 _.
    rewrite alter_app_r_alt in HR1 by lia. rewrite Nat.sub_diag in HR1. cbn in HR1.
    apply wp_bind. eapply wp_conseq.
    { eapply (CountRollVote_at_wp X V a _ _ (drop_vote k r)); [exact HR1|by apply list_lookup_middle]. }
    cbv beta. unfold voted. rewrite drop_vote_gone. cbn [fst snd]. intros b w2 [-> HR2].
    eapply wp_conseq; [apply (IH l1 (drop_vote k r :: l2)); [done|cbn; rewrite drop_vote_gone; lia]|].
    cbv beta. intros _ w3. cbn [fmap list_fmap]. by rewrite (drop_vote_none k (drop_vote k r)) by apply drop_vote_gone.
  - rewrite (cons_middle r l1 l2), app_assoc in HR.
    eapply wp_conseq.
    + replace (S (length l1)) with (length (l1 ++ [r])) by (rewrite length_app; cbn; lia). apply IH; [done|lia].
    + cbv beta. intros _ w2. rewrite <- app_assoc. cbn [fmap list_fmap app]. by rewrite (drop_vote_none k r).
Qed.
Lemma _removeRolls_wp X V a k l w :
  rolling V a l w -> wp X (_removeRolls env a k) (fun _ w' => rolling V a (drop_vote k <$> l) w') w.
Proof.
  intros HR. pose proof HR as (HV & Hr & g & Hg & Hl). unfold _removeRolls. apply wp_bind, (wp_group_at X a g); [done|].
  rewrite Hl. apply (remove_rolls_wp X V a k _ [] l); [done|apply visits_bound].
Qed.

(** ** The timer of a loot runs out *)

Lemma end_rolls_wp X V a lo fuel l1 l2 w :
  rolling V a (l1 ++ l2) w -> Forall (fun r => r_loot r <> Some lo) l1 ->
  (length (l1 ++ l2) * length (l1 ++ l2) + length l2 < fuel)%nat ->
  wp X (end_rolls env fuel a lo (length l1)) (fun _ w' => rolling V a (filter (fun r => r_loot r <> Some lo) (l1 ++ l2)) w') w.
Proof.
  revert l1 l2 w. induction fuel as [|fuel IH]; intros l1 l2 w HR H1 Hf; [lia|].
  cbn [end_rolls]. pose proof HR as (HV & Hr & g & Hg & Hl). apply wp_bind, (wp_group_at X a g); [done|]. rewrite Hl.
  destruct l2 as [|r l2].
  { rewrite app_nil_r in *. rewrite lookup_ge_None_2 by lia. apply wp_ret. by rewrite filter_all. }
  rewrite list_lookup_middle by done. rewrite length_app in Hf. cbn [length] in Hf. case_bool_decide as Hr0.
  - apply wp_bind. eapply wp_conseq; [eapply (CountTheRoll_wp X V a _ _ r); [done|by apply list_lookup_middle]|].
    cbv beta. intros _ w1. rewrite delete_middle. intros HR1.
    eapply wp_conseq; [apply (IH [] (l1 ++ l2)); [done|constructor|cbn; rewrite length_app; nia]|].
    cbv beta. intros _ w2. by rewrite !filter_app, filter_cons_False by tauto.
  - rewrite (cons_middle r l1 l2), app_assoc in HR. rewrite (cons_middle r l1 l2), app_assoc.
    replace (S (length l1)) with (length (l1 ++ [r])) by (rewrite length_app; cbn; lia).
    apply IH; [done|apply Forall_app; by repeat constructor|rewrite !length_app; cbn; nia].
Qed.
Lemma EndRoll_wp X V a lo l w :
  rolling V a l w -> wp X (EndRoll env a lo) (fun _ w' => rolling V a (filter (fun r => r_loot r <> Some lo) l) w') w.
Proof.
  intros HR. pose proof HR as (HV & Hr & g & Hg & Hl). unfold EndRoll. apply wp_bind, (wp_group_at X a g); [done|].
  rewrite Hl. apply (end_rolls_wp X V a lo _ [] l); [done|constructor|cbn; nia].
Qed.

(** ** Starting rolls *)

Definition loot_there (l : Z) (n : nat) (w : GroupWorld) : Prop :=
  exists x, w_loots w !! l = Some x /\ length (items x) = n.
Lemma loot_item l n w s : loot_there l n w -> 0 <= s < Z.of_nat n -> item_there l s w.
Proof.
  intros (x & Hx & <-) Hs. destruct (lookup_lt_is_Some_2 (items x) (Z.to_nat s)) as [j Hj]; [lia|]. by exists x, j.
Qed.
Lemma loot_there_step l n w w' : tidy_step w w' -> loot_there l n w -> loot_there l n w'.
Proof. intros [_ _ _ Hl] (x & Hx & <-). destruct (Hl l x Hx) as (x' & ? & ?). by exists x'. Qed.

Lemma gather_rollers_wp X method target l item refs r w :
  (forall e, e ∈ refs -> is_Some (w_players w !! e.1)) ->
  wp X (gather_rollers env method target l item refs r) (fun _ w' => w' = w) w.
Proof.
  revert r. induction refs as [|[k o] refs IH]; intros r Hon; cbn [gather_rollers]; [by apply wp_ret|].
  destruct (Hon (k, o)) as [p Hp]; [set_solver|]. apply wp_bind, (wp_player_at X k p); [done|].
  case_match; apply IH; set_solver.
Qed.
Lemma members_there V a g w : base V -> view w = V -> w_heap w !! a = Some g ->
  forall e, e ∈ m_memberMgr g -> is_Some (w_players w !! e.1).
Proof.
  intros HB <- Hg e He. destruct (b_mgr _ HB a (core g) e) as (_ & p & Hp & _); [by apply view_group|done|].
  apply player_view in Hp as (q & Hq & _). by exists q.
Qed.

(** The rolls of the group at [a], whatever they are, with the loot at [l]. *)
Definition rolling_on (V : View) (a l : Z) (n : nat) (w : GroupWorld) : Prop :=
  (exists ls, rolling V a ls w) /\ loot_there l n w.
Lemma wp_rolling_on {A} X (m : GM A) V a l n w Q :
  rolling_on V a l n w -> tidy m w Q -> wp X m (fun x w' => rolling_on V a l n w' /\ Q x w') w.
Proof.
  intros [[ls HR] Hl] Hm. eapply wp_conseq; [apply Hm|]. cbv beta. intros x w' [Ht HQ].
  split; [split; [exists ls; by eapply rolling_tidy|by eapply loot_there_step]|done].
Qed.

Lemma StartLootRoll_wp X V a target method l n s w :
  base V -> rolling_on V a l n w -> 0 <= s -> wp X (StartLootRoll env a target method l s) (fun _ w' => rolling_on V a l n w') w.
Proof.
  intros HB HR Hs. pose proof HR as [(ls & HV & Hr & g & Hg & Hls) (x & Hx & Hn)]. unfold StartLootRoll, loot_at.
  apply wp_bind, wp_bind, wp_look. apply (wp_deref X _ x); [done|].
  destruct (items x !! Z.to_nat s) as [item|] eqn:Hit; [|by apply wp_ret]. pose proof (lookup_lt_Some _ _ _ Hit) as Hlt.
  apply wp_bind. unfold GetMembers. apply wp_bind, (wp_group_at X a g); [done|]. apply wp_ret. apply wp_bind.
  eapply wp_conseq; [apply gather_rollers_wp; by eapply members_there|]. cbv beta. intros r w' ->.
  case_match; [|by apply wp_ret]. apply wp_bind, wp_logs; [auto with logs|]. intros _. apply wp_bind.
  eapply wp_conseq; [eapply (wp_rolling_on X); [exact HR|apply tidy_item_mod; eapply loot_item; [by exists x|lia]]|].
  cbv beta. intros _ w1 [[(ls1 & HV1 & [Hr1 Hq1] & g1 & Hg1 & Hls1) Hl1] _]. apply wp_bind, wp_logs; [auto with logs|]. intros _.
  apply wp_bind, (wp_group_mod X a _ g1); [done|]. apply wp_logs; [auto with logs|]. intros _. split; [|done].
  exists (RollId g1 ++ [set_loot s (Some l) r]). split_and!; [..|split|].
  - rewrite <- HV1. by eapply view_same_g.
  - intros b h q lo. cbn. intros [[<- <-]|[_ Hb]]%lookup_insert_Some; [|by eapply Hr1]. cbn.
    intros [Hq| ->%list_elem_of_singleton]%elem_of_app; [by eapply Hr1|]. cbn. intros [= <-].
    destruct Hl1 as (x1 & Hx1 & Hn1). exists x1. split; [done|lia].
  - done.
  - eexists. cbn. by rewrite lookup_insert_eq.
Qed.

Lemma roll_items_wp X V a target method l n k s w :
  base V -> rolling_on V a l n w -> 0 <= s -> s + Z.of_nat k <= Z.of_nat n ->
  wp X (roll_items env k a target method l s) (fun _ w' => rolling_on V a l n w') w.
Proof.
  intros HB. revert s w. induction k as [|k IH]; intros s w HR Hs Hk; cbn [roll_items]; [by apply wp_ret|].
  assert (Hi : item_there l s w) by (eapply loot_item; [apply HR|lia]).
  apply wp_bind. eapply wp_conseq; [by apply (tidy_item_at l s w)|]. cbv beta. intros item w1 [_ [-> _]].
  apply wp_bind, (wp_conseq X _ (fun _ w' => rolling_on V a l n w')); [|intros _ w2 HR2; apply IH; [exact HR2|lia..]].
  case_match; [by apply wp_ret|]. case_match; [|by apply wp_ret].
  pose proof HR as [(ls & HV & Hr & g & Hg & Hls) _]. apply wp_bind, (wp_group_at X a g); [done|].
  case_match; [by apply StartLootRoll_wp|].
  eapply wp_conseq; [eapply (wp_rolling_on X); [exact HR|by apply tidy_item_mod]|]. by intros _ w2 [? _].
Qed.
Lemma GroupLoot_wp X V a target l n w :
  base V -> rolling_on V a l n w -> wp X (GroupLoot env a target l) (fun _ w' => rolling_on V a l n w') w.
Proof.
  intros HB HR. pose proof HR as [_ (x & Hx & <-)]. unfold GroupLoot, loot_at.
  apply wp_bind, wp_bind, wp_look. apply (wp_deref X _ x); [done|]. apply roll_items_wp; [done..|lia|lia].
Qed.
Lemma NeedBeforeGreed_wp X V a target l n w :
  base V -> rolling_on V a l n w -> wp X (NeedBeforeGreed env a target l) (fun _ w' => rolling_on V a l n w') w.
Proof.
  intros HB HR. pose proof HR as [_ (x & Hx & <-)]. unfold NeedBeforeGreed, loot_at.
  apply wp_bind, wp_bind, wp_look. apply (wp_deref X _ x); [done|]. apply roll_items_wp; [done..|lia|lia].
Qed.

Lemma candidates_wp X target l refs w : (forall e, e ∈ refs -> is_Some (w_players w !! e.1)) ->
  wp X (candidates env target l refs) (fun ks w' => w' = w /\ (length ks <= length refs)%nat) w.
Proof.
  induction refs as [|[k o] refs IH]; intros Hon; cbn [candidates]; [by apply wp_ret|].
  destruct (Hon (k, o)) as [p Hp]; [set_solver|]. apply wp_bind, (wp_player_at X k p); [done|].
  apply wp_bind. eapply wp_conseq; [apply IH; set_solver|]. cbv beta. intros ks w' [-> Hl]. apply wp_ret.
  split; [done|]. case_match; cbn; lia.
Qed.

Lemma members_few V a g : base V -> v_heap V !! a = Some (core g) -> (length (m_memberMgr g) <= 40)%nat.
Proof.
  intros HB Hg. pose proof (b_wf V HB a _ Hg) as [_ _ _ Hs _ _ Hn]. cbn in Hs, Hn.
  assert (Hlen : (length (m_memberMgr g) <= length (guids (m_memberSlots g)))%nat).
  { rewrite <- (length_fmap fst). apply submseteq_length, NoDup_submseteq.
    - apply NoDup_fmap_2_strong; [|done]. intros [k o] [k' o'] H1 H2 Hk. cbn in Hk. subst k'.
      destruct (b_mgr V HB a _ _ Hg H1) as [Ho _]. destruct (b_mgr V HB a _ _ Hg H2) as [Ho' _]. cbn in Ho, Ho'. by subst.
    - intros k ([k' o] & -> & Hin)%list_elem_of_fmap. destruct (b_mgr V HB a _ _ Hg Hin) as (_ & p & Hp & Ha).
      destruct (b_ref V HB _ p a Hp Ha) as (c & Hc & Hk & _). rewrite Hg in Hc. injection Hc as <-. exact Hk. }
  unfold guids in Hlen. rewrite length_fmap in Hlen. unfold capacity, MAX_GROUP_SIZE, MAX_RAID_SIZE in Hs. case_match; lia.
Qed.
Lemma MasterListPacket_sendable ks : (length ks <= 40)%nat -> sendable (MasterListPacket ks).
Proof.
  intros Hk. exists (packet SMSG_LOOT_MASTER_LIST (le_bytes 1 (u8 (Z.of_nat (length ks))) ++ concat ((fun k => le_bytes 8 k) <$> ks))).
  unfold MasterListPacket, pk_init. rewrite st_bind_mod.
  change (Initialize SMSG_LOOT_MASTER_LIST WorldPacket_empty) with (packet SMSG_LOOT_MASTER_LIST []).
  assert (Hc : Z.of_nat (length (concat ((fun k => le_bytes 8 k) <$> ks))) <= 320).
  { assert (length (concat ((fun k => le_bytes 8 k) <$> ks)) = (8 * length ks)%nat) as ->; [|lia].
    clear. induction ks as [|k ks IH]; [done|]. cbn [fmap list_fmap concat length]. rewrite length_app, length_le_bytes, IH. lia. }
  rewrite (st_bind_ok _ _ _ _ _ (builds_u8 0 _ [] ltac:(simpl; lia) ltac:(constructor))), app_nil_l.
  rewrite (st_bind_ok _ _ _ _ _ (builds_each pk_guid (fun k => le_bytes 8 k) ks
    ltac:(intros; split; auto with packets) SMSG_LOOT_MASTER_LIST [u8 0] ltac:(cbn [length]; lia) ltac:(auto with packets))).
  unfold pk_put_u8. apply (put_packet_at 1 SMSG_LOOT_MASTER_LIST [] [u8 0]); [done|]. cbn [length app]. lia.
Qed.
Lemma MasterLoot_wp X V a target l n k w :
  base V -> rolling_on V a l n w -> wp X (MasterLoot env a target l k) (fun _ w' => rolling_on V a l n w') w.
Proof.
  intros HB HR. pose proof HR as [(ls & HV & Hr & g & Hg & Hls) (x & Hx & Hn)]. unfold MasterLoot, loot_at.
  apply wp_bind, (wp_group_at X a g); [done|]. apply wp_bind, wp_bind, wp_look. apply (wp_deref X _ x); [done|].
  apply wp_bind, wp_alter_world. match goal with |- wp _ _ _ ?w' => set (w1 := w') end.
  assert (Ht : tidy_step w w1). { apply tidy_items. intros y. cbn. apply length_fmap. }
  apply wp_bind. unfold GetMembers. apply wp_bind, (wp_group_at X a g); [done|]. apply wp_ret. apply wp_bind.
  eapply wp_conseq; [apply candidates_wp; by eapply members_there|]. cbv beta. intros ks w' [-> Hks].
  assert (Hgv : v_heap V !! a = Some (core g)) by (rewrite <- HV; by apply view_group).
  pose proof (members_few V a g HB Hgv). apply wp_logs; [apply logs_send, MasterListPacket_sendable; lia|]. intros _.
  split; [exists ls; eapply rolling_tidy; [exact Ht|split_and!; eauto]|eapply loot_there_step; [exact Ht|by exists x]].
Qed.

(** Clearing a loot leaves no roll on it. *)
Lemma clear_loot_ok l w : aside_ok w -> aside_ok (clear_loot l w).
Proof.
  intros [Hr Hq]. split; [|done]. intros a g r l' Hg. unfold clear_loot in Hg. cbn in Hg. rewrite lookup_fmap in Hg.
  apply fmap_Some in Hg as (g0 & Hg0 & ->). cbn. intros (r0 & -> & Hr0)%list_elem_of_fmap. unfold drop_loot.
  case_bool_decide as Hl; [done|]. intros Hlo. assert (l <> l') by congruence. rewrite lookup_insert_ne by done. by eapply Hr.
Qed.
Lemma clear_loot_view l w : view (clear_loot l w) = view w.
Proof.
  unfold clear_loot, view. cbn. f_equal. apply map_eq. intros a. rewrite !lookup_fmap.
  by destruct (w_heap w !! a).
Qed.
End votes.
