(* ===== verification/GroupMoves.v ===== *)
(** * GroupMoves: the changes of membership and the invariant

    Each elementary change of a view - an invitation, its withdrawal, a member
    who joins or leaves, a new leader, a row written, a group that is made,
    registered, deleted, a player who comes or goes - keeps the invariant, with
    the group it concerns set apart where the change is half of a pair. *)

From stdpp Require Import gmap fin_maps strings.
From S2P Require Import Prelude ByteBuffer Codec ObjectGuid Packets Effects Incoming Social.
From S2P Require Import GroupData GroupRolls GroupLists LFG Group GroupRaid GroupHandlers MeetingStones GroupLife GroupInv.

Local Open Scope prog_scope.

(** ** Lists of slots *)

#[global] Arguments slot_in : simpl never.

Section slots.
Implicit Types (l : list MemberSlot) (m : MemberSlot) (k : Z).

Lemma slot_in_nil k : slot_in k [] = None.
Proof. done. Qed.
Lemma slot_in_cons k m l : slot_in k (m :: l) = if decide (ms_guid m = k) then Some m else slot_in k l.
Proof.
  unfold slot_in. cbn [list_find]. destruct (decide (ms_guid m = k)); [done|].
  by destruct (list_find _ l) as [[]|].
Qed.
Lemma slot_in_Some k l m : slot_in k l = Some m -> m ∈ l /\ ms_guid m = k.
Proof.
  induction l as [|x l IH]; [done|]. rewrite slot_in_cons. case_decide; [intros [= <-]; by split; [left|]|].
  intros [? ?]%IH. split; [by right|done].
Qed.
Lemma slot_in_None k l : slot_in k l = None <-> k ∉ guids l.
Proof.
  induction l as [|x l IH]; [set_solver|]. rewrite slot_in_cons. unfold guids in *. cbn.
  rewrite not_elem_of_cons. case_decide; [naive_solver|]. rewrite IH. naive_solver.
Qed.
Lemma slot_in_is_Some k l : is_Some (slot_in k l) <-> k ∈ guids l.
Proof.
  rewrite <- not_eq_None_Some, slot_in_None. split; [|tauto]. intros H. by destruct (decide (k ∈ guids l)).
Qed.
Lemma slot_in_elem l m : NoDup (guids l) -> m ∈ l -> slot_in (ms_guid m) l = Some m.
Proof.
  induction l as [|x l IH]; [set_solver|]. unfold guids. cbn. rewrite NoDup_cons, slot_in_cons.
  intros [Hx Hn] [->|Hm]%elem_of_cons; [by rewrite decide_True|]. rewrite decide_False; [by apply IH|].
  intros He. apply Hx. rewrite He. by apply list_elem_of_fmap_2.
Qed.
Lemma slot_in_app k l1 l2 :
  slot_in k (l1 ++ l2) = match slot_in k l1 with Some m => Some m | None => slot_in k l2 end.
Proof. induction l1 as [|x l IH]; [done|]. cbn [app]. rewrite !slot_in_cons. by case_decide. Qed.

Lemma guids_erase k l : NoDup (guids l) -> guids (erase_slot k l) = filter (fun i => i <> k) (guids l).
Proof.
  induction l as [|x l IH]; [done|]. unfold guids in *. cbn [erase_slot fmap list_fmap]. rewrite NoDup_cons. intros [Hx Hn].
  rewrite filter_cons. destruct (Z.eqb_spec (ms_guid x) k) as [<-|Hne].
  - rewrite decide_False by tauto. rewrite filter_all; [done|]. apply Forall_forall. intros i Hi ->. done.
  - rewrite decide_True by done. cbn [fmap list_fmap]. f_equal. by apply IH.
Qed.
Lemma slot_in_erase k i l : NoDup (guids l) ->
  slot_in i (erase_slot k l) = if decide (i = k) then None else slot_in i l.
Proof.
  induction l as [|x l IH]; intros Hn; [by case_decide|]. unfold guids in Hn. cbn in Hn. rewrite NoDup_cons in Hn.
  destruct Hn as [Hx Hn]. cbn [erase_slot]. destruct (Z.eqb_spec (ms_guid x) k) as [<-|Hne].
  - rewrite slot_in_cons. destruct (decide (i = ms_guid x)) as [->|].
    + by apply slot_in_None.
    + by rewrite decide_False by congruence.
  - rewrite !slot_in_cons. destruct (decide (ms_guid x = i)) as [<-|]; [by rewrite decide_False|]. by apply IH.
Qed.
Lemma erase_sub k l m : m ∈ erase_slot k l -> m ∈ l.
Proof. induction l as [|x l IH]; [done|]. cbn. case_match; set_solver. Qed.
Lemma erase_none k l : k ∉ guids l -> erase_slot k l = l.
Proof.
  unfold guids. induction l as [|x l IH]; [done|]. cbn. intros H. apply not_elem_of_cons in H as [H1 H2].
  destruct (Z.eqb_spec (ms_guid x) k); [congruence|]. by rewrite IH.
Qed.
Lemma length_erase k l : k ∈ guids l -> length l = S (length (erase_slot k l)).
Proof.
  unfold guids. induction l as [|x l IH]; [set_solver|]. cbn. destruct (Z.eqb_spec (ms_guid x) k); [done|].
  intros [->|H]%elem_of_cons; [done|]. cbn. f_equal. by apply IH.
Qed.

Lemma guids_alter k f l : (forall m, ms_guid (f m) = ms_guid m) -> guids (alter_slot k f l) = guids l.
Proof. intros Hf. unfold guids. induction l as [|x l IH]; [done|]. cbn. case_match; cbn; congruence. Qed.
Lemma slot_in_alter k f i l : (forall m, ms_guid (f m) = ms_guid m) ->
  slot_in i (alter_slot k f l) = if decide (i = k) then f <$> slot_in i l else slot_in i l.
Proof.
  intros Hf. induction l as [|x l IH]; [by case_decide|]. cbn [alter_slot].
  destruct (Z.eqb_spec (ms_guid x) k) as [<-|Hne]; rewrite !slot_in_cons, ?Hf.
  - destruct (decide (ms_guid x = i)) as [<-|]; [by rewrite decide_True|]. by rewrite decide_False by done.
  - destruct (decide (ms_guid x = i)) as [<-|]; [by rewrite decide_False|]. apply IH.
Qed.
Lemma length_alter_slot k f l : length (alter_slot k f l) = length l.
Proof. induction l as [|x l IH]; [done|]. cbn. case_match; cbn; congruence. Qed.
Lemma Forall_alter_slot (Q : MemberSlot -> Prop) k f l :
  (forall m, Q m -> Q (f m)) -> Forall Q l -> Forall Q (alter_slot k f l).
Proof. intros Hf. induction 1 as [|x l Hx Hl IH]; cbn; [constructor|]. case_match; constructor; auto. Qed.
Lemma Forall_erase (Q : MemberSlot -> Prop) k l : Forall Q l -> Forall Q (erase_slot k l).
Proof. rewrite !Forall_forall. intros H m Hm. apply H. by eapply erase_sub. Qed.

(** ** Counting the members of subgroups *)

Definition unit_at (b : bool) : Z := if b then 1 else 0.
Lemma sub_count_cons m l i : sub_count (m :: l) i = unit_at (ms_group m =? i) + sub_count l i.
Proof.
  unfold sub_count, unit_at. rewrite filter_cons. destruct (Z.eqb_spec (ms_group m) i).
  - rewrite decide_True by done. cbn [length]. lia.
  - rewrite decide_False by done. lia.
Qed.
Lemma sub_count_app l1 l2 i : sub_count (l1 ++ l2) i = sub_count l1 i + sub_count l2 i.
Proof. unfold sub_count. rewrite filter_app, length_app. lia. Qed.
Lemma sub_count_range l i : 0 <= sub_count l i <= Z.of_nat (length l).
Proof. unfold sub_count. pose proof (length_filter (fun m => ms_group m = i) l). lia. Qed.
Lemma sub_count_erase k m l i : slot_in k l = Some m ->
  sub_count l i = sub_count (erase_slot k l) i + unit_at (ms_group m =? i).
Proof.
  induction l as [|x l IH]; [done|]. rewrite slot_in_cons. cbn [erase_slot].
  destruct (Z.eqb_spec (ms_guid x) k) as [He|Hne]; case_decide; try done.
  - intros [= ->]. rewrite sub_count_cons. lia.
  - intros Hm. rewrite !sub_count_cons, (IH Hm). lia.
Qed.
Lemma sub_count_move k m v l i : slot_in k l = Some m ->
  sub_count (alter_slot k (ms_set_group v) l) i + unit_at (ms_group m =? i) = sub_count l i + unit_at (v =? i).
Proof.
  induction l as [|x l IH]; [done|]. rewrite slot_in_cons. cbn [alter_slot].
  destruct (Z.eqb_spec (ms_guid x) k) as [He|Hne]; case_decide; try done.
  - intros [= ->]. rewrite !sub_count_cons. cbn [ms_group ms_set_group]. lia.
  - intros Hm. specialize (IH Hm). rewrite !sub_count_cons. lia.
Qed.

Lemma raid_counts_lookup l (i : nat) : (i < 8)%nat -> raid_counts l !! i = Some (sub_count l (Z.of_nat i)).
Proof.
  intros Hi. unfold raid_counts. rewrite list_lookup_fmap, lookup_seqZ_lt by lia. done.
Qed.
Lemma length_raid_counts l : length (raid_counts l) = 8%nat.
Proof. unfold raid_counts. by rewrite length_fmap, length_seqZ. Qed.
(** Two lists with the same numbers in every subgroup. *)
Lemma raid_counts_eq l (c : list Z) :
  length c = 8%nat -> (forall i : nat, (i < 8)%nat -> c !! i = Some (sub_count l (Z.of_nat i))) -> c = raid_counts l.
Proof.
  intros Hl Hc. apply list_eq. intros i. destruct (decide (i < 8)%nat).
  - by rewrite Hc, raid_counts_lookup.
  - rewrite !lookup_ge_None_2; [done|rewrite length_raid_counts|]; lia.
Qed.
End slots.

(** ** Groups that change in place *)

Definition keeps_members (c c' : GCore) : Prop :=
  guids (c_slots c') = guids (c_slots c) /\ c_mgr c' = c_mgr c /\ c_inv c' = c_inv c /\ c_id c' = c_id c.

Lemma guids_nil l : guids l = [] <-> l = [].
Proof. unfold guids. split; [by intros ?%fmap_nil_inv|by intros ->]. Qed.

Section changes.
Context (V : View).
Implicit Types (a b k : Z) (c d : GCore) (p q : PCore).

(** [b] is [a], or another group. *)
Ltac group_cases H := apply lookup_insert_Some in H as [[<- <-]|[? H]].

Lemma base_group a c c' : base V -> v_heap V !! a = Some c -> keeps_members c c' -> group_ok c' -> base (v_put_g a c' V).
Proof.
  intros HB Ha (Hg & Hm & Hi & Hid) Hok.
  assert (Hback : forall b d', <[a := c']> (v_heap V) !! b = Some d' ->
    exists d, v_heap V !! b = Some d /\ keeps_members d d').
  { intros b d' [[<- <-]|[? Hb]]%lookup_insert_Some; [by exists c|]. exists d'. by split. }
  assert (Hforth : forall b d, v_heap V !! b = Some d ->
    exists d', <[a := c']> (v_heap V) !! b = Some d' /\ keeps_members d d').
  { intros b d Hb. destruct (decide (a = b)) as [<-|].
    - exists c'. rewrite lookup_insert_eq. by simplify_eq.
    - exists d. by rewrite lookup_insert_ne. }
  destruct HB as [B1 B2 B3 B4 B5 B6 B7 B8 B9 B10 B11 B12 B13 B14]. split; cbn; try done.
  - intros b d' (d & Hd & _)%Hback. eauto.
  - intros b d' Hb. group_cases Hb; [done|]. eauto.
  - intros k p b Hp Hb. destruct (B4 k p b Hp Hb) as (d & Hd & Hk & Hin).
    destruct (Hforth b d Hd) as (d' & Hd' & E1 & E2 & _). exists d'. by rewrite E1, E2.
  - intros b d' e (d & Hd & _ & -> & _)%Hback. eauto.
  - intros k p b Hp Hb. destruct (B6 k p b Hp Hb) as (? & d & Hd & Hk). split; [done|].
    destruct (Hforth b d Hd) as (d' & Hd' & _ & _ & E & _). exists d'. by rewrite E.
  - intros b d' k (d & Hd & _ & _ & -> & _)%Hback. eauto.
  - intros b1 b2 d1' d2' k (d1 & Hd1 & -> & _)%Hback (d2 & Hd2 & -> & _)%Hback. eauto.
  - intros b d' (d & Hd & Hgd & _ & _ & ->)%Hback. destruct (B9 b d Hd) as [? He]. split; [done|].
    intros H0%He. rewrite <- guids_nil, Hgd, H0. done.
  - intros b1 b2 d1' d2' (d1 & Hd1 & _ & _ & _ & ->)%Hback (d2 & Hd2 & _ & _ & _ & ->)%Hback. eauto.
  - intros id b Hb. destruct (B11 id b Hb) as (d & Hd & <- & ?). destruct (Hforth b d Hd) as (d' & Hd' & _ & _ & _ & He).
    exists d'. by rewrite He.
  - intros id r Hr. destruct (B12 id r Hr) as (b & d & Hd & <- & ?). destruct (Hforth b d Hd) as (d' & Hd' & _ & _ & _ & He).
    exists b, d'. by rewrite He.
  - intros id k r Hr. destruct (B13 id k r Hr) as (b & d & Hd & <- & ?). destruct (Hforth b d Hd) as (d' & Hd' & _ & _ & _ & He).
    exists b, d'. by rewrite He.
Qed.

(** Everything but [a] is untouched: what holds of the others still holds. *)
Lemma others_group x a c' : inv_but x V ->
  forall b d, <[a := c']> (v_heap V) !! b = Some d -> b <> a -> Some b <> x ->
  linked (v_put_g a c' V) b d /\ settled_group (v_put_g a c' V) b d.
Proof.
  intros [_ H] b d Hb Hne Hx. rewrite lookup_insert_ne in Hb by done. destruct (H b d Hb Hx) as [[L1 L2 L3] S].
  split; [split|]; done.
Qed.
(** A changed group that is in order again. *)
Lemma inv_group x a c c' :
  inv_but x V -> v_heap V !! a = Some c -> keeps_members c c' -> group_ok c' ->
  (Some a <> x -> linked (v_put_g a c' V) a c' /\ settled_group (v_put_g a c' V) a c') -> inv_but x (v_put_g a c' V).
Proof.
  intros HI Ha Hk Hok Hnew. split; [eapply base_group; eauto; apply HI|]. intros b d Hb Hx.
  destruct (decide (b = a)) as [->|Hne]; [|by eapply others_group].
  cbn in Hb. rewrite lookup_insert_eq in Hb. injection Hb as <-. auto.
Qed.
(** Setting a group apart, and putting it back. *)
Lemma inv_open a : inv V -> inv_but (Some a) V.
Proof. intros [HB H]. split; [done|]. intros b d Hb _. by apply H. Qed.
Lemma inv_close a c : inv_but (Some a) V -> v_heap V !! a = Some c -> linked V a c -> settled_group V a c -> inv V.
Proof.
  intros [HB H] Ha Hl Hs. split; [done|]. intros b d Hb _. destruct (decide (b = a)) as [->|]; [by simplify_eq|].
  apply H; congruence.
Qed.
Lemma inv_close_none a : inv_but (Some a) V -> v_heap V !! a = None -> inv V.
Proof. intros [HB H] Ha. split; [done|]. intros b d Hb _. apply H; congruence. Qed.

(** ** Invitations *)

Definition uninvited (p : PCore) : PCore :=
  mkPC (p_guid p) (p_name p) (p_world p) (p_group p) (p_sub p) (p_orig p) (p_origSub p) None.
Definition drop_invites (s : gset Z) (ps : gmap Z PCore) : gmap Z PCore :=
  map_imap (fun k p => Some (if decide (k ∈ s) then uninvited p else p)) ps.
Definition set_inv (s : gset Z) (c : GCore) : GCore :=
  mkGC (c_slots c) (c_mgr c) s (c_leader c) (c_name c) (c_id c) (c_type c) (c_bg c) (c_counts c) (c_icons c).

Lemma lookup_drop_invites s ps k q : drop_invites s ps !! k = Some q <->
  exists p, ps !! k = Some p /\ q = if decide (k ∈ s) then uninvited p else p.
Proof.
  unfold drop_invites. rewrite map_lookup_imap. destruct (ps !! k) as [p|]; cbn; [|naive_solver].
  split; [intros [= <-]; eauto|]. by intros (? & [= <-] & ->).
Qed.

(** Some or all invitations of the group at [a] are taken back. *)
Definition v_uninvite (a : Z) (c : GCore) (s : gset Z) : View :=
  v_put_g a (set_inv (c_inv c ∖ s) c) (v_set_ps (drop_invites s (v_ps V)) V).
Lemma base_uninvite a c s : base V -> v_heap V !! a = Some c -> s ⊆ c_inv c -> base (v_uninvite a c s).
Proof.
  intros HB Ha Hs. destruct HB as [B1 B2 B3 B4 B5 B6 B7 B8 B9 B10 B11 B12 B13 B14].
  assert (Hforth : forall b d, v_heap V !! b = Some d -> exists d', <[a := set_inv (c_inv c ∖ s) c]> (v_heap V) !! b = Some d'
    /\ c_slots d' = c_slots d /\ c_mgr d' = c_mgr d /\ c_id d' = c_id d /\ (c_inv d' = c_inv d \/ b = a /\ c_inv d' = c_inv d ∖ s)).
  { intros b d Hb. destruct (decide (a = b)) as [<-|].
    - exists (set_inv (c_inv c ∖ s) c). rewrite lookup_insert_eq. simplify_eq. split_and!; auto.
    - exists d. rewrite lookup_insert_ne by done. split_and!; auto. }
  split; cbn; try done.
  - intros b d Hb. group_cases Hb; eauto.
  - intros b d Hb. group_cases Hb; [|eauto]. destruct (B2 a c Ha) as [? ? ? ? ? ? ?]. by split.
  - intros k q (p & Hp & ->)%lookup_drop_invites. destruct (B3 k p Hp) as [? ? ? ? ?]. by case_decide.
  - intros k q b (p & Hp & ->)%lookup_drop_invites Hb. assert (p_group p = Some b) by (by case_decide).
    destruct (B4 k p b Hp) as (d & Hd & Hk & Hin); [done|]. destruct (Hforth b d Hd) as (d' & Hd' & E1 & E2 & _).
    exists d'. by rewrite E1, E2.
  - intros b d e Hb Hin. assert (exists d0, v_heap V !! b = Some d0 /\ e ∈ c_mgr d0) as (d0 & H0 & He).
    { group_cases Hb; [by exists c|by exists d]. }
    destruct (B5 b d0 e H0 He) as (? & p & Hp & Hg). split; [done|].
    exists (if decide (e.1 ∈ s) then uninvited p else p). split; [apply lookup_drop_invites; eauto|by case_decide].
  - intros k q b (p & Hp & ->)%lookup_drop_invites Hb. case_decide as Hin; [done|].
    destruct (B6 k p b Hp Hb) as (? & d & Hd & Hk). split; [done|].
    destruct (Hforth b d Hd) as (d' & Hd' & _ & _ & _ & Hi). exists d'. split; [done|]. destruct Hi as [->|[_ ->]]; set_solver.
  - intros b d k Hb Hin. group_cases Hb; cbn in Hin.
    + destruct (B7 a c k Ha) as (p & Hp & Hpa); [set_solver|]. exists p. split; [|done].
      apply lookup_drop_invites. exists p. split; [done|]. by rewrite decide_False by set_solver.
    + destruct (B7 b d k Hb Hin) as (p & Hp & Hpb). exists p. split; [|done]. apply lookup_drop_invites. exists p.
      split; [done|]. rewrite decide_False; [done|]. intros Hks%Hs. destruct (B7 a c k Ha Hks) as (p' & ? & ?). congruence.
  - intros b1 b2 d1 d2 k H1 H2. group_cases H1; group_cases H2; cbn; eauto.
  - intros b d Hb. group_cases Hb; cbn; eauto.
  - intros b1 b2 d1 d2 H1 H2. group_cases H1; group_cases H2; cbn; eauto.
  - intros id b Hb. destruct (B11 id b Hb) as (d & Hd & <- & ?). destruct (Hforth b d Hd) as (d' & ? & _ & _ & He & _).
    exists d'. by rewrite He.
  - intros id r Hr. destruct (B12 id r Hr) as (b & d & Hd & <- & ?). destruct (Hforth b d Hd) as (d' & ? & _ & _ & He & _).
    exists b, d'. by rewrite He.
  - intros id k r Hr. destruct (B13 id k r Hr) as (b & d & Hd & <- & ?). destruct (Hforth b d Hd) as (d' & ? & _ & _ & He & _).
    exists b, d'. by rewrite He.
Qed.

Definition invited_by (a : Z) (p : PCore) : PCore :=
  mkPC (p_guid p) (p_name p) (p_world p) (p_group p) (p_sub p) (p_orig p) (p_origSub p) (Some a).
Lemma base_invite a c k p :
  base V -> v_heap V !! a = Some c -> v_ps V !! k = Some p -> p_group p = None -> p_invite p = None ->
  base (v_put_p k (invited_by a p) (v_put_g a (set_inv ({[k]} ∪ c_inv c) c) V)).
Proof.
  intros HB Ha Hk Hg Hi. destruct HB as [B1 B2 B3 B4 B5 B6 B7 B8 B9 B10 B11 B12 B13 B14].
  assert (Hforth : forall b d, v_heap V !! b = Some d -> exists d', <[a := set_inv ({[k]} ∪ c_inv c) c]> (v_heap V) !! b = Some d'
    /\ c_slots d' = c_slots d /\ c_mgr d' = c_mgr d /\ c_id d' = c_id d /\ c_inv d ⊆ c_inv d').
  { intros b d Hb. destruct (decide (a = b)) as [<-|].
    - exists (set_inv ({[k]} ∪ c_inv c) c). rewrite lookup_insert_eq. simplify_eq. split_and!; cbn; auto. set_solver.
    - exists d. by rewrite lookup_insert_ne. }
  split; cbn; try done.
  - intros b d Hb. group_cases Hb; eauto.
  - intros b d Hb. group_cases Hb; [|eauto]. destruct (B2 a c Ha) as [? ? ? ? ? ? ?]. by split.
  - intros k' q Hq. group_cases Hq; [destruct (B3 k p Hk) as [? ? ? ? ?]; by split|eauto].
  - intros k' q b Hq Hb. assert (exists q0, v_ps V !! k' = Some q0 /\ p_group q0 = Some b) as (q0 & H0 & Hb0).
    { group_cases Hq; eauto. }
    destruct (B4 k' q0 b H0 Hb0) as (d & Hd & ? & ?). destruct (Hforth b d Hd) as (d' & Hd' & E1 & E2 & _).
    exists d'. by rewrite E1, E2.
  - intros b d e Hb Hin. assert (exists d0, v_heap V !! b = Some d0 /\ e ∈ c_mgr d0) as (d0 & H0 & He).
    { group_cases Hb; [by exists c|by exists d]. }
    destruct (B5 b d0 e H0 He) as (? & q & Hq & Hgq). split; [done|]. destruct (decide (k = e.1)) as [E|].
    + rewrite <- E in Hq. congruence.
    + exists q. by rewrite lookup_insert_ne.
  - intros k' q b Hq Hb. group_cases Hq.
    + split; [done|]. injection Hb as <-. exists (set_inv ({[k]} ∪ c_inv c) c). rewrite lookup_insert_eq.
      split; [done|]. cbn. set_solver.
    + destruct (B6 k' q b Hq Hb) as (? & d & Hd & ?). split; [done|].
      destruct (Hforth b d Hd) as (d' & Hd' & _ & _ & _ & Hs). exists d'. split; [done|set_solver].
  - intros b d k' Hb Hin. destruct (decide (k = k')) as [<-|Hne].
    + exists (invited_by a p). rewrite lookup_insert_eq. split; [done|]. cbn. f_equal. group_cases Hb; [done|].
      destruct (B7 b d k Hb Hin) as (q & ? & ?). congruence.
    + rewrite lookup_insert_ne by done. group_cases Hb; [apply (B7 a c); [done|cbn in Hin; set_solver]|eauto].
  - intros b1 b2 d1 d2 k' H1 H2. group_cases H1; group_cases H2; cbn; eauto.
  - intros b d Hb. group_cases Hb; cbn; eauto.
  - intros b1 b2 d1 d2 H1 H2. group_cases H1; group_cases H2; cbn; eauto.
  - intros id b Hb. destruct (B11 id b Hb) as (d & Hd & <- & ?). destruct (Hforth b d Hd) as (d' & ? & _ & _ & He & _).
    exists d'. by rewrite He.
  - intros id r Hr. destruct (B12 id r Hr) as (b & d & Hd & <- & ?). destruct (Hforth b d Hd) as (d' & ? & _ & _ & He & _).
    exists b, d'. by rewrite He.
  - intros id k' r Hr. destruct (B13 id k' r Hr) as (b & d & Hd & <- & ?). destruct (Hforth b d Hd) as (d' & ? & _ & _ & He & _).
    exists b, d'. by rewrite He.
Qed.

(** ** References *)

Definition set_mgr (l : list (Z * bool)) (c : GCore) : GCore :=
  mkGC (c_slots c) l (c_inv c) (c_leader c) (c_name c) (c_id c) (c_type c) (c_bg c) (c_counts c) (c_icons c).
Definition refer (o : option Z) (sub : Z) (p : PCore) : PCore :=
  mkPC (p_guid p) (p_name p) (p_world p) o sub (p_orig p) (p_origSub p) (p_invite p).

(** A change of one player's reference and of the references of one group. *)
Lemma base_refer a c k p l o sub :
  base V -> v_heap V !! a = Some c -> v_ps V !! k = Some p -> NoDup l ->
  (forall e, e ∈ l -> e = (k, false) /\ o = Some a \/ e.1 <> k /\ e ∈ c_mgr c) ->
  (forall e, e ∈ c_mgr c -> e.1 <> k -> e ∈ l) ->
  (p_group p = None \/ p_group p = Some a) -> (is_Some o -> o = Some a /\ k ∈ guids (c_slots c) /\ (k, false) ∈ l /\ p_invite p = None) ->
  base (v_put_p k (refer o sub p) (v_put_g a (set_mgr l c) V)).
Proof.
  intros HB Ha Hk Hn Hl Hl' Hp Ho. destruct HB as [B1 B2 B3 B4 B5 B6 B7 B8 B9 B10 B11 B12 B13 B14].
  assert (Hforth : forall b d, v_heap V !! b = Some d -> exists d', <[a := set_mgr l c]> (v_heap V) !! b = Some d'
    /\ c_slots d' = c_slots d /\ c_inv d' = c_inv d /\ c_id d' = c_id d /\ (d' = d /\ b <> a \/ b = a /\ d = c /\ c_mgr d' = l)).
  { intros b d Hb. destruct (decide (a = b)) as [<-|].
    - exists (set_mgr l c). rewrite lookup_insert_eq. simplify_eq. split_and!; auto.
    - exists d. rewrite lookup_insert_ne by done. split_and!; auto. }
  split; cbn; try done.
  - intros b d Hb. group_cases Hb; eauto.
  - intros b d Hb. group_cases Hb; [|eauto]. destruct (B2 a c Ha) as [? ? ? ? ? ? ?]. by split.
  - intros k' q Hq. group_cases Hq; [destruct (B3 k p Hk) as [? ? ? ? ?]; by split|eauto].
  - intros k' q b Hq Hb. group_cases Hq.
    + cbn in Hb. subst o. destruct Ho as (E & Hin & Hil & _); [done|]. injection E as ->.
      exists (set_mgr l c). by rewrite lookup_insert_eq.
    + destruct (B4 k' q b Hq Hb) as (d & Hd & ? & Hin). destruct (Hforth b d Hd) as (d' & Hd' & E1 & _ & _ & [[-> _]|(-> & -> & E2)]).
      * by exists d.
      * exists d'. rewrite E1, E2. split_and!; [done..|]. by apply Hl'.
  - intros b d e Hb Hin. group_cases Hb.
    + cbn in Hin. destruct (Hl e Hin) as [[-> ->]|[Hne Hin']].
      * split; [done|]. exists (refer (Some a) sub p). by rewrite lookup_insert_eq.
      * destruct (B5 a c e Ha Hin') as (? & q & Hq & Hgq). split; [done|]. exists q. by rewrite lookup_insert_ne.
    + destruct (B5 b d e Hb Hin) as (? & q & Hq & Hgq). split; [done|]. destruct (decide (k = e.1)) as [E|].
      * rewrite <- E in Hq. destruct Hp; congruence.
      * exists q. by rewrite lookup_insert_ne.
  - intros k' q b Hq Hb. group_cases Hq.
    + cbn in Hb. destruct (B6 k p b Hk Hb) as (? & d & Hd & ?). split.
      * cbn. destruct o; [|done]. destruct Ho as (_ & _ & _ & Hi); [done|]. congruence.
      * destruct (Hforth b d Hd) as (d' & Hd' & _ & Hs & _). exists d'. by rewrite Hs.
    + destruct (B6 k' q b Hq Hb) as (? & d & Hd & ?). split; [done|].
      destruct (Hforth b d Hd) as (d' & Hd' & _ & Hs & _). exists d'. by rewrite Hs.
  - intros b d k' Hb Hin. assert (exists d0, v_heap V !! b = Some d0 /\ k' ∈ c_inv d0) as (d0 & H0 & He).
    { group_cases Hb; [by exists c|by exists d]. }
    destruct (B7 b d0 k' H0 He) as (q & Hq & Hi). destruct (decide (k = k')) as [<-|].
    + exists (refer o sub p). rewrite lookup_insert_eq. split; [done|]. cbn. congruence.
    + exists q. by rewrite lookup_insert_ne.
  - intros b1 b2 d1 d2 k' H1 H2. group_cases H1; group_cases H2; cbn; eauto.
  - intros b d Hb. group_cases Hb; cbn; eauto.
  - intros b1 b2 d1 d2 H1 H2. group_cases H1; group_cases H2; cbn; eauto.
  - intros id b Hb. destruct (B11 id b Hb) as (d & Hd & <- & ?). destruct (Hforth b d Hd) as (d' & ? & _ & _ & He & _).
    exists d'. by rewrite He.
  - intros id r Hr. destruct (B12 id r Hr) as (b & d & Hd & <- & ?). destruct (Hforth b d Hd) as (d' & ? & _ & _ & He & _).
    exists b, d'. by rewrite He.
  - intros id k' r Hr. destruct (B13 id k' r Hr) as (b & d & Hd & <- & ?). destruct (Hforth b d Hd) as (d' & ? & _ & _ & He & _).
    exists b, d'. by rewrite He.
Qed.

(** ** Slots, identities, tables *)

(** The slots of a group change: whoever is new was in no group, and whoever
    refers to the group stays. *)
Lemma base_slots a c c' :
  base V -> v_heap V !! a = Some c -> group_ok c' -> c_mgr c' = c_mgr c -> c_inv c' = c_inv c -> c_id c' = c_id c ->
  (c_id c = 0 -> c_slots c' = []) ->
  (forall k, k ∈ guids (c_slots c') -> k ∈ guids (c_slots c) \/ forall b d, v_heap V !! b = Some d -> k ∉ guids (c_slots d)) ->
  (forall k p, v_ps V !! k = Some p -> p_group p = Some a -> k ∈ guids (c_slots c')) ->
  base (v_put_g a c' V).
Proof.
  intros HB Ha Hok Hm Hi Hid H0 Hnew Hold. destruct HB as [B1 B2 B3 B4 B5 B6 B7 B8 B9 B10 B11 B12 B13 B14].
  assert (Hforth : forall b d, v_heap V !! b = Some d -> exists d', <[a := c']> (v_heap V) !! b = Some d'
    /\ c_mgr d' = c_mgr d /\ c_inv d' = c_inv d /\ c_id d' = c_id d /\ (d' = d \/ b = a /\ d' = c')).
  { intros b d Hb. destruct (decide (a = b)) as [<-|].
    - exists c'. rewrite lookup_insert_eq. simplify_eq. split_and!; auto.
    - exists d. rewrite lookup_insert_ne by done. split_and!; auto. }
  split; cbn; try done.
  - intros b d Hb. group_cases Hb; eauto.
  - intros b d Hb. group_cases Hb; eauto.
  - intros k p b Hp Hb. destruct (B4 k p b Hp Hb) as (d & Hd & Hk & Hin).
    destruct (Hforth b d Hd) as (d' & Hd' & E1 & _ & _ & [->|[-> ->]]); [by exists d|].
    exists c'. rewrite E1. split_and!; eauto.
  - intros b d e Hb Hin. group_cases Hb; [rewrite Hm in Hin|]; eauto.
  - intros k p b Hp Hb. destruct (B6 k p b Hp Hb) as (? & d & Hd & ?). split; [done|].
    destruct (Hforth b d Hd) as (d' & Hd' & _ & E & _). exists d'. by rewrite E.
  - intros b d k Hb Hin. group_cases Hb; [rewrite Hi in Hin|]; eauto.
  - intros b1 b2 d1 d2 k H1 H2 Hk1 Hk2. group_cases H1; group_cases H2; [done| | |eauto].
    + destruct (Hnew k Hk1) as [?|Hf]; [eauto|by destruct (Hf b2 d2 H2)].
    + destruct (Hnew k Hk2) as [?|Hf]; [eauto|by destruct (Hf b1 d1 H1)].
  - intros b d Hb. group_cases Hb; [rewrite Hid; split; [by apply (B9 a c)|auto]|eauto].
  - intros b1 b2 d1 d2 H1 H2. group_cases H1; group_cases H2; rewrite ?Hid; eauto.
  - intros id b Hb. destruct (B11 id b Hb) as (d & Hd & <- & ?). destruct (Hforth b d Hd) as (d' & ? & _ & _ & He & _).
    exists d'. by rewrite He.
  - intros id r Hr. destruct (B12 id r Hr) as (b & d & Hd & <- & ?). destruct (Hforth b d Hd) as (d' & ? & _ & _ & He & _).
    exists b, d'. by rewrite He.
  - intros id k' r Hr. destruct (B13 id k' r Hr) as (b & d & Hd & <- & ?). destruct (Hforth b d Hd) as (d' & ? & _ & _ & He & _).
    exists b, d'. by rewrite He.
Qed.

(** The registry, the tables and the next id change. *)
Definition v_tables (reg : gmap Z Z) (ids : Z) (gs : gmap Z (Z * bool)) (rows : gmap (Z * Z) member_row) : View :=
  mkV (v_heap V) (v_ps V) (v_next V) reg ids gs rows.
Lemma base_tables reg ids gs rows :
  base V -> v_ids V <= ids <= 2 ^ 32 ->
  (forall id a, reg !! id = Some a -> exists c, v_heap V !! a = Some c /\ c_id c = id /\ id <> 0) ->
  (forall id r, gs !! id = Some r -> exists a c, v_heap V !! a = Some c /\ c_id c = id /\ id <> 0) ->
  (forall id k r, rows !! (id, k) = Some r -> exists a c, v_heap V !! a = Some c /\ c_id c = id /\ id <> 0) ->
  base (v_tables reg ids gs rows).
Proof.
  intros HB Hids Hreg Hgs Hrows. destruct HB as [B1 B2 B3 B4 B5 B6 B7 B8 B9 B10 B11 B12 B13 B14].
  split; cbn; try done; [|lia]. intros b d Hb. destruct (B9 b d Hb). split; [lia|done].
Qed.

(** A group that is created takes the next id. *)
Definition set_id (id : Z) (c : GCore) : GCore :=
  mkGC (c_slots c) (c_mgr c) (c_inv c) (c_leader c) (c_name c) id (c_type c) (c_bg c) (c_counts c) (c_icons c).
Lemma base_set_id a c :
  base V -> v_heap V !! a = Some c -> c_id c = 0 -> v_ids V + 1 <= 2 ^ 32 ->
  base (mkV (<[a := set_id (v_ids V) c]> (v_heap V)) (v_ps V) (v_next V) (v_reg V) (v_ids V + 1) (v_groups V) (v_rows V)).
Proof.
  intros HB Ha H0 Hids. destruct HB as [B1 B2 B3 B4 B5 B6 B7 B8 B9 B10 B11 B12 B13 B14].
  assert (Hforth : forall b d, v_heap V !! b = Some d -> exists d', <[a := set_id (v_ids V) c]> (v_heap V) !! b = Some d'
    /\ c_slots d' = c_slots d /\ c_mgr d' = c_mgr d /\ c_inv d' = c_inv d /\ (d' = d \/ c_id d = 0)).
  { intros b d Hb. destruct (decide (a = b)) as [<-|].
    - exists (set_id (v_ids V) c). rewrite lookup_insert_eq. simplify_eq. split_and!; auto.
    - exists d. rewrite lookup_insert_ne by done. split_and!; auto. }
  split; cbn; try done; [..|lia].
  - intros b d Hb. group_cases Hb; eauto.
  - intros b d Hb. group_cases Hb; [|eauto]. destruct (B2 a c Ha) as [? ? ? ? ? ? ?]. by split.
  - intros k p b Hp Hb. destruct (B4 k p b Hp Hb) as (d & Hd & Hk & Hin).
    destruct (Hforth b d Hd) as (d' & Hd' & E1 & E2 & _). exists d'. by rewrite E1, E2.
  - intros b d e Hb Hin. group_cases Hb; eauto.
  - intros k p b Hp Hb. destruct (B6 k p b Hp Hb) as (? & d & Hd & ?). split; [done|].
    destruct (Hforth b d Hd) as (d' & Hd' & _ & _ & E & _). exists d'. by rewrite E.
  - intros b d k Hb Hin. group_cases Hb; eauto.
  - intros b1 b2 d1 d2 k H1 H2. group_cases H1; group_cases H2; cbn; eauto.
  - intros b d Hb. group_cases Hb; cbn; [split; [lia|intros E; lia]|]. destruct (B9 b d Hb). split; [lia|done].
  - intros b1 b2 d1 d2 H1 H2. group_cases H1; group_cases H2; cbn; [done| | |eauto]; intros E _.
    + destruct (B9 b2 d2 H2). lia.
    + destruct (B9 b1 d1 H1). lia.
  - intros id b Hb. destruct (B11 id b Hb) as (d & Hd & <- & ?).
    destruct (Hforth b d Hd) as (d' & Hd' & _ & _ & _ & [->|?]); [by exists d|done].
  - intros id r Hr. destruct (B12 id r Hr) as (b & d & Hd & <- & ?).
    destruct (Hforth b d Hd) as (d' & Hd' & _ & _ & _ & [->|?]); [by exists b, d|done].
  - intros id k r Hr. destruct (B13 id k r Hr) as (b & d & Hd & <- & ?).
    destruct (Hforth b d Hd) as (d' & Hd' & _ & _ & _ & [->|?]); [by exists b, d|done].
Qed.

(** ** Groups and players that come and go *)

Lemma v_next_fresh : base V -> v_heap V !! v_next V = None.
Proof. intros HB. destruct (v_heap V !! v_next V) as [c|] eqn:E; [|done]. apply (b_next V HB) in E. lia. Qed.
Lemma base_alloc : base V ->
  base (mkV (<[v_next V := core Group_new]> (v_heap V)) (v_ps V) (v_next V + 1) (v_reg V) (v_ids V) (v_groups V) (v_rows V)).
Proof.
  intros HB. pose proof (v_next_fresh HB) as Hf. destruct HB as [B1 B2 B3 B4 B5 B6 B7 B8 B9 B10 B11 B12 B13 B14].
  assert (Hforth : forall b d, v_heap V !! b = Some d -> <[v_next V := core Group_new]> (v_heap V) !! b = Some d).
  { intros b d Hb. rewrite lookup_insert_ne; [done|congruence]. }
  split; cbn; try done.
  - intros b d Hb. group_cases Hb; [lia|]. apply B1 in Hb. lia.
  - intros b d Hb. group_cases Hb; [|eauto]. split; cbn; try done; [constructor|lia..|constructor].
  - intros k p b Hp Hb. destruct (B4 k p b Hp Hb) as (d & Hd & ?). exists d. auto.
  - intros b d e Hb Hin. group_cases Hb; [by apply elem_of_nil in Hin|eauto].
  - intros k p b Hp Hb. destruct (B6 k p b Hp Hb) as (? & d & Hd & ?). split; [done|]. exists d. auto.
  - intros b d k Hb Hin. group_cases Hb; [set_solver|eauto].
  - intros b1 b2 d1 d2 k H1 H2 Hk1 Hk2.
    group_cases H1; [by apply elem_of_nil in Hk1|]. group_cases H2; [by apply elem_of_nil in Hk2|eauto].
  - intros b d Hb. group_cases Hb; [cbn; split; [lia|done]|eauto].
  - intros b1 b2 d1 d2 H1 H2 E Hne. group_cases H1; group_cases H2; cbn in *; try congruence. eauto.
  - intros id b Hb. destruct (B11 id b Hb) as (d & Hd & ?). exists d. auto.
  - intros id r Hr. destruct (B12 id r Hr) as (b & d & Hd & ?). exists b, d. auto.
  - intros id k r Hr. destruct (B13 id k r Hr) as (b & d & Hd & ?). exists b, d. auto.
Qed.

(** An empty group, unknown to the registry and the tables, is deleted. *)
Lemma base_delete a c :
  base V -> v_heap V !! a = Some c -> c_slots c = [] -> c_inv c = ∅ ->
  (c_id c <> 0 -> v_reg V !! c_id c = None /\ v_groups V !! c_id c = None /\ forall k, v_rows V !! (c_id c, k) = None) ->
  base (v_set_heap (delete a (v_heap V)) V).
Proof.
  intros HB Ha Hs Hi Ht. destruct HB as [B1 B2 B3 B4 B5 B6 B7 B8 B9 B10 B11 B12 B13 B14].
  assert (Hkeep : forall b d, v_heap V !! b = Some d -> b <> a -> delete a (v_heap V) !! b = Some d).
  { intros b d Hb ?. by rewrite lookup_delete_ne. }
  split; cbn; try done.
  - intros b d [_ Hb]%lookup_delete_Some. eauto.
  - intros b d [_ Hb]%lookup_delete_Some. eauto.
  - intros k p b Hp Hb. destruct (B4 k p b Hp Hb) as (d & Hd & Hk & ?). exists d. split; [|done].
    apply Hkeep; [done|]. intros ->. simplify_eq. by rewrite Hs in Hk; apply elem_of_nil in Hk.
  - intros b d e [_ Hb]%lookup_delete_Some. eauto.
  - intros k p b Hp Hb. destruct (B6 k p b Hp Hb) as (? & d & Hd & Hk). split; [done|]. exists d. split; [|done].
    apply Hkeep; [done|]. intros ->. simplify_eq. set_solver.
  - intros b d k [_ Hb]%lookup_delete_Some. eauto.
  - intros b1 b2 d1 d2 k [_ H1]%lookup_delete_Some [_ H2]%lookup_delete_Some. eauto.
  - intros b d [_ Hb]%lookup_delete_Some. eauto.
  - intros b1 b2 d1 d2 [_ H1]%lookup_delete_Some [_ H2]%lookup_delete_Some. eauto.
  - intros id b Hb. destruct (B11 id b Hb) as (d & Hd & <- & Hne). exists d. split; [|done].
    apply Hkeep; [done|]. intros ->. simplify_eq. destruct (Ht Hne) as (? & _). congruence.
  - intros id r Hr. destruct (B12 id r Hr) as (b & d & Hd & <- & Hne). exists b, d. split; [|done].
    apply Hkeep; [done|]. intros ->. simplify_eq. destruct (Ht Hne) as (_ & ? & _). congruence.
  - intros id k r Hr. destruct (B13 id k r Hr) as (b & d & Hd & <- & Hne). exists b, d. split; [|done].
    apply Hkeep; [done|]. intros ->. simplify_eq. destruct (Ht Hne) as (_ & _ & Hrows). rewrite Hrows in Hr. done.
Qed.

Lemma base_enter k p :
  base V -> v_ps V !! k = None -> player_ok k p -> p_group p = None -> p_invite p = None -> base (v_put_p k p V).
Proof.
  intros HB Hk Hp Hg Hi. destruct HB as [B1 B2 B3 B4 B5 B6 B7 B8 B9 B10 B11 B12 B13 B14].
  split; cbn; try done.
  - intros j q Hq. group_cases Hq; eauto.
  - intros j q b Hq Hb. group_cases Hq; [congruence|eauto].
  - intros b d e Hb Hin. destruct (B5 b d e Hb Hin) as (? & q & Hq & ?). split; [done|]. exists q.
    rewrite lookup_insert_ne; [done|congruence].
  - intros j q b Hq Hb. group_cases Hq; [congruence|eauto].
  - intros b d j Hb Hin. destruct (B7 b d j Hb Hin) as (q & Hq & ?). exists q. rewrite lookup_insert_ne; [done|congruence].
Qed.
Lemma base_leave k p :
  base V -> v_ps V !! k = Some p -> p_group p = None -> p_invite p = None -> base (v_set_ps (delete k (v_ps V)) V).
Proof.
  intros HB Hk Hg Hi. destruct HB as [B1 B2 B3 B4 B5 B6 B7 B8 B9 B10 B11 B12 B13 B14].
  split; cbn; try done.
  - intros j q [_ Hq]%lookup_delete_Some. eauto.
  - intros j q b [_ Hq]%lookup_delete_Some. eauto.
  - intros b d e Hb Hin. destruct (B5 b d e Hb Hin) as (? & q & Hq & Hqg). split; [done|]. exists q.
    rewrite lookup_delete_ne; [done|]. intros ->. congruence.
  - intros j q b [_ Hq]%lookup_delete_Some. eauto.
  - intros b d j Hb Hin. destruct (B7 b d j Hb Hin) as (q & Hq & Hqi). exists q. rewrite lookup_delete_ne; [done|congruence].
Qed.
End changes.
