(* ===== verification/GroupOps.v ===== *)
(** * GroupOps: what the operations of groups do to membership

    [moves m Q V]: from every world whose view is [V], [m] returns, and the
    view it ends in satisfies [Q].  The operations are specified by the views
    they end in; [same_for] says that a group is not concerned by a change. *)

From stdpp Require Import gmap fin_maps strings.
From S2P Require Import Prelude ByteBuffer Codec ObjectGuid Packets Effects Incoming Social.
From S2P Require Import GroupData GroupRolls GroupLists LFG Group GroupRaid GroupHandlers MeetingStones GroupLife GroupInv GroupCalm GroupVotes GroupMoves.

Local Open Scope prog_scope.

(** ** Rules *)

Definition moves {A} (m : GM A) (Q : A -> View -> Prop) (V : View) : Prop := forall X w,
  view w = V -> aside_ok w -> wp X m (fun a w' => aside_ok w' /\ Q a (view w')) w.

Section moves_rules.
Context {B : Type}.
Implicit Types (V : View) (Q : B -> View -> Prop).

Lemma mv_ret (a : B) Q V : Q a V -> moves (st_ret a) Q V.
Proof. intros HQ X w <- Hr. by apply wp_ret. Qed.
Lemma mv_bind {A} (m : GM A) (k : A -> GM B) Q V : moves m (fun a => moves (k a) Q) V -> moves (st_bind m k) Q V.
Proof.
  intros Hm X w HV Hr. apply wp_bind. eapply wp_conseq; [by apply Hm|]. cbv beta. intros a w' [Hr' Hk]. by apply Hk.
Qed.
Lemma mv_conseq (m : GM B) Q (Q' : B -> View -> Prop) V : moves m Q V -> (forall a V', Q a V' -> Q' a V') -> moves m Q' V.
Proof. intros Hm HQ X w HV Hr. eapply wp_conseq; [by apply Hm|]. cbv beta. intros a w' []. auto. Qed.
Lemma mv_logs (m : GM B) Q V : logs_only m -> (forall a, Q a V) -> moves m Q V.
Proof. intros Hm HQ X w <- Hr. by apply wp_logs. Qed.
(** Calm code stays where it is. *)
Lemma mv_calm (P : View -> Prop) (m : GM B) Q V : calm P m -> base V -> P V -> (forall a, Q a V) -> moves m Q V.
Proof.
  intros Hm HB HP HQ X w <- Hr. eapply wp_conseq; [by apply Hm|]. cbv beta. intros a w' [-> ?]. auto.
Qed.
Lemma mv_look {A} (f : GroupWorld -> A) (k : A -> GM B) Q V :
  (forall w, view w = V -> moves (k (f w)) Q V) -> moves (st_bind (look f) k) Q V.
Proof. intros Hk X w HV Hr. apply wp_bind, wp_look. by apply Hk. Qed.
Lemma mv_group a c (k : Group -> GM B) Q V :
  v_heap V !! a = Some c -> (forall g, core g = c -> moves (k g) Q V) -> moves (st_bind (group_at a) k) Q V.
Proof.
  intros Hc Hk X w HV Hr. rewrite <- HV in Hc. destruct (group_view _ _ _ Hc) as (g & Hg & He).
  apply wp_bind, (wp_group_at X a g); [done|]. by apply Hk.
Qed.
Lemma mv_player k p (f : Player -> GM B) Q V :
  v_ps V !! k = Some p -> (forall q, pcore q = p -> moves (f q) Q V) -> moves (st_bind (player_at k) f) Q V.
Proof.
  intros Hp Hk X w HV Hr. rewrite <- HV in Hp. destruct (player_view _ _ _ Hp) as (q & Hq & He).
  apply wp_bind, (wp_player_at X k q); [done|]. by apply Hk.
Qed.
(** A player that is looked up is the one who is online. *)
Definition found (V : View) (k : Z) (o : option Player) : Prop :=
  match o with Some q => v_ps V !! k = Some (pcore q) | None => v_ps V !! k = None end.
Lemma GetPlayer_found k w : base (view w) -> found (view w) k (GetPlayer k w).
Proof.
  intros HB. destruct (GetPlayer k w) as [q|] eqn:E; [by apply GetPlayer_view|]. cbn.
  rewrite lookup_fmap. unfold GetPlayer, FindPlayerNotInWorld in E. destruct (w_players w !! k) as [q|] eqn:Hq; [|done].
  exfalso. destruct (b_player _ HB k (pcore q)) as [_ Hk Hw _ _]; [by apply view_player|]. cbn in Hw.
  destruct (Z.eqb_spec k 0); [lia|]. by rewrite Hw in E.
Qed.
Lemma mv_find k (f : option Player -> GM B) Q V :
  base V -> (forall o, found V k o -> moves (f o) Q V) -> moves (st_bind (look (GetPlayer k)) f) Q V.
Proof. intros HB Hf. apply mv_look. intros w <-. apply Hf. by apply GetPlayer_found. Qed.
Lemma mv_assoc {A D} (m : GM A) (f : A -> GM D) (k : D -> GM B) Q V :
  moves (st_bind m (fun a => st_bind (f a) k)) Q V -> moves (st_bind (st_bind m f) k) Q V.
Proof. intros H X w HV Hr log. rewrite st_bind_assoc. by apply H. Qed.
Lemma mv_ret_bind {A} (a : A) (k : A -> GM B) Q V : moves (k a) Q V -> moves (st_bind (st_ret a) k) Q V.
Proof. intros H X w HV Hr log. rewrite st_bind_ret. by apply H. Qed.
End moves_rules.

Lemma mv_seq {A B} (P : View -> Prop) (m : GM A) (k : A -> GM B) (Q : B -> View -> Prop) V :
  calm P m -> base V -> P V -> (forall a, moves (k a) Q V) -> moves (st_bind m k) Q V.
Proof. intros Hm HB HP Hk. apply mv_bind. by eapply mv_calm. Qed.

Lemma mv_g_mod a c c' f (Q : unit -> View -> Prop) V :
  v_heap V !! a = Some c -> (forall g, core g = c -> core (f g) = c') -> (forall g, RollId (f g) = RollId g) ->
  Q tt (v_put_g a c' V) -> moves (g_mod a f) Q V.
Proof.
  intros Hc Hf Hl HQ X w <- Hr. destruct (group_view _ _ _ Hc) as (g & Hg & He). apply (wp_group_mod X a f g); [done|].
  rewrite view_put_g, (Hf g He). split; [by eapply rolls_put_g|done].
Qed.
Lemma mv_p_mod k p p' f (Q : unit -> View -> Prop) V :
  v_ps V !! k = Some p -> (forall q, pcore q = p -> pcore (f q) = p') -> Q tt (v_put_p k p' V) -> moves (p_mod k f) Q V.
Proof.
  intros Hp Hf HQ X w <- Hr. destruct (player_view _ _ _ Hp) as (q & Hq & He). apply (wp_player_mod X k f q); [done|].
  by rewrite view_put_p, (Hf q He).
Qed.
(** A change outside groups and loots. *)
Lemma mv_alter f V' (Q : unit -> View -> Prop) V :
  (forall w, view w = V -> view (f w) = V') -> (forall w, w_heap (f w) = w_heap w /\ w_loots (f w) = w_loots w /\ w_lfg (f w) = w_lfg w) ->
  Q tt V' -> moves (alter_world f) Q V.
Proof.
  intros Hv Hf HQ X w HV Hr. apply wp_alter_world. rewrite (Hv w HV). split; [|done].
  destruct (Hf w) as (Eh & El & Eq), Hr as [Hr Hq]. split; [|by rewrite Eq].
  intros a g r l. rewrite Eh, El. apply Hr.
Qed.

(** ** What does not change *)

(** A change of the view that is none of the group's business. *)
Record same_for (V V' : View) (d : GCore) : Prop := {
  sf_ps : forall k p', v_ps V' !! k = Some p' -> k ∈ guids (c_slots d) ->
    exists p, v_ps V !! k = Some p /\ p_group p' = p_group p /\ p_sub p' = p_sub p;
  sf_rows : forall k, v_rows V' !! (c_id d, k) = v_rows V !! (c_id d, k);
  sf_reg : v_reg V' !! c_id d = v_reg V !! c_id d;
  sf_groups : v_groups V' !! c_id d = v_groups V !! c_id d }.
Lemma linked_same V V' a c : same_for V V' c -> linked V a c -> linked V' a c.
Proof.
  intros [Hp Hr _ _] [L1 L2 L3]. split; [|by intros H0 k; rewrite Hr; apply L2|done].
  intros k p' m Hk Hm. destruct (Hp k p' Hk) as (p & Hkp & -> & ->); [apply slot_in_is_Some; by eexists|]. eauto.
Qed.
Lemma settled_same V V' a c : same_for V V' c -> settled_group V a c -> settled_group V' a c.
Proof. intros [_ _ Hr Hg]. unfold settled_group. by rewrite Hr, Hg. Qed.
Lemma inv_frame x a V V' :
  inv_but x V -> (x = None \/ x = Some a) -> base V' ->
  (forall b d, b <> a -> v_heap V' !! b = Some d -> v_heap V !! b = Some d /\ same_for V V' d) ->
  inv_but (Some a) V'.
Proof.
  intros [_ HI] Hx HB' Hb. split; [done|]. intros b d Hd Hne. assert (b <> a) by congruence.
  destruct (Hb b d) as [H0 Hs]; [done..|]. destruct (HI b d H0) as [HL HS]; [destruct Hx; congruence|].
  split; [by eapply linked_same|by eapply settled_same].
Qed.

Section views.
Context (V : View).
Implicit Types (a b k : Z) (c d : GCore).

(** A player who is in no group, or in [a], has no slot elsewhere. *)
Lemma not_elsewhere x a k p b d :
  inv_but x V -> (x = None \/ x = Some a) -> v_ps V !! k = Some p -> p_group p = None \/ p_group p = Some a ->
  b <> a -> v_heap V !! b = Some d -> k ∉ guids (c_slots d).
Proof.
  intros [_ HI] Hx Hp Hg Hb Hd [m Hm]%slot_in_is_Some. destruct (HI b d Hd) as [[L _ _] _]; [destruct Hx; congruence|].
  destruct (L k p m Hp Hm). destruct Hg; congruence.
Qed.
(** Ids of other groups are other ids. *)
Lemma other_id a c b d : base V -> v_heap V !! a = Some c -> v_heap V !! b = Some d -> b <> a -> c_id c <> 0 -> c_id d <> c_id c.
Proof. intros HB Ha Hb Hne H0 E. apply Hne. symmetry. by eapply (b_unique V HB a b c d). Qed.
(** Whoever is in a group and refers to one, refers to that one. *)
Lemma refers_here a c k p : base V -> v_heap V !! a = Some c -> k ∈ guids (c_slots c) -> v_ps V !! k = Some p ->
  p_group p = None \/ p_group p = Some a.
Proof.
  intros HB Ha Hk Hp. destruct (p_group p) as [b|] eqn:E; [|by left]. right. f_equal.
  destruct (b_ref V HB k p b Hp E) as (d & Hd & Hin & _). by eapply (b_once V HB b a d c k).
Qed.
Lemma put_g_put a c c' : v_put_g a c' (v_put_g a c V) = v_put_g a c' V.
Proof. unfold v_put_g. cbn. by rewrite insert_insert_eq. Qed.
Lemma put_p_put k p p' : v_put_p k p' (v_put_p k p V) = v_put_p k p' V.
Proof. unfold v_put_p. cbn. by rewrite insert_insert_eq. Qed.
Lemma put_g_id a c : v_heap V !! a = Some c -> v_put_g a c V = V.
Proof. intros H. unfold v_put_g. rewrite insert_id by done. by destruct V. Qed.
Lemma put_p_id k p : v_ps V !! k = Some p -> v_put_p k p V = V.
Proof. intros H. unfold v_put_p. rewrite insert_id by done. by destruct V. Qed.
End views.

Ltac mv_step :=
  lazymatch goal with
  | |- moves (st_bind (st_bind _ _) _) _ _ => apply mv_assoc
  | |- moves (st_bind (st_ret _) _) _ _ => apply mv_ret_bind
  | |- moves (st_bind (group_at _) _) _ _ => eapply mv_group; [eassumption|intros ?g ?Hg]
  | |- moves (st_bind (player_at _) _) _ _ => eapply mv_player; [eassumption|intros ?q ?Hq]
  | |- moves (st_bind (look (GetPlayer _)) _) _ _ => apply mv_find; [assumption|intros ?o ?Ho]
  | |- moves (st_bind (look _) _) _ _ => apply mv_look; intros ?w ?Hw
  | |- moves (st_bind _ _) _ _ => apply mv_bind
  | |- moves (st_ret _) _ _ => apply mv_ret
  | |- moves (call _) _ _ => apply mv_logs; [apply logs_call|intros _]
  | |- moves (ev _) _ _ => apply mv_logs; [apply logs_ev|intros _]
  | |- moves (send _ _) _ _ => apply mv_logs; [solve [eauto with logs]|intros _]
  end.
Ltac mvs := repeat (mv_step; cbv beta).

(** ** References *)

Section references.
Context (V : View) (HB : base V).
Implicit Types (a b k : Z) (c d : GCore).

(** The references of [k] and of the group at [a] after [k] is unlinked from
    it, and after he is linked to it. *)
Definition without (k : Z) (l : list (Z * bool)) : list (Z * bool) := filter (fun e => e <> (k, false)) l.
Definition v_detach a c k p : View := v_put_p k (refer None (p_sub p) p) (v_put_g a (set_mgr (without k (c_mgr c)) c) V).
Definition v_attach a c k p sub : View :=
  v_put_p k (refer (Some a) sub p) (v_put_g a (set_mgr ((k, false) :: c_mgr c) c) V).

Lemma without_absent k (l : list (Z * bool)) : (k, false) ∉ l -> without k l = l.
Proof. intros H. apply filter_all, Forall_forall. by intros e He ->. Qed.
Lemma in_no_mgr a c k p : v_heap V !! a = Some c -> v_ps V !! k = Some p -> p_group p <> Some a -> forall o, (k, o) ∉ c_mgr c.
Proof. intros Ha Hk Hp o Hin. destruct (b_mgr V HB a c _ Ha Hin) as (_ & q & Hq & ?). cbn in Hq. congruence. Qed.
Lemma refer_self p : refer (p_group p) (p_sub p) p = p.
Proof. by destruct p. Qed.
Lemma set_mgr_self c : set_mgr (c_mgr c) c = c.
Proof. by destruct c. Qed.
(** Who is in no group is not unlinked from any. *)
Lemma detach_none a c k p : v_heap V !! a = Some c -> v_ps V !! k = Some p -> p_group p = None -> v_detach a c k p = V.
Proof.
  intros Ha Hk Hp. unfold v_detach. rewrite without_absent by (eapply in_no_mgr; [done..|congruence]).
  rewrite set_mgr_self, put_g_id, <- Hp, refer_self, put_p_id; done.
Qed.

Lemma unlink_moves a c k p (Q : unit -> View -> Prop) :
  v_heap V !! a = Some c -> v_ps V !! k = Some p -> p_group p = None \/ p_group p = Some a ->
  Q tt (v_detach a c k p) -> moves (unlink false k) Q V.
Proof.
  intros Ha Hk Hp HQ. unfold unlink. mv_step. change (ref_of false q) with (p_group (pcore q)). rewrite Hq.
  destruct Hp as [Hp|Hp]; rewrite Hp; [apply mv_ret; by rewrite <- (detach_none a c k p)|].
  mv_step. eapply (mv_g_mod a c (set_mgr (without k (c_mgr c)) c)); [done|by intros ? <-|done|].
  eapply (mv_p_mod k p (refer None (p_sub p) p)); [done|by intros ? <-|done].
Qed.
Lemma unlink_none k p (Q : unit -> View -> Prop) :
  v_ps V !! k = Some p -> p_group p = None -> Q tt V -> moves (unlink false k) Q V.
Proof.
  intros Hk Hp HQ. unfold unlink. mv_step. change (ref_of false q) with (p_group (pcore q)). rewrite Hq, Hp. by apply mv_ret.
Qed.
Lemma SetGroup_moves a c k p sub (Q : unit -> View -> Prop) :
  v_heap V !! a = Some c -> v_ps V !! k = Some p -> p_group p = None -> 0 <= sub < 8 ->
  Q tt (v_attach a c k p sub) -> moves (SetGroup k (Some a) sub) Q V.
Proof.
  intros Ha Hk Hp Hs HQ. unfold SetGroup, set_group.
  assert (s8 sub = sub) as -> by (unfold swrap; cbn; rewrite Z.mod_small by lia; lia).
  destruct (Z.ltb_spec sub 0); [lia|]. assert (u8 sub = sub) as -> by (apply Z.mod_small; lia).
  unfold link. mvs. apply (unlink_none k p); [done..|]. mvs.
  eapply (mv_p_mod k p (refer (Some a) (p_sub p) p)); [done|by intros ? <-|]. mvs.
  eapply (mv_g_mod a c (set_mgr ((k, false) :: c_mgr c) c)); [done|by intros ? <-|done|].
  eapply (mv_p_mod k (refer (Some a) (p_sub p) p) (refer (Some a) sub p)); [by cbn; rewrite lookup_insert_eq| |].
  - intros q Hq. transitivity (refer (Some a) sub (pcore q)); [|by rewrite Hq]. destruct q as [? ? ? ? ? ? ? ? ? ? ? ? []].
    unfold pcore in Hq. cbn in Hq. injection Hq. intros. subst. cbn in *. unfold pcore, refer. cbn. congruence.
  - change (Q tt (v_put_p k (refer (Some a) sub p) (v_put_p k (refer (Some a) (p_sub p) p)
      (v_put_g a (set_mgr ((k, false) :: c_mgr c) c) V)))). by rewrite put_p_put.
Qed.

Lemma base_detach a c k p : v_heap V !! a = Some c -> v_ps V !! k = Some p -> p_group p = None \/ p_group p = Some a ->
  base (v_detach a c k p).
Proof.
  intros Ha Hk Hp. apply base_refer; try done.
  - apply NoDup_filter, (go_mgr _ (b_wf V HB a c Ha)).
  - intros e [Hne He]%list_elem_of_filter. right. split; [|done]. intros E.
    destruct (b_mgr V HB a c e Ha He) as [? _]. apply Hne. destruct e. cbn in *. by subst.
  - intros e He Hne. apply list_elem_of_filter. split; [|done]. by intros ->.
Qed.
Lemma base_attach a c k p sub : v_heap V !! a = Some c -> v_ps V !! k = Some p -> p_group p = None -> p_invite p = None ->
  k ∈ guids (c_slots c) -> base (v_attach a c k p sub).
Proof.
  intros Ha Hk Hp Hi Hin. apply base_refer; auto.
  - constructor; [|apply (go_mgr _ (b_wf V HB a c Ha))]. eapply in_no_mgr; [done..|congruence].
  - intros e [->|He]%elem_of_cons; [by left|]. right. split; [|done]. intros <-. destruct e.
    by eapply (in_no_mgr a c); [| |rewrite Hp|].
  - intros e He _. by right.
  - intros _. split_and!; auto. by left.
Qed.
End references.

(** ** Invitations *)

Lemma drop_invites_union s1 s2 ps : drop_invites s1 (drop_invites s2 ps) = drop_invites (s2 ∪ s1) ps.
Proof.
  apply map_eq. intros k. unfold drop_invites. rewrite !map_lookup_imap. destruct (ps !! k) as [p|]; [|done]. cbn.
  f_equal. destruct (decide (k ∈ s2)); cbn; repeat case_decide; set_solver.
Qed.
Lemma drop_invites_empty ps : drop_invites ∅ ps = ps.
Proof.
  apply map_eq. intros k. unfold drop_invites. rewrite map_lookup_imap. destruct (ps !! k) as [p|]; [|done]. cbn.
  by rewrite decide_False by set_solver.
Qed.
Lemma drop_one k p ps : ps !! k = Some p -> <[k := uninvited p]> ps = drop_invites {[k]} ps.
Proof.
  intros Hk. apply map_eq. intros j. unfold drop_invites. rewrite map_lookup_imap. destruct (decide (k = j)) as [<-|].
  - rewrite lookup_insert_eq, Hk. cbn. by rewrite decide_True by set_solver.
  - rewrite lookup_insert_ne by done. destruct (ps !! j) as [q|]; [|done]. cbn. by rewrite decide_False by set_solver.
Qed.

Section invitations.
Context (env : GroupEnv) `{!GroupEnvOk env}.
Context (V : View) (HB : base V).
Implicit Types (a b k : Z) (c d : GCore).

Lemma RemoveInvite_moves a c k (Q : Z -> View -> Prop) :
  v_heap V !! a = Some c -> k ∈ c_inv c -> (forall n, n = u32 (Z.of_nat (length (c_slots c))) -> Q n (v_uninvite V a c {[k]})) ->
  moves (RemoveInvite a k) Q V.
Proof.
  intros Ha Hk HQ. destruct (b_invited V HB a c k Ha Hk) as (p & Hp & Hi). unfold RemoveInvite. mv_step.
  change (m_invitees g) with (c_inv (core g)). rewrite Hg, bool_decide_true by done. mvs.
  change (GetGroupInvite q) with (p_invite (pcore q)). rewrite Hq, bool_decide_true by done. mvs.
  eapply (mv_g_mod a c (set_inv (c_inv c ∖ {[k]}) c)); [done|by intros ? <-|done|].
  eapply (mv_p_mod k p (uninvited p)); [done|by intros ? <-|].
  eapply (mv_group a (set_inv (c_inv c ∖ {[k]}) c)); [by cbn; rewrite lookup_insert_eq|]. intros g1 Hg1. apply mv_ret.
  replace (v_put_p k _ _) with (v_uninvite V a c {[k]}).
  - apply HQ. unfold GetMembersCount. change (m_memberSlots g1) with (c_slots (core g1)). by rewrite Hg1.
  - unfold v_uninvite, v_put_g, v_put_p, v_set_ps. cbn. by rewrite (drop_one k p).
Qed.
(** Who is not invited is not removed. *)
Lemma RemoveInvite_absent a c k (Q : Z -> View -> Prop) :
  v_heap V !! a = Some c -> k ∉ c_inv c -> (forall n, Q n V) -> moves (RemoveInvite a k) Q V.
Proof.
  intros Ha Hk HQ. unfold RemoveInvite. mv_step. change (m_invitees g) with (c_inv (core g)).
  rewrite Hg, bool_decide_false by done. mvs. apply HQ.
Qed.
Lemma RemoveAllInvites_moves a c (Q : unit -> View -> Prop) :
  v_heap V !! a = Some c -> Q tt (v_uninvite V a c (c_inv c)) -> moves (RemoveAllInvites env a) Q V.
Proof.
  intros Ha HQ. unfold RemoveAllInvites. mv_step. change (m_invitees g) with (c_inv (core g)). rewrite Hg. apply mv_bind.
  pose proof (ge_invites (c_inv c)) as Hperm.
  assert (Hall : forall l s, (list_to_set l : gset Z) ∪ s = c_inv c -> NoDup l -> (forall k, k ∈ l -> k ∉ s) ->
    moves (each (fun k => let! p := player_at k in
      if bool_decide (GetGroupInvite p = Some a) then p_mod k (SetGroupInvite None) else aborts) l)
      (fun _ V' => V' = v_set_ps (drop_invites (c_inv c) (v_ps V)) V) (v_set_ps (drop_invites s (v_ps V)) V)).
  { induction l as [|k l IH]; intros s Hs Hn Hd; cbn [each].
    - apply mv_ret. do 2 f_equal. set_solver.
    - destruct (b_invited V HB a c k Ha ltac:(set_solver)) as (p & Hp & Hi).
      assert (Hk : drop_invites s (v_ps V) !! k = Some p).
      { apply lookup_drop_invites. exists p. split; [done|]. by rewrite decide_False by (apply Hd; left). }
      apply mv_bind. eapply mv_player; [exact Hk|]. intros q Hq.
      change (GetGroupInvite q) with (p_invite (pcore q)). rewrite Hq, bool_decide_true by done.
      eapply (mv_p_mod k p (uninvited p)); [done|by intros ? <-|]. apply NoDup_cons in Hn as [Hkl Hn].
      replace (v_put_p k _ _) with (v_set_ps (drop_invites (s ∪ {[k]}) (v_ps V)) V).
      + apply IH; [set_solver|done|]. intros j Hj. apply not_elem_of_union. split; [apply Hd; by right|set_solver].
      + unfold v_put_p, v_set_ps. cbn. by rewrite (drop_one k p), drop_invites_union. }
  replace V with (v_set_ps (drop_invites ∅ (v_ps V)) V) by (rewrite drop_invites_empty; by destruct V).
  eapply mv_conseq; [apply Hall|].
  - rewrite Hperm. rewrite list_to_set_elements_L. set_solver.
  - rewrite Hperm. apply NoDup_elements.
  - set_solver.
  - cbv beta. intros _ V' ->. eapply (mv_g_mod a c (set_inv ∅ c)); [done|by intros ? <-|done|].
    unfold v_uninvite in HQ. by rewrite difference_diag_L in HQ.
Qed.

Lemma same_uninvite a c s d : same_for V (v_uninvite V a c s) d.
Proof.
  split; try done. intros k p' (p & Hp & ->)%lookup_drop_invites _. exists p. by case_decide.
Qed.
Lemma inv_uninvite x a c s : inv_but x V -> x = None \/ x = Some a -> v_heap V !! a = Some c -> s ⊆ c_inv c ->
  inv_but (Some a) (v_uninvite V a c s).
Proof.
  intros HI Hx Ha Hs. eapply inv_frame; [done..|by apply base_uninvite|]. intros b d Hb Hd.
  split; [|apply same_uninvite]. cbn in Hd. by rewrite lookup_insert_ne in Hd.
Qed.
Lemma linked_uninvite a c s : linked V a c -> linked (v_uninvite V a c s) a (set_inv (c_inv c ∖ s) c).
Proof. intros HL. apply (linked_same V (v_uninvite V a c s) a c) in HL as [? ? ?]; [by split|apply same_uninvite]. Qed.
Lemma settled_uninvite a c s : settled_group V a c -> (c_slots c = [] -> c_leader c ∉ s) ->
  settled_group (v_uninvite V a c s) a (set_inv (c_inv c ∖ s) c).
Proof. intros [(E & ? & ? & ?)|?] Hs; [left|by right]. specialize (Hs E). cbn. set_solver. Qed.
End invitations.

(** ** Groups made and deleted *)

Section making.
Context (env : GroupEnv) `{!GroupEnvOk env}.
Context (V : View) (HB : base V).
Implicit Types (a b k : Z) (c d : GCore).

Definition v_alloc : View :=
  mkV (<[v_next V := core Group_new]> (v_heap V)) (v_ps V) (v_next V + 1) (v_reg V) (v_ids V) (v_groups V) (v_rows V).
Definition v_drop a c : View := v_set_heap (delete a (v_heap V)) (v_set_ps (drop_invites (c_inv c) (v_ps V)) V).

Lemma new_group_moves (Q : Z -> View -> Prop) : Q (v_next V) v_alloc -> moves new_group Q V.
Proof.
  intros HQ X w HV Hr. unfold new_group. apply wp_bind, wp_look. apply wp_bind, wp_alter_world. apply wp_ret.
  assert (Hn : w_heap w !! w_next w = None).
  { pose proof (v_next_fresh V HB) as Hf. rewrite <- HV in Hf. cbn in Hf. rewrite lookup_fmap in Hf.
    by destruct (w_heap w !! w_next w). }
  split.
  - destruct Hr as [Hr Hq]. split; [|done]. intros a g r l Hg. cbn in Hg. apply lookup_insert_Some in Hg as [[<- <-]|[_ Hg]]; [|by eapply Hr]. by intros ?%elem_of_nil.
  - unfold v_alloc in HQ. rewrite <- HV in HQ. cbn in HQ. unfold view. cbn. rewrite fmap_insert. exact HQ.
Qed.

Lemma no_refs a c : v_heap V !! a = Some c -> c_slots c = [] -> c_mgr c = [].
Proof.
  intros Ha Hs. destruct (c_mgr c) as [|e l] eqn:E; [done|]. exfalso.
  destruct (b_mgr V HB a c e Ha) as (_ & p & Hp & Hpa); [rewrite E; by left|].
  destruct (b_ref V HB _ p a Hp Hpa) as (d & Hd & Hin & _). simplify_eq. rewrite Hs in Hin. by apply elem_of_nil in Hin.
Qed.
Lemma delete_group_moves a c (Q : unit -> View -> Prop) :
  v_heap V !! a = Some c -> c_slots c = [] -> Q tt (v_drop a c) -> moves (delete_group env a) Q V.
Proof.
  intros Ha Hs HQ. pose proof (no_refs a c Ha Hs) as Hm. unfold delete_group. mv_step.
  assert (isBGGroup g = false) as -> by (change (c_bg (core g) = false); rewrite Hg; apply (go_bg _ (b_wf V HB a c Ha))).
  mvs. apply (RemoveAllInvites_moves env V HB a c); [done|]. mvs. 
  eapply mv_group; [by cbn; rewrite lookup_insert_eq|]. intros g1 Hg1.
  assert (m_memberMgr g1 = []) as -> by (change (c_mgr (core g1) = []); by rewrite Hg1).
  mvs. apply (mv_alter _ (v_uninvite V a c (c_inv c))); [intros w Hw; by rewrite <- Hw|done|].
  intros X w HV Hr. apply wp_alter_world. split.
  - destruct Hr as [Hr Hq]. split; [|done]. intros b g2 r l Hb. cbn in Hb. apply lookup_delete_Some in Hb as [_ Hb]. by eapply Hr.
  - replace (view _) with (v_drop a c); [done|]. unfold view. cbn. rewrite fmap_delete.
    change (core <$> w_heap w) with (v_heap (view w)). change (pcore <$> w_players w) with (v_ps (view w)).
    rewrite HV. unfold v_drop, v_set_heap, v_set_ps. cbn. rewrite delete_insert_eq.
    change (m_GroupMap w) with (v_reg (view w)). change (w_next w) with (v_next (view w)).
    change (m_GroupIds w) with (v_ids (view w)). change (grow <$> t_groups w) with (v_groups (view w)).
    change (t_group_member w) with (v_rows (view w)). by rewrite HV.
Qed.
(** The group is gone, and the rest is as it was. *)
Lemma inv_drop x a c :
  inv_but x V -> x = None \/ x = Some a -> v_heap V !! a = Some c -> c_slots c = [] ->
  (c_id c <> 0 -> v_reg V !! c_id c = None /\ v_groups V !! c_id c = None /\ forall k, v_rows V !! (c_id c, k) = None) ->
  inv (v_drop a c).
Proof.
  intros HI Hx Ha Hs Ht. apply (inv_close_none _ a).
  - assert (HI1 : inv_but (Some a) (v_uninvite V a c (c_inv c))) by (eapply inv_uninvite; eauto).
    replace (v_drop a c) with (v_set_heap (delete a (v_heap (v_uninvite V a c (c_inv c)))) (v_uninvite V a c (c_inv c))).
    2:{ unfold v_drop, v_set_heap. cbn. by rewrite delete_insert_eq. }
    eapply (inv_frame _ a); [exact HI1|by right| |].
    + eapply base_delete; [apply HI1|by cbn; rewrite lookup_insert_eq|done|cbn; by rewrite difference_diag_L|done].
    + intros b d Hb Hd. cbn in *. rewrite lookup_delete_ne in Hd by done. split; [done|]. split; try done. eauto.
  - cbn. apply lookup_delete_eq.
Qed.
End making.
