(* ===== verification/GroupMembers.v ===== *)
(** * GroupMembers: members who join and leave, and the leader

    Joining, creating, choosing a leader, leaving and disbanding, each with the
    invariant of all other groups and the facts about its own. *)

From stdpp Require Import gmap fin_maps strings.
From S2P Require Import Prelude ByteBuffer Codec ObjectGuid Packets Effects Incoming Social.
From S2P Require Import GroupData GroupRolls GroupLists LFG Group GroupRaid GroupHandlers MeetingStones GroupLife GroupInv GroupCalm GroupVotes GroupMoves GroupOps.

Local Open Scope prog_scope.

(** ** Counters *)

Definition set_cnt (o : option (list Z)) (c : GCore) : GCore :=
  mkGC (c_slots c) (c_mgr c) (c_inv c) (c_leader c) (c_name c) (c_id c) (c_type c) (c_bg c) o (c_icons c).
Definition set_slot_list (l : list MemberSlot) (c : GCore) : GCore :=
  mkGC l (c_mgr c) (c_inv c) (c_leader c) (c_name c) (c_id c) (c_type c) (c_bg c) (c_counts c) (c_icons c).

Lemma counter_moves V a c s d (Q : unit -> View -> Prop) :
  v_heap V !! a = Some c -> (forall n, c_counts c = Some n -> is_Some (n !! Z.to_nat s)) ->
  Q tt (v_put_g a (set_cnt (alter (fun n => u8 (n + d)) (Z.to_nat s) <$> c_counts c) c) V) -> moves (counter_add a s d) Q V.
Proof.
  intros Ha Hs HQ. unfold counter_add. mv_step. change (m_subGroupsCounts g) with (c_counts (core g)). rewrite Hg.
  destruct (c_counts c) as [n|] eqn:E; cbn [fmap option_fmap option_map] in HQ.
  - destruct (Hs n eq_refl) as [x Hx]. unfold count_at. rewrite Hx. cbn [deref]. mvs.
    eapply (mv_g_mod a c); [done| |done|exact HQ]. by intros ? <-.
  - apply mv_ret. rewrite <- E in HQ. replace (set_cnt (c_counts c) c) with c in HQ by by destruct c.
    by rewrite put_g_id in HQ.
Qed.

(** The counters of the subgroups once a member is added, taken out or moved. *)
Lemma alter_counts f s (n : list Z) l :
  (s < 8)%nat -> n = raid_counts l -> length (alter f s n) = 8%nat /\
  forall i : nat, (i < 8)%nat -> alter f s n !! i = Some (if decide (i = s) then f (sub_count l (Z.of_nat i)) else sub_count l (Z.of_nat i)).
Proof.
  intros Hs ->. rewrite length_alter, length_raid_counts. split; [done|]. intros i Hi. case_decide as E.
  - subst. by rewrite list_lookup_alter_eq, raid_counts_lookup.
  - by rewrite list_lookup_alter_ne, raid_counts_lookup.
Qed.
Lemma u8_small x : 0 <= x < 256 -> u8 x = x.
Proof. intros. by apply Z.mod_small. Qed.
Lemma counts_join l m (n : list Z) :
  n = raid_counts l -> 0 <= ms_group m < 8 -> (length l < 40)%nat ->
  alter (fun x => u8 (x + 1)) (Z.to_nat (ms_group m)) n = raid_counts (l ++ [m]).
Proof.
  intros Hn Hm Hl. destruct (alter_counts (fun x => u8 (x + 1)) (Z.to_nat (ms_group m)) n l) as [H1 H2]; [lia|done|].
  apply raid_counts_eq; [done|]. intros i Hi. rewrite (H2 i Hi). f_equal. rewrite sub_count_app, sub_count_cons.
  change (sub_count [] (Z.of_nat i)) with 0. pose proof (sub_count_range l (Z.of_nat i)). unfold unit_at.
  case_decide; destruct (Z.eqb_spec (ms_group m) (Z.of_nat i)); try lia. rewrite u8_small; lia.
Qed.
Lemma counts_leave l k m (n : list Z) :
  n = raid_counts l -> slot_in k l = Some m -> 0 <= ms_group m < 8 -> (length l <= 40)%nat ->
  alter (fun x => u8 (x + -1)) (Z.to_nat (ms_group m)) n = raid_counts (erase_slot k l).
Proof.
  intros Hn Hk Hm Hl. destruct (alter_counts (fun x => u8 (x + -1)) (Z.to_nat (ms_group m)) n l) as [H1 H2]; [lia|done|].
  apply raid_counts_eq; [done|]. intros i Hi. rewrite (H2 i Hi). f_equal. rewrite (sub_count_erase k m l _ Hk).
  pose proof (sub_count_range (erase_slot k l) (Z.of_nat i)). pose proof (sub_count_erase k m l (Z.of_nat i) Hk).
  pose proof (sub_count_range l (Z.of_nat i)). unfold unit_at in *.
  case_decide; destruct (Z.eqb_spec (ms_group m) (Z.of_nat i)); try lia. rewrite u8_small; lia.
Qed.
Lemma raid_counts_few l : Forall (fun x => x <= MAX_GROUP_SIZE) (raid_counts l) <->
  forall i : nat, (i < 8)%nat -> sub_count l (Z.of_nat i) <= MAX_GROUP_SIZE.
Proof.
  rewrite Forall_lookup. split.
  - intros H i Hi. eapply H. by apply raid_counts_lookup.
  - intros H i x Hx. assert (Hi : (i < 8)%nat) by (rewrite <- (length_raid_counts l); by eapply lookup_lt_Some).
    rewrite raid_counts_lookup in Hx by done. injection Hx as <-. auto.
Qed.

(** ** Joining *)

(** A place in subgroup [s]. *)
Definition has_place (c : GCore) (s : Z) : Prop :=
  match c_counts c with Some n => sub_count (c_slots c) s < MAX_GROUP_SIZE | None => s = 0 end.
Definition add_slot (m : MemberSlot) (c : GCore) : GCore :=
  set_cnt (alter (fun n => u8 (n + 1)) (Z.to_nat (ms_group m)) <$> c_counts c) (set_slot_list (c_slots c ++ [m]) c).
Definition join_core (c : GCore) (m : MemberSlot) : GCore := set_mgr ((ms_guid m, false) :: c_mgr c) (add_slot m c).

Record joined (V V' : View) (a : Z) (c : GCore) (p : PCore) (m : MemberSlot) : Prop := {
  jo_inv : inv_but (Some a) V'; jo_linked : linked V' a (join_core c m);
  jo_heap : v_heap V' = <[a := join_core c m]> (v_heap V);
  jo_ps : v_ps V' = <[ms_guid m := refer (Some a) (ms_group m) p]> (v_ps V);
  jo_rest : v_reg V' = v_reg V /\ v_groups V' = v_groups V /\ v_ids V' = v_ids V }.

Section joining.
Context (env : GroupEnv) `{!GroupEnvOk env}.
Context (V : View) (x : option Z) (a : Z) (c : GCore) (k : Z) (p : PCore) (m : MemberSlot).
Context (HI : inv_but x V) (Hx : x = None \/ x = Some a) (Ha : v_heap V !! a = Some c) (HL : linked V a c).
Context (Hid : c_id c <> 0) (Hk : v_ps V !! k = Some p) (Hp : p_group p = None) (Hinv : p_invite p = None).
Context (Hm : ms_guid m = k) (Hok : slot_ok m) (Hroom : Z.of_nat (length (c_slots c)) < capacity c).
Context (Hplace : has_place c (ms_group m)).

Let HB : base V := proj1 HI.

Lemma join_absent : k ∉ guids (c_slots c).
Proof. intros [m' Hm']%slot_in_is_Some. destruct (l_member _ _ _ HL k p m' Hk Hm'). congruence. Qed.
Lemma join_nowhere b d : v_heap V !! b = Some d -> k ∉ guids (c_slots d).
Proof.
  intros Hd. destruct (decide (b = a)) as [E|]; [rewrite E, Ha in Hd; injection Hd as <-; apply join_absent|].
  by apply (not_elsewhere V x a k p b d); auto.
Qed.
Lemma guids_app l1 l2 : guids (l1 ++ l2) = guids l1 ++ guids l2.
Proof. apply fmap_app. Qed.
Lemma capacity_40 : (length (c_slots c) < 40)%nat.
Proof. unfold capacity, MAX_GROUP_SIZE, MAX_RAID_SIZE in Hroom. case_match; lia. Qed.
Lemma add_slot_ok : group_ok (add_slot m c).
Proof.
  destruct (b_wf V HB a c Ha) as [G1 G2 G3 G4 G5 G6 G7]. split; cbn; try done.
  - rewrite guids_app. apply NoDup_app. split_and!; [done| |apply NoDup_singleton].
    intros j Hj Hjm%list_elem_of_singleton. subst j. rewrite Hm in Hj. by apply join_absent.
  - rewrite Forall_app. by split; [|constructor].
  - unfold capacity in *. cbn. rewrite length_app. cbn [length]. lia.
Qed.
Lemma add_slot_counts : counts_ok (add_slot m c).
Proof.
  pose proof (l_counts _ _ _ HL) as HC. unfold counts_ok, has_place in *. cbn. destruct (c_counts c) as [n|]; cbn.
  - destruct HC as (Ht & Hn & Hf). pose proof Hok as (_ & _ & Hr). change MAX_RAID_SUBGROUPS with 8 in Hr. split; [done|].
    rewrite (counts_join (c_slots c) m n Hn Hr capacity_40). split; [done|]. rewrite Hn in Hf.
    apply raid_counts_few. intros i Hi. pose proof (proj1 (raid_counts_few _) Hf i Hi) as Hle.
    rewrite sub_count_app, sub_count_cons. change (sub_count [] (Z.of_nat i)) with 0. unfold unit_at.
    destruct (Z.eqb_spec (ms_group m) (Z.of_nat i)) as [E|]; [rewrite <- E in *; lia|lia].
  - destruct HC as [Ht Hf]. split; [done|]. rewrite Forall_app. by split; [|constructor].
Qed.
Lemma base_add_slot : base (v_put_g a (add_slot m c) V).
Proof.
  apply (base_slots V a c); try done; [apply add_slot_ok| |].
  - cbn. intros j. rewrite guids_app. intros [?|Hj%list_elem_of_singleton]%elem_of_app; [by left|]. right. subst j.
    rewrite Hm. apply join_nowhere.
  - intros j q Hj Hq. destruct (b_ref V HB j q a Hj Hq) as (d & Hd & Hin & _). simplify_eq. cbn.
    rewrite guids_app. apply elem_of_app. by left.
Qed.

(** The rows, and the view in the end. *)
Let V1 := v_put_g a (add_slot m c) V.
Let V2 := v_attach V1 a (add_slot m c) k p (ms_group m).
Definition v_join : View := v_set_rows (<[(c_id c, k) := member_row_of m]> (v_rows V)) V2.
Lemma join_heap : v_heap v_join = <[a := join_core c m]> (v_heap V).
Proof. cbn. rewrite insert_insert_eq. unfold join_core. by rewrite Hm. Qed.
Lemma base_join : base v_join.
Proof.
  assert (HB2 : base V2).
  { apply base_attach; [apply base_add_slot|cbn; by rewrite lookup_insert_eq|done..|].
    cbn. rewrite guids_app, elem_of_app. right. by apply list_elem_of_singleton. }
  apply (base_tables V2 (v_reg V) (v_ids V) (v_groups V)); [done|pose proof (b_ids V HB); cbn; lia| | |].
  - apply (b_reg _ HB2).
  - apply (b_groups _ HB2).
  - intros id j r [[[= <- <-] _]|[_ Hr]]%lookup_insert_Some; [|by apply (b_rows _ HB2 id j r)].
    exists a, (join_core c m). split_and!; [|done..]. change (v_heap V2) with (v_heap v_join).
    by rewrite join_heap, lookup_insert_eq.
Qed.
Lemma slot_in_join j : slot_in j (c_slots c ++ [m]) = if decide (j = k) then Some m else slot_in j (c_slots c).
Proof.
  rewrite slot_in_app, slot_in_cons, Hm. destruct (decide (j = k)) as [->|].
  - rewrite (proj2 (slot_in_None _ _) join_absent). by rewrite decide_True.
  - destruct (slot_in j (c_slots c)); [done|]. by rewrite decide_False by congruence.
Qed.
Lemma v_join_ok : joined V v_join a c p m.
Proof.
  split; [| |apply join_heap|by rewrite Hm|done].
  - eapply (inv_frame x a V); [done..|apply base_join|]. intros b d Hb Hd. rewrite join_heap, lookup_insert_ne in Hd by done.
    split; [done|]. pose proof (join_nowhere b d Hd) as Hno. split; try done; cbn.
    + intros j q [[<- <-]|[_ Hj]]%lookup_insert_Some Hin; [done|eauto].
    + intros j. rewrite lookup_insert_ne; [done|]. intros [= E _]. by apply (other_id V a c b d).
  - split; [| |apply add_slot_counts].
    + intros j q m'. cbn. rewrite slot_in_join. intros [[<- <-]|[Hne Hj]]%lookup_insert_Some.
      * rewrite decide_True by done. intros [= <-]. done.
      * rewrite decide_False by done. by apply (l_member _ _ _ HL).
    + intros _ j. cbn. rewrite slot_in_join. destruct (decide (j = k)) as [->|].
      * by rewrite lookup_insert_eq.
      * rewrite lookup_insert_ne by congruence. by apply (l_rows _ _ _ HL).
Qed.

Lemma _addMember_at_moves (Q : bool -> View -> Prop) :
  (forall V', joined V V' a c p m -> Q true V') ->
  moves (_addMember_at a k (ms_name m) (ms_assistant m) (ms_group m)) Q V.
Proof.
  intros HQ. unfold _addMember_at. pose proof (b_player V HB k p Hk) as [_ Hk0 _ _ Ho]. mv_step.
  assert (isBGGroup g = false) as -> by (change (c_bg (core g) = false); rewrite Hg; apply (go_bg _ (b_wf V HB a c Ha))).
  assert (IsFull g = false) as ->.
  { unfold IsFull. change (m_memberSlots g) with (c_slots (core g)). change (m_groupType g) with (c_type (core g)).
    rewrite Hg. unfold capacity in Hroom. case_match; lia. }
  destruct (Z.eqb_spec k 0); [lia|]. cbn [orb]. apply mv_find; [done|]. intros [q|]; cbn [found]; [|congruence].
  rewrite Hk. intros [= Hq].
  change (GetGroupInvite q) with (p_invite (pcore q)). change (GetGroup q) with (p_group (pcore q)).
  rewrite <- Hq, Hinv, Hp. mvs. 
  eapply (mv_g_mod a c (set_slot_list (c_slots c ++ [m]) c)); [done| |done|].
  { intros g' <-. rewrite <- Hm. by destruct m. }
  apply mv_bind. eapply counter_moves; [cbn; by rewrite lookup_insert_eq| |].
  { intros cnt Hn. change (c_counts c = Some cnt) in Hn. pose proof (l_counts _ _ _ HL) as HC. unfold counts_ok in HC. rewrite Hn in HC.
    destruct HC as (_ & -> & _). destruct Hok as (_ & _ & Hr). change MAX_RAID_SUBGROUPS with 8 in Hr.
    eexists. apply raid_counts_lookup. lia. }
  rewrite put_g_put. change (v_put_g a _ V) with V1. mvs.
  eapply (mv_p_mod k p p); [done|intros q' Hq'|].
  { transitivity (uninvited (pcore q')); [done|]. rewrite Hq'. unfold uninvited. rewrite <- Hinv. by destruct p. }
  rewrite put_p_id by done. mvs.
  eapply (SetGroup_moves V1 a (add_slot m c)); [cbn; by rewrite lookup_insert_eq|done|done|by destruct Hok as (_ & _ & ?)|].
  mvs. apply (mv_alter _ v_join); [|done|by mvs; apply HQ, v_join_ok].
  intros w Hw. change (view (w_set_group_member ?t w)) with (v_set_rows t (view w)). rewrite Hw. unfold v_join. f_equal.
  assert (m_Id g = c_id c) as -> by (rewrite <- Hg; done). rewrite (GetCounter_player k) by (unfold is_u; lia).
  change (t_group_member w) with (v_rows (view w)). rewrite Hw. cbn. unfold sql_insert_row.
  rewrite (l_rows _ _ _ HL Hid k), (proj2 (slot_in_None _ _) join_absent). cbn. rewrite <- Hm. by destruct m.
Qed.
End joining.

(** ** A place for everyone *)

Lemma sub_counts_sum l : Forall slot_ok l ->
  sub_count l 0 + sub_count l 1 + sub_count l 2 + sub_count l 3 + sub_count l 4 + sub_count l 5 + sub_count l 6 + sub_count l 7
  = Z.of_nat (length l).
Proof.
  induction 1 as [|m l (_ & _ & Hm) _ IH]; [done|]. change MAX_RAID_SUBGROUPS with 8 in Hm. cbn [length].
  rewrite !sub_count_cons.
  assert (ms_group m = 0 \/ ms_group m = 1 \/ ms_group m = 2 \/ ms_group m = 3 \/ ms_group m = 4 \/ ms_group m = 5
    \/ ms_group m = 6 \/ ms_group m = 7) as E by lia.
  destruct E as [->|[->|[->|[->|[->|[->|[->| ->]]]]]]]; cbn [Z.eqb Pos.eqb unit_at]; lia.
Qed.
(** A raid that is not full has a subgroup that is not. *)
Lemma free_subgroup_some l : Forall slot_ok l -> (length l < 40)%nat ->
  exists i : nat, free_subgroup (raid_counts l) = Some i /\ (i < 8)%nat /\ sub_count l (Z.of_nat i) < MAX_GROUP_SIZE.
Proof.
  intros Hs Hl. unfold free_subgroup. destruct (list_find _ (raid_counts l)) as [[i x]|] eqn:E.
  - apply list_find_Some in E as (Hi & Hx & _). assert (Hi8 : (i < 8)%nat) by (rewrite <- (length_raid_counts l); by eapply lookup_lt_Some).
    exists i. rewrite raid_counts_lookup in Hi by done. injection Hi as <-. done.
  - exfalso. apply list_find_None in E. rewrite Forall_lookup in E.
    assert (H : forall i, 0 <= i < 8 -> 5 <= sub_count l i).
    { intros i Hi. specialize (E (Z.to_nat i) _ (raid_counts_lookup l (Z.to_nat i) ltac:(lia))). cbv beta in E.
      rewrite Z2Nat.id in E by lia. unfold MAX_GROUP_SIZE in E. lia. }
    pose proof (sub_counts_sum l Hs). pose proof (H 0). pose proof (H 1). pose proof (H 2). pose proof (H 3).
    pose proof (H 4). pose proof (H 5). pose proof (H 6). pose proof (H 7). lia.
Qed.

Section adding.
Context (env : GroupEnv) `{!GroupEnvOk env}.

Lemma AddMember_moves V x a c k p name method (Q : bool -> View -> Prop) :
  inv_but x V -> x = None \/ x = Some a -> v_heap V !! a = Some c -> linked V a c -> c_id c <> 0 ->
  v_ps V !! k = Some p -> p_group p = None -> p_invite p = None -> short name -> Z.of_nat (length (c_slots c)) < capacity c ->
  (forall V' m, ms_guid m = k -> ms_name m = name -> has_place c (ms_group m) -> joined V V' a c p m -> Q true V') ->
  moves (AddMember env a k name method) Q V.
Proof.
  intros HI Hx Ha HL Hid Hk Hp Hi Hn Hr HQ. pose proof HI as [HB _].
  pose proof (b_player V HB k p Hk) as [_ Hk0 _ _ _]. pose proof (b_wf V HB a c Ha) as [_ Gs _ _ _ _ _].
  unfold AddMember. apply mv_bind.
  assert (Hrun : moves (_addMember a k name false) (fun ok V' => ok = true /\
    exists m, ms_guid m = k /\ ms_name m = name /\ has_place c (ms_group m) /\ joined V V' a c p m) V).
  { assert (Hat : forall s, 0 <= s < 8 -> has_place c s -> moves (_addMember_at a k name false s) (fun ok V' => ok = true /\
      exists m, ms_guid m = k /\ ms_name m = name /\ has_place c (ms_group m) /\ joined V V' a c p m) V).
    { intros s Hs Hpl. apply (_addMember_at_moves V x a c k p (mkMS k name s false)); try done. intros V' HJ. split; [done|].
      by exists (mkMS k name s false). }
    unfold _addMember. mv_step. change (m_subGroupsCounts g) with (c_counts (core g)). rewrite Hg.
    pose proof (l_counts _ _ _ HL) as HC. unfold counts_ok in HC. destruct (c_counts c) as [n|] eqn:Ec.
    - destruct HC as (Ht & -> & _). destruct (free_subgroup_some (c_slots c) Gs) as (i & -> & Hi8 & Hlt).
      { unfold capacity, MAX_RAID_SIZE, MAX_GROUP_SIZE in Hr. case_match; lia. }
      apply Hat; [lia|]. unfold has_place. by rewrite Ec.
    - apply Hat; [lia|]. unfold has_place. by rewrite Ec. }
  eapply mv_conseq; [exact Hrun|]. cbv beta. intros ok V' (-> & m & Hmk & Hmn & Hmp & HJ). cbn [negb].
  pose proof HJ as [[HB' _] _ Hh' Hps' _].
  assert (Hlive : live a V') by (unfold live; rewrite Hh', lookup_insert_eq; by eexists).
  assert (Hon : online k V') by (unfold online; rewrite Hps', Hmk, lookup_insert_eq; by eexists).
  set (P := fun W => W = V').
  assert (HPl : forall W, base W -> P W -> live a W) by (intros W _ ->; done).
  assert (HPo : forall W, base W -> P W -> online k W) by (intros W _ ->; done).
  apply (mv_seq P); [by apply SendUpdate_calm|done..|intros _].
  apply (mv_seq P); [by apply notify_crossfaction_calm|done..|intros _].
  apply mv_look. intros w Hw. apply (mv_seq P); [|done..|intros _; mvs; by eapply HQ].
  destruct (GetPlayer k w); [|apply calm_ret].
  calms.
Qed.
End adding.

(** ** Leaders *)

Definition lead_core (k : Z) (name : string) (c : GCore) : GCore :=
  mkGC (c_slots c) (c_mgr c) (c_inv c) k name (c_id c) (c_type c) (c_bg c) (c_counts c) (c_icons c).
Definition row_lead (k : Z) (r : Z * bool) : Z * bool := (k, r.2).
Definition v_lead (a : Z) (c : GCore) (m : MemberSlot) (V : View) : View :=
  v_put_g a (lead_core (ms_guid m) (ms_name m) c) (v_set_groups (alter (row_lead (ms_guid m)) (c_id c) (v_groups V)) V).

Lemma grow_leader k (id : Z) (t : gmap Z groups_row) : grow <$> sql_update_row (row_set_leader k) id t = alter (row_lead k) id (grow <$> t).
Proof.
  apply map_eq. intros i. unfold sql_update_row. rewrite lookup_fmap. destruct (decide (id = i)) as [<-|].
  - rewrite !lookup_alter_eq, lookup_fmap. by destruct (t !! id).
  - by rewrite !lookup_alter_ne, lookup_fmap.
Qed.

Section leading.
Context (env : GroupEnv) `{!GroupEnvOk env}.
Context (V : View) (x : option Z) (a : Z) (c : GCore).
Context (HI : inv_but x V) (Hx : x = None \/ x = Some a) (Ha : v_heap V !! a = Some c) (HL : linked V a c).

Let HB : base V := proj1 HI.

(** The rows of the other groups have other leaders. *)
Lemma other_leaders id r : v_groups V !! id = Some r -> id <> c_id c -> r.1 ∉ guids (c_slots c).
Proof.
  intros Hr Hne Hin. destruct (b_groups V HB id r Hr) as (b & d & Hd & Hid & H0).
  destruct (decide (b = a)) as [E|Hba]; [rewrite E, Ha in Hd; injection Hd as <-; congruence|].
  destruct (proj2 HI b d Hd) as [_ HS]; [destruct Hx; congruence|]. rewrite <- Hid in Hr, Hne, H0.
  destruct HS as [(_ & ? & _)|(_ & _ & Hl & Hg)]; [congruence|]. rewrite Hg in Hr. injection Hr as <-. cbn in Hin.
  apply Hba. by apply (b_once V HB b a d c (c_leader d)).
Qed.

Section new_leader.
Context (m : MemberSlot) (Hm : slot_in (ms_guid m) (c_slots c) = Some m).

Let Vg : View := v_set_groups (alter (row_lead (ms_guid m)) (c_id c) (v_groups V)) V.
Lemma base_lead_row : base Vg.
Proof.
  apply (base_tables V (v_reg V) (v_ids V) (alter (row_lead (ms_guid m)) (c_id c) (v_groups V)) (v_rows V)); try apply HB.
  - pose proof (b_ids V HB). lia.
  - intros id r [(<- & r0 & H0 & _)|[_ Hr]]%lookup_alter_Some; eapply (b_groups V HB); eauto.
Qed.
Lemma lead_member : slot_ok m /\ ms_guid m ∈ guids (c_slots c).
Proof.
  split; [|apply slot_in_is_Some; by eexists]. destruct (slot_in_Some _ _ _ Hm) as [Hin _].
  pose proof (go_slots _ (b_wf V HB a c Ha)) as Hs. rewrite Forall_forall in Hs. by apply Hs.
Qed.
Lemma base_lead : base (v_lead a c m V).
Proof.
  apply (base_group Vg a c); [apply base_lead_row|done|done|]. pose proof (b_wf V HB a c Ha) as [? ? ? ? ? ? ?].
  split; try done. by destruct lead_member as [(_ & ? & _) _].
Qed.
Lemma inv_lead : inv_but (Some a) (v_lead a c m V).
Proof.
  apply (inv_frame x a V); [done..|apply base_lead|]. intros b d Hb Hd. cbn in Hd. rewrite lookup_insert_ne in Hd by done.
  split; [done|]. split; try done; [cbn; eauto|]. cbn. destruct (decide (c_id c = 0)) as [E0|].
  - destruct (decide (c_id d = 0)) as [Ed|]; [|by rewrite lookup_alter_ne by congruence].
    apply option_eq. intros r. split; intros Hr.
    + apply lookup_alter_Some in Hr as [(_ & r0 & H0 & _)|[_ Hr]]; [|done].
      destruct (b_groups V HB _ _ H0) as (? & ? & _ & _ & ?). congruence.
    + destruct (b_groups V HB _ _ Hr) as (? & ? & _ & _ & ?). congruence.
  - rewrite lookup_alter_ne; [done|]. intros E. symmetry in E. by apply (other_id V a c b d).
Qed.
Lemma linked_lead : linked (v_lead a c m V) a (lead_core (ms_guid m) (ms_name m) c).
Proof. destruct HL as [? ? ?]. by split. Qed.

Lemma settled_lead l : (2 <= length (c_slots c))%nat -> v_reg V !! c_id c = Some a ->
  v_groups V !! c_id c = Some (l, c_type c =? GROUPTYPE_RAID) ->
  settled_group (v_lead a c m V) a (lead_core (ms_guid m) (ms_name m) c).
Proof.
  intros H2 Hr Hg. right. cbn. split_and!; try done; [apply slot_in_is_Some; by eexists|]. by rewrite lookup_alter_eq, Hg.
Qed.

Lemma _setLeader_moves (Q : unit -> View -> Prop) :
  Q tt (v_lead a c m V) -> moves (_setLeader env a (ms_guid m)) Q V.
Proof.
  intros HQ. destruct lead_member as [(Hk & _ & _) Hin]. unfold _setLeader. mv_step.
  change (member_slot (ms_guid m) g) with (slot_in (ms_guid m) (c_slots (core g))). rewrite Hg, Hm.
  assert (isBGGroup g = false) as -> by (change (c_bg (core g) = false); rewrite Hg; apply (go_bg _ (b_wf V HB a c Ha))).
  mvs. apply (mv_alter _ Vg); [|done|].
  { intros w Hw. change (view (w_set_groups ?t w)) with (v_set_groups (grow <$> t) (view w)). rewrite Hw.
    unfold Vg. f_equal. rewrite GetCounter_player by (unfold is_u; lia).
    assert (m_Id g = c_id c) as -> by (rewrite <- Hg; done). unfold update_leader. rewrite bool_decide_true.
    - rewrite grow_leader. change (grow <$> t_groups w) with (v_groups (view w)). by rewrite Hw.
    - intros id r Hr. destruct (decide (id = c_id c)); [by left|right]. intros E.
      assert (Hv : v_groups V !! id = Some (grow r)) by (rewrite <- Hw; cbn; by rewrite lookup_fmap, Hr).
      apply (other_leaders id (grow r) Hv); [done|]. cbn. by rewrite E. }
  set (P := fun W : View => W = Vg).
  apply (mv_seq P); [|apply base_lead_row|done|intros _].
  { apply _updateLeaderFlag_calm. intros W _ ->. by exists c. }
  mvs. eapply (mv_g_mod a c (lead_core (ms_guid m) (ms_name m) c)); [done|by intros ? <-|done|].
  change (v_put_g a _ Vg) with (v_lead a c m V). 
  mvs. eapply (mv_g_mod a (lead_core (ms_guid m) (ms_name m) c) (lead_core (ms_guid m) (ms_name m) c));
    [by cbn; rewrite lookup_insert_eq|by intros ? <-|done|].
  rewrite put_g_id by (cbn; by rewrite lookup_insert_eq).
  apply (mv_calm (fun W => W = v_lead a c m V)); [|apply base_lead|done|by intros []].
  apply _updateLeaderFlag_calm. intros W _ ->. eexists. cbn. by rewrite lookup_insert_eq.
Qed.
Lemma ChangeLeader_moves (Q : unit -> View -> Prop) :
  Q tt (v_lead a c m V) -> moves (ChangeLeader env a (ms_guid m)) Q V.
Proof.
  intros HQ. destruct lead_member as [(_ & Hn & _) _]. unfold ChangeLeader. mv_step.
  change (member_slot (ms_guid m) g) with (slot_in (ms_guid m) (c_slots (core g))). rewrite Hg, Hm.
  apply mv_bind, _setLeader_moves. set (P := fun W => W = v_lead a c m V).
  assert (HP : forall W, base W -> P W -> live a W).
  { intros W _ ->. eexists. cbn. by rewrite lookup_insert_eq. }
  apply (mv_calm P); [|apply base_lead|done|by intros []]. calms.
Qed.
End new_leader.

(** The scan finds members. *)
Lemma scan_leader_members w leader raid l first chosen first' :
  scan_leader w a leader raid l first = (chosen, first') ->
  (chosen = 0 \/ chosen ∈ guids l) /\ (first' = first \/ first' ∈ guids l).
Proof.
  revert first. unfold guids. induction l as [|m l IH]; intros first; cbn; [intros [= <- <-]; auto|].
  setoid_rewrite elem_of_cons. repeat case_match; try (intros [? ?]%IH; intuition congruence).
  intros [= <- <-]. auto.
Qed.
(** Whoever is chosen is a member. *)
Lemma _chooseLeader_moves off (Q : unit -> View -> Prop) :
  (2 <= length (c_slots c))%nat -> (off = true -> Q tt V) ->
  (forall m, slot_in (ms_guid m) (c_slots c) = Some m -> Q tt (v_lead a c m V)) ->
  moves (_chooseLeader env a off) Q V.
Proof.
  intros H2 HQ0 HQ. unfold _chooseLeader. mv_step. pose proof (b_wf V HB a c Ha) as [_ Gs Gb Gz _ _ _].
  assert (GetMembersCount g = Z.of_nat (length (c_slots c))) as ->.
  { rewrite <- Hg. unfold GetMembersCount. change (m_memberSlots g) with (c_slots (core g)). rewrite Hg.
    apply Z.mod_small. unfold capacity, MAX_GROUP_SIZE, MAX_RAID_SIZE in Gz. case_match; lia. }
  assert (GetMembersMinCount g = 2) as ->.
  { unfold GetMembersMinCount. change (isBGGroup g) with (c_bg (core g)). by rewrite Hg, Gb. }
  destruct (Z.ltb_spec (Z.of_nat (length (c_slots c))) 2); [lia|]. mv_step.
  change (m_memberSlots g) with (c_slots (core g)). rewrite Hg. cbv beta. unfold id.
  destruct (scan_leader w a _ _ _ 0) as [chosen first] eqn:Es. apply scan_leader_members in Es as [Hc Hf].
  assert (Hpick : forall k, k ∈ guids (c_slots c) -> moves (if off then ChangeLeader env a k else _setLeader env a k) Q V).
  { intros k [m Hm]%slot_in_is_Some. destruct (slot_in_Some _ _ _ Hm) as [_ <-].
    destruct off; [apply ChangeLeader_moves|apply _setLeader_moves]; auto. }
  assert (Hch : (if chosen =? 0 then first else chosen) = 0 \/ (if chosen =? 0 then first else chosen) ∈ guids (c_slots c)).
  { destruct (Z.eqb_spec chosen 0); [tauto|]. destruct Hc; [done|by right]. }
  destruct off, (Z.eqb_spec (if chosen =? 0 then first else chosen) 0) as [E|E]; cbn [andb]; try (apply mv_ret; auto).
  1-3: destruct (c_slots c) as [|m0 l] eqn:El; [cbn in H2; lia|]; cbn [deref head]; mvs; apply Hpick.
  - by destruct Hch.
  - by left.
  - by destruct Hch.
Qed.
End leading.

(** ** Leaving *)

Lemma removeRolls_moves env `{!GroupEnvOk env} V a c k (Q : unit -> View -> Prop) :
  v_heap V !! a = Some c -> Q tt V -> moves (_removeRolls env a k) Q V.
Proof.
  intros Ha HQ X w HV Hr. rewrite <- HV in Ha. destruct (group_view _ _ _ Ha) as (g & Hg & _).
  eapply wp_conseq; [apply (_removeRolls_wp env X V a k (RollId g)); by split_and!; [..|exists g]|].
  cbv beta. intros [] w' (-> & ? & _). done.
Qed.
Definition unrefer (p : PCore) : PCore := refer None (p_sub p) p.
Definition leave_core (k : Z) (m : MemberSlot) (c : GCore) : GCore :=
  set_cnt (alter (fun n => u8 (n + -1)) (Z.to_nat (ms_group m)) <$> c_counts c)
    (set_slot_list (erase_slot k (c_slots c)) (set_mgr (without k (c_mgr c)) c)).
Definition rows_without (k : Z) (t : gmap (Z * Z) member_row) : gmap (Z * Z) member_row :=
  sql_delete_rows (fun i _ => i.2 =? k) t.
Definition v_leave (a : Z) (c : GCore) (m : MemberSlot) (V : View) : View :=
  mkV (<[a := leave_core (ms_guid m) m c]> (v_heap V)) (alter unrefer (ms_guid m) (v_ps V)) (v_next V) (v_reg V) (v_ids V)
    (v_groups V) (rows_without (ms_guid m) (v_rows V)).

Lemma lookup_rows_without k t i j r : rows_without k t !! (i, j) = Some r <-> t !! (i, j) = Some r /\ j <> k.
Proof.
  unfold rows_without, sql_delete_rows. rewrite map_lookup_filter_Some. cbn. by rewrite Z.eqb_neq.
Qed.
Lemma rows_without_eq k t i j : rows_without k t !! (i, j) = if decide (j = k) then None else t !! (i, j).
Proof.
  apply option_eq. intros r. rewrite lookup_rows_without. case_decide; naive_solver.
Qed.

Lemma set_ps_self V : v_set_ps (v_ps V) V = V.
Proof. by destruct V. Qed.

Section leaving.
Context (env : GroupEnv) `{!GroupEnvOk env}.
Context (V : View) (x : option Z) (a : Z) (c : GCore) (m : MemberSlot).
Context (HI : inv_but x V) (Hx : x = None \/ x = Some a) (Ha : v_heap V !! a = Some c) (HL : linked V a c).
Context (Hm : slot_in (ms_guid m) (c_slots c) = Some m).

Let HB : base V := proj1 HI.
Let k : Z := ms_guid m.
Let c1 : GCore := set_mgr (without k (c_mgr c)) c.
(** The member is taken out of the references, if he is online. *)
Let V1 : View := v_set_ps (alter unrefer k (v_ps V)) (v_put_g a c1 V).

Lemma leave_slot : slot_ok m /\ k ∈ guids (c_slots c).
Proof. by apply (lead_member V x a c). Qed.
Lemma leave_refs p : v_ps V !! k = Some p -> p_group p = None \/ p_group p = Some a.
Proof. intros Hp. by apply (refers_here V a c k); [| |apply leave_slot|]. Qed.
Lemma leave_V1_online p : v_ps V !! k = Some p -> v_detach V a c k p = V1.
Proof.
  intros Hp. unfold V1, v_detach, v_put_p, v_set_ps. cbn. by rewrite (alter_is_insert unrefer _ k p).
Qed.
Lemma leave_V1_offline : v_ps V !! k = None -> V1 = V.
Proof.
  intros Hp. unfold V1, c1. rewrite without_absent.
  - rewrite set_mgr_self, put_g_id by done. unfold v_set_ps. replace (alter unrefer k (v_ps V)) with (v_ps V); [apply set_ps_self|].
    apply map_eq. intros j. destruct (decide (k = j)) as [<-|]; [by rewrite lookup_alter_eq, Hp|by rewrite lookup_alter_ne].
  - intros Hin. destruct (b_mgr V HB a c _ Ha Hin) as (_ & p & Hq & _). cbn in Hq. congruence.
Qed.
Lemma base_leave_refs : base V1.
Proof.
  destruct (v_ps V !! k) as [p|] eqn:Hp.
  - rewrite <- (leave_V1_online p Hp). apply base_detach; auto. by apply leave_refs.
  - by rewrite leave_V1_offline.
Qed.

Lemma inv_leave_refs : inv_but (Some a) V1.
Proof.
  destruct leave_slot as [_ Hin]. apply (inv_frame x a V); [done..|apply base_leave_refs|].
  intros b d Hb Hd. cbn in Hd. rewrite lookup_insert_ne in Hd by done. split; [done|].
  split; try done. cbn. intros j q [(<- & q0 & _ & ->)|[_ Hj]]%lookup_alter_Some Hjd; [|eauto].
  exfalso. apply Hb. by apply (b_once V HB b a d c k).
Qed.

Let V2 : View := v_put_g a (leave_core k m c) V1.
Lemma leave_core_ok : group_ok (leave_core k m c).
Proof.
  destruct (b_wf V HB a c Ha) as [G1 G2 G3 G4 G5 G6 G7]. split; cbn; try done.
  - rewrite guids_erase by done. by apply NoDup_filter.
  - by apply Forall_erase.
  - unfold capacity in *. cbn. destruct leave_slot as [_ Hin]. pose proof (length_erase k _ Hin). case_match; lia.
  - by apply NoDup_filter.
Qed.
Lemma base_leave_slots : base V2.
Proof.
  pose proof (go_once _ (b_wf V HB a c Ha)) as Hn.
  apply (base_slots V1 a c1); try done; [apply base_leave_refs|cbn; by rewrite lookup_insert_eq|apply leave_core_ok|..].
  - cbn. intros H0. destruct leave_slot as [_ Hin]. rewrite (proj2 (b_id V HB a c Ha) H0) in Hin. by apply elem_of_nil in Hin.
  - cbn. intros j. rewrite guids_erase by done. intros [_ Hj]%list_elem_of_filter. by left.
  - cbn. intros j q Hj Hq. rewrite guids_erase by done. apply list_elem_of_filter.
    apply lookup_alter_Some in Hj as [(<- & q0 & _ & ->)|[Hne Hj]]; [done|]. split; [done|].
    destruct (b_ref V HB j q a Hj Hq) as (d & Hd & Hin & _). by rewrite Ha in Hd; injection Hd as <-.
Qed.
Lemma v_leave_eq : v_leave a c m V = v_set_rows (rows_without k (v_rows V)) V2.
Proof. unfold v_leave, V2, V1, v_put_g, v_set_ps, v_set_rows. cbn. by rewrite insert_insert_eq. Qed.
Lemma base_v_leave : base (v_leave a c m V).
Proof.
  rewrite v_leave_eq. pose proof base_leave_slots as HB2.
  apply (base_tables V2 (v_reg V) (v_ids V) (v_groups V)); [done|pose proof (b_ids V HB); cbn; lia|..].
  - apply (b_reg _ HB2).
  - apply (b_groups _ HB2).
  - intros i j r [Hr _]%lookup_rows_without. by apply (b_rows _ HB2 i j r).
Qed.
Lemma inv_leave : inv_but (Some a) (v_leave a c m V).
Proof.
  destruct leave_slot as [_ Hin]. apply (inv_frame x a V); [done..|apply base_v_leave|].
  intros b d Hb Hd. cbn in Hd. rewrite lookup_insert_ne in Hd by done. split; [done|].
  assert (Hno : k ∉ guids (c_slots d)) by (intros Hk; apply Hb; by apply (b_once V HB b a d c k)).
  split; try done; cbn.
  - intros j q [(<- & q0 & _ & ->)|[_ Hj]]%lookup_alter_Some Hjd; [done|eauto].
  - intros j. rewrite rows_without_eq. case_decide as E; [|done]. fold k in E. rewrite E. symmetry.
    destruct (proj2 HI b d Hd) as [[_ Hrows _] _]; [destruct Hx; congruence|].
    destruct (decide (c_id d = 0)) as [E0|H0].
    + destruct (v_rows V !! (c_id d, k)) as [r|] eqn:Er; [|done]. by destruct (b_rows V HB _ _ _ Er) as (? & ? & _ & _ & ?).
    + rewrite (Hrows H0). apply slot_in_None in Hno. by rewrite Hno.
Qed.
Lemma linked_leave : linked (v_leave a c m V) a (leave_core k m c).
Proof.
  pose proof (go_once _ (b_wf V HB a c Ha)) as Hn. destruct leave_slot as [(_ & _ & Hs) _].
  destruct HL as [L1 L2 L3]. split; cbn.
  - intros j q m'. rewrite slot_in_erase by done. case_decide as E; [done|].
    intros [(E' & _)|[_ Hj]]%lookup_alter_Some; [by destruct E; symmetry|]. by apply L1.
  - intros H0 j. rewrite rows_without_eq, slot_in_erase by done. fold k. case_decide; [done|]. by apply L2.
  - unfold counts_ok in *. cbn. destruct (c_counts c) as [n|]; cbn.
    + destruct L3 as (Ht & -> & Hf). split; [done|]. change MAX_RAID_SUBGROUPS with 8 in Hs.
      rewrite (counts_leave (c_slots c) k m _ eq_refl Hm Hs).
      2:{ pose proof (go_size _ (b_wf V HB a c Ha)) as Hz. unfold capacity, MAX_GROUP_SIZE, MAX_RAID_SIZE in Hz. case_match; lia. }
      split; [done|]. apply raid_counts_few. intros i Hi. pose proof (proj1 (raid_counts_few _) Hf i Hi) as Hle.
      rewrite (sub_count_erase k m) in Hle by done. unfold unit_at in Hle. case_match; lia.
    + destruct L3. split; [done|]. by apply Forall_erase.
Qed.

Lemma _removeMember_moves (Q : bool -> View -> Prop) :
  (3 <= length (c_slots c))%nat ->
  (c_leader c <> k -> Q false (v_leave a c m V)) ->
  (c_leader c = k -> forall m', slot_in (ms_guid m') (erase_slot k (c_slots c)) = Some m' ->
    Q true (v_lead a (leave_core k m c) m' (v_leave a c m V))) ->
  moves (_removeMember env a k) Q V.
Proof.
  intros H3 HQ1 HQ2. pose proof leave_slot as [(Hk & _ & Hs) Hin]. pose proof (b_wf V HB a c Ha) as [_ _ Gb _ _ _ _].
  unfold _removeMember. apply mv_find; [done|]. intros o Ho. mv_step.
  assert (isBGGroup g = false) as -> by (change (c_bg (core g) = false); by rewrite Hg).
  cbn [detach]. apply mv_bind.
  assert (Hdet : moves (match o with Some _ => detach a false k | None => st_ret tt end) (fun _ V' => V' = V1) V).
  { destruct o as [q|]; cbn [found] in Ho.
    - unfold detach. mv_step. change (GetOriginalGroup q0) with (p_orig (pcore q0)). rewrite Hq.
      rewrite (po_orig _ _ (b_player V HB k _ Ho)). cbn.
      apply (unlink_moves V HB a c k (pcore q)); [done..|by apply leave_refs|by apply leave_V1_online].
    - apply mv_ret. by rewrite leave_V1_offline. }
  eapply mv_conseq; [exact Hdet|]. cbv beta. intros [] V' ->. apply mv_bind.
  assert (H1 : v_heap V1 !! a = Some c1) by (cbn; by rewrite lookup_insert_eq).
  eapply (removeRolls_moves _ V1 a c1); [done|]. eapply (mv_group a c1); [done|]. intros g1 Hg1.
  assert (isBGGroup g1 = false) as -> by (change (c_bg (core g1) = false); by rewrite Hg1).
  assert (member_slot k g1 = Some m) as -> by (change (slot_in k (c_slots (core g1)) = Some m); by rewrite Hg1).
  mvs. eapply counter_moves; [exact H1| |].
  { intros n Hn. change (c_counts c = Some n) in Hn. pose proof (l_counts _ _ _ HL) as HC. unfold counts_ok in HC.
    rewrite Hn in HC. destruct HC as (_ & -> & _). change MAX_RAID_SUBGROUPS with 8 in Hs. eexists. apply raid_counts_lookup. lia. }
  mvs. eapply (mv_g_mod a _ (leave_core k m c)); [by cbn; rewrite lookup_insert_eq| |done|].
  { intros g2 Hg2. transitivity (set_slot_list (erase_slot k (c_slots (core g2))) (core g2)); [done|]. by rewrite Hg2. }
  rewrite put_g_put. mvs. apply (mv_alter _ (v_leave a c m V)); [|done|].
  { intros w Hw. change (view (w_set_group_member ?t w)) with (v_set_rows t (view w)). rewrite Hw, v_leave_eq. f_equal.
    rewrite GetCounter_player by (unfold is_u; unfold k in *; lia). change (t_group_member w) with (v_rows (view w)). by rewrite Hw. }
  assert (m_leaderGuid g1 = c_leader c) as -> by (change (c_leader (core g1) = c_leader c); by rewrite Hg1).
  destruct (Z.eqb_spec (c_leader c) k) as [E|E]; [|mvs; by apply HQ1].
  assert (Hh' : v_heap (v_leave a c m V) !! a = Some (leave_core k m c)) by (cbn; by rewrite lookup_insert_eq).
  apply (mv_seq (fun W => W = v_leave a c m V)); [|apply base_v_leave|done|intros _].
  { apply _updateLeaderFlag_calm. intros W _ ->. by eexists. }
  mvs. eapply (_chooseLeader_moves env _ (Some a) a (leave_core k m c)); [apply inv_leave|by right|done|apply linked_leave| |done|].
  - cbn. pose proof (length_erase k _ Hin). lia.
  - intros m' Hm'. mvs. by apply HQ2.
Qed.
End leaving.
