(* ===== verification/GroupEnds.v ===== *)
(** * GroupEnds: groups that are created and groups that end *)

From stdpp Require Import gmap fin_maps strings.
From S2P Require Import Prelude ByteBuffer Codec ObjectGuid Packets Effects Incoming Social.
From S2P Require Import GroupData GroupRolls GroupLists LFG Group GroupRaid GroupHandlers MeetingStones GroupLife GroupInv GroupCalm GroupVotes GroupMoves GroupOps GroupMembers.

Local Open Scope prog_scope.

(** ** The registry *)

Lemma view_reg t w : view (w_set_GroupMap t w) = v_set_reg t (view w).
Proof. done. Qed.
Lemma AddGroup_moves V a c (Q : unit -> View -> Prop) :
  v_heap V !! a = Some c -> Q tt (v_set_reg (<[c_id c := a]> (v_reg V)) V) -> moves (AddGroup a) Q V.
Proof.
  intros Ha HQ. unfold AddGroup. mv_step. assert (m_Id g = c_id c) as -> by by rewrite <- Hg.
  eapply mv_alter; [|done|exact HQ]. intros w <-. apply view_reg.
Qed.
Lemma RemoveGroup_moves V a c (Q : unit -> View -> Prop) :
  v_heap V !! a = Some c -> Q tt (v_set_reg (delete (c_id c) (v_reg V)) V) -> moves (RemoveGroup a) Q V.
Proof.
  intros Ha HQ. unfold RemoveGroup. mv_step. assert (m_Id g = c_id c) as -> by by rewrite <- Hg.
  eapply mv_alter; [|done|exact HQ]. intros w <-. apply view_reg.
Qed.

(** The statements on the tables that create and end a group. *)
Lemma delete_group_row V id (Q : unit -> View -> Prop) : Q tt (v_set_groups (delete id (v_groups V)) V) ->
  moves (alter_world (fun w => w_set_groups (delete id (t_groups w)) w)) Q V.
Proof.
  intros HQ. eapply mv_alter; [|done|exact HQ]. intros w <-.
  change (view (w_set_groups ?t w)) with (v_set_groups (grow <$> t) (view w)). by rewrite fmap_delete.
Qed.
Lemma delete_member_rows V id (Q : unit -> View -> Prop) :
  Q tt (v_set_rows (sql_delete_rows (fun k _ => k.1 =? id) (v_rows V)) V) ->
  moves (alter_world (fun w => w_set_group_member (sql_delete_rows (fun k _ => k.1 =? id) (t_group_member w)) w)) Q V.
Proof. intros HQ. eapply mv_alter; [|done|exact HQ]. by intros w <-. Qed.
Lemma insert_group_row V id r (Q : unit -> View -> Prop) :
  v_groups V !! id = None -> (forall i x, v_groups V !! i = Some x -> x.1 <> gr_leaderGuid r) ->
  Q tt (v_set_groups (<[id := grow r]> (v_groups V)) V) ->
  moves (alter_world (fun w => w_set_groups (insert_groups id r (t_groups w)) w)) Q V.
Proof.
  intros Hf Hl HQ. eapply mv_alter; [|done|exact HQ]. intros w <-.
  change (view (w_set_groups ?t w)) with (v_set_groups (grow <$> t) (view w)). cbn in Hf, Hl. unfold insert_groups.
  rewrite bool_decide_true.
  - unfold sql_insert_row. rewrite lookup_fmap in Hf. destruct (t_groups w !! id); [done|]. by rewrite fmap_insert.
  - intros i x Hx. cbn. apply (Hl i (grow x)). by rewrite lookup_fmap, Hx.
Qed.

(** ** Creating *)

Section creating.
Context (env : GroupEnv) `{!GroupEnvOk env}.
Context (V : View) (a : Z) (c : GCore) (k : Z) (p : PCore) (name : string).
Context (HI : inv_but (Some a) V) (Ha : v_heap V !! a = Some c) (HL : linked V a c).
Context (Hs : c_slots c = []) (H0 : c_id c = 0) (Hc : c_counts c = None).
Context (Hk : v_ps V !! k = Some p) (Hp : p_group p = None) (Hinv : p_invite p = None) (Hn : short name).
Context (Hids : v_ids V + 1 < 2 ^ 32).

Let HB : base V := proj1 HI.
Let id := v_ids V.

Definition made_core : GCore := set_id id (lead_core k name c).
Definition v_made : View :=
  mkV (<[a := made_core]> (v_heap V)) (v_ps V) (v_next V) (v_reg V) (id + 1) (<[id := (k, false)]> (v_groups V)) (v_rows V).

Lemma made_normal : c_type c = GROUPTYPE_NORMAL.
Proof. pose proof (l_counts _ _ _ HL) as H. unfold counts_ok in H. rewrite Hc in H. apply H. Qed.
(** Nothing is known of the new id. *)
Lemma id_fresh : v_groups V !! id = None /\ (forall j, v_rows V !! (id, j) = None) /\
  forall b d, v_heap V !! b = Some d -> c_id d < id.
Proof.
  assert (Hlt : forall b d, v_heap V !! b = Some d -> c_id d < id) by (intros b d Hd; apply (b_id V HB b d Hd)).
  split_and!; [| |done].
  - destruct (v_groups V !! id) as [r|] eqn:E; [|done]. destruct (b_groups V HB _ _ E) as (b & d & Hd & He & _).
    specialize (Hlt b d Hd). lia.
  - intros j. destruct (v_rows V !! (id, j)) as [r|] eqn:E; [|done]. destruct (b_rows V HB _ _ _ E) as (b & d & Hd & He & _).
    specialize (Hlt b d Hd). lia.
Qed.
Lemma base_made : base v_made.
Proof.
  destruct id_fresh as (_ & _ & Hlt). pose proof (b_ids V HB) as Hb. set (V0 := v_put_g a (lead_core k name c) V).
  assert (HB0 : base V0).
  { apply (base_group V a c); try done. pose proof (b_wf V HB a c Ha) as [? ? ? ? ? ? ?]. by split. }
  assert (HB1 : base (mkV (<[a := made_core]> (v_heap V)) (v_ps V) (v_next V) (v_reg V) (id + 1) (v_groups V) (v_rows V))).
  { pose proof (base_set_id V0 a (lead_core k name c) HB0) as H1. cbn in H1. rewrite lookup_insert_eq, insert_insert_eq in H1.
    apply H1; [done|done|lia]. }
  eapply (base_tables _ (v_reg V) (id + 1) (<[id := (k, false)]> (v_groups V)) (v_rows V) HB1); try apply HB1.
  - cbn. lia.
  - intros i r [[<- _]|[_ Hr]]%lookup_insert_Some; [|by apply (b_groups _ HB1 i r)].
    exists a, made_core. cbn. rewrite lookup_insert_eq. split_and!; [done..|unfold id; lia].
Qed.
Lemma inv_made : inv_but (Some a) v_made.
Proof.
  destruct id_fresh as (_ & _ & Hlt). apply (inv_frame (Some a) a V); [done|by right|apply base_made|].
  intros b d Hb Hd. cbn in Hd. rewrite lookup_insert_ne in Hd by done. split; [done|]. pose proof (Hlt b d Hd).
  split; try done; cbn; [eauto|]. rewrite lookup_insert_ne; [done|lia].
Qed.
Lemma linked_made : linked v_made a made_core.
Proof.
  destruct id_fresh as (_ & Hrows & _). destruct HL as [L1 L2 L3]. split; [|intros _ j|]; cbn.
  - intros j q m Hj. rewrite Hs. done.
  - rewrite Hrows. by rewrite Hs.
  - done.
Qed.

(** The row of the new group is not refused. *)
Lemma no_leader i r : v_groups V !! i = Some r -> r.1 <> k.
Proof.
  intros Hr E. destruct (b_groups V HB i r Hr) as (b & d & Hd & Hi & Hne).
  destruct (decide (b = a)) as [Eb|Hb]; [rewrite Eb, Ha in Hd; injection Hd as <-; congruence|].
  destruct (proj2 HI b d Hd) as [_ HS]; [congruence|].
  destruct HS as [(_ & ? & _)|(_ & _ & Hl & Hg)]; [congruence|].
  rewrite Hi, Hr in Hg. injection Hg as ->. cbn in E. rewrite E in Hl.
  eapply (not_elsewhere V (Some a) a k p b d); eauto.
Qed.

Lemma no_member_rows (i : Z) (t : gmap (Z * Z) member_row) : (forall j, t !! (i, j) = None) -> sql_delete_rows (fun k _ => k.1 =? i) t = t.
Proof.
  intros Hf. apply map_filter_id. intros [i' j] r Hr. apply Z.eqb_neq. cbn. intros ->. by rewrite Hf in Hr.
Qed.

Definition created (V' : View) : Prop := exists m, ms_guid m = k /\ ms_name m = name /\ joined v_made V' a made_core p m.
Lemma Create_moves (Q : bool -> View -> Prop) :
  (forall V', created V' -> Q true V') -> moves (Create env a k name) Q V.
Proof.
  intros HQ. destruct id_fresh as (Hfg & Hfr & _). pose proof (b_wf V HB a c Ha) as [_ _ Gb _ _ _ _].
  pose proof (b_player V HB k p Hk) as [_ Hk0 _ _ _]. set (c0 := lead_core k name c). set (V0 := v_put_g a c0 V).
  assert (HV0 : v_heap V0 !! a = Some c0) by (cbn; by rewrite lookup_insert_eq).
  assert (Hid : v_put_g a c0 V0 = V0) by by apply put_g_id.
  unfold Create. mv_step. eapply (mv_g_mod a c c0); [done|by intros ? <-|done|].
  mv_step. eapply (mv_g_mod a c0 c0); [done|by intros ? <-|done|]. fold V0. rewrite Hid.
  mv_step. eapply (mv_g_mod a c0 c0); [done| |by intros g0; case_match|].
  { intros g0 Hg0. assert (isBGGroup g0 = false) as -> by (change (c_bg (core g0) = false); by rewrite Hg0).
    rewrite <- Hg0. pose proof made_normal as Ht. change (c_type c0 = GROUPTYPE_NORMAL) in Ht. rewrite <- Hg0 in Ht.
    unfold core in Ht |- *. cbn in Ht |- *. by rewrite Ht. }
  rewrite Hid. cbv beta. eapply (mv_group a c0); [done|]. intros g Hg.
  assert (isRaidGroup g = false) as -> by (change (c_type (core g) =? 1 = false); rewrite Hg; cbn; by rewrite made_normal).
  assert (isBGGroup g = false) as -> by (change (c_bg (core g) = false); by rewrite Hg).
  mvs. eapply (mv_g_mod a c0 c0); [done|by intros ? <-|done|]. rewrite Hid.
  mvs. eapply (mv_g_mod a c0 c0); [done|by intros ? <-|done|]. rewrite Hid.
  unfold GenerateGroupId. mvs.
  assert (m_GroupIds w = id) as -> by (change (v_ids (view w) = id); by rewrite Hw).
  apply (mv_alter _ (mkV (v_heap V0) (v_ps V) (v_next V) (v_reg V) (id + 1) (v_groups V) (v_rows V))); [|done|].
  { intros w1 Hw1. assert (u32 (id + 1) = id + 1) as -> by (apply Z.mod_small; unfold id; pose proof (b_ids V HB); lia).
    change (mkV (v_heap (view w1)) (v_ps (view w1)) (v_next (view w1)) (v_reg (view w1)) (id + 1) (v_groups (view w1)) (v_rows (view w1)) =
      mkV (v_heap V0) (v_ps V) (v_next V) (v_reg V) (id + 1) (v_groups V) (v_rows V)). by rewrite Hw1. }
  mvs. set (V1 := mkV (<[a := made_core]> (v_heap V)) (v_ps V) (v_next V) (v_reg V) (id + 1) (v_groups V) (v_rows V)).
  eapply (mv_g_mod a c0 made_core); [done|intros g0 Hg0; transitivity (set_id id (core g0)); [done|by rewrite Hg0]|done|].
  replace (v_put_g a made_core _) with V1 by (unfold V1, V0, v_put_g; cbn; by rewrite insert_insert_eq).
  mvs. eapply (mv_group a made_core); [cbn; by rewrite lookup_insert_eq|]. intros g2 Hg2.
  mvs. apply delete_group_row. cbn. rewrite delete_id by done.
  mvs. apply delete_member_rows. cbn. rewrite no_member_rows by done.
  mvs. apply insert_group_row; cbn; [done| |].
  { change (m_leaderGuid g2) with (c_leader (core g2)). rewrite Hg2. cbn. rewrite GetCounter_player by (unfold is_u; lia). apply no_leader. }
  replace (v_set_groups _ _) with v_made.
  2:{ unfold v_made, V1, v_set_groups, grow. cbn. change (m_leaderGuid g2) with (c_leader (core g2)).
    change (isRaidGroup g2) with (c_type (core g2) =? 1). rewrite Hg2. cbn. by rewrite GetCounter_player, made_normal by (unfold is_u; lia). }
  apply mv_bind. apply (AddMember_moves env v_made (Some a) a made_core k p name); try done.
  - apply inv_made.
  - by right.
  - cbn. by rewrite lookup_insert_eq.
  - apply linked_made.
  - cbn. unfold id. pose proof (b_ids V HB). lia.
  - cbn. rewrite Hs. unfold capacity. cbn. case_match; done.
  - intros V' m Hm1 Hm2 _ HJ. cbn [negb]. pose proof HJ as [[HB' _] _ Hh _ _].
    apply (mv_seq (fun W => W = V')); [|done..|intros _].
    { apply _updateLeaderFlag_calm. intros W _ ->. eexists. by rewrite Hh, lookup_insert_eq. }
    eapply (mv_group a); [by rewrite Hh, lookup_insert_eq|]. intros g3 _. mvs. apply HQ. by exists m.
Qed.
End creating.

(** ** Disbanding *)

Definition drop_refs (ks : list Z) (ps : gmap Z PCore) : gmap Z PCore :=
  map_imap (fun k p => Some (if decide (k ∈ ks) then unrefer p else p)) ps.
Lemma lookup_drop_refs ks ps k q : drop_refs ks ps !! k = Some q <->
  exists p, ps !! k = Some p /\ q = if decide (k ∈ ks) then unrefer p else p.
Proof.
  unfold drop_refs. rewrite map_lookup_imap. destruct (ps !! k) as [p|]; cbn; [|naive_solver].
  split; [intros [= <-]; eauto|]. by intros (? & [= <-] & ->).
Qed.
Lemma drop_refs_nil ps : drop_refs [] ps = ps.
Proof.
  apply map_eq. intros k. unfold drop_refs. rewrite map_lookup_imap. destruct (ps !! k); [|done]. cbn.
  by rewrite decide_False by apply not_elem_of_nil.
Qed.
Lemma drop_refs_cons k ks ps : drop_refs ks (alter unrefer k ps) = drop_refs (k :: ks) ps.
Proof.
  apply map_eq. intros j. unfold drop_refs. rewrite !map_lookup_imap. destruct (decide (k = j)) as [<-|].
  - rewrite lookup_alter_eq. destruct (ps !! k); [|done]. cbn. rewrite (decide_True (P := k ∈ k :: ks)) by by left.
    by case_decide.
  - rewrite lookup_alter_ne by done. destruct (ps !! j); [|done]. cbn. do 2 f_equal.
    repeat case_decide; try done; set_solver.
Qed.

Section disbanding.
Context (env : GroupEnv) `{!GroupEnvOk env}.

(** The members at the end of the slots are let go. *)
Lemma disband_members_moves a g hide who l : forall V c rem (Q : option Z -> View -> Prop),
  inv_but (Some a) V -> v_heap V !! a = Some c -> isBGGroup g = false ->
  (forall m, m ∈ l -> slot_in (ms_guid m) (c_slots c) = Some m) ->
  (forall V' l' r, inv_but (Some a) V' -> v_heap V' = <[a := set_mgr l' c]> (v_heap V) ->
    v_ps V' = drop_refs (guids l) (v_ps V) -> v_reg V' = v_reg V -> v_groups V' = v_groups V -> v_rows V' = v_rows V ->
    v_ids V' = v_ids V -> Q r V') ->
  moves (disband_members a g hide who l rem) Q V.
Proof.
  induction l as [|m l IH]; intros V c rem Q HI Ha Hg Hl HQ; cbn [disband_members].
  { apply mv_ret. apply (HQ V (c_mgr c)); try done; [by rewrite set_mgr_self, insert_id|by rewrite drop_refs_nil]. }
  assert (Hm : slot_in (ms_guid m) (c_slots c) = Some m) by (apply Hl; by left). pose proof HI as [HB _].
  set (V1 := v_set_ps (alter unrefer (ms_guid m) (v_ps V)) (v_put_g a (set_mgr (without (ms_guid m) (c_mgr c)) c) V)).
  assert (HI1 : inv_but (Some a) V1) by (apply (inv_leave_refs V (Some a) a c m); auto). pose proof HI1 as [HB1 _].
  assert (Hrest : forall V2 r, V2 = V1 -> moves (disband_members a g hide who l r) Q V2).
  { intros V2 r ->. apply (IH V1 (set_mgr (without (ms_guid m) (c_mgr c)) c)); [done|cbn; by rewrite lookup_insert_eq|done| |].
    - intros m' Hm'. apply Hl. by right.
    - intros V' l' r' H1 H2 H3 H4 H5 H6 H7. apply (HQ V' l'); try done; [|by rewrite H3; cbn; rewrite drop_refs_cons].
      rewrite H2. cbn. by rewrite insert_insert_eq. }
  apply mv_find; [done|]. intros [q|] Ho; cbn [found] in Ho.
  2:{ apply Hrest. symmetry. by apply (leave_V1_offline V (Some a) a c m). }
  assert (Hon : v_ps V1 !! ms_guid m = Some (unrefer (pcore q))) by (cbn; by rewrite lookup_alter_eq, Ho).
  rewrite Hg. cbn [detach]. mvs.
  change (GetOriginalGroup q0) with (p_orig (pcore q0)). rewrite Hq, (po_orig _ _ (b_player V HB _ _ Ho)). cbn.
  apply (unlink_moves V HB a c (ms_guid m) (pcore q)); [done..|by apply (leave_refs V (Some a) a c m)|].
  rewrite (leave_V1_online V a c m (pcore q) Ho). fold V1. set (P := fun W : View => W = V1).
  apply (mv_seq P); [|done..|intros _]. { case_match; calms. }
  apply (mv_seq P); [|done..|intros _]. { case_match; calms. }
  assert (Hng : forall q0, pcore q0 = unrefer (pcore q) -> GetGroup q0 = None).
  { intros q1 Hq1. change (p_group (pcore q1) = None). by rewrite Hq1. }
  assert (Ha1 : v_heap V1 !! a = Some (set_mgr (without (ms_guid m) (c_mgr c)) c)) by (cbn; by rewrite lookup_insert_eq).
  mvs. apply (mv_calm P); [|done..|intros _].
  { unfold show_left. apply calm_player_at; [intros W _ HW; rewrite HW; by eexists|]. intros q1.
    apply (calm_pure (GetGroup q1 = None)); [|intros ->; calms]. intros W _ [HW Hq1]. rewrite HW, Hon in Hq1.
    apply Hng. apply (inj Some) in Hq1. by symmetry. }
  eapply mv_player; [exact Hon|]. intros q1 Hq1. eapply (mv_group a); [exact Ha1|]. intros h _.
  apply (mv_seq P); [case_match; calms|done..|intros _].
  case_match; mvs; by apply Hrest.
Qed.

Record disbanded (V V' : View) (a : Z) (c c' : GCore) : Prop := {
  db_inv : inv_but (Some a) V'; db_heap : v_heap V' !! a = Some c'; db_slots : c_slots c' = []; db_invitees : c_inv c' = ∅;
  db_id : c_id c' = c_id c; db_groups : v_groups V' !! c_id c = None; db_rows : forall k, v_rows V' !! (c_id c, k) = None;
  db_reg : v_reg V' = v_reg V; db_ids : v_ids V' = v_ids V;
  db_ps : v_ps V' = drop_invites (c_inv c) (drop_refs (guids (c_slots c)) (v_ps V)) }.

Lemma drop_refs_out V a c : base V -> v_heap V !! a = Some c -> forall k q,
  drop_refs (guids (c_slots c)) (v_ps V) !! k = Some q -> p_group q <> Some a.
Proof.
  intros HB Ha k q (p & Hp & ->)%lookup_drop_refs E. case_decide as Hin; [done|]. apply Hin.
  destruct (b_ref V HB k p a Hp E) as (d & Hd & Hk & _). by rewrite Ha in Hd; injection Hd as <-.
Qed.
(** The invariant of the others once the group has no members. *)
Lemma inv_emptied V a c : inv_but (Some a) V -> v_heap V !! a = Some c ->
  (forall k q, v_ps V !! k = Some q -> p_group q <> Some a) -> inv_but (Some a) (v_put_g a (set_slot_list [] c) V).
Proof.
  intros HI Ha Hout. pose proof HI as [HB _]. apply (inv_frame (Some a) a V); [done|by right| |].
  - apply (base_slots V a c); try done; cbn.
    + destruct (b_wf V HB a c Ha) as [? ? ? ? ? ? ?]. split; try done; [apply NoDup_nil_2|].
      unfold capacity, MAX_RAID_SIZE, MAX_GROUP_SIZE. cbn. case_match; lia.
    + by intros k ?%elem_of_nil.
    + intros k q Hk Hq. by destruct (Hout k q Hk).
  - intros b d Hb Hd. cbn in Hd. rewrite lookup_insert_ne in Hd by done. split; [done|]. split; try done. eauto.
Qed.
(** Its rows are deleted. *)
Lemma inv_unrowed V a c rows gs : inv_but (Some a) V -> v_heap V !! a = Some c -> c_id c <> 0 ->
  (forall i r, gs !! i = Some r <-> v_groups V !! i = Some r /\ i <> c_id c) ->
  (forall i k r, rows !! (i, k) = Some r <-> v_rows V !! (i, k) = Some r /\ i <> c_id c) ->
  inv_but (Some a) (v_set_groups gs (v_set_rows rows V)).
Proof.
  intros HI Ha H0 Hgs Hrows. pose proof HI as [HB _]. apply (inv_frame (Some a) a V); [done|by right| |].
  - apply (base_tables V (v_reg V) (v_ids V) gs rows HB); try apply HB; [pose proof (b_ids V HB); lia|..].
    + intros i r [Hr _]%Hgs. by apply (b_groups V HB i r).
    + intros i k r [Hr _]%Hrows. by apply (b_rows V HB i k r).
  - intros b d Hb Hd. split; [done|]. pose proof (other_id V a c b d HB Ha Hd Hb H0) as Hne.
    split; try done; [eauto|..]; cbn.
    + intros k. apply option_eq. intros r. rewrite Hrows. tauto.
    + apply option_eq. intros r. rewrite Hgs. tauto.
Qed.

Lemma rows_of_others (id : Z) (t : gmap (Z * Z) member_row) i k r :
  sql_delete_rows (fun j _ => j.1 =? id) t !! (i, k) = Some r <-> t !! (i, k) = Some r /\ i <> id.
Proof. unfold sql_delete_rows. rewrite map_lookup_filter_Some. cbn. by rewrite Z.eqb_neq. Qed.

Lemma Disband_moves V x a c hide who (Q : unit -> View -> Prop) :
  inv_but x V -> x = None \/ x = Some a -> v_heap V !! a = Some c -> c_id c <> 0 ->
  (forall V' c', disbanded V V' a c c' -> Q tt V') -> moves (Disband env a hide who) Q V.
Proof.
  intros HI0 Hx Ha H0 HQ.
  assert (HI : inv_but (Some a) V) by (destruct Hx as [-> | ->]; [by apply inv_open|done]). clear HI0. pose proof HI as [HB _].
  pose proof (b_wf V HB a c Ha) as [Gn _ Gb _ _ _ _]. unfold Disband. mvs.
  assert (isBGGroup g = false) as Hbg by (change (c_bg (core g) = false); by rewrite Hg).
  assert (Hsl : m_memberSlots g = c_slots c) by (change (c_slots (core g) = c_slots c); by rewrite Hg).
  rewrite Hsl.
  apply (disband_members_moves a g hide who (c_slots c) V c); try done; [by intros m Hm; apply slot_in_elem|].
  intros V1 l1 rem HI1 Hh1 Hp1 Hr1 Hg1 Ht1 Hi1. set (c1 := set_mgr l1 c) in *.
  assert (Ha1 : v_heap V1 !! a = Some c1) by (by rewrite Hh1, lookup_insert_eq).
  assert (Hout : forall k q, v_ps V1 !! k = Some q -> p_group q <> Some a) by (rewrite Hp1; by apply drop_refs_out).
  (* the rolls *)
  intros X w HV Hr. rewrite <- HV in Ha1. destruct (group_view _ _ _ Ha1) as (g1 & Hg1' & Hgc1).
  apply wp_bind, (wp_group_at X a g1); [done|].
  assert (isBGGroup g1 = false) as -> by (change (c_bg (core g1) = false); by rewrite Hgc1).
  assert (m_Id g1 = c_id c) as -> by (change (c_id (core g1) = c_id c); by rewrite Hgc1). apply wp_bind.
  eapply wp_conseq; [apply (count_rolls_wp env X V1 a _ (RollId g1)); [by split_and!; [..|exists g1]|done]|].
  cbv beta. intros [] w1 (HV1 & Hrr & _). revert w1 HV1 Hrr. rewrite HV in Ha1.
  match goal with |- forall w1, _ -> _ -> wp _ ?m ?R _ => enough (moves m Q V1) as Hm by (intros; by apply Hm) end.
  (* the slots and the invitations *)
  mvs. eapply (mv_g_mod a c1 (set_slot_list [] c1)); [done|by intros ? <-|done|].
  pose proof (inv_emptied V1 a c1 HI1 Ha1 Hout) as HI2. set (V2 := v_put_g a (set_slot_list [] c1) V1) in *.
  assert (Ha2 : v_heap V2 !! a = Some (set_slot_list [] c1)) by (cbn; by rewrite lookup_insert_eq).
  mvs. apply (RemoveAllInvites_moves env V2 (proj1 HI2) a (set_slot_list [] c1)); [done|].
  set (s := c_inv (set_slot_list [] c1)). pose proof (inv_uninvite V2 (proj1 HI2) (Some a) a _ s HI2 ltac:(by right) Ha2 ltac:(done)) as HI3.
  set (c3 := set_inv (s ∖ s) (set_slot_list [] c1)).
  assert (Ha3 : v_heap (v_uninvite V2 a (set_slot_list [] c1) s) !! a = Some c3) by (cbn; by rewrite lookup_insert_eq).
  set (V3 := v_uninvite V2 a (set_slot_list [] c1) s) in *.
  (* the tables *)
  set (gs := delete (c_id c) (v_groups V3)). set (rows := sql_delete_rows (fun j _ => j.1 =? c_id c) (v_rows V3)).
  assert (HI4 : inv_but (Some a) (v_set_groups gs (v_set_rows rows V3))).
  { apply (inv_unrowed V3 a c3); try done; [|intros; apply rows_of_others].
    intros i r. unfold gs. rewrite lookup_delete_Some. cbn. intuition congruence. }
  set (V4 := v_set_groups gs (v_set_rows rows V3)) in *.
  mvs. apply delete_group_row. fold gs. mvs. apply delete_member_rows.
  set (P := fun W : View => W = V4). pose proof HI4 as [HB4 _].
  assert (Ha4 : v_heap V4 !! a = Some c3) by done.
  mvs. apply (mv_calm P); [case_match; calms|done..|intros _].
  mvs. apply (mv_calm P); [apply _updateLeaderFlag_calm; intros W _ ->; by eexists|done..|intros _].
  eapply (mv_g_mod a c3 (lead_core 0 "" c3)); [done|by intros ? <-|done|].
  apply (HQ _ (lead_core 0 "" c3)). split; try done; cbn.
  - apply (inv_group V4 (Some a) a c3); try done. pose proof (b_wf V4 HB4 a c3 Ha4) as [? ? ? ? ? ? ?]. by split.
  - by rewrite lookup_insert_eq.
  - apply difference_diag_L.
  - apply lookup_delete_eq.
  - intros k. destruct (rows !! (c_id c, k)) eqn:E; [|done]. by apply rows_of_others in E as [_ ?].
  - by rewrite Hp1.
Qed.
End disbanding.
