(* ===== verification/GroupSteps.v ===== *)
(** * GroupSteps: leaving, inviting and declining keep the invariant

    The functions of the player that the opcodes call: a member leaves his
    group, which ends when it falls below two; an invited player is no longer
    invited, which ends a group that was never created; a player is invited. *)

From stdpp Require Import gmap fin_maps strings.
From S2P Require Import Prelude ByteBuffer Codec ObjectGuid Packets Effects Incoming Social.
From S2P Require Import GroupData GroupRolls GroupLists LFG Group GroupRaid GroupHandlers MeetingStones GroupLife GroupInv GroupCalm GroupVotes GroupMoves GroupOps GroupMembers GroupEnds.

Local Open Scope prog_scope.

(** ** Facts of the invariant *)

Lemma inv_at V a c : inv V -> v_heap V !! a = Some c -> linked V a c /\ settled_group V a c.
Proof. intros [_ HI] Ha. by apply HI. Qed.
Lemma group_count g c : core g = c -> group_ok c -> GetMembersCount g = Z.of_nat (length (c_slots c)).
Proof.
  intros <- [_ _ _ Gz _ _ _]. unfold GetMembersCount. apply Z.mod_small. change (m_memberSlots g) with (c_slots (core g)).
  unfold capacity, MAX_GROUP_SIZE, MAX_RAID_SIZE in Gz. case_match; lia.
Qed.
Lemma group_min g c : core g = c -> group_ok c -> GetMembersMinCount g = 2.
Proof. intros <- [_ _ Gb _ _ _ _]. unfold GetMembersMinCount. change (isBGGroup g) with (c_bg (core g)). by rewrite Gb. Qed.
Lemma group_bg g c : core g = c -> group_ok c -> isBGGroup g = false.
Proof. by intros <- [_ _ Gb _ _ _ _]. Qed.
(** A group with a member is created, registered and has another one. *)
Lemma member_settled V a c m : inv V -> v_heap V !! a = Some c -> slot_in (ms_guid m) (c_slots c) = Some m ->
  c_id c <> 0 /\ (2 <= length (c_slots c))%nat /\ v_reg V !! c_id c = Some a /\ c_leader c ∈ guids (c_slots c)
  /\ v_groups V !! c_id c = Some (c_leader c, c_type c =? GROUPTYPE_RAID).
Proof.
  intros HI Ha Hm. pose proof HI as [HB _]. destruct (inv_at V a c HI Ha) as [_ [(E & _)|HS]]; [by rewrite E in Hm|].
  split; [|done]. intros E. destruct (b_id V HB a c Ha) as [_ H0]. by rewrite (H0 E) in Hm.
Qed.
(** Who refers to a group has a slot in it. *)
Lemma member_slot_of V a k p : inv V -> v_ps V !! k = Some p -> p_group p = Some a ->
  exists c m, v_heap V !! a = Some c /\ slot_in k (c_slots c) = Some m /\ ms_guid m = k /\ p_invite p = None.
Proof.
  intros [HB _] Hk Hp. destruct (b_ref V HB k p a Hk Hp) as (c & Hc & [m Hm]%slot_in_is_Some & _).
  exists c, m. split_and!; [done..|by apply (slot_in_Some _ _ _ Hm)|].
  destruct (p_invite p) as [b|] eqn:E; [|done]. destruct (b_invite V HB k p b Hk E). congruence.
Qed.

(** ** Leaving *)

Section removal.
Context (env : GroupEnv) `{!GroupEnvOk env}.

Lemma show_left_calm (P : View -> Prop) k : (forall V, base V -> P V -> online k V) -> calm P (show_left k).
Proof.
  intros Hl. unfold show_left. calm_step. destruct (GetGroup p) as [b|] eqn:Eb; [|calms].
  apply SendUpdate_calm. intros V HB [_ Hp]. by eapply group_is_live.
Qed.
Hint Resolve show_left_calm : calm.

Lemma after_removal_calm (P : View -> Prop) a k method g ch :
  (forall V, base V -> P V -> live a V) -> calm P (after_removal env a k method g ch).
Proof.
  intros Hl. unfold after_removal. calms.
  all: apply (calm_pure (short (m_leaderName g0))); [intros V HB [_ Hg]; by apply (go_name _ (b_wf V HB a _ Hg))|]; intros Hn; calms.
Qed.

(** A member of three or more is removed, and a leader replaced. *)
Lemma _removeMember_inv V a c m (Q : bool -> View -> Prop) :
  inv V -> v_heap V !! a = Some c -> slot_in (ms_guid m) (c_slots c) = Some m -> (3 <= length (c_slots c))%nat ->
  (forall ch V' c', inv V' -> v_heap V' !! a = Some c' -> c_slots c' = erase_slot (ms_guid m) (c_slots c) ->
    v_ps V' = alter unrefer (ms_guid m) (v_ps V) -> Q ch V') ->
  moves (_removeMember env a (ms_guid m)) Q V.
Proof.
  intros HI Ha Hm H3 HQ. destruct (inv_at V a c HI Ha) as [HL HS]. pose proof HI as [HB _].
  destruct (member_settled V a c m HI Ha Hm) as (H0 & _ & Hreg & Hlead & Hrow).
  pose proof (go_once _ (b_wf V HB a c Ha)) as Hn. set (k := ms_guid m) in *. set (c1 := leave_core k m c).
  assert (Hlen : (2 <= length (erase_slot k (c_slots c)))%nat).
  { assert (Hin : k ∈ guids (c_slots c)) by (apply slot_in_is_Some; by eexists). pose proof (length_erase k (c_slots c) Hin). lia. }
  pose proof (inv_leave V None a c m HI ltac:(by left) Ha Hm) as HI1.
  assert (HL1 : linked (v_leave a c m V) a c1) by (apply (linked_leave V None a c m); auto).
  assert (H1 : v_heap (v_leave a c m V) !! a = Some c1) by (cbn; by rewrite lookup_insert_eq).
  apply (_removeMember_moves env V None a c m); try done; [by left|..].
  - intros Hne. apply (HQ _ _ c1); try done. apply (inv_close _ a c1); try done. right. cbn. split_and!; try done.
    rewrite guids_erase by done. by apply list_elem_of_filter.
  - intros He m' Hm'. set (c2 := lead_core (ms_guid m') (ms_name m') c1). set (V2 := v_lead a c1 m' (v_leave a c m V)).
    assert (H2 : v_heap V2 !! a = Some c2) by (cbn; by rewrite lookup_insert_eq).
    apply (HQ _ _ c2); try done. apply (inv_close _ a c2); [|done|by apply linked_lead|].
    + eapply (inv_lead _ (Some a)); [done|by right|done..].
    + by eapply (settled_lead (v_leave a c m V)).
Qed.

(** A group of two ends with either of them. *)
Lemma end_group V x a c who (Q : unit -> View -> Prop) :
  inv_but x V -> x = None \/ x = Some a -> v_heap V !! a = Some c -> c_id c <> 0 ->
  (forall V', inv V' -> v_ps V' = drop_invites (c_inv c) (drop_refs (guids (c_slots c)) (v_ps V)) -> Q tt V') ->
  moves (Disband env a true who ;;; (let! n := (let! g := group_at a in st_ret (GetMembersCount g)) in
    if n <=? 1 then RemoveGroup a ;;; delete_group env a else st_ret tt)) Q V.
Proof.
  intros HI Hx Ha H0 HQ. apply mv_bind. apply (Disband_moves env V x a c); try done. intros V1 c1 HD.
  pose proof HD as [HI1 H1 Hs1 Hv1 Hid1 Hg1 Hr1 Hreg1 Hids1 Hp1]. pose proof HI1 as [HB1 _].
  mv_step. mv_step. mv_step. rewrite (group_count g c1 Hg (b_wf V1 HB1 a c1 H1)), Hs1. change (Z.of_nat (length []) <=? 1) with true. cbv iota. mvs.
  apply (RemoveGroup_moves V1 a c1); [done|]. set (V2 := v_set_reg (delete (c_id c1) (v_reg V1)) V1).
  assert (HI2 : inv_but (Some a) V2).
  { apply (inv_frame (Some a) a V1); [done|by right| |].
    - apply (base_tables V1 (delete (c_id c1) (v_reg V1)) (v_ids V1) (v_groups V1) (v_rows V1) HB1); try apply HB1.
      + pose proof (b_ids V1 HB1). lia.
      + intros i b [_ Hb]%lookup_delete_Some. by apply (b_reg V1 HB1).
    - intros b d Hb Hd. split; [done|]. split; try done; [cbn; eauto|]. cbn.
      rewrite lookup_delete_ne; [done|]. intros E. symmetry in E.
      apply (other_id V1 a c1 b d HB1 H1 Hd Hb); [by rewrite Hid1|done]. }
  apply (delete_group_moves env V2 (proj1 HI2) a c1); [done..|]. apply HQ.
  - apply (inv_drop V2 (proj1 HI2) (Some a)); try done; [by right|]. intros _. rewrite Hid1. cbn.
    split_and!; [by rewrite Hid1, lookup_delete_eq|done..].
  - cbn. by rewrite Hv1, drop_invites_empty.
Qed.

Lemma ge_1_false (n : nat) : (2 <= n)%nat -> (Z.of_nat n <=? 1) = false.
Proof. intros. apply Z.leb_gt. lia. Qed.
Lemma RemoveFromGroup_moves V a c m (Q : unit -> View -> Prop) :
  inv V -> v_heap V !! a = Some c -> slot_in (ms_guid m) (c_slots c) = Some m ->
  (forall V', inv V' -> v_ps V' !! ms_guid m = unrefer <$> v_ps V !! ms_guid m -> Q tt V') ->
  moves (RemoveFromGroup env (Some a) (ms_guid m)) Q V.
Proof.
  intros HI Ha Hm HQ. pose proof HI as [HB _]. pose proof (b_wf V HB a c Ha) as Hok.
  destruct (member_settled V a c m HI Ha Hm) as (H0 & H2 & _). destruct (inv_at V a c HI Ha) as [HL _].
  cbn [RemoveFromGroup]. unfold RemoveMember. mv_step. mv_step.
  rewrite (group_count g c Hg Hok), (group_min g c Hg Hok).
  destruct (Z.gtb_spec (Z.of_nat (length (c_slots c))) 2) as [Hgt|Hle].
  - mvs. apply (_removeMember_inv V a c m); [done..|lia|]. intros ch V1 c1 HI1 H1 Hs1 Hp1. pose proof HI1 as [HB1 _].
    apply (mv_seq (fun W => W = V1)); [|done..|intros []].
    { apply after_removal_calm. intros W _ ->. by eexists. }
    mvs. rewrite (group_count g0 c1 Hg0 (b_wf V1 HB1 a c1 H1)), Hs1, ge_1_false.
    + mvs. apply HQ; [done|]. by rewrite Hp1, lookup_alter_eq.
    + assert (Hin : ms_guid m ∈ guids (c_slots c)) by (apply slot_in_is_Some; by eexists).
      pose proof (length_erase (ms_guid m) (c_slots c) Hin). lia.
  - apply mv_assoc.
    apply (end_group V None a c); [done|by left|done..|]. intros V' HI' Hp'. apply HQ; [done|]. rewrite Hp'.
    assert (Hin : ms_guid m ∈ guids (c_slots c)) by (apply slot_in_is_Some; by eexists).
    apply option_eq. intros q. rewrite lookup_drop_invites, fmap_Some. split.
    + intros (p & (p0 & Hp0 & ->)%lookup_drop_refs & ->). rewrite (decide_True (P := _ ∈ guids _)) by done.
      exists p0. split; [done|]. case_decide as Hi; [|done]. exfalso.
      destruct (b_invited V HB a c _ Ha Hi) as (p1 & Hp1 & Hpi). destruct (b_invite V HB _ p1 a Hp1 Hpi) as (Hpg & _).
      destruct (l_member _ _ _ HL _ p1 m Hp1 Hm). congruence.
    + intros (p0 & Hp0 & ->). exists (unrefer p0). split.
      * apply lookup_drop_refs. exists p0. by rewrite decide_True.
      * rewrite decide_False; [done|]. intros Hi. destruct (b_invited V HB a c _ Ha Hi) as (p1 & Hp1 & Hpi).
        destruct (b_invite V HB _ p1 a Hp1 Hpi) as (Hpg & _). destruct (l_member _ _ _ HL _ p1 m Hp1 Hm). congruence.
Qed.
End removal.

(** ** Inviting *)

Section inviting.
Context (V : View) (x : option Z) (a : Z) (c : GCore) (k : Z) (p : PCore).
Context (HI : inv_but x V) (Hx : x = None \/ x = Some a) (Ha : v_heap V !! a = Some c).
Context (Hk : v_ps V !! k = Some p) (Hp : p_group p = None).

Let HB : base V := proj1 HI.

Definition inv_core : GCore := set_inv ({[k]} ∪ c_inv c) c.
Definition v_invite : View := v_put_p k (invited_by a p) (v_put_g a inv_core V).

Lemma same_invite d : same_for V v_invite d.
Proof. split; try done. cbn. intros j q [[<- <-]|[_ Hj]]%lookup_insert_Some _; eauto. Qed.
Lemma inv_invite : p_invite p = None -> inv_but (Some a) v_invite.
Proof.
  intros Hi. apply (inv_frame x a V); [done..|by apply base_invite|]. intros b d Hb Hd. split; [|apply same_invite].
  cbn in Hd. by rewrite lookup_insert_ne in Hd.
Qed.
Lemma linked_invite : linked V a c -> linked v_invite a inv_core.
Proof. intros HL. apply (linked_same V v_invite a c) in HL as [? ? ?]; [by split|apply same_invite]. Qed.
Lemma settled_invite : settled_group V a c -> settled_group v_invite a inv_core.
Proof. intros [(? & ? & ? & ?)|?]; [left|by right]. cbn. set_solver. Qed.

Lemma AddInvite_moves (Q : bool -> View -> Prop) :
  (is_Some (p_invite p) -> Q false V) -> (p_invite p = None -> Q true v_invite) -> moves (AddInvite a k) Q V.
Proof.
  intros HQ1 HQ2. unfold AddInvite. mv_step. change (GetGroupInvite q) with (p_invite (pcore q)). rewrite Hq.
  destruct (p_invite p) as [b|] eqn:Ei.
  { rewrite bool_decide_true by by eexists. apply mv_ret, HQ1. by eexists. }
  rewrite bool_decide_false by by intros []. unfold social_group.
  change (GetGroup q) with (p_group (pcore q)). rewrite Hq, Hp. mvs.
  assert (Hno : k ∉ c_inv c).
  { intros Hin. destruct (b_invited V HB a c k Ha Hin) as (p' & Hp' & ?). congruence. }
  apply (RemoveInvite_absent V a c k); [done..|intros _]. mvs.
  eapply (mv_g_mod a c inv_core); [done|intros ? Hg; unfold inv_core; by rewrite <- Hg|done|]. mvs.
  eapply (mv_p_mod k p (invited_by a p)); [done|by intros ? <-|]. mvs. by apply HQ2.
Qed.
End inviting.

Section leader_invite.
Context (env : GroupEnv) `{!GroupEnvOk env}.

(** The inviter leads the group he made and is invited to it. *)
Definition led_core (c : GCore) (k : Z) (p : PCore) : GCore := lead_core k (p_name p) (inv_core c k).
Definition v_led (V : View) (a : Z) (c : GCore) (k : Z) (p : PCore) : View :=
  v_put_g a (led_core c k p) (v_invite V a c k p).

Lemma inv_led V a c k p : inv_but (Some a) V -> v_heap V !! a = Some c -> v_ps V !! k = Some p -> p_group p = None ->
  p_invite p = None -> inv_but (Some a) (v_led V a c k p).
Proof.
  intros HI Ha Hk Hp Hi. pose proof HI as [HB _].
  assert (HI1 : inv_but (Some a) (v_invite V a c k p)) by (apply (inv_invite V (Some a)); auto).
  assert (H1 : v_heap (v_invite V a c k p) !! a = Some (inv_core c k)) by (cbn; by rewrite lookup_insert_eq).
  apply (inv_group _ _ a (inv_core c k)); try done.
  pose proof (b_wf _ (proj1 HI1) a _ H1) as [? ? ? ? ? ? ?]. split; try done. apply (b_player V HB k p Hk).
Qed.
Lemma AddLeaderInvite_moves V a c k p (Q : bool -> View -> Prop) :
  inv_but (Some a) V -> v_heap V !! a = Some c -> v_ps V !! k = Some p -> p_group p = None ->
  (is_Some (p_invite p) -> Q false V) -> (p_invite p = None -> Q true (v_led V a c k p)) ->
  moves (AddLeaderInvite a k) Q V.
Proof.
  intros HI Ha Hk Hp HQ1 HQ2. unfold AddLeaderInvite. apply mv_bind.
  apply (AddInvite_moves V (Some a) a c k p); try done; [cbn [negb]; intros; mvs; auto|]. intros Hi. cbn [negb].
  pose proof (inv_invite V (Some a) a c k p HI ltac:(by right) Ha Hk Hp Hi) as HI1.
  set (V1 := v_invite V a c k p) in *. set (P := fun W : View => W = V1).
  assert (H1 : v_heap V1 !! a = Some (inv_core c k)) by (cbn; by rewrite lookup_insert_eq).
  apply (mv_seq P); [|apply HI1|done|intros _].
  { apply _updateLeaderFlag_calm. intros W _ ->. by eexists. }
  eapply mv_player; [unfold V1; cbn; by rewrite lookup_insert_eq|]. intros q Hq. mvs.
  eapply (mv_g_mod a (inv_core c k) (led_core c k p)); [done| |done|].
  { intros g Hg. transitivity (lead_core k (p_name (pcore q)) (core g)); [done|]. by rewrite Hq, Hg. }
  change (v_put_g a _ V1) with (v_led V a c k p). mvs.
  apply (mv_calm (fun W => W = v_led V a c k p)); [|by apply inv_led|done|intros _; mvs; auto].
  apply _updateLeaderFlag_calm. intros W _ ->. eexists. cbn. by rewrite lookup_insert_eq.
Qed.

(** *** The end of an invitation *)

Lemma sendable_result op name res : slen name <= 300000 -> sendable (ResultPacket op name res).
Proof. intros H. unfold ResultPacket. eapply sendable_fits; [auto with packets|]. unfold slen in H. lia. Qed.
Lemma sendable_invite name : short name -> sendable (InvitePacket name).
Proof. intros H. unfold InvitePacket. eapply sendable_fits; [auto with packets|]. unfold short, slen in H. lia. Qed.
Lemma sendable_decline name : short name -> sendable (DeclinePacket name).
Proof. intros H. unfold DeclinePacket. eapply sendable_fits; [auto with packets|]. unfold short, slen in H. lia. Qed.

(** A group that was never created has nothing in the tables. *)
Lemma drop_uncreated V x a c : inv_but x V -> x = None \/ x = Some a -> v_heap V !! a = Some c -> c_slots c = [] -> c_id c = 0 ->
  inv (v_drop V a c).
Proof. intros HI Hx Ha Hs H0. by apply (inv_drop V (proj1 HI) x). Qed.

Lemma inv_alloc V : inv V -> inv_but (Some (v_next V)) (v_alloc V).
Proof.
  intros [HB HI]. apply (inv_frame None _ V); [done|by left|by apply base_alloc|]. intros b d Hb Hd.
  cbn in Hd. rewrite lookup_insert_ne in Hd by done. split; [done|]. split; try done. eauto.
Qed.

Lemma invite_to_moves V me k pm p name membername group (Q : unit -> View -> Prop) :
  inv V -> v_ps V !! me = Some pm -> v_ps V !! k = Some p -> p_group p = None -> p_invite p = None -> short name ->
  slen membername <= 300000 ->
  (group = None -> p_group pm = None) -> (forall a, group = Some a -> is_Some (v_heap V !! a)) ->
  (forall V', inv V' -> Q tt V') -> moves (invite_to env me k name membername group) Q V.
Proof.
  intros HI Hme Hk Hp Hi Hn Hmn Hg1 Hg2 HQ. pose proof HI as [HB _].
  assert (Htail : forall ok V', inv V' -> moves (if negb ok then st_ret tt else
    send k (InvitePacket name) ;;; SendPartyResult me PARTY_OP_INVITE membername ERR_PARTY_RESULT_OK) Q V').
  { intros [] V' HI'; cbn [negb]; [|mvs; auto]. apply mv_bind, mv_logs; [by apply logs_send, sendable_invite|intros _].
    apply mv_logs; [by apply logs_send, sendable_result|intros []; auto]. }
  unfold invite_to. destruct group as [a|].
  - destruct (Hg2 a eq_refl) as [c Ha]. destruct (inv_at V a c HI Ha) as [HL HS]. apply mv_bind.
    apply (AddInvite_moves V None a c k p); auto.
    intros _. apply Htail. apply (inv_close _ a (inv_core c k)); [apply (inv_invite V None); auto|
      cbn; by rewrite lookup_insert_eq|by apply linked_invite|apply (settled_invite V None); auto].
  - specialize (Hg1 eq_refl). mvs. apply (new_group_moves V HB). mvs. set (a := v_next V). set (c := core Group_new).
    pose proof (inv_alloc V HI) as HI1. fold a in HI1. set (V1 := v_alloc V) in *.
    assert (H1 : v_heap V1 !! a = Some c) by (cbn; by rewrite lookup_insert_eq).
    apply (AddLeaderInvite_moves V1 a c me pm _ HI1 H1 Hme Hg1).
    { intros _. cbn [negb]. mvs. apply (delete_group_moves env V1 (proj1 HI1) a c); [done..|]. mvs. apply Htail.
      apply (drop_uncreated V1 (Some a)); auto. }
    intros Him. cbn [negb]. mvs. pose proof (inv_led V1 a c me pm HI1 H1 Hme Hg1 Him) as HI2. set (V2 := v_led V1 a c me pm) in *.
    assert (H2 : v_heap V2 !! a = Some (led_core c me pm)) by (cbn; by rewrite lookup_insert_eq).
    assert (exists q, v_ps V2 !! k = Some q /\ p_group q = None) as (q & Hq & Hqg).
    { cbn. destruct (decide (me = k)) as [->|]; [rewrite lookup_insert_eq|rewrite lookup_insert_ne by done]; eauto. }
    apply (AddInvite_moves V2 (Some a) a (led_core c me pm) k q); auto.
    + intros _. cbn [negb]. mvs. apply (delete_group_moves env V2 (proj1 HI2) a (led_core c me pm)); [done..|]. mvs.
      apply Htail. apply (drop_uncreated V2 (Some a)); auto.
    + intros Hqi. cbn [negb]. mvs. apply Htail. apply (inv_close _ a (inv_core (led_core c me pm) k)).
      * apply (inv_invite V2 (Some a)); auto.
      * cbn. by rewrite lookup_insert_eq.
      * split; cbn; [intros j q' m' _ ?; done|done|]. by split; [|apply Forall_nil_2].
      * left. cbn. split_and!; try done. set_solver.
Qed.

(** The player is not invited any more. *)
Lemma UninviteFromGroup_moves V k p (Q : unit -> View -> Prop) :
  inv V -> v_ps V !! k = Some p ->
  (forall V', inv V' -> v_ps V' !! k = Some (uninvited p) -> Q tt V') -> moves (UninviteFromGroup env k) Q V.
Proof.
  intros HI Hk HQ. pose proof HI as [HB _]. unfold UninviteFromGroup. mv_step.
  change (GetGroupInvite q) with (p_invite (pcore q)). rewrite Hq. destruct (p_invite p) as [a|] eqn:Ei.
  2:{ mvs. apply HQ; [done|]. rewrite Hk. unfold uninvited. rewrite <- Ei. by destruct p. }
  destruct (b_invite V HB k p a Hk Ei) as (Hp & c & Ha & Hin). destruct (inv_at V a c HI Ha) as [HL HS].
  pose proof (b_wf V HB a c Ha) as Hok.
  mvs. apply (RemoveInvite_moves V HB a c k); [done..|intros _ _].
  assert (Hsub : {[k]} ⊆ c_inv c) by set_solver.
  pose proof (inv_uninvite V HB None a c {[k]} HI ltac:(by left) Ha Hsub) as HI1. pose proof HI1 as [HB1 _].
  set (V1 := v_uninvite V a c {[k]}) in *. set (c1 := set_inv (c_inv c ∖ {[k]}) c).
  assert (H1 : v_heap V1 !! a = Some c1) by (cbn; by rewrite lookup_insert_eq).
  assert (Hk1 : v_ps V1 !! k = Some (uninvited p)).
  { apply lookup_drop_invites. exists p. by rewrite decide_True by set_solver. }
  mvs. rewrite (group_count g c1 Hg (b_wf V1 HB1 a c1 H1)). change (c_slots c1) with (c_slots c).
  destruct HS as [(Hs & H0 & Hc & Hl)|(H2 & Hrest)].
  - rewrite Hs. change (Z.of_nat (length []) <=? 1) with true. cbv iota.
    assert (IsCreated g = false) as ->.
    { unfold IsCreated. rewrite (group_count g c1 Hg (b_wf V1 HB1 a c1 H1)). change (c_slots c1) with (c_slots c). by rewrite Hs. }
    mvs. apply (RemoveAllInvites_moves env V1 HB1 a c1); [done|].
    pose proof (inv_uninvite V1 HB1 (Some a) a c1 (c_inv c1) HI1 ltac:(by right) H1 ltac:(done)) as HI2.
    set (V2 := v_uninvite V1 a c1 (c_inv c1)) in *. set (c2 := set_inv (c_inv c1 ∖ c_inv c1) c1).
    assert (Ha2 : v_heap V2 !! a = Some c2) by (cbn; by rewrite lookup_insert_eq).
    apply (delete_group_moves env V2 (proj1 HI2) a c2); [done..|]. apply HQ.
    + apply (drop_uncreated V2 (Some a)); auto.
    + change (drop_invites (c_inv c2) (drop_invites (c_inv c1) (v_ps V1)) !! k = Some (uninvited p)).
      apply lookup_drop_invites. exists (uninvited p). split; [|by case_decide].
      apply lookup_drop_invites. exists (uninvited p). split; [done|by case_decide].
  - rewrite ge_1_false by done. mvs. apply HQ; [|done]. apply (inv_close V1 a c1); [done..|by apply linked_uninvite|].
    apply (settled_uninvite env V); [done|by right|]. intros E. rewrite E in H2. cbn in H2. lia.
Qed.
End leader_invite.
