(* ===== verification/GroupServe.v ===== *)
(** * GroupServe: the opcodes about membership keep the invariant

    Invitations, their acceptance and refusal, removals, a new leader and the
    end of a membership. *)

From stdpp Require Import gmap fin_maps strings.
From S2P Require Import Prelude ByteBuffer Codec ObjectGuid Packets Effects Incoming Social.
From S2P Require Import GroupData GroupRolls GroupLists LFG Group GroupRaid GroupHandlers MeetingStones GroupLife GroupInv GroupCalm GroupVotes GroupMoves GroupOps GroupMembers GroupEnds GroupSteps.

Local Open Scope prog_scope.

(** The program returns or throws, and the invariant holds in the end. *)
Definition sound {A} (m : GM A) (w : GroupWorld) : Prop := wp world_ok m (fun _ w' => world_ok w') w.
Definition kept {A} (m : GM A) (V : View) : Prop := moves m (fun _ V' => inv V') V.
Definition is_online (k : Z) (w : GroupWorld) : Prop := online k (view w).

Lemma sound_kept {A} (m : GM A) w : world_ok w -> kept m (view w) -> sound m w.
Proof.
  intros [HI Hr] Hm. eapply wp_conseq; [by apply Hm|]. cbv beta. intros a w' [? ?]. by split.
Qed.
Lemma kept_calm {A} (P : View -> Prop) (m : GM A) V : inv V -> calm P m -> P V -> kept m V.
Proof. intros HI Hm HP. apply (mv_calm P); [done|apply HI|done|done]. Qed.
Lemma kept_logs {A} (m : GM A) V : inv V -> logs_only m -> kept m V.
Proof. intros HI Hm. by apply mv_logs. Qed.

Section serve.
Context (env : GroupEnv) `{!GroupEnvOk env}.

Hint Resolve sendable_result sendable_invite sendable_decline show_left_calm : logs calm.

Lemma logs_result me op name res : slen name <= 300000 -> logs_only (SendPartyResult me op name res).
Proof. intros H. by apply logs_send, sendable_result. Qed.
Lemma kept_refused me name res V : inv V -> slen name <= 300000 -> kept (refused me name res) V.
Proof. intros HI H. by apply kept_logs, logs_result. Qed.
Lemma short_name_fits s : short s -> slen s <= 300000.
Proof. unfold short. lia. Qed.

(** ** Values that are read *)

Lemma player_short V k p : base V -> v_ps V !! k = Some p -> short (p_name p).
Proof. intros HB Hk. apply (b_player V HB k p Hk). Qed.
Lemma find_name V name w : base V -> view w = V ->
  match GetPlayer_name name w with Some q => v_ps V !! pl_guid q = Some (pcore q) | None => True end.
Proof.
  intros HB <-. unfold GetPlayer_name. destruct (w_names w !! name) as [k|]; [|done].
  destruct (GetPlayer k w) as [q|] eqn:E; [|done]. apply GetPlayer_view in E.
  assert (p_guid (pcore q) = k) as Hk by apply (b_player _ HB k _ E). cbn in Hk. by rewrite Hk.
Qed.
Lemma social_moves {B} V k p q (f : option Z -> GM B) (Q : B -> View -> Prop) :
  base V -> v_ps V !! k = Some p -> pcore q = p -> moves (f (p_group p)) Q V -> moves (st_bind (social_group q) f) Q V.
Proof.
  intros HB Hk Hq HQ. unfold social_group. change (GetGroup q) with (p_group (pcore q)). rewrite Hq.
  destruct (p_group p) as [a|] eqn:E; [|by mvs].
  destruct (b_ref V HB k p a Hk E) as (c & Hc & _). mvs. rewrite (group_bg g c Hg (b_wf V HB a c Hc)). by mvs.
Qed.
Lemma hardcore_moves {B} V a c k p (f : bool -> GM B) (Q : B -> View -> Prop) :
  v_heap V !! a = Some c -> v_ps V !! k = Some p -> (forall b, moves (f b) Q V) ->
  moves (st_bind (HandleHardcoreInteraction env a k) f) Q V.
Proof. intros Ha Hk Hf. unfold HandleHardcoreInteraction. mvs. apply Hf. Qed.
Lemma uninvite_right {B} V me pm k (f : Z -> GM B) (Q : B -> View -> Prop) :
  base V -> v_ps V !! me = Some pm -> (forall r, moves (f r) Q V) ->
  moves (st_bind (CanUninviteFromGroup me k) f) Q V.
Proof.
  intros HB Hme Hf. unfold CanUninviteFromGroup. mvs. change (GetGroup q) with (p_group (pcore q)). rewrite Hq.
  destruct (p_group pm) as [a|] eqn:E; [|mvs; apply Hf].
  destruct (b_ref V HB me pm a Hme E) as (c & Hc & _). mvs. apply Hf.
Qed.

(** ** Invitations *)

Section request.
Context (me : Z) (w : GroupWorld).
Context (HW : world_ok w) (Hme : is_online me w).

Let V := view w.
Let HI : inv V := proj1 HW.
Let HB : base V := proj1 HI.

Lemma HandleGroupInviteOpcode_ok b : arrived b -> sound (HandleGroupInviteOpcode env me b) w.
Proof.
  intros Hb. unfold HandleGroupInviteOpcode. apply wp_recv_str; [done..|]. intros name0 b' _ Hn0.
  pose proof (ge_normalize name0) as Hnorm. destruct (normalizePlayerName env name0) as [ok membername] eqn:En. cbn in Hnorm.
  assert (Hmn : slen membername <= 300000) by lia. apply sound_kept; [done|]. fold V. destruct Hme as [pm Hpm].
  unfold kept. destruct (negb ok); [by apply kept_refused|].
  apply mv_look. intros w0 Hw0. pose proof (find_name V membername w0 HB Hw0) as Hfind.
  destruct (GetPlayer_name membername w0) as [player|]; [|by apply kept_refused].
  mv_step. rename q into mine, Hq into Hmine.
  destruct (HardcoreResult env me (pl_guid player)) as [text|].
  { apply kept_logs; [done|]. apply logs_bind; [by apply logs_result|intros _; apply logs_call]. }
  destruct (_ && _); [by apply kept_refused|]. destruct (_ && _); [by mvs|].
  destruct (HasIgnore _ _); [by apply kept_refused|].
  apply (social_moves V me pm mine); [done..|]. apply (social_moves V (pl_guid player) (pcore player) player); [done..|].
  change (GetGroupInvite player) with (p_invite (pcore player)).
  destruct (p_group (pcore player)) eqn:Eg.
  { rewrite (bool_decide_true (is_Some (Some z))) by (by eexists). by apply kept_refused. }
  destruct (p_invite (pcore player)) eqn:Ei.
  { rewrite (bool_decide_true (is_Some (Some z))) by (by eexists). rewrite orb_true_r. by apply kept_refused. }
  rewrite !(bool_decide_false (is_Some None)) by (by intros []). cbn [orb].
  assert (Hms : short (pl_name mine)) by (change (short (p_name (pcore mine))); rewrite Hmine; by apply (player_short V me)).
  destruct (p_group pm) as [a|] eqn:Ea.
  - destruct (b_ref V HB me pm a Hpm Ea) as (c & Hc & _). mv_step.
    destruct (_ && _); [by apply kept_refused|]. destruct (IsFull g); [by apply kept_refused|].
    apply (hardcore_moves V a c (pl_guid player) (pcore player)); [done..|]. intros []; cbn [negb].
    + apply (invite_to_moves env V me (pl_guid player) pm (pcore player)); try done. intros b0 [= <-]. by eexists.
    + apply kept_logs; [done|]. apply logs_bind; [by apply logs_result|intros _; apply logs_call].
  - by apply (invite_to_moves env V me (pl_guid player) pm (pcore player)).
Qed.

Lemma HandleGroupDeclineOpcode_ok : sound (HandleGroupDeclineOpcode env me) w.
Proof.
  apply sound_kept; [done|]. fold V. destruct Hme as [pm Hpm]. unfold kept, HandleGroupDeclineOpcode. mv_step.
  change (GetGroupInvite q) with (p_invite (pcore q)). rewrite Hq. destruct (p_invite pm) as [a|] eqn:Ei; [|by mvs].
  destruct (b_invite V HB me pm a Hpm Ei) as (_ & c & Hc & _). mv_step.
  assert (Hms : short (pl_name q)) by (change (short (p_name (pcore q))); rewrite Hq; by apply (player_short V me)).
  apply mv_find; [done|]. intros o _. apply mv_bind, (UninviteFromGroup_moves env V me pm); [done..|]. intros V' HI' _.
  destruct o; [|by mvs]. apply kept_logs; [done|]. apply logs_send. by apply sendable_decline.
Qed.

(** *** Accepting *)

(** A player joins a group that is created and registered. *)
Lemma add_member V0 x a c k p name method (Q : bool -> View -> Prop) :
  inv_but x V0 -> x = None \/ x = Some a -> v_heap V0 !! a = Some c -> linked V0 a c -> c_id c <> 0 ->
  v_ps V0 !! k = Some p -> p_group p = None -> p_invite p = None -> short name ->
  Z.of_nat (length (c_slots c)) < capacity c -> (1 <= length (c_slots c))%nat -> v_reg V0 !! c_id c = Some a ->
  c_leader c ∈ guids (c_slots c) -> v_groups V0 !! c_id c = Some (c_leader c, c_type c =? GROUPTYPE_RAID) ->
  (forall V1 m, inv V1 -> ms_guid m = k -> ms_name m = name -> joined V0 V1 a c p m -> Q true V1) ->
  moves (AddMember env a k name method) Q V0.
Proof.
  intros HI0 Hx Ha HL H0 Hk Hp Hi Hn Hr H1 Hreg Hlead Hrow HQ.
  apply (AddMember_moves env V0 x a c k p); try done.
  intros V1 m Hmk Hmn Hpl HJ. pose proof HJ as [HI1 HL1 Hh1 Hp1 (Hr1 & Hg1 & _)].
  assert (Ha1 : v_heap V1 !! a = Some (join_core c m)) by (by rewrite Hh1, lookup_insert_eq).
  apply (HQ V1 m); try done.
  apply (inv_close V1 a (join_core c m)); try done. right. cbn. rewrite Hr1, Hg1. split_and!; try done.
  - rewrite length_app. cbn. lia.
  - rewrite (guids_app (c_slots c)), elem_of_app. by left.
Qed.
Lemma accept_member V0 x a c k p method :
  inv_but x V0 -> x = None \/ x = Some a -> v_heap V0 !! a = Some c -> linked V0 a c -> c_id c <> 0 ->
  v_ps V0 !! k = Some p -> p_group p = None -> p_invite p = None -> Z.of_nat (length (c_slots c)) < capacity c ->
  (1 <= length (c_slots c))%nat -> v_reg V0 !! c_id c = Some a -> c_leader c ∈ guids (c_slots c) ->
  v_groups V0 !! c_id c = Some (c_leader c, c_type c =? GROUPTYPE_RAID) ->
  kept (let! added := AddMember env a k (p_name p) method in if added : bool then BroadcastGroupUpdate a else st_ret tt) V0.
Proof.
  intros HI0 Hx Ha HL H0 Hk Hp Hi Hr H1 Hreg Hlead Hrow. unfold kept. apply mv_bind.
  apply (add_member V0 x a c k p); try done; [apply (player_short V0 k); [apply HI0|done]|].
  intros V1 m HI1 _ _ HJ. apply (kept_calm (fun W => W = V1)); [done|apply BroadcastGroupUpdate_calm; intros W _ ->|done].
  eexists. by rewrite (jo_heap _ _ _ _ _ _ HJ), lookup_insert_eq.
Qed.

(** A group is created, with its leader, and registered. *)
Lemma create_registered V2 a c2 k name pl (Q : bool -> View -> Prop) :
  inv_but (Some a) V2 -> v_heap V2 !! a = Some c2 -> linked V2 a c2 -> c_slots c2 = [] -> c_id c2 = 0 -> c_counts c2 = None ->
  v_ps V2 !! k = Some pl -> p_group pl = None -> p_invite pl = None -> short name -> v_ids V2 + 1 < 2 ^ 32 ->
  (forall V4 c4 m, inv_but (Some a) V4 -> v_heap V4 !! a = Some c4 -> linked V4 a c4 -> c_slots c4 = [m] -> ms_guid m = k ->
     c_id c4 <> 0 -> c_leader c4 = k -> c_type c4 = GROUPTYPE_NORMAL -> v_reg V4 !! c_id c4 = Some a ->
     v_groups V4 !! c_id c4 = Some (k, false) -> v_ps V4 = <[k := refer (Some a) (ms_group m) pl]> (v_ps V2) ->
     v_heap V4 = <[a := c4]> (v_heap V2) -> Q true V4) ->
  moves (let! created := Create env a k name in
    if created : bool then AddGroup a ;;; st_ret true else st_ret false) Q V2.
Proof.
  intros HI2 H2 HL2 Hs H0 Hcn Hpl Hplg Hpli Hn Hids HQ. mvs.
  apply (Create_moves env V2 a c2 k pl name); try done.
  intros V3 (m & Hmk & Hmn & HJ). pose proof HJ as [HI3 HL3 Hh3 Hp3 (Hr3 & Hg3 & _)].
  set (c3 := join_core (made_core V2 c2 k name) m).
  assert (H3 : v_heap V3 !! a = Some c3) by (by rewrite Hh3, lookup_insert_eq).
  mvs. apply (AddGroup_moves V3 a c3); [done|]. mvs. set (V4 := v_set_reg (<[c_id c3 := a]> (v_reg V3)) V3).
  assert (Hid3 : c_id c3 <> 0) by (change (v_ids V2 <> 0); pose proof (b_ids V2 (proj1 HI2)); lia).
  assert (HI4 : inv_but (Some a) V4).
  { apply (inv_frame (Some a) a V3); [done|by right| |].
    - apply (base_tables V3 (<[c_id c3 := a]> (v_reg V3)) (v_ids V3) (v_groups V3) (v_rows V3) (proj1 HI3)); try apply (proj1 HI3).
      + pose proof (b_ids V3 (proj1 HI3)). lia.
      + intros i b [[<- <-]|[_ Hb]]%lookup_insert_Some; [by exists c3|by apply (b_reg V3 (proj1 HI3))].
    - intros b d Hb Hd. split; [done|]. split; try done; [cbn; eauto|]. cbn. rewrite lookup_insert_ne; [done|].
      intros E. symmetry in E. by apply (other_id V3 a c3 b d (proj1 HI3) H3 Hd Hb). }
  apply (HQ V4 c3 m); try done.
  - destruct HL3; by split.
  - cbn. by rewrite Hs.
  - by apply (made_normal V2 a c2).
  - cbn. by rewrite lookup_insert_eq.
  - change (v_groups V3 !! v_ids V2 = Some (k, false)). rewrite Hg3. cbn. by rewrite lookup_insert_eq.
  - change (v_ps V3 = <[k := refer (Some a) (ms_group m) pl]> (v_ps V2)). by rewrite Hp3, Hmk.
  - change (v_heap V3 = <[a := c3]> (v_heap V2)). rewrite Hh3. cbn. by rewrite insert_insert_eq.
Qed.
Lemma capacity_normal c : c_type c = GROUPTYPE_NORMAL -> capacity c = 5.
Proof. unfold capacity. by intros ->. Qed.

Lemma HandleGroupAcceptOpcode_ok : m_GroupIds w + 1 < 2 ^ 32 -> sound (HandleGroupAcceptOpcode env me) w.
Proof.
  intros Hids. change (v_ids V + 1 < 2 ^ 32) in Hids.
  apply sound_kept; [done|]. fold V. destruct Hme as [p Hp]. unfold kept, HandleGroupAcceptOpcode. mv_step.
  change (GetGroupInvite q) with (p_invite (pcore q)). rewrite Hq. destruct (p_invite p) as [a|] eqn:Ei; [|by mvs].
  destruct (b_invite V HB me p a Hp Ei) as (Hpg & c & Hc & Hin). destruct (inv_at V a c HI Hc) as [HL HS]. mv_step.
  assert (m_leaderGuid g = c_leader c) as El by (change (c_leader (core g) = c_leader c); by rewrite Hg).
  assert (m_leaderName g = c_name c) as Enm by (change (c_name (core g) = c_name c); by rewrite Hg).
  assert (pl_name q = p_name p) as Eq by (change (p_name (pcore q) = p_name p); by rewrite Hq).
  rewrite El, Enm, Eq. destruct (Z.eqb_spec (c_leader c) me) as [|Hlm]; cbn [orb]; [by mvs|].
  destruct (negb _); [by mvs|]. apply mv_bind, (RemoveInvite_moves V HB a c me); [done..|intros _ _].
  set (V1 := v_uninvite V a c {[me]}). set (c1 := set_inv (c_inv c ∖ {[me]}) c).
  assert (HI1 : inv_but (Some a) V1) by (apply (inv_uninvite V HB None); auto; set_solver).
  assert (H1 : v_heap V1 !! a = Some c1) by (cbn; by rewrite lookup_insert_eq).
  assert (HL1 : linked V1 a c1) by by apply linked_uninvite.
  assert (HS1 : settled_group V1 a c1) by (apply (settled_uninvite env V); [done|done|intros _; set_solver]).
  assert (HI1' : inv V1) by by apply (inv_close V1 a c1).
  assert (Hk1 : v_ps V1 !! me = Some (uninvited p)).
  { apply lookup_drop_invites. exists p. by rewrite decide_True by set_solver. }
  pose proof (b_wf V HB a c Hc) as Hok.
  assert (Hfull : IsFull g = negb (Z.of_nat (length (c_slots c)) <? capacity c)).
  { unfold IsFull, capacity. change (m_memberSlots g) with (c_slots (core g)). change (m_groupType g) with (c_type (core g)).
    rewrite Hg. destruct (c_type c =? GROUPTYPE_NORMAL); by rewrite Z.geb_leb, Z.ltb_antisym, negb_involutive. }
  rewrite Hfull. destruct (Z.ltb_spec (Z.of_nat (length (c_slots c))) (capacity c)) as [Hroom|]; cbn [negb];
    [|by apply kept_refused].
  apply (hardcore_moves V1 a c1 me (uninvited p)); [done..|]. intros []; cbn [negb]; [|by apply kept_logs, logs_call].
  apply mv_find; [apply HI1|]. intros leader Hleader.
  assert (Hcr : IsCreated g = bool_decide (c_slots c <> [])).
  { unfold IsCreated. rewrite (group_count g c Hg Hok). destruct (c_slots c); [done|]. cbn [length].
    rewrite bool_decide_true by done. apply Z.gtb_lt. lia. }
  rewrite Hcr. destruct HS as [(Hs & H0 & Hcn & Hl)|(H2 & Hreg & Hlead & Hrow)].
  - (* the group is created first, with the leader *)
    rewrite bool_decide_false by (by intros []). mvs. cbn [orb].
    destruct (b_invited V1 (proj1 HI1) a c1 (c_leader c) H1) as (pl & Hpl & Hpli); [cbn; set_solver|].
    destruct leader as [ql|]; cbn [found] in Hleader; [|congruence].
    destruct (b_invite V1 (proj1 HI1) _ pl a Hpl Hpli) as (Hplg & _).
    mvs. apply (RemoveInvite_moves V1 (proj1 HI1) a c1 (c_leader c)); [done|cbn; set_solver|intros _ _].
    set (V2 := v_uninvite V1 a c1 {[c_leader c]}). set (c2 := set_inv (c_inv c1 ∖ {[c_leader c]}) c1).
    assert (Hpl2 : v_ps V2 !! c_leader c = Some (uninvited pl)).
    { apply lookup_drop_invites. exists pl. by rewrite decide_True by set_solver. }
    mv_step. apply mv_bind, (create_registered V2 a c2 (c_leader c) (c_name c) (uninvited pl)); try done.
    + apply (inv_uninvite V1 (proj1 HI1) (Some a)); auto; cbn; set_solver.
    + cbn. by rewrite lookup_insert_eq.
    + by apply linked_uninvite.
    + apply (go_name _ Hok).
    + cbn [negb]. intros V4 c4 m HI4 H4 HL4 Hs4 Hm4 Hc4 Hl4 Ht4 Hr4 Hg4 Hp4 _.
      apply (accept_member V4 (Some a) a c4 me (uninvited p)); try done; [by right| |by rewrite Hs4, (capacity_normal c4 Ht4)|by rewrite Hs4| |by rewrite Hl4, Ht4].
      * rewrite Hp4, lookup_insert_ne by done. apply lookup_drop_invites. exists (uninvited p). split; [done|]. by rewrite decide_False by set_solver.
      * rewrite Hs4, Hl4. cbn. rewrite Hm4. by left.
  - rewrite bool_decide_true by (intros E; rewrite E in H2; cbn in H2; lia). mvs. cbn [negb].
    apply (accept_member V1 None a c1 me (uninvited p)); try done; [by left| |cbn; lia].
    intros E. destruct (b_id V HB a c Hc) as [_ H0]. rewrite (H0 E) in H2. cbn in H2. lia.
Qed.

(** *** Removing *)

(** The group of [me] and his slot. *)
Lemma my_group pm a : v_ps V !! me = Some pm -> p_group pm = Some a ->
  exists c m, v_heap V !! a = Some c /\ slot_in me (c_slots c) = Some m /\ ms_guid m = me.
Proof. intros Hp Ha. destruct (member_slot_of V a me pm HI Hp Ha) as (c & m & ? & ? & ? & _). by exists c, m. Qed.
Lemma remove_member a c k : v_heap V !! a = Some c -> k ∈ guids (c_slots c) -> kept (RemoveFromGroup env (Some a) k) V.
Proof.
  intros Ha [m Hm]%slot_in_is_Some. destruct (slot_in_Some _ _ _ Hm) as [_ <-].
  by apply (RemoveFromGroup_moves env V a c m).
Qed.
Lemma uninvite_player a c k : v_heap V !! a = Some c -> k ∈ c_inv c -> kept (UninviteFromGroup env k) V.
Proof.
  intros Ha Hk. destruct (b_invited V HB a c k Ha Hk) as (p & Hp & _). by apply (UninviteFromGroup_moves env V k p).
Qed.

Lemma HandleGroupUninviteGuidOpcode_ok b : arrived b -> sound (HandleGroupUninviteGuidOpcode env me b) w.
Proof.
  intros Hb. unfold HandleGroupUninviteGuidOpcode. apply wp_recv_guid; [done..|]. intros guid b' _.
  apply sound_kept; [done|]. fold V. destruct Hme as [pm Hpm]. unfold kept. destruct (guid =? me); [by mvs|].
  apply (uninvite_right V me pm guid); [done..|]. intros r. destruct (negb _); [by apply kept_logs, logs_result|].
  mv_step. change (GetGroup q) with (p_group (pcore q)). rewrite Hq. destruct (p_group pm) as [a|] eqn:Ea; [|by mvs].
  destruct (my_group pm a Hpm Ea) as (c & m & Hc & _). mv_step.
  unfold IsMember. change (member_slot guid g) with (slot_in guid (c_slots (core g))). rewrite Hg.
  case_bool_decide as Hin; [by apply (remove_member a c), slot_in_is_Some|]. unfold GetInvited. mvs.
  change (m_invitees g0) with (c_inv (core g0)). rewrite Hg0.
  case_bool_decide; [by apply (uninvite_player a c)|by apply kept_logs, logs_result].
Qed.

Lemma GetMemberGuid_member name g c : core g = c -> group_ok c -> GetMemberGuid name g <> 0 -> GetMemberGuid name g ∈ guids (c_slots c).
Proof.
  intros <- _. unfold GetMemberGuid. destruct (list_find _ _) as [[i m]|] eqn:E; [|done]. intros _.
  apply list_find_Some in E as (E & _). apply list_elem_of_fmap. exists m. split; [done|]. by eapply list_elem_of_lookup_2.
Qed.
Lemma first_named_moves name l (f : option Z -> GM unit) (Q : unit -> View -> Prop) :
  (forall k, k ∈ l -> is_Some (v_ps V !! k)) -> (forall k, k ∈ l -> moves (f (Some k)) Q V) -> moves (f None) Q V ->
  moves (st_bind (first_named name l) f) Q V.
Proof.
  intros Hon Hf Hn. induction l as [|k l IH]; cbn [first_named]; [by mvs|]. destruct (Hon k) as [p Hp]; [by left|]. mv_step. mv_step.
  case_bool_decide; [mv_step; apply Hf; by left|]. apply IH; intros j Hj; [apply Hon|apply Hf]; by right.
Qed.
Lemma if_may_uninvite_kept pm k m : v_ps V !! me = Some pm -> kept m V -> kept (if_may_uninvite me k m) V.
Proof.
  intros Hpm Hm. apply (uninvite_right V me pm k); [done..|]. intros r. destruct (negb _); [by apply kept_logs, logs_result|done].
Qed.
Lemma HandleGroupUninviteOpcode_ok b : arrived b -> sound (HandleGroupUninviteOpcode env me b) w.
Proof.
  intros Hb. unfold HandleGroupUninviteOpcode. apply wp_recv_str; [done..|]. intros name0 b' _ Hn0.
  pose proof (ge_normalize name0) as Hnorm. destruct (normalizePlayerName env name0) as [ok membername] eqn:En. cbn in Hnorm.
  apply sound_kept; [done|]. fold V. destruct Hme as [pm Hpm]. unfold kept. destruct (negb ok); [by mvs|]. mv_step.
  case_bool_decide; [by mvs|]. change (GetGroup q) with (p_group (pcore q)). rewrite Hq.
  destruct (p_group pm) as [a|] eqn:Ea; [|by mvs]. destruct (my_group pm a Hpm Ea) as (c & m & Hc & _). mv_step.
  pose proof (b_wf V HB a c Hc) as Hok. destruct (Z.eqb_spec (GetMemberGuid membername g) 0) as [E|E]; cbn [negb].
  - unfold GetInvited_name. mv_step. mv_step. change (m_invitees g0) with (c_inv (core g0)). rewrite Hg0.
    assert (Hel : forall k, k ∈ invite_order env (c_inv c) -> k ∈ c_inv c).
    { intros k. rewrite (ge_invites (c_inv c)). by rewrite elem_of_elements. }
    apply first_named_moves.
    + intros k Hk%Hel. destruct (b_invited V HB a c k Hc Hk) as (p & ? & _). by exists p.
    + intros k Hk%Hel. apply (if_may_uninvite_kept pm); [done|]. by apply (uninvite_player a c).
    + apply kept_logs, logs_result; [done|lia].
  - apply (if_may_uninvite_kept pm); [done|]. by apply (remove_member a c), GetMemberGuid_member.
Qed.
Lemma HandleGroupSetLeaderOpcode_ok b : arrived b -> sound (HandleGroupSetLeaderOpcode env me b) w.
Proof.
  intros Hb. unfold HandleGroupSetLeaderOpcode. apply wp_recv_guid; [done..|]. intros guid b' _.
  apply sound_kept; [done|]. fold V. destruct Hme as [pm Hpm]. unfold kept. mv_step.
  change (GetGroup q) with (p_group (pcore q)). rewrite Hq. destruct (p_group pm) as [a|] eqn:Ea; [|by mvs].
  destruct (my_group pm a Hpm Ea) as (c & m0 & Hc & _). apply mv_find; [done|]. intros [q'|] Hq'; cbn [found] in Hq'; [|by mvs].
  mv_step. destruct (negb (IsLeader me g)); cbn [orb]; [by mvs|].
  destruct (bool_decide (GetGroup q' = Some a)) eqn:Eg; cbn [negb]; [|by mvs]. apply bool_decide_eq_true in Eg.
  destruct (member_slot_of V a guid (pcore q') HI Hq' Eg) as (c' & m & Hc' & Hm & Hmk & _).
  assert (c' = c) as -> by congruence. destruct (inv_at V a c HI Hc) as [HL HS].
  rewrite <- Hmk in Hm |- *. pose proof (member_settled V a c m HI Hc Hm) as (_ & H2 & Hreg & _ & Hrow).
  apply (ChangeLeader_moves env V None a c HI ltac:(by left) Hc HL m Hm).
  pose proof (inv_lead V None a c HI ltac:(by left) Hc m Hm) as HI1.
  apply (inv_close _ a (lead_core (ms_guid m) (ms_name m) c)); [done|cbn; by rewrite lookup_insert_eq|by apply linked_lead|].
  by eapply settled_lead.
Qed.
Lemma RemoveSelfFromGroup_moves pm (Q : unit -> View -> Prop) :
  v_ps V !! me = Some pm -> (forall V', inv V' -> v_ps V' !! me = unrefer <$> v_ps V !! me -> Q tt V') ->
  (p_group pm = None -> Q tt V) -> moves (RemoveSelfFromGroup env me) Q V.
Proof.
  intros Hpm HQ HQ0. unfold RemoveSelfFromGroup. mv_step. change (GetGroup q) with (p_group (pcore q)). rewrite Hq.
  destruct (p_group pm) as [a|] eqn:Ea; [|cbn [RemoveFromGroup]; mvs; auto].
  destruct (my_group pm a Hpm Ea) as (c & m & Hc & Hm & Hmk). rewrite <- Hmk in *. by apply (RemoveFromGroup_moves env V a c m).
Qed.
Lemma HandleGroupDisbandOpcode_ok : sound (HandleGroupDisbandOpcode env me) w.
Proof.
  apply sound_kept; [done|]. fold V. destruct Hme as [pm Hpm]. unfold kept, HandleGroupDisbandOpcode. mv_step.
  change (GetGroup q) with (p_group (pcore q)). rewrite Hq. destruct (p_group pm) as [a|] eqn:Ea; [|by mvs].
  destruct (pl_inBattleGround q); [by mvs|]. destruct (my_group pm a Hpm Ea) as (c & m & Hc & _).
  assert (Hms : short (pl_name q)) by (change (short (p_name (pcore q))); rewrite Hq; by apply (player_short V me)).
  apply mv_bind, mv_logs; [by apply logs_result, short_name_fits|intros _].
  apply (mv_seq (fun W => W = V)); [|done..|intros _].
  { apply BroadcastGroupUpdate_calm. intros W _ ->. by exists c. }
  by apply (RemoveSelfFromGroup_moves pm).
Qed.
End request.
End serve.
