(* ===== verification/GroupOrders.v ===== *)
(** * GroupOrders: raids, subgroups and roles keep the invariant

    A change of the slots of a group that keeps its members keeps the invariant
    once the references of the players and the rows follow the slots. *)

From stdpp Require Import gmap fin_maps strings.
From S2P Require Import Prelude ByteBuffer Codec ObjectGuid Packets Effects Incoming Social.
From S2P Require Import GroupData GroupRolls GroupLists LFG Group GroupRaid GroupHandlers MeetingStones GroupLife GroupInv GroupCalm GroupVotes GroupMoves GroupOps GroupMembers GroupEnds GroupSteps GroupServe.

Local Open Scope prog_scope.

(** ** Slots that change *)

Definition follow (l : list MemberSlot) (k : Z) (p : PCore) : PCore :=
  match slot_in k l with Some m => refer (p_group p) (ms_group m) p | None => p end.
Definition resub (l : list MemberSlot) (ps : gmap Z PCore) : gmap Z PCore := map_imap (fun k p => Some (follow l k p)) ps.
Definition rerow (id : Z) (l : list MemberSlot) (t : gmap (Z * Z) member_row) : gmap (Z * Z) member_row :=
  map_imap (fun i r => Some (if i.1 =? id then match slot_in i.2 l with Some m => member_row_of m | None => r end else r)) t.
Definition v_reslot (a : Z) (c : GCore) (V : View) : View :=
  mkV (<[a := c]> (v_heap V)) (resub (c_slots c) (v_ps V)) (v_next V) (v_reg V) (v_ids V) (v_groups V)
    (rerow (c_id c) (c_slots c) (v_rows V)).

Lemma lookup_resub l ps k : resub l ps !! k = follow l k <$> ps !! k.
Proof. unfold resub. rewrite map_lookup_imap. by destruct (ps !! k). Qed.
Lemma lookup_rerow id l t i k : rerow id l t !! (i, k) =
  (fun r => if i =? id then match slot_in k l with Some m => member_row_of m | None => r end else r) <$> t !! (i, k).
Proof. unfold rerow. rewrite map_lookup_imap. by destruct (t !! (i, k)). Qed.
Lemma follow_same l k p : p_guid (follow l k p) = p_guid p /\ p_name (follow l k p) = p_name p /\ p_world (follow l k p) = p_world p
  /\ p_group (follow l k p) = p_group p /\ p_orig (follow l k p) = p_orig p /\ p_invite (follow l k p) = p_invite p.
Proof. unfold follow. by destruct (slot_in k l). Qed.

Section reslot.
Context (V : View) (HI : inv V) (a : Z) (c : GCore) (Ha : v_heap V !! a = Some c).

Let HB : base V := proj1 HI.

Lemma base_resub l W : base W -> base (v_set_ps (resub l (v_ps W)) W).
Proof.
  intros [B1 B2 B3 B4 B5 B6 B7 B8 B9 B10 B11 B12 B13 B14].
  assert (Hback : forall k q, resub l (v_ps W) !! k = Some q -> exists p, v_ps W !! k = Some p /\ q = follow l k p).
  { intros k q. rewrite lookup_resub. intros (p & ? & ->)%fmap_Some. eauto. }
  assert (Hforth : forall k p, v_ps W !! k = Some p -> resub l (v_ps W) !! k = Some (follow l k p)).
  { intros k p Hk. by rewrite lookup_resub, Hk. }
  split; cbn; try done.
  - intros k q (p & Hp & ->)%Hback. destruct (follow_same l k p) as (E1 & E2 & E3 & E4 & E5 & E6).
    destruct (B3 k p Hp) as [? ? ? ? ?]. split; congruence.
  - intros k q b (p & Hp & ->)%Hback. destruct (follow_same l k p) as (_ & _ & _ & -> & _). eauto.
  - intros b d e Hb He. destruct (B5 b d e Hb He) as (? & p & Hp & Hg). split; [done|].
    exists (follow l e.1 p). destruct (follow_same l e.1 p) as (_ & _ & _ & -> & _). auto.
  - intros k q b (p & Hp & ->)%Hback. destruct (follow_same l k p) as (_ & _ & _ & -> & _ & ->). eauto.
  - intros b d k Hb Hk. destruct (B7 b d k Hb Hk) as (p & Hp & Hg). exists (follow l k p).
    destruct (follow_same l k p) as (_ & _ & _ & _ & _ & ->). auto.
Qed.

Lemma inv_reslot c' :
  keeps_members c c' -> group_ok c' -> counts_ok c' -> c_leader c' = c_leader c -> c_type c' = c_type c -> c_slots c <> [] ->
  inv (v_reslot a c' V).
Proof.
  intros Hk Hok Hc Hl Ht Hne. pose proof Hk as (Hg & Hm & Hi & Hid). destruct (inv_at V a c HI Ha) as [HL HS].
  assert (HB1 : base (v_reslot a c' V)).
  { pose proof (base_resub (c_slots c') _ (base_group V a c c' HB Ha Hk Hok)) as HB1.
    eapply (base_tables _ (v_reg V) (v_ids V) (v_groups V) (rerow (c_id c') (c_slots c') (v_rows V)) HB1); try apply HB1.
    - pose proof (b_ids V HB). cbn. lia.
    - intros i k r. rewrite lookup_rerow. intros (r0 & Hr & _)%fmap_Some. by apply (b_rows _ HB1 i k r0). }
  apply (inv_close _ a c').
  - apply (inv_frame None a V); [done|by left|done|]. intros b d Hb Hd. cbn in Hd. rewrite lookup_insert_ne in Hd by done.
    split; [done|]. split; try done; cbn.
    + intros k q. rewrite lookup_resub. intros (p & Hp & ->)%fmap_Some Hin. exists p. split; [done|].
      unfold follow. destruct (slot_in k (c_slots c')) as [m|] eqn:E; [|done].
      exfalso. apply Hb. apply (b_once V HB b a d c k); [done..|]. rewrite <- Hg. apply slot_in_is_Some. by eexists.
    + intros k. rewrite lookup_rerow. destruct (v_rows V !! (c_id d, k)) as [r|] eqn:Er; [|done]. cbn.
      destruct (Z.eqb_spec (c_id d) (c_id c')) as [E|]; [|done]. rewrite Hid in E. exfalso.
      destruct (b_rows V HB _ _ _ Er) as (b' & d' & _ & _ & H0). apply Hb. symmetry.
      by apply (b_unique V HB a b c d); [..|congruence].
  - cbn. by rewrite lookup_insert_eq.
  - destruct HL as [L1 L2 L3]. split; cbn; [| |done].
    + intros k q m'. rewrite lookup_resub. intros (p & Hp & ->)%fmap_Some Hm'. unfold follow. rewrite Hm'. split; [|done]. cbn.
      assert (Hin : k ∈ guids (c_slots c)) by (rewrite <- Hg; apply slot_in_is_Some; by eexists).
      apply slot_in_is_Some in Hin as [m0 Hm0]. by apply (L1 k p m0).
    + intros H0 k. rewrite lookup_rerow, Hid, Z.eqb_refl, L2 by congruence.
      destruct (slot_in k (c_slots c')) as [m'|] eqn:E'; destruct (slot_in k (c_slots c)) as [m0|] eqn:E0; cbn; try done.
      * exfalso. apply slot_in_None in E0. apply E0. rewrite <- Hg. apply slot_in_is_Some. by eexists.
      * exfalso. apply slot_in_None in E'. apply E'. rewrite Hg. apply slot_in_is_Some. by eexists.
  - destruct HS as [(E & _)|(H2 & Hr & Hld & Hgr)]; [done|right]. cbn. rewrite Hid, Hl, Ht, Hg. split_and!; try done.
    rewrite <- (length_fmap ms_guid (c_slots c')). fold (guids (c_slots c')). rewrite Hg. unfold guids. by rewrite length_fmap.
Qed.

(** The rows of a member are in the group he is in. *)
Lemma row_of_member i k r : v_rows V !! (i, k) = Some r -> k ∈ guids (c_slots c) -> i = c_id c.
Proof.
  intros Hr Hk. destruct (b_rows V HB i k r Hr) as (b & d & Hd & Hi & H0).
  destruct (decide (b = a)) as [E|Hne]; [rewrite E, Ha in Hd; by injection Hd as <-|]. exfalso. apply Hne.
  destruct (inv_at V b d HI Hd) as [[_ L2 _] _]. rewrite <- Hi in Hr, H0. rewrite L2 in Hr by done.
  apply fmap_Some in Hr as (m & Hm & _). apply (b_once V HB b a d c k); [done..| |done].
  apply slot_in_is_Some. by eexists.
Qed.
End reslot.

(** [UPDATE group_member ... WHERE memberGuid]. *)
Definition on_rows (k : Z) (f : member_row -> member_row) (t : gmap (Z * Z) member_row) : gmap (Z * Z) member_row :=
  map_imap (fun i r => Some (if i.2 =? k then f r else r)) t.
Lemma lookup_on_rows k f t i j : on_rows k f t !! (i, j) = (fun r => if j =? k then f r else r) <$> t !! (i, j).
Proof. unfold on_rows. rewrite map_lookup_imap. by destruct (t !! (i, j)). Qed.
Lemma update_member_moves V g k f (Q : unit -> View -> Prop) :
  isBGGroup g = false -> 0 < k < 2 ^ 32 -> Q tt (v_set_rows (on_rows k f (v_rows V)) V) -> moves (update_member g k f) Q V.
Proof.
  intros Hb Hk HQ. unfold update_member. rewrite Hb. eapply mv_alter; [|done|exact HQ].
  intros w Hw. change (view (w_set_group_member ?t w)) with (v_set_rows t (view w)).
  change (t_group_member w) with (v_rows (view w)). rewrite Hw. unfold on_rows. rewrite GetCounter_player by (unfold is_u; lia). done.
Qed.

(** ** Assistants *)

Section orders.
Context (env : GroupEnv) `{!GroupEnvOk env}.
Context (V : View) (HI : inv V) (a : Z) (c : GCore) (Ha : v_heap V !! a = Some c).

Let HB : base V := proj1 HI.
Let HL : linked V a c := proj1 (inv_at V a c HI Ha).
Let Hok : group_ok c := b_wf V HB a c Ha.

Lemma slot_range k m : slot_in k (c_slots c) = Some m -> 0 < k < 2 ^ 32 /\ 0 <= ms_group m < 8 /\ ms_guid m = k.
Proof.
  intros Hm. destruct (slot_in_Some _ _ _ Hm) as [Hin <-]. pose proof (go_slots _ Hok) as Hs. rewrite Forall_forall in Hs.
  by destruct (Hs m Hin) as (? & _ & ?).
Qed.
(** A player in the group already follows his slot. *)
Lemma follow_slot j p m : v_ps V !! j = Some p -> slot_in j (c_slots c) = Some m -> refer (p_group p) (ms_group m) p = p.
Proof. intros Hj Hm. destruct (l_member _ _ _ HL j p m Hj Hm) as [_ <-]. apply refer_self. Qed.
(** A row of the group already follows its slot. *)
Lemma row_slot j r m : c_slots c <> [] -> v_rows V !! (c_id c, j) = Some r -> slot_in j (c_slots c) = Some m -> r = member_row_of m.
Proof.
  intros Hne Hr Hm. rewrite (l_rows _ _ _ HL) in Hr; [rewrite Hm in Hr; by injection Hr|].
  intros E. apply Hne. by apply (b_id V HB a c Ha).
Qed.

Definition assist_core (k : Z) (state : bool) : GCore := set_slot_list (alter_slot k (ms_set_assistant state) (c_slots c)) c.
Lemma assist_view k state m : slot_in k (c_slots c) = Some m ->
  v_set_rows (on_rows k (fun r => mkMRow state (mr_subgroup r)) (v_rows V)) (v_put_g a (assist_core k state) V)
  = v_reslot a (assist_core k state) V.
Proof.
  intros Hm. assert (Hne : c_slots c <> []) by (intros E; by rewrite E in Hm).
  unfold v_reslot, v_set_rows, v_put_g. cbn. f_equal.
  - apply map_eq. intros j. rewrite lookup_resub. destruct (v_ps V !! j) as [p|] eqn:Hj; [|done]. cbn. f_equal.
    unfold follow. rewrite slot_in_alter by done. case_decide as E; [subst j; rewrite Hm; cbn|].
    + change (ms_group (ms_set_assistant state m)) with (ms_group m). by rewrite (follow_slot k p m).
    + destruct (slot_in j (c_slots c)) as [m'|] eqn:E'; [|done]. by rewrite (follow_slot j p m').
  - apply map_eq. intros [i j]. rewrite lookup_rerow, lookup_on_rows.
    destruct (v_rows V !! (i, j)) as [r|] eqn:Hr; [|done]. cbn. f_equal. rewrite slot_in_alter by done.
    destruct (Z.eqb_spec j k) as [->|Hjk].
    + assert (i = c_id c) as -> by (apply (row_of_member V HI a c Ha i k r Hr), slot_in_is_Some; by eexists).
      rewrite Z.eqb_refl, decide_True, Hm by done. cbn. by rewrite (row_slot k r m).
    + rewrite decide_False by done. destruct (Z.eqb_spec i (c_id c)) as [->|]; [|done].
      destruct (slot_in j (c_slots c)) as [m'|] eqn:E'; [|done]. by apply (row_slot j).
Qed.
Lemma assist_inv k state m : slot_in k (c_slots c) = Some m -> inv (v_reslot a (assist_core k state) V).
Proof.
  intros Hm. pose proof Hok as [G1 G2 G3 G4 G5 G6 G7]. apply (inv_reslot V HI a c); try done.
  - split_and!; try done. by apply guids_alter.
  - split; try done; cbn; [by rewrite guids_alter|by apply Forall_alter_slot|]. unfold capacity in *. cbn. by rewrite length_alter_slot.
  - pose proof (l_counts _ _ _ HL) as HC. unfold counts_ok in *. cbn. destruct (c_counts c) as [n|].
    + destruct HC as (? & -> & ?). split_and!; try done. apply raid_counts_eq; [apply length_raid_counts|]. intros i Hi.
      rewrite raid_counts_lookup by done. f_equal.
      clear. generalize (c_slots c) as l. induction l as [|x l IH]; [done|]. cbn [alter_slot]. case_match; rewrite !sub_count_cons; cbn; lia.
    + destruct HC. split; [done|]. by apply Forall_alter_slot.
  - intros E. by rewrite E in Hm.
Qed.
Lemma SetAssistant_kept k state : kept (SetAssistant a k state) V.
Proof.
  unfold kept, SetAssistant, _setAssistantFlag. mv_step. destruct (negb _); [by mvs|]. mv_step. mv_step.
  change (member_slot k g0) with (slot_in k (c_slots (core g0))). rewrite Hg0.
  destruct (slot_in k (c_slots c)) as [m|] eqn:Hm; [|by mvs]. pose proof (slot_range k m Hm) as (Hk & _).
  mv_step. mv_step. eapply (mv_g_mod a c (assist_core k state)); [done|intros ? Hg1; unfold assist_core; by rewrite <- Hg1|done|]. mvs.
  apply update_member_moves; [by apply (group_bg g0 c)|done|]. mvs. cbn [v_rows v_put_g].
  rewrite (assist_view k state m Hm). pose proof (assist_inv k state m Hm) as HI1.
  apply (kept_calm (fun W => W = v_reslot a (assist_core k state) V)); [done| |done].
  apply SendUpdate_calm. intros W _ ->. eexists. cbn. by rewrite lookup_insert_eq.
Qed.

(** ** Subgroups *)

Definition in_sub (s : Z) (p : PCore) : PCore := refer (p_group p) s p.
Lemma resub_ext l ps ps' : (forall j, ps' !! j = follow l j <$> ps !! j) -> ps' = resub l ps.
Proof. intros H. apply map_eq. intros j. by rewrite lookup_resub. Qed.
Lemma rerow_ext id l t t' :
  (forall i j, t' !! (i, j) = (fun r => if i =? id then match slot_in j l with Some m => member_row_of m | None => r end else r) <$> t !! (i, j)) ->
  t' = rerow id l t.
Proof. intros H. apply map_eq. intros [i j]. by rewrite lookup_rerow. Qed.
Lemma lookup_alter_if {B} (f : B -> B) k (t : gmap Z B) j : alter f k t !! j = (if decide (j = k) then f <$> t !! j else t !! j).
Proof. case_decide as E; [subst; apply lookup_alter_eq|by apply lookup_alter_ne]. Qed.

(** Who stays in his subgroup is not changed. *)
Lemma follow_stays l j p : v_ps V !! j = Some p -> slot_in j l = slot_in j (c_slots c) -> follow l j p = p.
Proof.
  intros Hj E. unfold follow. rewrite E. destruct (slot_in j (c_slots c)) as [m|] eqn:Em; [|done]. by apply (follow_slot j).
Qed.
Lemma row_stays l j r : c_slots c <> [] -> v_rows V !! (c_id c, j) = Some r -> slot_in j l = slot_in j (c_slots c) ->
  match slot_in j l with Some m => member_row_of m | None => r end = r.
Proof.
  intros Hne Hr E. rewrite E. destruct (slot_in j (c_slots c)) as [m|] eqn:Em; [|done]. symmetry. by apply (row_slot j).
Qed.
Lemma row_moves s m r : c_slots c <> [] -> v_rows V !! (c_id c, ms_guid m) = Some r -> slot_in (ms_guid m) (c_slots c) = Some m ->
  row_set_subgroup s r = member_row_of (ms_set_group s m).
Proof. intros Hne Hr Hm. by rewrite (row_slot (ms_guid m) r m). Qed.

Section move.
Context (k s : Z) (m : MemberSlot) (Hm : slot_in k (c_slots c) = Some m) (Hs : 0 <= s < 8) (Hsm : ms_group m <> s).
Context (Hraid : c_type c = GROUPTYPE_RAID).

Definition inc_counts (s : Z) (d : Z) (n : list Z) : list Z := alter (fun x => u8 (x + d)) (Z.to_nat s) n.
Definition moved_slots : list MemberSlot := alter_slot k (ms_set_group s) (c_slots c).
Definition move_core : GCore :=
  set_cnt (inc_counts (ms_group m) (-1) <$> (inc_counts s 1 <$> c_counts c)) (set_slot_list moved_slots c).

Lemma raid_has_counts : c_counts c = Some (raid_counts (c_slots c)) /\ Forall (fun x => x <= MAX_GROUP_SIZE) (raid_counts (c_slots c)).
Proof.
  pose proof (l_counts _ _ _ HL) as HC. unfold counts_ok in HC. destruct (c_counts c) as [n|].
  - by destruct HC as (_ & -> & ?).
  - destruct HC as [HC _]. by rewrite Hraid in HC.
Qed.
Lemma few_members : (length (c_slots c) <= 40)%nat.
Proof. pose proof (go_size _ Hok) as Hz. unfold capacity, MAX_GROUP_SIZE, MAX_RAID_SIZE in Hz. case_match; lia. Qed.
Lemma move_counts : inc_counts (ms_group m) (-1) (inc_counts s 1 (raid_counts (c_slots c))) = raid_counts moved_slots.
Proof.
  destruct (slot_range k m Hm) as (_ & Hg & _). unfold inc_counts.
  apply raid_counts_eq; [by rewrite !length_alter, length_raid_counts|]. intros i Hi. unfold moved_slots.
  pose proof (sub_count_move k m s (c_slots c) (Z.of_nat i) Hm) as Hc. pose proof (sub_count_range (c_slots c) (Z.of_nat i)).
  pose proof (sub_count_range (alter_slot k (ms_set_group s) (c_slots c)) (Z.of_nat i)). pose proof few_members.
  unfold unit_at in Hc. rewrite length_alter_slot in *.
  destruct (Z.eqb_spec (ms_group m) (Z.of_nat i)) as [E1|E1]; destruct (Z.eqb_spec s (Z.of_nat i)) as [E2|E2]; try lia.
  - rewrite E1, Nat2Z.id, list_lookup_alter_eq, list_lookup_alter_ne, raid_counts_lookup by lia.
    cbn [fmap option_fmap option_map]. f_equal. rewrite u8_small; lia.
  - rewrite E2 in Hc. rewrite E2, Nat2Z.id, list_lookup_alter_ne, list_lookup_alter_eq, raid_counts_lookup by lia.
    cbn [fmap option_fmap option_map]. f_equal. rewrite u8_small; lia.
  - rewrite !list_lookup_alter_ne, raid_counts_lookup by lia. f_equal. lia.
Qed.
Lemma slot_in_moved j : slot_in j moved_slots = if decide (j = k) then Some (ms_set_group s m) else slot_in j (c_slots c).
Proof. unfold moved_slots. rewrite slot_in_alter by done. destruct (decide (j = k)) as [->|]; [by rewrite Hm|done]. Qed.
Lemma move_view : mkV (<[a := move_core]> (v_heap V)) (alter (in_sub s) k (v_ps V)) (v_next V) (v_reg V) (v_ids V) (v_groups V)
    (on_rows k (row_set_subgroup s) (v_rows V)) = v_reslot a move_core V.
Proof.
  assert (Hne : c_slots c <> []) by (intros E; by rewrite E in Hm). destruct (slot_range k m Hm) as (_ & _ & Hmk).
  unfold v_reslot. cbn. f_equal.
  - apply resub_ext. intros j. rewrite lookup_alter_if. destruct (v_ps V !! j) as [p|] eqn:Hj; [|by case_decide]. cbn.
    destruct (decide (j = k)) as [E|E]; cbn; f_equal.
    + unfold follow. rewrite slot_in_moved, E, decide_True by done. done.
    + symmetry. apply follow_stays; [done|]. by rewrite slot_in_moved, decide_False.
  - apply rerow_ext. intros i j. rewrite lookup_on_rows. destruct (v_rows V !! (i, j)) as [r|] eqn:Hr; [|done]. cbn. f_equal.
    destruct (Z.eqb_spec j k) as [E|E].
    + rewrite E in *. assert (i = c_id c) as Ei by (apply (row_of_member V HI a c Ha i k r Hr), slot_in_is_Some; by eexists).
      rewrite Ei in *. rewrite Z.eqb_refl, slot_in_moved, decide_True by done. rewrite <- Hmk in Hr, Hm. by apply row_moves.
    + destruct (Z.eqb_spec i (c_id c)) as [Ei|]; [|done]. rewrite Ei in Hr. symmetry.
      apply row_stays; [done..|]. by rewrite slot_in_moved, decide_False.
Qed.
Lemma move_inv : sub_count (c_slots c) s < MAX_GROUP_SIZE -> inv (v_reslot a move_core V).
Proof.
  intros Hroom. destruct raid_has_counts as [Hn Hf]. pose proof Hok as [G1 G2 G3 G4 G5 G6 G7].
  apply (inv_reslot V HI a c); try done.
  - split_and!; try done. by apply guids_alter.
  - split; try done; cbn; [unfold moved_slots; by rewrite guids_alter| |unfold capacity, moved_slots in *; cbn; by rewrite length_alter_slot].
    apply Forall_alter_slot; [|done]. intros x (? & ? & _). done.
  - unfold counts_ok. cbn. rewrite Hn. cbn. split; [done|]. rewrite move_counts. split; [done|]. apply raid_counts_few. intros i Hi.
    pose proof (proj1 (raid_counts_few _) Hf i Hi). pose proof (sub_count_move k m s (c_slots c) (Z.of_nat i) Hm) as Hc.
    fold moved_slots in Hc. unfold unit_at in Hc.
    destruct (Z.eqb_spec (ms_group m) (Z.of_nat i)); destruct (Z.eqb_spec s (Z.of_nat i)) as [E|]; try rewrite <- E in *; lia.
  - intros E. by rewrite E in Hm.
Qed.
End move.

Lemma raid_flag g : core g = c -> isRaidGroup g = (c_type c =? GROUPTYPE_RAID).
Proof. by intros <-. Qed.
Lemma slot_flag g k : core g = c -> member_slot k g = slot_in k (c_slots c).
Proof. by intros <-. Qed.
Lemma can_move_moves {B} s (f : bool -> GM B) (Q : B -> View -> Prop) :
  0 <= s -> moves (f false) Q V ->
  (c_type c = GROUPTYPE_RAID -> s < 8 -> sub_count (c_slots c) s < MAX_GROUP_SIZE -> moves (f true) Q V) ->
  moves (st_bind (can_move a s) f) Q V.
Proof.
  intros Hs H1 H2. unfold can_move. mv_step. mv_step. rewrite (raid_flag g Hg).
  destruct (Z.eqb_spec (c_type c) GROUPTYPE_RAID) as [Hr|]; cbn [negb orb]; [|by mv_step].
  destruct (Z.geb_spec s MAX_RAID_SUBGROUPS) as [|Hlt]; [by mv_step|]. change MAX_RAID_SUBGROUPS with 8 in Hlt.
  change (m_subGroupsCounts g) with (c_counts (core g)). rewrite Hg. destruct (raid_has_counts Hr) as [-> _].
  unfold count_at. rewrite raid_counts_lookup by lia. cbn [deref]. rewrite Z2Nat.id by lia. mv_step. mv_step. mv_step.
  destruct (Z.ltb_spec (sub_count (c_slots c) s) MAX_GROUP_SIZE); auto.
Qed.

(** The slot of a member, the counter of his new subgroup and his row. *)
Definition v_set_sub (k s : Z) : View :=
  v_set_rows (on_rows k (row_set_subgroup s) (v_rows V))
    (v_put_g a (set_cnt (inc_counts s 1 <$> c_counts c) (set_slot_list (moved_slots k s) c)) V).
Lemma _setMembersGroup_moves {B} k s (f : bool -> GM B) (Q : B -> View -> Prop) :
  c_type c = GROUPTYPE_RAID -> 0 <= s < 8 -> (slot_in k (c_slots c) = None -> moves (f false) Q V) ->
  (forall m, slot_in k (c_slots c) = Some m -> moves (f true) Q (v_set_sub k s)) -> moves (st_bind (_setMembersGroup a k s) f) Q V.
Proof.
  intros Hr Hs H1 H2. unfold _setMembersGroup. mv_step. mv_step. rewrite (slot_flag g k Hg).
  destruct (slot_in k (c_slots c)) as [m|] eqn:Hm; [|mv_step; auto]. destruct (slot_range k m Hm) as (Hk & _).
  specialize (H2 m eq_refl). destruct (raid_has_counts Hr) as [Hn _]. mv_step. mv_step.
  eapply (mv_g_mod a c (set_slot_list (moved_slots k s) c)); [done|intros ? Hg1; unfold moved_slots; by rewrite <- Hg1|done|].
  mv_step. mv_step. eapply counter_moves; [by cbn; rewrite lookup_insert_eq| |].
  { intros n Hn'. change (c_counts c = Some n) in Hn'. rewrite Hn in Hn'. injection Hn' as <-. eexists. apply raid_counts_lookup. lia. }
  rewrite put_g_put. mv_step. mv_step. apply update_member_moves; [by apply (group_bg g c)|done|]. by mv_step.
Qed.

Lemma v_set_sub_heap k s : v_heap (v_set_sub k s) !! a = Some (set_cnt (inc_counts s 1 <$> c_counts c) (set_slot_list (moved_slots k s) c)).
Proof. cbn. by rewrite lookup_insert_eq. Qed.
(** The old subgroup has one member less, and everything follows the slot. *)
Lemma end_move k s m W : slot_in k (c_slots c) = Some m -> 0 <= s < 8 -> ms_group m <> s -> c_type c = GROUPTYPE_RAID ->
  sub_count (c_slots c) s < MAX_GROUP_SIZE -> W = v_set_ps (alter (in_sub s) k (v_ps V)) (v_set_sub k s) ->
  kept (SubGroupCounterDecrease a (ms_group m) ;;; SendUpdate a) W.
Proof.
  intros Hm Hs Hne Hr Hroom ->. destruct (slot_range k m Hm) as (_ & Hg & _). destruct (raid_has_counts Hr) as [Hn _].
  unfold kept. apply mv_bind. eapply counter_moves; [by cbn; rewrite lookup_insert_eq| |].
  { intros n Hn'. cbn in Hn'. rewrite Hn in Hn'. injection Hn' as <-. unfold inc_counts.
    destruct (lookup_lt_is_Some_2 (alter (fun x => u8 (x + 1)) (Z.to_nat s) (raid_counts (c_slots c))) (Z.to_nat (ms_group m)));
      [rewrite length_alter, length_raid_counts; lia|by eexists]. }
  pose proof (move_inv k s m Hm Hs Hne Hr Hroom) as HI1. rewrite <- (move_view k s m Hm) in HI1.
  match type of HI1 with inv ?W => set (V' := W) in HI1 end. replace (v_put_g _ _ _) with V'.
  - apply (kept_calm (fun W => W = V')); [done| |done]. apply SendUpdate_calm. intros W _ ->. eexists. cbn. by rewrite lookup_insert_eq.
  - unfold V', v_put_g, v_set_ps, v_set_sub. cbn. by rewrite insert_insert_eq.
Qed.

Lemma member_group g k : core g = c -> GetMemberGroup k g = match slot_in k (c_slots c) with Some m => ms_group m | None => 9 end.
Proof. by intros <-. Qed.
Lemma ChangeMembersGroup_player_kept k s : online k V -> 0 <= s -> kept (ChangeMembersGroup_player a k s) V.
Proof.
  intros [p Hp] Hs. unfold kept, ChangeMembersGroup_player. mv_step. rewrite (raid_flag g Hg).
  destruct (Z.eqb_spec (c_type c) GROUPTYPE_RAID) as [Hr|]; cbn [negb orb]; [|by mvs].
  destruct (Z.geb_spec s MAX_RAID_SUBGROUPS) as [|Hlt]; [by mvs|]. change MAX_RAID_SUBGROUPS with 8 in *.
  rewrite (member_group g k Hg). destruct (slot_in k (c_slots c)) as [m|] eqn:Hm; [|rewrite orb_true_r; by mvs].
  destruct (slot_range k m Hm) as (Hk & Hmg & Hmk). destruct (Z.eqb_spec (ms_group m) s) as [|Hne]; cbn [orb]; [by mvs|].
  destruct (Z.geb_spec (ms_group m) 8); [lia|]. apply can_move_moves; [done|cbn [negb]; by mvs|]. intros _ _ Hroom. cbn [negb].
  apply _setMembersGroup_moves; [done..|congruence|]. intros m' _. cbn [negb].
  eapply mv_player; [exact Hp|]. intros q Hq. change (GetGroup q) with (p_group (pcore q)). rewrite Hq.
  destruct (l_member _ _ _ HL k p m Hp Hm) as [Hpg _]. rewrite Hpg, bool_decide_true by done.
  mv_step. mv_step. eapply (mv_p_mod k p (in_sub s p)); [done| |].
  { intros q' <-. by destruct q' as [? ? ? ? ? ? ? ? ? ? ? ? []]. }
  apply (end_move k s m); try done. unfold v_put_p, v_set_ps, v_set_sub. cbn. by rewrite (alter_is_insert (in_sub s) _ k p).
Qed.
Lemma ChangeMembersGroup_kept k s : 0 <= s -> kept (ChangeMembersGroup a k s) V.
Proof.
  intros Hs. unfold kept, ChangeMembersGroup. apply can_move_moves; [done|cbn [negb]; by mvs|]. intros Hr Hlt Hroom. cbn [negb].
  apply mv_find; [done|]. intros [q|] Ho; cbn [found] in Ho; [apply ChangeMembersGroup_player_kept; [by eexists|done]|].
  mv_step. rewrite (member_group g k Hg). destruct (slot_in k (c_slots c)) as [m|] eqn:Hm.
  - destruct (Z.eqb_spec (ms_group m) s) as [|Hne]; [by mvs|].
    apply _setMembersGroup_moves; [done..|congruence|]. intros m' _. apply (end_move k s m); try done.
    replace (alter (in_sub s) k (v_ps V)) with (v_ps V); [by rewrite <- (set_ps_self (v_set_sub k s)) at 1|].
    apply map_eq. intros j. rewrite lookup_alter_if. case_decide as E; [by rewrite E, Ho|done].
  - destruct (9 =? s); [by mvs|]. apply _setMembersGroup_moves; [done..|intros _; by mvs|congruence].
Qed.

(** *** Two members change places *)

Section swap.
Context (k1 k2 : Z) (m1 m2 : MemberSlot) (H1 : slot_in k1 (c_slots c) = Some m1) (H2 : slot_in k2 (c_slots c) = Some m2).
Context (Hne : ms_group m1 <> ms_group m2).

Definition swapped_slots : list MemberSlot :=
  alter_slot k1 (ms_set_group (ms_group m2)) (alter_slot k2 (ms_set_group (ms_group m1)) (c_slots c)).
Definition swap_core : GCore := set_slot_list swapped_slots c.

Lemma swap_distinct : k1 <> k2.
Proof. intros E. rewrite E in H1. congruence. Qed.
Lemma slot_in_swapped j : slot_in j swapped_slots =
  if decide (j = k1) then Some (ms_set_group (ms_group m2) m1) else if decide (j = k2) then Some (ms_set_group (ms_group m1) m2)
  else slot_in j (c_slots c).
Proof.
  pose proof swap_distinct. unfold swapped_slots. rewrite !slot_in_alter by done.
  destruct (decide (j = k1)) as [->|]; [by rewrite decide_False, H1|]. by destruct (decide (j = k2)) as [->|]; [rewrite H2|].
Qed.
Lemma swap_counts i : sub_count swapped_slots i = sub_count (c_slots c) i.
Proof.
  pose proof swap_distinct as Hd. unfold swapped_slots. set (l1 := alter_slot k2 (ms_set_group (ms_group m1)) (c_slots c)).
  pose proof (sub_count_move k2 m2 (ms_group m1) (c_slots c) i H2) as E2. fold l1 in E2.
  assert (Hm1 : slot_in k1 l1 = Some m1) by (unfold l1; by rewrite slot_in_alter, decide_False).
  pose proof (sub_count_move k1 m1 (ms_group m2) l1 i Hm1) as E1. lia.
Qed.
Lemma swap_view : mkV (<[a := swap_core]> (v_heap V)) (alter (in_sub (ms_group m1)) k2 (alter (in_sub (ms_group m2)) k1 (v_ps V)))
    (v_next V) (v_reg V) (v_ids V) (v_groups V)
    (on_rows k2 (row_set_subgroup (ms_group m1)) (on_rows k1 (row_set_subgroup (ms_group m2)) (v_rows V)))
  = v_reslot a swap_core V.
Proof.
  pose proof swap_distinct as Hd. assert (Hnil : c_slots c <> []) by (intros E; by rewrite E in H1).
  destruct (slot_range k1 m1 H1) as (_ & _ & Hm1). destruct (slot_range k2 m2 H2) as (_ & _ & Hm2).
  unfold v_reslot. cbn. f_equal.
  - apply resub_ext. intros j. rewrite !lookup_alter_if.
    destruct (v_ps V !! j) as [p|] eqn:Hj; [|by repeat case_decide]. pose proof (slot_in_swapped j) as Es.
    destruct (decide (j = k2)) as [E2|E2]; destruct (decide (j = k1)) as [E1|E1]; try congruence; cbn; f_equal.
    + unfold follow. by rewrite Es.
    + unfold follow. by rewrite Es.
    + symmetry. by apply follow_stays.
  - apply rerow_ext. intros i j. rewrite !lookup_on_rows. destruct (v_rows V !! (i, j)) as [r|] eqn:Hr; [|done]. cbn. f_equal.
    pose proof (slot_in_swapped j) as Es. destruct (Z.eqb_spec j k2) as [E2|E2]; destruct (Z.eqb_spec j k1) as [E1|E1]; try congruence.
    + rewrite E2 in *. assert (i = c_id c) as Ei by (apply (row_of_member V HI a c Ha i k2 r Hr), slot_in_is_Some; by eexists).
      rewrite Ei in *. rewrite Z.eqb_refl, Es, decide_False, decide_True by congruence. rewrite <- Hm2 in Hr. rewrite <- Hm2 in H2. by apply row_moves.
    + rewrite E1 in *. assert (i = c_id c) as Ei by (apply (row_of_member V HI a c Ha i k1 r Hr), slot_in_is_Some; by eexists).
      rewrite Ei in *. rewrite Z.eqb_refl, Es, decide_True by done. rewrite <- Hm1 in Hr. rewrite <- Hm1 in H1. by apply row_moves.
    + destruct (Z.eqb_spec i (c_id c)) as [Ei|]; [|done]. rewrite Ei in Hr. symmetry.
      apply row_stays; [done..|]. by rewrite Es, !decide_False.
Qed.
Lemma swap_inv : inv (v_reslot a swap_core V).
Proof.
  pose proof Hok as [G1 G2 G3 G4 G5 G6 G7].
  assert (Hg : guids swapped_slots = guids (c_slots c)) by (unfold swapped_slots; by rewrite !guids_alter).
  destruct (slot_range k1 m1 H1) as (_ & R1 & _). destruct (slot_range k2 m2 H2) as (_ & R2 & _).
  apply (inv_reslot V HI a c); try done.
  - split; try done.
    + change (NoDup (guids swapped_slots)). by rewrite Hg.
    + apply Forall_alter_slot; [intros x (? & ? & _); done|]. apply Forall_alter_slot; [intros x (? & ? & _); done|done].
    + unfold capacity in *. cbn. unfold swapped_slots. by rewrite !length_alter_slot.
  - pose proof (l_counts _ _ _ HL) as HC. unfold counts_ok in *. cbn. destruct (c_counts c) as [n|].
    + destruct HC as (? & -> & ?). split_and!; try done. apply raid_counts_eq; [apply length_raid_counts|]. intros i Hi.
      by rewrite raid_counts_lookup, swap_counts.
    + destruct HC as [_ Hz]. rewrite Forall_forall in Hz. destruct (slot_in_Some _ _ _ H1) as [Hi1 _].
      destruct (slot_in_Some _ _ _ H2) as [Hi2 _]. pose proof (Hz m1 Hi1). pose proof (Hz m2 Hi2). congruence.
  - intros E. by rewrite E in H1.
Qed.
End swap.

(** The reference of a member who is online. *)
Lemma move_ref_moves W k s o (f : unit -> GM unit) (Q : unit -> View -> Prop) :
  v_ps W = v_ps V \/ (exists j t, j <> k /\ v_ps W = alter (in_sub t) j (v_ps V)) -> found V k o ->
  (forall p, v_ps V !! k = Some p -> p_group p = Some a) ->
  moves (f tt) Q (v_set_ps (alter (in_sub s) k (v_ps W)) W) ->
  moves (st_bind (match o with Some _ => move_ref a k s | None => st_ret tt end) f) Q W.
Proof.
  intros HW Ho Hg HQ. assert (Hk : v_ps W !! k = v_ps V !! k).
  { destruct HW as [-> |(j & t & ? & ->)]; [done|]. by rewrite lookup_alter_ne. }
  destruct o as [q|]; cbn [found] in Ho.
  - unfold move_ref. rewrite Ho in Hk. mv_step. mv_step. change (GetGroup q0) with (p_group (pcore q0)). rewrite Hq, (Hg _ Ho).
    rewrite bool_decide_true by done. cbn [negb]. mv_step. eapply (mv_p_mod k (pcore q) (in_sub s (pcore q))); [done| |].
    { intros q' <-. by destruct q' as [? ? ? ? ? ? ? ? ? ? ? ? []]. }
    unfold v_put_p. by rewrite (alter_is_insert (in_sub s) _ k (pcore q)) in HQ.
  - mv_step. replace (alter (in_sub s) k (v_ps W)) with (v_ps W) in HQ; [by rewrite set_ps_self in HQ|].
    apply map_eq. intros j. rewrite lookup_alter_if. case_decide as E; [by rewrite E, Hk, Ho|done].
Qed.
Lemma SwapMembersGroup_kept k1 k2 : kept (SwapMembersGroup a k1 k2) V.
Proof.
  unfold kept, SwapMembersGroup. mv_step. destruct (negb _); [by mvs|]. apply mv_find; [done|]. intros o1 Ho1.
  apply mv_find; [done|]. intros o2 Ho2. rewrite !(member_group g _ Hg).
  destruct (slot_in k1 (c_slots c)) as [m1|] eqn:H1; [|rewrite orb_true_r; cbn [orb]; by mvs].
  destruct (slot_in k2 (c_slots c)) as [m2|] eqn:H2; [|rewrite orb_true_r; cbn [orb]; by mvs].
  destruct (slot_range k1 m1 H1) as (Hk1 & R1 & _). destruct (slot_range k2 m2 H2) as (Hk2 & R2 & _). change MAX_RAID_SUBGROUPS with 8.
  destruct (Z.geb_spec (ms_group m1) 8); [lia|]. destruct (Z.geb_spec (ms_group m2) 8); [lia|].
  destruct (Z.eqb_spec (ms_group m1) (ms_group m2)) as [|Hne]; cbn [orb]; [by mvs|].
  pose proof (swap_distinct k1 k2 m1 m2 H1 H2 Hne) as Hd. unfold _swapMembersGroup. mv_step. mv_step.
  rewrite !(slot_flag g0 _ Hg0), H1, H2. mv_step. mv_step.
  eapply (mv_g_mod a c (swap_core k1 k2 m1 m2)); [done|intros ? Hg1; unfold swap_core, swapped_slots; by rewrite <- Hg1|done|].
  mv_step. mv_step. apply update_member_moves; [by apply (group_bg g0 c)|done|].
  mv_step. mv_step. apply update_member_moves; [by apply (group_bg g0 c)|done|]. mv_step. cbn [negb].
  assert (Href : forall j m, slot_in j (c_slots c) = Some m -> forall p, v_ps V !! j = Some p -> p_group p = Some a).
  { intros j m Hm p Hp. by destruct (l_member _ _ _ HL j p m Hp Hm). }
  apply move_ref_moves; [by left|done|by apply (Href k1 m1)|].
  apply move_ref_moves; [right; by exists k1, (ms_group m2)|done|by apply (Href k2 m2)|].
  pose proof (swap_inv k1 k2 m1 m2 H1 H2 Hne) as HI1. rewrite <- (swap_view k1 k2 m1 m2 H1 H2 Hne) in HI1.
  match type of HI1 with inv ?W => set (V' := W) in HI1 end. 
  apply (kept_calm (fun W => W = V')); [done| |done]. apply SendUpdate_calm. intros W _ ->. eexists. cbn. by rewrite lookup_insert_eq.
Qed.

(** ** Raids *)

Definition raid_core : GCore :=
  mkGC (c_slots c) (c_mgr c) (c_inv c) (c_leader c) (c_name c) (c_id c) GROUPTYPE_RAID (c_bg c)
    (Some (raid_counts (c_slots c))) (c_icons c).
Definition v_raid : View := v_put_g a raid_core (v_set_groups (alter (fun r => (r.1, true)) (c_id c) (v_groups V)) V).

(** The counters are made anew, one member at a time. *)
Lemma init_counts_moves W d (Q : unit -> View -> Prop) :
  v_heap W !! a = Some d -> c_slots d = c_slots c -> Q tt (v_put_g a (set_cnt (Some (raid_counts (c_slots c))) d) W) ->
  moves (_initRaidSubGroupsCounter a) Q W.
Proof.
  intros Hd Hsl HQ. pose proof (few_members : (length (c_slots c) <= 40)%nat) as H40. pose proof (go_slots _ Hok) as Gs.
  assert (Hall : forall l2 l1, c_slots c = l1 ++ l2 ->
    moves (each (fun m => SubGroupCounterIncrease a (ms_group m)) l2) Q (v_put_g a (set_cnt (Some (raid_counts l1)) d) W)).
  { induction l2 as [|m l2 IH]; intros l1 E; cbn [each]; [mv_step; by rewrite E, app_nil_r in HQ|]. rewrite E in Gs, H40.
    rewrite length_app in H40. cbn in H40. apply Forall_app in Gs as [_ Gs]. inversion Gs as [|? ? (_ & _ & Hm) _]; subst.
    change MAX_RAID_SUBGROUPS with 8 in Hm. apply mv_bind. eapply counter_moves; [by cbn; rewrite lookup_insert_eq| |].
    - cbn. intros n [= <-]. eexists. apply raid_counts_lookup. lia.
    - rewrite put_g_put. cbn [c_counts set_cnt fmap option_fmap option_map]. rewrite (counts_join l1 m _ eq_refl Hm) by lia.
      apply (IH (l1 ++ [m])). by rewrite <- app_assoc. }
  unfold _initRaidSubGroupsCounter. apply mv_bind. eapply (mv_g_mod a d (set_cnt (Some (raid_counts [])) d)); [done|by intros ? <-|done|].
  eapply mv_group; [by cbn; rewrite lookup_insert_eq|]. intros g Hg.
  change (m_memberSlots g) with (c_slots (core g)). rewrite Hg. cbn [c_slots set_cnt]. rewrite Hsl. by apply (Hall (c_slots c) []).
Qed.
Lemma raid_ok : counts_ok raid_core.
Proof.
  unfold counts_ok. cbn. split_and!; try done. pose proof (l_counts _ _ _ HL) as HC. unfold counts_ok in HC.
  destruct (c_counts c) as [n|]; [by destruct HC as (_ & <- & ?)|]. destruct HC as [Ht _]. apply raid_counts_few. intros i _.
  pose proof (sub_count_range (c_slots c) (Z.of_nat i)). pose proof (go_size _ Hok) as Hz. unfold capacity in Hz. rewrite Ht in Hz.
  change (Z.of_nat (length (c_slots c)) <= MAX_GROUP_SIZE) in Hz. lia.
Qed.
Lemma raid_inv m : slot_in (ms_guid m) (c_slots c) = Some m -> inv v_raid.
Proof.
  intros Hm. destruct (member_settled V a c m HI Ha Hm) as (H0 & H2 & Hreg & Hld & Hrow). pose proof Hok as [G1 G2 G3 G4 G5 G6 G7].
  set (gs := alter (fun r => (r.1, true)) (c_id c) (v_groups V) : gmap Z (Z * bool)). set (Vg := v_set_groups gs V).
  assert (HBg : base Vg).
  { apply (base_tables V (v_reg V) (v_ids V) gs (v_rows V) HB); try apply HB; [pose proof (b_ids V HB); lia|].
    intros i r [(<- & r0 & Hr & _)|[_ Hr]]%lookup_alter_Some; by eapply (b_groups V HB). }
  assert (HB1 : base v_raid).
  { apply (base_group Vg a c); [done..|]. split; try done. unfold capacity in *. cbn. unfold MAX_RAID_SIZE, MAX_GROUP_SIZE in *. case_match; lia. }
  apply (inv_close _ a raid_core).
  - apply (inv_frame None a V); [done|by left|done|]. intros b d Hb Hd. cbn in Hd. rewrite lookup_insert_ne in Hd by done.
    split; [done|]. split; try done; [cbn; eauto|]. cbn. rewrite lookup_alter_ne; [done|].
    intros E. symmetry in E. by apply (other_id V a c b d).
  - cbn. by rewrite lookup_insert_eq.
  - destruct HL. split; try done. apply raid_ok.
  - right. cbn. split_and!; try done. by rewrite lookup_alter_eq, Hrow.
Qed.
Lemma ConvertToRaid_kept m : slot_in (ms_guid m) (c_slots c) = Some m -> kept (ConvertToRaid a) V.
Proof.
  intros Hm. unfold kept, ConvertToRaid. mv_step.
  set (c1 := mkGC (c_slots c) (c_mgr c) (c_inv c) (c_leader c) (c_name c) (c_id c) GROUPTYPE_RAID (c_bg c) (c_counts c) (c_icons c)).
  eapply (mv_g_mod a c c1); [done|intros ? Hg1; unfold c1; by rewrite <- Hg1|done|]. mv_step.
  apply (init_counts_moves _ c1); [by cbn; rewrite lookup_insert_eq|done|]. rewrite put_g_put.
  eapply mv_group; [by cbn; rewrite lookup_insert_eq|]. intros g Hg. unfold update_groups.
  assert (isBGGroup g = false) as -> by (change (c_bg (core g) = false); rewrite Hg; apply (go_bg _ Hok)).
  assert (m_Id g = c_id c) as -> by (change (c_id (core g) = c_id c); by rewrite Hg).
  mv_step. apply (mv_alter _ v_raid); [|done|].
  { intros w Hw. change (view (w_set_groups ?t w)) with (v_set_groups (grow <$> t) (view w)). rewrite Hw.
    unfold v_raid, v_put_g, v_set_groups. cbn. f_equal. change (v_groups V) with (v_groups (v_put_g a raid_core V)).
    change (set_cnt (Some (raid_counts (c_slots c))) c1) with raid_core in Hw. rewrite <- Hw. cbn.
    apply map_eq. intros i. unfold sql_update_row. rewrite lookup_fmap, !lookup_alter_if, lookup_fmap.
    case_decide; [|done]. by destruct (t_groups w !! i). }
  pose proof (raid_inv m Hm) as HI1. apply (kept_calm (fun W => W = v_raid)); [done| |done].
  assert (Hl : forall W, base W -> W = v_raid -> live a W) by (intros W _ ->; eexists; cbn; by rewrite lookup_insert_eq).
  calms.
Qed.
End orders.
