(* ===== verification/GroupLives.v ===== *)
(** * GroupLives: players who come and go, and leaders who are away *)

From stdpp Require Import gmap fin_maps strings.
From S2P Require Import Prelude ByteBuffer Codec ObjectGuid Packets Effects Incoming Social.
From S2P Require Import GroupData GroupRolls GroupLists LFG Group GroupRaid GroupHandlers MeetingStones GroupLife GroupInv GroupCalm GroupVotes GroupMoves GroupOps GroupMembers GroupEnds GroupSteps GroupServe.

Local Open Scope prog_scope.

Section lives.
Context (env : GroupEnv) `{!GroupEnvOk env}.

(** ** Entering *)

Lemma select_group_some k t id : select_group k t = Some id -> exists r, t !! (id, k) = Some r.
Proof.
  unfold select_group. intros H. apply head_Some in H as [l H]. 
  assert (Hin : id ∈ ((fun e : Z * Z * member_row => e.1.1) <$> filter (fun e => e.1.2 = k) (map_to_list t))) by (rewrite H; by left).
  apply list_elem_of_fmap in Hin as ([[i j] r] & -> & [Hj Hl]%list_elem_of_filter). cbn in *. subst j. exists r.
  by apply elem_of_map_to_list.
Qed.
Lemma select_group_none k t : select_group k t = None -> forall id, t !! (id, k) = None.
Proof.
  unfold select_group. intros H id. destruct (t !! (id, k)) as [r|] eqn:E; [|done]. exfalso. apply head_None in H.
  apply fmap_nil_inv in H. assert (Hin : (id, k, r) ∈ filter (fun e : Z * Z * member_row => e.1.2 = k) (map_to_list t)).
  { apply list_elem_of_filter. split; [done|]. by apply elem_of_map_to_list. }
  rewrite H in Hin. by apply elem_of_nil in Hin.
Qed.
Lemma leader_flag_moves V k p b (Q : unit -> View -> Prop) :
  v_ps V !! k = Some p -> (forall a, p_group p = Some a -> live a V) -> Q tt V -> moves (UpdateGroupLeaderFlag k b) Q V.
Proof.
  intros Hk Hl HQ. unfold UpdateGroupLeaderFlag. mv_step.
  assert (Htail : forall leads, moves (if pl_leaderFlag q then if b || negb leads then p_mod k (set_leaderFlag false) else st_ret tt
    else if negb b && leads then p_mod k (set_leaderFlag true) else st_ret tt) Q V).
  { intros leads. repeat case_match; try (by apply mv_ret);
      (eapply (mv_p_mod k p p); [done|by intros ? <-|by rewrite put_p_id]). }
  change (GetGroup q) with (p_group (pcore q)). rewrite Hq. destruct (p_group p) as [a|] eqn:E; [|mvs; apply Htail].
  destruct (Hl a eq_refl) as [c Hc]. mvs. apply Htail.
Qed.

(** A player who enters. *)
Definition entering (p : Player) : PCore := mkPC (pl_guid p) (pl_name p) true None 0 None 0 None.
Definition not_yet (p : PCore) : PCore := mkPC (p_guid p) (p_name p) false (p_group p) (p_sub p) (p_orig p) (p_origSub p) (p_invite p).

Section entrance.
Context (V : View) (HI : inv V) (p : Player) (Hk : 0 < pl_guid p < 2 ^ 32) (Hn : short (pl_name p)).
Context (Hoff : v_ps V !! pl_guid p = None).

Let k := pl_guid p.
Let HB : base V := proj1 HI.
Let V1 : View := v_put_p k (entering p) V.

Lemma base_entering : base V1.
Proof. apply base_enter; try done. Qed.
(** Who has a row has a slot, in a registered group. *)
Lemma entering_row id r : v_rows V !! (id, k) = Some r ->
  exists a c m, v_reg V !! id = Some a /\ v_heap V !! a = Some c /\ slot_in k (c_slots c) = Some m /\ ms_guid m = k.
Proof.
  intros Hr. destruct (b_rows V HB id k r Hr) as (a & c & Hc & Hid & H0). destruct (inv_at V a c HI Hc) as [[_ L2 _] HS].
  rewrite <- Hid in Hr, H0. rewrite L2 in Hr by done. apply fmap_Some in Hr as (m & Hm & _).
  destruct HS as [(E & _)|(_ & Hreg & _)]; [by rewrite E in Hm|]. exists a, c, m. rewrite <- Hid.
  split_and!; try done. apply (slot_in_Some _ _ _ Hm).
Qed.
Lemma entering_no_row : (forall id, v_rows V !! (id, k) = None) -> forall a c, v_heap V !! a = Some c -> k ∉ guids (c_slots c).
Proof.
  intros Hr a c Hc [m Hm]%slot_in_is_Some. destruct (inv_at V a c HI Hc) as [[_ L2 _] _].
  specialize (Hr (c_id c)). rewrite L2 in Hr; [by rewrite Hm in Hr|].
  intros E. destruct (b_id V HB a c Hc) as [_ H0]. by rewrite (H0 E) in Hm.
Qed.
Lemma entered_alone : (forall id, v_rows V !! (id, k) = None) -> inv V1.
Proof.
  intros Hr. pose proof (entering_no_row Hr) as Hno. split; [apply base_entering|]. intros b d Hd _.
  destruct (inv_at V b d HI Hd) as [HL HS]. assert (Hs : same_for V V1 d).
  { split; try done. cbn. intros j q [[<- <-]|[_ Hj]]%lookup_insert_Some Hin; [by destruct (Hno b d Hd)|eauto]. }
  split; [by eapply linked_same|by eapply settled_same].
Qed.
Lemma entered_group a c m : v_heap V !! a = Some c -> slot_in k (c_slots c) = Some m ->
  inv (v_attach V1 a c k (entering p) (ms_group m)).
Proof.
  intros Hc Hm. pose proof base_entering as HB1. destruct (inv_at V a c HI Hc) as [[L1 L2 L3] HS].
  assert (Hin : k ∈ guids (c_slots c)) by (apply slot_in_is_Some; by eexists).
  assert (HB2 : base (v_attach V1 a c k (entering p) (ms_group m))).
  { apply base_attach; try done. cbn. by rewrite lookup_insert_eq. }
  apply (inv_close _ a (set_mgr ((k, false) :: c_mgr c) c)).
  - apply (inv_frame None a V); [done|by left|done|]. intros b d Hb Hd. cbn in Hd. rewrite lookup_insert_ne in Hd by done.
    split; [done|]. split; try done. cbn. rewrite insert_insert_eq.
    intros j q [[<- <-]|[_ Hj]]%lookup_insert_Some Hjd; [|eauto]. exfalso. apply Hb. by apply (b_once V HB b a d c k).
  - cbn. by rewrite lookup_insert_eq.
  - split; [|done|done]. cbn. rewrite insert_insert_eq. intros j q m' [[<- <-]|[_ Hj]]%lookup_insert_Some Hm'; [|by apply (L1 j)].
    split; [done|]. cbn. congruence.
  - done.
Qed.
End entrance.

Lemma login_group_moves V p (Q : unit -> View -> Prop) :
  inv V -> 0 < pl_guid p < 2 ^ 32 -> short (pl_name p) -> v_ps V !! pl_guid p = None ->
  (forall V', inv V' -> Q tt V') -> moves (login_group env p) Q V.
Proof.
  intros HI Hk Hn Hoff HQ. pose proof HI as [HB _]. unfold login_group. apply mv_look. intros w0 Hw0.
  rewrite GetCounter_player by (unfold is_u; lia). set (k := pl_guid p) in *.
  assert (Ht : t_group_member w0 = v_rows V) by (by rewrite <- Hw0). rewrite Ht.
  apply mv_bind. set (V0 := v_put_p k (not_yet (entering p)) V).
  apply (mv_alter _ V0); [|done|].
  { intros w Hw. unfold V0, v_put_p. rewrite <- Hw. unfold view, w_enter. cbn. by rewrite fmap_insert. }
  (* in the world at last *)
  assert (Hlast : forall W q, v_ps W !! k = Some (not_yet q) -> inv (v_put_p k q W) -> p_world q = true ->
    moves (p_mod k (SetInWorld true) ;;; let! p := player_at k in
      match GetGroup p with Some a => UpdatePlayerOnlineStatus env a k true | None => st_ret tt end) Q W).
  { intros W q Hq HI1 Hw. apply mv_bind. eapply (mv_p_mod k (not_yet q) q); [done| |].
    { intros q' E. transitivity (mkPC (p_guid (pcore q')) (p_name (pcore q')) true (p_group (pcore q')) (p_sub (pcore q'))
        (p_orig (pcore q')) (p_origSub (pcore q')) (p_invite (pcore q'))); [done|]. rewrite E. destruct q. cbn in *. by subst. }
    eapply mv_player; [by cbn; rewrite lookup_insert_eq|]. intros q1 Hq1.
    change (GetGroup q1) with (p_group (pcore q1)). rewrite Hq1. destruct (p_group q) as [a|] eqn:Ea; [|mvs; auto].
    apply (mv_calm (fun W' => W' = v_put_p k q W)); [|apply HI1|done|intros []; auto].
    apply UpdatePlayerOnlineStatus_calm; intros W' HB' ->.
    - destruct (b_ref _ HB' k q a) as (c & Hc & _); [cbn; by rewrite lookup_insert_eq|done|by exists c].
    - eexists. cbn. by rewrite lookup_insert_eq. }
  assert (HV0 : v_ps V0 !! k = Some (not_yet (entering p))) by (cbn; by rewrite lookup_insert_eq).
  unfold _LoadGroup. mv_step. mv_step.
  destruct (select_group k (v_rows V)) as [id|] eqn:Es.
  - apply select_group_some in Es as [r Hr]. destruct (entering_row V HI p id r Hr) as (a & c & m & Hreg & Hc & Hm & Hmk).
    fold k in Hm, Hmk. apply mv_look. intros w Hw. assert (GetGroupById id w = Some a) as ->.
    { change (v_reg (view w) !! id = Some a). by rewrite Hw. }
    eapply mv_group; [exact Hc|]. intros g Hg. change (GetMemberGroup k g) with
      (match slot_in k (c_slots (core g)) with Some m => ms_group m | None => 9 end). rewrite Hg, Hm.
    assert (Hsub : 0 <= ms_group m < 8).
    { pose proof (go_slots _ (b_wf V HB a c Hc)) as Gs. rewrite Forall_forall in Gs.
      by destruct (Gs m (proj1 (slot_in_Some _ _ _ Hm))) as (_ & _ & ?). }
    apply (SetGroup_moves V0 a c k (not_yet (entering p))); [done..|]. mv_step.
    apply (leader_flag_moves _ k (refer (Some a) (ms_group m) (not_yet (entering p)))).
    + cbn. by rewrite lookup_insert_eq.
    + cbn. intros b [= <-]. eexists. cbn. by rewrite lookup_insert_eq.
    + apply (Hlast _ (refer (Some a) (ms_group m) (entering p))); [cbn; by rewrite lookup_insert_eq| |done].
      pose proof (entered_group V HI p Hk Hn Hoff a c m Hc Hm) as HI1. fold k in HI1.
      unfold v_attach, v_put_p, v_put_g, V0 in HI1 |- *. cbn in HI1 |- *. rewrite insert_insert_eq in HI1. by rewrite !insert_insert_eq.
  - mv_step. mv_step. apply (leader_flag_moves V0 k (not_yet (entering p))); [done|done|].
    apply (Hlast _ (entering p)); [done| |done].
    pose proof (entered_alone V HI p Hk Hn Hoff (select_group_none _ _ Es)) as HI1. fold k in HI1.
    unfold v_put_p, V0 in HI1 |- *. cbn in HI1 |- *. by rewrite insert_insert_eq.
Qed.

(** ** Leaving *)

(** A player without invitation is taken out of the world. *)
Lemma leave_world_moves V k p (Q : unit -> View -> Prop) :
  inv V -> v_ps V !! k = Some p -> p_invite p = None -> (forall V', inv V' -> Q tt V') ->
  moves (let! p := player_at k in
    if bool_decide (is_Some (GetGroupInvite p)) then aborts
    else unlink true k ;;; unlink false k ;;; alter_world (w_leave k p)) Q V.
Proof.
  intros HI Hk Hi HQ. pose proof HI as [HB _]. mv_step. change (GetGroupInvite q) with (p_invite (pcore q)). rewrite Hq, Hi.
  rewrite bool_decide_false by (by intros []). apply mv_bind. unfold unlink at 1. mv_step.
  change (ref_of true q0) with (p_orig (pcore q0)). rewrite Hq0, (po_orig _ _ (b_player V HB k p Hk)). mv_step. mv_step.
  destruct (p_group p) as [a|] eqn:Ea.
  - destruct (b_ref V HB k p a Hk Ea) as (c & Hc & Hin & _). destruct (inv_at V a c HI Hc) as [HL HS].
    apply (unlink_moves V HB a c k p); [done..|by right|].
    assert (Hps : v_ps (v_detach V a c k p) !! k = Some (unrefer p)) by (cbn; by rewrite lookup_insert_eq).
    (* between the unlinking and the end he has a slot and no reference *)
    set (W := v_detach V a c k p) in *. set (c1 := set_mgr (without k (c_mgr c)) c).
    apply (mv_alter _ (v_set_ps (delete k (v_ps W)) W)); [|done|apply HQ].
    { intros w Hw. rewrite <- Hw. unfold view, w_leave, v_set_ps. cbn. by rewrite fmap_delete. }
    assert (HBW : base W) by (apply base_detach; auto).
    apply (inv_close _ a c1).
    + apply (inv_frame None a V); [done|by left|by apply (base_leave W k (unrefer p))|].
      intros b d Hb Hd. cbn in Hd. rewrite lookup_insert_ne in Hd by done. split; [done|]. split; try done. cbn.
      rewrite delete_insert_eq. intros j q' [_ Hj]%lookup_delete_Some _. eauto.
    + cbn. by rewrite lookup_insert_eq.
    + destruct HL as [L1 L2 L3]. split; [|done|done]. cbn. rewrite delete_insert_eq.
      intros j q' m [_ Hj]%lookup_delete_Some. by apply L1.
    + done.
  - apply (unlink_none V k p); [done..|].
    assert (Hup : unrefer p = p) by (unfold unrefer; rewrite <- Ea; apply refer_self).
    apply (mv_alter _ (v_set_ps (delete k (v_ps V)) V)); [|done|apply HQ].
    { intros w <-. unfold view, w_leave, v_set_ps. cbn. by rewrite fmap_delete. }
    assert (HB1 : base (v_set_ps (delete k (v_ps V)) V)) by by apply (base_leave V k p).
    split; [done|]. intros b d Hd _. destruct (inv_at V b d HI Hd) as [HL HS].
    assert (Hs : same_for V (v_set_ps (delete k (v_ps V)) V) d).
    { split; try done. cbn. intros j q' [_ Hj]%lookup_delete_Some _. eauto. }
    split; [by eapply linked_same|by eapply settled_same].
Qed.

Lemma logout_group_moves V k p socket (Q : unit -> View -> Prop) :
  inv V -> v_ps V !! k = Some p -> (forall V', inv V' -> Q tt V') -> moves (logout_group env k socket) Q V.
Proof.
  intros HI Hk HQ. unfold logout_group. mv_step. eapply (mv_p_mod k p p); [done|by intros ? <-|]. rewrite put_p_id by done.
  mv_step. apply (UninviteFromGroup_moves env V k p); [done..|]. intros V1 HI1 Hk1.
  (* after the end of his membership *)
  assert (Hend : forall W p1, inv W -> v_ps W !! k = Some p1 -> p_invite p1 = None ->
    moves (let! p := player_at k in
      (match GetGroup p with Some a => UpdatePlayerOnlineStatus env a k false | None => st_ret tt end) ;;;
      let! p := player_at k in
      if bool_decide (is_Some (GetGroupInvite p)) then aborts
      else unlink true k ;;; unlink false k ;;; alter_world (w_leave k p)) Q W).
  { intros W p1 HIW Hkw Hiw. mv_step. change (GetGroup q) with (p_group (pcore q)). rewrite Hq. pose proof HIW as [HBW _].
    apply (mv_seq (fun W' => W' = W)); [|done..|intros _; by apply (leave_world_moves W k p1)].
    destruct (p_group p1) as [a|] eqn:Ea; [|apply calm_ret]. destruct (b_ref W HBW k p1 a Hkw Ea) as (c & Hc & _).
    apply UpdatePlayerOnlineStatus_calm; intros W' _ ->; by eexists. }
  eapply mv_player; [exact Hk1|]. intros q Hq. change (GetGroup q) with (p_group (pcore q)). rewrite Hq. cbn [p_group uninvited].
  destruct (p_group p) as [a|] eqn:Ea; [|mv_step; by apply (Hend V1 (uninvited p))].
  destruct (member_slot_of V1 a k (uninvited p) HI1 Hk1 Ea) as (c & m & Hc & Hm & Hmk & _).
  mv_step. mv_step. destruct (_ && _); [|mv_step; by apply (Hend V1 (uninvited p))].
  apply mv_bind. unfold RemoveSelfFromGroup. eapply mv_player; [exact Hk1|]. intros q1 Hq1.
  change (GetGroup q1) with (p_group (pcore q1)). rewrite Hq1. cbn [p_group uninvited]. rewrite Ea, <- Hmk in *.
  apply (RemoveFromGroup_moves env V1 a c m); [done..|]. intros V2 HI2 Hk2. rewrite Hk1 in Hk2.
  by apply (Hend V2 (unrefer (uninvited p))).
Qed.

(** ** Deleted characters *)

Lemma group_with_moves V k l (f : option Z -> GM unit) (Q : unit -> View -> Prop) :
  base V -> moves (f None) Q V ->
  (forall a c, v_heap V !! a = Some c -> k ∈ guids (c_slots c) -> moves (f (Some a)) Q V) -> moves (st_bind (group_with k l) f) Q V.
Proof.
  intros HB H1 H2. induction l as [|id l IH]; cbn [group_with]; [by mv_step|]. mv_step. apply mv_look. intros w Hw.
  destruct (GetGroupById id w) as [a|] eqn:E; [|done]. change (v_reg (view w) !! id = Some a) in E. rewrite Hw in E.
  destruct (b_reg V HB id a E) as (c & Hc & _). mv_step. mv_step. unfold IsMember.
  change (member_slot k g) with (slot_in k (c_slots (core g))). rewrite Hg. case_bool_decide as Hin; [|done].
  mv_step. by apply (H2 a c), slot_in_is_Some.
Qed.
Lemma DeleteFromDB_group_kept V k : inv V -> kept (DeleteFromDB_group env k) V.
Proof.
  intros HI. unfold kept, DeleteFromDB_group, GetGroupByMember. mv_step. apply mv_look. intros w Hw.
  apply group_with_moves; [apply HI|by mv_step|]. intros a c Hc [m Hm]%slot_in_is_Some.
  destruct (slot_in_Some _ _ _ Hm) as [_ <-]. by apply (RemoveFromGroup_moves env V a c m).
Qed.

(** ** Leaders who are away *)

Lemma registered V id a : inv V -> v_reg V !! id = Some a ->
  exists c, v_heap V !! a = Some c /\ (2 <= length (c_slots c))%nat /\ linked V a c
    /\ v_groups V !! c_id c = Some (c_leader c, c_type c =? GROUPTYPE_RAID) /\ v_reg V !! c_id c = Some a.
Proof.
  intros HI Hr. pose proof HI as [HB _]. destruct (b_reg V HB id a Hr) as (c & Hc & Hid & H0).
  destruct (inv_at V a c HI Hc) as [HL [(_ & ? & _)|(H2 & Hreg & _ & Hg)]]; [congruence|]. by exists c.
Qed.
Lemma UpdateOfflineLeader_moves V id a now delay (Q : unit -> View -> Prop) :
  inv V -> v_reg V !! id = Some a -> (forall V', inv V' -> v_reg V' = v_reg V -> Q tt V') ->
  moves (UpdateOfflineLeader env a now delay) Q V.
Proof.
  intros HI Hr HQ. destruct (registered V id a HI Hr) as (c & Hc & H2 & HL & Hg & Hreg). pose proof HI as [HB _].
  unfold UpdateOfflineLeader. mv_step. rewrite (group_bg g c Hg0 (b_wf V HB a c Hc)). apply mv_find; [done|].
  intros [q|] _.
  - eapply (mv_g_mod a c c); [done|by intros ? <-|done|]. rewrite put_g_id by done. by apply HQ.
  - destruct (_ || _); [mv_step; by apply HQ|].
    apply (_chooseLeader_moves env V None a c); try done; [by left|by intros _; apply HQ|]. intros m Hm.
    apply HQ; [|done]. apply (inv_close _ a (lead_core (ms_guid m) (ms_name m) c)).
    + apply (inv_lead V None a c); auto.
    + cbn. by rewrite lookup_insert_eq.
    + by apply linked_lead.
    + by eapply settled_lead.
Qed.
Lemma update_leaders_kept V now delay : inv V -> kept (update_leaders env now delay) V.
Proof.
  intros HI. unfold kept, update_leaders. destruct (delay =? 0); [by mv_step|]. apply mv_look. intros w Hw.
  assert (Hm : m_GroupMap w = v_reg V) by (by rewrite <- Hw). rewrite Hm. clear w Hw Hm.
  assert (Hall : forall l V', inv V' -> v_reg V' = v_reg V -> moves (each (fun id =>
    match v_reg V !! id with Some a => UpdateOfflineLeader env a now delay | None => st_ret tt end) l)
    (fun _ V' => inv V') V').
  { induction l as [|id l IH]; intros V' HI' Hr'; cbn [each]; [by mv_step|]. apply mv_bind.
    destruct (v_reg V !! id) as [a|] eqn:E; [|mv_step; by apply IH]. rewrite <- Hr' in E.
    apply (UpdateOfflineLeader_moves V' id a); [done..|]. intros V2 HI2 Hr2. apply IH; congruence. }
  by apply Hall.
Qed.
End lives.
