(* ===== verification/GroupQueue.v ===== *)
(** * GroupQueue: the update of the role queue keeps the invariant

    What an update does to the groups of the server: who is added to a queued
    group was waiting for it, fills a role the group offers, and the roles are
    taken one at a time. *)

From stdpp Require Import gmap fin_maps strings.
From S2P Require Import Prelude ByteBuffer Codec ObjectGuid Packets Effects Incoming Social.
From S2P Require Import GroupData GroupRolls GroupLists LFG Group GroupRaid GroupHandlers MeetingStones GroupLife GroupInv GroupCalm GroupVotes GroupMoves GroupOps GroupMembers GroupEnds GroupSteps GroupServe GroupOrders GroupLives.

Local Open Scope prog_scope.

(** ** Code that leaves the queue alone

    Joining a group may compute its offers again, and leaves the queues
    otherwise as they are. *)

Definition mark (e : LFGGroupQueueInfo) : Z * Z * bool := (lg_team e, lg_areaId e, lg_isHardcore e).
Record stays (q q' : LFGQueue) : Prop := {
  st_players : m_QueuedPlayers q' = m_QueuedPlayers q;
  st_groups : mark <$> m_QueuedGroups q' = mark <$> m_QueuedGroups q }.
#[global] Instance stays_preorder : PreOrder stays.
Proof. split; [by split|]. intros q1 q2 q3 [E1 E2] [E3 E4]. split; congruence. Qed.

(** Whatever happens, the queue changes only so far. *)
Definition within (R : relation LFGQueue) {A} (m : GM A) : Prop := forall s, R (w_lfg s.1) (w_lfg (m s).2.1).
Definition silent {A} : GM A -> Prop := within eq.
Definition quiet {A} : GM A -> Prop := within stays.

Lemma wp_within R {A} X (m : GM A) (Q : A -> GroupWorld -> Prop) w :
  within R m -> wp X m Q w -> wp X m (fun a w' => Q a w' /\ R (w_lfg w) (w_lfg w')) w.
Proof.
  intros Hq Hm log. specialize (Hm log). specialize (Hq (w, log)). by destruct (m (w, log)) as [[] s].
Qed.
Lemma within_bind R `{!Transitive R} {A B} (m : GM A) (k : A -> GM B) :
  within R m -> (forall a, within R (k a)) -> within R (st_bind m k).
Proof.
  intros Hm Hk s. unfold st_bind. specialize (Hm s). destruct (m s) as [[a|e| | |] s']; cbn in *; try done.
  etrans; [exact Hm|apply Hk].
Qed.
Lemma within_silent R `{!Reflexive R} {A} (m : GM A) : silent m -> within R m.
Proof. intros Hm s. by rewrite <- Hm. Qed.

Section silent_rules.
Lemma silent_ret {A} (a : A) : silent (st_ret a).
Proof. by intros s. Qed.
Lemma silent_bind {A B} (m : GM A) (k : A -> GM B) : silent m -> (forall a, silent (k a)) -> silent (st_bind m k).
Proof. apply within_bind, _. Qed.
Lemma stays_bind {A B} (m : GM A) (k : A -> GM B) : quiet m -> (forall a, quiet (k a)) -> quiet (st_bind m k).
Proof. apply within_bind, _. Qed.
Lemma silent_look {A} (f : GroupWorld -> A) : silent (look f).
Proof. by intros s. Qed.
Lemma silent_alter f : (forall w, w_lfg (f w) = w_lfg w) -> silent (alter_world f).
Proof. intros Hf s. symmetry. apply Hf. Qed.
Lemma silent_deref {A} (o : option A) : silent (deref o).
Proof. by destruct o. Qed.
Lemma silent_ev e : silent (ev e).
Proof. by intros s. Qed.
Lemma silent_made k : silent (made k).
Proof. intros s. unfold made. by destruct (k WorldPacket_empty) as [[] ?]. Qed.
Lemma silent_aborts {A} : silent (aborts : GM A).
Proof. by intros s. Qed.
Lemma silent_each {A} (f : A -> GM unit) l : (forall x, silent (f x)) -> silent (each f l).
Proof. intros Hf. induction l as [|x l IH]; cbn [each]; [apply silent_ret|]. by apply silent_bind. Qed.

End silent_rules.

Create HintDb silent.
Ltac silent_step :=
  lazymatch goal with
  | |- silent (st_bind _ _) => apply silent_bind; [|intros ?]
  | |- silent (st_ret _) => apply silent_ret
  | |- silent (look _) => apply silent_look
  | |- silent (alter_world _) => apply silent_alter; intros ?; reflexivity
  | |- silent (deref _) => apply silent_deref
  | |- silent (ev _) => apply silent_ev
  | |- silent (made _) => apply silent_made
  | |- silent aborts => apply silent_aborts
  | |- silent (each _ _) => apply silent_each; intros ?
  | |- silent (match ?x with _ => _ end) => destruct x eqn:?
  end.
Ltac silents := repeat (silent_step; cbv beta); auto with silent.

Section silent_code.
Context (env : GroupEnv).

Lemma silent_group_at a : silent (group_at a).
Proof. unfold group_at. silents. Qed.
Lemma silent_player_at k : silent (player_at k).
Proof. unfold player_at. silents. Qed.
Hint Resolve silent_group_at silent_player_at : silent.
Lemma silent_g_mod a f : silent (g_mod a f).
Proof. unfold g_mod. silents. Qed.
Lemma silent_p_mod k f : silent (p_mod k f).
Proof. unfold p_mod. silents. Qed.
Lemma silent_send k p : silent (send k p).
Proof. unfold send. silents. Qed.
Lemma silent_call c : silent (call c).
Proof. unfold call. silents. Qed.
Hint Resolve silent_g_mod silent_p_mod silent_send silent_call : silent.
Lemma silent_unlink o k : silent (unlink o k).
Proof. unfold unlink. silents. Qed.
Hint Resolve silent_unlink : silent.
Lemma silent_link o a k : silent (link o a k).
Proof. unfold link. silents. Qed.
Hint Resolve silent_link : silent.
Lemma silent_set_group o k a s : silent (set_group o k a s).
Proof. unfold set_group. silents. Qed.
Hint Resolve silent_set_group : silent.
Lemma silent_SetGroup k a s : silent (SetGroup k a s).
Proof. apply silent_set_group. Qed.
Lemma silent_SetOriginalGroup k a s : silent (SetOriginalGroup k a s).
Proof. apply silent_set_group. Qed.
Hint Resolve silent_SetGroup silent_SetOriginalGroup : silent.
Lemma silent_SetBattleGroundRaid k a s : silent (SetBattleGroundRaid k a s).
Proof. unfold SetBattleGroundRaid. silents. Qed.
Lemma silent_counter_add a s d : silent (counter_add a s d).
Proof. unfold counter_add, count_at. silents. Qed.
Lemma silent_SubGroupCounterIncrease a s : silent (SubGroupCounterIncrease a s).
Proof. apply silent_counter_add. Qed.
Lemma silent_RemoveInvite a k : silent (RemoveInvite a k).
Proof. unfold RemoveInvite. silents. Qed.
Hint Resolve silent_SetBattleGroundRaid silent_SubGroupCounterIncrease silent_RemoveInvite : silent.
Lemma silent_addMember a k name b : silent (_addMember a k name b).
Proof. unfold _addMember, _addMember_at. silents. Qed.
Lemma silent_SendUpdate a : silent (SendUpdate a).
Proof. unfold SendUpdate. silents. Qed.
Lemma silent_UpdateCrossfaction a : silent (UpdateCrossfaction env a).
Proof. unfold UpdateCrossfaction. silents. Qed.
Lemma silent_BroadcastPacket a k b gr ig : silent (BroadcastPacket a k b gr ig).
Proof. unfold BroadcastPacket, GetMembers. silents. Qed.
Hint Resolve silent_addMember silent_SendUpdate silent_UpdateCrossfaction silent_BroadcastPacket : silent.
Lemma silent_notify a k : silent (notify_crossfaction env a k).
Proof. unfold notify_crossfaction. silents. Qed.
Hint Resolve silent_notify : silent.
(** Who is added by the queue leaves the queue alone. *)
Lemma silent_AddMember a k name : silent (AddMember env a k name GROUP_LFG).
Proof.
  unfold AddMember. silents.
  all: match goal with H : _ && negb (GROUP_LFG =? GROUP_LFG) = true |- _ => by rewrite andb_false_r in H end.
Qed.
End silent_code.
#[export] Hint Resolve silent_group_at silent_SubGroupCounterIncrease silent_player_at silent_g_mod silent_p_mod silent_send silent_call
  silent_addMember silent_SendUpdate silent_UpdateCrossfaction silent_BroadcastPacket silent_notify silent_AddMember : silent.

Section quiet_code.
Context (env : GroupEnv).

Lemma stays_offer q id e e' : m_QueuedGroups q !! id = Some e -> mark e' = mark e ->
  stays q (mkLFG (m_QueuedPlayers q) (m_OfflinePlayers q) (<[id := e']> (m_QueuedGroups q))).
Proof.
  intros He Hm. split; [done|]. cbn. rewrite fmap_insert, Hm, insert_id; [done|]. by rewrite lookup_fmap, He.
Qed.
Lemma quiet_UpdateGroup id : quiet (UpdateGroup env id).
Proof.
  intros [w log]. unfold UpdateGroup, look, group_at, alter_world, deref, st_bind, st_get, st_mod, st_ret. cbn.
  destruct (m_QueuedGroups (w_lfg w) !! id) as [e|] eqn:He; [|reflexivity]. cbn.
  destruct (m_GroupMap w !! id) as [a|]; [|reflexivity]. cbn. destruct (w_heap w !! a) as [g|]; [|reflexivity]. cbn.
  destruct (IsFull g); [reflexivity|]. by apply (stays_offer _ id e).
Qed.
Lemma quiet_AddMember a k name method : quiet (AddMember env a k name method).
Proof.
  unfold AddMember. repeat (first [apply (within_silent stays); solve [silents] | apply quiet_UpdateGroup
    | apply stays_bind; [|intros ?] | match goal with |- quiet (match ?x with _ => _ end) => destruct x end]; cbv beta).
Qed.
Lemma quiet_Create a k name : quiet (Create env a k name).
Proof.
  unfold Create, GenerateGroupId, _updateLeaderFlag, UpdateGroupLeaderFlag, _initRaidSubGroupsCounter.
  repeat (first [apply (within_silent stays); solve [silents] | apply quiet_AddMember
    | apply stays_bind; [|intros ?] | match goal with |- quiet (match ?x with _ => _ end) => destruct x end]; cbv beta).
Qed.
End quiet_code.

(** ** What has happened since the queue was [q0] *)

Lemma take_offer_mark role e e' : take_offer role e = Some e' -> mark e' = mark e.
Proof. unfold take_offer. repeat case_match; by intros [= <-]. Qed.
Lemma take_offer_Some role e : role ∈ PotentialRoles -> is_Some (take_offer role e).
Proof.
  unfold PotentialRoles. rewrite !elem_of_cons. intros [->|[->|[->|H%elem_of_nil]]]; [by eexists..|done].
Qed.
Lemma dps_flag r : 0 <= r < 8 -> Z.land LFG_ROLE_DPS r = LFG_ROLE_DPS -> Z.testbit r 2 = true.
Proof. intros H. apply small_roles in H. decompose [or] H; subst; by vm_compute. Qed.
Lemma take_offer_ok role e e' :
  Z.land role (availableRoles e) = role -> offer_ok e -> take_offer role e = Some e' -> offer_ok e'.
Proof.
  intros Hl [Hr Hd Hf]. unfold take_offer.
  destruct (role =? LFG_ROLE_TANK); [|destruct (role =? LFG_ROLE_HEALER); [|destruct (Z.eqb_spec role LFG_ROLE_DPS)]]; [..|done].
  - intros [= <-]. destruct (without_tank _ Hr) as [? E]. split; cbn [availableRoles dpsCount]; [done..|by rewrite E].
  - intros [= <-]. destruct (without_healer _ Hr) as [? E]. split; cbn [availableRoles dpsCount]; [done..|by rewrite E].
  - rewrite e0 in Hl. pose proof (dps_flag _ Hr Hl) as Hb. rewrite Hb in Hf. rewrite <- Hf. intros [= <-].
    symmetry in Hf. apply Z.ltb_lt in Hf. by destruct (one_more_dealer _ (dpsCount e) Hr) as (? & ? & ?); [lia|done|split].
Qed.

(** The roles that are taken of an offer, one at a time. *)
Inductive took (e : LFGGroupQueueInfo) : list Z -> LFGGroupQueueInfo -> Prop :=
| took_none : took e [] e
| took_role rs e1 role e2 : took e rs e1 -> role ∈ PotentialRoles -> Z.land role (availableRoles e1) = role ->
    take_offer role e1 = Some e2 -> took e (rs ++ [role]) e2
| took_timer rs e1 t : took e rs e1 -> took e rs (set_groupTimer t e1).
Lemma took_mark e rs e' : took e rs e' -> mark e' = mark e.
Proof. induction 1 as [|rs e1 role e2 _ IH _ _ Ht|]; [done|by rewrite (take_offer_mark _ _ _ Ht)|done]. Qed.

(** The same entry, after some time. *)
Definition alike (i j : LFGPlayerQueueInfo) : Prop :=
  roleMask j = roleMask i /\ lp_team j = lp_team i /\ lp_areaId j = lp_areaId i /\ lp_isHardcore j = lp_isHardcore i
  /\ lp_name j = lp_name i.
Lemma suits_alike e0 e i0 i : mark e = mark e0 -> alike i0 i -> suits e i = suits e0 i0.
Proof. unfold mark, suits. intros [= -> -> ->] (_ & -> & -> & -> & _). done. Qed.
(** Who is in the slot [m] waited for a place like those of [e], and can fill
    the role. *)
Definition waits_for (q : LFGQueue) (e : LFGGroupQueueInfo) (m : MemberSlot) (role : Z) : Prop :=
  exists i, m_QueuedPlayers q !! ms_guid m = Some i /\ suits e i = true /\ Z.land (roleMask i) role <> 0 /\ ms_name m = lp_name i.

Section filling.
Context (V0 : View) (q0 : LFGQueue).

(** The group at [a] since the start; [now] is its offer, if it still has one. *)
Definition grown (now : option LFGGroupQueueInfo) (c0 c : GCore) : Prop :=
  c_id c = c_id c0 /\ exists added, c_slots c = c_slots c0 ++ added
  /\ match m_QueuedGroups q0 !! c_id c0 with
     | None => added = [] /\ now = None
     | Some e0 => exists rs e, took e0 rs e /\ Forall2 (waits_for q0 e0) added rs /\ (forall e', now = Some e' -> e' = e)
     end.
Record filled (V : View) (q : LFGQueue) : Prop := {
  fi_waiting : forall k i, m_QueuedPlayers q !! k = Some i ->
    (exists i0, m_QueuedPlayers q0 !! k = Some i0 /\ alike i0 i)
    /\ exists p, v_ps V !! k = Some p /\ p_group p = None /\ p_invite p = None;
  fi_ids : v_ids V = v_ids V0;
  fi_grown : forall a c0, v_heap V0 !! a = Some c0 ->
    exists c, v_heap V !! a = Some c /\ grown (m_QueuedGroups q !! c_id c0) c0 c;
  fi_dom : forall a c, v_heap V !! a = Some c -> is_Some (v_heap V0 !! a) }.
Definition going (w : GroupWorld) : Prop := world_ok w /\ filled (view w) (w_lfg w).

(** The offers can only go. *)
Lemma filled_fewer V q q' : filled V q ->
  m_QueuedPlayers q' = m_QueuedPlayers q -> (forall id, m_QueuedGroups q' !! id = m_QueuedGroups q !! id \/ m_QueuedGroups q' !! id = None) ->
  filled V q'.
Proof.
  intros [F1 F2 F3 F4] Hp Hg. split; [by rewrite Hp|done| |done]. intros a c0 H0.
  destruct (F3 a c0 H0) as (c & Hc & Hid & added & Hs & Hm). exists c. split; [done|]. split; [done|]. exists added. split; [done|].
  destruct (m_QueuedGroups q0 !! c_id c0) as [e0|].
  - destruct Hm as (rs & e & ? & ? & He). exists rs, e. split_and!; [done..|]. intros e'. destruct (Hg (c_id c0)) as [-> | ->]; [apply He|done].
  - destruct Hm as [? E]. split; [done|]. by destruct (Hg (c_id c0)) as [-> | ->].
Qed.
(** The timer runs. *)
Lemma filled_timer V q id t : filled V q ->
  filled V (mkLFG (m_QueuedPlayers q) (m_OfflinePlayers q) (alter (set_groupTimer t) id (m_QueuedGroups q))).
Proof.
  intros [F1 F2 F3 F4]. split; [done..| |done]. intros a c0 H0.
  destruct (F3 a c0 H0) as (c & Hc & Hid & added & Hs & Hm). exists c. split; [done|]. split; [done|]. exists added. split; [done|]. cbn.
  destruct (decide (id = c_id c0)) as [->|]; [|by rewrite lookup_alter_ne]. rewrite lookup_alter_eq.
  destruct (m_QueuedGroups q0 !! c_id c0) as [e0|].
  - destruct Hm as (rs & e & Ht & Hf & He). exists rs, (set_groupTimer t e). split_and!; [by constructor|done|].
    intros e' (e1 & Hq & ->)%fmap_Some. by rewrite (He e1).
  - destruct Hm as [? ->]. done.
Qed.
(** A player of the queue joins the group of the offer [e]. *)
Lemma filled_join V V' q a c k p i e role e' m :
  filled V q -> base V -> joined V V' a c p m -> ms_guid m = k -> ms_name m = lp_name i ->
  v_heap V !! a = Some c -> c_id c <> 0 ->
  m_QueuedPlayers q !! k = Some i -> m_QueuedGroups q !! c_id c = Some e -> suits e i = true ->
  role ∈ PotentialRoles -> Z.land (roleMask i) role <> 0 -> Z.land role (availableRoles e) = role -> take_offer role e = Some e' ->
  filled V' (mkLFG (delete k (m_QueuedPlayers q)) (m_OfflinePlayers q) (<[c_id c := e']> (m_QueuedGroups q))).
Proof.
  intros [F1 F2 F3 F4] HB HJ Hk Hn Ha H0 Hi He Hsuit Hrole Hmask Hoff Htake.
  destruct HJ as [_ _ Hh Hp (Hreg & _ & Hids)]. split.
  - cbn. intros j o [Hne Hj]%lookup_delete_Some. destruct (F1 j o Hj) as [? (p' & ? & ?)]. split; [done|].
    exists p'. split; [|done]. rewrite Hp, lookup_insert_ne; [done|congruence].
  - by rewrite Hids.
  - intros b d0 Hd0. destruct (F3 b d0 Hd0) as (d & Hd & Hid & added & Hs & Hm). cbn.
    destruct (decide (b = a)) as [->|Hb].
    + assert (d = c) as -> by congruence. exists (join_core c m). rewrite Hh, lookup_insert_eq. split; [done|]. split; [done|].
      exists (added ++ [m]). cbn. split; [by rewrite Hs, app_assoc|]. rewrite <- Hid, lookup_insert_eq in *.
      destruct (m_QueuedGroups q0 !! c_id c) as [e0|]; [|destruct Hm; congruence]. destruct Hm as (rs & e1 & Ht & Hf & He1).
      assert (e = e1) as <- by by apply He1. exists (rs ++ [role]), e'. split_and!; [by econstructor| |by intros ? [= <-]].
      apply Forall2_app; [done|]. constructor; [|constructor]. destruct (F1 k i Hi) as [(i0 & Hi0 & Hal) _].
      exists i0. rewrite Hk. split_and!; [done| | |].
      * by rewrite <- (suits_alike e0 e i0 i (took_mark _ _ _ Ht) Hal).
      * by destruct Hal as (<- & _).
      * rewrite Hn. by destruct Hal as (_ & _ & _ & _ & ->).
    + exists d. rewrite Hh, lookup_insert_ne by done. split; [done|]. split; [done|]. exists added. split; [done|].
      assert (c_id d0 <> c_id c) by (rewrite <- Hid; by apply (other_id V a c b d)). by rewrite lookup_insert_ne.
  - intros b d. rewrite Hh. intros [[<- _]|[_ Hd]]%lookup_insert_Some; eauto.
Qed.
End filling.

(** ** The programs *)

Section filling_code.
Context (env : GroupEnv) `{!GroupEnvOk env} (V0 : View) (q0 : LFGQueue).

Lemma wp_queued_player X k i w (Q : LFGPlayerQueueInfo -> GroupWorld -> Prop) :
  m_QueuedPlayers (w_lfg w) !! k = Some i -> Q i w -> wp X (queued_player_at k) Q w.
Proof. intros Hi HQ. unfold queued_player_at. apply wp_bind, wp_look. by apply (wp_deref X _ i). Qed.
Lemma wp_queued_group X id e w (Q : LFGGroupQueueInfo -> GroupWorld -> Prop) :
  m_QueuedGroups (w_lfg w) !! id = Some e -> Q e w -> wp X (queued_group_at id) Q w.
Proof. intros Hi HQ. unfold queued_group_at. apply wp_bind, wp_look. by apply (wp_deref X _ e). Qed.
(** Code that changes neither membership nor queue. *)
Lemma wp_hush {A} X (m : GM A) (Q : A -> GroupWorld -> Prop) w :
  calm (fun V => V = view w) m -> silent m -> base (view w) -> aside_ok w ->
  (forall a w', view w' = view w -> w_lfg w' = w_lfg w -> aside_ok w' -> Q a w') -> wp X m Q w.
Proof.
  intros Hc Hs HB Hr HQ. eapply wp_conseq; [apply (wp_within eq); [exact Hs|by apply Hc]|].
  cbv beta. intros a w' [[Hv Hr'] Hq]. by apply HQ.
Qed.

Record onward (w w' : GroupWorld) : Prop := {
  on_going : going V0 q0 w'; on_map : m_GroupMap w' = m_GroupMap w;
  on_keys : forall id, is_Some (m_QueuedGroups (w_lfg w) !! id) -> is_Some (m_QueuedGroups (w_lfg w') !! id) }.

(** A registered group with room takes a player of the queue. *)
Lemma queue_add V id a c k i (Q : bool -> View -> Prop) :
  inv V -> v_reg V !! id = Some a -> v_heap V !! a = Some c -> Z.of_nat (length (c_slots c)) < capacity c ->
  (exists p, v_ps V !! k = Some p /\ p_group p = None /\ p_invite p = None) -> entry_ok i ->
  (forall V' p m, inv V' -> joined V V' a c p m -> ms_guid m = k -> ms_name m = lp_name i -> c_id c = id -> id <> 0 ->
     Q true V') -> moves (AddMember env a k (lp_name i) GROUP_LFG) Q V.
Proof.
  intros HI Hreg Ha Hroom (p & Hp & Hg & Hi) Hn HQ. destruct (registered V id a HI Hreg) as (c' & Hc' & H2 & HL & Hrow & Hreg').
  assert (c' = c) as -> by congruence. destruct (b_reg V (proj1 HI) id a Hreg) as (c' & Hc'' & Hid & H0).
  assert (c' = c) as -> by congruence. destruct (inv_at V a c HI Ha) as [_ [(Hs & _)|(_ & _ & Hlead & _)]]; [rewrite Hs in H2; cbn in H2; lia|].
  apply (add_member env V None a c k p); try done; [by left|by rewrite Hid|lia|].
  intros V1 m HI1 Hmk Hmn HJ. by apply (HQ V1 p m).
Qed.

Lemma FindRoleToGroup_wp X w id a g k i e role (Q : bool -> GroupWorld -> Prop) :
  going V0 q0 w -> m_GroupMap w !! id = Some a -> w_heap w !! a = Some g -> IsFull g = false ->
  m_QueuedPlayers (w_lfg w) !! k = Some i -> m_QueuedGroups (w_lfg w) !! id = Some e -> suits e i = true ->
  role ∈ PotentialRoles -> Z.land (roleMask i) role <> 0 -> Z.land role (availableRoles e) = role ->
  (map_Exists (fun j o => ahead role k i j o = true) (m_QueuedPlayers (w_lfg w)) -> Q false w) ->
  (~ map_Exists (fun j o => ahead role k i j o = true) (m_QueuedPlayers (w_lfg w)) -> forall w', onward w w' -> m_QueuedPlayers (w_lfg w') = delete k (m_QueuedPlayers (w_lfg w)) -> Q true w') ->
  wp X (FindRoleToGroup env k a role) Q w.
Proof.
  intros [[HI Hr] HF] Hreg Hg Hfull Hi He Hsuit Hrole Hmask Hoff HQ0 HQ1. pose proof HI as [HB _].
  unfold FindRoleToGroup. apply wp_bind, (wp_group_at X a g); [done|]. apply wp_bind, wp_look.
  pose proof (view_group w a g Hg) as Hgv. set (V := view w) in *.
  assert (Hid : m_Id g = id /\ id <> 0).
  { destruct (b_reg V HB id a Hreg) as (c & Hc & Hid & H0). assert (c = core g) as -> by congruence. by split. }
  destruct Hid as [Hid H0]. rewrite Hid, He, Hi. case_bool_decide as Hah; [by apply wp_ret, HQ0|]. specialize (HQ1 Hah).
  destruct (take_offer_Some role e Hrole) as [e' Htake]. rewrite Htake.
  apply wp_bind, wp_alter_world. match goal with |- wp _ _ _ ?w' => set (w1 := w') end.
  assert (Hr1 : aside_ok w1).
  { destruct Hr as [Hr [Q1 Q2 Q3]]. split; [done|]. split; [done..|]. apply map_Forall_insert_2; [|done].
    eapply take_offer_ok; [done| |done]. by apply (Q3 id). }
  apply wp_bind, wp_hush; [|apply silent_BroadcastPacket|done..|].
  { apply BroadcastPacket_calm; [|apply sendable_added]. intros W _ ->. by eexists. }
  intros _ w2 Hv2 Hq2 Hr2. apply wp_bind.
  assert (Hroom : Z.of_nat (length (c_slots (core g))) < capacity (core g)).
  { unfold IsFull in Hfull. unfold capacity. cbn. destruct (_ =? GROUPTYPE_NORMAL); rewrite Z.geb_leb in Hfull; by apply Z.leb_gt in Hfull. }
  destruct (fi_waiting _ _ _ _ HF k i Hi) as [_ Hp].
  assert (Hn : entry_ok i) by (destruct Hr as [_ [Q1 _ _]]; by apply (Q1 k)).
  eapply wp_conseq.
  { apply (wp_within eq); [apply silent_AddMember|].
    apply (queue_add V id a (core g) k i (fun b V' => b = true /\ exists p m, inv V' /\ joined V V' a (core g) p m
      /\ ms_guid m = k /\ ms_name m = lp_name i) HI Hreg Hgv Hroom Hp Hn); [|by rewrite Hv2|done].
    intros V' p m ? ? ? ? _ _. split; [done|]. by exists p, m. }
  cbv beta. intros b w3 [[Hr3 [-> (p & m & HI3 & HJ & Hmk & Hmn)]] Hq3]. rewrite Hq2 in Hq3.
  unfold RemovePlayerFromQueue. apply wp_bind, wp_bind, wp_look. rewrite <- Hq3. cbn [w_lfg w1 on_groups w_set_lfg m_QueuedPlayers]. rewrite Hi.
  change (PLAYER_SYSTEM_LEAVE =? PLAYER_CLIENT_LEAVE) with false. cbv iota. apply wp_bind, wp_ret, wp_alter_world, wp_ret.
  match goal with |- Q true ?w' => set (w4 := w') end.
  assert (Hq4 : w_lfg w4 = mkLFG (delete k (m_QueuedPlayers (w_lfg w))) (m_OfflinePlayers (w_lfg w)) (<[id := e']> (m_QueuedGroups (w_lfg w))))
    by (unfold w4; cbn; by rewrite <- Hq3).
  apply HQ1; [|by rewrite Hq4]. split; [split; [split; [exact HI3|split]|]| |].
  - apply Hr3.
  - rewrite Hq4. destruct Hr1 as [_ [Q1 Q2 Q3]]. split; [by apply map_Forall_delete|exact Q2|exact Q3].
  - rewrite Hq4. change (view w4) with (view w3). change (c_id (core g) = id) in Hid. rewrite <- Hid in *.
    by apply (filled_join V0 q0 V (view w3) (w_lfg w) a (core g) k p i e role e' m).
  - change (v_reg (view w3) = v_reg V). apply (jo_rest _ _ _ _ _ _ HJ).
  - intros id' Hid'. rewrite Hq4. cbn. apply lookup_insert_is_Some'. by right.
Qed.

(** *** The players that are tried for a group *)

Lemma onward_refl w : going V0 q0 w -> onward w w.
Proof. by split. Qed.
Lemma onward_trans w1 w2 w3 : onward w1 w2 -> onward w2 w3 -> onward w1 w3.
Proof. intros [A1 A2 A3] [B1 B2 B3]. split; [done|congruence|auto]. Qed.

Lemma find_role_wp X w id a g k i e roles (Q : bool -> GroupWorld -> Prop) :
  going V0 q0 w -> m_GroupMap w !! id = Some a -> w_heap w !! a = Some g -> IsFull g = false ->
  m_QueuedPlayers (w_lfg w) !! k = Some i -> m_QueuedGroups (w_lfg w) !! id = Some e -> suits e i = true ->
  (forall role, role ∈ roles -> role ∈ PotentialRoles) ->
  Q false w ->
  (forall w', onward w w' -> m_QueuedPlayers (w_lfg w') = delete k (m_QueuedPlayers (w_lfg w)) -> Q true w') ->
  wp X (find_role env id a k roles) Q w.
Proof.
  intros HG Hreg Hg Hfull Hi He Hsuit Hroles HQ0 HQ1. induction roles as [|role roles IH]; cbn [find_role]; [by apply wp_ret|].
  assert (Hrest : wp X (find_role env id a k roles) Q w) by (apply IH; intros r Hr; apply Hroles; by right).
  apply wp_bind, (wp_queued_player X k i); [done|]. destruct (Z.eqb_spec (Z.land (roleMask i) role) 0); [done|].
  apply wp_bind, (wp_queued_group X id e); [done|]. destruct (Z.eqb_spec (Z.land role (availableRoles e)) role); [|done].
  apply wp_bind, (FindRoleToGroup_wp X w id a g k i e role); try done; [apply Hroles; by left|].
  intros _ w' Hon Hp. apply wp_ret. by apply HQ1.
Qed.
(** A registered group is on the heap. *)
Lemma registered_group w id a : going V0 q0 w -> m_GroupMap w !! id = Some a -> exists g, w_heap w !! a = Some g.
Proof.
  intros [[[HB _] _] _] Hreg. destruct (b_reg _ HB id a Hreg) as (c & Hc & _). destruct (group_view w a c Hc) as (g & Hg & _). by exists g.
Qed.

Lemma fill_group_wp X id a players w : forall g,
  going V0 q0 w -> m_GroupMap w !! id = Some a -> w_heap w !! a = Some g -> IsFull g = false ->
  NoDup players -> (forall k, k ∈ players -> is_Some (m_QueuedPlayers (w_lfg w) !! k)) ->
  is_Some (m_QueuedGroups (w_lfg w) !! id) ->
  wp X (fill_group env id a players) (fun _ w' => onward w w') w.
Proof.
  revert w. induction players as [|k players IH]; intros w g HG Hreg Hg Hfull Hnd Hin [e He]; cbn [fill_group].
  { apply wp_ret. by apply onward_refl. }
  apply NoDup_cons in Hnd as [Hk Hnd]. destruct (Hin k) as [i Hi]; [by left|].
  assert (Hrest : wp X (fill_group env id a players) (fun _ w' => onward w w') w).
  { apply (IH w g); try done. intros j Hj. apply Hin. by right. }
  apply wp_bind, (wp_queued_player X k i); [done|]. apply wp_bind, (wp_queued_group X id e); [done|].
  destruct (suits e i) eqn:Hs; [|done].
  apply wp_bind, (find_role_wp X w id a g k i e); try done.
  { by apply wp_bind, (wp_group_at X a g). }
  intros w1 Hon Hp. pose proof Hon as [HG1 Hm1 Hk1].
  assert (Hreg1 : m_GroupMap w1 !! id = Some a) by (by rewrite Hm1).
  destruct (registered_group w1 id a HG1 Hreg1) as [g1 Hg1]. apply wp_bind, (wp_group_at X a g1); [done|]. cbn [andb].
  destruct (IsFull g1) eqn:Hf1; [by apply wp_ret|].
  eapply wp_conseq; [apply (IH w1 g1); try done|].
  - intros j Hj. rewrite Hp, lookup_delete_ne by congruence. apply Hin. by right.
  - apply Hk1. by exists e.
  - cbv beta. intros _ w2 H2. by eapply onward_trans.
Qed.

(** *** The groups *)

(** Leaving the queue takes the offer of one group away. *)
Definition fewer (q q' : LFGQueue) : Prop :=
  m_QueuedPlayers q' = m_QueuedPlayers q
  /\ forall id, m_QueuedGroups q' !! id = m_QueuedGroups q !! id \/ m_QueuedGroups q' !! id = None.
Instance fewer_preorder : PreOrder fewer.
Proof.
  split; [by split; [|left]|]. intros q1 q2 q3 [P1 G1] [P2 G2]. split; [congruence|]. intros id.
  destruct (G1 id), (G2 id); auto; left + right; congruence.
Qed.
Lemma fewer_RemoveGroupFromQueue id m : within fewer (RemoveGroupFromQueue id m).
Proof.
  unfold RemoveGroupFromQueue.
  assert (Hd : within fewer (alter_world (on_groups (delete id)))).
  { intros [w log]. split; [done|]. cbn. intros id'. destruct (decide (id = id')) as [<-|].
    - right. apply lookup_delete_eq.
    - left. by apply lookup_delete_ne. }
  apply within_bind; [apply _|apply (within_silent fewer); silents|]. intros [e|]; [|apply (within_silent fewer); silents].
  apply within_bind; [apply _|apply (within_silent fewer); silents|]. intros grp.
  apply within_bind; [apply _|apply (within_silent fewer); silents|]. by intros _.
Qed.
Lemma leave_queue_wp X id m w (Q : unit -> GroupWorld -> Prop) :
  going V0 q0 w -> (forall w', going V0 q0 w' -> Q tt w') -> wp X (RemoveGroupFromQueue id m) Q w.
Proof.
  intros [[HI Hr] HF] HQ. eapply wp_conseq.
  { apply (wp_within fewer); [apply fewer_RemoveGroupFromQueue|].
    by apply (RemoveGroupFromQueue_calm (fun V => V = view w) id m); [apply HI|..]. }
  cbv beta. intros [] w' [[Hv Hr'] [Hp Hg]]. apply HQ. split; [by split; [rewrite Hv|]|]. rewrite Hv. by eapply filled_fewer.
Qed.
Lemma wp_timer X id t w (Q : unit -> GroupWorld -> Prop) :
  going V0 q0 w -> (forall w', onward w w' -> Q tt w') -> wp X (alter_world (on_groups (alter (set_groupTimer t) id))) Q w.
Proof.
  intros [[HI [Hr [Q1 Q2 Q3]]] HF] HQ. apply wp_alter_world, HQ. split; [split; [split; [done|split; [done|]]|]|done|].
  - split; [done..|]. intros id' e'. cbn. intros [(<- & e0 & He0 & ->)|[_ He]]%lookup_alter_Some; [|by apply (Q3 id')].
    destruct (Q3 id e0 He0). by split.
  - by apply filled_timer.
  - intros id'. cbn. by rewrite lookup_alter_is_Some.
Qed.

Lemma fill_groups_wp X diff ids w (Q : unit -> GroupWorld -> Prop) :
  going V0 q0 w -> NoDup ids -> (forall id, id ∈ ids -> is_Some (m_QueuedGroups (w_lfg w) !! id)) ->
  (forall w', going V0 q0 w' -> Q tt w') -> wp X (fill_groups env diff ids) Q w.
Proof.
  intros HG Hnd Hin HQ. revert w HG Hin. induction ids as [|id ids IH]; intros w HG Hin; cbn [fill_groups]; [by apply wp_ret, HQ|].
  apply NoDup_cons in Hnd as [Hid Hnd]. specialize (IH Hnd). apply wp_bind, wp_look. unfold GetGroupById.
  destruct (m_GroupMap w !! id) as [a|] eqn:Hreg.
  - destruct (registered_group w id a HG Hreg) as [g Hg]. apply wp_bind, (wp_group_at X a g); [done|].
    destruct (IsFull g) eqn:Hfull; [by apply leave_queue_wp|]. apply wp_bind, wp_look. apply wp_bind.
    eapply wp_conseq; [apply (fill_group_wp X id a _ w g); try done|].
    + apply NoDup_sorted_keys.
    + intros k. by rewrite elem_of_sorted_keys.
    + apply Hin. by left.
    + cbv beta. intros _ w1 Hon. pose proof Hon as [HG1 Hm1 Hk1].
      assert (Hreg1 : m_GroupMap w1 !! id = Some a) by (by rewrite Hm1).
      destruct (registered_group w1 id a HG1 Hreg1) as [g1 Hg1]. apply wp_bind, (wp_group_at X a g1); [done|].
      destruct (IsFull g1); [by apply leave_queue_wp|]. destruct (Hk1 id) as [e He]; [apply Hin; by left|].
      assert (Hrest : forall w', onward w1 w' -> wp X (fill_groups env diff ids) Q w').
      { intros w' [HG' _ Hk']. apply IH; [done|]. intros j Hj. apply Hk', Hk1, Hin. by right. }
      apply wp_bind, (wp_queued_group X id e); [done|]. apply wp_bind. destruct (groupTimer e <=? diff); [|by apply wp_timer].
      pose proof HG1 as [[HI1 Hr1] HF1]. apply wp_bind, wp_hush; [|apply silent_BroadcastPacket|apply HI1|done|].
      { apply BroadcastPacket_calm; [|apply sendable_progress]. intros W _ ->. exists (core g1). by apply view_group. }
      intros _ w2 Hv2 Hq2 Hr2. assert (Hon2 : onward w1 w2).
      { split; [split; [split; [by rewrite Hv2|done]|by rewrite Hv2, Hq2]| |by rewrite Hq2].
        change (v_reg (view w2) = v_reg (view w1)). by rewrite Hv2. }
      apply wp_timer; [apply Hon2|]. intros w3 Hon3. apply Hrest. by eapply onward_trans.
  - apply wp_bind, wp_alter_world. pose proof HG as [[HI [Hr [Q1 Q2 Q3]]] HF]. apply IH.
    + split; [split; [done|split; [done|split; [done..|by apply map_Forall_delete]]]|].
      apply (filled_fewer _ _ _ (w_lfg w)); [done..|]. cbn. intros id'. destruct (decide (id = id')) as [<-|].
      * right. apply lookup_delete_eq.
      * left. by apply lookup_delete_ne.
    + intros j Hj. cbn. rewrite lookup_delete_ne by congruence. apply Hin. by right.
Qed.
End filling_code.

(** ** The update *)

(** Nobody who waits and is online is in a group or invited to one. *)
Definition waiting_free (w : GroupWorld) : Prop := forall k p,
  is_Some (m_QueuedPlayers (w_lfg w) !! k) -> w_players w !! k = Some p -> GetGroup p = None /\ GetGroupInvite p = None.

Section updating.
Context (env : GroupEnv) `{!GroupEnvOk env} (w0 : GroupWorld).
Context (HW0 : world_ok w0) (Hfree : waiting_free w0) (Hids : m_GroupIds w0 + 1 < 2 ^ 32).

Let V0 := view w0.
Let q0 := w_lfg w0.

(** While the timers run: who was not met yet may be offline. *)
Record ticking (l : list Z) (w : GroupWorld) : Prop := {
  tk_view : view w = V0; tk_aside : aside_ok w; tk_groups : m_QueuedGroups (w_lfg w) = m_QueuedGroups q0;
  tk_players : forall k i, m_QueuedPlayers (w_lfg w) !! k = Some i ->
    (exists i0, m_QueuedPlayers q0 !! k = Some i0 /\ alike i0 i) /\ (k ∈ l \/ is_Some (v_ps V0 !! k));
  tk_left : forall k, k ∈ l -> is_Some (m_QueuedPlayers (w_lfg w) !! k) }.

Lemma ticked_alike i0 i diff : alike i0 i -> alike i0 (ticked diff i).
Proof. done. Qed.
Lemma tick_player_wp X diff k l w (Q : unit -> GroupWorld -> Prop) :
  ticking (k :: l) w -> k ∉ l -> (forall w', ticking l w' -> Q tt w') -> wp X (tick_player diff k) Q w.
Proof.
  intros [T1 T2 T3 T4 T5] Hk HQ. unfold tick_player. destruct (T5 k) as [i Hi]; [by left|].
  pose proof T2 as [Hr [Q1 Q2 Q3]]. apply wp_bind, wp_look. destruct (GetPlayer k w) as [p|] eqn:Hp.
  - apply wp_alter_world, HQ. split; cbn; [done| |done|..].
    + split; [done|]. split; [|done..]. intros j o. cbn. intros [(<- & o0 & Ho & ->)|[_ Ho]]%lookup_alter_Some; [exact (Q1 k o0 Ho)|exact (Q1 j o Ho)].
    + intros j o [(<- & o0 & Ho & ->)|[Hne Ho]]%lookup_alter_Some.
      * destruct (T4 k o0 Ho) as [(i0 & ? & ?) _]. split; [by exists i0|]. right. exists (pcore p). change (v_ps V0 !! k = Some (pcore p)). rewrite <- T1. by apply GetPlayer_view.
      * destruct (T4 j o Ho) as [? [[->|?]%elem_of_cons|?]]; [done|auto..].
    + intros j Hj. rewrite lookup_alter_is_Some. apply T5. by right.
  - apply wp_bind, (wp_queued_player X k i); [done|]. apply wp_bind, wp_alter_world, wp_alter_world, HQ. split; cbn; [done| |done|..].
    + split; [done|]. split; [by apply map_Forall_delete|apply map_Forall_insert_2; [by apply (Q1 k)|done]|done].
    + intros j o [Hne Ho]%lookup_delete_Some. destruct (T4 j o Ho) as [? [[->|?]%elem_of_cons|?]]; [done|auto..].
    + intros j Hj. rewrite lookup_delete_ne by congruence. apply T5. by right.
Qed.
Lemma ticks_wp X diff l w (Q : unit -> GroupWorld -> Prop) :
  ticking l w -> NoDup l -> (forall w', ticking [] w' -> Q tt w') -> wp X (each (tick_player diff) l) Q w.
Proof.
  revert w. induction l as [|k l IH]; intros w HT Hnd HQ; cbn [each]; [by apply wp_ret, HQ|].
  apply NoDup_cons in Hnd as [Hk Hnd]. apply wp_bind, (tick_player_wp X diff k l); [done..|]. intros w' HT'. by apply IH.
Qed.
Lemma ticked_going w : ticking [] w -> going V0 q0 w.
Proof.
  intros [T1 T2 T3 T4 _]. pose proof HW0 as [HI0 _]. split; [split; [by rewrite T1|done]|]. rewrite T1. split; [|done| |by eauto].
  - intros k i Hi. destruct (T4 k i Hi) as [(i0 & Hi0 & Ha) [[]%elem_of_nil|[p Hp]]]. split; [by exists i0|].
    exists p. split; [done|]. destruct (player_view w0 k p Hp) as (p' & Hp' & <-). by apply (Hfree k p'); [exists i0|].
  - intros a c Hc. exists c. split; [done|]. split; [done|]. exists []. rewrite app_nil_r. split; [done|]. rewrite T3.
    fold q0. destruct (m_QueuedGroups q0 !! c_id c) as [e|]; [|done]. exists [], e. split; [constructor|]. split; [constructor|]. by intros e' [= ->].
Qed.

(** What an update has done: the groups that were there may have grown, and a
    new one is a pair who waited for the same. *)
Definition pair_of_queue (c : GCore) : Prop := exists m1 m2 i1 i2,
  c_slots c = [m1; m2] /\ c_leader c = ms_guid m1 /\ ms_guid m1 <> ms_guid m2
  /\ m_QueuedPlayers q0 !! ms_guid m1 = Some i1 /\ m_QueuedPlayers q0 !! ms_guid m2 = Some i2
  /\ lp_areaId i1 = lp_areaId i2 /\ lp_team i1 = lp_team i2.
Definition swelled (c0 c : GCore) : Prop := c_id c = c_id c0 /\ exists added, c_slots c = c_slots c0 ++ added
  /\ match m_QueuedGroups q0 !! c_id c0 with
     | None => added = []
     | Some e0 => exists rs e, took e0 rs e /\ Forall2 (waits_for q0 e0) added rs
     end.
Record updated (w : GroupWorld) : Prop := {
  up_ok : world_ok w;
  up_old : forall a c0, v_heap V0 !! a = Some c0 -> exists c, v_heap (view w) !! a = Some c /\ swelled c0 c;
  up_new : forall a c, v_heap (view w) !! a = Some c -> v_heap V0 !! a = None -> pair_of_queue c }.

Lemma grown_swelled now c0 c : grown q0 now c0 c -> swelled c0 c.
Proof.
  intros [Hid (added & Hs & Hm)]. split; [done|]. exists added. split; [done|].
  destruct (m_QueuedGroups q0 !! c_id c0); [|by destruct Hm]. destruct Hm as (rs & e & ? & ? & _). by exists rs, e.
Qed.
Lemma going_updated w : going V0 q0 w -> updated w.
Proof.
  intros [HW [_ _ F3 F4]]. split; [done|..].
  - intros a c0 H0. destruct (F3 a c0 H0) as (c & Hc & Hg). exists c. split; [done|]. by eapply grown_swelled.
  - intros a c Hc Hn. destruct (F4 a c Hc). congruence.
Qed.

(** *** A new group *)

Lemma FindInArea_elem w area team k j : j ∈ FindInArea w area team k ->
  j <> k /\ exists i, m_QueuedPlayers (w_lfg w) !! j = Some i /\ lp_areaId i = area /\ lp_team i = team.
Proof.
  unfold FindInArea. rewrite list_elem_of_In, filter_In. intros [_ [Hj Hm]%andb_true_iff].
  destruct (Z.eqb_spec j k); [done|]. split; [done|]. destruct (_ !! j) as [i|]; [|done]. exists i.
  apply andb_true_iff in Hm as [?%Z.eqb_eq ?%Z.eqb_eq]. done.
Qed.
Lemma head_Some {A} (l : list A) n : (n <= length l)%nat -> (0 < n)%nat -> exists x, head l = Some x /\ x ∈ l.
Proof. destruct l as [|x l]; cbn; [lia|]. exists x. split; [done|by left]. Qed.
(** The group is made, with its leader, and registered. *)
Lemma make_group_moves V k pl name (Q : bool -> View -> Prop) :
  inv V -> v_ids V + 1 < 2 ^ 32 -> v_ps V !! k = Some pl -> p_group pl = None -> p_invite pl = None -> short name ->
  (forall V' c m, inv_but (Some (v_next V)) V' ->
    v_heap V' = <[v_next V := c]> (v_heap V) -> linked V' (v_next V) c -> c_slots c = [m] -> ms_guid m = k -> c_id c <> 0 -> c_leader c = k ->
    c_type c = GROUPTYPE_NORMAL -> v_reg V' !! c_id c = Some (v_next V) -> v_groups V' !! c_id c = Some (k, false) ->
    v_ps V' = <[k := refer (Some (v_next V)) (ms_group m) pl]> (v_ps V) -> Q true V') ->
  moves (make_group env (v_next V) k name) Q (v_alloc V).
Proof.
  intros HI Hid Hk Hg Hi Hn HQ. pose proof (inv_alloc V HI) as HI1. set (V1 := v_alloc V) in *. set (a := v_next V) in *.
  assert (H1 : v_heap V1 !! a = Some (core Group_new)) by (cbn; by rewrite lookup_insert_eq).
  unfold make_group. eapply (mv_group a); [exact H1|]. intros g Hcore.
  assert (IsCreated g = false) as ->.
  { unfold IsCreated, GetMembersCount. change (m_memberSlots g) with (c_slots (core g)). by rewrite Hcore. }
  apply (create_registered env V1 a (core Group_new) k name pl); try done.
  intros V4 c4 m HI4 H4 HL4 Hs4 Hm4 Hc4 Hl4 Ht4 Hr4 Hg4 Hp4 Hh4. apply (HQ V4 c4 m); try done.
  rewrite Hh4. cbn. apply insert_insert_eq.
Qed.
Lemma silent_new_group : silent new_group.
Proof. unfold new_group. silents. Qed.
Lemma quiet_make_group a k name : quiet (make_group env a k name).
Proof.
  unfold make_group. apply stays_bind; [apply (within_silent stays), silent_group_at|]. intros g.
  destruct (IsCreated g); [apply (within_silent stays), silent_ret|]. apply stays_bind; [apply quiet_Create|].
  intros []; apply (within_silent stays); unfold AddGroup; silents.
Qed.

(** A pair is made of two who wait. *)
Lemma pair_updated w w' k1 k2 i1 i2 c m1 m2 a :
  going V0 q0 w -> world_ok w' -> v_heap (view w) !! a = None ->
  v_heap (view w') = <[a := c]> (v_heap (view w)) -> c_slots c = [m1; m2] -> c_leader c = k1 -> ms_guid m1 = k1 -> ms_guid m2 = k2 ->
  k1 <> k2 -> m_QueuedPlayers (w_lfg w) !! k1 = Some i1 -> m_QueuedPlayers (w_lfg w) !! k2 = Some i2 ->
  lp_areaId i2 = lp_areaId i1 -> lp_team i2 = lp_team i1 -> updated w'.
Proof.
  intros HG HW Hn Hh Hs Hl <- <- Hne H1 H2 Har Hte. pose proof (going_updated w HG) as [_ U2 U3]. pose proof HG as [_ [F1 _ F3 F4]].
  split; [done|..].
  - intros b c0 H0. destruct (U2 b c0 H0) as (d & Hd & Hsw). exists d. split; [|done].
    rewrite Hh, lookup_insert_ne; [done|congruence].
  - intros b d. rewrite Hh. intros [[<- <-]|[_ Hd]]%lookup_insert_Some Hb; [|by eapply U3].
    destruct (F1 _ _ H1) as [(j1 & Hj1 & _ & T1 & A1 & _) _], (F1 _ _ H2) as [(j2 & Hj2 & _ & T2 & A2 & _) _].
    exists m1, m2, j1, j2. split_and!; congruence.
Qed.

Lemma form_group_wp X w (Q : unit -> GroupWorld -> Prop) :
  going V0 q0 w -> (forall w', updated w' -> Q tt w') -> wp X (form_group env) Q w.
Proof.
  intros HG HQ. pose proof HG as [[HI Hr] HF]. pose proof HI as [HB _].
  assert (Hstop : wp X (st_ret tt : GM unit) Q w) by (apply wp_ret, HQ; by apply going_updated).
  unfold form_group. apply wp_bind, wp_look. set (players := m_QueuedPlayers (w_lfg w)).
  destruct (Nat.ltb_spec (length (sorted_keys players)) _groupSize) as [|H5]; [done|].
  destruct (head_Some (sorted_keys players) _groupSize) as (k1 & -> & [i1 Hi1]%elem_of_sorted_keys); [done|cbv; lia|].
  apply wp_bind, (wp_deref X _ k1); [done|]. apply wp_bind, (wp_queued_player X k1 i1); [done|]. apply wp_bind, wp_look.
  destruct (Nat.ltb_spec (length (FindInArea w (lp_areaId i1) (lp_team i1) k1)) (_groupSize - 1)) as [|H4]; [done|].
  destruct (head_Some _ _ H4) as (k2 & -> & (Hne & i2 & Hi2 & Har & Hte)%FindInArea_elem); [cbv; lia|].
  apply wp_bind, (wp_deref X _ k2); [done|]. apply wp_bind, wp_look. apply wp_bind, wp_look.
  pose proof (GetPlayer_found k1 w HB) as Hf1. pose proof (GetPlayer_found k2 w HB) as Hf2.
  destruct (GetPlayer k1 w) as [pl|]; [|done]. destruct (GetPlayer k2 w) as [pm|]; [|done]. cbn [found] in Hf1, Hf2.
  assert (pl_guid pl = k1) as -> by apply (po_guid _ _ (b_player _ HB k1 _ Hf1)).
  assert (pl_guid pm = k2) as -> by apply (po_guid _ _ (b_player _ HB k2 _ Hf2)).
  assert (Hn1 : short (pl_name pl)) by apply (po_name _ _ (b_player _ HB k1 _ Hf1)).
  assert (Hn2 : short (pl_name pm)) by apply (po_name _ _ (b_player _ HB k2 _ Hf2)).
  destruct (fi_waiting _ _ _ _ HF k1 i1 Hi1) as [_ (p1 & Hp1 & Hg1 & Hv1)]. assert (p1 = pcore pl) as -> by congruence.
  destruct (fi_waiting _ _ _ _ HF k2 i2 Hi2) as [_ (p2 & Hp2 & Hg2 & Hv2)]. assert (p2 = pcore pm) as -> by congruence.
  (* the new group *)
  set (V := view w) in *. set (a := v_next V). apply wp_bind. eapply wp_conseq.
  { apply (wp_within eq); [apply silent_new_group|]. apply (new_group_moves V HB (fun b V' => b = a /\ V' = v_alloc V)); done. }
  cbv beta. intros a' w1 [[Hr1 [-> HV1]] Hq1]. apply wp_bind. eapply wp_conseq.
  { apply (wp_within stays); [apply quiet_make_group|].
    apply (make_group_moves V k1 (pcore pl) (pl_name pl) (fun b V' => b = true /\ exists c m, inv_but (Some a) V'
      /\ v_heap V' = <[a := c]> (v_heap V) /\ linked V' a c /\ c_slots c = [m] /\ ms_guid m = k1 /\ c_id c <> 0
      /\ c_leader c = k1 /\ c_type c = GROUPTYPE_NORMAL /\ v_reg V' !! c_id c = Some a /\ v_groups V' !! c_id c = Some (k1, false)
      /\ v_ps V' = <[k1 := refer (Some a) (ms_group m) (pcore pl)]> (v_ps V))); try done.
    - rewrite (fi_ids _ _ _ _ HF). exact Hids.
    - intros V' c m. intros. split; [done|]. by exists c, m. }
  cbv beta. intros b w2 [[Hr2 [-> (c & m1 & HI2 & Hh2 & HL2 & Hs2 & Hm1 & H0 & Hl2 & Ht2 & Hreg2 & Hrow2 & Hps2)]] Hst2]. cbn [negb].
  apply wp_bind, wp_logs; [apply logs_send, sendable_added|intros _]. apply wp_bind. eapply wp_conseq.
  { apply (wp_within eq); [apply silent_AddMember|].
    apply (add_member env (view w2) (Some a) a c k2 (pcore pm) (pl_name pm) GROUP_LFG (fun b V' => b = true /\ exists m, inv V'
      /\ ms_guid m = k2 /\ joined (view w2) V' a c (pcore pm) m)); try done.
    - by right.
    - by rewrite Hh2, lookup_insert_eq.
    - by rewrite Hps2, lookup_insert_ne.
    - by rewrite Hs2, (capacity_normal c Ht2).
    - by rewrite Hs2.
    - rewrite Hs2, Hl2, <- Hm1. by left.
    - by rewrite Hl2, Ht2.
    - intros V' m ? ? ? ?. split; [done|]. by exists m. }
  cbv beta. intros b w3 [[Hr3 [-> (m2 & HI3 & Hm2 & HJ)]] Hq3].
  assert (Hi3 : m_QueuedPlayers (w_lfg w3) !! k1 = Some i1) by (rewrite <- Hq3, (st_players _ _ Hst2), <- Hq1; exact Hi1).
  apply wp_bind, (wp_queued_player X k1 i1); [done|].
  assert (HU : updated w3).
  { apply (pair_updated w w3 k1 k2 i1 i2 (join_core c m2) m1 m2 a); try done; [apply (v_next_fresh V HB)| |].
    - rewrite (jo_heap _ _ _ _ _ _ HJ), Hh2. apply insert_insert_eq.
    - cbn. by rewrite Hs2. }
  (* the rest leaves membership alone *)
  assert (Hrest : calm (fun W => W = view w3) (AddToQueue env k1 (lp_areaId i1) ;;;
    RemovePlayerFromQueue k1 PLAYER_SYSTEM_LEAVE ;;; RemovePlayerFromQueue k2 PLAYER_SYSTEM_LEAVE)).
  { apply calm_bind; [|intros _; calms]. apply AddToQueue_calm. intros W _ ->. unfold online.
    rewrite (jo_ps _ _ _ _ _ _ HJ), Hm2, lookup_insert_ne, Hps2, lookup_insert_eq by done. by eexists. }
  eapply wp_conseq; [by apply Hrest; [apply HI3|..]|]. cbv beta. intros [] w4 [Hv4 Hr4]. apply HQ.
  destruct HU as [U1 U2 U3]. split; [by split; [rewrite Hv4|]|by rewrite Hv4..].
Qed.

(** *** The whole *)

Lemma Update_wp X diff (Q : unit -> GroupWorld -> Prop) :
  (forall w', updated w' -> Q tt w') -> wp X (Update env diff) Q w0.
Proof.
  intros HQ. pose proof HW0 as [HI0 Hr0].
  assert (HT : ticking (sorted_keys (m_QueuedPlayers q0)) w0).
  { split; [done..| |].
    - intros k i Hi. split; [by exists i|]. left. apply elem_of_sorted_keys. by exists i.
    - intros k. by rewrite elem_of_sorted_keys. }
  unfold Update. apply wp_bind, wp_look. fold q0. destruct (_ && _) eqn:E.
  - apply andb_true_iff in E as [_ E2%bool_decide_eq_true]. apply wp_ret, HQ, going_updated, ticked_going.
    destruct HT as [? ? ? H4 H5]. split; try done; intros k; [|by intros ?%elem_of_nil].
    intros i. change (m_QueuedPlayers q0 !! k = Some i -> (exists i0, m_QueuedPlayers q0 !! k = Some i0 /\ alike i0 i) /\ (k ∈ [] \/ is_Some (v_ps V0 !! k))).
    by rewrite E2, lookup_empty.
  - apply wp_bind, (ticks_wp X diff (sorted_keys (m_QueuedPlayers q0)) w0); [done|apply NoDup_sorted_keys|].
    intros w1 HT1%ticked_going. apply wp_bind, wp_look.
    apply wp_bind, (fill_groups_wp env V0 q0 X diff); [done|apply NoDup_sorted_keys|intros id; by rewrite elem_of_sorted_keys|].
    intros w2 HG2. by apply form_group_wp.
Qed.
End updating.

(** ** Opcodes *)

Section stones.
Context (env : GroupEnv) `{!GroupEnvOk env} (me : Z) (w : GroupWorld) (HW : world_ok w) (Hme : is_online me w).

Let V := view w.
Let HI : inv V := proj1 HW.

Lemma sendable_failed s : sendable (JoinFailedPacket s).
Proof. unfold JoinFailedPacket. eapply sendable_fits; [auto 10 with packets|lia]. Qed.
Hint Resolve sendable_failed : logs.
(** A handler that starts with the player and leaves membership alone. *)
Lemma stone_ok (m : GM unit) : calm (fun W => W = V) m -> sound m w.
Proof. intros Hm. apply sound_kept; [done|]. by apply (kept_calm (fun W => W = V)). Qed.
Lemma me_online : forall W, base W -> W = V -> online me W.
Proof. intros W _ ->. exact Hme. Qed.

Lemma HandleMeetingStoneJoinOpcode_ok b : arrived b -> sound (HandleMeetingStoneJoinOpcode env me b) w.
Proof.
  intros Hb. unfold HandleMeetingStoneJoinOpcode. apply wp_recv_guid; [done..|]. intros guid b' _. apply stone_ok.
  pose proof me_online as Hon. destruct (negb _); [apply calm_ret|]. destruct (MeetingStone env me guid) as [[type area]|]; [|apply calm_ret].
  destruct (negb _); [apply calm_ret|]. apply calm_player_at; [done|]. intros p.
  assert (Hq : forall P : View -> Prop, (forall W, base W -> P W -> online me W) -> calm P (AddToQueue env me area)) by (intros; by apply AddToQueue_calm).
  destruct (GetGroup p) as [a|] eqn:Ha; [|apply Hq; intros W HB [? ?]; by apply Hon].
  apply calm_group_at; [intros W HB [_ Hp]; by eapply group_is_live|]. intros g. unfold SendMeetingstoneFailed.
  repeat (case_match; [apply calm_logs, logs_send, sendable_failed|]). apply Hq. intros W HB [[? _] _]. by apply Hon.
Qed.
Lemma HandleMeetingStoneLeaveOpcode_ok : sound (HandleMeetingStoneLeaveOpcode me) w.
Proof.
  apply stone_ok. unfold HandleMeetingStoneLeaveOpcode. apply calm_player_at; [apply me_online|]. intros p.
  destruct (GetGroup p) as [a|] eqn:Ha; [|apply RemovePlayerFromQueue_calm].
  apply calm_group_at; [intros W HB [_ Hp]; by eapply group_is_live|]. intros g. calms.
Qed.
Lemma HandleMeetingStoneInfoOpcode_ok : sound (HandleMeetingStoneInfoOpcode me) w.
Proof.
  apply stone_ok. unfold HandleMeetingStoneInfoOpcode. apply calm_player_at; [apply me_online|]. intros p.
  destruct (GetGroup p) as [a|] eqn:Ha; [|apply RestoreOfflinePlayer_calm].
  apply calm_group_at; [intros W HB [_ Hp]; by eapply group_is_live|]. intros g. calms.
Qed.
End stones.

Section server.
Context (env : GroupEnv) `{!GroupEnvOk env}.

Lemma ScriptCommand_MeetingStone_ok target source area ab w : world_ok w ->
  (forall k, target = Some k \/ source = Some k -> is_online k w) -> sound (ScriptCommand_MeetingStone env target source area ab) w.
Proof.
  intros HW Hon. apply sound_kept; [done|]. apply (kept_calm (fun W => W = view w)); [apply HW| |done].
  unfold ScriptCommand_MeetingStone.
  assert (Hk : forall k, is_online k w -> calm (fun W => W = view w)
    (let! queued := look (IsPlayerInQueue k) in (if queued then st_ret tt else AddToQueue env k area) ;;; st_ret false)).
  { intros k Hk. apply calm_look. intros w' _ _. apply calm_bind; [|intros _; apply calm_ret].
    destruct (IsPlayerInQueue k w'); [apply calm_ret|]. apply AddToQueue_calm. intros W _ [-> _]. exact Hk. }
  destruct target as [k|]; [apply Hk; auto|]. destruct source as [k|]; [apply Hk; auto|apply calm_ret].
Qed.
Lemma Update_ok diff w : world_ok w -> waiting_free w -> m_GroupIds w + 1 < 2 ^ 32 -> sound (Update env diff) w.
Proof. intros HW Hf Hid. apply (Update_wp env w HW Hf Hid). by intros w' []. Qed.
End server.
