(* ===== verification/GroupHistory.v ===== *)
(** * GroupHistory: whatever happens to groups, they stay in order

    The remaining opcodes, loot and the calls of the rest of the server; and
    the theorem about histories: from an empty server, whatever requests are
    served, no group or player that is gone is followed, nothing is asserted in
    vain, every loop ends and the invariant holds. *)

From stdpp Require Import gmap fin_maps strings relations.
From S2P Require Import Prelude ByteBuffer Codec ObjectGuid Packets Effects Incoming Social.
From S2P Require Import GroupData GroupRolls GroupLists LFG Group GroupRaid GroupHandlers MeetingStones GroupLife GroupInv GroupCalm GroupVotes GroupMoves GroupOps GroupMembers GroupEnds GroupSteps GroupServe GroupOrders GroupLives.

Local Open Scope prog_scope.

Lemma read_u8_range b v b' : wf b -> read_u8 b = (Ok v, b') -> 0 <= v.
Proof.
  intros Hwf. unfold read_u8, read_T, read_T_at, st_bind. destruct (_ >? _); [done|].
  unfold load_at. case_bool_decide; [|done]. intros Hv.
  assert (Hr : forall a (c : ByteBuffer), (Ok (E:=ByteBufferException) a, c) = (Ok v, b') -> 0 <= a -> 0 <= v) by congruence.
  eapply Hr; [exact Hv|]. rewrite wire_read. apply le_val_range, Forall_slice, Hwf.
Qed.
Lemma wp_recv_byte {C B} (X : C -> Prop) (Q : B -> C -> Prop) b k w : arrived b -> X w ->
  (forall v b', arrived b' -> 0 <= v -> wp X (k v b') Q w) -> wp X (recv read_u8 b k) Q w.
Proof. intros Hb HX. apply wp_recv; [apply (reader_T 1); lia| |done|done]. intros a b'. apply read_u8_range, Hb. Qed.

Section opcodes.
Context (env : GroupEnv) `{!GroupEnvOk env}.

(** ** Loot and rolls *)

Lemma rolling_now V a c w : view w = V -> aside_ok w -> v_heap V !! a = Some c -> exists l, rolling V a l w.
Proof.
  intros HV Hr Hc. rewrite <- HV in Hc. destruct (group_view _ _ _ Hc) as (g & Hg & _). exists (RollId g).
  by split_and!; [..|exists g].
Qed.
Lemma CountRollVote_kept V a c k target slot v : inv V -> v_heap V !! a = Some c -> kept (CountRollVote env a k target slot v) V.
Proof.
  intros HI Hc X w HV Hr. destruct (rolling_now V a c w HV Hr Hc) as (l & HR). pose proof HR as (_ & _ & g & Hg & Hl).
  unfold CountRollVote. apply wp_bind, (wp_group_at X a g); [done|]. rewrite Hl.
  destruct (list_find _ l) as [[i r]|] eqn:E; [|apply wp_ret; by rewrite HV].
  apply list_find_Some in E as (Hi & _ & _). apply wp_bind.
  eapply wp_conseq; [by apply (CountRollVote_at_wp env X V a l i r)|]. cbv beta. intros b w' [_ (HV' & Hr' & _)].
  apply wp_ret. by rewrite HV'.
Qed.
Lemma EndRoll_kept V a c l : inv V -> v_heap V !! a = Some c -> kept (EndRoll env a l) V.
Proof.
  intros HI Hc X w HV Hr. destruct (rolling_now V a c w HV Hr Hc) as (ls & HR).
  eapply wp_conseq; [by apply (EndRoll_wp env X V a l ls)|]. cbv beta. intros [] w' (HV' & Hr' & _). by rewrite HV'.
Qed.
(** Loot that is there is shared out. *)
Lemma loot_kept V a c l n w (m : GM unit) :
  inv V -> view w = V -> aside_ok w -> v_heap V !! a = Some c -> loot_there l n w ->
  (forall X w, rolling_on V a l n w -> wp X m (fun _ w' => rolling_on V a l n w') w) -> sound m w.
Proof.
  intros HI HV Hr Hc Hl Hm. destruct (rolling_now V a c w HV Hr Hc) as (ls & HR).
  eapply wp_conseq; [apply Hm; split; [by exists ls|done]|]. cbv beta. intros _ w' [(ls' & HV' & Hr' & _) _].
  split; [by rewrite HV'|done].
Qed.

Section request.
Context (me : Z) (w : GroupWorld).
Context (HW : world_ok w) (Hme : is_online me w).

Let V := view w.
Let HI : inv V := proj1 HW.
Let HB : base V := proj1 HI.

(** The handlers that follow [GetGroup]. *)
Lemma on_group_kept (f : Player -> Z -> GM unit) :
  (forall q a c, v_ps V !! me = Some (pcore q) -> v_heap V !! a = Some c -> me ∈ guids (c_slots c) -> kept (f q a) V) ->
  kept (let! p := player_at me in match GetGroup p with Some a => f p a | None => st_ret tt end) V.
Proof.
  intros Hf. destruct Hme as [pm Hpm]. unfold kept. mv_step. change (GetGroup q) with (p_group (pcore q)). rewrite Hq.
  destruct (p_group pm) as [a|] eqn:Ea; [|by mv_step]. destruct (b_ref V HB me pm a Hpm Ea) as (c & Hc & Hin & _).
  apply (Hf q a c); [by rewrite Hq|done..].
Qed.
Lemma live_now a c : v_heap V !! a = Some c -> forall W, base W -> W = V -> live a W.
Proof. intros Hc W _ ->. by exists c. Qed.

Lemma HandleLootMethodOpcode_ok b : arrived b -> sound (HandleLootMethodOpcode me b) w.
Proof.
  intros Hb. unfold HandleLootMethodOpcode. apply wp_recv_u32; [done..|]. intros method b1 Hb1 _.
  apply wp_recv_guid; [done..|]. intros master b2 Hb2. apply wp_recv_u32; [done..|]. intros thr b3 _ _.
  apply sound_kept; [done|]. fold V. destruct Hme as [pm Hpm]. unfold kept. destruct (_ >? _); [by mv_step|].
  destruct (_ || _); [by mv_step|]. mv_step. change (GetGroup q) with (p_group (pcore q)).
  change (GetOriginalGroup q) with (p_orig (pcore q)). rewrite Hq. rewrite (po_orig _ _ (b_player V HB me pm Hpm)).
  destruct (p_group pm) as [a|] eqn:Ea; [|by mvs]. destruct (b_ref V HB me pm a Hpm Ea) as (c & Hc & _).
  mv_step. mv_step. rewrite (group_bg g c Hg (b_wf V HB a c Hc)). mv_step.
  apply (kept_calm (fun W => W = V)); [done| |done]. pose proof (live_now a c Hc). calms.
Qed.
Lemma HandleLootRoll_ok b : arrived b -> sound (HandleLootRoll env me b) w.
Proof.
  intros Hb. unfold HandleLootRoll. apply wp_recv_guid; [done..|]. intros target b1 Hb1.
  apply wp_recv_u32; [done..|]. intros slot b2 Hb2 _. apply wp_recv_u8; [done..|]. intros rt b3 _.
  apply sound_kept; [done|]. fold V. apply (on_group_kept (fun p a => if rt >=? MAX_ROLL_FROM_CLIENT then st_ret tt
    else CountRollVote env a me target slot rt ;;; st_ret tt)). intros q a c _ Hc _. unfold kept.
  destruct (_ >=? _); [by mv_step|]. apply mv_bind. eapply mv_conseq; [by apply (CountRollVote_kept V a c)|].
  cbv beta. intros _ V' HV'. by mv_step.
Qed.

(** ** Pings, rolls and icons *)

Lemma HandleMinimapPingOpcode_ok b : arrived b -> sound (HandleMinimapPingOpcode me b) w.
Proof.
  intros Hb. unfold HandleMinimapPingOpcode. apply wp_recv_u32; [done..|]. intros x b1 Hb1 _.
  apply wp_recv_u32; [done..|]. intros y b2 _ _. apply sound_kept; [done|]. fold V.
  apply (on_group_kept (fun p a => BroadcastPacket a (PingPacket me x y) true (-1) me)). intros q a c _ Hc _.
  apply (kept_calm (fun W => W = V)); [done| |done]. apply BroadcastPacket_calm; [by apply (live_now a c)|].
  unfold PingPacket. eapply sendable_fits; [auto 10 with packets|lia].
Qed.
Lemma sendable_roll lo hi r k : sendable (RandomRollPacket lo hi r k).
Proof. unfold RandomRollPacket. eapply sendable_fits; [auto 10 with packets|lia]. Qed.
Lemma HandleRandomRollOpcode_ok b : arrived b -> sound (HandleRandomRollOpcode env me b) w.
Proof.
  intros Hb. unfold HandleRandomRollOpcode. apply wp_recv_u32; [done..|]. intros lo b1 Hb1 _.
  apply wp_recv_u32; [done..|]. intros hi b2 _ _. apply sound_kept; [done|]. fold V. unfold kept.
  destruct (_ || _); [by mv_step|]. unfold draw. do 4 mv_step.
  apply (mv_alter _ V); [intros w1 Hw1; by rewrite <- Hw1|done|]. mv_step. destruct Hme as [pm Hpm].
  mv_step. change (GetGroup q) with (p_group (pcore q)). rewrite Hq.
  destruct (p_group pm) as [a|] eqn:Ea; [|apply kept_logs; [done|]; apply logs_send, sendable_roll].
  destruct (b_ref V HB me pm a Hpm Ea) as (c & Hc & _).
  apply (kept_calm (fun W => W = V)); [done| |done]. apply BroadcastPacket_calm; [by apply (live_now a c)|apply sendable_roll].
Qed.
Lemma HandleRaidTargetUpdateOpcode_ok b : arrived b -> sound (HandleRaidTargetUpdateOpcode me b) w.
Proof.
  intros Hb. unfold HandleRaidTargetUpdateOpcode. apply wp_recv_u8; [done..|]. intros x b1 Hb1.
  destruct Hme as [pm Hpm]. destruct (player_view _ _ _ Hpm) as (p & Hp & Hpc). apply wp_bind, (wp_player_at _ me p); [done|].
  change (GetGroup p) with (p_group (pcore p)). change (GetOriginalGroup p) with (p_orig (pcore p)).
  rewrite Hpc, (po_orig _ _ (b_player V HB me pm Hpm)).
  destruct (p_group pm) as [a|] eqn:Ea; [|by apply wp_ret]. destruct (b_ref V HB me pm a Hpm Ea) as (c & Hc & _).
  assert (Hcalm : forall m : GM unit, calm (fun W => W = V) m -> sound m w).
  { intros m Hm. apply sound_kept; [done|]. by apply (kept_calm (fun W => W = V)). }
  destruct (x =? 0xFF); [apply Hcalm, SendTargetIconList_calm; by apply (live_now a c)|].
  destruct (group_view _ _ _ Hc) as (g & Hg & _). apply wp_bind, (wp_group_at _ a g); [done|].
  destruct (_ && _); [by apply wp_ret|]. apply wp_recv_guid; [done..|]. intros guid b2 _.
  apply Hcalm, SetTargetIcon_calm. by apply (live_now a c).
Qed.

(** ** Raids *)

Lemma HandleGroupRaidConvertOpcode_ok : sound (HandleGroupRaidConvertOpcode me) w.
Proof.
  apply sound_kept; [done|]. fold V. unfold HandleGroupRaidConvertOpcode.
  apply (on_group_kept (fun p a => if pl_inBattleGround p then st_ret tt else let! g := group_at a in
    if negb (IsLeader me g) || (GetMembersCount g <? GetMembersMinCount g) then st_ret tt
    else SendPartyResult me PARTY_OP_INVITE "" ERR_PARTY_RESULT_OK ;;; ConvertToRaid a)).
  intros q a c _ Hc [m Hm]%slot_in_is_Some. unfold kept. destruct (pl_inBattleGround q); [by mv_step|]. mv_step.
  destruct (_ || _); [by mv_step|]. apply mv_bind, mv_logs; [by apply logs_result|intros _].
  destruct (slot_in_Some _ _ _ Hm) as [_ Hmk]. rewrite <- Hmk in Hm. by apply (ConvertToRaid_kept V HI a c Hc m).
Qed.
Lemma as_officer_kept (k : Z -> GM unit) :
  (forall a c, v_heap V !! a = Some c -> kept (k a) V) -> kept (as_officer me k) V.
Proof.
  intros Hk. unfold as_officer. apply (on_group_kept (fun p a => let! g := group_at a in
    if negb (IsLeader me g) && negb (IsAssistant me g) then st_ret tt else k a)).
  intros q a c _ Hc _. unfold kept. mv_step. destruct (_ && _); [by mv_step|]. by apply (Hk a c).
Qed.
Lemma free_moves a c s (f : bool -> GM unit) (Q : unit -> View -> Prop) :
  v_heap V !! a = Some c -> 0 <= s < 8 -> (forall b, moves (f b) Q V) -> moves (st_bind (HasFreeSlotSubGroup a s) f) Q V.
Proof.
  intros Hc Hs Hf. unfold HasFreeSlotSubGroup. mv_step. mv_step. change (m_subGroupsCounts g) with (c_counts (core g)). rewrite Hg.
  destruct (inv_at V a c HI Hc) as [HL _]. pose proof (l_counts _ _ _ HL) as HC. unfold counts_ok in HC.
  destruct (c_counts c) as [n|]; [|mv_step; apply Hf]. destruct HC as (_ & -> & _). unfold count_at.
  rewrite raid_counts_lookup by lia. cbn [deref]. mvs. apply Hf.
Qed.
Lemma HandleGroupChangeSubGroupOpcode_ok b : arrived b -> sound (HandleGroupChangeSubGroupOpcode env me b) w.
Proof.
  intros Hb. unfold HandleGroupChangeSubGroupOpcode. apply wp_recv_str; [done..|]. intros name b1 Hb1 _.
  apply wp_recv_byte; [done..|]. intros s b2 _ Hs. apply sound_kept; [done|]. fold V. unfold kept.
  destruct (Z.geb_spec s MAX_RAID_SUBGROUPS) as [|Hlt]; [by mv_step|]. change MAX_RAID_SUBGROUPS with 8 in Hlt.
  apply as_officer_kept. intros a c Hc. apply (free_moves a c); [done..|]. intros free. destruct (negb free); [by mv_step|].
  apply mv_look. intros w0 Hw0. pose proof (find_name V name w0 HB Hw0) as Hf.
  destruct (GetPlayer_name name w0) as [q|]; [apply (ChangeMembersGroup_player_kept V HI a c Hc); [by eexists|done]|].
  destruct (_ =? 0); [by mv_step|]. by apply (ChangeMembersGroup_kept V HI a c Hc).
Qed.
Lemma HandleGroupSwapSubGroupOpcode_ok b : arrived b -> sound (HandleGroupSwapSubGroupOpcode env me b) w.
Proof.
  intros Hb. unfold HandleGroupSwapSubGroupOpcode. apply wp_recv_str; [done..|]. intros name b1 Hb1 _.
  apply wp_recv_str; [done..|]. intros name2 b2 _ _. apply sound_kept; [done|]. fold V.
  apply as_officer_kept. intros a c Hc. unfold kept. mv_step. mv_step.
  repeat case_match; try (by apply (SwapMembersGroup_kept V HI a c Hc)); by mv_step.
Qed.
Lemma HandleGroupAssistantLeaderOpcode_ok b : arrived b -> sound (HandleGroupAssistantLeaderOpcode me b) w.
Proof.
  intros Hb. unfold HandleGroupAssistantLeaderOpcode. apply wp_recv_guid; [done..|]. intros guid b1 Hb1.
  apply wp_recv_u8; [done..|]. intros flag b2 _. apply sound_kept; [done|]. fold V.
  apply (on_group_kept (fun p a => let! g := group_at a in if negb (IsLeader me g) then st_ret tt else SetAssistant a guid (truth flag))).
  intros q a c _ Hc _. unfold kept. mv_step. destruct (negb _); [by mv_step|]. by apply (SetAssistant_kept V HI a c Hc).
Qed.
Lemma HandleRaidReadyCheckOpcode_ok b : arrived b -> sound (HandleRaidReadyCheckOpcode me b) w.
Proof.
  intros Hb. unfold HandleRaidReadyCheckOpcode. destruct (size b =? 0).
  - apply sound_kept; [done|]. fold V. apply as_officer_kept. intros a c Hc.
    apply (kept_calm (fun W => W = V)); [done| |done]. pose proof (live_now a c Hc). unfold OfflineReadyCheck. calms.
  - apply wp_recv_u8; [done..|]. intros st b1 _. apply sound_kept; [done|]. fold V.
    apply (on_group_kept (fun p a => let! g := group_at a in let! gleader := look (GetPlayer (m_leaderGuid g)) in
      match gleader with Some _ => send (m_leaderGuid g) (AnswerPacket me st) | None => st_ret tt end)).
    intros q a c _ Hc _. unfold kept. mv_step. apply mv_find; [done|]. intros [q'|] _; [|by mv_step].
    apply kept_logs; [done|]. apply logs_send. unfold AnswerPacket. eapply sendable_fits; [auto 10 with packets|lia].
Qed.
End request.
End opcodes.
