(* ===== verification/GroupProps.v ===== *)
(** * GroupProps: what the group server promises

    Histories of requests: from an empty server, whatever is served, every
    request returns or throws a packet exception and the invariant of
    [GroupInv] holds; and what that says in the words of the program. *)

From stdpp Require Import gmap fin_maps strings relations.
From S2P Require Import Prelude ByteBuffer Codec ObjectGuid Packets Effects Incoming Social.
From S2P Require Import GroupData GroupRolls GroupLists LFG Group GroupRaid GroupHandlers MeetingStones GroupLife GroupInv GroupCalm GroupVotes GroupMoves GroupOps GroupMembers GroupEnds GroupSteps GroupServe GroupOrders GroupLives GroupQueue GroupHistory.

Local Open Scope prog_scope.

(** ** Requests *)

(** The opcodes of [GroupHandler.cpp] and [LFGHandler.cpp]. *)
Inductive group_opcode :=
| CMSG_GROUP_INVITE | CMSG_GROUP_ACCEPT | CMSG_GROUP_DECLINE | CMSG_GROUP_UNINVITE_GUID | CMSG_GROUP_UNINVITE
| CMSG_GROUP_SET_LEADER | CMSG_GROUP_DISBAND | CMSG_LOOT_METHOD | CMSG_LOOT_ROLL | CMSG_MINIMAP_PING
| CMSG_RANDOM_ROLL | CMSG_RAID_TARGET_UPDATE | CMSG_GROUP_RAID_CONVERT | CMSG_GROUP_CHANGE_SUB_GROUP
| CMSG_GROUP_SWAP_SUB_GROUP | CMSG_GROUP_ASSISTANT_LEADER | CMSG_RAID_READY_CHECK
| CMSG_MEETINGSTONE_JOIN | CMSG_MEETINGSTONE_LEAVE | CMSG_MEETINGSTONE_INFO.

(** What can happen to groups: requests of a session, players that come and go,
    characters that are deleted, the update of the world, loot that appears, is
    rolled for and goes, and the calls of the rest of the server. *)
Inductive group_request :=
| GClient (o : group_opcode) (me : Z) (b : ByteBuffer)
| GLogin (p : Player)
| GLogout (me : Z) (socket : bool)
| GDeleteCharacter (guid : Z)
| GUpdate (now delay : Z)
| GLootFilled (l : Z) (x : Loot)
| GLootCleared (l : Z)
| GStartGroupLoot (a target l : Z)
| GStartNeedBeforeGreed (a target l : Z)
| GStartMasterLoot (a target l player : Z)
| GLootTimeout (a l : Z)
| GNextLooter (a target : Z) (ifneed : bool)
| GMainTank (a guid : Z)
| GMainAssistant (a guid : Z)
| GTargetGone (a guid : Z)
| GMeetingStone (target source : option Z) (areaId : Z) (abort : bool)
| GQueueUpdate (diff : Z).

Section histories.
Context (env : GroupEnv).

Definition group_serve (o : group_opcode) (me : Z) (b : ByteBuffer) : GM unit :=
  match o with
  | CMSG_GROUP_INVITE => HandleGroupInviteOpcode env me b
  | CMSG_GROUP_ACCEPT => HandleGroupAcceptOpcode env me
  | CMSG_GROUP_DECLINE => HandleGroupDeclineOpcode env me
  | CMSG_GROUP_UNINVITE_GUID => HandleGroupUninviteGuidOpcode env me b
  | CMSG_GROUP_UNINVITE => HandleGroupUninviteOpcode env me b
  | CMSG_GROUP_SET_LEADER => HandleGroupSetLeaderOpcode env me b
  | CMSG_GROUP_DISBAND => HandleGroupDisbandOpcode env me
  | CMSG_LOOT_METHOD => HandleLootMethodOpcode me b
  | CMSG_LOOT_ROLL => HandleLootRoll env me b
  | CMSG_MINIMAP_PING => HandleMinimapPingOpcode me b
  | CMSG_RANDOM_ROLL => HandleRandomRollOpcode env me b
  | CMSG_RAID_TARGET_UPDATE => HandleRaidTargetUpdateOpcode me b
  | CMSG_GROUP_RAID_CONVERT => HandleGroupRaidConvertOpcode me
  | CMSG_GROUP_CHANGE_SUB_GROUP => HandleGroupChangeSubGroupOpcode env me b
  | CMSG_GROUP_SWAP_SUB_GROUP => HandleGroupSwapSubGroupOpcode env me b
  | CMSG_GROUP_ASSISTANT_LEADER => HandleGroupAssistantLeaderOpcode me b
  | CMSG_RAID_READY_CHECK => HandleRaidReadyCheckOpcode me b
  | CMSG_MEETINGSTONE_JOIN => HandleMeetingStoneJoinOpcode env me b
  | CMSG_MEETINGSTONE_LEAVE => HandleMeetingStoneLeaveOpcode me
  | CMSG_MEETINGSTONE_INFO => HandleMeetingStoneInfoOpcode me
  end.

Definition group_run (r : group_request) : GM unit :=
  match r with
  | GClient o me b => group_serve o me b
  | GLogin p => login_group env p
  | GLogout me socket => logout_group env me socket
  | GDeleteCharacter k => DeleteFromDB_group env k
  | GUpdate now delay => update_leaders env now delay
  | GLootFilled l x => alter_world (fun w => w_set_loots (<[l := x]> (w_loots w)) w)
  | GLootCleared l => alter_world (clear_loot l)
  | GStartGroupLoot a target l => GroupLoot env a target l
  | GStartNeedBeforeGreed a target l => NeedBeforeGreed env a target l
  | GStartMasterLoot a target l player => MasterLoot env a target l player
  | GLootTimeout a l => EndRoll env a l
  | GNextLooter a target ifneed => UpdateLooterGuid env a target ifneed
  | GMainTank a k => SetMainTank a k
  | GMainAssistant a k => SetMainAssistant a k
  | GTargetGone a k => ClearTargetIcon a k
  | GMeetingStone target source areaId abort => ScriptCommand_MeetingStone env target source areaId abort ;;; st_ret tt
  | GQueueUpdate diff => Update env diff
  end.

Definition group_live (a : Z) (w : GroupWorld) : Prop := is_Some (w_heap w !! a).
Definition loot_live (l : Z) (w : GroupWorld) : Prop := is_Some (w_loots w !! l).
(** Nobody rolls for the loot. *)
Definition unrolled (l : Z) (w : GroupWorld) : Prop :=
  forall a g r, w_heap w !! a = Some g -> r ∈ RollId g -> r_loot r <> Some l.

(** A session has its player, a packet arrived, a player who logs in is not
    there yet, the rest of the server names players, groups and loot that are
    there, loot is filled while nobody rolls for it, group ids are not used up,
    and when the role queue is updated nobody who waits and is online has a
    group or an invitation. *)
Definition group_allowed (r : group_request) (w : GroupWorld) : Prop :=
  match r with
  | GClient o me b => is_online me w /\ arrived b /\ m_GroupIds w + 1 < 2 ^ 32
  | GLogin p => 0 < pl_guid p < 2 ^ 32 /\ short (pl_name p) /\ w_players w !! pl_guid p = None
  | GLogout me _ => is_online me w
  | GDeleteCharacter _ | GUpdate _ _ | GLootCleared _ => True
  | GLootFilled l _ => unrolled l w
  | GStartGroupLoot a _ l | GStartNeedBeforeGreed a _ l | GStartMasterLoot a _ l _ => group_live a w /\ loot_live l w
  | GLootTimeout a _ | GNextLooter a _ _ | GMainTank a _ | GMainAssistant a _ | GTargetGone a _ => group_live a w
  | GMeetingStone target source _ _ => forall k, target = Some k \/ source = Some k -> is_online k w
  | GQueueUpdate _ => waiting_free w /\ m_GroupIds w + 1 < 2 ^ 32
  end.

(** A request is served, whatever the outcome. *)
Inductive group_step : GroupWorld -> GroupWorld -> Prop :=
| group_step_run r w log out w' log' :
    group_allowed r w -> group_run r (w, log) = (out, (w', log')) -> group_step w w'.

Context `{!GroupEnvOk env}.

Lemma group_serve_ok o me b w :
  world_ok w -> is_online me w -> arrived b -> m_GroupIds w + 1 < 2 ^ 32 -> sound (group_serve o me b) w.
Proof.
  intros HW Ho Hb Hid. destruct o; cbn [group_serve].
  - by apply HandleGroupInviteOpcode_ok.
  - by apply HandleGroupAcceptOpcode_ok.
  - by apply HandleGroupDeclineOpcode_ok.
  - by apply HandleGroupUninviteGuidOpcode_ok.
  - by apply HandleGroupUninviteOpcode_ok.
  - by apply HandleGroupSetLeaderOpcode_ok.
  - by apply HandleGroupDisbandOpcode_ok.
  - by apply HandleLootMethodOpcode_ok.
  - by apply HandleLootRoll_ok.
  - by apply HandleMinimapPingOpcode_ok.
  - by apply HandleRandomRollOpcode_ok.
  - by apply HandleRaidTargetUpdateOpcode_ok.
  - by apply HandleGroupRaidConvertOpcode_ok.
  - by apply HandleGroupChangeSubGroupOpcode_ok.
  - by apply HandleGroupSwapSubGroupOpcode_ok.
  - by apply HandleGroupAssistantLeaderOpcode_ok.
  - by apply HandleRaidReadyCheckOpcode_ok.
  - by apply HandleMeetingStoneJoinOpcode_ok.
  - by apply HandleMeetingStoneLeaveOpcode_ok.
  - by apply HandleMeetingStoneInfoOpcode_ok.
Qed.

Lemma group_live_view a w : group_live a w -> exists c, v_heap (view w) !! a = Some c.
Proof. intros [g Hg]. exists (core g). by apply view_group. Qed.
Lemma live_call a w (m : GM unit) :
  world_ok w -> group_live a w -> calm (fun W => W = view w) m -> sound m w.
Proof. intros HW Ha Hm. apply sound_kept; [done|]. by apply (kept_calm (fun W => W = view w)); [apply HW|..]. Qed.
Lemma shared_out a l w (m : GM unit) : world_ok w -> group_live a w -> loot_live l w ->
  (forall n X w', rolling_on (view w) a l n w' -> wp X m (fun _ w'' => rolling_on (view w) a l n w'') w') -> sound m w.
Proof.
  intros [HI Hr] Ha [x Hx] Hm. destruct (group_live_view a w Ha) as [c Hc].
  apply (loot_kept (view w) a c l (length (items x))); try done; [by exists x|]. intros X w'. apply Hm.
Qed.
Lemma filled_ok l x w : world_ok w -> unrolled l w -> world_ok (w_set_loots (<[l := x]> (w_loots w)) w).
Proof.
  intros [HI [Hr Hq]] Hu. split; [exact HI|split; [|exact Hq]]. intros a g r l' Hg Hin Hl. cbn. rewrite lookup_insert_ne; [by eapply Hr|].
  intros ->. by eapply Hu.
Qed.

Lemma group_run_ok r w : world_ok w -> group_allowed r w -> sound (group_run r) w.
Proof.
  intros HW. pose proof HW as [HI Hr].
  destruct r as [o me b|p|me socket|k|now delay|l x|l|a t l|a t l|a t l k|a l|a t ifn|a k|a k|a k|t s ar ab|diff];
    cbn [group_run group_allowed]; intros Ha.
  - destruct Ha as (? & ? & ?). by apply group_serve_ok.
  - destruct Ha as (Hk & Hn & Hoff). apply sound_kept; [done|]. apply login_group_moves; try done.
    cbn. by rewrite lookup_fmap, Hoff.
  - destruct Ha as [p Hp]. apply sound_kept; [done|]. by apply (logout_group_moves env (view w) me p).
  - apply sound_kept; [done|]. by apply DeleteFromDB_group_kept.
  - apply sound_kept; [done|]. by apply update_leaders_kept.
  - apply wp_alter_world. by apply filled_ok.
  - apply wp_alter_world. split; [by rewrite clear_loot_view|by apply clear_loot_ok].
  - destruct Ha as [Ha Hl]. apply (shared_out a l); try done. intros. apply GroupLoot_wp; [done|apply HI|done].
  - destruct Ha as [Ha Hl]. apply (shared_out a l); try done. intros. apply NeedBeforeGreed_wp; [done|apply HI|done].
  - destruct Ha as [Ha Hl]. apply (shared_out a l); try done. intros. apply MasterLoot_wp; [done|apply HI|done].
  - destruct (group_live_view a w Ha) as [c Hc]. apply sound_kept; [done|]. by apply (EndRoll_kept env (view w) a c).
  - apply (live_call a); [done..|]. apply UpdateLooterGuid_calm. intros V HB ->. by apply group_live_view.
  - apply (live_call a); [done..|]. apply SetMainTank_calm. intros V HB ->. by apply group_live_view.
  - apply (live_call a); [done..|]. apply SetMainAssistant_calm. intros V HB ->. by apply group_live_view.
  - apply (live_call a); [done..|]. apply ClearTargetIcon_calm. intros V HB ->. by apply group_live_view.
  - apply wp_bind. eapply wp_conseq; [by apply ScriptCommand_MeetingStone_ok|]. cbv beta. intros _ w' ?. by apply wp_ret.
  - destruct Ha as [Hf Hid]. by apply Update_ok.
Qed.

Definition GroupWorld_new : GroupWorld := mkGW ∅ ∅ ∅ 0 ∅ 1 ∅ 0 ∅ ∅ (mkLFG ∅ ∅ ∅).
Lemma group_new_ok : world_ok GroupWorld_new.
Proof.
  assert (He : forall {K} `{Countable K} {V} k (v : V), (∅ : gmap K V) !! k = Some v -> False)
    by (intros; by rewrite lookup_empty in *).
  split; [split|].
  - split; cbn; intros; try (rewrite ?fmap_empty in *; exfalso; by eapply He).
    lia.
  - cbn. intros a c Hc. rewrite fmap_empty in Hc. by apply He in Hc.
  - split; [intros a g r l Hg; by apply He in Hg|]. split; intros k i Hi; cbn in Hi; by apply He in Hi.
Qed.

Lemma group_history_ok w : rtc group_step GroupWorld_new w -> world_ok w.
Proof.
  apply (rtc_ind_r world_ok); [apply group_new_ok|].
  intros w1 w2 _ [r w0 log out w' log' Ha Hr] HW. pose proof (group_run_ok r w0 HW Ha log) as Hs.
  rewrite Hr in Hs. by destruct out.
Qed.
End histories.

(** ** A sample server *)

Definition sample_genv : GroupEnv :=
  mkGE elements (fun m => (map_to_list m).*1) (fun m => (map_to_list m).*1) 5000
    (fun n lo hi => lo + (n * 37) mod (hi - lo + 1))
    (fun k => Some (mkPCD (if k =? 1 then "Ann" else if k =? 2 then "Bob" else "Cid") 1 60 false CLASS_WARRIOR))
    (fun _ => ALLIANCE) (fun s => if bool_decide (s = "Cid"%string) then 3 else 0) (fun s => (true, s)) (fun _ _ => None)
    (fun _ _ => true) (fun _ => false) (fun _ _ => true) (fun _ _ => true) (fun _ _ _ => true) (fun _ _ => true)
    (fun _ => Some ITEM_QUALITY_UNCOMMON) (fun _ _ _ => 0) (fun _ _ => 60000)
    (fun _ => true) (fun _ guid => Some (GAMEOBJECT_TYPE_MEETINGSTONE, guid)) true.
#[global] Instance sample_genv_ok : GroupEnvOk sample_genv.
Proof.
  split; try done.
  - intros n lo hi Hl. cbn. pose proof (Z.mod_pos_bound (n * 37) (hi - lo + 1)). lia.
  - intros s. cbn. unfold slen. lia.
Qed.

Definition group_player (guid : Z) (name : string) : Player :=
  mkPlayer guid name ALLIANCE 60 false false false false 0 0 (mkPS guid ∅)
    (mkPState false false false false false false) NoRefs false 0 CLASS_WARRIOR.
Definition named (s : string) : list Z := bytes_of_string s ++ [0].
Definition group_packet (bytes : list Z) : ByteBuffer := mkBB 0 (Z.of_nat (length bytes)) bytes.
Lemma group_packet_arrived bytes :
  forallb (fun x => (0 <=? x) && (x <? 256)) bytes = true -> Z.of_nat (length bytes) <= 65535 ->
  arrived (group_packet bytes).
Proof.
  intros Hb Hl. split; [|exact Hl]. split; unfold size; cbn [_rpos _wpos _storage group_packet]; try lia.
  apply Forall_forall. intros x Hx%list_elem_of_In. rewrite forallb_forall in Hb. apply Hb in Hx. unfold is_u. lia.
Qed.

(** Requests one after the other. *)
Fixpoint group_play (rs : list group_request) (w : GroupWorld) : GroupWorld :=
  match rs with
  | [] => w
  | r :: rs' => group_play rs' (group_run sample_genv r (w, [])).2.1
  end.
Fixpoint group_playable (rs : list group_request) (w : GroupWorld) : Prop :=
  match rs with
  | [] => True
  | r :: rs' => group_allowed r w /\ group_playable rs' (group_run sample_genv r (w, [])).2.1
  end.
Lemma group_play_rtc rs : forall w, group_playable rs w -> rtc (group_step sample_genv) w (group_play rs w).
Proof.
  induction rs as [|r rs IH]; intros w; cbn [group_play group_playable]; [done|]. intros [Ha Hr].
  eapply rtc_l; [|by apply IH].
  destruct (group_run sample_genv r (w, [])) as [out [w' log']] eqn:E. by econstructor.
Qed.

(** Ann invites Bob and Cid, who accept; the party becomes a raid, Bob moves to
    the second subgroup and is made leader; two items are rolled for and Ann
    leaves. *)
Definition send_in (o : group_opcode) (me : Z) (bytes : list Z) : group_request := GClient o me (group_packet bytes).
Definition loot_item_of (itemid : Z) : LootItem := mkLI itemid 0 1 false false false false 0.
Definition group_history : list group_request :=
  [GLogin (group_player 1 "Ann"); GLogin (group_player 2 "Bob"); GLogin (group_player 3 "Cid");
   send_in CMSG_GROUP_INVITE 1 (named "Bob"); send_in CMSG_GROUP_ACCEPT 2 [];
   send_in CMSG_GROUP_INVITE 1 (named "Cid"); send_in CMSG_GROUP_ACCEPT 3 [];
   GLootFilled 9 (mkLoot [loot_item_of 700; loot_item_of 800] 2); GStartGroupLoot 0 77 9;
   send_in CMSG_LOOT_ROLL 1 (le_bytes 8 77 ++ le_bytes 4 0 ++ [1]); send_in CMSG_LOOT_ROLL 2 (le_bytes 8 77 ++ le_bytes 4 0 ++ [1]);
   send_in CMSG_GROUP_RAID_CONVERT 1 []; send_in CMSG_GROUP_CHANGE_SUB_GROUP 1 (named "Bob" ++ [1]);
   send_in CMSG_GROUP_SET_LEADER 1 (le_bytes 8 2); send_in CMSG_GROUP_DISBAND 1 []; GLootTimeout 0 9; GLogout 3 false].

Lemma unrolled_all l w :
  map_Forall (fun _ g => Forall (fun r => r_loot r <> Some l) (RollId g)) (w_heap w) -> unrolled l w.
Proof. intros H a g r Hg Hr. specialize (H a g Hg). rewrite Forall_forall in H. by apply H. Qed.
(** Nobody who waits has a group or an invitation, as a test. *)
Definition waits_freely (w : GroupWorld) (k : Z) : bool :=
  match w_players w !! k with
  | Some p => bool_decide (GetGroup p = None) && bool_decide (GetGroupInvite p = None)
  | None => true
  end.
Lemma waiting_free_all w : forallb (waits_freely w) (sorted_keys (m_QueuedPlayers (w_lfg w))) = true -> waiting_free w.
Proof.
  rewrite forallb_forall. intros H k p Hk Hp. specialize (H k). unfold waits_freely in H. rewrite Hp in H.
  apply elem_of_sorted_keys, list_elem_of_In, H, andb_true_iff in Hk as [H1 H2].
  by apply bool_decide_eq_true in H1, H2.
Qed.
(** Every request of a history is allowed when it comes. *)
Ltac group_requests :=
  cbn [group_playable group_allowed take app group_history send_in];
  repeat match goal with |- _ /\ _ => split end;
  match goal with
  | |- True => exact I
  | |- arrived _ => apply group_packet_arrived; [vm_compute; reflexivity|vm_compute; congruence]
  | |- is_online _ _ => unfold is_online, online; eexists; vm_compute; reflexivity
  | |- group_live _ _ => unfold group_live; eexists; vm_compute; reflexivity
  | |- loot_live _ _ => unfold loot_live; eexists; vm_compute; reflexivity
  | |- waiting_free _ => apply waiting_free_all; vm_compute; reflexivity
  | |- unrolled _ _ => apply unrolled_all, (bool_decide_unpack _); vm_compute; exact I
  | |- _ => vm_compute; congruence
  end.

(** C2. Requests in order that reach the groups of the server from its start
    (the group, loot and meeting stone opcodes with any packets, logins,
    logouts, deleted characters, the update of offline leaders and of the role
    queue, loot that is filled, rolled for, cleared or timed out, and the calls
    of the rest of the server): every one returns or throws a packet exception,
    without a failed assertion, a deleted group, player or loot that is
    followed, or an endless loop, and leaves a world in order.  A request is in
    order by [group_allowed]: sessions have their players, the rest of the
    server names players, groups and loot that are there, loot is filled while
    nobody rolls for it, group ids are below 2^32, and the role queue is updated
    only while nobody who waits in it and is online has a group or an
    invitation; without this last condition the world may get out of order
    ([queued_into_two_groups]).  [Player::SetupHardcoreMode], battlegrounds and
    players between maps are not among the requests. *)
Theorem group_histories env w :
  GroupEnvOk env -> rtc (group_step env) GroupWorld_new w ->
  world_ok w /\ forall r log, group_allowed r w -> settled (group_run env r (w, log)).1.
Proof.
  intros Henv Hw. apply group_history_ok in Hw as HW; [|done]. split; [done|]. intros r log Ha.
  pose proof (group_run_ok env r w HW Ha log) as Hs.
  by destruct (group_run env r (w, log)) as [[] [w' log']].
Qed.


Lemma group_histories_witness :
  world_ok (group_play group_history GroupWorld_new)
  /\ exists g, w_heap (group_play group_history GroupWorld_new) !! 0 = Some g
       /\ m_leaderGuid g = 2 /\ guids (m_memberSlots g) = [2; 3] /\ m_subGroupsCounts g = Some [1; 1; 0; 0; 0; 0; 0; 0].
Proof.
  split.
  - apply (group_histories sample_genv); [apply sample_genv_ok|]. apply group_play_rtc. group_requests.
  - eexists. split; [vm_compute; reflexivity|]. by vm_compute.
Defined.

(** Ann, Bob and Cid are in a party; two of them have voted on the first of two
    items. *)
Definition party_world : GroupWorld := group_play (take 7 group_history) GroupWorld_new.
Definition rolls_world : GroupWorld := group_play (take 11 group_history) GroupWorld_new.
Definition group_of (w : GroupWorld) : Group := default Group_new (w_heap w !! 0).
Definition player_of (k : Z) (w : GroupWorld) : Player := default (group_player 0 "") (w_players w !! k).
Lemma party_reached : rtc (group_step sample_genv) GroupWorld_new party_world.
Proof. apply group_play_rtc. group_requests. Qed.
Lemma rolls_reached : rtc (group_step sample_genv) GroupWorld_new rolls_world.
Proof. apply group_play_rtc. group_requests. Qed.
Lemma party_group : w_heap party_world !! 0 = Some (group_of party_world).
Proof. vm_compute. reflexivity. Qed.
Lemma rolls_group : w_heap rolls_world !! 0 = Some (group_of rolls_world).
Proof. vm_compute. reflexivity. Qed.

(** ** Membership in the words of the program *)

Lemma view_slot w a g k : w_heap w !! a = Some g ->
  v_heap (view w) !! a = Some (core g) /\ member_slot k g = slot_in k (c_slots (core g)).
Proof. intros Hg. split; [by apply view_group|done]. Qed.



(** The number of members of a subgroup. *)
Definition subgroup_size (g : Group) (i : Z) : Z :=
  Z.of_nat (length (filter (fun m => ms_group m = i) (m_memberSlots g))).

(** C4. After any history of requests in order ([group_allowed]: above all, the
    role queue is updated only while nobody who waits in it and is online has a
    group or an invitation; [Player::SetupHardcoreMode], which may leave an
    empty group behind, is no request) a registered group is complete: it has
    between two members and its capacity (five, or forty for a raid), no member
    twice, a leader who is one of them and is the leader of its one row of
    [groups]; the counters of a raid are the exact sizes of its eight subgroups,
    none of which has more than five members, and in a party everybody is in
    the first subgroup and no counters are kept. *)
Theorem group_registry env w id a :
  GroupEnvOk env -> rtc (group_step env) GroupWorld_new w -> m_GroupMap w !! id = Some a ->
  exists g r, w_heap w !! a = Some g /\ m_Id g = id
    /\ (2 <= length (m_memberSlots g))%nat
    /\ Z.of_nat (length (m_memberSlots g)) <= (if isRaidGroup g then MAX_RAID_SIZE else MAX_GROUP_SIZE)
    /\ NoDup (ms_guid <$> m_memberSlots g) /\ IsMember (m_leaderGuid g) g = true
    /\ t_groups w !! id = Some r /\ gr_leaderGuid r = m_leaderGuid g /\ gr_isRaid r = isRaidGroup g
    /\ match m_subGroupsCounts g with
       | Some n => isRaidGroup g = true /\ n = subgroup_size g <$> seqZ 0 8 /\ Forall (fun x => x <= MAX_GROUP_SIZE) n
       | None => isRaidGroup g = false /\ Forall (fun m => ms_group m = 0) (m_memberSlots g)
       end.
Proof.
  intros Henv [HI _]%group_history_ok Hreg; [|done]. pose proof HI as [HB _].
  destruct (registered _ id a HI Hreg) as (c & Hc & H2 & HL & Hrow & Hreg'). destruct (b_reg _ HB id a Hreg) as (c' & Hc' & Hid & _).
  rewrite Hc in Hc'. injection Hc' as <-. destruct (inv_at _ a c HI Hc) as [_ [(Hs & _)|(_ & _ & Hlead & _)]]; [rewrite Hs in H2; cbn in H2; lia|].
  destruct (group_view w a c Hc) as (g & Hg & <-). pose proof (b_wf _ HB a _ Hc) as [G1 _ _ G4 _ _ _].
  rewrite Hid in Hrow. cbn in Hrow, Hid. rewrite lookup_fmap in Hrow. apply fmap_Some in Hrow as (r & Hr & Hgr).
  unfold grow in Hgr. injection Hgr as E1 E2. pose proof (l_counts _ _ _ HL) as HC. unfold counts_ok in HC. cbn in HC.
  assert (Hraid : isRaidGroup g = negb (m_groupType g =? GROUPTYPE_NORMAL)).
  { unfold isRaidGroup. destruct (m_subGroupsCounts g); destruct HC as [-> _]; done. }
  exists g, r. split_and!; try done.
  - unfold capacity in G4. cbn [core c_type c_slots] in G4. rewrite Hraid. by destruct (m_groupType g =? GROUPTYPE_NORMAL).
  - apply bool_decide_eq_true. by apply slot_in_is_Some.
  - unfold isRaidGroup. destruct (m_subGroupsCounts g); [destruct HC as (-> & -> & ?); by split_and!|by destruct HC as [-> ?]].
Qed.

Lemma group_registry_witness :
  m_GroupMap party_world !! 1 = Some 0
  /\ exists g r, w_heap party_world !! 0 = Some g /\ IsMember (m_leaderGuid g) g = true
       /\ t_groups party_world !! 1 = Some r /\ gr_leaderGuid r = m_leaderGuid g.
Proof.
  split; [vm_compute; reflexivity|].
  destruct (group_registry sample_genv party_world 1 0) as (g & r & H1 & _ & _ & _ & _ & H2 & H3 & H4 & _);
    [apply sample_genv_ok|apply party_reached|vm_compute; reflexivity|]. exists g, r; repeat split; assumption.
Defined.
