(* ===== verification/GroupRules.v ===== *)
(** * GroupRules: who gets what

    The winner of a roll, the end of the rolls on a loot, the successor of a
    leader, the target icons and the round robin of looters. *)

From stdpp Require Import gmap fin_maps strings relations.
From S2P Require Import Prelude ByteBuffer Codec ObjectGuid Packets Effects Incoming Social.
From S2P Require Import GroupData GroupRolls GroupLists LFG Group GroupRaid GroupHandlers MeetingStones GroupLife GroupInv GroupCalm GroupVotes GroupMoves GroupOps GroupMembers GroupEnds GroupSteps GroupServe GroupOrders GroupLives GroupQueue GroupHistory GroupProps.

Local Open Scope prog_scope.

(** A program that cannot throw returns. *)
Lemma wp_returns {A} (m : GM A) Q w log : wp (fun _ => False) m Q w ->
  exists a w' log', m (w, log) = (Ok a, (w', log')) /\ Q a w'.
Proof.
  intros H. specialize (H log). destruct (m (w, log)) as [[a|e| | |] [w' log']]; try done. by exists a, w', log'.
Qed.

(** ** The winner of a roll *)

Lemma w_set_draws_id w : w_set_draws (w_draws w) w = w.
Proof. by destruct w. Qed.

Section winners.
Context (env : GroupEnv) `{!GroupEnvOk env}.

Hint Resolve logs_roll logs_won logs_passed : logs.

Lemma contest_wp X kind r voters start w (Q : Z * Z -> GroupWorld -> Prop) :
  0 <= start.2 <= 100 ->
  (forall best n, best_so_far env (w_draws w) (contenders kind r voters) start best -> Q best (w_set_draws n w)) ->
  wp X (contest env kind r voters start.1 start.2) Q w.
Proof.
  revert start w Q. induction voters as [|k voters IH]; intros [mg mr] w Q H0 HQ; cbn [contest fst snd] in *.
  - apply wp_ret. rewrite <- (w_set_draws_id w). apply HQ. left. split; [done|]. by intros i k' Hi.
  - unfold contenders in HQ. rewrite filter_cons in HQ. destruct (decide (playerVote r !! k = Some kind)) as [He|He].
    + rewrite bool_decide_eq_true_2 by done. pose proof (number_range env (w_draws w) 0) as Hr.
      assert (Hu : urand env (w_draws w) 1 100 = number env (w_draws w) 0) by (unfold number; f_equal; lia).
      unfold draw. apply wp_bind, wp_bind, wp_look. apply wp_bind, wp_alter_world. apply wp_ret.
      rewrite Hu, (wrap_small 8) by (unfold is_u; lia). apply wp_bind, wp_logs; [auto with logs|]. intros _.
      assert (HQ' : forall best n, best_so_far env (w_draws w + 1) (contenders kind r voters)
        (if mr <? number env (w_draws w) 0 then (k, number env (w_draws w) 0) else (mg, mr)) best -> Q best (w_set_draws n w)).
      { intros best n Hb. apply HQ. by apply best_so_far_cons. }
      destruct (mr <? number env (w_draws w) 0) eqn:E;
        [apply (IH (k, number env (w_draws w) 0))|apply (IH (mg, mr))]; cbn [fst snd]; try lia; intros best n Hb; by apply HQ'.
    + rewrite bool_decide_eq_false_2 by done. by apply (IH (mg, mr)).
Qed.

(** The number of the winner is the highest of those who voted alike, and the
    first of them. *)
Definition wins (n : Z) (ks : list Z) (k : Z) : Prop := exists i, ks !! i = Some k
  /\ (forall j, (j < length ks)%nat -> number env n j <= number env n i)
  /\ forall j, (j < i)%nat -> number env n j < number env n i.
Lemma best_wins n ks k0 best : ks <> [] -> best_so_far env n ks (k0, 0) best -> wins n ks best.1.
Proof.
  intros Hne [[_ H]|(i & k & Hi & -> & _ & Hmax & Hfirst)].
  - destruct ks as [|k ks]; [done|]. specialize (H 0%nat k eq_refl). pose proof (number_range env n 0). cbn in H. lia.
  - exists i. split_and!; [done| |done]. intros j [k' Hj]%lookup_lt_is_Some_2. by eapply Hmax.
Qed.

(** The loot after the item of [r] goes to [k]: one who is there gets it or,
    when it cannot be stored, may still take it; for one who is away a needed
    item is kept. *)
Definition prize (kind : Z) (w : GroupWorld) (r : Roll) (k : Z) (x : Loot) : Loot :=
  let change f := alter f (Z.to_nat (itemSlot r)) (items x) in
  let count := from_option li_count 0 (items x !! Z.to_nat (itemSlot r)) in
  match GetPlayer k w with
  | Some _ =>
      if CanStoreNewItem env k (r_itemid r) count =? 0
      then mkLoot (change (fun i => li_set true (is_blocked i) (is_underthreshold i) (lootOwner i) i)) (u8 (unlootedCount x - 1))
      else mkLoot (change (fun i => li_set (is_looted i) false (is_underthreshold i) k i)) (unlootedCount x)
  | None =>
      if kind =? ROLL_NEED
      then mkLoot (change (fun i => li_set (is_looted i) (is_blocked i) (is_underthreshold i) k i)) (unlootedCount x)
      else x
  end.

Lemma wp_item_at X l s x i w (Q : LootItem -> GroupWorld -> Prop) :
  w_loots w !! l = Some x -> items x !! Z.to_nat s = Some i -> Q i w -> wp X (item_at l s) Q w.
Proof.
  intros Hx Hi HQ. unfold item_at, loot_at. apply wp_bind, wp_bind, wp_look. apply (wp_deref X _ x); [done|].
  by apply (wp_deref X _ i).
Qed.
Lemma wp_item_mod X l s x i f w (Q : unit -> GroupWorld -> Prop) :
  w_loots w !! l = Some x -> items x !! Z.to_nat s = Some i ->
  Q tt (w_set_loots (<[l := mkLoot (alter f (Z.to_nat s) (items x)) (unlootedCount x)]> (w_loots w)) w) ->
  wp X (item_mod l s f) Q w.
Proof.
  intros Hx Hi HQ. unfold item_mod. apply wp_bind, (wp_item_at X l s x i); [done..|]. apply wp_alter_world.
  by rewrite (alter_is_insert _ _ _ x).
Qed.
Lemma award_wp X k r l x i w (Q : unit -> GroupWorld -> Prop) :
  w_loots w !! l = Some x -> items x !! Z.to_nat (itemSlot r) = Some i -> is_Some (GetPlayer k w) ->
  Q tt (w_set_loots (<[l := prize ROLL_NEED w r k x]> (w_loots w)) w) -> wp X (award env k r l) Q w.
Proof.
  intros Hx Hi [p Hp] HQ. unfold award, prize in *. rewrite Hp, Hi in HQ. cbn [from_option] in HQ.
  apply wp_bind, (wp_item_at X l _ x i); [done..|]. destruct (_ =? 0).
  - apply wp_bind, (wp_item_mod X l _ x i); [done..|]. apply wp_bind, wp_logs; [apply logs_call|]. intros _.
    apply wp_bind, wp_alter_world, wp_logs; [apply logs_call|]. intros []. cbn.
    erewrite alter_is_insert by apply lookup_insert_eq. by rewrite insert_insert_eq.
  - apply wp_bind, (wp_item_mod X l _ x i); [done..|]. apply wp_logs; [apply logs_call|]. by intros [].
Qed.
(** The kind of vote that decides: need before greed. *)
Definition deciding (r : Roll) : Z := if totalNeed r >? 0 then ROLL_NEED else ROLL_GREED.

Lemma resolve_wp X r l x i w (Q : unit -> GroupWorld -> Prop) :
  r_loot r = Some l -> w_loots w !! l = Some x -> items x !! Z.to_nat (itemSlot r) = Some i ->
  totalNeed r > 0 \/ totalGreed r > 0 ->
  contenders (deciding r) r (vote_order env (playerVote r)) <> [] ->
  (forall k n, wins (w_draws w) (contenders (deciding r) r (vote_order env (playerVote r))) k ->
     Q tt (w_set_loots (<[l := prize (deciding r) w r k x]> (w_loots w)) (w_set_draws n w))) ->
  wp X (resolve env r) Q w.
Proof.
  intros Hl Hx Hi Ht Hne HQ. unfold resolve, deciding in *.
  assert (Hv : exists first rest, vote_order env (playerVote r) = first :: rest).
  { destruct (vote_order env (playerVote r)) as [|k ks]; [done|eauto]. }
  destruct Hv as (first & rest & Hv). rewrite Hv in *.
  destruct (Z.gtb_spec (totalNeed r) 0) as [|]; [|destruct (Z.gtb_spec (totalGreed r) 0) as [|]; [|lia]].
  - apply wp_bind, (contest_wp X ROLL_NEED r _ (first, 0)); [cbn; lia|]. intros best n Hb%best_wins; [|done].
    specialize (HQ best.1 n Hb). apply wp_bind, wp_logs; [auto with logs|]. intros _. apply wp_bind, wp_look.
    apply wp_bind. unfold getLoot. apply (wp_deref X _ l); [done|]. apply wp_bind, (wp_item_at X l _ x i); [done..|].
    change (GetPlayer best.1 (w_set_draws n w)) with (GetPlayer best.1 w). destruct (GetPlayer best.1 w) eqn:E.
    + by apply (award_wp X _ r l x i).
    + apply (wp_item_mod X l _ x i); [done..|]. unfold prize in HQ. by rewrite E in HQ.
  - apply wp_bind, (contest_wp X ROLL_GREED r _ (first, 0)); [cbn; lia|]. intros best n Hb%best_wins; [|done].
    specialize (HQ best.1 n Hb). apply wp_bind, wp_logs; [auto with logs|]. intros _. apply wp_bind, wp_look.
    change (GetPlayer best.1 (w_set_draws n w)) with (GetPlayer best.1 w). unfold prize in HQ. destruct (GetPlayer best.1 w) eqn:E.
    + apply wp_bind. unfold getLoot. apply (wp_deref X _ l); [done|]. apply (award_wp X _ r l x i); [done..|].
      unfold prize. change (GetPlayer best.1 (w_set_draws n w)) with (GetPlayer best.1 w). by rewrite E.
    + apply wp_ret. cbn in HQ. by rewrite insert_id in HQ.
Qed.
End winners.

(** C15. A roll on an item that is there, in which somebody cast the vote that
    decides (need, if the counter of needs is positive, else greed, if that of
    greeds is), ends with one winner: among those who cast that vote the one
    with the highest of the numbers they draw, the first of them in the order
    of the votes when numbers are equal.  A winner who is online gets the item,
    or, when he has no room, may still take it; for one who is offline a needed
    item is kept, and a greeded item is left as it was.
    Nothing else of any loot changes, and the roll is taken off the list of the
    group. *)
Theorem roll_winner env a g i r l x item w log :
  GroupEnvOk env -> w_heap w !! a = Some g -> RollId g !! i = Some r -> r_loot r = Some l ->
  w_loots w !! l = Some x -> items x !! Z.to_nat (itemSlot r) = Some item ->
  totalNeed r > 0 \/ totalGreed r > 0 ->
  contenders (deciding r) r (vote_order env (playerVote r)) <> [] ->
  exists k w' log', CountTheRoll env a i (w, log) = (Ok tt, (w', log'))
    /\ wins env (w_draws w) (contenders (deciding r) r (vote_order env (playerVote r))) k
    /\ w_loots w' = <[l := prize env (deciding r) w r k x]> (w_loots w)
    /\ (deciding r = ROLL_GREED -> GetPlayer k w = None -> w_loots w' = w_loots w)
    /\ w_heap w' = <[a := set_rolls (delete i (RollId g)) g]> (w_heap w) /\ w_players w' = w_players w.
Proof.
  intros Henv Hg Hi Hl Hx Hit Ht Hne.
  destruct (wp_returns (CountTheRoll env a i) (fun _ w' => exists k,
      wins env (w_draws w) (contenders (deciding r) r (vote_order env (playerVote r))) k
      /\ w_loots w' = <[l := prize env (deciding r) w r k x]> (w_loots w)
      /\ w_heap w' = <[a := set_rolls (delete i (RollId g)) g]> (w_heap w) /\ w_players w' = w_players w) w log)
    as ([] & w' & log' & Hrun & k & H1 & H2 & H3 & H4); cycle 1.
  { exists k, w', log'. split_and!; [done..| |done|done]. intros Hd Hk. rewrite H2. unfold prize. rewrite Hk, Hd. by apply insert_id. }
  rewrite CountTheRoll_resolve. unfold roll_at. apply wp_bind, wp_bind, (wp_group_at _ a g); [done|].
  apply (wp_deref _ _ r); [done|]. unfold isValid. rewrite Hl. cbn [negb bool_decide].
  apply wp_bind, (resolve_wp env _ r l x item); [done..|]. intros k n Hk.
  unfold erase_roll. apply (wp_group_mod _ a _ g); [done|]. exists k. by split_and!.
Qed.

Definition sample_roll : Roll := default (Roll_new 0 0 0) (RollId (group_of rolls_world) !! 0%nat).
Definition sample_loot : Loot := default (mkLoot [] 0) (w_loots rolls_world !! 9).
Lemma roll_winner_witness : exists k w' log',
  CountTheRoll sample_genv 0 0 (rolls_world, []) = (Ok tt, (w', log'))
  /\ wins sample_genv (w_draws rolls_world) [2; 1] k
  /\ w_loots w' = <[9 := prize sample_genv ROLL_NEED rolls_world sample_roll k sample_loot]> (w_loots rolls_world).
Proof.
  destruct (roll_winner sample_genv 0 (group_of rolls_world) 0 sample_roll 9 sample_loot (mkLI 700 0 1 false true false false 0) rolls_world [])
    as (k & w' & log' & H1 & H2 & H3 & _); [apply sample_genv_ok|apply rolls_group|vm_compute; reflexivity..|
      left; vm_compute; reflexivity|vm_compute; discriminate|].
  exists k, w', log'; repeat split; assumption.
Defined.

(** ** Rolls that end, votes that are taken back *)

Lemma rolling_at w a g : aside_ok w -> w_heap w !! a = Some g -> rolling (view w) a (RollId g) w.
Proof. intros Hr Hg. split_and!; [done..|by exists g]. Qed.

(** C16. When the timer of a loot runs out, [EndRoll], which starts its scan
    again after every roll it ends, comes to an end: it returns with exactly the
    rolls on other loot left, in their order, and nobody's membership, leader or
    invitation has changed. *)
Theorem EndRoll_terminates env a l g w log :
  GroupEnvOk env -> aside_ok w -> w_heap w !! a = Some g ->
  exists w' log' g', EndRoll env a l (w, log) = (Ok tt, (w', log')) /\ w_heap w' !! a = Some g'
    /\ RollId g' = filter (fun r => r_loot r <> Some l) (RollId g) /\ view w' = view w /\ aside_ok w'.
Proof.
  intros Henv Hr Hg. destruct (wp_returns (EndRoll env a l) _ w log (EndRoll_wp env _ (view w) a l _ w (rolling_at w a g Hr Hg)))
    as ([] & w' & log' & Hrun & HV & Hr' & g' & Hg' & Hl). by exists w', log', g'.
Qed.

Lemma EndRoll_terminates_witness : exists w' log' g',
  EndRoll sample_genv 0 9 (rolls_world, []) = (Ok tt, (w', log')) /\ w_heap w' !! 0 = Some g' /\ RollId g' = [].
Proof.
  destruct (EndRoll_terminates sample_genv 0 9 (group_of rolls_world) rolls_world []) as (w' & log' & g' & H1 & H2 & H3 & _);
    [apply sample_genv_ok|apply (group_history_ok sample_genv), rolls_reached|apply rolls_group|]. exists w', log', g'; repeat split; assumption.
Defined.

(** C25. The loop of [_removeRolls] over the list it changes is the same as
    taking back the vote of the player who leaves on every roll, once: it
    returns, no roll is lost or ended by it, and no roll knows him any more. *)
Theorem removeRolls_refined env a k g w log :
  GroupEnvOk env -> aside_ok w -> w_heap w !! a = Some g ->
  exists w' log' g', _removeRolls env a k (w, log) = (Ok tt, (w', log')) /\ w_heap w' !! a = Some g'
    /\ RollId g' = drop_vote k <$> RollId g /\ Forall (fun r => playerVote r !! k = None) (RollId g') /\ view w' = view w.
Proof.
  intros Henv Hr Hg. destruct (wp_returns (_removeRolls env a k) _ w log (_removeRolls_wp env _ (view w) a k _ w (rolling_at w a g Hr Hg)))
    as ([] & w' & log' & Hrun & HV & _ & g' & Hg' & Hl). exists w', log', g'. split_and!; try done.
  rewrite Hl. apply Forall_fmap, Forall_true. intros r. apply drop_vote_gone.
Qed.

Lemma removeRolls_refined_witness : exists w' log' g',
  _removeRolls sample_genv 0 2 (rolls_world, []) = (Ok tt, (w', log')) /\ w_heap w' !! 0 = Some g'
  /\ (totalNeed <$> RollId g') = [1; 0] /\ Forall (fun r => playerVote r !! 2 = None) (RollId g').
Proof.
  destruct (removeRolls_refined sample_genv 0 2 (group_of rolls_world) rolls_world []) as (w' & log' & g' & H1 & H2 & H3 & H4 & _);
    [apply sample_genv_ok|apply (group_history_ok sample_genv), rolls_reached|apply rolls_group|].
  exists w', log', g'. split_and!; [done|done|by rewrite H3|done].
Defined.

(** ** The successor of a leader *)

(** A member who is there and follows this group. *)
Definition available (w : GroupWorld) (a leader : Z) (m : MemberSlot) : Prop :=
  ms_guid m <> leader /\ (GetPlayer (ms_guid m) w ≫= GetGroup) = Some a.
#[global] Instance available_dec w a leader m : Decision (available w a leader m) := _.
(** The first assistant of a raid, or the first member of a party, who is
    available; otherwise the first who is available. *)
Definition successor (w : GroupWorld) (a leader : Z) (raid : bool) (l : list MemberSlot) : option Z :=
  match list_find (fun m => available w a leader m /\ (raid = true -> ms_assistant m = true)) l with
  | Some (_, m) => Some (ms_guid m)
  | None => ms_guid ∘ snd <$> list_find (available w a leader) l
  end.

Lemma scan_leader_successor w a leader raid l first :
  Forall (fun m => ms_guid m <> 0) l ->
  (let '(chosen, f) := scan_leader w a leader raid l first in if chosen =? 0 then f else chosen)
  = match list_find (fun m => available w a leader m /\ (raid = true -> ms_assistant m = true)) l with
    | Some (_, m) => ms_guid m
    | None => if first =? 0 then default 0 (ms_guid ∘ snd <$> list_find (available w a leader) l) else first
    end.
Proof.
  intros Hn. revert first. induction Hn as [|m l Hm _ IH]; intros first; cbn [scan_leader list_find].
  { by destruct (Z.eqb_spec first 0) as [->|]. }
  assert (Hskip : ~ available w a leader m ->
    (let '(chosen, f) := scan_leader w a leader raid l first in if chosen =? 0 then f else chosen)
    = match (if decide (available w a leader m /\ (raid = true -> ms_assistant m = true)) then Some (0%nat, m)
             else prod_map S id <$> list_find (fun m => available w a leader m /\ (raid = true -> ms_assistant m = true)) l) with
      | Some (_, m) => ms_guid m
      | None => if first =? 0 then default 0 (ms_guid ∘ snd <$> (if decide (available w a leader m) then Some (0%nat, m)
          else prod_map S id <$> list_find (available w a leader) l)) else first
      end).
  { intros Hna. rewrite decide_False by tauto. rewrite (decide_False (P := available w a leader m)) by done. rewrite IH.
    destruct (list_find _ l) as [[? ?]|]; [done|]. by destruct (list_find (available w a leader) l) as [[? ?]|]. }
  destruct (Z.eqb_spec (ms_guid m) leader) as [E|E]; [apply Hskip; by intros []|].
  destruct (GetPlayer (ms_guid m) w) as [p|] eqn:Ep; [|apply Hskip; intros [_ H]; by rewrite Ep in H].
  case_bool_decide as Hg; [|apply Hskip; intros [_ H]; by rewrite Ep in H].
  assert (Ha : available w a leader m) by (split; [done|by rewrite Ep]). clear Hskip.
  rewrite (decide_True (P := available w a leader m)) by done. destruct (raid && negb (ms_assistant m)) eqn:Er.
  - rewrite decide_False by (intros [_ H]; destruct raid, (ms_assistant m); try done; by discriminate H). rewrite IH.
    destruct (list_find _ l) as [[? ?]|]; [done|]. cbn. destruct (Z.eqb_spec first 0); [|by rewrite (proj2 (Z.eqb_neq first 0))].
    by rewrite (proj2 (Z.eqb_neq _ 0)).
  - rewrite decide_True by (split; [done|]; intros ->; by destruct (ms_assistant m)). by rewrite (proj2 (Z.eqb_neq _ 0)).
Qed.

(** C27. The two passes of [_chooseLeader] choose as the plain rule says: when
    the leader is offline, leadership goes to the first assistant (of a raid)
    or member (of a party) who is there, otherwise to the first member who is
    there, otherwise it stays; when the leader leaves, the same, but with
    nobody there the first slot leads. *)
Theorem chooseLeader_rule env a offline g front rest w log :
  w_heap w !! a = Some g -> m_memberSlots g = front :: rest -> GetMembersMinCount g <= GetMembersCount g ->
  Forall (fun m => ms_guid m <> 0) (m_memberSlots g) ->
  _chooseLeader env a offline (w, log)
  = match successor w a (m_leaderGuid g) (isRaidGroup g) (m_memberSlots g) with
    | Some k => if offline then ChangeLeader env a k else _setLeader env a k
    | None => if offline then st_ret tt else _setLeader env a (ms_guid front)
    end (w, log).
Proof.
  intros Hg Hs Hc Hn. pose proof (scan_leader_successor w a (m_leaderGuid g) (isRaidGroup g) (m_memberSlots g) 0 Hn) as Hscan.
  assert (Hsucc : default 0 (successor w a (m_leaderGuid g) (isRaidGroup g) (m_memberSlots g))
    = (let '(chosen, f) := scan_leader w a (m_leaderGuid g) (isRaidGroup g) (m_memberSlots g) 0 in if chosen =? 0 then f else chosen)).
  { rewrite Hscan. unfold successor. by destruct (list_find _ _) as [[? ?]|]. }
  assert (Hnz : forall k, successor w a (m_leaderGuid g) (isRaidGroup g) (m_memberSlots g) = Some k -> k <> 0).
  { rewrite Forall_forall in Hn. unfold successor. intros k. destruct (list_find _ _) as [[i m]|] eqn:E.
    - intros [= <-]. apply Hn. apply list_find_Some in E as [E _]. by eapply list_elem_of_lookup_2.
    - intros ([j m] & E' & ->)%fmap_Some. apply Hn. apply list_find_Some in E' as [E' _]. by eapply list_elem_of_lookup_2. }
  unfold _chooseLeader, group_at, look, st_bind, st_get, st_ret. cbn [fst snd]. rewrite Hg. cbn [deref].
  unfold st_ret. rewrite (proj2 (Z.ltb_ge _ _)) by done. cbn [id].
  destruct (scan_leader _ _ _ _ _ _) as [chosen first]. rewrite <- Hsucc, Hs. cbn [head deref]. rewrite <- Hs.
  destruct (successor _ _ _ _ _) as [k|]; cbn [default].
  - specialize (Hnz k eq_refl). unfold id. rewrite (proj2 (Z.eqb_neq k 0)) by done. rewrite andb_false_r. unfold st_ret.
    by destruct offline.
  - destruct offline; [done|]. unfold st_ret. done.
Qed.

Lemma chooseLeader_rule_witness :
  successor party_world 0 (m_leaderGuid (group_of party_world)) (isRaidGroup (group_of party_world)) (m_memberSlots (group_of party_world)) = Some 2
  /\ _chooseLeader sample_genv 0 true (party_world, []) = ChangeLeader sample_genv 0 2 (party_world, []).
Proof.
  assert (Hs : successor party_world 0 (m_leaderGuid (group_of party_world)) (isRaidGroup (group_of party_world))
    (m_memberSlots (group_of party_world)) = Some 2) by (vm_compute; reflexivity).
  split; [exact Hs|].
  pose proof (chooseLeader_rule sample_genv 0 true (group_of party_world) (mkMS 1 "Ann" 0 false)
    [mkMS 2 "Bob" 0 false; mkMS 3 "Cid" 0 false] party_world [] party_group) as H.
  rewrite Hs in H. apply H; [vm_compute; reflexivity|vm_compute; discriminate|apply (bool_decide_unpack _); vm_compute; exact I].
Defined.

(** ** Target icons *)

(** Icons with [id] given to [t], which loses the others it has. *)
Definition marked (id t : Z) (l : list Z) : list Z :=
  <[Z.to_nat id := t]> (if t =? 0 then l else (fun x => if x =? t then 0 else x) <$> l).
(** No target has two icons. *)
Definition one_icon (l : list Z) : Prop := forall i j t, l !! i = Some t -> l !! j = Some t -> t <> 0 -> i = j.

Lemma marked_one id t l : one_icon l -> one_icon (marked id t l).
Proof.
  intros Hl i j u. unfold marked. set (l0 := if t =? 0 then l else _).
  assert (Hl0 : one_icon l0 /\ (t <> 0 -> t ∉ l0)).
  { unfold l0. destruct (Z.eqb_spec t 0) as [|Ht]; [done|]. split.
    - intros n m v. rewrite !list_lookup_fmap. intros (x & Hx & ->)%fmap_Some (y & Hy & E)%fmap_Some Hv.
      destruct (Z.eqb_spec x t); [done|]. destruct (Z.eqb_spec y t); [congruence|]. subst y. by eapply Hl.
    - intros _ (x & E & _)%list_elem_of_fmap. destruct (Z.eqb_spec x t); congruence. }
  destruct Hl0 as [Hone Hno]. intros Hi Hj Hu.
  apply list_lookup_insert_Some in Hi as [(<- & <- & _)|(Hni & Hi)]; apply list_lookup_insert_Some in Hj as [(E & E' & _)|(Hnj & Hj)].
  - done.
  - destruct (Hno Hu). by eapply list_elem_of_lookup_2.
  - subst. destruct (Hno Hu). by eapply list_elem_of_lookup_2.
  - by eapply Hone.
Qed.

Section icons.
Context (X : GroupWorld -> Prop).

Lemma wp_each_same {A} (f : A -> GM unit) l w (Q : unit -> GroupWorld -> Prop) :
  (forall x (R : unit -> GroupWorld -> Prop), x ∈ l -> R tt w -> wp X (f x) R w) -> Q tt w -> wp X (each f l) Q w.
Proof.
  intros Hf HQ. induction l as [|x l IH]; cbn [each]; [by apply wp_ret|]. apply wp_bind, Hf; [by left|].
  apply IH. intros y R Hy. apply Hf. by right.
Qed.
(** Everybody in the chain of the group is online. *)
Definition chain_online (g : Group) (w : GroupWorld) : Prop :=
  forall e, e ∈ m_memberMgr g -> is_Some (w_players w !! e.1).
Lemma broadcast_wp a g packet b gr ig w (Q : unit -> GroupWorld -> Prop) :
  w_heap w !! a = Some g -> chain_online g w -> sendable packet -> Q tt w -> wp X (BroadcastPacket a packet b gr ig) Q w.
Proof.
  intros Hg Hon [p Hp] HQ. unfold BroadcastPacket, GetMembers. apply wp_bind, wp_logs; [by eapply logs_made|]. intros data.
  apply wp_bind, wp_bind, (wp_group_at X a g); [done|]. apply wp_ret. apply wp_each_same; [|done]. intros [k o] R He HR.
  destruct (Hon (k, o) He) as [q Hq]. apply wp_bind, (wp_player_at X k q); [done|].
  repeat case_match; try (by apply wp_ret); apply wp_logs; [apply logs_ev|by intros []].
Qed.
Lemma put_icon_wp a g i t w (Q : unit -> GroupWorld -> Prop) :
  w_heap w !! a = Some g -> chain_online g w ->
  Q tt (put_g a (set_targetIcons (<[Z.to_nat i := t]> (m_targetIcons g)) g) w) -> wp X (put_icon a i t) Q w.
Proof.
  intros Hg Hon HQ. unfold put_icon. apply wp_bind, (wp_group_mod X a _ g); [done|].
  eapply broadcast_wp; [cbn; by rewrite lookup_insert_eq|done| |done]. unfold IconPacket.
  eapply sendable_fits; [auto 10 with packets|lia].
Qed.
(** What the loop has cleaned once it is at index [i]. *)
Definition cleaned (t : Z) (i : nat) (l : list Z) : list Z := ((fun x => if x =? t then 0 else x) <$> take i l) ++ drop i l.
Lemma cleaned_step t i l x : l !! i = Some x ->
  cleaned t i l !! i = Some x /\ (if x =? t then <[i := 0]> (cleaned t i l) else cleaned t i l) = cleaned t (S i) l.
Proof.
  intros Hx. pose proof (lookup_lt_Some _ _ _ Hx) as Hlt. unfold cleaned.
  assert (Hlen : length ((fun x => if x =? t then 0 else x) <$> take i l) = i) by (rewrite length_fmap, length_take; lia).
  rewrite (drop_S l x i Hx), (take_S_r l i x Hx), fmap_app, <- app_assoc. cbn [fmap list_fmap app]. split.
  - by rewrite list_lookup_middle.
  - destruct (x =? t); [|done]. rewrite insert_app_r_alt by lia. by rewrite Hlen, Nat.sub_diag.
Qed.
Lemma clean_icons_wp a g n i t w (Q : unit -> GroupWorld -> Prop) :
  length (m_targetIcons g) = (i + n)%nat ->
  w_heap w !! a = Some (set_targetIcons (cleaned t i (m_targetIcons g)) g) -> chain_online g w ->
  Q tt (put_g a (set_targetIcons ((fun x => if x =? t then 0 else x) <$> m_targetIcons g) g) w) ->
  wp X (clean_icons n a (Z.of_nat i) t) Q w.
Proof.
  revert i w Q. induction n as [|n IH]; intros i w Q Hl Hg Hon HQ; cbn [clean_icons].
  - apply wp_ret. assert (E : cleaned t i (m_targetIcons g) = (fun x => if x =? t then 0 else x) <$> m_targetIcons g).
    { unfold cleaned. rewrite take_ge, drop_ge by lia. apply app_nil_r. }
    rewrite E in Hg. unfold put_g in HQ. rewrite insert_id in HQ by done. by destruct w.
  - destruct (lookup_lt_is_Some_2 (m_targetIcons g) i) as [x Hx]; [lia|]. destruct (cleaned_step t i _ x Hx) as [Hc Hs].
    apply wp_bind. eapply wp_group_at; [exact Hg|]. cbn [m_targetIcons set_targetIcons]. rewrite Nat2Z.id.
    apply wp_bind, (wp_deref X _ x); [done|]. apply wp_bind.
    replace (Z.of_nat i + 1) with (Z.of_nat (S i)) by lia. destruct (x =? t).
    + eapply put_icon_wp; [exact Hg|exact Hon|]. cbn [m_targetIcons set_targetIcons]. rewrite Nat2Z.id, Hs.
      apply IH; [lia|by cbn; rewrite lookup_insert_eq|done|]. unfold put_g in *. cbn in *. by rewrite insert_insert_eq.
    + apply wp_ret. apply IH; [lia|by rewrite <- Hs|done|done].
Qed.
Lemma SetTargetIcon_wp a g i t w (Q : unit -> GroupWorld -> Prop) :
  0 <= i < 8 -> length (m_targetIcons g) = 8%nat -> w_heap w !! a = Some g -> chain_online g w ->
  Q tt (put_g a (set_targetIcons (marked i t (m_targetIcons g)) g) w) -> wp X (SetTargetIcon a i t) Q w.
Proof.
  intros Hi Hl Hg Hon HQ. unfold SetTargetIcon, marked in *. destruct (Z.geb_spec i TARGET_ICON_COUNT) as [H8|_];
    [change TARGET_ICON_COUNT with 8 in H8; lia|]. apply wp_bind. destruct (t =? 0).
  - apply wp_ret. by eapply put_icon_wp.
  - apply (clean_icons_wp a g 8 0); [done| |done|].
    + unfold cleaned. cbn. rewrite Hg. by destruct g.
    + eapply put_icon_wp; [cbn; by rewrite lookup_insert_eq|exact Hon|]. unfold put_g in *. cbn in *. by rewrite insert_insert_eq.
Qed.
End icons.

(** After any history, setting target icon [id] of a group gives it to the
    target and takes every other icon of the target away, with nothing else of
    the world changed; an id of eight or more changes nothing; and icons of
    which no target has two stay so. *)
Theorem SetTargetIcon_one env a g id t w log :
  GroupEnvOk env -> rtc (group_step env) GroupWorld_new w -> w_heap w !! a = Some g -> 0 <= id ->
  exists log', SetTargetIcon a id t (w, log)
    = (Ok tt, (if id <? 8 then put_g a (set_targetIcons (marked id t (m_targetIcons g)) g) w else w, log'))
  /\ length (m_targetIcons g) = 8%nat
  /\ (one_icon (m_targetIcons g) -> one_icon (marked id t (m_targetIcons g))).
Proof.
  intros Henv [HI _]%group_history_ok Hg H0; [|done]. pose proof HI as [HB _]. pose proof (view_group w a g Hg) as Hgv.
  pose proof (go_icons _ (b_wf _ HB a _ Hgv)) as Hl. cbn in Hl. destruct (Z.ltb_spec id 8) as [Hlt|Hge].
  - destruct (wp_returns (SetTargetIcon a id t) (fun _ w' => w' = put_g a (set_targetIcons (marked id t (m_targetIcons g)) g) w) w log)
      as ([] & w' & log' & Hrun & ->).
    { apply (SetTargetIcon_wp _ a g); [lia|done|done| |done]. intros e. by apply (members_there (view w) a g). }
    exists log'. split_and!; [done..|apply marked_one].
  - exists log. split_and!; [|done|apply marked_one]. unfold SetTargetIcon.
    destruct (Z.geb_spec id TARGET_ICON_COUNT) as [|H8]; [done|change TARGET_ICON_COUNT with 8 in H8; lia].
Qed.

Lemma SetTargetIcon_one_witness : exists log',
  SetTargetIcon 0 3 77 (party_world, [])
  = (Ok tt, (put_g 0 (set_targetIcons [0; 0; 0; 77; 0; 0; 0; 0] (group_of party_world)) party_world, log')).
Proof.
  destruct (SetTargetIcon_one sample_genv 0 (group_of party_world) 3 77 party_world []) as (log' & H & _);
    [apply sample_genv_ok|apply party_reached|apply party_group|done|]. exists log'; repeat split; assumption.
Defined.

(** ** Taking turns *)

Section turns.
Context (env : GroupEnv).

Lemma update_wp X a g w (Q : unit -> GroupWorld -> Prop) :
  w_heap w !! a = Some g -> group_ok (core g) -> Q tt w -> wp X (SendUpdate a) Q w.
Proof.
  intros Hg Hok HQ. unfold SendUpdate. apply wp_bind, (wp_group_at X a g); [done|].
  pose proof (sendable_icons g (icons_ok g Hok)) as Hi. pose proof (group_fits_ok g Hok) as Hf.
  apply wp_logs; [|by intros []]. apply logs_each. intros m _. apply logs_bind; [apply logs_look|]. intros w0.
  repeat case_match; try apply logs_ret; repeat (apply logs_bind; [|intros _]); auto with logs.
Qed.

(** [n] times the next looter. *)
Definition turns (n : nat) (a target : Z) : GM unit := each (fun _ => UpdateLooterGuid env a target false) (seq 0 n).

Lemma first_near_head w target m l : near env w target (ms_guid m) = true -> first_near env w target (m :: l) = Some (ms_guid m).
Proof.
  intros [H1%bool_decide_eq_true H2]%andb_true_iff. unfold first_near. cbn [list_find]. by rewrite decide_True.
Qed.
Lemma find_slot l p m : NoDup (ms_guid <$> l) -> l !! p = Some m -> list_find (fun x => ms_guid x = ms_guid m) l = Some (p, m).
Proof.
  intros Hn Hp. apply list_find_Some. split_and!; [done..|]. intros j y Hj Hlt E.
  assert (j = p); [|lia]. eapply (NoDup_lookup _ j p (ms_guid m) Hn); rewrite list_lookup_fmap; [by rewrite Hj, <- E|by rewrite Hp].
Qed.
Lemma next_slot (p n : nat) : (p < n)%nat -> ((p + 1) mod n = if decide (S p < n)%nat then S p else 0)%nat.
Proof.
  intros Hp. case_decide; [rewrite Nat.mod_small; lia|]. replace (p + 1)%nat with n by lia. apply Nat.Div0.mod_same.
Qed.

Lemma UpdateLooterGuid_wp X a g target p m w (Q : unit -> GroupWorld -> Prop) :
  m_lootMethod g <> MASTER_LOOT -> m_lootMethod g <> FREE_FOR_ALL -> group_ok (core g) ->
  Forall (fun m => near env w target (ms_guid m) = true) (m_memberSlots g) ->
  m_memberSlots g !! p = Some m -> w_heap w !! a = Some (set_looterGuid (ms_guid m) g) ->
  (forall m', m_memberSlots g !! ((p + 1) mod length (m_memberSlots g))%nat = Some m' ->
     Q tt (put_g a (set_looterGuid (ms_guid m') g) w)) ->
  wp X (UpdateLooterGuid env a target false) Q w.
Proof.
  intros H1 H2 Hok Hnear Hp Hg HQ. unfold UpdateLooterGuid. apply wp_bind. eapply wp_group_at; [exact Hg|].
  cbn [m_lootMethod set_looterGuid m_looterGuid m_memberSlots].
  rewrite (proj2 (Z.eqb_neq _ _) H1), (proj2 (Z.eqb_neq _ _) H2). cbn [orb andb]. apply wp_bind, wp_look.
  unfold split_looter. rewrite (find_slot (m_memberSlots g) p m) by (done || apply (go_once _ Hok)).
  pose proof (lookup_lt_Some _ _ _ Hp) as Hlt. rewrite next_slot in HQ by done.
  assert (Hgo : forall m', m_memberSlots g !! (if decide (S p < length (m_memberSlots g)) then S p else 0)%nat = Some m' ->
    wp X (if ms_guid m =? ms_guid m' then st_ret tt else g_mod a (SetLooterGuid (ms_guid m')) ;;; SendUpdate a) Q w).
  { intros m' Hm'. specialize (HQ m' Hm'). destruct (Z.eqb_spec (ms_guid m) (ms_guid m')) as [E|E].
    - apply wp_ret. rewrite <- E in HQ. unfold put_g in HQ. rewrite insert_id in HQ by done. by destruct w.
    - apply wp_bind, (wp_group_mod X a _ (set_looterGuid (ms_guid m) g)); [done|].
      eapply update_wp; [cbn; by rewrite lookup_insert_eq|exact Hok|exact HQ]. }
  rewrite Forall_lookup in Hnear. case_decide as Hd.
  - destruct (lookup_lt_is_Some_2 (m_memberSlots g) (S p) Hd) as [m' Hm']. specialize (Hgo m' Hm').
    rewrite (drop_S _ m' (S p) Hm'), first_near_head by by eapply Hnear. exact Hgo.
  - rewrite drop_ge by lia. destruct (m_memberSlots g) as [|m0 l] eqn:El; [cbn in Hlt; lia|]. specialize (Hgo m0 eq_refl).
    cbn [take]. rewrite first_near_head by by eapply (Hnear 0%nat). exact Hgo.
Qed.

Lemma turns_wp X n a g target p m w (Q : unit -> GroupWorld -> Prop) :
  m_lootMethod g <> MASTER_LOOT -> m_lootMethod g <> FREE_FOR_ALL -> group_ok (core g) ->
  Forall (fun m => near env w target (ms_guid m) = true) (m_memberSlots g) ->
  m_memberSlots g !! p = Some m -> w_heap w !! a = Some (set_looterGuid (ms_guid m) g) ->
  (forall m', m_memberSlots g !! ((p + n) mod length (m_memberSlots g))%nat = Some m' ->
     Q tt (put_g a (set_looterGuid (ms_guid m') g) w)) ->
  wp X (turns n a target) Q w.
Proof.
  intros H1 H2 Hok. unfold turns. revert p m w Q. generalize 0%nat as s. induction n as [|n IH]; intros s p m w Q Hnear Hp Hg HQ; cbn [seq each].
  - pose proof (lookup_lt_Some _ _ _ Hp). apply wp_ret. specialize (HQ m). rewrite Nat.add_0_r, Nat.mod_small in HQ by done.
    specialize (HQ Hp). unfold put_g in HQ. rewrite insert_id in HQ by done. by destruct w.
  - pose proof (lookup_lt_Some _ _ _ Hp). apply wp_bind, (UpdateLooterGuid_wp X a g target p m); [done..|]. intros m1 Hm1.
    apply (IH (S s) ((p + 1) mod length (m_memberSlots g))%nat m1); [done..|cbn; by rewrite lookup_insert_eq|]. intros m2.
    rewrite Nat.Div0.add_mod_idemp_l. replace (p + 1 + n)%nat with (p + S n)%nat by lia. intros Hm2. specialize (HQ m2 Hm2).
    unfold put_g in *. cbn in *. by rewrite insert_insert_eq.
Qed.
End turns.

(** C29. While everybody in a group that takes turns is near, looting goes
    round: after [n] updates it is the turn of the member [n] places further
    in the list, from the last back to the first, so that everybody's turn
    comes in as many updates as there are members; nothing else changes. *)
Theorem looters_take_turns env a g target p m n w log :
  GroupEnvOk env -> rtc (group_step env) GroupWorld_new w -> w_heap w !! a = Some g ->
  m_lootMethod g <> MASTER_LOOT -> m_lootMethod g <> FREE_FOR_ALL ->
  Forall (fun m => near env w target (ms_guid m) = true) (m_memberSlots g) ->
  m_memberSlots g !! p = Some m -> m_looterGuid g = ms_guid m ->
  exists m' log', m_memberSlots g !! ((p + n) mod length (m_memberSlots g))%nat = Some m'
    /\ turns env n a target (w, log) = (Ok tt, (put_g a (set_looterGuid (ms_guid m') g) w, log')).
Proof.
  intros Henv [HI _]%group_history_ok Hg H1 H2 Hnear Hp Hm; [|done]. pose proof (b_wf _ (proj1 HI) a _ (view_group w a g Hg)) as Hok.
  destruct (lookup_lt_is_Some_2 (m_memberSlots g) ((p + n) mod length (m_memberSlots g))%nat) as [m' Hm'].
  { apply Nat.mod_upper_bound. apply lookup_lt_Some in Hp. lia. }
  destruct (wp_returns (turns env n a target) (fun _ w' => w' = put_g a (set_looterGuid (ms_guid m') g) w) w log)
    as ([] & w' & log' & Hrun & ->); [|by exists m', log'].
  apply (turns_wp env _ n a g target p m); [done..| |].
  - rewrite Hg. f_equal. rewrite <- Hm. by destruct g.
  - intros m2 Hm2. congruence.
Qed.

Lemma looters_take_turns_witness : exists log',
  turns sample_genv 2 0 77 (party_world, []) = (Ok tt, (put_g 0 (set_looterGuid 3 (group_of party_world)) party_world, log')).
Proof.
  destruct (looters_take_turns sample_genv 0 (group_of party_world) 77 0 (mkMS 1 "Ann" 0 false) 2 party_world []) as (m' & log' & H1 & H2);
    [apply sample_genv_ok|apply party_reached|apply party_group|vm_compute; discriminate|vm_compute; discriminate|
     apply (bool_decide_unpack _); vm_compute; exact I|vm_compute; reflexivity|vm_compute; reflexivity|].
  vm_compute in H1. injection H1 as <-. exists log'; repeat split; assumption.
Defined.

(** ** Joining *)

(** C26. After any history, adding a player without group and invitation to a
    registered group that is not full always succeeds and does what a list of
    members promises: the player gets a slot at the end, in a subgroup that had
    a place, his reference, his subgroup and his row of [group_member] say so,
    no other group and no other player's membership changes, and the invariant
    of the whole holds again. *)
Theorem AddMember_joins env w a g k p name method log :
  GroupEnvOk env -> rtc (group_step env) GroupWorld_new w ->
  w_heap w !! a = Some g -> m_GroupMap w !! m_Id g = Some a -> IsFull g = false ->
  w_players w !! k = Some p -> GetGroup p = None -> GetGroupInvite p = None -> short name ->
  exists w' log' g' p' m, AddMember env a k name method (w, log) = (Ok true, (w', log'))
    /\ w_heap w' !! a = Some g' /\ m_memberSlots g' = m_memberSlots g ++ [m] /\ ms_guid m = k /\ ms_name m = name
    /\ (if isRaidGroup g then subgroup_size g (ms_group m) < MAX_GROUP_SIZE else ms_group m = 0)
    /\ w_players w' !! k = Some p' /\ GetGroup p' = Some a /\ GetSubGroup p' = ms_group m
    /\ t_group_member w' !! (m_Id g, k) = Some (member_row_of m)
    /\ (forall b, b <> a -> core <$> (w_heap w' !! b) = core <$> (w_heap w !! b))
    /\ (forall j, j <> k -> pcore <$> (w_players w' !! j) = pcore <$> (w_players w !! j))
    /\ m_GroupMap w' = m_GroupMap w /\ world_ok w'.
Proof.
  intros Henv [HI Hr]%group_history_ok Hg Hreg Hfull Hp Hpg Hpi Hn; [|done].
  destruct (registered _ (m_Id g) a HI Hreg) as (c & Hc & H2 & HL & Hrow & _). pose proof HI as [HB _].
  pose proof (view_group w a g Hg) as Hgv. rewrite Hgv in Hc. injection Hc as <-.
  destruct (inv_at _ a _ HI Hgv) as [_ [(Hs & _)|(_ & _ & Hlead & _)]]; [rewrite Hs in H2; cbn in H2; lia|].
  assert (Hid : c_id (core g) <> 0). { intros E. destruct (b_id _ HB a _ Hgv) as [_ H0]. rewrite (H0 E) in H2. cbn in H2. lia. }
  assert (Hroom : Z.of_nat (length (c_slots (core g))) < capacity (core g)).
  { unfold IsFull in Hfull. unfold capacity. cbn. destruct (_ =? GROUPTYPE_NORMAL); rewrite Z.geb_leb in Hfull; by apply Z.leb_gt in Hfull. }
  pose proof (view_player w k p Hp) as Hpv. set (V := view w) in *.
  assert (Hmv : moves (AddMember env a k name method) (fun b V' => b = true /\ exists m, ms_guid m = k /\ ms_name m = name
    /\ has_place (core g) (ms_group m) /\ joined V V' a (core g) (pcore p) m) V).
  { apply (AddMember_moves env V None a (core g) k (pcore p)); try done; [by left|]. intros V' m ? ? ? ?. split; [done|]. by exists m. }
  destruct (wp_returns (AddMember env a k name method) _ w log (Hmv _ w eq_refl Hr)) as (b & w' & log' & Hrun & Hr' & -> & m & Hmk & Hmn & Hpl & HJ).
  pose proof HJ as [HI1 HL1 Hh1 Hp1 (Hr1 & Hg1 & _)].
  assert (Ha1 : v_heap (view w') !! a = Some (join_core (core g) m)) by (by rewrite Hh1, lookup_insert_eq).
  assert (Hk1 : v_ps (view w') !! k = Some (refer (Some a) (ms_group m) (pcore p))) by (by rewrite Hp1, Hmk, lookup_insert_eq).
  destruct (group_view w' a _ Ha1) as (g' & Hg' & Ecore). destruct (player_view w' k _ Hk1) as (p' & Hp' & Epc).
  exists w', log', g', p', m. split_and!; try done.
  - by apply (f_equal c_slots) in Ecore.
  - unfold has_place in Hpl. pose proof (l_counts _ _ _ HL) as HC. unfold counts_ok in HC. cbn in Hpl, HC.
    unfold isRaidGroup. destruct (m_subGroupsCounts g); destruct HC as [-> _]; done.
  - by apply (f_equal p_group) in Epc.
  - by apply (f_equal p_sub) in Epc.
  - destruct HL1 as [_ L2 _]. cbn in L2. rewrite L2 by done. rewrite slot_in_app.
    assert (E : slot_in k (m_memberSlots g) = None); [|by rewrite E, slot_in_cons, Hmk, decide_True].
    apply slot_in_None. intros [m' Hm']%slot_in_is_Some. destruct (l_member _ _ _ HL k _ m' Hpv Hm') as [E _]. cbn in E. congruence.
  - intros d Hd. rewrite <- !lookup_fmap. change (v_heap (view w') !! d = v_heap V !! d). by rewrite Hh1, lookup_insert_ne.
  - intros j Hj. rewrite <- !lookup_fmap. change (v_ps (view w') !! j = v_ps V !! j). by rewrite Hp1, Hmk, lookup_insert_ne.
  - split; [|done]. apply (inv_close (view w') a (join_core (core g) m)); try done. right. rewrite Hr1, Hg1. cbn. split_and!; try done.
    + rewrite length_app. cbn in H2 |- *. lia.
    + unfold guids. rewrite fmap_app, elem_of_app. by left.
Qed.

(** Dan has just logged in. *)
Definition dan_history : list group_request := take 7 group_history ++ [GLogin (group_player 4 "Dan")].
Definition dan_world : GroupWorld := group_play dan_history GroupWorld_new.
Lemma dan_reached : rtc (group_step sample_genv) GroupWorld_new dan_world.
Proof. apply group_play_rtc. unfold dan_history. group_requests. Qed.
Lemma AddMember_joins_witness : exists w' log' g' m,
  AddMember sample_genv 0 4 "Dan" GROUP_JOIN (dan_world, []) = (Ok true, (w', log'))
  /\ w_heap w' !! 0 = Some g' /\ m_memberSlots g' = m_memberSlots (group_of dan_world) ++ [m] /\ ms_guid m = 4 /\ ms_group m = 0.
Proof.
  destruct (AddMember_joins sample_genv dan_world 0 (group_of dan_world) 4 (player_of 4 dan_world) "Dan" GROUP_JOIN [])
    as (w' & log' & g' & p' & m & H1 & H2 & H3 & H4 & _ & H5 & _); [apply sample_genv_ok|apply dan_reached|vm_compute; congruence..|].
  exists w', log', g', m; repeat split; assumption.
Defined.
