(* ===== verification/GroupFlaws.v ===== *)
(** * GroupFlaws: where the group code falls short

    Votes that are changed, votes nobody waits for, characters that become
    hardcore, and members between maps. *)

From stdpp Require Import gmap fin_maps strings relations.
From S2P Require Import Prelude ByteBuffer Codec ObjectGuid Packets Effects Incoming Social.
From S2P Require Import GroupData GroupRolls GroupLists LFG Group GroupRaid GroupHandlers MeetingStones GroupLife GroupInv GroupCalm GroupVotes GroupMoves GroupOps GroupMembers GroupEnds GroupSteps GroupServe GroupOrders GroupLives GroupQueue GroupHistory GroupProps GroupRules.

Local Open Scope prog_scope.

(** The vote of a player on the first item. *)
Definition vote_on (me v : Z) : group_request := send_in CMSG_LOOT_ROLL me (le_bytes 8 77 ++ le_bytes 4 0 ++ [v]).
(** What a request sends. *)
Definition group_log (r : group_request) (w : GroupWorld) : list effect := (group_run sample_genv r (w, [])).2.2.
Definition votes_before : list group_request := take 9 group_history ++ [vote_on 2 ROLL_NEED; vote_on 2 ROLL_PASS].
Definition changed_world : GroupWorld := group_play votes_before GroupWorld_new.
Lemma changed_reached : rtc (group_step sample_genv) GroupWorld_new changed_world.
Proof. apply group_play_rtc. unfold votes_before, vote_on. group_requests. Qed.
Definition changed_roll : Roll := default (Roll_new 0 0 0) (RollId (group_of changed_world) !! 0%nat).

(** C37. A vote can be changed, and both votes count.  Bob votes need and then
    passes; when Cid passes, the roll on the item ends although Ann has not
    voted, and since a need vote was counted but nobody's vote is need any
    more, the item goes to the first voter of the table, here Cid, who
    passed. *)
Theorem changed_vote_wins :
  rtc (group_step sample_genv) GroupWorld_new changed_world
  /\ playerVote changed_roll !! 1 = Some ROLL_NOT_EMITED_YET
  /\ contenders ROLL_NEED (cast_vote 3 ROLL_PASS changed_roll) (vote_order sample_genv (playerVote changed_roll)) = []
  /\ EvGroup (GStoreItem 3 (r_itemid changed_roll) 0) ∈ group_log (vote_on 3 ROLL_PASS) changed_world.
Proof.
  split; [apply changed_reached|]. split_and!; [vm_compute; reflexivity..|]. apply (list_elem_of_lookup_2 _ 7). vm_compute. reflexivity.
Qed.

(** Ann and Bob are alone in their party. *)
Definition pair_world : GroupWorld := group_play (take 5 group_history) GroupWorld_new.
Lemma pair_reached : rtc (group_step sample_genv) GroupWorld_new pair_world.
Proof. apply group_play_rtc. group_requests. Qed.

(** A member of a party of two who becomes a hardcore character disbands
    the party without unregistering it: the group stays in the registry and on
    the heap without members and without a leader, and its row is gone. *)
Theorem hardcore_empty_group :
  rtc (group_step sample_genv) GroupWorld_new pair_world
  /\ let '(out, (w, _)) := SetupHardcoreMode sample_genv 1 (pair_world, []) in
     out = Ok true /\ m_GroupMap w !! 1 = Some 0 /\ t_groups w !! 1 = None
     /\ exists g, w_heap w !! 0 = Some g /\ m_Id g = 1 /\ m_memberSlots g = [] /\ m_leaderGuid g = 0.
Proof.
  split; [apply pair_reached|]. vm_compute. split_and!; [reflexivity..|]. eexists. split_and!; reflexivity.
Qed.

(** Bob is between two maps while Ann removes him. *)
Definition away_world : GroupWorld := w_set_players (alter (SetInWorld false) 2 (w_players party_world)) party_world.
Definition kick_bob : group_request := send_in CMSG_GROUP_UNINVITE_GUID 1 (le_bytes 8 2).

(** Who is removed from his group between two maps keeps it: the group
    has no slot for him and the table no row, but his player still refers to
    the group and is in its chain. *)
Theorem removed_between_maps_group :
  rtc (group_step sample_genv) GroupWorld_new party_world
  /\ let w := group_play [kick_bob] away_world in
     GetGroup (player_of 2 w) = Some 0 /\ IsMember 2 (group_of w) = false
     /\ t_group_member w !! (1, 2) = None /\ (2, false) ∈ m_memberMgr (group_of w).
Proof.
  split; [apply party_reached|]. cbv zeta. split_and!; [vm_compute; reflexivity..|].
  apply (bool_decide_unpack _). vm_compute. exact I.
Qed.
