(* ===== verification/QueueProps.v ===== *)
(** * QueueProps: what the role queue promises

    Who an update of the queue adds to a group, how many of each role, and in
    which order players are served. *)

From stdpp Require Import gmap fin_maps strings relations.
From S2P Require Import Prelude ByteBuffer Codec ObjectGuid Packets Effects Incoming Social.
From S2P Require Import GroupData GroupRolls GroupLists LFG Group GroupRaid GroupHandlers MeetingStones GroupLife GroupInv GroupCalm GroupVotes GroupMoves GroupOps GroupMembers GroupEnds GroupSteps GroupServe GroupOrders GroupLives GroupQueue GroupHistory GroupProps GroupRules.

Local Open Scope prog_scope.

(** ** Roles that are taken *)

(** How often a role is taken. *)
Definition times (role : Z) (rs : list Z) : Z := Z.of_nat (length (filter (fun r => r = role) rs)).
Lemma times_snoc role rs r : times role (rs ++ [r]) = times role rs + unit_at (r =? role).
Proof.
  unfold times, unit_at. rewrite filter_app, length_app, filter_cons. destruct (Z.eqb_spec r role).
  - rewrite decide_True by done. cbn [length filter list_filter]. lia.
  - rewrite decide_False by done. cbn [length filter list_filter]. lia.
Qed.
Lemma times_pos role rs : 0 <= times role rs.
Proof. unfold times. lia. Qed.

(** The flag of a role and the taking of another. *)
Lemma flags_left r : 0 <= r < 8 ->
  Z.testbit (without_role LFG_ROLE_TANK r) 0 = false /\ Z.testbit (without_role LFG_ROLE_HEALER r) 1 = false
  /\ Z.testbit (without_role LFG_ROLE_TANK r) 1 = Z.testbit r 1 /\ Z.testbit (without_role LFG_ROLE_HEALER r) 0 = Z.testbit r 0
  /\ Z.testbit (without_role LFG_ROLE_DPS r) 0 = Z.testbit r 0 /\ Z.testbit (without_role LFG_ROLE_DPS r) 1 = Z.testbit r 1.
Proof. intros H. apply small_roles in H. decompose [or] H; subst; by vm_compute. Qed.
Lemma flags_offered r : 0 <= r < 8 ->
  (Z.land LFG_ROLE_TANK r = LFG_ROLE_TANK -> Z.testbit r 0 = true) /\ (Z.land LFG_ROLE_HEALER r = LFG_ROLE_HEALER -> Z.testbit r 1 = true).
Proof. intros H. apply small_roles in H. decompose [or] H; subst; by vm_compute. Qed.

(** What is left after the roles [rs]: the damage dealers are counted, and a
    flag that is still there was never taken. *)
Record left_over (e : LFGGroupQueueInfo) (rs : list Z) (e' : LFGGroupQueueInfo) : Prop := {
  lo_ok : offer_ok e'; lo_dps : dpsCount e' = dpsCount e + times LFG_ROLE_DPS rs;
  lo_tank : times LFG_ROLE_TANK rs + unit_at (Z.testbit (availableRoles e') 0) <= 1;
  lo_healer : times LFG_ROLE_HEALER rs + unit_at (Z.testbit (availableRoles e') 1) <= 1 }.
Lemma unit_at_range b : 0 <= unit_at b <= 1.
Proof. by destruct b. Qed.
Definition offer_with (roles dps : Z) (e : LFGGroupQueueInfo) : LFGGroupQueueInfo :=
  mkLFGG roles dps (lg_team e) (lg_areaId e) (lg_isHardcore e) (groupTimer e).
(** Numbers of roles that are known. *)
Ltac units :=
  repeat match goal with |- context [unit_at (?a =? ?b)] =>
    let v := eval vm_compute in (unit_at (a =? b)) in change (unit_at (a =? b)) with v end;
  change (unit_at true) with 1 in *; change (unit_at false) with 0 in *; lia.
Lemma took_left e rs e' : offer_ok e -> took e rs e' -> left_over e rs e'.
Proof.
  intros He Ht. induction Ht as [|rs e1 role e2 _ [I1 I2 I3 I4] Hr Hoff Htake|rs e1 t _ [I1 I2 I3 I4]].
  - pose proof (unit_at_range (Z.testbit (availableRoles e) 0)). pose proof (unit_at_range (Z.testbit (availableRoles e) 1)).
    assert (Hnil : forall role, times role [] = 0) by done. split; [done|rewrite Hnil; lia..].
  - pose proof (take_offer_ok role e1 e2 Hoff I1 Htake) as I5. pose proof I1 as [Hb _ Hf].
    destruct (flags_left _ Hb) as (F1 & F2 & F3 & F4 & F5 & F6), (flags_offered _ Hb) as [O1 O2].
    unfold PotentialRoles in Hr. rewrite !elem_of_cons in Hr. destruct Hr as [->|[->|[->|[]%elem_of_nil]]].
    + change (Some (offer_with (without_role LFG_ROLE_TANK (availableRoles e1)) (dpsCount e1) e1) = Some e2) in Htake.
      injection Htake as <-. rewrite O1 in I3 by done.
      split; [done|..]; rewrite ?times_snoc; cbn [availableRoles dpsCount offer_with]; rewrite ?F1, ?F3; units.
    + change (Some (offer_with (without_role LFG_ROLE_HEALER (availableRoles e1)) (dpsCount e1) e1) = Some e2) in Htake.
      injection Htake as <-. rewrite O2 in I4 by done.
      split; [done|..]; rewrite ?times_snoc; cbn [availableRoles dpsCount offer_with]; rewrite ?F2, ?F4; units.
    + pose proof (dps_flag _ Hb Hoff) as Hd. rewrite Hd in Hf. symmetry in Hf. apply Z.ltb_lt in Hf as Hlt.
      change (Some (if dpsCount e1 <? GetMaximumDPSSlots
        then offer_with (if dpsCount e1 + 1 >=? GetMaximumDPSSlots then without_role LFG_ROLE_DPS (availableRoles e1) else availableRoles e1)
          (dpsCount e1 + 1) e1 else e1) = Some e2) in Htake. rewrite Hf in Htake. injection Htake as <-.
      split; [done|..]; rewrite ?times_snoc; cbn [availableRoles dpsCount offer_with]; try case_match; rewrite ?F5, ?F6; units.
  - destruct I1 as [? ? ?]. by split.
Qed.

(** ** Who is added *)

(** C5. After any history of requests in order ([group_allowed]), an update of
    the role queue while nobody who waits in it and is online has a group or an
    invitation ([waiting_free]; [queued_into_two_groups] is an update without
    that) and group ids are not used up returns and leaves a
    world in order.  A group that was there keeps its members; it gets new ones
    only if it was in the queue, each of them waited for the same area and side
    and is hardcore like the group, each fills a role the group still offered
    when it was his turn, and in all at most one tank, one healer and as many
    damage dealers as were missing from three.  A group that is new is a pair:
    two of the queue who waited for the same area and side, led by the first. *)
Theorem queue_update env w diff log :
  GroupEnvOk env -> rtc (group_step env) GroupWorld_new w -> waiting_free w -> m_GroupIds w + 1 < 2 ^ 32 ->
  exists w' log', Update env diff (w, log) = (Ok tt, (w', log')) /\ world_ok w'
    /\ (forall a g, w_heap w !! a = Some g -> exists g' added,
          w_heap w' !! a = Some g' /\ m_Id g' = m_Id g /\ m_memberSlots g' = m_memberSlots g ++ added
          /\ match m_QueuedGroups (w_lfg w) !! m_Id g with
             | None => added = []
             | Some e => exists rs e', took e rs e' /\ Forall2 (waits_for (w_lfg w) e) added rs
                 /\ times LFG_ROLE_TANK rs <= 1 /\ times LFG_ROLE_HEALER rs <= 1 /\ dpsCount e + times LFG_ROLE_DPS rs <= 3
             end)
    /\ (forall a g', w_heap w' !! a = Some g' -> w_heap w !! a = None -> exists m1 m2 i1 i2,
          m_memberSlots g' = [m1; m2] /\ m_leaderGuid g' = ms_guid m1 /\ ms_guid m1 <> ms_guid m2
          /\ m_QueuedPlayers (w_lfg w) !! ms_guid m1 = Some i1 /\ m_QueuedPlayers (w_lfg w) !! ms_guid m2 = Some i2
          /\ lp_areaId i1 = lp_areaId i2 /\ lp_team i1 = lp_team i2).
Proof.
  intros Henv HW%group_history_ok Hfree Hids; [|done].
  destruct (wp_returns (Update env diff) (fun _ w' => updated w w') w log) as ([] & w' & log' & Hrun & [U1 U2 U3]);
    [by apply (Update_wp env w HW Hfree Hids)|].
  exists w', log'. split_and!; [done..| |].
  - intros a g Hg. destruct (U2 a (core g) (view_group w a g Hg)) as (c & Hc & Hid & added & Hs & Hm).
    destruct (group_view w' a c Hc) as (g' & Hg' & <-). exists g', added. split_and!; [done..|]. cbn in Hm.
    destruct (m_QueuedGroups (w_lfg w) !! m_Id g) as [e|] eqn:He; [|done]. destruct Hm as (rs & e' & Ht & Hf). exists rs, e'.
    destruct HW as [_ [_ [_ _ Hq]]]. destruct (took_left e rs e' (Hq _ _ He) Ht) as [[_ Hd _] L2 L3 L4].
    pose proof (unit_at_range (Z.testbit (availableRoles e') 0)). pose proof (unit_at_range (Z.testbit (availableRoles e') 1)).
    unfold GetMaximumDPSSlots in Hd. split_and!; try done; lia.
  - intros a g' Hg' Hn. apply (U3 a (core g') (view_group w' a g' Hg')). cbn. by rewrite lookup_fmap, Hn.
Qed.

(** Five adventurers meet at a stone: Ann is a warrior, Bob a priest, Cid, Dan
    and Eve are mages. *)
Definition adventurer (guid : Z) (name : string) (cls : Z) (hardcore : bool) : Player :=
  mkPlayer guid name ALLIANCE 60 hardcore false false false 0 0 (mkPS guid ∅)
    (mkPState false false false false false false) NoRefs false 0 cls.
Definition join_stone (me : Z) : group_request := send_in CMSG_MEETINGSTONE_JOIN me (le_bytes 8 7).
Definition stone_history : list group_request :=
  [GLogin (adventurer 1 "Ann" CLASS_WARRIOR false); GLogin (adventurer 2 "Bob" CLASS_PRIEST false);
   GLogin (adventurer 3 "Cid" CLASS_MAGE false); GLogin (adventurer 4 "Dan" CLASS_MAGE false);
   GLogin (adventurer 5 "Eve" CLASS_MAGE false);
   join_stone 1; join_stone 2; join_stone 3; join_stone 4; join_stone 5; GQueueUpdate 100].
(** Everybody waits; Ann and Bob are a group. *)
Definition waiting_world : GroupWorld := group_play (take 10 stone_history) GroupWorld_new.
Definition stone_world : GroupWorld := group_play stone_history GroupWorld_new.
Lemma waiting_reached : rtc (group_step sample_genv) GroupWorld_new waiting_world.
Proof. apply group_play_rtc. unfold stone_history, join_stone. group_requests. Qed.
Lemma stone_reached : rtc (group_step sample_genv) GroupWorld_new stone_world.
Proof. apply group_play_rtc. unfold stone_history, join_stone. group_requests. Qed.
Definition stone_offer : LFGGroupQueueInfo := mkLFGG 4 0 ALLIANCE 7 false GROUP_TIMER.
Lemma stone_group : w_heap stone_world !! 0 = Some (group_of stone_world).
Proof. vm_compute. reflexivity. Qed.
Lemma stone_offered : m_QueuedGroups (w_lfg stone_world) !! m_Id (group_of stone_world) = Some stone_offer.
Proof. vm_compute. reflexivity. Qed.

Lemma queue_update_witness : exists w' log' g' added rs e',
  Update sample_genv 100 (stone_world, []) = (Ok tt, (w', log')) /\ w_heap w' !! 0 = Some g'
  /\ m_memberSlots g' = m_memberSlots (group_of stone_world) ++ added
  /\ took stone_offer rs e' /\ Forall2 (waits_for (w_lfg stone_world) stone_offer) added rs.
Proof.
  destruct (queue_update sample_genv stone_world 100 []) as (w' & log' & H1 & _ & H2 & _);
    [apply sample_genv_ok|apply stone_reached|apply waiting_free_all; vm_compute; reflexivity|vm_compute; reflexivity|].
  destruct (H2 0 (group_of stone_world) stone_group) as (g' & added & H3 & _ & H4 & H5). rewrite stone_offered in H5.
  destruct H5 as (rs & e' & H5 & H6 & _). exists w', log', g', added, rs, e'. repeat split; assumption.
Defined.

(** ** Who is first *)

(** An entry whose roles are those of a class, with the priority of those who
    waited for half an hour. *)
Definition of_class (i : LFGPlayerQueueInfo) : Prop := exists cls, roleMask i = CalculateRoles cls
  /\ forall role, role ∈ PotentialRoles -> GetRolePriority role i = getPriority cls role.
Definition on_time (i : LFGPlayerQueueInfo) : Prop := hasQueuePriority i = true <-> PRIORITY_TIME <= timeInLFG i.
(** Two who wait for the same, and the second could fill the role. *)
Definition rival (role : Z) (i o : LFGPlayerQueueInfo) : Prop :=
  lp_areaId o = lp_areaId i /\ lp_team o = lp_team i /\ Z.land (roleMask o) role = role.

(** A class has a priority in every role it can fill. *)
Lemma class_priority cls role : role ∈ PotentialRoles -> Z.land (CalculateRoles cls) role <> 0 -> truth (getPriority cls role) = true.
Proof.
  unfold PotentialRoles, CalculateRoles. rewrite !elem_of_cons.
  intros [->|[->|[->|[]%elem_of_nil]]] H; unfold getPriority; cbn [Z.eqb Pos.eqb LFG_ROLE_TANK LFG_ROLE_HEALER LFG_ROLE_DPS];
    repeat (case_match; [done|]); by destruct H.
Qed.
Lemma ahead_longer role k i j o : role ∈ PotentialRoles -> Z.land (roleMask i) role <> 0 ->
  of_class i -> on_time i -> on_time o ->
  ahead role k i j o = true <-> j <> k /\ rival role i o /\ timeInLFG i < timeInLFG o.
Proof.
  intros Hr Hm (cls & Hc & Hp) Hi Ho. rewrite Hc in Hm. pose proof (class_priority cls role Hr Hm) as Ht.
  unfold ahead, rival, on_time in *. rewrite (Hp role Hr), Ht, andb_false_r, orb_false_l.
  rewrite !andb_true_iff, orb_true_iff, !andb_true_iff, !negb_true_iff, Z.eqb_neq, !Z.eqb_eq, Z.gtb_lt.
  split; [intuition congruence|]. intros (Hne & (Ha & Ht' & Hm') & Hlt). split_and!; try congruence.
  destruct (hasQueuePriority i); [|by right]. left. split; [|done]. apply Ho. destruct Hi as [Hi _]. specialize (Hi eq_refl). lia.
Qed.

(** Everybody who waits is online, without group and invitation: so it is
    after the timers have run. *)
Definition all_waiting (w : GroupWorld) : Prop := forall k, is_Some (m_QueuedPlayers (w_lfg w) !! k) ->
  exists p, w_players w !! k = Some p /\ GetGroup p = None /\ GetGroupInvite p = None.
Lemma all_waiting_going w : world_ok w -> all_waiting w -> going (view w) (w_lfg w) w.
Proof.
  intros HW Ha. apply (ticked_going w HW).
  - intros k p Hk Hp. destruct (Ha k Hk) as (p' & Hp' & ?). by assert (p = p') as -> by congruence.
  - split; [done|apply HW|done| |by intros k ?%elem_of_nil]. intros k i Hi. split; [by exists i|]. right.
    destruct (Ha k ltac:(by exists i)) as (p & Hp & _). exists (pcore p). by apply view_player.
Qed.

(** C28. The queue is served in the order of waiting.  When everybody's roles are
    those of a class, a player who waits for what a group with room offers is
    taken in a role unless somebody else who waits for the same area and side
    and could fill the role has waited longer; the class priorities, which the
    code computes and compares, never decide. *)
Theorem first_come_first_served env w a g k i e role log :
  GroupEnvOk env -> rtc (group_step env) GroupWorld_new w -> all_waiting w ->
  map_Forall (fun _ i => of_class i /\ on_time i) (m_QueuedPlayers (w_lfg w)) ->
  m_GroupMap w !! m_Id g = Some a -> w_heap w !! a = Some g -> IsFull g = false ->
  m_QueuedPlayers (w_lfg w) !! k = Some i -> m_QueuedGroups (w_lfg w) !! m_Id g = Some e -> suits e i = true ->
  role ∈ PotentialRoles -> Z.land (roleMask i) role <> 0 -> Z.land role (availableRoles e) = role ->
  exists taken w' log', FindRoleToGroup env k a role (w, log) = (Ok taken, (w', log'))
    /\ (taken = false <-> exists j o, m_QueuedPlayers (w_lfg w) !! j = Some o /\ j <> k /\ rival role i o /\ timeInLFG i < timeInLFG o)
    /\ (if taken then m_QueuedPlayers (w_lfg w') = delete k (m_QueuedPlayers (w_lfg w)) else w' = w).
Proof.
  intros Henv HW%group_history_ok Hwait Hall Hreg Hg Hfull Hi He Hs Hr Hm Hoff; [|done].
  assert (Hiff : map_Exists (fun j o => ahead role k i j o = true) (m_QueuedPlayers (w_lfg w)) <->
    exists j o, m_QueuedPlayers (w_lfg w) !! j = Some o /\ j <> k /\ rival role i o /\ timeInLFG i < timeInLFG o).
  { destruct (Hall k i Hi) as [Hc Ht].
    assert (Hl : forall j o, m_QueuedPlayers (w_lfg w) !! j = Some o ->
      ahead role k i j o = true <-> j <> k /\ rival role i o /\ timeInLFG i < timeInLFG o).
    { intros j o Hj. destruct (Hall j o Hj) as [_ Hto]. by apply ahead_longer. }
    split; intros (j & o & Hj & H); exists j, o; split; try done; by apply (Hl j o Hj). }
  destruct (wp_returns (FindRoleToGroup env k a role) (fun taken w' =>
      (taken = false <-> map_Exists (fun j o => ahead role k i j o = true) (m_QueuedPlayers (w_lfg w)))
      /\ if taken then m_QueuedPlayers (w_lfg w') = delete k (m_QueuedPlayers (w_lfg w)) else w' = w) w log)
    as (taken & w' & log' & Hrun & H1 & H2).
  - apply (FindRoleToGroup_wp env (view w) (w_lfg w) _ w (m_Id g) a g k i e role); try done. by apply all_waiting_going.
  - exists taken, w', log'. by rewrite <- Hiff.
Qed.

(** Cid has waited longer than Dan, who came later. *)
Definition later_history : list group_request :=
  take 8 stone_history ++ [join_stone 5; GLogin (adventurer 6 "Fay" CLASS_MAGE false); join_stone 6; GQueueUpdate 100; join_stone 4].
Definition later_world : GroupWorld := group_play later_history GroupWorld_new.

(** Entries, tested. *)
Definition class_entry (cls : Z) (i : LFGPlayerQueueInfo) : bool :=
  (roleMask i =? CalculateRoles cls)
  && forallb (fun role => GetRolePriority role i =? getPriority cls role) PotentialRoles
  && Bool.eqb (hasQueuePriority i) (PRIORITY_TIME <=? timeInLFG i).
Lemma class_entry_ok cls i : class_entry cls i = true -> of_class i /\ on_time i.
Proof.
  unfold class_entry. rewrite !andb_true_iff, Z.eqb_eq, forallb_forall. intros [[Hm Hp] Ht%eqb_prop]. split.
  - exists cls. split; [done|]. intros role Hr%list_elem_of_In. by apply Z.eqb_eq, Hp.
  - unfold on_time. by rewrite Ht, Z.leb_le.
Qed.
Lemma class_entries cls (q : gmap Z LFGPlayerQueueInfo) :
  forallb (fun e => class_entry cls e.2) (map_to_list q) = true -> map_Forall (fun _ i => of_class i /\ on_time i) q.
Proof.
  rewrite forallb_forall. intros H k i Hi%elem_of_map_to_list. apply (class_entry_ok cls), (H (k, i)). by apply list_elem_of_In.
Qed.
Definition waits_there (w : GroupWorld) (k : Z) : bool :=
  match w_players w !! k with Some p => bool_decide (GetGroup p = None) && bool_decide (GetGroupInvite p = None) | None => false end.
Lemma all_waiting_all w : forallb (waits_there w) (sorted_keys (m_QueuedPlayers (w_lfg w))) = true -> all_waiting w.
Proof.
  rewrite forallb_forall. intros H k Hk%elem_of_sorted_keys%list_elem_of_In%H. unfold waits_there in Hk.
  destruct (w_players w !! k) as [p|]; [|done]. exists p. by apply andb_true_iff in Hk as [H1%bool_decide_eq_true H2%bool_decide_eq_true].
Qed.

Lemma later_reached : rtc (group_step sample_genv) GroupWorld_new later_world.
Proof. apply group_play_rtc. unfold later_history, stone_history, join_stone. group_requests. Qed.
Definition entry_of (k : Z) (w : GroupWorld) : LFGPlayerQueueInfo := default LFGPlayerQueueInfo_new (m_QueuedPlayers (w_lfg w) !! k).
Definition offer_of (w : GroupWorld) : LFGGroupQueueInfo := default (mkLFGG 0 0 0 0 false 0) (m_QueuedGroups (w_lfg w) !! 1).
Lemma first_come_first_served_witness : exists w' log',
  FindRoleToGroup sample_genv 4 0 LFG_ROLE_DPS (later_world, []) = (Ok false, (w', log')).
Proof.
  destruct (first_come_first_served sample_genv later_world 0 (group_of later_world) 4 (entry_of 4 later_world) (offer_of later_world) LFG_ROLE_DPS [])
    as (taken & w' & log' & H1 & [_ H2] & _);
    [apply sample_genv_ok|apply later_reached|apply all_waiting_all; vm_compute; reflexivity|
     apply (class_entries CLASS_MAGE); vm_compute; reflexivity|vm_compute; reflexivity..|
     apply (bool_decide_unpack _); vm_compute; exact I|vm_compute; discriminate|vm_compute; reflexivity|].
  assert (taken = false) as ->; [|exists w', log'; exact H1].
  apply H2. exists 3, (entry_of 3 later_world). split; [vm_compute; reflexivity|]. split; [discriminate|].
  split; [|vm_compute; reflexivity]. repeat split; vm_compute; reflexivity.
Defined.

(** ** Where the queue falls short *)

(** Bob waits at the stone and accepts an invitation of Fay. *)
Definition invited_history : list group_request :=
  take 10 stone_history ++ [GLogin (adventurer 6 "Fay" CLASS_MAGE false); send_in CMSG_GROUP_INVITE 6 (named "Bob"); send_in CMSG_GROUP_ACCEPT 2 []].
Definition invited_world : GroupWorld := group_play invited_history GroupWorld_new.
Lemma invited_reached : rtc (group_step sample_genv) GroupWorld_new invited_world.
Proof. apply group_play_rtc. unfold invited_history, stone_history, join_stone. group_requests. Qed.

(** C38. Joining a group does not end the waiting.  Bob waits at a meeting stone
    and joins Fay's group; the next update of the queue makes him a member of a
    second group, while he is still in the first. *)
Theorem queued_into_two_groups :
  rtc (group_step sample_genv) GroupWorld_new invited_world
  /\ is_Some (m_QueuedPlayers (w_lfg invited_world) !! 2)
  /\ let '(out, (w, _)) := Update sample_genv 100 (invited_world, []) in
     out = Ok tt /\ exists g h, w_heap w !! 0 = Some g /\ w_heap w !! 1 = Some h
       /\ m_GroupMap w !! m_Id g = Some 0 /\ m_GroupMap w !! m_Id h = Some 1 /\ IsMember 2 g = true /\ IsMember 2 h = true.
Proof.
  split; [apply invited_reached|]. split; [by eexists; vm_compute|]. vm_compute. split; [reflexivity|].
  eexists. eexists. split_and!; reflexivity.
Qed.

(** Ann and Bob are a group at the stone; Hal, a hardcore mage, waits, and Dan
    comes later. *)
Definition blocked_history : list group_request :=
  [GLogin (adventurer 1 "Ann" CLASS_WARRIOR false); GLogin (adventurer 2 "Bob" CLASS_PRIEST false);
   GLogin (adventurer 3 "Hal" CLASS_MAGE true); GLogin (adventurer 4 "Dan" CLASS_MAGE false);
   send_in CMSG_GROUP_INVITE 1 (named "Bob"); send_in CMSG_GROUP_ACCEPT 2 []; join_stone 1; join_stone 3; GQueueUpdate 100; join_stone 4].
Definition blocked_world : GroupWorld := group_play blocked_history GroupWorld_new.
Lemma blocked_reached : rtc (group_step sample_genv) GroupWorld_new blocked_world.
Proof. apply group_play_rtc. unfold blocked_history, join_stone. group_requests. Qed.

(** A hardcore player who waits keeps the others waiting.  Hal cannot join
    a group that is not hardcore, but he has waited longer than Dan and could
    fill the same role: in an hour of updates the group, which offers three
    places to damage dealers, gets neither of them.  Without Hal the first
    update takes Dan. *)
Theorem hardcore_blocks_queue :
  rtc (group_step sample_genv) GroupWorld_new blocked_world
  /\ (let w := group_play (replicate 60 (GQueueUpdate 60000)) blocked_world in
      m_memberSlots (group_of w) = m_memberSlots (group_of blocked_world) /\ dpsCount (offer_of w) = 0
      /\ timeInLFG (entry_of 3 w) = 3600100 /\ timeInLFG (entry_of 4 w) = 3600000)
  /\ guids (m_memberSlots (group_of (group_play [send_in CMSG_MEETINGSTONE_LEAVE 3 []; GQueueUpdate 60000] blocked_world))) = [1; 2; 4].
Proof. split; [apply blocked_reached|]. cbv zeta. split_and!; vm_compute; reflexivity. Qed.

(** Ann, Bob and Cid are a group at the stone. *)
Definition queued_world : GroupWorld := group_play (take 7 group_history ++ [join_stone 1]) GroupWorld_new.
(** Who is kicked out of a group in the queue waits for nothing: the group has
    left the queue and forgotten its area when he is put into it. *)
Theorem kicked_for_no_area :
  rtc (group_step sample_genv) GroupWorld_new queued_world
  /\ let '(out, (w, _)) := RemoveMember sample_genv 0 2 GROUP_KICK (queued_world, []) in
     out = Ok 2 /\ lp_areaId <$> m_QueuedPlayers (w_lfg w) !! 2 = Some 0 /\ m_QueuedGroups (w_lfg w) = ∅.
Proof.
  split; [apply group_play_rtc; unfold join_stone; group_requests|]. vm_compute. split_and!; reflexivity.
Qed.
(** The pair that a new group is made of may be a hardcore player and one who
    is not. *)
Definition mixed_world : GroupWorld := group_play
  ([GLogin (adventurer 1 "Ann" CLASS_WARRIOR true)] ++ take 10 (drop 1 stone_history)) GroupWorld_new.
Theorem hardcore_pair :
  rtc (group_step sample_genv) GroupWorld_new mixed_world
  /\ guids (m_memberSlots (group_of mixed_world)) = [1; 2]
  /\ pl_hardcore (player_of 1 mixed_world) = true /\ pl_hardcore (player_of 2 mixed_world) = false.
Proof.
  split; [apply group_play_rtc; unfold stone_history, join_stone; cbn [take drop app]; group_requests|]. split_and!; vm_compute; reflexivity.
Qed.
(** Of two priests and a mage the second priest gets no role: the mage comes
    first for the damage dealers, and nobody is looked at twice.  The group of
    three counts one damage dealer and looks for a tank and two more. *)
Theorem premade_left_out :
  let class_of k := if k =? 3 then CLASS_MAGE else CLASS_PRIEST in
  let s := premade_roles class_of ((fun k => mkMS k "" 0 false) <$> [1; 2; 3]) in
  processed s = [1; 3] /\ initRoles s = Z.lor LFG_ROLE_TANK LFG_ROLE_DPS /\ dps_count s = 1.
Proof. vm_compute. split_and!; reflexivity. Qed.
