(* ===== verification/GameEvents.v ===== *)
(** * GameEvents: the calendar of the world

    [src/game/GameEventMgr.h] and [.cpp]: which seasonal events run, what they
    place in the world, and when the manager has to look again.  The clock, the
    time zone and the objects of the world are parameters. *)

From S2P Require Import Prelude ByteBuffer ObjectGuid Packets Effects Multimap.

Local Open Scope prog_scope.

(** ** Dates *)

Definition MINUTE := 60.
Definition DAY := 86400.
Definition IN_MILLISECONDS := 1000.
Definition max_ge_check_delay := 86400.
Definition default_year_length := 525600.

Definition isLeapYear (year : Z) : bool :=
  if year mod 400 =? 0 then true else (year mod 4 =? 0) && negb (year mod 100 =? 0).

(** The days from 1970 to the first of January of a year. *)
Definition year_start (y : Z) : Z :=
  365 * (y - 1970) + ((y - 1) / 4 - (y - 1) / 100 + (y - 1) / 400) - (1969 / 4 - 1969 / 100 + 1969 / 400).
(** The year of [gmtime]: a guess from the mean length of a year, put right. *)
Definition gmtime_year (t : Z) : Z :=
  let d := t / DAY in
  let y := 1970 + d * 400 / 146097 in
  if d <? year_start y then y - 1 else if year_start (y + 1) <=? d then y + 1 else y.
(** What the code reads of [localtime]. *)
Record tm := mkTm { tm_min : Z; tm_hour : Z; tm_wday : Z; tm_yday : Z }.

(** ** Data *)

Definition HOLIDAY_NONE := 0.
Record GameEventData := mkGE {
  start : Z; end_ : Z; occurence : Z; length_ : Z; holiday_id : Z; description : string;
  hardcoded : Z; disabled : Z; requiredPhase : Z; leapDays : Z }.
(** [requiredPhase] is not initialised, and only read after it is loaded. *)
Definition GameEventData_new : GameEventData := mkGE 1 0 0 0 HOLIDAY_NONE "" 0 0 0 0.
Definition isValid (e : GameEventData) : bool := length_ e >? 0.
Definition set_span (s t : Z) (e : GameEventData) : GameEventData :=
  mkGE s t (occurence e) (length_ e) (holiday_id e) (description e) (hardcoded e) (disabled e) (requiredPhase e) (leapDays e).
Definition set_disabled (v : Z) (e : GameEventData) : GameEventData :=
  mkGE (start e) (end_ e) (occurence e) (length_ e) (holiday_id e) (description e) (hardcoded e) v (requiredPhase e) (leapDays e).
Definition set_leapDays (v : Z) (e : GameEventData) : GameEventData :=
  mkGE (start e) (end_ e) (occurence e) (length_ e) (holiday_id e) (description e) (hardcoded e) (disabled e) (requiredPhase e) v.

Record GameEventCreatureData := mkGEC { entry_id : Z; display_id : Z; equipment_id : Z; spell_id_start : Z; spell_id_end : Z }.
Record GameEventMail := mkGEM { raceMask : Z; questId : Z; mailTemplateId : Z; senderEntry : Z }.

(** What is loaded once: the content of the events.  The lists of objects and
    of mails have a place for each event and for the absence of each event. *)
Record Content := mkContent {
  mGameEventCreatureGuids : list (list Z); mGameEventGameobjectGuids : list (list Z);
  mGameEventSpawnPoolIds : list (list Z); mGameEventCreatureData : list (list (Z * GameEventCreatureData));
  mGameEventCreatureDataPerGuid : list (Z * Z); mGameEventQuests : list (list Z); mGameEventMails : list (list GameEventMail);
  mGameEventHardcodedList : list Z }.
Definition Content_empty : Content := mkContent [] [] [] [] [] [] [] [].

#[global] Instance spawn_kind_eq_dec : EqDecision spawn_kind.
Proof. solve_decision. Defined.
#[global] Program Instance spawn_kind_countable : Countable spawn_kind :=
  inj_countable' (fun k => match k with KCreature => true | KGameObject => false end)
    (fun b : bool => if b then KCreature else KGameObject) _.
Next Obligation. by intros []. Qed.

(** What the war effort remembers beside its saved variables. *)
Record WarState := mkWar { stage : Z; lastStageTransitionTime : Z; gongRingTime : Z; lastAutoCompleteTime : Z }.
Definition WarState_empty : WarState := mkWar 0 0 0 0.

(** The manager ([mGameEvent], [m_ActiveEvents], the two flags and the content),
    and what it changes: the objects of the grid, the active quests, the table
    [game_event_status], the column [disabled] of [game_event], the saved
    variables with their table, the number of times a clock or a random number
    was read, and the members of the war effort. *)
Record GEWorld := mkGEW {
  mGameEvent : list GameEventData; m_ActiveEvents : gset Z; m_IsGameEventsInit : bool; m_IsSilithusEventCompleted : bool;
  content : Content; w_grid : gset (spawn_kind * Z); w_quests : gset Z; t_status : gset Z; t_disabled : gmap Z Z;
  m_SavedVariables : gmap Z Z; t_variables : gmap Z Z; reads : nat; drawn : nat; war : WarState }.

Definition set_events (l : list GameEventData) (w : GEWorld) : GEWorld :=
  mkGEW l (m_ActiveEvents w) (m_IsGameEventsInit w) (m_IsSilithusEventCompleted w) (content w) (w_grid w) (w_quests w)
    (t_status w) (t_disabled w) (m_SavedVariables w) (t_variables w) (reads w) (drawn w) (war w).
Definition set_active (a : gset Z) (w : GEWorld) : GEWorld :=
  mkGEW (mGameEvent w) a (m_IsGameEventsInit w) (m_IsSilithusEventCompleted w) (content w) (w_grid w) (w_quests w)
    (t_status w) (t_disabled w) (m_SavedVariables w) (t_variables w) (reads w) (drawn w) (war w).
Definition set_flags (init silithus : bool) (w : GEWorld) : GEWorld :=
  mkGEW (mGameEvent w) (m_ActiveEvents w) init silithus (content w) (w_grid w) (w_quests w)
    (t_status w) (t_disabled w) (m_SavedVariables w) (t_variables w) (reads w) (drawn w) (war w).
Definition set_content (c : Content) (w : GEWorld) : GEWorld :=
  mkGEW (mGameEvent w) (m_ActiveEvents w) (m_IsGameEventsInit w) (m_IsSilithusEventCompleted w) c (w_grid w) (w_quests w)
    (t_status w) (t_disabled w) (m_SavedVariables w) (t_variables w) (reads w) (drawn w) (war w).
Definition set_grid (g : gset (spawn_kind * Z)) (w : GEWorld) : GEWorld :=
  mkGEW (mGameEvent w) (m_ActiveEvents w) (m_IsGameEventsInit w) (m_IsSilithusEventCompleted w) (content w) g (w_quests w)
    (t_status w) (t_disabled w) (m_SavedVariables w) (t_variables w) (reads w) (drawn w) (war w).
Definition set_quests (q : gset Z) (w : GEWorld) : GEWorld :=
  mkGEW (mGameEvent w) (m_ActiveEvents w) (m_IsGameEventsInit w) (m_IsSilithusEventCompleted w) (content w) (w_grid w) q
    (t_status w) (t_disabled w) (m_SavedVariables w) (t_variables w) (reads w) (drawn w) (war w).
Definition set_tables (st : gset Z) (dis : gmap Z Z) (w : GEWorld) : GEWorld :=
  mkGEW (mGameEvent w) (m_ActiveEvents w) (m_IsGameEventsInit w) (m_IsSilithusEventCompleted w) (content w) (w_grid w) (w_quests w)
    st dis (m_SavedVariables w) (t_variables w) (reads w) (drawn w) (war w).
Definition set_variables (v t : gmap Z Z) (w : GEWorld) : GEWorld :=
  mkGEW (mGameEvent w) (m_ActiveEvents w) (m_IsGameEventsInit w) (m_IsSilithusEventCompleted w) (content w) (w_grid w) (w_quests w)
    (t_status w) (t_disabled w) v t (reads w) (drawn w) (war w).
Definition set_reads (n d : nat) (w : GEWorld) : GEWorld :=
  mkGEW (mGameEvent w) (m_ActiveEvents w) (m_IsGameEventsInit w) (m_IsSilithusEventCompleted w) (content w) (w_grid w) (w_quests w)
    (t_status w) (t_disabled w) (m_SavedVariables w) (t_variables w) n d (war w).

Definition set_war (x : WarState) (w : GEWorld) : GEWorld :=
  mkGEW (mGameEvent w) (m_ActiveEvents w) (m_IsGameEventsInit w) (m_IsSilithusEventCompleted w) (content w) (w_grid w) (w_quests w)
    (t_status w) (t_disabled w) (m_SavedVariables w) (t_variables w) (reads w) (drawn w) x.

(** The clock at each reading, the time zone, random numbers, the objects,
    pools, quests and scripts there are, what loading checks against, the
    creature of an entry with whether it is dead ([None] when it is not found),
    and the settings of the war effort: how much is added to an objective. *)
Record GameEnv := {
  clock : nat -> Z; localtime : Z -> tm; urand : nat -> Z -> Z -> Z;
  has_data : spawn_kind -> Z -> bool; IsPartOfAPool : spawn_kind -> Z -> Z; IsPartOfTopPool : spawn_kind -> Z -> Z;
  has_quest : Z -> bool; has_script : Z -> bool; event_announce : bool; content_phase : Z;
  has_equipment : Z -> bool; has_creature : Z -> bool; has_spell : Z -> bool; has_mail : Z -> bool;
  GetOneCreatureByEntry : Z -> Z; creature_dead : nat -> Z -> option bool;
  resource_rate : bool; resource_increase : Z -> Z; autocomplete_period : Z }.

Abbreviation EM := (St (GEWorld * list effect) ByteBufferException).
Definition seen {A} (f : GEWorld -> A) : EM A := st_get (fun s => f s.1).
Definition change (f : GEWorld -> GEWorld) : EM unit := st_mod (fun s => (f s.1, s.2)).
Definition tell (c : game_call) : EM unit := ev (EvGame c).

(** ** When an event is on *)

Definition period (e : GameEventData) : Z := u32 (occurence e * MINUTE).
Definition duration (e : GameEventData) : Z := u32 (length_ e * MINUTE).
(** How far the event is in its period: [%] takes the sign of the time that has
    passed, and division by zero is undefined. *)
Definition elapsed (now : Z) (e : GameEventData) : Z := now - start e - leapDays e * DAY.
Definition phase (now : Z) (e : GameEventData) : option Z :=
  if period e =? 0 then None else Some (Z.rem (elapsed now e) (period e)).
(** [CheckOneGameEvent]. *)
Definition is_on (now : Z) (e : GameEventData) : option bool :=
  if (start e <=? now) && (now <? end_ e) then (fun r => r <? duration e) <$> phase now e else Some false.
(** [NextCheck]. *)
Definition next_check (now : Z) (e : GameEventData) : option Z :=
  if now >? end_ e then Some max_ge_check_delay
  else if start e >? now then Some (u32 (start e - now))
  else
    (fun r =>
       let delay := u32 ((if r <? duration e then duration e else period e) - r) in
       if end_ e <? now + delay then u32 (end_ e - now) else delay) <$> phase now e.

Section manager.
Context (env : GameEnv).

(** [time(nullptr)]. *)
Definition time : EM Z :=
  let! n := seen reads in change (fun w => set_reads (S n) (drawn w) w) ;;; st_ret (clock env n).

Definition event_at (id : Z) : EM GameEventData := let! l := seen mGameEvent in deref (l !! Z.to_nat id).
Definition event_mod (id : Z) (f : GameEventData -> GameEventData) : EM unit :=
  let! e := event_at id in change (fun w => set_events (<[Z.to_nat id := f e]> (mGameEvent w)) w).
Definition CheckOneGameEvent (entry currenttime : Z) : EM bool :=
  let! e := event_at entry in deref (is_on currenttime e).
Definition NextCheck (entry : Z) : EM Z :=
  let! currenttime := time in let! e := event_at entry in deref (next_check currenttime e).

Definition IsValidEvent (event_id : Z) (w : GEWorld) : bool :=
  (event_id <? Z.of_nat (length (mGameEvent w)))
  && match mGameEvent w !! Z.to_nat event_id with Some e => isValid e | None => false end.
Definition IsActiveEvent (event_id : Z) (w : GEWorld) : bool := bool_decide (event_id ∈ m_ActiveEvents w).
Definition IsEnabled (event_id : Z) (w : GEWorld) : bool :=
  IsValidEvent event_id w && match mGameEvent w !! Z.to_nat event_id with Some e => disabled e =? 0 | None => false end.

(** ** Objects *)

(** The place of an event, or of its absence, in the lists. *)
Definition internal_id (event_id : Z) (w : GEWorld) : Z := s32 (Z.of_nat (length (mGameEvent w)) + event_id - 1).

(** An object of a pool appears when the absence of an event ends by its pool;
    others are put into the grid. *)
Definition spawn_object (kind : spawn_kind) (event_id guid : Z) : EM unit :=
  if has_data env kind guid then
    if (event_id <? 0) && truth (IsPartOfAPool env kind guid) then
      tell (EPoolExclude kind (IsPartOfAPool env kind guid) guid false) ;;;
      tell (EPoolUpdate kind (IsPartOfAPool env kind guid) 0)
    else
      change (fun w => set_grid ({[(kind, guid)]} ∪ w_grid w) w) ;;;
      tell (ESpawnInMaps kind guid)
  else st_ret tt.
Definition unspawn_object (kind : spawn_kind) (event_id guid : Z) : EM unit :=
  if has_data env kind guid then
    if (event_id <? 0) && truth (IsPartOfAPool env kind guid) then
      tell (EPoolExclude kind (IsPartOfAPool env kind guid) guid true) ;;;
      tell (EPoolUpdate kind (IsPartOfAPool env kind guid) guid)
    else
      change (fun w => set_grid (w_grid w ∖ {[(kind, guid)]}) w) ;;;
      tell (ERemoveInMaps kind guid)
  else st_ret tt.
(** Both functions walk over the same lists. *)
Definition walk_objects (f : spawn_kind -> Z -> Z -> EM unit) (pool : Z -> game_call) (event_id : Z) : EM unit :=
  let! i := seen (internal_id event_id) in
  let! creatures := seen (fun w => mGameEventCreatureGuids (content w)) in
  if (i <? 0) || (Z.of_nat (length creatures) <=? i) then st_ret tt
  else
    let! l := deref (creatures !! Z.to_nat i) in
    each (f KCreature event_id) l ;;;
    let! objects := seen (fun w => mGameEventGameobjectGuids (content w)) in
    if (i <? 0) || (Z.of_nat (length objects) <=? i) then st_ret tt
    else
      let! l := deref (objects !! Z.to_nat i) in
      each (f KGameObject event_id) l ;;;
      if event_id >? 0 then
        let! pools := seen (fun w => mGameEventSpawnPoolIds (content w)) in
        if Z.of_nat (length pools) <=? event_id then st_ret tt
        else
          let! l := deref (pools !! Z.to_nat event_id) in
          each (fun p => tell (pool p)) l
      else st_ret tt.
Definition GameEventSpawn : Z -> EM unit := walk_objects spawn_object EPoolSpawn.
Definition GameEventUnspawn : Z -> EM unit := walk_objects unspawn_object EPoolDespawn.

Definition index_at {A} (f : Content -> list A) (i : Z) : EM A :=
  let! l := seen (fun w => f (content w)) in if i <? 0 then deref None else deref (l !! Z.to_nat i).

Definition UpdateCreatureData (event_id : Z) (activate : bool) : EM unit :=
  let! l := index_at mGameEventCreatureData event_id in
  each (fun e : Z * GameEventCreatureData =>
    if has_data env KCreature e.1
    then tell (ELook e.1 (entry_id e.2) (display_id e.2) (equipment_id e.2) (spell_id_start e.2) (spell_id_end e.2) activate)
    else st_ret tt) l.
Definition UpdateEventQuests (event_id : Z) (Activate : bool) : EM unit :=
  let! l := index_at mGameEventQuests event_id in
  each (fun q => if has_quest env q
    then change (fun w => set_quests (if Activate then {[q]} ∪ w_quests w else w_quests w ∖ {[q]}) w)
    else deref None) l.
Definition SendEventMails (event_id : Z) : EM unit :=
  let! i := seen (internal_id event_id) in
  let! l := index_at mGameEventMails i in
  each (fun mail => tell (EMail (mailTemplateId mail) (senderEntry mail) (raceMask mail) (questId mail))) l.

(** ** Starting and stopping *)

Definition UnApplyEvent (event_id : Z) : EM unit :=
  change (fun w => set_active (m_ActiveEvents w ∖ {[event_id]}) w) ;;;
  change (fun w => set_tables (t_status w ∖ {[event_id]}) (t_disabled w) w) ;;;
  GameEventUnspawn (s16 event_id) ;;;
  GameEventSpawn (s16 (- event_id)) ;;;
  UpdateCreatureData (s16 event_id) false ;;;
  UpdateEventQuests event_id false ;;;
  SendEventMails (s16 (- event_id)).
Definition ApplyNewEvent (event_id : Z) (resume : bool) : EM unit :=
  change (fun w => set_active ({[event_id]} ∪ m_ActiveEvents w) w) ;;;
  change (fun w => set_tables ({[event_id]} ∪ t_status w) (t_disabled w) w) ;;;
  (if event_announce env then let! e := event_at event_id in tell (EWorldText (description e)) else st_ret tt) ;;;
  GameEventSpawn (s16 event_id) ;;;
  GameEventUnspawn (s16 (- event_id)) ;;;
  UpdateCreatureData (s16 event_id) true ;;;
  UpdateEventQuests event_id true ;;;
  if resume then st_ret tt else SendEventMails (s16 event_id).

Definition script_hook (c : Z -> game_call) (event_id : Z) : EM unit :=
  if has_script env event_id then tell (c event_id) else st_ret tt.

(** Start and end as an administrator sets them. *)
Definition respan (s : Z) (e : GameEventData) : GameEventData :=
  set_span s (if end_ e <=? s then s + length_ e else end_ e) e.

(** The virtual methods of the world events, by their ids. *)
Record WorldEvents := { we_Update : Z -> EM unit; we_Enable : Z -> EM unit; we_Disable : Z -> EM unit; we_Delay : Z -> EM Z }.
(** [std::find_if] in [mGameEventHardcodedList]. *)
Definition is_world_event (event_id : Z) (w : GEWorld) : bool :=
  bool_decide (event_id ∈ mGameEventHardcodedList (content w)).

Definition StartEvent (Enable : Z -> EM unit) (event_id : Z) (overwrite resume : bool) : EM unit :=
  let! valid := seen (IsValidEvent event_id) in
  if negb valid then st_ret tt
  else
    ApplyNewEvent event_id resume ;;;
    let! e := event_at event_id in
    (if truth (hardcoded e) && negb (truth (disabled e)) then
       let! there := seen (is_world_event event_id) in if there : bool then Enable event_id else st_ret tt
     else st_ret tt) ;;;
    (if overwrite then let! now := time in event_mod event_id (respan now) else st_ret tt) ;;;
    script_hook EOnStart event_id.
Definition StopEvent (event_id : Z) (overwrite : bool) : EM unit :=
  let! valid := seen (IsValidEvent event_id) in
  if negb valid then st_ret tt
  else
    UnApplyEvent event_id ;;;
    (if overwrite then
       let! now := time in let! e := event_at event_id in event_mod event_id (respan (now - duration e))
     else st_ret tt) ;;;
    script_hook EOnStop event_id.
Definition EnableEvent (Enable Disable : Z -> EM unit) (event_id : Z) (enable updateDB : bool) : EM unit :=
  let! valid := seen (IsValidEvent event_id) in
  if negb valid then st_ret tt
  else
    let v := if enable then 0 else 1 in
    let! e := event_at event_id in
    if disabled e =? v then st_ret tt
    else
      event_mod event_id (set_disabled v) ;;;
      (if updateDB then change (fun w => set_tables (t_status w) (<[event_id := v]> (t_disabled w)) w) else st_ret tt) ;;;
      let! active := seen (IsActiveEvent event_id) in
      if negb active then st_ret tt
      else
        let! there := seen (is_world_event event_id) in
        if there : bool then (if enable then Enable event_id else Disable event_id)
        else StopEvent event_id true.

(** ** The update *)

Definition earlier (delay next : Z) : Z := if delay <? next then delay else next.
Fixpoint update_world_events (W : WorldEvents) (next : Z) (l : list Z) : EM Z :=
  match l with
  | [] => st_ret next
  | id :: l' =>
      let! e := event_at id in
      if truth (disabled e) then update_world_events W next l'
      else
        we_Update W id ;;;
        script_hook EOnUpdate id ;;;
        let! delay := we_Delay W id in
        update_world_events W (earlier delay next) l'
  end.
(** One event of the calendar. *)
Definition update_event (W : WorldEvents) (activeAtShutdown : gset Z) (currenttime itr : Z) : EM unit :=
  let! on := CheckOneGameEvent itr currenttime in
  let! active := seen (IsActiveEvent itr) in
  if on : bool then
    script_hook EOnUpdate itr ;;;
    if active : bool then st_ret tt else StartEvent (we_Enable W) itr false (bool_decide (itr ∈ activeAtShutdown))
  else if active : bool then StopEvent itr false
  else
    let! init := seen m_IsGameEventsInit in
    if negb init then GameEventSpawn (s16 (- itr)) else st_ret tt.
Fixpoint update_events (W : WorldEvents) (activeAtShutdown : gset Z) (currenttime next : Z) (l : list Z) : EM Z :=
  match l with
  | [] => st_ret next
  | itr :: l' =>
      let! e := event_at itr in
      if truth (hardcoded e) || truth (disabled e) then update_events W activeAtShutdown currenttime next l'
      else
        update_event W activeAtShutdown currenttime itr ;;;
        let! delay := NextCheck itr in
        update_events W activeAtShutdown currenttime (earlier delay next) l'
  end.
(** The ids from one on. *)
Definition event_ids (w : GEWorld) : list Z := Z.of_nat <$> seq 1 (length (mGameEvent w) - 1).
Definition Update (W : WorldEvents) (activeAtShutdown : gset Z) : EM Z :=
  let! currenttime := time in
  let! worldEvents := seen (fun w => mGameEventHardcodedList (content w)) in
  let! nextEventDelay := update_world_events W max_ge_check_delay worldEvents in
  let! ids := seen event_ids in
  let! nextEventDelay := update_events W activeAtShutdown currenttime nextEventDelay ids in
  st_ret (u32 (u32 (nextEventDelay + 1) * IN_MILLISECONDS)).

(** [GameEventMgr::Initialize()]. *)
Definition Initialize (W : WorldEvents) : EM Z :=
  change (set_active ∅) ;;;
  let! activeAtShutdown := seen t_status in
  change (fun w => set_tables ∅ (t_disabled w) w) ;;;
  let! delay := Update W activeAtShutdown in
  change (fun w => set_flags true (m_IsSilithusEventCompleted w) w) ;;;
  st_ret delay.
(** [GameEventMgr::Initialize] of the state of a map. *)
Definition Initialize_map (state : Z) : EM unit :=
  let! active := seen m_ActiveEvents in
  each (fun i => let! l := index_at mGameEventSpawnPoolIds i in each (fun p => tell (EPoolInit state p)) l)
    (merge_sort Z.le (elements active)).

(** ** Questions *)

Definition GetCreatureUpdateDataForActiveEvent (lowguid : Z) (w : GEWorld) : option GameEventCreatureData :=
  match List.find (fun e => (e.1 =? lowguid) && IsActiveEvent e.2 w) (mGameEventCreatureDataPerGuid (content w)) with
  | Some (_, event_id) =>
      if event_id =? 0 then None
      else
        match mGameEventCreatureData (content w) !! Z.to_nat event_id with
        | Some l => snd <$> List.find (fun d => d.1 =? lowguid) l
        | None => None
        end
  | None => None
  end.
(** The index of the first list that has the number. *)
Definition first_list (guid : Z) (l : list (list Z)) : option nat := fst <$> list_find (fun g => guid ∈ g) l.
Definition GetGameEventId_Creature (guid : Z) (w : GEWorld) : Z :=
  match first_list guid (mGameEventCreatureGuids (content w)) with
  | Some i => s16 (Z.of_nat i + 1 - Z.of_nat (length (mGameEvent w))) | None => 0 end.
Definition GetGameEventId_GameObject (guid : Z) (w : GEWorld) : Z :=
  match first_list guid (mGameEventGameobjectGuids (content w)) with
  | Some i => s16 (Z.of_nat i + 1 - Z.of_nat (length (mGameEvent w))) | None => 0 end.
Definition GetGameEventId_Pool (pool : Z) (w : GEWorld) : Z :=
  match first_list pool (mGameEventSpawnPoolIds (content w)) with Some i => s16 (Z.of_nat i) | None => 0 end.
Definition IsActiveHoliday (id : Z) (w : GEWorld) : bool :=
  if id =? HOLIDAY_NONE then false
  else List.existsb (fun i => match mGameEvent w !! Z.to_nat i with Some e => holiday_id e =? id | None => false end)
         (merge_sort Z.le (elements (m_ActiveEvents w))).

(** ** Saved variables *)

Definition GetSavedVariable (index defaultValue : Z) (w : GEWorld) : Z := default defaultValue (m_SavedVariables w !! index).
Definition SetSavedVariable (index value : Z) (autoSave : bool) : EM unit :=
  let! v := seen (fun w => m_SavedVariables w !! index) in
  if bool_decide (v = Some value) then st_ret tt
  else change (fun w => set_variables (<[index := value]> (m_SavedVariables w))
                          (if autoSave then <[index := value]> (t_variables w) else t_variables w) w).
Definition draw_number (lo hi : Z) : EM Z :=
  let! n := seen drawn in change (fun w => set_reads (reads w) (S n) w) ;;; st_ret (urand env n lo hi).
Definition if_active (id : Z) (m : EM unit) : EM unit :=
  let! a := seen (IsActiveEvent id) in if a : bool then m else st_ret tt.
End manager.
Arguments we_Update W : rename.
Arguments we_Enable W : rename.
Arguments we_Disable W : rename.
Arguments we_Delay W : rename.
