(* ===== verification/WarEffort.v ===== *)
(** * WarEffort: the gates of Ahn'Qiraj

    [WarEffortEvent] of [src/game/HardcodedEvents.h] and [.cpp], with the
    resources of [src/scripts/events/event_wareffort.h] and [.cpp]: a state
    machine over thirteen stages, kept in saved variables, that starts and stops
    the events of its stages. *)

From S2P Require Import Prelude ByteBuffer ObjectGuid Packets Effects GameEvents.

Local Open Scope prog_scope.

(** ** Stages, events, variables *)

Definition HOUR := 3600.
Definition WAR_EFFORT_STAGE_COLLECTION := 0.
Definition WAR_EFFORT_STAGE_READY := 1.
Definition WAR_EFFORT_STAGE_MOVE_1 := 2.
Definition WAR_EFFORT_STAGE_MOVE_5 := 6.
Definition WAR_EFFORT_STAGE_GONG_WAIT := 7.
Definition WAR_EFFORT_STAGE_GONG_RUNG := 8.
Definition WAR_EFFORT_STAGE_BATTLE := 9.
Definition WAR_EFFORT_STAGE_CH_ATTACK := 10.
Definition WAR_EFFORT_STAGE_FINALBATTLE := 11.
Definition WAR_EFFORT_STAGE_COMPLETE := 12.
Definition WAR_EFFORT_COLLECTION_TRANSITION_TIME := 10 * MINUTE.
Definition WAR_EFFORT_MOVE_TRANSITION_TIME := DAY.
Definition WAR_EFFORT_GONG_DURATION := 10 * HOUR.
Definition WAR_EFFORT_CH_ATTACK_TIME := 4 * HOUR.
Definition WAR_EFFORT_FINAL_BATTLE_TIME := 4 * HOUR.
Definition WAR_EFFORT_TEXT_CRYSTALS := -1000008.
Definition WAR_EFFORT_TEXT_BATTLE_OVER := -1780312.
Definition WAR_EFFORT_ASHI_REWARD := 0x01.
Definition WAR_EFFORT_ZORA_REWARD := 0x02.
Definition WAR_EFFORT_REGAL_REWARD := 0x04.

Definition EVENT_WAR_EFFORT_COLLECT_OBJ := 22.
Definition EVENT_WAR_EFFORT_REP := 52.
Definition EVENT_WAR_EFFORT_OFFICERS := 53.
Definition EVENT_WAR_EFFORT_TRANSITION_DAY1 := 54.
Definition EVENT_WAR_EFFORT_TRANSITION_DAY2 := 55.
Definition EVENT_WAR_EFFORT_TRANSITION_DAY3 := 56.
Definition EVENT_WAR_EFFORT_TRANSITION_DAY4 := 57.
Definition EVENT_WAR_EFFORT_TRANSITION_DAY5 := 58.
Definition EVENT_WAR_EFFORT_CH_ATTACK := 59.
Definition EVENT_WAR_EFFORT_TROOPS2 := 60.
Definition EVENT_WAR_EFFORT_FINALBATTLE := 61.
Definition EVENT_WAR_EFFORT_BATTLE_ASHI := 62.
Definition EVENT_WAR_EFFORT_BATTLE_REGAL := 63.
Definition EVENT_WAR_EFFORT_BATTLE_ZORA := 64.
Definition EVENT_WAR_EFFORT_WORLD_CRYSTALS := 65.
Definition EVENT_AQ_GATE := 83.
Definition EVENT_WAR_EFFORT := 84.
Definition EVENT_WAR_EFFORT_GONG := 85.
Definition EVENT_WAR_EFFORT_POST_WAR := 86.

Definition VAR_WE_ALLIANCE_COPPER := 30024.
Definition VAR_WE_HORDE_COPPER := 30025.
Definition VAR_WE_ALLIANCE_PURPLELOTUS := 30026.
Definition VAR_WE_HORDE_PURPLELOTUS := 30027.
Definition VAR_WE_ALLIANCE_THICKLEATHER := 30028.
Definition VAR_WE_HORDE_THICKLEATHER := 30029.
Definition VAR_WE_ALLIANCE_SPOTYELLOW := 30030.
Definition VAR_WE_HORDE_SPOTYELLOW := 30031.
Definition VAR_WE_ALLIANCE_RUNEBANDAGE := 30032.
Definition VAR_WE_HORDE_RUNEBANDAGE := 30033.
Definition VAR_WE_STAGE := 30050.
Definition VAR_WE_STAGE_TRANSITION_TIME := 30051.
Definition VAR_WE_GONG_TIME := 30052.
Definition VAR_WE_AUTOCOMPLETE_TIME := 30054.
Definition VAR_WE_HIVE_REWARD := 30055.

(** The events of each stage, without the empty places of the array. *)
Definition transition_days : list Z :=
  [EVENT_WAR_EFFORT_TRANSITION_DAY1; EVENT_WAR_EFFORT_TRANSITION_DAY2; EVENT_WAR_EFFORT_TRANSITION_DAY3;
   EVENT_WAR_EFFORT_TRANSITION_DAY4; EVENT_WAR_EFFORT_TRANSITION_DAY5].
Definition warEffortStageEvents : list (list Z) :=
  [ [EVENT_WAR_EFFORT_COLLECT_OBJ; EVENT_WAR_EFFORT_REP; EVENT_AQ_GATE];
    [EVENT_WAR_EFFORT_COLLECT_OBJ; EVENT_WAR_EFFORT_REP; EVENT_WAR_EFFORT_OFFICERS; EVENT_AQ_GATE];
    [EVENT_WAR_EFFORT_COLLECT_OBJ; EVENT_WAR_EFFORT_REP; EVENT_WAR_EFFORT_OFFICERS; EVENT_WAR_EFFORT_TRANSITION_DAY1; EVENT_AQ_GATE];
    [EVENT_WAR_EFFORT_COLLECT_OBJ; EVENT_WAR_EFFORT_REP; EVENT_WAR_EFFORT_OFFICERS] ++ take 2 transition_days ++ [EVENT_AQ_GATE];
    [EVENT_WAR_EFFORT_COLLECT_OBJ; EVENT_WAR_EFFORT_REP; EVENT_WAR_EFFORT_OFFICERS] ++ take 3 transition_days ++ [EVENT_AQ_GATE];
    [EVENT_WAR_EFFORT_COLLECT_OBJ; EVENT_WAR_EFFORT_REP; EVENT_WAR_EFFORT_OFFICERS] ++ take 4 transition_days ++ [EVENT_AQ_GATE];
    [EVENT_WAR_EFFORT_COLLECT_OBJ; EVENT_WAR_EFFORT_REP; EVENT_WAR_EFFORT_OFFICERS] ++ transition_days ++ [EVENT_AQ_GATE];
    [EVENT_WAR_EFFORT_REP; EVENT_WAR_EFFORT_OFFICERS] ++ transition_days ++ [EVENT_WAR_EFFORT_GONG; EVENT_AQ_GATE];
    [EVENT_WAR_EFFORT_REP; EVENT_WAR_EFFORT_OFFICERS] ++ transition_days ++ [EVENT_WAR_EFFORT_GONG];
    [EVENT_WAR_EFFORT_REP; EVENT_WAR_EFFORT_OFFICERS] ++ transition_days ++ [EVENT_WAR_EFFORT_GONG; EVENT_WAR_EFFORT_WORLD_CRYSTALS];
    [EVENT_WAR_EFFORT_REP; EVENT_WAR_EFFORT_OFFICERS] ++ transition_days
      ++ [EVENT_WAR_EFFORT_GONG; EVENT_WAR_EFFORT_WORLD_CRYSTALS; EVENT_WAR_EFFORT_CH_ATTACK];
    [EVENT_WAR_EFFORT_REP; EVENT_WAR_EFFORT_OFFICERS] ++ transition_days
      ++ [EVENT_WAR_EFFORT_GONG; EVENT_WAR_EFFORT_WORLD_CRYSTALS; EVENT_WAR_EFFORT_FINALBATTLE];
    [EVENT_WAR_EFFORT_REP; EVENT_WAR_EFFORT_OFFICERS; EVENT_WAR_EFFORT_POST_WAR] ].
(** The events that belong to stages. *)
Definition stage_events : list Z :=
  [EVENT_WAR_EFFORT_COLLECT_OBJ; EVENT_WAR_EFFORT_REP; EVENT_WAR_EFFORT_OFFICERS] ++ transition_days
  ++ [EVENT_WAR_EFFORT_CH_ATTACK; EVENT_WAR_EFFORT_TROOPS2; EVENT_WAR_EFFORT_FINALBATTLE; EVENT_WAR_EFFORT_WORLD_CRYSTALS;
      EVENT_AQ_GATE; EVENT_WAR_EFFORT_GONG; EVENT_WAR_EFFORT_POST_WAR].

(** ** Resources *)

Definition TEAM_ALLIANCE := 0.
Definition TEAM_HORDE := 1.
(** Items with what is required of them. *)
Definition SharedObjectives : list (Z * Z) :=
  [(2840, 90000 / 6); (8831, 26000 / 6); (4304, 80000 / 6); (6887, 17000 / 3); (14529, 400000 / 4)].
(** The variable of such an objective is the id of its item. *)
Definition AllianceObjectives : list (Z * Z) :=
  [(3575, 28000 / 2); (12359, 24000 / 2); (8836, 20000 / 2); (3820, 33000 / 6); (2318, 180000 / 6); (2319, 110000 / 4);
   (12210, 20000 / 4); (5095, 14000 / 6); (1251, 800000 / 8); (6450, 600000 / 6)].
Definition HordeObjectives : list (Z * Z) :=
  [(3576, 22000 / 4); (3860, 18000 / 2); (2447, 96000 / 8); (4625, 19000 / 4); (4234, 60000 / 4); (8170, 60000 / 4);
   (12209, 10000 / 6); (13935, 10000 / 4); (3530, 250000 / 6); (8544, 250000 / 6)].

Definition GetSharedSavedVar (item team : Z) : Z :=
  if team >? 1 then 0
  else if team =? TEAM_ALLIANCE then
    (if item =? 2840 then VAR_WE_ALLIANCE_COPPER else if item =? 8831 then VAR_WE_ALLIANCE_PURPLELOTUS
     else if item =? 4304 then VAR_WE_ALLIANCE_THICKLEATHER else if item =? 6887 then VAR_WE_ALLIANCE_SPOTYELLOW
     else if item =? 14529 then VAR_WE_ALLIANCE_RUNEBANDAGE else 0)
  else if team =? TEAM_HORDE then
    (if item =? 2840 then VAR_WE_HORDE_COPPER else if item =? 8831 then VAR_WE_HORDE_PURPLELOTUS
     else if item =? 4304 then VAR_WE_HORDE_THICKLEATHER else if item =? 6887 then VAR_WE_HORDE_SPOTYELLOW
     else if item =? 14529 then VAR_WE_HORDE_RUNEBANDAGE else 0)
  else 0.
Definition GetTeamStock (item team : Z) (w : GEWorld) : Z := GetSavedVariable (GetSharedSavedVar item team) 0 w.
(** The count and the requirement of [GetWarEffortStockInfo]. *)
Definition GetWarEffortStockInfo (resourceId team : Z) (w : GEWorld) : option (Z * Z) :=
  match List.find (fun o => o.1 =? resourceId) SharedObjectives with
  | Some o => Some (GetTeamStock resourceId team w, o.2)
  | None =>
      match List.find (fun o : (Z * Z) * (Z * Z) => (o.1.1 =? resourceId) || (o.2.1 =? resourceId)) (zip AllianceObjectives HordeObjectives) with
      | Some (a, h) => let o := if a.1 =? resourceId then a else h in Some (GetSavedVariable o.1 0 w, o.2)
      | None => None
      end
  end.
Definition completed (resourceId team : Z) (w : GEWorld) : Z :=
  match GetWarEffortStockInfo resourceId team w with Some (count, required) => if required <=? count then 1 else 0 | None => 0 end.
Definition completedObjectives (w : GEWorld) : Z :=
  foldr Z.add 0 ((fun o => completed o.1 TEAM_ALLIANCE w + completed o.1 TEAM_HORDE w) <$> SharedObjectives)
  + foldr Z.add 0 ((fun o => completed o.1 TEAM_ALLIANCE w) <$> AllianceObjectives ++ HordeObjectives).
Definition objectiveGoal : Z := 2 * Z.of_nat (length SharedObjectives) + 2 * Z.of_nat (length AllianceObjectives).

Section war_effort.
Context (env : GameEnv).
(** What the other world events do when they are enabled and disabled. *)
Context (Enable Disable : Z -> EM unit).

Definition AutoCompleteWarEffortResource (required savedVar : Z) : EM unit :=
  let! amount := seen (GetSavedVariable savedVar 0) in
  if required <=? amount then st_ret tt
  else
    let increase := resource_increase env required in
    let increase := if u32 (amount + increase) >? required then required - amount else increase in
    SetSavedVariable savedVar (u32 (amount + increase)) true.
Definition AutoCompleteWarEffortProgress : EM unit :=
  if negb (resource_rate env) then st_ret tt
  else
    each (fun o : (Z * Z) * (Z * Z) =>
      AutoCompleteWarEffortResource o.1.2 o.1.1 ;;; AutoCompleteWarEffortResource o.2.2 o.2.1) (zip AllianceObjectives HordeObjectives) ;;;
    each (fun o : Z * Z =>
      AutoCompleteWarEffortResource o.2 (GetSharedSavedVar o.1 TEAM_ALLIANCE) ;;;
      AutoCompleteWarEffortResource o.2 (GetSharedSavedVar o.1 TEAM_HORDE)) SharedObjectives.

(** ** Events *)

Definition EnableAndStartEvent (event_id : Z) : EM unit :=
  let! active := seen (IsActiveEvent event_id) in
  if active : bool then st_ret tt
  else
    let! enabled := seen (IsEnabled event_id) in
    (if enabled : bool then st_ret tt else EnableEvent env Enable Disable event_id true true) ;;;
    StartEvent env Enable event_id false false.
Definition DisableAndStopEvent (event_id : Z) : EM unit :=
  if_active event_id (StopEvent env event_id false) ;;;
  let! enabled := seen (IsEnabled event_id) in
  if enabled : bool then EnableEvent env Enable Disable event_id false true else st_ret tt.

(** What is required and does not run, and what runs and is not required. *)
Fixpoint settle (required active : list Z) : list Z * list Z :=
  match required with
  | [] => ([], active)
  | r :: required' =>
      if bool_decide (r ∈ active) then settle required' (list_difference active [r])
      else let '(start, stop) := settle required' active in (r :: start, stop)
  end.
Definition UpdateStageEvents : EM unit :=
  let! w := seen id in
  let! required := deref (warEffortStageEvents !! Z.to_nat (stage (war w))) in
  let '(start, stop) := settle required (filter (fun e => IsActiveEvent e w = true) stage_events) in
  each DisableAndStopEvent stop ;;;
  each (fun e => let! active := seen (IsActiveEvent e) in if active : bool then st_ret tt else EnableAndStartEvent e) start.
Definition UpdateHiveColossusEvents : EM unit :=
  let! colossusMask := seen (GetSavedVariable VAR_WE_HIVE_REWARD 0) in
  let on mask e := if truth (Z.land colossusMask mask) then [e] else [] in
  each (fun e => let! active := seen (IsActiveEvent e) in if active : bool then st_ret tt else StartEvent env Enable e true false)
    (on WAR_EFFORT_ASHI_REWARD EVENT_WAR_EFFORT_BATTLE_ASHI ++ on WAR_EFFORT_ZORA_REWARD EVENT_WAR_EFFORT_BATTLE_ZORA
     ++ on WAR_EFFORT_REGAL_REWARD EVENT_WAR_EFFORT_BATTLE_REGAL).

(** ** Stages *)

Definition put_war (f : WarState -> WarState) : EM unit := change (fun w => set_war (f (war w)) w).
Definition put_stage (s : Z) : EM unit :=
  put_war (fun x => mkWar s (lastStageTransitionTime x) (gongRingTime x) (lastAutoCompleteTime x)).
Definition UpdateVariables : EM unit :=
  let! w := seen id in
  put_war (fun _ => mkWar (GetSavedVariable VAR_WE_STAGE WAR_EFFORT_STAGE_COLLECTION w) (GetSavedVariable VAR_WE_STAGE_TRANSITION_TIME 0 w)
                      (GetSavedVariable VAR_WE_GONG_TIME 0 w) (GetSavedVariable VAR_WE_AUTOCOMPLETE_TIME 0 w)).
Definition UpdateStageTransitionTime : EM unit :=
  let! now := time env in
  put_war (fun x => mkWar (stage x) (u32 now) (gongRingTime x) (lastAutoCompleteTime x)) ;;;
  SetSavedVariable VAR_WE_STAGE_TRANSITION_TIME (u32 now) true.
(** A stage is entered, and the time noted. *)
Definition enter_stage (s : Z) : EM unit := put_stage s ;;; UpdateStageTransitionTime.
Definition IncrementWarEffortTransition : EM unit := let! s := seen (fun w => stage (war w)) in enter_stage (s + 1).
Definition CompleteWarEffort : EM unit :=
  each DisableAndStopEvent [EVENT_AQ_GATE; EVENT_WAR_EFFORT_BATTLE_ASHI; EVENT_WAR_EFFORT_BATTLE_REGAL; EVENT_WAR_EFFORT_BATTLE_ZORA] ;;;
  put_stage WAR_EFFORT_STAGE_COMPLETE ;;;
  SetSavedVariable VAR_WE_STAGE WAR_EFFORT_STAGE_COMPLETE true.
Definition UpdateWarEffortCollection (now : Z) : EM unit :=
  let! last := seen (fun w => lastAutoCompleteTime (war w)) in
  (if u32 (now - last) >? autocomplete_period env then
     AutoCompleteWarEffortProgress ;;;
     put_war (fun x => mkWar (stage x) (lastStageTransitionTime x) (gongRingTime x) now) ;;;
     SetSavedVariable VAR_WE_AUTOCOMPLETE_TIME now true
   else st_ret tt) ;;;
  let! n := seen completedObjectives in
  if objectiveGoal <=? n then enter_stage WAR_EFFORT_STAGE_READY else st_ret tt.

(** The seconds since the stage was entered, in 32 bits. *)
Definition in_stage (now : Z) (w : GEWorld) : Z := u32 (now - lastStageTransitionTime (war w)).
Definition WarEffort_stage (now : Z) : EM unit :=
  let! w := seen id in
  let s := stage (war w) in
  if s =? WAR_EFFORT_STAGE_COLLECTION then UpdateWarEffortCollection now
  else if s =? WAR_EFFORT_STAGE_READY then
    if in_stage now w >? WAR_EFFORT_COLLECTION_TRANSITION_TIME then enter_stage WAR_EFFORT_STAGE_MOVE_1 else st_ret tt
  else if (WAR_EFFORT_STAGE_MOVE_1 <=? s) && (s <=? WAR_EFFORT_STAGE_MOVE_5) then
    if in_stage now w >? WAR_EFFORT_MOVE_TRANSITION_TIME then IncrementWarEffortTransition else st_ret tt
  else if s =? WAR_EFFORT_STAGE_GONG_WAIT then
    if truth (gongRingTime (war w)) then enter_stage WAR_EFFORT_STAGE_GONG_RUNG else st_ret tt
  else if s =? WAR_EFFORT_STAGE_GONG_RUNG then
    (if truth (gongRingTime (war w)) then st_ret tt
     else put_war (fun x => mkWar (stage x) (lastStageTransitionTime x) now (lastAutoCompleteTime x)) ;;;
          SetSavedVariable VAR_WE_GONG_TIME now true) ;;;
    DisableAndStopEvent EVENT_AQ_GATE ;;;
    enter_stage WAR_EFFORT_STAGE_BATTLE ;;;
    tell (EWorldTextId WAR_EFFORT_TEXT_CRYSTALS) ;;;
    UpdateStageEvents
  else if s =? WAR_EFFORT_STAGE_BATTLE then
    UpdateStageEvents ;;;
    let! w := seen id in
    if in_stage now w >? WAR_EFFORT_CH_ATTACK_TIME then enter_stage WAR_EFFORT_STAGE_CH_ATTACK else st_ret tt
  else if s =? WAR_EFFORT_STAGE_CH_ATTACK then
    if in_stage now w >? WAR_EFFORT_FINAL_BATTLE_TIME then enter_stage WAR_EFFORT_STAGE_FINALBATTLE else st_ret tt
  else if s =? WAR_EFFORT_STAGE_FINALBATTLE then
    if u32 (now - gongRingTime (war w)) >? WAR_EFFORT_GONG_DURATION then
      tell (EWorldTextId WAR_EFFORT_TEXT_BATTLE_OVER) ;;;
      enter_stage WAR_EFFORT_STAGE_COMPLETE ;;;
      UpdateStageEvents
    else st_ret tt
  else st_ret tt.
Definition WarEffort_Update : EM unit :=
  UpdateVariables ;;;
  UpdateStageEvents ;;;
  let! s := seen (fun w => stage (war w)) in
  if s =? WAR_EFFORT_STAGE_COMPLETE then
    if_active EVENT_WAR_EFFORT (StopEvent env EVENT_WAR_EFFORT false) ;;;
    CompleteWarEffort
  else
    let! active := seen (IsActiveEvent EVENT_WAR_EFFORT) in
    (if active : bool then st_ret tt else StartEvent env Enable EVENT_WAR_EFFORT false false) ;;;
    UpdateHiveColossusEvents ;;;
    let! now := time env in
    WarEffort_stage (u32 now) ;;;
    let! s := seen (fun w => stage (war w)) in
    SetSavedVariable VAR_WE_STAGE s true.
Definition WarEffort_Delay : EM Z :=
  let! s := seen (fun w => stage (war w)) in
  st_ret (if (s =? WAR_EFFORT_STAGE_GONG_RUNG) || (s =? WAR_EFFORT_STAGE_GONG_WAIT) then 10 else max_ge_check_delay).
End war_effort.
