(* ===== verification/GameEventLoad.v ===== *)
(** * GameEventLoad: the calendar from the database

    [GameEventMgr::LoadFromDB] of [src/game/GameEventMgr.cpp]. *)

From S2P Require Import Prelude ByteBuffer ObjectGuid Packets Effects Multimap GameEvents WarEffort.

Local Open Scope prog_scope.

(** ** Rows *)

Record EventRow := mkER {
  er_entry : Z; er_start : Z; er_end : Z; er_occurence : Z; er_length : Z; er_holiday : Z; er_description : string;
  er_hardcoded : Z; er_disabled : Z; er_required_phase : Z }.
(** [game_event], and by table the rows that join it: objects with the event
    they belong to, looks of creatures, quests and mails. *)
Record GameEventDB := mkGEDB {
  db_events : list EventRow; db_creatures : list (Z * Z); db_gameobjects : list (Z * Z);
  db_looks : list (Z * Z * GameEventCreatureData); db_quests : list (Z * Z); db_mails : list (Z * GameEventMail) }.

Definition RACEMASK_ALL_PLAYABLE := 0x3FF.
(** The ids of the world events of [LoadHardcodedEvents]. *)
Definition hardcoded_events : list Z := [13; 150; 151; 66; 4; 6; 39; 17; 84].

Section load.
Context (env : GameEnv).

(** ** Events *)

(** The leap years from one year to before another. *)
Definition leap_years (from to : Z) : Z :=
  Z.of_nat (length (filter (fun y => isLeapYear y = true) (seqZ from (to - from)))).
Definition row_data (r : EventRow) (e : GameEventData) : GameEventData :=
  mkGE (s64 (er_start r)) (s64 (er_end r)) (er_occurence r) (er_length r) (er_holiday r) (description e) (hardcoded e)
    (disabled e) (requiredPhase e) (leapDays e).
Definition row_flags (r : EventRow) (e : GameEventData) : GameEventData :=
  mkGE (start e) (end_ e) (occurence e) (length_ e) (holiday_id e) (er_description r) (er_hardcoded r)
    (if er_required_phase r >? content_phase env then 1 else er_disabled r) (er_required_phase r) (leapDays e).
Definition load_event (r : EventRow) : EM unit :=
  if er_entry r =? 0 then st_ret tt
  else
    event_mod (er_entry r) (row_data r) ;;;
    if er_length r =? 0 then st_ret tt
    else
      event_mod (er_entry r) (row_flags r) ;;;
      if (er_occurence r =? default_year_length) && (er_length r <? default_year_length) then
        let! current := time env in
        event_mod (er_entry r) (fun e => set_leapDays (u8 (leapDays e + leap_years (gmtime_year (start e)) (gmtime_year current))) e)
      else st_ret tt.

(** ** Content *)

Definition on_creatures (f : list (list Z) -> list (list Z)) (c : Content) : Content :=
  mkContent (f (mGameEventCreatureGuids c)) (mGameEventGameobjectGuids c) (mGameEventSpawnPoolIds c) (mGameEventCreatureData c)
    (mGameEventCreatureDataPerGuid c) (mGameEventQuests c) (mGameEventMails c) (mGameEventHardcodedList c).
Definition on_gameobjects (f : list (list Z) -> list (list Z)) (c : Content) : Content :=
  mkContent (mGameEventCreatureGuids c) (f (mGameEventGameobjectGuids c)) (mGameEventSpawnPoolIds c) (mGameEventCreatureData c)
    (mGameEventCreatureDataPerGuid c) (mGameEventQuests c) (mGameEventMails c) (mGameEventHardcodedList c).
Definition on_pools (f : list (list Z) -> list (list Z)) (c : Content) : Content :=
  mkContent (mGameEventCreatureGuids c) (mGameEventGameobjectGuids c) (f (mGameEventSpawnPoolIds c)) (mGameEventCreatureData c)
    (mGameEventCreatureDataPerGuid c) (mGameEventQuests c) (mGameEventMails c) (mGameEventHardcodedList c).
Definition on_looks (f : list (list (Z * GameEventCreatureData)) -> list (list (Z * GameEventCreatureData)))
    (g : list (Z * Z) -> list (Z * Z)) (c : Content) : Content :=
  mkContent (mGameEventCreatureGuids c) (mGameEventGameobjectGuids c) (mGameEventSpawnPoolIds c) (f (mGameEventCreatureData c))
    (g (mGameEventCreatureDataPerGuid c)) (mGameEventQuests c) (mGameEventMails c) (mGameEventHardcodedList c).
Definition on_quests (f : list (list Z) -> list (list Z)) (c : Content) : Content :=
  mkContent (mGameEventCreatureGuids c) (mGameEventGameobjectGuids c) (mGameEventSpawnPoolIds c) (mGameEventCreatureData c)
    (mGameEventCreatureDataPerGuid c) (f (mGameEventQuests c)) (mGameEventMails c) (mGameEventHardcodedList c).
Definition on_mails (f : list (list GameEventMail) -> list (list GameEventMail)) (c : Content) : Content :=
  mkContent (mGameEventCreatureGuids c) (mGameEventGameobjectGuids c) (mGameEventSpawnPoolIds c) (mGameEventCreatureData c)
    (mGameEventCreatureDataPerGuid c) (mGameEventQuests c) (f (mGameEventMails c)) (mGameEventHardcodedList c).
Definition on_world_events (l : list Z) (c : Content) : Content :=
  mkContent (mGameEventCreatureGuids c) (mGameEventGameobjectGuids c) (mGameEventSpawnPoolIds c) (mGameEventCreatureData c)
    (mGameEventCreatureDataPerGuid c) (mGameEventQuests c) (mGameEventMails c) l.
Definition fill (f : Content -> Content) : EM unit := change (fun w => set_content (f (content w)) w).

(** [resize] of a list that grows, and [push_back] on a place of it. *)
Definition resized {A} (n : Z) (l : list (list A)) : list (list A) := l ++ replicate (Z.to_nat n - length l) [].
Definition pushed {A} (i : Z) (x : A) (l : list (list A)) : list (list A) := alter (fun g => g ++ [x]) (Z.to_nat i) l.
(** The place is there. *)
Definition push {A} (get : Content -> list (list A)) (on : (list (list A) -> list (list A)) -> Content -> Content)
    (i : Z) (x : A) : EM unit :=
  let! _ := index_at get i in fill (on (pushed i x)).

(** The objects of a table; [pool2event] says which event a pool belongs to. *)
Fixpoint load_objects (kind : spawn_kind) (get : Content -> list (list Z))
    (on : (list (list Z) -> list (list Z)) -> Content -> Content) (rows : list (Z * Z)) (pool2event : gmap Z Z) : EM (gmap Z Z) :=
  match rows with
  | [] => st_ret pool2event
  | (guid, event_id) :: rows' =>
      let! valid := seen (IsValidEvent (Z.abs event_id)) in
      if (event_id =? 0) || negb valid then load_objects kind get on rows' pool2event
      else
        let! i := seen (internal_id event_id) in
        let topPoolId := IsPartOfTopPool env kind guid in
        if (event_id >? 0) && truth topPoolId then
          if truth (default 0 (pool2event !! topPoolId)) then load_objects kind get on rows' pool2event
          else
            push mGameEventSpawnPoolIds on_pools event_id topPoolId ;;;
            tell (EPoolNoAuto topPoolId) ;;;
            load_objects kind get on rows' (<[topPoolId := event_id]> pool2event)
        else push get on i guid ;;; load_objects kind get on rows' pool2event
  end.

(** References to what is not there are cleared. *)
Definition checked (there : Z -> bool) (id : Z) : Z := if truth id && negb (there id) then 0 else id.
Definition load_look (row : Z * Z * GameEventCreatureData) : EM unit :=
  let '(guid, event_id, d) := row in
  let! valid := seen (IsValidEvent event_id) in
  if (event_id =? 0) || negb valid then st_ret tt
  else
    push mGameEventCreatureData (fun f => on_looks f id) event_id
      (guid, mkGEC (checked (has_creature env) (entry_id d)) (display_id d) (checked (has_equipment env) (equipment_id d))
               (checked (has_spell env) (spell_id_start d)) (checked (has_spell env) (spell_id_end d))) ;;;
    fill (on_looks id (mm_insert guid event_id)).
Definition load_quest (row : Z * Z) : EM unit :=
  let '(quest, event_id) := row in
  let! valid := seen (IsValidEvent event_id) in
  if (event_id =? 0) || negb valid || negb (has_quest env quest) then st_ret tt
  else
    change (fun w => set_quests (w_quests w ∖ {[quest]}) w) ;;;
    push mGameEventQuests on_quests event_id quest.
Definition load_mail (row : Z * GameEventMail) : EM unit :=
  let '(event_id, mail) := row in
  let! valid := seen (IsValidEvent event_id) in
  if (event_id =? 0) || negb valid then st_ret tt
  else
    let! i := seen (internal_id event_id) in
    if (Z.land (raceMask mail) RACEMASK_ALL_PLAYABLE =? 0) || (truth (questId mail) && negb (has_quest env (questId mail)))
       || negb (has_mail env (mailTemplateId mail)) || negb (has_creature env (senderEntry mail)) then st_ret tt
    else push mGameEventMails on_mails i mail.

(** ** The whole *)

(** The greatest id; the manager has a place for every id up to it. *)
Definition max_event_id (db : GameEventDB) : Z := foldr Z.max 0 (er_entry <$> db_events db).
Definition LoadFromDB (db : GameEventDB) : EM unit :=
  change (fun w => set_events (mGameEvent w ++ replicate (Z.to_nat (max_event_id db + 1) - length (mGameEvent w)) GameEventData_new) w) ;;;
  match db_events db with
  | [] => change (set_events [])
  | _ =>
      each load_event (db_events db) ;;;
      fill (on_world_events hardcoded_events) ;;;
      UpdateVariables ;;;
      let! n := seen (fun w => Z.of_nat (length (mGameEvent w))) in
      fill (on_pools (resized n)) ;;;
      fill (on_creatures (resized (n * 2 - 1))) ;;;
      let! pool2event := load_objects KCreature mGameEventCreatureGuids on_creatures (db_creatures db) ∅ in
      fill (on_gameobjects (resized (n * 2 - 1))) ;;;
      let! pool2event := load_objects KGameObject mGameEventGameobjectGuids on_gameobjects (db_gameobjects db) pool2event in
      each (fun p => tell (EPoolCheck p (default 0 (pool2event !! p)))) (sorted_keys pool2event) ;;;
      fill (on_looks (resized n) id) ;;;
      each load_look (db_looks db) ;;;
      fill (on_quests (resized n)) ;;;
      each load_quest (db_quests db) ;;;
      fill (on_mails (resized (n * 2 - 1))) ;;;
      each load_mail (db_mails db)
  end.
End load.
