(* ===== verification/WorldEvents.v ===== *)
(** * WorldEvents: the events that are code

    The world events of [src/game/HardcodedEvents.h] and [.cpp]: the elemental
    invasion, the night and day spawns of Westfall, the Dragons of Nightmare,
    the Darkmoon Faire, fireworks and goblets; the war effort is in [WarEffort].
    The Scourge Invasion, which moves creatures on maps, is a parameter (apart
    from its delay).  Also the Silithus event of [src/game/GameEventMgr.cpp], the
    event commands of [src/game/Commands/Commands.cpp] and the script command of
    [src/game/Maps/ScriptCommands.cpp]. *)

From S2P Require Import Prelude ByteBuffer ObjectGuid Packets Effects GameEvents WarEffort.

Local Open Scope prog_scope.

(** ** Events and variables *)

Definition EVENT_INVASION := 13.
Definition EVENT_FIRE := 68.
Definition EVENT_AIR := 69.
Definition EVENT_EARTH := 70.
Definition EVENT_WATER := 71.
Definition EVENT_BOSS_F := 72.
Definition EVENT_BOSS_A := 73.
Definition EVENT_BOSS_E := 74.
Definition EVENT_BOSS_W := 75.
Definition BOSS_A_GUID := 58000.
Definition BOSS_W_GUID := 1184054.
Definition BOSS_F_GUID := 58300.
Definition BOSS_E_GUID := 58100.
Definition VAR_REQ_UPDATE := 30001.
Definition VAR_RESP_TIME := 30002.
Definition VAR_PERM_1 := 30004.
Definition VAR_PERM_2 := 30005.
Definition VAR_PERM_3 := 30006.
Definition VAR_PERM_4 := 30007.
Definition DEF_STOP_DELAY := 300.
Definition NPC_YSONDRE := 14887.
Definition NPC_LETHON := 14888.
Definition NPC_EMERISS := 14889.
Definition NPC_TAERAR := 14890.
Definition VAR_FIRE := 30008.
Definition VAR_WATER := 30009.
Definition VAR_EARTH := 30010.
Definition VAR_AIR := 30011.
Definition VAR_FIRE_KILLS := 30012.
Definition VAR_WATER_KILLS := 30013.
Definition VAR_EARTH_KILLS := 30014.
Definition VAR_AIR_KILLS := 30015.
Definition VAR_INVAS_TIMER := 30016.
Definition VAR_DELAY_FIRE := 30017.
Definition VAR_DELAY_WATER := 30018.
Definition VAR_DELAY_EARTH := 30019.
Definition VAR_DELAY_AIR := 30020.
Definition STAGE_BOSS := 5.
Definition STAGE_BOSS_DOWN := 6.
Definition STAGE_BOSS_DESPAWN := 7.
Definition LEPRITHUS_EVENT_NONE := 0.
Definition LEPRITHUS_EVENT_ONGOING := 150.
Definition MOONBROOK_EVENT_NONE := 0.
Definition MOONBROOK_EVENT_ONGOING := 151.
Definition EVENT_NIGHTMARE := 66.
Definition DARKMOON_A2_INSTALLATION := 23.
Definition DARKMOON_A2 := 4.
Definition DARKMOON_H2_INSTALLATION := 24.
Definition DARKMOON_H2 := 5.
Definition EVENT_FIREWORKS := 6.
Definition EVENT_NEW_YEAR := 34.
Definition EVENT_LUNAR_NEW_YEAR := 38.
Definition EVENT_TOASTING_GOBLETS := 39.
Definition EVENT_JULY_4TH := 41.
Definition EVENT_SEPTEMBER_30TH := 42.
Definition FIREWORKS_DURATION := 10.
Definition GAME_EVENT_SCOURGE_INVASION := 17.
Definition SILITHUS_PVP_EVENT_ON := 103.

Definition LANG_EVENT_NOT_EXIST := 585.
Definition LANG_EVENT_ALREADY_ACTIVE := 587.
Definition LANG_EVENT_NOT_ACTIVE := 588.
Definition LANG_EVENT_STARTED := 1130.
Definition LANG_EVENT_STOPPED := 1131.
Definition LANG_EVENT_DISABLED := 1600.
Definition LANG_EVENT_ALREADY_ENABLED := 1601.
Definition LANG_EVENT_ENABLED := 1602.
Definition LANG_EVENT_ALREADY_DISABLED := 1603.

Section world_events.
Context (env : GameEnv).
(** The other world events, and the time of the game. *)
Context (Other : WorldEvents) (GetGameTime : nat -> Z).

Definition we_start (id : Z) : EM unit :=
  StartEvent env (fun e => if e =? GAME_EVENT_SCOURGE_INVASION then we_Enable Other e else st_ret tt) id true false.
Definition stop_active (id : Z) : EM unit := if_active id (StopEvent env id true).
Definition now_local : EM tm := let! t := time env in st_ret (localtime env t).

(** ** The elemental invasion *)

Record InvasionDataStruct := mkInv { eventRift : Z; eventBoss : Z; varDelay : Z; varKills : Z; varStage : Z; bossGuid : Z }.
Definition inv_fire := mkInv EVENT_FIRE EVENT_BOSS_F VAR_DELAY_FIRE VAR_FIRE_KILLS VAR_FIRE BOSS_F_GUID.
Definition inv_air := mkInv EVENT_AIR EVENT_BOSS_A VAR_DELAY_AIR VAR_AIR_KILLS VAR_AIR BOSS_A_GUID.
Definition inv_earth := mkInv EVENT_EARTH EVENT_BOSS_E VAR_DELAY_EARTH VAR_EARTH_KILLS VAR_EARTH BOSS_E_GUID.
Definition inv_water := mkInv EVENT_WATER EVENT_BOSS_W VAR_DELAY_WATER VAR_WATER_KILLS VAR_WATER BOSS_W_GUID.
Definition InvasionData : list InvasionDataStruct := [inv_fire; inv_air; inv_earth; inv_water].
(** The order in which the update goes over them. *)
Definition invasions : list InvasionDataStruct := [inv_fire; inv_air; inv_water; inv_earth].

Definition StartLocalInvasion (stage : Z) (i : InvasionDataStruct) : EM unit :=
  if stage <? STAGE_BOSS_DOWN then we_start (eventRift i) else st_ret tt.
Definition StartLocalBoss (stage delay : Z) (i : InvasionDataStruct) : EM unit :=
  let! active := seen (IsActiveEvent (eventBoss i)) in
  if (((STAGE_BOSS_DOWN <=? stage) && (delay >? 0)) || (stage =? STAGE_BOSS)) && negb active then we_start (eventBoss i) else st_ret tt.
Definition StopLocalInvasion (stage delay : Z) (i : InvasionDataStruct) : EM unit :=
  let! now := seen (fun w => GetGameTime (reads w)) in
  if stage =? STAGE_BOSS_DOWN then
    stop_active (eventRift i) ;;;
    let! now := seen (fun w => GetGameTime (reads w)) in
    SetSavedVariable (varStage i) STAGE_BOSS_DESPAWN true ;;;
    SetSavedVariable (varDelay i) (u32 (now + 5 * MINUTE)) true
  else if stage =? STAGE_BOSS_DESPAWN then
    if delay <? now then
      stop_active (eventBoss i) ;;;
      if truth delay then SetSavedVariable (varDelay i) 0 true else st_ret tt
    else st_ret tt
  else st_ret tt.
Definition ResetThings : EM unit :=
  each (fun i =>
    SetSavedVariable (varDelay i) 0 true ;;; SetSavedVariable (varKills i) 0 true ;;; SetSavedVariable (varStage i) 1 true ;;;
    tell (EResetRespawn (bossGuid i))) InvasionData.

Definition ElementalInvasion_Update : EM unit :=
  let! w := seen id in
  let stage i := GetSavedVariable (varStage i) 0 w in
  let delay i := GetSavedVariable (varDelay i) 0 w in
  if negb (IsActiveEvent EVENT_INVASION w) then
    let! now := time env in
    if GetSavedVariable VAR_INVAS_TIMER 0 w <? now then
      we_start EVENT_INVASION ;;;
      each (fun i => StartLocalInvasion (stage i) i) invasions ;;;
      each (fun i => StartLocalBoss (stage i) (delay i) i) invasions
    else st_ret tt
  else
    each (fun i => StartLocalBoss (stage i) (delay i) i) invasions ;;;
    each (fun i => StopLocalInvasion (stage i) (delay i) i) invasions ;;;
    if forallb (fun i => (delay i =? 0) && (stage i =? STAGE_BOSS_DESPAWN)) invasions then
      StopEvent env EVENT_INVASION true ;;;
      let! now := time env in
      let! r := draw_number env (2 * 24 * 3600) (4 * 24 * 3600) in
      SetSavedVariable VAR_INVAS_TIMER (u32 (now + r)) true ;;;
      ResetThings
    else st_ret tt.
Definition ElementalInvasion_Disable : EM unit :=
  each (fun i => stop_active (eventRift i) ;;; stop_active (eventBoss i)) InvasionData ;;;
  stop_active EVENT_INVASION ;;;
  ResetThings.

(** ** Night and day *)

Definition GetLeprithusState (t : tm) : Z :=
  if (22 <=? tm_hour t) || (tm_hour t <=? 9) then LEPRITHUS_EVENT_ONGOING else LEPRITHUS_EVENT_NONE.
Definition GetMoonbrookState (t : tm) : Z :=
  if (tm_hour t <? 21) && (tm_hour t >? 9) then MOONBROOK_EVENT_ONGOING else MOONBROOK_EVENT_NONE.
(** Both events are started and stopped alike. *)
Definition follow (id : Z) (state : tm -> Z) : EM unit :=
  let! t := now_local in
  let! active := seen (IsActiveEvent id) in
  if state t =? id then if active : bool then st_ret tt else we_start id
  else if active : bool then StopEvent env id true else st_ret tt.
Definition Leprithus_Update : EM unit := follow LEPRITHUS_EVENT_ONGOING GetLeprithusState.
Definition Moonbrook_Update : EM unit := follow MOONBROOK_EVENT_ONGOING GetMoonbrookState.

(** ** The Darkmoon Faire *)

Definition DMFValidEvent : list Z := [DARKMOON_A2_INSTALLATION; DARKMOON_A2; DARKMOON_H2_INSTALLATION; DARKMOON_H2].
Definition GetDarkmoonState (t : tm) : Z :=
  let weekOfTheYear := Z.quot (tm_yday t - tm_wday t + 7) 7 + 1 in
  let isHorde := Z.rem weekOfTheYear 2 =? 0 in
  if tm_wday t =? 3 then if isHorde then DARKMOON_H2_INSTALLATION else DARKMOON_A2_INSTALLATION
  else if isHorde then DARKMOON_H2 else DARKMOON_A2.
Definition DarkmoonFaire_Update : EM unit :=
  let! t := now_local in
  each (fun i =>
    let! valid := seen (IsValidEvent i) in
    if negb valid then st_ret tt
    else
      let! active := seen (IsActiveEvent i) in
      if i =? GetDarkmoonState t then if active : bool then st_ret tt else we_start i
      else if active : bool then StopEvent env i true else st_ret tt) DMFValidEvent.

(** ** Fireworks and goblets *)

Definition IsHourBeginning (minutes : Z) (t : tm) : bool :=
  if (tm_hour t >? 6) && (tm_hour t <? 18) then false else tm_min t <? minutes.
Definition FireworksShow_Update : EM unit :=
  let! w := seen id in
  if IsActiveEvent EVENT_NEW_YEAR w || IsActiveEvent EVENT_LUNAR_NEW_YEAR w || IsActiveEvent EVENT_JULY_4TH w
     || IsActiveEvent EVENT_SEPTEMBER_30TH w
  then
    let! t := now_local in
    if IsActiveEvent EVENT_FIREWORKS w then
      if IsHourBeginning FIREWORKS_DURATION t then st_ret tt else StopEvent env EVENT_FIREWORKS false
    else if IsHourBeginning FIREWORKS_DURATION t
      then StartEvent env (fun e => if e =? GAME_EVENT_SCOURGE_INVASION then we_Enable Other e else st_ret tt) EVENT_FIREWORKS false false
      else st_ret tt
  else if_active EVENT_FIREWORKS (StopEvent env EVENT_FIREWORKS false).
Definition FireworksShow_Disable : EM unit :=
  if_active EVENT_FIREWORKS (StopEvent env EVENT_FIREWORKS false) ;;;
  let! w := seen id in
  if IsActiveEvent EVENT_NEW_YEAR w || IsActiveEvent EVENT_LUNAR_NEW_YEAR w then
    let! t := now_local in
    if IsHourBeginning 20 t && negb (IsActiveEvent EVENT_TOASTING_GOBLETS w) then we_start EVENT_TOASTING_GOBLETS else st_ret tt
  else st_ret tt.
(** [ShouldEnable] reads the clock only at New Year. *)
Definition ShouldEnable : EM bool :=
  let! w := seen id in
  if negb (IsActiveEvent EVENT_NEW_YEAR w || IsActiveEvent EVENT_LUNAR_NEW_YEAR w) then st_ret false
  else
    let! t := now_local in
    st_ret (if (tm_hour t >? 6) && (tm_hour t <? 18) then false else (10 <=? tm_min t) && (tm_min t <=? 20)).
Definition ToastingGoblets_Update : EM unit :=
  let! active := seen (IsActiveEvent EVENT_TOASTING_GOBLETS) in
  let! should := ShouldEnable in
  if active : bool then if should : bool then st_ret tt else StopEvent env EVENT_TOASTING_GOBLETS true
  else if should : bool then we_start EVENT_TOASTING_GOBLETS else st_ret tt.
Definition ToastingGoblets_Disable : EM unit := stop_active EVENT_TOASTING_GOBLETS.

(** ** The Dragons of Nightmare *)

Definition NightmareDragons : list Z := [NPC_YSONDRE; NPC_LETHON; NPC_EMERISS; NPC_TAERAR].
(** The greatest [time_t]. *)
Definition time_max := 2 ^ 63 - 1.
Definition CheckSingleVariable (idx value : Z) : EM Z :=
  let! v := seen (fun w => m_SavedVariables w !! idx) in
  match v with
  | Some x => st_ret x
  | None => SetSavedVariable idx value true ;;; st_ret value
  end.
(** How many of the dragons are alive; the dead ones respawn at the time. *)
Fixpoint GetAliveCountAndUpdateRespawnTime (dragons : list Z) (alive respawnTime : Z) : EM Z :=
  match dragons with
  | [] => st_ret alive
  | guid :: dragons' =>
      let! n := seen reads in
      match creature_dead env n guid with
      | None => GetAliveCountAndUpdateRespawnTime dragons' alive respawnTime
      | Some true => tell (ESaveRespawn guid respawnTime) ;;; GetAliveCountAndUpdateRespawnTime dragons' alive respawnTime
      | Some false => GetAliveCountAndUpdateRespawnTime dragons' (u32 (alive + 1)) respawnTime
      end
  end.
(** All four, or none. *)
Definition LoadDragons : option (list Z) :=
  let l := GetOneCreatureByEntry env <$> NightmareDragons in if forallb truth l then Some l else None.
(** [std::shuffle] leaves one of the permutations. *)
Definition PermutateDragons : EM unit :=
  let! n := draw_number env 0 23 in
  let l := [NPC_LETHON; NPC_EMERISS; NPC_YSONDRE; NPC_TAERAR] in
  let p := default l (permutations l !! Z.to_nat n) in
  each (fun e : Z * Z => SetSavedVariable e.1 e.2 true) (zip [VAR_PERM_1; VAR_PERM_2; VAR_PERM_3; VAR_PERM_4] p).
Definition DragonsOfNightmare_Update : EM unit :=
  match LoadDragons with
  | None => st_ret tt
  | Some dragons =>
      let! active := seen (IsActiveEvent EVENT_NIGHTMARE) in
      if active : bool then
        let! alive := GetAliveCountAndUpdateRespawnTime dragons 0 time_max in
        if truth alive then st_ret tt
        else
          let! varReqUpdate := CheckSingleVariable VAR_REQ_UPDATE DEF_STOP_DELAY in
          if varReqUpdate =? 0 then
            let! now := time env in
            let! r := draw_number env (4 * 24 * 3600) (7 * 24 * 3600) in
            let varRespawnTimer := u32 (now + r) in
            let! _ := GetAliveCountAndUpdateRespawnTime dragons alive varRespawnTimer in
            SetSavedVariable VAR_RESP_TIME varRespawnTimer true ;;;
            PermutateDragons ;;;
            StopEvent env EVENT_NIGHTMARE true ;;;
            SetSavedVariable VAR_REQ_UPDATE DEF_STOP_DELAY true
          else SetSavedVariable VAR_REQ_UPDATE (varReqUpdate - 1) true
      else
        let! varRespawnTimer := CheckSingleVariable VAR_RESP_TIME 0 in
        let! now := time env in
        if varRespawnTimer <? now then we_start EVENT_NIGHTMARE else st_ret tt
  end.
Definition DragonsOfNightmare_Disable : EM unit :=
  if_active EVENT_NIGHTMARE (SetSavedVariable VAR_REQ_UPDATE DEF_STOP_DELAY true ;;; StopEvent env EVENT_NIGHTMARE true).

(** ** All of them *)

(** Only the Scourge Invasion does anything when it is enabled. *)
Definition world_Enable (id : Z) : EM unit :=
  if id =? GAME_EVENT_SCOURGE_INVASION then we_Enable Other id else st_ret tt.
Definition world_Disable (id : Z) : EM unit :=
  if id =? EVENT_INVASION then ElementalInvasion_Disable
  else if id =? LEPRITHUS_EVENT_ONGOING then stop_active LEPRITHUS_EVENT_ONGOING
  else if id =? MOONBROOK_EVENT_ONGOING then stop_active MOONBROOK_EVENT_ONGOING
  else if id =? EVENT_NIGHTMARE then DragonsOfNightmare_Disable
  else if id =? EVENT_FIREWORKS then FireworksShow_Disable
  else if id =? EVENT_TOASTING_GOBLETS then ToastingGoblets_Disable
  else if id =? GAME_EVENT_SCOURGE_INVASION then we_Disable Other id
  else st_ret tt.
Definition world_Update (id : Z) : EM unit :=
  if id =? EVENT_INVASION then ElementalInvasion_Update
  else if id =? LEPRITHUS_EVENT_ONGOING then Leprithus_Update
  else if id =? MOONBROOK_EVENT_ONGOING then Moonbrook_Update
  else if id =? EVENT_NIGHTMARE then DragonsOfNightmare_Update
  else if id =? DARKMOON_A2 then DarkmoonFaire_Update
  else if id =? EVENT_FIREWORKS then FireworksShow_Update
  else if id =? EVENT_TOASTING_GOBLETS then ToastingGoblets_Update
  else if id =? EVENT_WAR_EFFORT then WarEffort_Update env world_Enable world_Disable
  else we_Update Other id.
Definition world_Delay (id : Z) : EM Z :=
  if id =? GAME_EVENT_SCOURGE_INVASION then st_ret 20
  else if id =? EVENT_WAR_EFFORT then WarEffort_Delay
  else st_ret max_ge_check_delay.
Definition world_events : WorldEvents :=
  {| we_Update := world_Update; we_Enable := world_Enable; we_Disable := world_Disable; we_Delay := world_Delay |}.

(** ** Silithus *)

Definition silithus_hour (t : tm) : bool := (Z.rem (tm_hour t) 6 =? 0) && (tm_min t =? 0).
Definition silithus_time (t : tm) : bool := (Z.rem (tm_hour t) 6 =? 0) || (Z.rem (tm_hour t) 6 =? 1).
Definition SetSilithusPVPEventCompleted (state : bool) : EM unit := change (fun w => set_flags (m_IsGameEventsInit w) state w).
Definition UpdateSilithusPVP : EM unit :=
  let! t := now_local in
  let! w := seen id in
  let on := silithus_hour t || (silithus_time t && negb (m_IsSilithusEventCompleted w)) in
  (if silithus_hour t then SetSilithusPVPEventCompleted false
   else if on then st_ret tt else SetSilithusPVPEventCompleted true) ;;;
  let! active := seen (IsActiveEvent SILITHUS_PVP_EVENT_ON) in
  if on then
    if active : bool then st_ret tt
    else
      StartEvent env world_Enable SILITHUS_PVP_EVENT_ON false false ;;;
      tell (EWorldText "Les collecteurs de Silithystes sont repares! Depechez vous de revenir en Silithus et reprenez le travail soldat!")
  else if active : bool then
    StopEvent env SILITHUS_PVP_EVENT_ON false ;;;
    tell (EWorldText "Le sable a enraille nos collecteurs de Silithystes, la collecte est interrompue en Silithus")
  else st_ret tt.

(** ** Commands *)

(** An answer of a command that fails, or one before it acts. *)
Definition reply (me lang : Z) : EM unit := ev (EvPlayer me (CallSysMessage lang)).
Definition refuse (me lang : Z) : EM bool := reply me lang ;;; st_ret false.
(** The event of a command: its id is cut to 16 bits for the first test, and
    used as it is for the second. *)
Definition with_event (me event_id : Z) (k : EM bool) : EM bool :=
  let! valid := seen (IsValidEvent (u16 event_id)) in
  if negb valid then refuse me LANG_EVENT_NOT_EXIST
  else
    let! eventData := event_at event_id in
    if negb (isValid eventData) then refuse me LANG_EVENT_NOT_EXIST else k.
Definition HandleEventStartCommand (me event_id : Z) : EM bool :=
  with_event me event_id
    (let! active := seen (IsActiveEvent (u16 event_id)) in
     if active : bool then refuse me LANG_EVENT_ALREADY_ACTIVE
     else
       let! enabled := seen (IsEnabled (u16 event_id)) in
       if negb enabled then refuse me LANG_EVENT_DISABLED
       else reply me LANG_EVENT_STARTED ;;; StartEvent env world_Enable (u16 event_id) true false ;;; st_ret true).
Definition HandleEventStopCommand (me event_id : Z) : EM bool :=
  with_event me event_id
    (let! active := seen (IsActiveEvent (u16 event_id)) in
     if negb active then refuse me LANG_EVENT_NOT_ACTIVE
     else reply me LANG_EVENT_STOPPED ;;; StopEvent env (u16 event_id) true ;;; st_ret true).
Definition HandleEventEnableCommand (me event_id : Z) : EM bool :=
  with_event me event_id
    (let! enabled := seen (IsEnabled (u16 event_id)) in
     if enabled : bool then refuse me LANG_EVENT_ALREADY_ENABLED
     else reply me LANG_EVENT_ENABLED ;;; EnableEvent env world_Enable world_Disable (u16 event_id) true true ;;; st_ret true).
Definition HandleEventDisableCommand (me event_id : Z) : EM bool :=
  with_event me event_id
    (let! enabled := seen (IsEnabled (u16 event_id)) in
     if negb enabled then refuse me LANG_EVENT_ALREADY_DISABLED
     else reply me LANG_EVENT_DISABLED ;;; EnableEvent env world_Enable world_Disable (u16 event_id) false true ;;; st_ret true).
Definition ScriptCommand_GameEvent (eventId : Z) (on overwrite : bool) : EM bool :=
  (if on then StartEvent env world_Enable (u16 eventId) overwrite false else StopEvent env (u16 eventId) overwrite) ;;; st_ret false.
(** Both answer with [PSendSysMessage] and update. *)
Definition HandleWarEffortSetGongTimeCommand (gongTime : Z) : EM bool :=
  SetSavedVariable VAR_WE_GONG_TIME gongTime true ;;;
  let! _ := Update env world_events ∅ in st_ret true.
Definition HandleWarEffortSetStageCommand (stage : Z) : EM bool :=
  SetSavedVariable VAR_WE_STAGE stage true ;;;
  let! now := time env in
  SetSavedVariable VAR_WE_STAGE_TRANSITION_TIME (u32 now) true ;;;
  let! _ := Update env world_events ∅ in st_ret true.
End world_events.
