(* ===== verification/GameEventInv.v ===== *)
(** * GameEventInv: what the calendar keeps

    The arithmetic of windows, the effect of starting and stopping an event as
    functions on the world, the invariant [calendar_ok], and the contract of
    world events. *)

From stdpp Require Import gmap relations.
From S2P Require Import Prelude ByteBuffer ObjectGuid Packets Effects GameEvents WarEffort.

Local Open Scope prog_scope.

(** ** Windows *)

Lemma period_range e : 0 <= period e < 2 ^ 32.
Proof. unfold period. by apply wrap_range. Qed.
Lemma duration_range e : 0 <= duration e < 2 ^ 32.
Proof. unfold duration. by apply wrap_range. Qed.
Lemma u32_le x : 0 <= x -> 0 <= u32 x <= x.
Proof. intros. unfold wrap. split; [by apply Z.mod_pos_bound|by apply Z.mod_le]. Qed.

(** A remainder stays below a bound while the bound allows it, and above it
    until the period ends. *)
Lemma rem_below E p D s : 0 < p -> 0 < D -> Z.rem E p < D -> 0 <= s < D - Z.rem E p -> Z.rem (E + s) p < D.
Proof.
  intros Hp HD Hr Hs. pose proof (Z.quot_rem' E p) as Hq. destruct (Z.le_gt_cases (E + s) 0) as [Hn|Hn].
  { pose proof (Z.rem_nonpos (E + s) p). lia. }
  rewrite Z.rem_mod_nonneg by lia. destruct (Z.le_gt_cases 0 E) as [He|He].
  - rewrite (Z.rem_mod_nonneg E p) in * by lia. pose proof (Z.mod_pos_bound E p Hp).
    destruct (Z.le_gt_cases p (E mod p + s)); [pose proof (Z.mod_pos_bound (E + s) p Hp); lia|].
    rewrite <- Zplus_mod_idemp_l, (Z.mod_small (E mod p + s)); lia.
  - assert (Z.quot E p <= 0) by (apply Z.quot_le_upper_bound; lia).
    pose proof (Z.mod_le (E + s) p). nia.
Qed.
Lemma rem_above E p D s : 0 < p -> 0 < D -> D <= Z.rem E p -> 0 <= s < p - Z.rem E p -> D <= Z.rem (E + s) p.
Proof.
  intros Hp HD Hr Hs. destruct (Z.le_gt_cases E 0); [pose proof (Z.rem_nonpos E p); lia|].
  rewrite (Z.rem_mod_nonneg E p) in * by lia. rewrite Z.rem_mod_nonneg by lia.
  pose proof (Z.mod_pos_bound E p Hp). rewrite <- Zplus_mod_idemp_l, Z.mod_small; lia.
Qed.

(** An event changes at most when it has to be looked at. *)
Lemma next_check_sound now e d t : 0 < period e -> 0 < duration e -> next_check now e = Some d ->
  now <= t < now + d -> is_on t e = is_on now e.
Proof.
  intros Hp HD Hn Ht. unfold next_check in Hn. unfold is_on.
  destruct (Z.gtb_spec now (end_ e)) as [Hend|Hend].
  { assert ((t <? end_ e) = false) as -> by (apply Z.ltb_ge; lia).
    assert ((now <? end_ e) = false) as -> by (apply Z.ltb_ge; lia). by rewrite !andb_false_r. }
  destruct (Z.gtb_spec (start e) now) as [Hstart|Hstart].
  { injection Hn as <-. pose proof (u32_le (start e - now) ltac:(lia)).
    assert ((start e <=? t) = false) as -> by (apply Z.leb_gt; lia).
    by assert ((start e <=? now) = false) as -> by (apply Z.leb_gt; lia). }
  unfold phase in *. destruct (Z.eqb_spec (period e) 0) as [|_]; [lia|]. cbn in Hn. injection Hn as Hn.
  set (r := Z.rem (elapsed now e) (period e)) in *.
  assert (Hr : 0 <= (if r <? duration e then duration e else period e) - r).
  { destruct (Z.ltb_spec r (duration e)); [lia|].
    pose proof (Z.rem_bound_pos (elapsed now e) (period e)). pose proof (Z.rem_nonpos (elapsed now e) (period e)).
    destruct (Z.le_gt_cases 0 (elapsed now e)); subst r; lia. }
  pose proof (u32_le _ Hr) as Hu. set (delay := u32 ((if r <? duration e then duration e else period e) - r)) in *.
  assert (Hlt : t < end_ e /\ t < now + delay).
  { destruct (Z.ltb_spec (end_ e) (now + delay)); [pose proof (u32_le (end_ e - now) ltac:(lia)); lia|lia]. }
  destruct Hlt as [Hte Htd].
  assert ((start e <=? t) = true) as -> by (apply Z.leb_le; lia). assert ((start e <=? now) = true) as -> by (apply Z.leb_le; lia).
  assert ((t <? end_ e) = true) as -> by (apply Z.ltb_lt; lia). assert ((now <? end_ e) = true) as -> by (apply Z.ltb_lt; lia).
  cbn. f_equal. fold r. assert (Helt : elapsed t e = elapsed now e + (t - now)) by (unfold elapsed; lia). rewrite Helt.
  destruct (Z.ltb_spec r (duration e)).
  - apply Z.ltb_lt, rem_below; fold r; lia.
  - apply Z.ltb_ge, rem_above; fold r; lia.
Qed.

(** ** The content has a place for every event *)

Definition events_count (w : GEWorld) : Z := Z.of_nat (length (mGameEvent w)).
Definition lists_of (k : spawn_kind) (c : Content) : list (list Z) :=
  match k with KCreature => mGameEventCreatureGuids c | KGameObject => mGameEventGameobjectGuids c end.
Record laid_out (w : GEWorld) : Prop := {
  lo_count : 1 <= events_count w <= 2 ^ 15;
  lo_objects : forall k, Z.of_nat (length (lists_of k (content w))) = events_count w * 2 - 1;
  lo_pools : Z.of_nat (length (mGameEventSpawnPoolIds (content w))) = events_count w;
  lo_looks : Z.of_nat (length (mGameEventCreatureData (content w))) = events_count w;
  lo_quests : Z.of_nat (length (mGameEventQuests (content w))) = events_count w;
  lo_mails : Z.of_nat (length (mGameEventMails (content w))) = events_count w * 2 - 1 }.
(** The list of an event, or of its absence. *)
Definition listed (w : GEWorld) (k : spawn_kind) (v : Z) : list Z :=
  default [] (lists_of k (content w) !! Z.to_nat (events_count w + v - 1)).
Definition quests_of (w : GEWorld) (id : Z) : list Z := default [] (mGameEventQuests (content w) !! Z.to_nat id).

Lemma internal_small w v : laid_out w -> Z.abs v < events_count w -> internal_id v w = events_count w + v - 1.
Proof.
  intros [Hc _ _ _ _ _] Hv. unfold internal_id. change (Z.of_nat (length (mGameEvent w))) with (events_count w).
  apply swrap_small; [done|]. unfold is_s. lia.
Qed.
Lemma s16_small v : Z.abs v < 2 ^ 15 -> s16 v = v.
Proof. intros. apply swrap_small; [done|]. unfold is_s. lia. Qed.
Lemma at_place {A} (l : list A) i : 0 <= i < Z.of_nat (length l) -> exists x, l !! Z.to_nat i = Some x.
Proof. intros. apply lookup_lt_is_Some_2. lia. Qed.

(** ** Starting and stopping as functions *)

Lemma yields_eq {C V E A} (m : St (C * list V) E A) c a c1 c2 : yields m c a c1 -> c1 = c2 -> yields m c a c2.
Proof. by intros H <-. Qed.
Lemma yields_tell c w : yields (tell c) w tt w.
Proof. apply yields_emit. Qed.
Lemma yields_seen {A B} (f : GEWorld -> A) (k : A -> EM B) w b w' : yields (k (f w)) w b w' -> yields (st_bind (seen f) k) w b w'.
Proof. apply yields_bind_get. Qed.
Lemma yields_deref {A B} (o : option A) a (k : A -> EM B) w b w' : o = Some a -> yields (k a) w b w' ->
  yields (st_bind (deref o) k) w b w'.
Proof. intros -> H. eapply yields_bind; [apply yields_ret|exact H]. Qed.
Lemma yields_event_at {B} id e (k : GameEventData -> EM B) w b w' : mGameEvent w !! Z.to_nat id = Some e -> yields (k e) w b w' ->
  yields (st_bind (event_at id) k) w b w'.
Proof. intros He H. eapply yields_bind; [|exact H]. unfold event_at. apply yields_seen. rewrite He. apply yields_ret. Qed.
Lemma yields_tells {A} (f : A -> game_call) l w : yields (each (fun x => tell (f x)) l) w tt w.
Proof. induction l; simpl; [apply yields_ret|]. eapply yields_bind; [apply yields_tell|done]. Qed.
#[global] Hint Resolve yields_tell yields_tells : core.

Section effects.
Context (env : GameEnv).

Definition appears (k : spawn_kind) (v guid : Z) : bool :=
  has_data env k guid && negb ((v <? 0) && truth (IsPartOfAPool env k guid)).
Definition shown_of (w : GEWorld) (k : spawn_kind) (v : Z) : gset (spawn_kind * Z) :=
  list_to_set (pair k <$> filter (fun g => appears k v g = true) (listed w k v)).
Definition objects_of (w : GEWorld) (v : Z) : gset (spawn_kind * Z) := shown_of w KCreature v ∪ shown_of w KGameObject v.

Lemma elem_of_objects w v k g : (k, g) ∈ objects_of w v <-> g ∈ listed w k v /\ appears k v g = true.
Proof.
  unfold objects_of, shown_of. rewrite elem_of_union, !elem_of_list_to_set, !list_elem_of_fmap. setoid_rewrite list_elem_of_filter.
  split.
  - intros [(x & [= -> ->] & ?)|(x & [= -> ->] & ?)]; naive_solver.
  - destruct k; naive_solver.
Qed.

Lemma set_grid_id w : set_grid (w_grid w) w = w.
Proof. by destruct w. Qed.
Lemma yields_spawn_object k v g w :
  yields (spawn_object env k v g) w tt (set_grid ((if appears k v g then {[(k, g)]} else ∅) ∪ w_grid w) w).
Proof.
  unfold spawn_object, appears. destruct (has_data env k g); cbn [andb].
  - destruct (_ && _); cbn [negb].
    + eapply yields_bind; [done|]. eapply yields_eq; [done|]. by rewrite union_empty_l_L, set_grid_id.
    + eapply yields_bind; [apply yields_mod|]. done.
  - eapply yields_eq; [apply yields_ret|]. by rewrite union_empty_l_L, set_grid_id.
Qed.
Lemma yields_unspawn_object k v g w :
  yields (unspawn_object env k v g) w tt (set_grid (w_grid w ∖ (if appears k v g then {[(k, g)]} else ∅)) w).
Proof.
  unfold unspawn_object, appears. destruct (has_data env k g); cbn [andb].
  - destruct (_ && _); cbn [negb].
    + eapply yields_bind; [done|]. eapply yields_eq; [done|]. by rewrite difference_empty_L, set_grid_id.
    + eapply yields_bind; [apply yields_mod|]. done.
  - eapply yields_eq; [apply yields_ret|]. by rewrite difference_empty_L, set_grid_id.
Qed.
Definition some_of (k : spawn_kind) (v : Z) (l : list Z) : gset (spawn_kind * Z) :=
  list_to_set (pair k <$> filter (fun g => appears k v g = true) l).
Lemma some_of_cons k v g l : some_of k v (g :: l) = (if appears k v g then {[(k, g)]} else ∅) ∪ some_of k v l.
Proof.
  unfold some_of. rewrite filter_cons. destruct (appears k v g).
  - by rewrite decide_True.
  - by rewrite decide_False, union_empty_l_L.
Qed.
Lemma yields_spawns k v l w : yields (each (spawn_object env k v) l) w tt (set_grid (some_of k v l ∪ w_grid w) w).
Proof.
  revert w. induction l as [|g l IH]; intros w; simpl.
  - eapply yields_eq; [apply yields_ret|]. unfold some_of. cbn. by rewrite union_empty_l_L, set_grid_id.
  - eapply yields_bind; [apply yields_spawn_object|]. eapply yields_eq; [apply IH|]. rewrite some_of_cons.
    unfold set_grid. cbn. f_equal. set_solver.
Qed.
Lemma yields_unspawns k v l w : yields (each (unspawn_object env k v) l) w tt (set_grid (w_grid w ∖ some_of k v l) w).
Proof.
  revert w. induction l as [|g l IH]; intros w; simpl.
  - eapply yields_eq; [apply yields_ret|]. unfold some_of. cbn. by rewrite difference_empty_L, set_grid_id.
  - eapply yields_bind; [apply yields_unspawn_object|]. eapply yields_eq; [apply IH|]. rewrite some_of_cons.
    unfold set_grid. cbn. f_equal. set_solver.
Qed.

(** Both walks, for functions that change the grid alone. *)
Lemma yields_walk (f : spawn_kind -> Z -> Z -> EM unit) (pool : Z -> game_call)
    (F : gset (spawn_kind * Z) -> gset (spawn_kind * Z) -> gset (spawn_kind * Z)) (v : Z) (w : GEWorld) :
  (forall k l w, yields (each (f k v) l) w tt (set_grid (F (some_of k v l) (w_grid w)) w)) ->
  laid_out w -> Z.abs v < events_count w ->
  yields (walk_objects f pool v) w tt (set_grid (F (shown_of w KGameObject v) (F (shown_of w KCreature v) (w_grid w))) w).
Proof.
  intros Hf Hw Hv. pose proof Hw as [Hc Ho Hp _ _ _].
  assert (Hat : forall k, exists l, lists_of k (content w) !! Z.to_nat (events_count w + v - 1) = Some l).
  { intros k. apply at_place. rewrite Ho. lia. }
  assert (Hin : forall k, ((events_count w + v - 1 <? 0) || (Z.of_nat (length (lists_of k (content w))) <=? events_count w + v - 1)) = false).
  { intros k. rewrite orb_false_iff, Ho. split; [apply Z.ltb_ge|apply Z.leb_gt]; lia. }
  assert (Hs : forall k l, lists_of k (content w) !! Z.to_nat (events_count w + v - 1) = Some l -> some_of k v l = shown_of w k v).
  { intros k l Hl. unfold shown_of, some_of, listed. by rewrite Hl. }
  destruct (Hat KCreature) as [lc Hlc], (Hat KGameObject) as [lg Hlg].
  unfold walk_objects. apply yields_seen. rewrite (internal_small w v Hw Hv). apply yields_seen.
  pose proof (Hin KCreature) as H1. cbn [lists_of] in H1. rewrite H1.
  eapply yields_deref; [exact Hlc|]. eapply yields_bind; [apply Hf|]. rewrite (Hs _ _ Hlc). apply yields_seen.
  cbn [content set_grid]. pose proof (Hin KGameObject) as H2. cbn [lists_of] in H2. rewrite H2.
  eapply yields_deref; [exact Hlg|]. eapply yields_bind; [apply Hf|]. rewrite (Hs _ _ Hlg).
  destruct (Z.gtb_spec v 0) as [Hpos|_]; [|apply yields_ret]. apply yields_seen. cbn [content set_grid].
  rewrite Hp. destruct (Z.leb_spec (events_count w) v); [lia|].
  destruct (at_place (mGameEventSpawnPoolIds (content w)) v) as [l Hl]; [rewrite Hp; lia|].
  by eapply yields_deref; [exact Hl|].
Qed.
Lemma yields_GameEventSpawn v w : laid_out w -> Z.abs v < events_count w ->
  yields (GameEventSpawn env v) w tt (set_grid (objects_of w v ∪ w_grid w) w).
Proof.
  intros Hw Hv. eapply yields_eq; [apply (yields_walk _ _ union v w); try done; intros; apply yields_spawns|].
  f_equal. unfold objects_of. set_solver.
Qed.
Lemma yields_GameEventUnspawn v w : laid_out w -> Z.abs v < events_count w ->
  yields (GameEventUnspawn env v) w tt (set_grid (w_grid w ∖ objects_of w v) w).
Proof.
  intros Hw Hv. eapply yields_eq; [apply (yields_walk _ _ (fun a b => b ∖ a) v w); try done; intros; apply yields_unspawns|].
  f_equal. unfold objects_of. set_solver.
Qed.
(** Quests that exist. *)
Definition quests_there (w : GEWorld) : Prop := Forall (Forall (fun q => has_quest env q = true)) (mGameEventQuests (content w)).
Lemma yields_index_at {A B} (f : Content -> list A) i x (k : A -> EM B) w b w' :
  0 <= i -> f (content w) !! Z.to_nat i = Some x -> yields (k x) w b w' -> yields (st_bind (index_at f i) k) w b w'.
Proof.
  intros Hi Hx Hk. eapply yields_bind; [|exact Hk]. unfold index_at. apply yields_seen.
  destruct (Z.ltb_spec i 0); [lia|]. rewrite Hx. apply yields_ret.
Qed.
Lemma yields_UpdateCreatureData id b w : laid_out w -> 0 <= id < events_count w -> yields (UpdateCreatureData env id b) w tt w.
Proof.
  intros [_ _ _ Hl _ _] Hid. destruct (at_place (mGameEventCreatureData (content w)) id) as [l H]; [lia|].
  eapply yields_index_at; [lia|exact H|]. clear. induction l as [|[g d] l IH]; simpl; [apply yields_ret|].
  eapply yields_bind; [|exact IH]. destruct (has_data env KCreature g); [done|apply yields_ret].
Qed.
Definition turned (b : bool) (l : list Z) (q : gset Z) : gset Z := if b then list_to_set l ∪ q else q ∖ list_to_set l.
Lemma set_quests_id w : set_quests (w_quests w) w = w.
Proof. by destruct w. Qed.
Lemma yields_UpdateEventQuests id b w : laid_out w -> quests_there w -> 0 <= id < events_count w ->
  yields (UpdateEventQuests env id b) w tt (set_quests (turned b (quests_of w id) (w_quests w)) w).
Proof.
  intros [_ _ _ _ Hl _] Hq Hid. destruct (at_place (mGameEventQuests (content w)) id) as [l H]; [lia|].
  eapply yields_index_at; [lia|exact H|]. unfold quests_of. rewrite H. cbn [default from_option Datatypes.id].
  pose proof (Forall_lookup_1 _ _ _ _ Hq H) as Hall. clear -Hall. revert w. induction Hall as [|q l Hq _ IH]; intros w; simpl.
  - eapply yields_eq; [apply yields_ret|]. destruct b; simpl; rewrite ?union_empty_l_L, ?difference_empty_L; by rewrite set_quests_id.
  - rewrite Hq. eapply yields_bind; [apply yields_mod|]. eapply yields_eq; [apply IH|]. unfold set_quests, turned. destruct b; cbn; f_equal; set_solver.
Qed.
Lemma yields_SendEventMails v w : laid_out w -> Z.abs v < events_count w -> yields (SendEventMails v) w tt w.
Proof.
  intros Hw Hv. pose proof Hw as [_ _ _ _ _ Hm]. unfold SendEventMails. apply yields_seen. rewrite (internal_small w v Hw Hv).
  destruct (at_place (mGameEventMails (content w)) (events_count w + v - 1)) as [l H]; [lia|]. by eapply yields_index_at; [lia|exact H|].
Qed.

(** The worlds after an event is started and after it is stopped. *)
Definition applied (id : Z) (w : GEWorld) : GEWorld :=
  set_quests (turned true (quests_of w id) (w_quests w))
    (set_grid ((objects_of w id ∪ w_grid w) ∖ objects_of w (- id))
      (set_tables ({[id]} ∪ t_status w) (t_disabled w) (set_active ({[id]} ∪ m_ActiveEvents w) w))).
Definition unapplied (id : Z) (w : GEWorld) : GEWorld :=
  set_quests (turned false (quests_of w id) (w_quests w))
    (set_grid (objects_of w (- id) ∪ (w_grid w ∖ objects_of w id))
      (set_tables (t_status w ∖ {[id]}) (t_disabled w) (set_active (m_ActiveEvents w ∖ {[id]}) w))).

Ltac same_layout Hw := destruct Hw; by split.
Lemma yields_ApplyNewEvent id resume w : laid_out w -> quests_there w -> 1 <= id < events_count w ->
  yields (ApplyNewEvent env id resume) w tt (applied id w).
Proof.
  intros Hw Hq Hid. pose proof (lo_count w Hw). unfold ApplyNewEvent. rewrite (s16_small id), (s16_small (- id)) by lia.
  eapply yields_bind; [apply yields_mod|]. eapply yields_bind; [apply yields_mod|].
  set (w1 := set_tables _ _ _). assert (Hw1 : laid_out w1) by same_layout Hw.
  eapply yields_bind with (c1 := w1).
  { destruct (event_announce env); [|apply yields_ret].
    destruct (at_place (mGameEvent w) id) as [e He]; [unfold events_count in *; lia|].
    by eapply yields_event_at; [exact He|]. }
  eapply yields_bind; [apply yields_GameEventSpawn; [done|unfold events_count in *; cbn; lia]|].
  set (w2 := set_grid _ w1). assert (Hw2 : laid_out w2) by same_layout Hw.
  eapply yields_bind; [apply yields_GameEventUnspawn; [done|unfold events_count in *; cbn; lia]|].
  set (w3 := set_grid _ w2). assert (Hw3 : laid_out w3) by same_layout Hw.
  eapply yields_bind; [apply yields_UpdateCreatureData; [done|unfold events_count in *; cbn; lia]|].
  eapply yields_bind; [apply yields_UpdateEventQuests; [done..|unfold events_count in *; cbn; lia]|].
  set (w4 := set_quests _ w3). assert (Hw4 : laid_out w4) by same_layout Hw.
  apply (yields_eq _ _ _ w4); [|done]. destruct resume; [apply yields_ret|].
  apply yields_SendEventMails; [done|]. unfold events_count in *. cbn. lia.
Qed.
Lemma yields_UnApplyEvent id w : laid_out w -> quests_there w -> 1 <= id < events_count w ->
  yields (UnApplyEvent env id) w tt (unapplied id w).
Proof.
  intros Hw Hq Hid. pose proof (lo_count w Hw). unfold UnApplyEvent. rewrite (s16_small id), (s16_small (- id)) by lia.
  eapply yields_bind; [apply yields_mod|]. eapply yields_bind; [apply yields_mod|].
  set (w1 := set_tables _ _ _). assert (Hw1 : laid_out w1) by same_layout Hw.
  eapply yields_bind; [apply yields_GameEventUnspawn; [done|unfold events_count in *; cbn; lia]|].
  set (w2 := set_grid _ w1). assert (Hw2 : laid_out w2) by same_layout Hw.
  eapply yields_bind; [apply yields_GameEventSpawn; [done|unfold events_count in *; cbn; lia]|].
  set (w3 := set_grid _ w2). assert (Hw3 : laid_out w3) by same_layout Hw.
  eapply yields_bind; [apply yields_UpdateCreatureData; [done|unfold events_count in *; cbn; lia]|].
  eapply yields_bind; [apply yields_UpdateEventQuests; [done..|unfold events_count in *; cbn; lia]|].
  set (w4 := set_quests _ w3). assert (Hw4 : laid_out w4) by same_layout Hw.
  apply (yields_eq _ _ _ w4); [|done]. apply yields_SendEventMails; [done|]. unfold events_count in *. cbn. lia.
Qed.
End effects.

(** ** The invariant *)

(** An event whose period and length are not zero, as minutes times sixty in 32
    bits; one that is not valid is over before the clock starts, or has a
    period.  Otherwise a division by zero would follow. *)
Definition steady (e : GameEventData) : Prop :=
  (isValid e = true -> 0 < period e /\ 0 < duration e) /\ (isValid e = false -> 0 < period e \/ end_ e <= 0) /\ 0 <= leapDays e.

Lemma steady_next now e : 0 < now -> steady e -> exists b d, is_on now e = Some b /\ next_check now e = Some d /\ 0 <= d < 2 ^ 32.
Proof.
  intros Hn (Hv & Hi & _). assert (Hd : 0 < period e \/ end_ e < now) by (destruct (isValid e); [left; by apply Hv|destruct Hi; auto; lia]).
  unfold is_on, next_check, phase. destruct (Z.gtb_spec now (end_ e)) as [H|H].
  - assert ((now <? end_ e) = false) as -> by (apply Z.ltb_ge; lia). rewrite andb_false_r. exists false, max_ge_check_delay.
    unfold max_ge_check_delay. split_and!; done || lia.
  - destruct (Z.eqb_spec (period e) 0); [lia|]. cbn.
    assert (Hw : forall x, 0 <= u32 x < 2 ^ 32) by (intros; by apply wrap_range).
    repeat case_match; eexists _, _; split_and!; try done; apply Hw.
Qed.

(** What every world event may change: events that are not hardcoded stay as
    they are, running or not. *)
Record spared (w w' : GEWorld) : Prop := {
  sp_content : content w' = content w; sp_init : m_IsGameEventsInit w' = m_IsGameEventsInit w;
  sp_count : length (mGameEvent w') = length (mGameEvent w); sp_reads : (reads w <= reads w')%nat;
  sp_events : forall i e, mGameEvent w !! i = Some e -> exists e', mGameEvent w' !! i = Some e' /\ hardcoded e' = hardcoded e
    /\ isValid e' = isValid e /\ (hardcoded e = 0 -> e' = e /\ (Z.of_nat i ∈ m_ActiveEvents w' <-> Z.of_nat i ∈ m_ActiveEvents w)) }.
#[global] Instance spared_preorder : PreOrder spared.
Proof.
  split.
  - intros w. split; try done. intros i e He. by exists e.
  - intros w1 w2 w3 [A1 B1 C1 R1 D1] [A2 B2 C2 R2 D2]. split; [congruence..|lia|]. intros i e He.
    destruct (D1 i e He) as (e' & He' & Hh & Hv & Hr). destruct (D2 i e' He') as (e'' & He'' & Hh' & Hv' & Hr'). exists e''.
    split; [done|]. split; [congruence|]. split; [congruence|]. intros H. destruct (Hr H) as [-> Ha]. destruct (Hr' H) as [-> Hb]. split; [done|]. by rewrite Hb.
Qed.

(** The events that world events start and stop; their rows say that they are
    hardcoded, so the calendar leaves them alone. *)
Definition coded_ids : list Z :=
  [13; 68; 69; 70; 71; 72; 73; 74; 75; 150; 151; 66; 4; 5; 23; 24; 6; 39]
  ++ stage_events ++ [EVENT_WAR_EFFORT_BATTLE_ASHI; EVENT_WAR_EFFORT_BATTLE_REGAL; EVENT_WAR_EFFORT_BATTLE_ZORA; EVENT_WAR_EFFORT].
(** The stages there are. *)
Definition a_stage (s : Z) : Prop := 0 <= s <= WAR_EFFORT_STAGE_COMPLETE.
Definition war_ok (w : GEWorld) : Prop := a_stage (GetSavedVariable VAR_WE_STAGE 0 w) /\ a_stage (stage (war w)).

Section invariant.
Context (env : GameEnv).

(** An object with data that belongs to one event or absence alone, and not to
    a pool in the latter case; a quest of one event alone. *)
Definition only_of (w : GEWorld) (k : spawn_kind) (g v : Z) : Prop :=
  appears env k v g = true /\ forall v', Z.abs v' < events_count w -> g ∈ listed w k v' <-> v' = v.
Definition only_quest (w : GEWorld) (q id : Z) : Prop := forall id', 0 <= id' < events_count w -> q ∈ quests_of w id' <-> id' = id.

Record calendar_ok (w : GEWorld) : Prop := {
  co_layout : laid_out w;
  co_active : forall id, id ∈ m_ActiveEvents w -> 1 <= id /\ IsValidEvent id w = true;
  co_status : t_status w = m_ActiveEvents w;
  co_events : Forall steady (mGameEvent w);
  co_zero : IsValidEvent 0 w = false;
  co_coded : forall id e, id ∈ coded_ids -> mGameEvent w !! Z.to_nat id = Some e -> isValid e = true -> hardcoded e <> 0;
  co_world_events : Forall (fun id => 0 <= id < events_count w) (mGameEventHardcodedList (content w));
  co_quests : quests_there env w;
  co_war : war_ok w;
  co_objects : forall k g v, only_of w k g v -> 1 <= Z.abs v < events_count w ->
    (0 < v -> (k, g) ∈ w_grid w <-> v ∈ m_ActiveEvents w) /\ (v < 0 -> (k, g) ∈ w_grid w -> - v ∉ m_ActiveEvents w);
  co_quest_state : forall q id, only_quest w q id -> 1 <= id < events_count w -> q ∈ w_quests w <-> id ∈ m_ActiveEvents w }.

Lemma valid_at id w : IsValidEvent id w = true ->
  id < events_count w /\ exists e, mGameEvent w !! Z.to_nat id = Some e /\ isValid e = true.
Proof.
  unfold IsValidEvent. rewrite andb_true_iff, Z.ltb_lt. intros [H1 H2]. split; [done|].
  destruct (mGameEvent w !! Z.to_nat id) as [e|]; [by exists e|done].
Qed.
Lemma valid_pos id w : calendar_ok w -> 0 <= id -> IsValidEvent id w = true -> 1 <= id < events_count w.
Proof.
  intros Hw Hid Hv. pose proof (co_zero w Hw). destruct (valid_at id w Hv) as [? _]. destruct (decide (id = 0)) as [->|]; [congruence|lia].
Qed.

(** The parts the invariant reads beside the data of events. *)
Lemma calendar_same w w' : calendar_ok w ->
  content w' = content w -> m_ActiveEvents w' = m_ActiveEvents w -> t_status w' = t_status w -> w_grid w' = w_grid w -> w_quests w' = w_quests w ->
  war_ok w' -> length (mGameEvent w') = length (mGameEvent w) ->
  (forall i e', mGameEvent w' !! i = Some e' -> exists e, mGameEvent w !! i = Some e /\ isValid e' = isValid e /\ hardcoded e' = hardcoded e
    /\ (steady e -> steady e')) ->
  calendar_ok w'.
Proof.
  intros [L A S E Z D H Q R O T] Hc Ha Hs Hg Hq Hr Hn He.
  assert (Hcount : events_count w' = events_count w) by (unfold events_count; by rewrite Hn).
  assert (Hv : forall id, IsValidEvent id w' = IsValidEvent id w).
  { intros id. unfold IsValidEvent. rewrite Hn. f_equal. destruct (mGameEvent w' !! Z.to_nat id) as [e'|] eqn:H1.
    - destruct (He _ _ H1) as (e & -> & Hve & _). done.
    - apply lookup_ge_None in H1. rewrite Hn in H1. by apply lookup_ge_None in H1 as ->. }
  assert (Hl : forall k v, listed w' k v = listed w k v) by (intros; unfold listed; by rewrite Hc, Hcount).
  assert (Hqs : forall id, quests_of w' id = quests_of w id) by (intros; unfold quests_of; by rewrite Hc).
  split.
  - destruct L. split; rewrite ?Hc, ?Hcount; try done.
  - intros id. rewrite Ha, Hv. apply A.
  - congruence.
  - apply Forall_lookup_2. intros i e' Hi. destruct (He _ _ Hi) as (e & H1 & _ & _ & H2). apply H2. by eapply Forall_lookup_1 in E; [|exact H1].
  - by rewrite Hv.
  - intros id e' Hid Hi Hve. destruct (He _ _ Hi) as (e & H1 & H2 & -> & _). eapply D; [done|exact H1|congruence].
  - by rewrite Hc, Hcount.
  - unfold quests_there. by rewrite Hc.
  - done.
  - intros k g v [H1 H2]. rewrite Hg, Ha, Hcount in *. apply O. split; [done|]. intros v'. rewrite <- Hl. apply H2.
  - intros q id H1. rewrite Hq, Ha, Hcount. apply T. intros id'. rewrite <- Hcount, <- Hqs. apply H1.
Qed.

Lemma only_objects w k g v v' : only_of w k g v -> Z.abs v' < events_count w -> (k, g) ∈ objects_of env w v' <-> v' = v.
Proof.
  intros [Ha Ho] Hv. rewrite elem_of_objects, Ho by done. split; [by intros []|]. by intros ->.
Qed.
Lemma elem_of_turned b l q x : x ∈ turned b l q <-> if b then x ∈ l \/ x ∈ q else x ∈ q /\ x ∉ l.
Proof. unfold turned. destruct b; rewrite ?elem_of_union, ?elem_of_difference, elem_of_list_to_set; tauto. Qed.

Lemma calendar_applied id w : calendar_ok w -> 1 <= id -> IsValidEvent id w = true -> calendar_ok (applied env id w).
Proof.
  intros [L A S E Z D H Q R O T] Hid Hv. pose proof (valid_at id w Hv) as [Hlt _].
  split; try done.
  - destruct L. by split.
  - cbn. intros i. rewrite elem_of_union, elem_of_singleton. intros [->|Hi]; [done|]. by apply A.
  - cbn. by rewrite S.
  - cbn. intros k g v Ho Hv'. change (only_of w k g v) in Ho. destruct (O k g v Ho Hv') as [O1 O2]. change (1 <= Z.abs v < events_count w) in Hv'.
    rewrite !elem_of_difference, !elem_of_union, !elem_of_singleton.
    rewrite (only_objects w k g v id Ho), (only_objects w k g v (- id) Ho) by lia. split.
    + intros Hp. specialize (O1 Hp). rewrite O1. split; [intros [[|] ?]; [left; lia|tauto]|]. intros [->|]; (split; [tauto|lia]).
    + intros Hn. specialize (O2 Hn). intros [[|] ?]; [lia|]. intros [|]; [lia|tauto].
  - cbn -[turned]. intros q i Ho Hi. change (only_quest w q i) in Ho. rewrite elem_of_turned, elem_of_union, elem_of_singleton.
    change (1 <= i < events_count w) in Hi. rewrite (T q i Ho Hi), (Ho id) by lia. naive_solver.
Qed.
Lemma calendar_unapplied id w : calendar_ok w -> 1 <= id -> IsValidEvent id w = true -> calendar_ok (unapplied env id w).
Proof.
  intros [L A S E Z D H Q R O T] Hid Hv. pose proof (valid_at id w Hv) as [Hlt _].
  split; try done.
  - destruct L. by split.
  - cbn. intros i. rewrite elem_of_difference. intros [Hi _]. by apply A.
  - cbn. by rewrite S.
  - cbn. intros k g v Ho Hv'. change (only_of w k g v) in Ho. destruct (O k g v Ho Hv') as [O1 O2]. change (1 <= Z.abs v < events_count w) in Hv'.
    rewrite elem_of_union, !elem_of_difference, !elem_of_singleton.
    rewrite (only_objects w k g v id Ho), (only_objects w k g v (- id) Ho) by lia. split.
    + intros Hp. specialize (O1 Hp). rewrite O1. split; [intros [|[]]; [lia|split; [done|congruence]]|]. intros []. right. split; [done|congruence].
    + intros Hn. specialize (O2 Hn). intros [|[]] [? ?]; [lia|tauto].
  - cbn -[turned]. intros q i Ho Hi. change (only_quest w q i) in Ho. rewrite elem_of_turned, elem_of_difference, elem_of_singleton.
    change (1 <= i < events_count w) in Hi. rewrite (T q i Ho Hi), (Ho id) by lia. naive_solver.
Qed.
(** An event that is not running: its absence is shown. *)
Lemma calendar_shown id w : calendar_ok w -> 1 <= id < events_count w -> id ∉ m_ActiveEvents w ->
  calendar_ok (set_grid (objects_of env w (- id) ∪ w_grid w) w).
Proof.
  intros [L A S E Z D H Q R O T] Hid Hn. split; try done.
  - destruct L. by split.
  - cbn. intros k g v Ho Hv'. change (only_of w k g v) in Ho. destruct (O k g v Ho Hv') as [O1 O2]. change (1 <= Z.abs v < events_count w) in Hv'.
    rewrite elem_of_union, (only_objects w k g v (- id) Ho) by lia. split.
    + intros Hp. rewrite O1 by done. split; [intros [|]; [lia|done]|tauto].
    + intros Hneg [|]; [|tauto]. by assert (- v = id) as -> by lia.
Qed.
End invariant.
