(* ===== verification/GameEventKeep.v ===== *)
(** * GameEventKeep: starting, stopping and updating keep the calendar in order

    The contract of world events, and that every operation of the manager
    returns and keeps [calendar_ok] when they keep it. *)

From stdpp Require Import gmap relations.
From S2P Require Import Prelude ByteBuffer ObjectGuid Packets Effects GameEvents WarEffort GameEventInv.

Local Open Scope prog_scope.

(** Nothing here throws. *)
Abbreviation returns := (wp (fun _ : GEWorld => False)).

Lemma returns_event_at {B} id e (k : GameEventData -> EM B) Q w : mGameEvent w !! Z.to_nat id = Some e -> returns (k e) Q w ->
  returns (st_bind (event_at id) k) Q w.
Proof. intros He H. apply wp_bind. intros log. unfold event_at, seen, st_get, deref, st_bind. cbn. rewrite He. apply H. Qed.

Section keep.
Context (env : GameEnv).

(** Code that keeps the calendar in order and what is not hardcoded as it is. *)
Definition keeps {A} (m : EM A) : Prop := forall w, calendar_ok env w -> returns m (fun _ w' => calendar_ok env w' /\ spared w w') w.

Lemma keeps_ret {A} (a : A) : keeps (st_ret a).
Proof. intros w Hw. by apply wp_ret. Qed.
Lemma keeps_bind {A B} (m : EM A) (k : A -> EM B) : keeps m -> (forall a, keeps (k a)) -> keeps (st_bind m k).
Proof.
  intros Hm Hk w Hw. apply wp_bind. eapply wp_conseq; [by apply Hm|]. intros a w1 [H1 S1].
  eapply wp_conseq; [by apply Hk|]. intros b w2 [H2 S2]. split; [done|by etrans].
Qed.
Lemma keeps_seen {A B} (f : GEWorld -> A) (k : A -> EM B) : (forall a, keeps (k a)) -> keeps (st_bind (seen f) k).
Proof. intros Hk w Hw. apply wp_get. by apply Hk. Qed.
Lemma keeps_if {A} (b : bool) (m1 m2 : EM A) : keeps m1 -> keeps m2 -> keeps (if b then m1 else m2).
Proof. by destruct b. Qed.
Lemma keeps_tell c : keeps (tell c).
Proof. intros w Hw. apply (wp_yields _ _ _ _ tt w); [apply yields_tell|done]. Qed.
Lemma keeps_each {A} (f : A -> EM unit) l : (forall x, x ∈ l -> keeps (f x)) -> keeps (each f l).
Proof.
  induction l as [|x l IH]; intros Hf; simpl; [apply keeps_ret|]. apply keeps_bind; [apply Hf; set_solver|].
  intros _. apply IH. set_solver.
Qed.

(** ** Small steps *)

Definition ticked (w : GEWorld) : GEWorld := set_reads (S (reads w)) (drawn w) w.
Lemma yields_time w : yields (time env) w (clock env (reads w)) (ticked w).
Proof. unfold time. apply yields_seen. eapply yields_bind; [apply yields_mod|]. apply yields_ret. Qed.
Definition put_event (id : Z) (e : GameEventData) (w : GEWorld) : GEWorld := set_events (<[Z.to_nat id := e]> (mGameEvent w)) w.
Lemma yields_event_mod id f e w : mGameEvent w !! Z.to_nat id = Some e -> yields (event_mod id f) w tt (put_event id (f e) w).
Proof. intros He. eapply yields_event_at; [exact He|]. apply yields_mod. Qed.
Lemma yields_script c id w : yields (script_hook env c id) w tt w.
Proof. unfold script_hook. destruct (has_script env id); [apply yields_tell|apply yields_ret]. Qed.

Lemma calendar_reads n d w : calendar_ok env w -> calendar_ok env (set_reads n d w).
Proof. intros H. eapply calendar_same; [exact H|first [done|by apply H]..|]. intros i e' He. by exists e'. Qed.
Lemma spared_reads n d w : (reads w <= n)%nat -> spared w (set_reads n d w).
Proof. intros Hn. split; try done. intros i e He. by exists e. Qed.
Lemma calendar_put id e e' w : calendar_ok env w -> mGameEvent w !! Z.to_nat id = Some e ->
  isValid e' = isValid e -> hardcoded e' = hardcoded e -> (steady e -> steady e') -> calendar_ok env (put_event id e' w).
Proof.
  intros H He Hv Hh Hs. eapply calendar_same; [exact H|first [done|by apply H]..| |].
  - cbn. apply length_insert.
  - cbn. intros i x. destruct (decide (i = Z.to_nat id)) as [->|].
    + rewrite list_lookup_insert_eq by (by eapply lookup_lt_Some). intros [= <-]. by exists e.
    + rewrite list_lookup_insert_ne by done. intros Hx. by exists x.
Qed.
(** A change to a hardcoded event, its activity included. *)
Lemma spared_hard id e w w' : mGameEvent w !! Z.to_nat id = Some e -> hardcoded e <> 0 ->
  content w' = content w -> m_IsGameEventsInit w' = m_IsGameEventsInit w -> (reads w <= reads w')%nat ->
  (mGameEvent w' = mGameEvent w \/ exists e', mGameEvent w' = <[Z.to_nat id := e']> (mGameEvent w)
    /\ hardcoded e' = hardcoded e /\ isValid e' = isValid e) ->
  0 <= id -> (forall i, i <> id -> i ∈ m_ActiveEvents w' <-> i ∈ m_ActiveEvents w) -> spared w w'.
Proof.
  intros He Hh Hc Hi Hr Hev Hid Ha.
  assert (Hne : forall i x, mGameEvent w !! i = Some x -> hardcoded x = 0 -> Z.of_nat i <> id).
  { intros i x Hx Hx0 <-. rewrite Nat2Z.id in He. congruence. }
  split; try done.
  - destruct Hev as [->|(e' & -> & _)]; [done|]. apply length_insert.
  - intros i x Hx. destruct Hev as [->|(e' & -> & Hh' & Hv')].
    + exists x. split_and!; try done. intros. split; [done|]. apply Ha. by eapply Hne.
    + destruct (decide (i = Z.to_nat id)) as [->|].
      * exists e'. rewrite list_lookup_insert_eq by (by eapply lookup_lt_Some). assert (x = e) as -> by congruence. done.
      * exists x. rewrite list_lookup_insert_ne by done. split_and!; try done. intros. split; [done|]. apply Ha. by eapply Hne.
Qed.

(** ** Stopping *)

Definition stopped (id : Z) (overwrite : bool) (w : GEWorld) : GEWorld :=
  match mGameEvent w !! Z.to_nat id with
  | Some e => if overwrite then put_event id (respan (clock env (reads w) - duration e) e) (ticked (unapplied env id w)) else unapplied env id w
  | None => w
  end.
Lemma yields_StopEvent id overwrite w : calendar_ok env w -> 0 <= id -> IsValidEvent id w = true ->
  yields (StopEvent env id overwrite) w tt (stopped id overwrite w).
Proof.
  intros Hw Hid Hv. destruct (valid_pos env id w Hw Hid Hv) as [H1 H2]. destruct (valid_at id w Hv) as (_ & e & He & _).
  unfold StopEvent, stopped. apply yields_seen. rewrite Hv, He. cbn [negb].
  eapply yields_bind; [apply yields_UnApplyEvent; try done; apply Hw|].
  eapply yields_bind; [|apply yields_script].
  destruct overwrite; [|apply yields_ret]. eapply yields_bind; [apply yields_time|].
  eapply yields_event_at; [exact He|]. by apply (yields_event_mod _ _ e).
Qed.
Lemma yields_StopEvent_invalid id overwrite w : IsValidEvent id w = false -> yields (StopEvent env id overwrite) w tt w.
Proof. intros Hv. unfold StopEvent. apply yields_seen. rewrite Hv. apply yields_ret. Qed.

Lemma respan_valid s e : isValid (respan s e) = isValid e.
Proof. done. Qed.
Lemma steady_respan s e : isValid e = true -> steady e -> steady (respan s e).
Proof. intros Hv (H1 & H2 & H3). split_and!; [done| |done]. rewrite respan_valid. congruence. Qed.
Lemma calendar_stopped id overwrite w : calendar_ok env w -> 0 <= id -> IsValidEvent id w = true -> calendar_ok env (stopped id overwrite w).
Proof.
  intros Hw Hid Hv. destruct (valid_pos env id w Hw Hid Hv) as [H1 _]. destruct (valid_at id w Hv) as (_ & e & He & Hve).
  unfold stopped. rewrite He. pose proof (calendar_unapplied env id w Hw H1 Hv) as Hu. destruct overwrite; [|done].
  apply (calendar_put id e); [by apply calendar_reads|done..|]. by apply steady_respan.
Qed.
(** An event that world events own is hardcoded. *)
Lemma coded_hard id w : calendar_ok env w -> id ∈ coded_ids -> IsValidEvent id w = true ->
  exists e, mGameEvent w !! Z.to_nat id = Some e /\ hardcoded e <> 0.
Proof. intros Hw Hid Hv. destruct (valid_at id w Hv) as (_ & e & He & Hve). exists e. split; [done|]. by eapply co_coded. Qed.
Lemma coded_pos id : id ∈ coded_ids -> 0 <= id.
Proof.
  assert (Forall (fun i => 0 <= i) coded_ids) as H by (apply (bool_decide_unpack _); vm_compute; exact I).
  rewrite Forall_forall in H. apply H.
Qed.

Lemma keeps_StopEvent id overwrite : id ∈ coded_ids -> keeps (StopEvent env id overwrite).
Proof.
  intros Hid w Hw. destruct (IsValidEvent id w) eqn:Hv; [|by apply (wp_yields _ _ _ _ tt w); [apply yields_StopEvent_invalid|]].
  pose proof (coded_pos id Hid) as Hp.
  apply (wp_yields _ _ _ _ tt (stopped id overwrite w)); [by apply yields_StopEvent|]. split; [by apply calendar_stopped|].
  destruct (coded_hard id w Hw Hid Hv) as (e & He & Hh). unfold stopped. rewrite He.
  destruct overwrite; apply (spared_hard id e); try done; first [cbn; lia|right; by eexists|by left|cbn; set_solver].
Qed.

(** ** Starting *)

Definition started (id : Z) (overwrite : bool) (w : GEWorld) : GEWorld :=
  match mGameEvent w !! Z.to_nat id with
  | Some e => if overwrite then put_event id (respan (clock env (reads w)) e) (ticked (applied env id w)) else applied env id w
  | None => w
  end.
(** An event that is not hardcoded, or not one of code. *)
Lemma yields_StartEvent Enable id e overwrite resume w : calendar_ok env w -> 0 <= id -> IsValidEvent id w = true ->
  mGameEvent w !! Z.to_nat id = Some e -> hardcoded e = 0 -> yields (StartEvent env Enable id overwrite resume) w tt (started id overwrite w).
Proof.
  intros Hw Hid Hv He Hh. destruct (valid_pos env id w Hw Hid Hv) as [H1 H2].
  unfold StartEvent, started. apply yields_seen. rewrite Hv, He. cbn [negb].
  eapply yields_bind; [apply yields_ApplyNewEvent; try done; apply Hw|].
  eapply yields_event_at; [exact He|]. rewrite Hh. cbn [truth Z.eqb negb andb].
  eapply yields_bind; [apply yields_ret|]. eapply yields_bind; [|apply yields_script].
  destruct overwrite; [|apply yields_ret]. eapply yields_bind; [apply yields_time|]. by apply (yields_event_mod _ _ e).
Qed.
Lemma yields_StartEvent_invalid Enable id overwrite resume w : IsValidEvent id w = false ->
  yields (StartEvent env Enable id overwrite resume) w tt w.
Proof. intros Hv. unfold StartEvent. apply yields_seen. rewrite Hv. apply yields_ret. Qed.
Lemma calendar_started id overwrite w : calendar_ok env w -> 0 <= id -> IsValidEvent id w = true -> calendar_ok env (started id overwrite w).
Proof.
  intros Hw Hid Hv. destruct (valid_pos env id w Hw Hid Hv) as [H1 _]. destruct (valid_at id w Hv) as (_ & e & He & Hve).
  unfold started. rewrite He. pose proof (calendar_applied env id w Hw H1 Hv) as Hu. destruct overwrite; [|done].
  apply (calendar_put id e); [by apply calendar_reads|done..|]. by apply steady_respan.
Qed.

(** A valid event stays in its place. *)
Lemma spared_at w w' i e : spared w w' -> mGameEvent w !! i = Some e -> exists e', mGameEvent w' !! i = Some e' /\ hardcoded e' = hardcoded e
  /\ isValid e' = isValid e.
Proof. intros [_ _ _ _ H] He. destruct (H i e He) as (e' & ? & ? & ? & _). by exists e'. Qed.

Lemma spared_valid w w' id : spared w w' -> 0 <= id -> IsValidEvent id w = true -> IsValidEvent id w' = true.
Proof.
  intros Hs Hid Hv. destruct (valid_at id w Hv) as (Hlt & e & He & Hve). destruct (spared_at w w' _ _ Hs He) as (e' & He' & _ & Hv').
  unfold IsValidEvent. rewrite He', Hv', Hve, andb_true_r. apply Z.ltb_lt. rewrite (sp_count _ _ Hs). exact Hlt.
Qed.

(** An event that is hardcoded, with code that may run when it is enabled. *)
Lemma StartEvent_hard Enable id e overwrite resume w : keeps (Enable id) -> calendar_ok env w -> 0 <= id -> IsValidEvent id w = true ->
  mGameEvent w !! Z.to_nat id = Some e -> hardcoded e <> 0 ->
  returns (StartEvent env Enable id overwrite resume) (fun _ w' => calendar_ok env w' /\ spared w w') w.
Proof.
  intros HE Hw Hid Hv He Hh. destruct (valid_pos env id w Hw Hid Hv) as [H1 H2].
  set (w1 := applied env id w). assert (Hw1 : calendar_ok env w1) by by apply calendar_applied.
  assert (Hs1 : spared w w1). { apply (spared_hard id e); try done; [by left|]. cbn. set_solver. }
  unfold StartEvent. apply wp_get. rewrite Hv. cbn [negb]. apply wp_bind.
  apply (wp_yields _ _ _ _ tt w1); [apply yields_ApplyNewEvent; try done; apply Hw|].
  apply (returns_event_at id e); [exact He|].
  apply wp_bind. eapply wp_conseq with (Q := fun _ w2 => calendar_ok env w2 /\ spared w w2).
  { destruct (_ && _); [|by apply wp_ret]. apply wp_get. destruct (is_world_event id w1); [|by apply wp_ret].
    eapply wp_conseq; [by apply HE|]. intros _ w2 [? ?]. split; [done|by etrans]. }
  intros _ w2 [Hw2 Hs2]. apply wp_bind. eapply wp_conseq with (Q := fun _ w3 => calendar_ok env w3 /\ spared w w3);
    [|intros _ w3 H3; by apply (wp_yields _ _ _ _ tt w3); [apply yields_script|]].
  destruct overwrite; [|by apply wp_ret]. apply wp_bind. apply (wp_yields _ _ _ _ (clock env (reads w2)) (ticked w2)); [apply yields_time|].
  destruct (valid_at id w2 (spared_valid _ _ id Hs2 Hid Hv)) as (_ & e2 & He2 & Hv2).
  eapply wp_yields; [by apply (yields_event_mod _ _ e2)|].
  split; [apply (calendar_put id e2); [by apply calendar_reads|done..|by apply steady_respan]|].
  etrans; [exact Hs2|]. destruct (spared_at _ _ _ _ Hs2 He) as (x & Hx & Hxh & _). assert (x = e2) as -> by congruence.
  apply (spared_hard id e2); try done; first [congruence|cbn; lia|right; by eexists].
Qed.
Lemma StartEvent_wp Enable id overwrite resume w : keeps (Enable id) -> calendar_ok env w -> 0 <= id ->
  returns (StartEvent env Enable id overwrite resume) (fun _ w' => calendar_ok env w') w.
Proof.
  intros HE Hw Hid. destruct (IsValidEvent id w) eqn:Hv; [|by apply (wp_yields _ _ _ _ tt w); [apply yields_StartEvent_invalid|]].
  destruct (valid_at id w Hv) as (_ & e & He & _). destruct (decide (hardcoded e = 0)) as [Hh|Hh].
  - apply (wp_yields _ _ _ _ tt (started id overwrite w)); [by apply (yields_StartEvent _ _ e)|by apply calendar_started].
  - eapply wp_conseq; [by apply (StartEvent_hard _ _ e)|]. by intros _ w' [].
Qed.
Lemma keeps_StartEvent Enable id overwrite resume : keeps (Enable id) -> id ∈ coded_ids -> keeps (StartEvent env Enable id overwrite resume).
Proof.
  intros HE Hid w Hw. destruct (IsValidEvent id w) eqn:Hv; [|by apply (wp_yields _ _ _ _ tt w); [apply yields_StartEvent_invalid|]].
  destruct (coded_hard id w Hw Hid Hv) as (e & He & Hh). by apply (StartEvent_hard _ _ e); try done; apply coded_pos.
Qed.
Lemma StopEvent_wp id overwrite w : calendar_ok env w -> 0 <= id -> returns (StopEvent env id overwrite) (fun _ w' => calendar_ok env w') w.
Proof.
  intros Hw Hid. destruct (IsValidEvent id w) eqn:Hv; [|by apply (wp_yields _ _ _ _ tt w); [apply yields_StopEvent_invalid|]].
  apply (wp_yields _ _ _ _ tt (stopped id overwrite w)); [by apply yields_StopEvent|by apply calendar_stopped].
Qed.

(** ** The contract of world events *)

Record WorldEventsOk (W : WorldEvents) : Prop := {
  wo_Update : forall id, keeps (we_Update W id);
  wo_Enable : forall id, keeps (we_Enable W id);
  wo_Disable : forall id, keeps (we_Disable W id);
  wo_Delay : forall id w, calendar_ok env w ->
    returns (we_Delay W id) (fun d w' => 0 <= d /\ calendar_ok env w' /\ spared w w') w }.

Definition flagged (id v : Z) (updateDB : bool) (e : GameEventData) (w : GEWorld) : GEWorld :=
  let w1 := put_event id (set_disabled v e) w in
  if updateDB then set_tables (t_status w1) (<[id := v]> (t_disabled w1)) w1 else w1.
Lemma calendar_flagged id v updateDB e w : calendar_ok env w -> mGameEvent w !! Z.to_nat id = Some e -> calendar_ok env (flagged id v updateDB e w).
Proof.
  intros Hw He. assert (Hw1 : calendar_ok env (put_event id (set_disabled v e) w)) by by apply (calendar_put id e).
  unfold flagged. destruct updateDB; [|done]. eapply calendar_same; [exact Hw1|first [done|by apply Hw1]..|]. intros i x Hx. by exists x.
Qed.
(** Enabling is setting the flag, unless the event runs: then it is stopped, or
    its code is called. *)
Lemma EnableEvent_flag (Enable Disable : Z -> EM unit) id (enable updateDB : bool) w (Q : unit -> GEWorld -> Prop) :
  (IsValidEvent id w = false -> Q tt w) ->
  (forall e, mGameEvent w !! Z.to_nat id = Some e -> IsValidEvent id w = true -> disabled e = (if enable then 0 else 1) -> Q tt w) ->
  (forall e w1, mGameEvent w !! Z.to_nat id = Some e -> IsValidEvent id w = true -> w1 = flagged id (if enable then 0 else 1) updateDB e w ->
    (id ∉ m_ActiveEvents w -> Q tt w1)
    /\ (id ∈ m_ActiveEvents w -> returns (if is_world_event id w1 then (if enable then Enable id else Disable id) else StopEvent env id true) Q w1)) ->
  returns (EnableEvent env Enable Disable id enable updateDB) Q w.
Proof.
  intros H1 H2 H3. unfold EnableEvent. apply wp_get. destruct (IsValidEvent id w) eqn:Hv; [|apply wp_ret; by apply H1].
  destruct (valid_at id w Hv) as (_ & e & He & Hve). cbn [negb]. apply (returns_event_at id e); [done|].
  destruct (Z.eqb_spec (disabled e) (if enable then 0 else 1)) as [Hd|Hd]; [apply wp_ret; by eapply H2|].
  specialize (H3 e _ He eq_refl eq_refl). set (v := if enable then 0 else 1) in *. destruct H3 as [H3 H4].
  apply wp_bind. eapply wp_yields; [by apply (yields_event_mod _ _ e)|]. apply wp_bind.
  eapply (wp_yields _ _ _ _ tt (flagged id v updateDB e w)). { unfold flagged. destruct updateDB; [|apply yields_ret].
    apply (yields_mod (fun w => set_tables (t_status w) (<[id := v]> (t_disabled w)) w)). }
  apply wp_get. assert (Ha : IsActiveEvent id (flagged id v updateDB e w) = IsActiveEvent id w) by (unfold flagged; by destruct updateDB).
  rewrite Ha. unfold IsActiveEvent. case_bool_decide as Hin; cbn [negb]; [apply wp_get; by apply H4|apply wp_ret; by apply H3].
Qed.
Lemma EnableEvent_wp (Enable Disable : Z -> EM unit) id enable updateDB w : keeps (Enable id) -> keeps (Disable id) -> calendar_ok env w -> 0 <= id ->
  returns (EnableEvent env Enable Disable id enable updateDB) (fun _ w' => calendar_ok env w') w.
Proof.
  intros HE HD Hw Hid. apply EnableEvent_flag; [done..|]. intros e w1 He Hv ->.
  pose proof (calendar_flagged id (if enable then 0 else 1) updateDB e w Hw He) as H1. split; [done|]. intros _.
  destruct (is_world_event _ _).
  - destruct enable; [eapply wp_conseq; [by apply HE|]|eapply wp_conseq; [by apply HD|]]; by intros [] w3 [].
  - by apply StopEvent_wp.
Qed.
Lemma keeps_EnableEvent (Enable Disable : Z -> EM unit) id (enable updateDB : bool) : keeps (Enable id) -> keeps (Disable id) -> id ∈ coded_ids ->
  keeps (EnableEvent env Enable Disable id enable updateDB).
Proof.
  intros HE HD Hid w Hw. pose proof (coded_pos id Hid) as Hp. apply EnableEvent_flag; [done..|]. intros e w1 He Hv ->.
  pose proof (calendar_flagged id (if enable then 0 else 1) updateDB e w Hw He) as H1.
  destruct (coded_hard id w Hw Hid Hv) as (e' & He' & Hh). assert (e' = e) as -> by congruence.
  assert (H2 : spared w (flagged id (if enable then 0 else 1) updateDB e w)).
  { unfold flagged. destruct updateDB; apply (spared_hard id e); try done; right; by eexists. }
  split; [done|]. intros _. assert (Hk : keeps (if is_world_event id (flagged id (if enable then 0 else 1) updateDB e w)
    then (if enable then Enable id else Disable id) else StopEvent env id true)).
  { destruct (is_world_event _ _); [by destruct enable|by apply keeps_StopEvent]. }
  eapply wp_conseq; [by apply Hk|]. intros [] w2 [? ?]. split; [done|by etrans].
Qed.

(** ** The update *)

(** The clock is past the start of the epoch. *)
Context (Hclock : forall n, 0 < clock env n).

Definition regular (e : GameEventData) : Prop := hardcoded e = 0 /\ disabled e = 0.

Lemma update_world_events_wp W next l w : WorldEventsOk W -> calendar_ok env w -> 0 <= next ->
  (forall id, id ∈ l -> 0 <= id < events_count w) ->
  returns (update_world_events env W next l) (fun d w' => 0 <= d <= next /\ calendar_ok env w' /\ spared w w') w.
Proof.
  intros HW. revert next w. induction l as [|id l IH]; intros next w Hw Hn Hl; cbn [update_world_events]; [apply wp_ret; split_and!; done|].
  destruct (at_place (mGameEvent w) id) as [e He]; [apply Hl; left|]. apply (returns_event_at id e); [done|].
  assert (Hl' : forall w', spared w w' -> forall i, i ∈ l -> 0 <= i < events_count w').
  { intros w' Hs i Hi. unfold events_count. rewrite (sp_count _ _ Hs). apply Hl. by right. }
  destruct (truth (disabled e)); [apply IH; try done; by apply Hl'|].
  apply wp_bind. eapply wp_conseq; [by apply HW|]. intros _ w1 [Hw1 Hs1]. apply wp_bind.
  apply (wp_yields _ _ _ _ tt w1); [apply yields_script|]. apply wp_bind. eapply wp_conseq; [by apply HW|].
  intros d w2 (Hd & Hw2 & Hs2). assert (Hs : spared w w2) by by etrans.
  eapply wp_conseq; [apply IH; [done| |by apply Hl']|].
  - unfold earlier. by case_match.
  - intros x w3 (Hx & ? & ?). split_and!; try lia; [|done|by etrans]. unfold earlier in Hx. destruct (Z.ltb_spec d next); lia.
Qed.

(** One event that the calendar decides, at the time [T]. *)
Record stepped (T id : Z) (w w' : GEWorld) : Prop := {
  st_ok : calendar_ok env w'; st_events : mGameEvent w' = mGameEvent w; st_content : content w' = content w;
  st_init : m_IsGameEventsInit w' = m_IsGameEventsInit w; st_reads : reads w' = reads w;
  st_self : forall e, mGameEvent w !! Z.to_nat id = Some e -> isValid e = true -> id ∈ m_ActiveEvents w' <-> is_on T e = Some true;
  st_rest : forall i, i <> id -> i ∈ m_ActiveEvents w' <-> i ∈ m_ActiveEvents w }.
Lemma update_event_wp W aas T id e w : calendar_ok env w -> 0 < T -> 1 <= id < events_count w ->
  mGameEvent w !! Z.to_nat id = Some e -> hardcoded e = 0 ->
  returns (update_event env W aas T id) (fun _ w' => stepped T id w w') w.
Proof.
  intros Hw HT Hid He Hh. pose proof (Forall_lookup_1 _ _ _ _ (co_events env w Hw) He) as Hst.
  destruct (steady_next T e HT Hst) as (b & _ & Hon & _). unfold update_event, CheckOneGameEvent.
  apply wp_bind. apply (returns_event_at id e); [done|]. rewrite Hon. apply wp_ret. apply wp_get.
  assert (Hself : forall w', (isValid e = true -> id ∈ m_ActiveEvents w' <-> b = true) ->
    forall e', mGameEvent w !! Z.to_nat id = Some e' -> isValid e' = true -> id ∈ m_ActiveEvents w' <-> is_on T e' = Some true).
  { intros w' H e' He' Hv'. assert (e' = e) as -> by congruence. rewrite Hon, H by done. naive_solver. }
  assert (Hval : isValid e = true -> IsValidEvent id w = true).
  { intros Hv. unfold IsValidEvent. rewrite He, Hv, andb_true_r. apply Z.ltb_lt. apply Hid. }
  destruct b.
  - apply wp_bind. apply (wp_yields _ _ _ _ tt w); [apply yields_script|]. unfold IsActiveEvent. case_bool_decide as Ha.
    { apply wp_ret. split; try done. by apply Hself. }
    destruct (IsValidEvent id w) eqn:Hv.
    + apply (wp_yields _ _ _ _ tt (started id false w)); [apply (yields_StartEvent _ _ e); try done; lia|].
      pose proof (calendar_started id false w Hw ltac:(lia) Hv) as Hc. unfold started in *. rewrite He in Hc |- *. split; try done.
      * apply Hself. intros _. cbn. set_solver.
      * intros i Hi. cbn. set_solver.
    + apply (wp_yields _ _ _ _ tt w); [by apply yields_StartEvent_invalid|]. split; try done. apply Hself. intros Hve. by specialize (Hval Hve).
  - unfold IsActiveEvent. case_bool_decide as Ha.
    + destruct (co_active env w Hw id Ha) as [_ Hv].
      apply (wp_yields _ _ _ _ tt (stopped id false w)); [apply yields_StopEvent; try done; lia|].
      pose proof (calendar_stopped id false w Hw ltac:(lia) Hv) as Hc. unfold stopped in *. rewrite He in Hc |- *. split; try done.
      * apply Hself. intros _. cbn. set_solver.
      * intros i Hi. cbn. set_solver.
    + assert (Hself' : id ∈ m_ActiveEvents w <-> false = true) by done.
      apply wp_get. destruct (m_IsGameEventsInit w) eqn:Hi; cbn [negb].
      { apply wp_ret. split; try done. by apply Hself. }
      pose proof (lo_count w (co_layout env w Hw)). rewrite s16_small by lia.
      eapply wp_yields; [apply yields_GameEventSpawn; [apply Hw|lia]|]. split; try done; [by apply calendar_shown|by apply Hself].
Qed.

(** The events [l] of the calendar, at the time [T]. *)
Record ran (T : Z) (l : list Z) (next : Z) (w : GEWorld) (d : Z) (w' : GEWorld) : Prop := {
  rn_ok : calendar_ok env w'; rn_events : mGameEvent w' = mGameEvent w; rn_content : content w' = content w;
  rn_init : m_IsGameEventsInit w' = m_IsGameEventsInit w; rn_reads : (reads w <= reads w')%nat; rn_delay : 0 <= d <= next;
  rn_active : forall i e, i ∈ l -> mGameEvent w !! Z.to_nat i = Some e -> regular e -> isValid e = true ->
    i ∈ m_ActiveEvents w' <-> is_on T e = Some true;
  rn_rest : forall i, (forall e, mGameEvent w !! Z.to_nat i = Some e -> i ∈ l -> regular e -> False) ->
    i ∈ m_ActiveEvents w' <-> i ∈ m_ActiveEvents w;
  rn_checks : forall i e, i ∈ l -> mGameEvent w !! Z.to_nat i = Some e -> regular e ->
    exists n x, (reads w <= n < reads w')%nat /\ next_check (clock env n) e = Some x /\ d <= x }.
Lemma update_events_wp W aas T next l w : calendar_ok env w -> 0 < T -> 0 <= next -> NoDup l ->
  (forall id, id ∈ l -> 1 <= id < events_count w) ->
  returns (update_events env W aas T next l) (ran T l next w) w.
Proof.
  intros Hw HT Hn Hnd. revert next w Hw Hn. induction Hnd as [|id l Hid Hnd IH]; intros next w Hw Hn Hl; cbn [update_events].
  { apply wp_ret. split; try done; try (by intros ? ? ?%elem_of_nil). }
  destruct (at_place (mGameEvent w) id) as [e He]; [pose proof (Hl id ltac:(by left)); unfold events_count in *; lia|].
  apply (returns_event_at id e); [done|].
  destruct (truth (hardcoded e) || truth (disabled e)) eqn:Hr.
  { assert (Hnr : ~ regular e). { intros [H1 H2]. by rewrite H1, H2 in Hr. }
    eapply wp_conseq; [apply IH; try done; intros i Hi; apply Hl; by right|]. intros d w' [R1 R2 R3 R4 R5 R6 R7 R8 R9]. split; try done.
    - intros i x [->|Hi]%elem_of_cons Hx Hreg; [congruence|by eapply R7].
    - intros i Hi. apply R8. intros x Hx Hil. apply (Hi x Hx). by right.
    - intros i x [->|Hi]%elem_of_cons Hx Hreg; [congruence|by eapply R9]. }
  apply orb_false_iff in Hr as [Hh%negb_false_iff%Z.eqb_eq Hdis%negb_false_iff%Z.eqb_eq].
  apply wp_bind. eapply wp_conseq; [eapply update_event_wp; try done; apply Hl; by left|]. intros _ w1 [S1 S2 S3 S4 S5 S6 S7].
  apply wp_bind. unfold NextCheck. apply wp_bind. apply (wp_yields _ _ _ _ (clock env (reads w1)) (ticked w1)); [apply yields_time|].
  apply (returns_event_at id e); [by cbn; rewrite S2|].
  destruct (steady_next (clock env (reads w1)) e (Hclock _) (Forall_lookup_1 _ _ _ _ (co_events env w Hw) He)) as (_ & x & _ & Hx & Hxr).
  rewrite Hx. apply wp_ret. assert (He' : 0 <= earlier x next <= next /\ earlier x next <= x).
  { unfold earlier. destruct (Z.ltb_spec x next); lia. }
  eapply wp_conseq; [apply IH; [by apply calendar_reads|lia|]|].
  { intros i Hi. unfold events_count. cbn. rewrite S2. apply Hl. by right. }
  intros d w' [R1 R2 R3 R4 R5 R6 R7 R8 R9]. cbn in R2, R3, R4, R5, R7, R8, R9. rewrite S2 in *. split; try congruence; try done; try lia.
  - intros i y [->|Hi]%elem_of_cons Hy Hreg Hv; [|by apply R7]. rewrite R8; [|by intros; apply Hid]. by apply S6.
  - intros i Hi. rewrite R8; [|intros y Hy Hil; apply (Hi y Hy); by right]. apply S7. intros ->. apply (Hi e He); [by left|done].
  - intros i y [->|Hi]%elem_of_cons Hy Hreg.
    + assert (y = e) as -> by congruence. exists (reads w1), x. split_and!; [lia|lia|done|lia].
    + destruct (R9 i y Hi Hy Hreg) as (n & z & ? & ? & ?). exists n, z. split_and!; [lia|lia|done..].
Qed.

(** The update: regular events are decided at the time the clock showed first;
    the next update is due before one of them changes. *)
Record updated (w : GEWorld) (d : Z) (w' : GEWorld) : Prop := {
  ud_ok : calendar_ok env w'; ud_content : content w' = content w; ud_init : m_IsGameEventsInit w' = m_IsGameEventsInit w;
  ud_delay : exists x, 0 <= x <= max_ge_check_delay /\ d = (x + 1) * 1000;
  ud_events : forall i e, mGameEvent w !! i = Some e -> hardcoded e = 0 -> mGameEvent w' !! i = Some e;
  ud_active : forall i e, mGameEvent w !! i = Some e -> regular e -> isValid e = true ->
    Z.of_nat i ∈ m_ActiveEvents w' <-> is_on (clock env (reads w)) e = Some true;
  ud_disabled : forall i e, mGameEvent w !! i = Some e -> hardcoded e = 0 -> disabled e <> 0 ->
    Z.of_nat i ∈ m_ActiveEvents w' <-> Z.of_nat i ∈ m_ActiveEvents w;
  ud_checks : forall i e, mGameEvent w !! i = Some e -> regular e -> isValid e = true ->
    exists n x, (reads w <= n < reads w')%nat /\ next_check (clock env n) e = Some x /\ d <= (x + 1) * 1000 }.
Lemma calendar_Update_wp W aas w : WorldEventsOk W -> calendar_ok env w -> returns (Update env W aas) (updated w) w.
Proof.
  intros HW Hw. unfold Update. apply wp_bind. apply (wp_yields _ _ _ _ (clock env (reads w)) (ticked w)); [apply yields_time|].
  apply wp_get. apply wp_bind. eapply wp_conseq.
  { apply update_world_events_wp; [done|by apply calendar_reads|done|]. intros i Hi.
    pose proof (co_world_events env w Hw) as H. rewrite Forall_forall in H. by apply H. }
  intros d1 w1 (Hd1 & Hw1 & Hs1). assert (Hs : spared w w1) by (etrans; [apply spared_reads; by constructor|exact Hs1]). apply wp_get. apply wp_bind.
  pose proof (lo_count w1 (co_layout env w1 Hw1)) as Hc. unfold events_count in Hc.
  assert (Hids : forall i, i ∈ event_ids w1 <-> 1 <= i < Z.of_nat (length (mGameEvent w1))).
  { intros i. unfold event_ids. rewrite list_elem_of_fmap. setoid_rewrite elem_of_seq. split.
    - intros (n & -> & ?). lia.
    - intros. exists (Z.to_nat i). lia. }
  eapply wp_conseq; [apply update_events_wp; [done|apply Hclock|lia| |]|].
  - unfold event_ids. apply NoDup_fmap_2; [apply _|apply NoDup_seq].
  - intros i Hi. by apply Hids.
  - intros d w2 [R1 R2 R3 R4 R5 R6 R7 R8 R9]. apply wp_ret.
    assert (Hev : forall i e, mGameEvent w !! i = Some e -> hardcoded e = 0 -> mGameEvent w1 !! i = Some e
      /\ (Z.of_nat i ∈ m_ActiveEvents w1 <-> Z.of_nat i ∈ m_ActiveEvents w)).
    { intros i e He Hh. destruct (sp_events _ _ Hs i e He) as (e' & He' & _ & _ & Hr). destruct (Hr Hh) as [-> Ha]. done. }
    assert (Hin : forall i e, mGameEvent w1 !! i = Some e -> isValid e = true -> Z.of_nat i ∈ event_ids w1).
    { intros i e He Hv. apply Hids. apply lookup_lt_Some in He as Hlt. destruct i; [|lia].
      pose proof (co_zero env w1 Hw1) as Hz. unfold IsValidEvent in Hz. change (Z.to_nat 0) with O in Hz. rewrite He, Hv, andb_true_r in Hz.
      apply Z.ltb_ge in Hz. lia. }
    assert (Hd : u32 (u32 (d + 1) * IN_MILLISECONDS) = (d + 1) * 1000).
    { unfold max_ge_check_delay, IN_MILLISECONDS in *. rewrite (wrap_small 32 (d + 1)) by (unfold is_u; lia). apply wrap_small. unfold is_u. lia. }
    rewrite Hd. split.
    + done.
    + rewrite R3. apply Hs.
    + rewrite R4. apply Hs.
    + exists d. unfold max_ge_check_delay in *. split; [lia|done].
    + intros i e He Hh. rewrite R2. by apply Hev.
    + intros i e He [Hh Hdis] Hv. destruct (Hev i e He Hh) as [He1 _]. apply R7; rewrite ?Nat2Z.id; try done. by eapply Hin.
    + intros i e He Hh Hdis. destruct (Hev i e He Hh) as [He1 <-]. apply R8. intros x. rewrite Nat2Z.id. intros Hx _ [_ Hx']. congruence.
    + intros i e He [Hh Hdis] Hv. destruct (Hev i e He Hh) as [He1 _].
      destruct (R9 (Z.of_nat i) e) as (n & x & Hn & Hx & Hle); rewrite ?Nat2Z.id; try done; [by eapply Hin|].
      pose proof (sp_reads _ _ Hs). exists n, x. split_and!; [lia|lia|done|lia].
Qed.
End keep.
