(* ===== verification/GameEventStart.v ===== *)
(** * GameEventStart: what loading makes of a database

    [LoadFromDB] returns on every database whose rows make sense, and leaves
    content with a place for every event; the first update starts from there. *)

From stdpp Require Import gmap relations.
From S2P Require Import Prelude ByteBuffer ObjectGuid Packets Effects Multimap GameEvents WarEffort GameEventLoad GameEventInv GameEventKeep.

Local Open Scope prog_scope.

Section start.
Context (env : GameEnv).

(** Ids fit, periods and lengths are not zero, the events of code are hardcoded
    and there, and the objects of events are not in the world yet. *)
Record row_ok (r : EventRow) : Prop := {
  ro_entry : 0 <= er_entry r < 2 ^ 15; ro_length : 0 <= er_length r;
  ro_dates : if er_length r =? 0 then 0 < u32 (er_occurence r * MINUTE) \/ s64 (er_end r) <= 0
             else 0 < u32 (er_occurence r * MINUTE) /\ 0 < u32 (er_length r * MINUTE);
  ro_coded : er_entry r ∈ coded_ids -> er_hardcoded r <> 0 }.
Record db_ok (db : GameEventDB) (w : GEWorld) : Prop := {
  do_some : db_events db <> []; do_rows : Forall row_ok (db_events db);
  do_code : Forall (fun id => id <= max_event_id db) hardcoded_events;
  do_creatures : forall g v, (g, v) ∈ db_creatures db -> (KCreature, g) ∉ w_grid w;
  do_gameobjects : forall g v, (g, v) ∈ db_gameobjects db -> (KGameObject, g) ∉ w_grid w }.
(** Before loading. *)
Record blank (w : GEWorld) : Prop := {
  bl_events : mGameEvent w = []; bl_content : content w = Content_empty; bl_init : m_IsGameEventsInit w = false;
  bl_war : war_ok w }.

(** While it is loaded: the events of the calendar are in order, and nothing
    that belongs to an event is in the world. *)
Record loading (n : Z) (w : GEWorld) : Prop := {
  ld_count : events_count w = n; ld_range : 1 <= n <= 2 ^ 15;
  ld_events : Forall steady (mGameEvent w); ld_zero : mGameEvent w !! O = Some GameEventData_new;
  ld_coded : forall id e, id ∈ coded_ids -> mGameEvent w !! Z.to_nat id = Some e -> isValid e = true -> hardcoded e <> 0;
  ld_world_events : Forall (fun id => 0 <= id < n) (mGameEventHardcodedList (content w));
  ld_init : m_IsGameEventsInit w = false; ld_war : war_ok w;
  ld_grid : forall k l g, l ∈ lists_of k (content w) -> g ∈ l -> (k, g) ∉ w_grid w;
  ld_quests : forall l q, l ∈ mGameEventQuests (content w) -> q ∈ l -> has_quest env q = true /\ q ∉ w_quests w }.
Definition sizes (w : GEWorld) : nat * nat * nat * nat * nat * nat :=
  (length (mGameEventCreatureGuids (content w)), length (mGameEventGameobjectGuids (content w)), length (mGameEventSpawnPoolIds (content w)),
   length (mGameEventCreatureData (content w)), length (mGameEventQuests (content w)), length (mGameEventMails (content w))).
(** A step of loading, once the events are there. *)
Record loads (n : Z) (w w' : GEWorld) : Prop := {
  ls_ok : loading n w'; ls_sizes : sizes w' = sizes w; ls_grid : w_grid w' = w_grid w }.
Lemma loads_refl n w : loading n w -> loads n w w.
Proof. by split. Qed.
Lemma loads_trans n w1 w2 w3 : loads n w1 w2 -> loads n w2 w3 -> loads n w1 w3.
Proof. intros [A1 B1 C1] [A2 B2 C2]. split; congruence. Qed.
Lemma loads_each {A} n (f : A -> EM unit) l w : loading n w ->
  (forall x w', x ∈ l -> loads n w w' -> returns (f x) (fun _ => loads n w') w') -> returns (each f l) (fun _ => loads n w) w.
Proof.
  intros Hw Hf. assert (Hgen : forall w1, loads n w w1 -> returns (each f l) (fun _ => loads n w) w1); [|by apply Hgen, loads_refl].
  clear Hw. induction l as [|x l IH]; intros w1 H1; simpl; [by apply wp_ret|]. apply wp_bind.
  eapply wp_conseq; [apply Hf; [left|done]|]. intros [] w2 H2. apply IH; [|by eapply loads_trans]. intros y w3 Hy. apply Hf. by right.
Qed.

(** ** Events *)

Lemma steady_data r e : row_ok r -> steady e -> steady (row_data r e).
Proof.
  intros [_ Hl Hd _] (_ & _ & Hleap). unfold steady, isValid, period, duration. cbn. destruct (Z.eqb_spec (er_length r) 0) as [->|]; [by split_and!|].
  split_and!; [done| |done]. intros H. rewrite Z.gtb_ltb in H. apply Z.ltb_ge in H. lia.
Qed.
Lemma loading_put n id e e' w : loading n w -> 1 <= id -> mGameEvent w !! Z.to_nat id = Some e -> steady e' ->
  (id ∈ coded_ids -> isValid e' = true -> hardcoded e' <> 0) -> loads n w (put_event id e' w).
Proof.
  intros [A B C D E F G K H I] Hid He Hs Hc. split; [|done..]. split; try done.
  - unfold events_count. cbn. rewrite length_insert. exact A.
  - cbn. by apply Forall_insert.
  - cbn. rewrite list_lookup_insert_ne by lia. exact D.
  - cbn. intros i x Hi. destruct (decide (Z.to_nat i = Z.to_nat id)) as [Heq|].
    + rewrite Heq, list_lookup_insert_eq by (by eapply lookup_lt_Some). intros [= <-]. apply Hc.
      assert (0 <= i) by by apply coded_pos. by assert (id = i) as -> by lia.
    + rewrite list_lookup_insert_ne by done. by apply E.
Qed.
(** The flag of code is missing between the two halves of a row: it is asked
    for after both. *)
Lemma load_event_wp n r w : loading n w -> row_ok r -> er_entry r < n -> returns (load_event env r) (fun _ => loads n w) w.
Proof.
  intros Hw Hr Hn. pose proof Hr as [Hent Hlen Hd Hcoded]. unfold load_event. destruct (Z.eqb_spec (er_entry r) 0) as [|Hne]; [by apply wp_ret, loads_refl|].
  destruct (at_place (mGameEvent w) (er_entry r)) as [e He]; [pose proof (ld_count n w Hw); unfold events_count in *; lia|].
  pose proof (Forall_lookup_1 _ _ _ _ (ld_events n w Hw) He) as Hst. pose proof (steady_data r e Hr Hst) as Hst1.
  apply wp_bind. eapply wp_yields; [by apply (yields_event_mod _ _ e)|].
  destruct (Z.eqb_spec (er_length r) 0) as [Hz|Hnz].
  { apply wp_ret. eapply loading_put; try done; [lia|]. intros _. unfold isValid. cbn. by rewrite Hz. }
  set (w1 := put_event _ _ w). assert (He1 : mGameEvent w1 !! Z.to_nat (er_entry r) = Some (row_data r e)).
  { cbn. apply list_lookup_insert_eq. by eapply lookup_lt_Some. }
  apply wp_bind. eapply wp_yields; [by apply (yields_event_mod _ _ _ _ He1)|]. set (e2 := row_flags env r (row_data r e)).
  assert (Hst2 : steady e2) by done.
  assert (H2 : loads n w (put_event (er_entry r) e2 w1)).
  { unfold w1, put_event. cbn. rewrite list_insert_insert_eq.
    apply (loading_put n (er_entry r) e e2 w Hw ltac:(lia) He Hst2). intros Hc _. by apply Hcoded. }
  destruct (_ && _); [|by apply wp_ret]. apply wp_bind. eapply wp_yields; [apply yields_time|].
  set (w2 := put_event _ e2 w1) in *. assert (He2 : mGameEvent (ticked w2) !! Z.to_nat (er_entry r) = Some e2).
  { cbn. apply list_lookup_insert_eq. rewrite length_insert. by eapply lookup_lt_Some. }
  eapply wp_yields; [by apply (yields_event_mod _ _ _ _ He2)|]. assert (Hw2 : loading n (ticked w2)) by (destruct H2 as [[] _ _]; by split).
  eapply (loads_trans n w (ticked w2)); [by destruct H2|].
  apply (loading_put n (er_entry r) e2 _ (ticked w2) Hw2 ltac:(lia) He2).
  { destruct Hst2 as (Hv1 & Hv2 & _). split_and!; [done..|]. by apply wrap_range. }
  intros Hc _. by apply Hcoded.
Qed.

(** ** Content *)

Lemma elem_of_pushed {A} i (x : A) (l : list (list A)) m : m ∈ pushed i x l -> m ∈ l \/ exists m', m' ∈ l /\ m = m' ++ [x].
Proof.
  unfold pushed. intros [j Hj]%list_elem_of_lookup. rewrite list_lookup_alter in Hj. case_decide.
  - apply fmap_Some in Hj as (m' & Hm & ->). right. exists m'. split; [by eapply list_elem_of_lookup_2|done].
  - left. by eapply list_elem_of_lookup_2.
Qed.
Lemma length_pushed {A} i (x : A) (l : list (list A)) : length (pushed i x l) = length l.
Proof. apply length_alter. Qed.
Lemma elem_of_resized {A} n (l : list (list A)) m : m ∈ resized n l -> m ∈ l \/ m = [].
Proof. unfold resized. rewrite elem_of_app, elem_of_replicate. tauto. Qed.
Lemma length_resized {A} n : 0 <= n -> Z.of_nat (length (resized (A:=A) n [])) = n.
Proof. intros. unfold resized. rewrite length_app, length_replicate. cbn. lia. Qed.

(** New content, whose objects are not in the world. *)
Lemma loading_content n c w : loading n w -> Forall (fun id => 0 <= id < n) (mGameEventHardcodedList c) ->
  (forall k l g, l ∈ lists_of k c -> g ∈ l -> (k, g) ∉ w_grid w) ->
  (forall l q, l ∈ mGameEventQuests c -> q ∈ l -> has_quest env q = true /\ q ∉ w_quests w) -> loading n (set_content c w).
Proof. intros [A B C D E F G K H I] ? ? ?. by split. Qed.

Lemma returns_push {A} (get : Content -> list (list A)) on i (x : A) w Q : 0 <= i < Z.of_nat (length (get (content w))) ->
  Q tt (set_content (on (pushed i x) (content w)) w) -> returns (push get on i x) Q w.
Proof.
  intros Hi HQ. destruct (at_place (get (content w)) i Hi) as [l Hl]. unfold push. apply wp_bind.
  apply (wp_yields _ _ _ _ l w); [eapply yields_eq; [|done]|by apply wp_mod].
  unfold index_at. apply yields_seen. destruct (Z.ltb_spec i 0); [lia|]. rewrite Hl. apply yields_ret.
Qed.

Definition on_objects (k : spawn_kind) : (list (list Z) -> list (list Z)) -> Content -> Content :=
  match k with KCreature => on_creatures | KGameObject => on_gameobjects end.
Lemma loads_push_object n k i g w : loading n w -> (k, g) ∉ w_grid w -> loads n w (set_content (on_objects k (pushed i g) (content w)) w).
Proof.
  intros Hw Hg. split; [|destruct k; unfold sizes; cbn; by rewrite length_pushed|done].
  apply loading_content; [done|destruct k; apply Hw| |destruct k; apply Hw].
  intros k' l x Hl Hx. assert (Hor : l ∈ lists_of k' (content w) \/ k' = k /\ exists l', l' ∈ lists_of k (content w) /\ l = l' ++ [g]).
  { destruct k, k'; cbn in *; try (by left); apply elem_of_pushed in Hl; destruct Hl; auto. }
  destruct Hor as [Hor|(-> & l' & Hl' & ->)]; [by eapply ld_grid|].
  apply elem_of_app in Hx as [Hx|Hx%list_elem_of_singleton]; [by eapply ld_grid|by subst].
Qed.
Lemma load_objects_wp n k rows p2e w : loading n w -> (forall g v, (g, v) ∈ rows -> (k, g) ∉ w_grid w) ->
  Z.of_nat (length (lists_of k (content w))) = n * 2 - 1 -> Z.of_nat (length (mGameEventSpawnPoolIds (content w))) = n ->
  returns (load_objects env k (lists_of k) (on_objects k) rows p2e) (fun _ => loads n w) w.
Proof.
  intros Hw Hr Hlk Hlp. assert (Hgen : forall p2e w1, loads n w w1 ->
    returns (load_objects env k (lists_of k) (on_objects k) rows p2e) (fun _ => loads n w) w1); [|by apply Hgen, loads_refl].
  induction rows as [|[g v] rows IH]; intros pe w1 H1; cbn [load_objects]; [by apply wp_ret|].
  assert (Hr' : forall g' v', (g', v') ∈ rows -> (k, g') ∉ w_grid w) by (intros g' v' Hin; apply (Hr g' v'); by right).
  pose proof H1 as [Hw1 Hs1 Hg1]. apply wp_get. destruct (IsValidEvent (Z.abs v) w1) eqn:Hv; [|rewrite orb_true_r; by apply IH].
  destruct (valid_at _ _ Hv) as [Hlt _]. rewrite (ld_count n w1 Hw1) in Hlt. cbn [negb]. rewrite orb_false_r.
  destruct (Z.eqb_spec v 0) as [|Hv0]; [by apply IH|]. apply wp_get.
  assert (Hi : internal_id v w1 = n + v - 1).
  { unfold internal_id. change (Z.of_nat (length (mGameEvent w1))) with (events_count w1). rewrite (ld_count n w1 Hw1).
    pose proof (ld_range n w1 Hw1). apply swrap_small; [done|]. unfold is_s. lia. }
  rewrite Hi. assert (Hlk1 : Z.of_nat (length (lists_of k (content w1))) = n * 2 - 1).
  { rewrite <- Hlk. f_equal. destruct k; cbn; unfold sizes in Hs1; congruence. }
  assert (Hlp1 : Z.of_nat (length (mGameEventSpawnPoolIds (content w1))) = n) by (rewrite <- Hlp; f_equal; unfold sizes in Hs1; congruence).
  cbv zeta. destruct (Z.gtb_spec v 0) as [Hpos|Hneg]; cbn [andb].
  - destruct (truth (IsPartOfTopPool env k g)).
    + destruct (truth (default 0 (pe !! IsPartOfTopPool env k g))); [by apply IH|]. apply wp_bind. apply returns_push; [lia|]. apply wp_bind.
      eapply wp_yields; [apply yields_tell|]. apply IH; [done|]. eapply loads_trans; [exact H1|].
      split; [|unfold sizes; cbn; by rewrite length_pushed|done]. apply loading_content; [done|apply Hw1..].
    + apply wp_bind. apply returns_push; [lia|]. apply IH; [done|]. eapply loads_trans; [exact H1|]. apply loads_push_object; [done|].
      rewrite Hg1. apply (Hr g v). left.
  - apply wp_bind. apply returns_push; [lia|]. apply IH; [done|]. eapply loads_trans; [exact H1|]. apply loads_push_object; [done|].
    rewrite Hg1. apply (Hr g v). left.
Qed.

Lemma valid_loading n v w : loading n w -> IsValidEvent v w = true -> 1 <= v < n.
Proof.
  intros Hw Hv. destruct (valid_at v w Hv) as (Hlt & e & He & Hve). rewrite (ld_count n w Hw) in Hlt.
  destruct (decide (1 <= v)); [lia|]. replace (Z.to_nat v) with O in He by lia. rewrite (ld_zero n w Hw) in He. by injection He as <-.
Qed.
Lemma load_look_wp n row w : loading n w -> Z.of_nat (length (mGameEventCreatureData (content w))) = n ->
  returns (load_look env row) (fun _ => loads n w) w.
Proof.
  intros Hw Hl. destruct row as [[g v] d]. unfold load_look. apply wp_get. destruct (IsValidEvent v w) eqn:Hv; [|rewrite orb_true_r; by apply wp_ret, loads_refl].
  destruct (valid_loading n v w Hw Hv) as [Hlo Hhi]. destruct (Z.eqb_spec v 0); [by apply wp_ret, loads_refl|]. cbn [negb orb]. apply wp_bind.
  apply returns_push; [lia|]. apply wp_mod. split; [|unfold sizes; cbn; by rewrite length_pushed|done].
  apply (loading_content n _ (set_content _ w)); [apply loading_content; [done|apply Hw..]|apply Hw..].
Qed.
Lemma load_quest_wp n row w : loading n w -> Z.of_nat (length (mGameEventQuests (content w))) = n ->
  returns (load_quest env row) (fun _ => loads n w) w.
Proof.
  intros Hw Hl. destruct row as [q v]. unfold load_quest. apply wp_get. destruct (IsValidEvent v w) eqn:Hv; [|rewrite orb_true_r; by apply wp_ret, loads_refl].
  destruct (valid_loading n v w Hw Hv) as [Hlo Hhi]. destruct (Z.eqb_spec v 0); [by apply wp_ret, loads_refl|]. cbn [negb orb].
  destruct (has_quest env q) eqn:Hq; [|by apply wp_ret, loads_refl]. cbn [negb]. apply wp_bind, wp_mod.
  assert (Hw1 : loading n (set_quests (w_quests w ∖ {[q]}) w)).
  { destruct Hw as [A B C D E F G K H I]. split; try done. cbn. intros l x Hl' Hx. destruct (I l x Hl' Hx). split; [done|set_solver]. }
  apply returns_push; [cbn; lia|]. split; [|unfold sizes; cbn; by rewrite length_pushed|done]. apply loading_content; [done|apply Hw1..|].
  cbn. intros l x Hl' Hx. apply elem_of_pushed in Hl' as [Hl'|(l' & Hl' & ->)]; [by apply (ld_quests n _ Hw1 l)|].
  apply elem_of_app in Hx as [Hx|Hx%list_elem_of_singleton]; [by apply (ld_quests n _ Hw1 l')|]. subst. set_solver.
Qed.
Lemma load_mail_wp n row w : loading n w -> Z.of_nat (length (mGameEventMails (content w))) = n * 2 - 1 ->
  returns (load_mail env row) (fun _ => loads n w) w.
Proof.
  intros Hw Hl. destruct row as [v m]. unfold load_mail. apply wp_get. destruct (IsValidEvent v w) eqn:Hv; [|rewrite orb_true_r; by apply wp_ret, loads_refl].
  destruct (valid_loading n v w Hw Hv) as [Hlo Hhi]. destruct (Z.eqb_spec v 0); [by apply wp_ret, loads_refl|]. cbn [negb orb]. apply wp_get.
  destruct (_ || _ || _ || _); [by apply wp_ret, loads_refl|].
  assert (Hi : internal_id v w = n + v - 1).
  { unfold internal_id. change (Z.of_nat (length (mGameEvent w))) with (events_count w). rewrite (ld_count n w Hw).
    pose proof (ld_range n w Hw). apply swrap_small; [done|]. unfold is_s. lia. }
  rewrite Hi. apply returns_push; [lia|]. split; [|unfold sizes; cbn; by rewrite length_pushed|done]. apply loading_content; [done|apply Hw..].
Qed.

(** ** The whole *)

Lemma resized_size {A} (n : Z) (l : list (list A)) : length l = O -> 0 <= n -> length (resized n l) = Z.to_nat n.
Proof. intros Hl Hn. unfold resized. rewrite length_app, length_replicate, Hl. lia. Qed.
Lemma loading_objects n k m w : loading n w -> loading n (set_content (on_objects k (resized m) (content w)) w).
Proof.
  intros Hw. apply loading_content; [done|destruct k; apply Hw| |destruct k; apply Hw]. intros k' l g Hl Hg.
  assert (Hor : l ∈ lists_of k' (content w) \/ l = []).
  { destruct k, k'; cbn in *; try (by left); by apply elem_of_resized in Hl. }
  destruct Hor as [Hor| ->]; [by eapply ld_grid|by apply elem_of_nil in Hg].
Qed.
Lemma coded_hardcoded id : id ∈ hardcoded_events -> 0 <= id.
Proof. intros H. repeat (apply elem_of_cons in H as [->|H]; [done|]). by apply elem_of_nil in H. Qed.
Lemma max_event_range db : Forall row_ok db -> 0 <= foldr Z.max 0 (er_entry <$> db) < 2 ^ 15 /\ Forall (fun r => er_entry r < foldr Z.max 0 (er_entry <$> db) + 1) db.
Proof.
  induction 1 as [|r l [Hr _ _ _] _ [IH1 IH2]]; [done|]. cbn. split; [lia|]. constructor; [lia|].
  eapply Forall_impl; [exact IH2|]. intros x Hx. cbn in Hx. lia.
Qed.
Definition full (n : Z) (w : GEWorld) : Prop :=
  sizes w = (Z.to_nat (n * 2 - 1), Z.to_nat (n * 2 - 1), Z.to_nat n, Z.to_nat n, Z.to_nat n, Z.to_nat (n * 2 - 1)).
(** The blocks of loading, with what follows them. *)
Definition sized (n : Z) (l : nat * nat * nat * nat * nat * nat) (g : gset (spawn_kind * Z)) (w : GEWorld) : Prop :=
  loading n w /\ sizes w = l /\ w_grid w = g.
Lemma sized_sizes n l g w : sized n l g w -> (length (mGameEventCreatureGuids (content w)), length (mGameEventGameobjectGuids (content w)),
  length (mGameEventSpawnPoolIds (content w)), length (mGameEventCreatureData (content w)), length (mGameEventQuests (content w)),
  length (mGameEventMails (content w))) = l.
Proof. by intros (_ & ? & _). Qed.
Ltac open_sizes H E1 E2 E3 E4 E5 E6 := pose proof (sized_sizes _ _ _ _ H) as [= E1 E2 E3 E4 E5 E6].
Lemma block_each {A B} n l g (f : A -> EM unit) rows (k : EM B) Q w : sized n l g w ->
  (forall x w', x ∈ rows -> sized n l g w' -> returns (f x) (fun _ => loads n w') w') ->
  (forall w', sized n l g w' -> returns k Q w') -> returns (each f rows ;;; k) Q w.
Proof.
  intros (Hw & Hs & Hg) Hf Hk. apply wp_bind. eapply wp_conseq.
  - apply (loads_each n); [done|]. intros x w' Hx [Hw' Hs' Hg']. apply Hf; [done|]. split_and!; [done|congruence..].
  - intros [] w' [Hw' Hs' Hg']. apply Hk. split_and!; [done|congruence..].
Qed.
Lemma block_objects {B} n k a b c d e f g rows p (K : gmap Z Z -> EM B) Q w : sized n (a, b, c, d, e, f) g w -> 1 <= n ->
  (if k is KCreature then a = O else b = O) -> c = Z.to_nat n -> (forall x v, (x, v) ∈ rows -> (k, x) ∉ g) ->
  (forall p w', sized n (if k is KCreature then (Z.to_nat (n * 2 - 1), b, c, d, e, f) else (a, Z.to_nat (n * 2 - 1), c, d, e, f)) g w' -> returns (K p) Q w') ->
  returns (fill (on_objects k (resized (n * 2 - 1))) ;;; let! q := load_objects env k (lists_of k) (on_objects k) rows p in K q) Q w.
Proof.
  intros Hw Hn Hab -> Hrows HK. pose proof Hw as (Hl & _ & Hg). open_sizes Hw E1 E2 E3 E4 E5 E6. apply wp_bind, wp_mod.
  pose proof (loading_objects n k (n * 2 - 1) w Hl) as H1. set (w1 := set_content _ w) in *.
  assert (S1 : sizes w1 = if k is KCreature then (Z.to_nat (n * 2 - 1), b, Z.to_nat n, d, e, f) else (a, Z.to_nat (n * 2 - 1), Z.to_nat n, d, e, f)).
  { unfold sizes, w1. destruct k; cbn; rewrite resized_size by lia; congruence. }
  assert (G1 : w_grid w1 = w_grid w) by done. clearbody w1. apply wp_bind. eapply wp_conseq.
  - apply (load_objects_wp n k); [done|by rewrite G1, Hg|..]; unfold sizes in S1; destruct k; injection S1 as F1 F2 F3 F4 F5 F6; cbn [lists_of]; lia.
  - intros q w' [Hw' Hs' Hg']. apply HK. split_and!; [done|congruence..].
Qed.
Lemma block_fill {B} n l g l' (f : Content -> Content) (k : EM B) Q w : sized n l g w -> loading n (set_content (f (content w)) w) ->
  sizes (set_content (f (content w)) w) = l' -> (forall w', sized n l' g w' -> returns k Q w') -> returns (fill f ;;; k) Q w.
Proof. intros (_ & _ & Hg) H1 Hs Hk. apply wp_bind, wp_mod. by apply Hk. Qed.

(** The war effort is made with the list of the world events. *)
Lemma block_step {B} n l g (m : EM unit) (k : EM B) Q w : sized n l g w -> (forall w', sized n l g w' -> returns m (fun _ => sized n l g) w') ->
  (forall w', sized n l g w' -> returns k Q w') -> returns (m ;;; k) Q w.
Proof. intros Hw Hm Hk. apply wp_bind. eapply wp_conseq; [by apply Hm|]. intros [] w' Hw'. by apply Hk. Qed.
Lemma sized_variables n l g w : sized n l g w -> returns UpdateVariables (fun _ => sized n l g) w.
Proof.
  intros (Hw & Hs & Hg). apply wp_get, wp_mod. split_and!; [|done|done]. pose proof (ld_war n w Hw) as [W1 W2]. destruct Hw. by split.
Qed.

(** The rows of the calendar. *)
Lemma block_events {B} db w (k : EM B) Q : blank w -> db_ok db w ->
  (forall w', sized (max_event_id db + 1) (0, 0, 0, 0, 0, 0)%nat (w_grid w) w' -> returns k Q w') ->
  returns (each (load_event env) (db_events db) ;;; k) Q (set_events (replicate (Z.to_nat (max_event_id db + 1)) GameEventData_new) w).
Proof.
  intros [B1 B2 B3 B4] [D1 D2 D3 D4 D5] Hk. destruct (max_event_range _ D2) as [Hmax Hlt]. unfold max_event_id in *. set (n := foldr _ _ _ + 1) in *.
  apply (block_each n (0, 0, 0, 0, 0, 0)%nat (w_grid w)); [|clear Hk|done].
  - split_and!; [|unfold sizes; cbn; by rewrite B2|done]. split; try done; try lia.
    + unfold events_count. cbn. rewrite length_replicate. lia.
    + cbn. apply Forall_replicate. split_and!; [done|by right|done].
    + cbn. apply lookup_replicate_2. lia.
    + cbn. intros i e _ He%lookup_replicate. by destruct He as [-> _].
    + cbn. rewrite B2. constructor.
    + cbn. rewrite B2. intros [] l g Hl; by apply elem_of_nil in Hl.
    + cbn. rewrite B2. intros l q Hl; by apply elem_of_nil in Hl.
  - intros r w1 Hr (Hw1 & _). rewrite Forall_forall in D2, Hlt. apply load_event_wp; [done|by apply D2|by apply Hlt].
Qed.

Lemma LoadFromDB_wp db w : blank w -> db_ok db w ->
  returns (LoadFromDB env db) (fun _ w' => loading (max_event_id db + 1) w' /\ full (max_event_id db + 1) w' /\ w_grid w' = w_grid w) w.
Proof.
  intros HB HD. pose proof HB as [B1 B2 B3 B4]. pose proof HD as [D1 D2 D3 D4 D5].
  unfold LoadFromDB. apply wp_bind, wp_mod. rewrite B1. cbn [app length]. rewrite Nat.sub_0_r.
  destruct (db_events db) as [|r0 rows] eqn:Hdb; [done|]. rewrite <- Hdb in *. clear Hdb r0 rows.
  apply block_events; [done..|]. set (n := max_event_id db + 1). intros w1 S1. pose proof (ld_range n w1 (proj1 S1)) as Hn. open_sizes S1 E1 E2 E3 E4 E5 E6.
  apply (block_fill n _ (w_grid w) (0, 0, 0, 0, 0, 0)%nat _ _ _ _ S1); [|by apply S1|].
  { apply loading_content; [apply S1| |apply S1..]. apply Forall_forall. intros i Hi. rewrite Forall_forall in D3. pose proof (D3 i Hi).
    split; [by apply coded_hardcoded|unfold n; lia]. }
  clear E1 E2 E3 E4 E5 E6 S1 w1. intros w1 S1. open_sizes S1 E1 E2 E3 E4 E5 E6.
  apply (block_step n _ _ _ _ _ _ S1); [intros w' S'; by apply sized_variables|]. clear E1 E2 E3 E4 E5 E6 S1 w1. intros w1 S1. open_sizes S1 E1 E2 E3 E4 E5 E6.
  apply wp_get. replace (Z.of_nat (length (mGameEvent w1))) with n by (symmetry; apply (ld_count n w1), S1).
  apply (block_fill n _ (w_grid w) (0, 0, Z.to_nat n, 0, 0, 0)%nat _ _ _ _ S1); [apply loading_content; apply S1|unfold sizes; cbn; rewrite resized_size by lia; congruence|].
  clear E1 E2 E3 E4 E5 E6 S1 w1. intros w1 S1. apply (block_objects n KCreature _ _ _ _ _ _ _ _ _ _ _ _ S1); [lia|done..|].
  clear S1 w1. intros p w1 S1. apply (block_objects n KGameObject _ _ _ _ _ _ _ _ _ _ _ _ S1); [lia|done..|].
  clear p S1 w1. intros p w1 S1. apply wp_bind, (wp_yields _ _ _ _ tt w1); [apply yields_tells|]. open_sizes S1 E1 E2 E3 E4 E5 E6.
  set (m := Z.to_nat (n * 2 - 1)) in *.
  apply (block_fill n _ (w_grid w) (m, m, Z.to_nat n, Z.to_nat n, 0, 0)%nat _ _ _ _ S1);
    [apply loading_content; apply S1|unfold sizes; cbn; rewrite resized_size by lia; congruence|].
  clear E1 E2 E3 E4 E5 E6 S1 w1. intros w1 S1. apply (block_each n _ _ _ _ _ _ _ S1).
  { intros r w' _ S'. open_sizes S' E1 E2 E3 E4 E5 E6. apply load_look_wp; [apply S'|lia]. }
  clear S1 w1. intros w1 S1. open_sizes S1 E1 E2 E3 E4 E5 E6.
  apply (block_fill n _ (w_grid w) (m, m, Z.to_nat n, Z.to_nat n, Z.to_nat n, 0)%nat _ _ _ _ S1); [|unfold sizes; cbn; rewrite resized_size by lia; congruence|].
  { apply loading_content; [apply S1..|]. cbn. intros l q Hl Hq.
    apply elem_of_resized in Hl as [Hl| ->]; [by apply (ld_quests n _ (proj1 S1) l)|by apply elem_of_nil in Hq]. }
  clear E1 E2 E3 E4 E5 E6 S1 w1. intros w1 S1. apply (block_each n _ _ _ _ _ _ _ S1).
  { intros r w' _ S'. open_sizes S' E1 E2 E3 E4 E5 E6. apply load_quest_wp; [apply S'|lia]. }
  clear S1 w1. intros w1 S1. open_sizes S1 E1 E2 E3 E4 E5 E6.
  apply (block_fill n _ (w_grid w) (m, m, Z.to_nat n, Z.to_nat n, Z.to_nat n, m)%nat _ _ _ _ S1);
    [apply loading_content; apply S1|unfold sizes; cbn; rewrite resized_size by lia; fold m; congruence|].
  clear E1 E2 E3 E4 E5 E6 S1 w1. intros w1 (H1 & S1 & G1). eapply wp_conseq.
  { apply (loads_each n); [exact H1|]. intros r w' _ [Hw' Hs' _]. rewrite S1 in Hs'. injection Hs' as E1 E2 E3 E4 E5 E6.
    apply load_mail_wp; [done|]. lia. }
  intros [] w' [Hw' Hs' Hg']. split_and!; [done|by unfold full; rewrite Hs', S1|congruence].
Qed.

(** ** The first update *)

Lemma loaded_calendar n d w : loading n w -> full n w -> calendar_ok env (set_tables ∅ d (set_active ∅ w)).
Proof.
  intros Hw Hf. pose proof Hw as [A B C D E F G K H I]. unfold full, sizes in Hf. injection Hf as E1 E2 E3 E4 E5 E6. split; try done.
  - split; unfold events_count in *; cbn; try lia. intros []; cbn; lia.
  - unfold IsValidEvent. change (Z.to_nat 0) with O. cbn. by rewrite D, andb_false_r.
  - cbn. eapply Forall_impl; [exact F|]. intros id Hid. cbn beta. change (events_count _) with (events_count w). by rewrite A.
  - cbn. apply Forall_forall. intros l Hl. apply Forall_forall. intros q Hq. by apply (I l q).
  - cbn. intros k g v [_ Ho] Hv. split; [|set_solver]. intros _. split; [|set_solver]. intros Hg. exfalso.
    assert (Hin : g ∈ listed w k v) by (apply (Ho v); [apply Hv|done]). unfold listed in Hin.
    destruct (lists_of k (content w) !! _) as [l|] eqn:Hl; [|by apply elem_of_nil in Hin]. eapply (H k l g); [by eapply list_elem_of_lookup_2|done..].
  - cbn. intros q id Ho Hid. split; [|set_solver]. intros Hq. exfalso. assert (Hin : q ∈ quests_of w id) by (apply (Ho id); [change (1 <= id < events_count w) in Hid; change (0 <= id < events_count w); lia|done]).
    unfold quests_of in Hin. destruct (mGameEventQuests (content w) !! _) as [l|] eqn:Hl; [|by apply elem_of_nil in Hin].
    by destruct (I l q) as [_ ?]; [eapply list_elem_of_lookup_2|..].
Qed.
Lemma calendar_flags a b w : calendar_ok env w -> calendar_ok env (set_flags a b w).
Proof. intros H. eapply calendar_same; [exact H|first [done|by apply H]..|]. intros i e' He. by exists e'. Qed.
Lemma Initialize_wp n W w : (forall k, 0 < clock env k) -> WorldEventsOk env W -> loading n w -> full n w ->
  returns (Initialize env W) (fun d w' => exists w1 w2, mGameEvent w1 = mGameEvent w /\ reads w1 = reads w /\ updated env w1 d w2
    /\ w' = set_flags true (m_IsSilithusEventCompleted w2) w2) w.
Proof.
  intros Hc HW Hw Hf. unfold Initialize. apply wp_bind, wp_mod, wp_get, wp_bind, wp_mod. apply wp_bind.
  eapply wp_conseq; [apply calendar_Update_wp; [done..|by eapply (loaded_calendar n)]|]. intros d w2 H2. apply wp_bind, wp_mod, wp_ret.
  exists (set_tables ∅ (t_disabled w) (set_active ∅ w)), w2. by split_and!.
Qed.
End start.
