(* ===== verification/GameEventHistory.v ===== *)
(** * GameEventHistory: the calendar under all requests

    The world events of [WorldEvents] meet their contract; the manager serves
    any sequence of updates, commands and script commands. *)

From stdpp Require Import gmap relations.
From S2P Require Import Prelude ByteBuffer ObjectGuid Packets Effects Multimap GameEvents WarEffort GameEventLoad WorldEvents.
From S2P Require Import GameEventInv GameEventKeep GameEventStart.

Local Open Scope prog_scope.

(** ** The world events meet their contract *)

Section contract.
Context (env : GameEnv) (Other : WorldEvents) (GetGameTime : nat -> Z).
Context (HOther : WorldEventsOk env Other).

Lemma keeps_time : keeps env (time env).
Proof. intros w Hw. eapply wp_yields; [apply yields_time|]. split; [by apply calendar_reads|apply spared_reads; lia]. Qed.
Lemma keeps_draw lo hi : keeps env (draw_number env lo hi).
Proof. intros w Hw. apply wp_get. apply wp_bind, wp_mod, wp_ret. split; [by apply calendar_reads|apply spared_reads; lia]. Qed.
Lemma keeps_SetSavedVariable i v b : i <> VAR_WE_STAGE \/ a_stage v -> keeps env (SetSavedVariable i v b).
Proof.
  intros Hi w Hw. apply wp_get. destruct (bool_decide _); [by apply wp_ret|]. apply wp_mod. split; [|split; try done; intros j e He; by exists e].
  pose proof (co_war env w Hw) as [W1 W2]. eapply calendar_same; [exact Hw|try done..|intros j e' He; by exists e'].
  split; [|done]. unfold GetSavedVariable. cbn. destruct (decide (i = VAR_WE_STAGE)) as [->|].
  - rewrite lookup_insert_eq. by destruct Hi.
  - by rewrite lookup_insert_ne.
Qed.
Lemma keeps_enable e : keeps env (if e =? GAME_EVENT_SCOURGE_INVASION then we_Enable Other e else st_ret tt).
Proof. destruct (_ =? _); [apply HOther|apply keeps_ret]. Qed.
Lemma keeps_start id : id ∈ coded_ids -> keeps env (we_start env Other id).
Proof. intros. apply keeps_StartEvent; [apply keeps_enable|done]. Qed.
Lemma keeps_if_active id m : keeps env m -> keeps env (if_active id m).
Proof. intros Hm. apply keeps_seen. intros []; [done|apply keeps_ret]. Qed.
Lemma keeps_stop_active id : id ∈ coded_ids -> keeps env (stop_active env id).
Proof. intros. by apply keeps_if_active, keeps_StopEvent. Qed.
Lemma keeps_now : keeps env (now_local env).
Proof. apply keeps_bind; [apply keeps_time|]. intros. apply keeps_ret. Qed.

(** The contract of a program, part by part. *)
Ltac not_stage := first [left; by vm_compute | left; assumption | right; split; by vm_compute].
Ltac coded := apply (bool_decide_unpack _); vm_compute; exact I.
Ltac kept_with t := repeat first
  [ t | apply keeps_ret | apply keeps_tell | apply keeps_time | apply keeps_now | apply keeps_draw
  | apply keeps_SetSavedVariable; not_stage
  | apply keeps_start; first [assumption | coded] | apply keeps_stop_active; first [assumption | coded]
  | apply keeps_StopEvent; first [assumption | coded] | apply keeps_StartEvent; [apply keeps_enable | first [assumption | coded]]
  | apply keeps_if_active | apply keeps_if | apply keeps_seen; intros ? | apply keeps_bind; [|intros ?]
  | apply keeps_each; intros ? ? | match goal with |- keeps _ (match ?x with _ => _ end) => destruct x end ].
Ltac kept := kept_with fail.

Lemma invasion_coded i : i ∈ invasions \/ i ∈ InvasionData -> eventRift i ∈ coded_ids /\ eventBoss i ∈ coded_ids
  /\ varDelay i <> VAR_WE_STAGE /\ varKills i <> VAR_WE_STAGE /\ varStage i <> VAR_WE_STAGE.
Proof.
  unfold invasions, InvasionData. rewrite !elem_of_cons, !elem_of_nil. intros H. decompose [or] H; try done; subst; split_and!; first [coded|by vm_compute].
Qed.
Ltac invasion := match goal with H : ?i ∈ _ |- _ => destruct (invasion_coded i ltac:(first [by left | by right])) as (? & ? & ? & ? & ?) end.
Lemma keeps_invasion : keeps env (ElementalInvasion_Update env Other GetGameTime) /\ keeps env (ElementalInvasion_Disable env).
Proof.
  assert (Hr : keeps env ResetThings) by (unfold ResetThings; kept; invasion; kept). split.
  - unfold ElementalInvasion_Update, StartLocalInvasion, StartLocalBoss, StopLocalInvasion. kept; try exact Hr; invasion; kept.
  - unfold ElementalInvasion_Disable. kept; try exact Hr; invasion; kept.
Qed.
Lemma keeps_disable id : keeps env (world_Disable env Other id).
Proof.
  unfold world_Disable. repeat apply keeps_if; [apply keeps_invasion|..|apply HOther|apply keeps_ret];
    unfold DragonsOfNightmare_Disable, FireworksShow_Disable, ToastingGoblets_Disable; kept.
Qed.

(** *** The Dragons of Nightmare *)

Lemma keeps_count l alive t : keeps env (GetAliveCountAndUpdateRespawnTime env l alive t).
Proof.
  revert alive. induction l as [|g l IH]; intros alive; cbn [GetAliveCountAndUpdateRespawnTime]; [apply keeps_ret|].
  apply keeps_seen. intros n. destruct (creature_dead env n g) as [[]|]; [apply keeps_bind; [apply keeps_tell|]|..]; intros; apply IH.
Qed.
Lemma keeps_dragons : keeps env (DragonsOfNightmare_Update env Other).
Proof.
  assert (Hc : forall i v, i <> VAR_WE_STAGE -> keeps env (CheckSingleVariable i v)).
  { intros. unfold CheckSingleVariable. apply keeps_seen. intros [x|]; kept. }
  assert (Hp : keeps env (PermutateDragons env)).
  { unfold PermutateDragons. apply keeps_bind; [apply keeps_draw|]. intros n. apply keeps_each. intros [i v] Hx.
    assert (i <> VAR_WE_STAGE); [|by apply keeps_SetSavedVariable; left].
    apply elem_of_zip_l in Hx. repeat (apply elem_of_cons in Hx as [->|Hx]; [by vm_compute|]). by apply elem_of_nil in Hx. }
  unfold DragonsOfNightmare_Update. destruct (LoadDragons env) as [l|]; [|apply keeps_ret].
  kept_with ltac:(first [exact Hp|apply keeps_count|apply Hc; by vm_compute]).
Qed.

(** *** The war effort *)

Abbreviation Enable := (world_Enable Other).
Abbreviation Disable := (world_Disable env Other).

Lemma keeps_war f : (forall x, a_stage (stage x) -> a_stage (stage (f x))) -> keeps env (put_war f).
Proof.
  intros Hf w Hw. apply wp_mod. split; [|split; try done; intros j e He; by exists e]. pose proof (co_war env w Hw) as [W1 W2].
  eapply calendar_same; [exact Hw|try done..|intros j e' He; by exists e']. split; [done|]. by apply Hf.
Qed.
Lemma keeps_enter s : a_stage s -> keeps env (enter_stage env s).
Proof.
  intros Hs. unfold enter_stage, put_stage, UpdateStageTransitionTime. apply keeps_bind; [by apply keeps_war|]. intros _.
  apply keeps_bind; [apply keeps_time|]. intros now. apply keeps_bind; [by apply keeps_war|]. intros _. kept.
Qed.
Lemma keeps_variables : keeps env UpdateVariables.
Proof.
  intros w Hw. apply wp_get. apply keeps_war; [|done]. intros _ _. apply (co_war env w Hw).
Qed.
Lemma keeps_on id : id ∈ coded_ids -> keeps env (EnableAndStartEvent env Enable Disable id).
Proof.
  intros Hid. assert (Hs : keeps env (StartEvent env Enable id false false)) by (apply keeps_StartEvent; [apply keeps_enable|done]).
  assert (He : keeps env (EnableEvent env Enable Disable id true true)) by (apply keeps_EnableEvent; [apply keeps_enable|apply keeps_disable|done]).
  unfold EnableAndStartEvent. kept_with ltac:(first [exact Hs|exact He]).
Qed.
Lemma keeps_off id : id ∈ coded_ids -> keeps env (DisableAndStopEvent env Enable Disable id).
Proof.
  intros Hid. assert (He : keeps env (EnableEvent env Enable Disable id false true)) by (apply keeps_EnableEvent; [apply keeps_enable|apply keeps_disable|done]).
  unfold DisableAndStopEvent. kept_with ltac:(exact He).
Qed.
(** What is started is required, what is stopped runs. *)
Lemma elem_of_settle required active x :
  (x ∈ (settle required active).1 -> x ∈ required) /\ (x ∈ (settle required active).2 -> x ∈ active).
Proof.
  revert active. induction required as [|r l IH]; intros active; cbn [settle]; [split; [by intros ?%elem_of_nil|done]|]. case_bool_decide.
  - destruct (IH (list_difference active [r])) as [H1 H2]. split; [intros; right; auto|].
    intros Hx. apply H2 in Hx. by apply list_elem_of_difference in Hx as [? _].
  - destruct (IH active) as [H1 H2]. destruct (settle l active) as [a b]. cbn in *. split; [|done].
    intros [->|Hx]%elem_of_cons; [by left|right; auto].
Qed.
Lemma stage_events_coded s l : warEffortStageEvents !! s = Some l -> forall x, x ∈ l -> x ∈ stage_events.
Proof.
  intros Hl. assert (Forall (fun l => Forall (fun x => x ∈ stage_events) l) warEffortStageEvents) as H by (apply (bool_decide_unpack _); vm_compute; exact I).
  eapply Forall_lookup_1 in H; [|exact Hl]. by apply Forall_forall.
Qed.
Lemma stage_coded x : x ∈ stage_events -> x ∈ coded_ids.
Proof. unfold coded_ids. rewrite !elem_of_app. tauto. Qed.
Lemma stage_row w : calendar_ok env w -> exists l, warEffortStageEvents !! Z.to_nat (stage (war w)) = Some l.
Proof.
  intros Hw. destruct (co_war env w Hw) as [_ [H1 H2]]. apply lookup_lt_is_Some_2. unfold WAR_EFFORT_STAGE_COMPLETE in H2.
  change (length warEffortStageEvents) with 13%nat. lia.
Qed.
Lemma keeps_stage_events : keeps env (UpdateStageEvents env Enable Disable).
Proof.
  intros w Hw. apply wp_get. cbv beta. change (id w) with w. destruct (stage_row w Hw) as [l Hl]. rewrite Hl. apply wp_bind, wp_ret. set (active := filter _ _). pose proof (fun x => elem_of_settle l active x) as Hs. destruct (settle l active) as [start stop].
  assert (Hin : forall x, x ∈ start \/ x ∈ stop -> x ∈ coded_ids).
  { intros x [Hx|Hx]; apply stage_coded; apply Hs in Hx; [by eapply stage_events_coded|]. unfold active in Hx. by apply list_elem_of_filter in Hx as [_ ?]. }
  assert (Hk : keeps env (each (DisableAndStopEvent env Enable Disable) stop ;;;
    each (fun e => let! a := seen (IsActiveEvent e) in if a : bool then st_ret tt else EnableAndStartEvent env Enable Disable e) start)); [|by apply Hk].
  apply keeps_bind; [|intros _]; apply keeps_each; intros x Hx; [apply keeps_off; auto|]. apply keeps_seen. intros []; [apply keeps_ret|apply keeps_on; auto].
Qed.
Lemma keeps_colossus : keeps env (UpdateHiveColossusEvents env Enable).
Proof.
  unfold UpdateHiveColossusEvents. apply keeps_seen. intros m. apply keeps_each. intros e He.
  assert (e ∈ coded_ids). { rewrite !elem_of_app in He. destruct He as [He|[He|He]]; case_match; try (by apply elem_of_nil in He); apply list_elem_of_singleton in He as ->; coded. }
  kept.
Qed.
Lemma keeps_resources : keeps env (AutoCompleteWarEffortProgress env).
Proof.
  assert (Hr : forall r i, i <> VAR_WE_STAGE -> keeps env (AutoCompleteWarEffortResource env r i)) by (intros; unfold AutoCompleteWarEffortResource; kept).
  assert (Forall (fun o : (Z * Z) * (Z * Z) => o.1.1 <> VAR_WE_STAGE /\ o.2.1 <> VAR_WE_STAGE) (zip AllianceObjectives HordeObjectives)) as H1
    by (apply (bool_decide_unpack _); vm_compute; exact I).
  assert (Forall (fun o : Z * Z => GetSharedSavedVar o.1 TEAM_ALLIANCE <> VAR_WE_STAGE /\ GetSharedSavedVar o.1 TEAM_HORDE <> VAR_WE_STAGE) SharedObjectives) as H2
    by (apply (bool_decide_unpack _); vm_compute; exact I).
  rewrite Forall_forall in H1. rewrite Forall_forall in H2. unfold AutoCompleteWarEffortProgress. apply keeps_if; [apply keeps_ret|].
  apply keeps_bind; [|intros _]; apply keeps_each; intros o Ho; [destruct (H1 o Ho)|destruct (H2 o Ho)]; (apply keeps_bind; [|intros _]); by apply Hr.
Qed.
Lemma keeps_collection now : keeps env (UpdateWarEffortCollection env now).
Proof.
  unfold UpdateWarEffortCollection. apply keeps_seen. intros last. apply keeps_bind.
  - apply keeps_if; [|apply keeps_ret]. apply keeps_bind; [apply keeps_resources|intros _]. apply keeps_bind; [by apply keeps_war|intros _]. kept.
  - intros _. apply keeps_seen. intros n. apply keeps_if; [|apply keeps_ret]. by apply keeps_enter.
Qed.
Lemma keeps_stage now : keeps env (WarEffort_stage env Enable Disable now).
Proof.
  assert (He : forall s, a_stage s -> keeps env (enter_stage env s)) by apply keeps_enter.
  assert (HU := keeps_stage_events). assert (HG : keeps env (DisableAndStopEvent env Enable Disable EVENT_AQ_GATE)) by (apply keeps_off; coded).
  intros w Hw. apply wp_get. cbv beta zeta. change (id w) with w.
  assert (Hrest : forall m : EM unit, keeps env m -> returns m (fun _ w' => calendar_ok env w' /\ spared w w') w) by (intros m Hk; by apply Hk).
  destruct (Z.eqb_spec (stage (war w)) WAR_EFFORT_STAGE_COLLECTION); [apply Hrest, keeps_collection|].
  destruct ((_ <=? _) && _) eqn:Hm.
  { destruct (_ =? WAR_EFFORT_STAGE_READY); [apply Hrest; apply keeps_if; [by apply He|apply keeps_ret]|].
    destruct (_ >? _); [|by apply wp_ret]. apply wp_get. apply Hrest, He. apply andb_true_iff in Hm as [H1%Z.leb_le H2%Z.leb_le].
    unfold a_stage, WAR_EFFORT_STAGE_MOVE_1, WAR_EFFORT_STAGE_MOVE_5, WAR_EFFORT_STAGE_COMPLETE in *. lia. }
  apply Hrest. kept_with ltac:(first [exact HU|exact HG|apply He; split; by vm_compute|apply keeps_war; done]).
Qed.
Lemma keeps_war_effort : keeps env (WarEffort_Update env Enable Disable).
Proof.
  unfold WarEffort_Update. apply keeps_bind; [apply keeps_variables|intros _]. apply keeps_bind; [apply keeps_stage_events|intros _].
  apply keeps_seen. intros s. apply keeps_if.
  - kept_with ltac:(apply keeps_off; coded). apply keeps_war. by split.
  - apply keeps_seen. intros active. apply keeps_bind; [kept|intros _]. apply keeps_bind; [apply keeps_colossus|intros _].
    apply keeps_bind; [apply keeps_time|intros now]. apply keeps_bind; [apply keeps_stage|intros _].
    intros w Hw. apply wp_get. apply (keeps_SetSavedVariable _ _ _ (or_intror (proj2 (co_war env w Hw))) w Hw).
Qed.
Lemma keeps_update id : keeps env (world_Update env Other GetGameTime id).
Proof.
  unfold world_Update. repeat apply keeps_if; [apply keeps_invasion|..|apply HOther].
  - unfold Leprithus_Update, follow. kept.
  - unfold Moonbrook_Update, follow. kept.
  - apply keeps_dragons.
  - unfold DarkmoonFaire_Update. apply keeps_bind; [apply keeps_now|]. intros t. apply keeps_each. intros i Hi.
    assert (i ∈ coded_ids) by (unfold DMFValidEvent in Hi; rewrite !elem_of_cons, elem_of_nil in Hi; decompose [or] Hi; try done; subst; coded). kept.
  - unfold FireworksShow_Update. kept.
  - unfold ToastingGoblets_Update, ShouldEnable. kept.
  - apply keeps_war_effort.
Qed.
Lemma world_events_ok : WorldEventsOk env (world_events env Other GetGameTime).
Proof.
  split; [apply keeps_update| |apply keeps_disable|].
  - intros id. apply keeps_enable.
  - intros id w Hw. cbn. unfold world_Delay. destruct (id =? _); [by apply wp_ret|].
    destruct (id =? _); [|by apply wp_ret]. apply wp_get, wp_ret. by destruct (_ || _).
Qed.
End contract.

(** ** Requests *)

Inductive calendar_request :=
  | CUpdate | CStart (me event_id : Z) | CStop (me event_id : Z) | CEnable (me event_id : Z) | CDisable (me event_id : Z)
  | CScript (eventId : Z) (on overwrite : bool) | CSilithus | CSilithusCompleted (state : bool)
  | CVariable (index value : Z) (autoSave : bool) | CWarStage (stage : Z) | CWarGong (gongTime : Z).
(** The ids of commands that fit in 16 bits, and stages that there are. *)
Definition request_ok (r : calendar_request) : Prop :=
  match r with CStart _ id | CStop _ id | CEnable _ id | CDisable _ id => 0 <= id < 2 ^ 16
  | CVariable i v _ => i <> VAR_WE_STAGE \/ a_stage v | CWarStage s => a_stage s | _ => True end.

Section requests.
Context (env : GameEnv) (Other : WorldEvents) (GetGameTime : nat -> Z).
Let W := world_events env Other GetGameTime.

(** The world calls the update without a set of events to resume.  Scripts set
    saved variables. *)
Definition serve (r : calendar_request) : EM unit :=
  match r with
  | CUpdate => let! _ := Update env W ∅ in st_ret tt
  | CStart me id => let! _ := HandleEventStartCommand env Other me id in st_ret tt
  | CStop me id => let! _ := HandleEventStopCommand env me id in st_ret tt
  | CEnable me id => let! _ := HandleEventEnableCommand env Other me id in st_ret tt
  | CDisable me id => let! _ := HandleEventDisableCommand env Other me id in st_ret tt
  | CScript id on overwrite => let! _ := ScriptCommand_GameEvent env Other id on overwrite in st_ret tt
  | CSilithus => UpdateSilithusPVP env Other
  | CSilithusCompleted state => SetSilithusPVPEventCompleted state
  | CVariable i v b => SetSavedVariable i v b
  | CWarStage s => let! _ := HandleWarEffortSetStageCommand env Other GetGameTime s in st_ret tt
  | CWarGong t => let! _ := HandleWarEffortSetGongTimeCommand env Other GetGameTime t in st_ret tt
  end.
(** A world that the manager can be in: after loading and the first update, and
    after any request. *)
Inductive calendar_reached : GEWorld -> Prop :=
  | reached_start db w0 d w log log' : blank w0 -> db_ok db w0 ->
      (LoadFromDB env db ;;; Initialize env W) (w0, log) = (Ok d, (w, log')) -> calendar_reached w
  | reached_step r w w' log log' : calendar_reached w -> request_ok r ->
      serve r (w, log) = (Ok tt, (w', log')) -> calendar_reached w'.

Context (Hclock : forall n, 0 < clock env n) (HOther : WorldEventsOk env Other).
Let HW : WorldEventsOk env W := world_events_ok env Other GetGameTime HOther.
Abbreviation fine := (fun _ w' => calendar_ok env w').

Lemma yields_reply me lang w : yields (reply me lang) w tt w.
Proof. apply yields_emit. Qed.
Lemma refuse_wp me lang w : calendar_ok env w -> returns (refuse me lang) fine w.
Proof. intros Hw. apply wp_bind. eapply wp_yields; [apply yields_reply|]. by apply wp_ret. Qed.
Lemma replied_wp me lang (m : EM unit) w : returns m fine w -> returns (reply me lang ;;; m ;;; st_ret true) fine w.
Proof.
  intros Hm. apply wp_bind. eapply wp_yields; [apply yields_reply|]. apply wp_bind. eapply wp_conseq; [exact Hm|]. intros. by apply wp_ret.
Qed.
Lemma with_event_wp me id (k : EM bool) w : 0 <= id < 2 ^ 16 -> calendar_ok env w -> (IsValidEvent id w = true -> returns k fine w) ->
  returns (with_event me id k) fine w.
Proof.
  intros Hid Hw Hk. unfold with_event. rewrite (wrap_small 16 id) by (unfold is_u; lia). apply wp_get.
  destruct (IsValidEvent id w) eqn:Hv; cbn [negb]; [|by apply refuse_wp]. destruct (valid_at id w Hv) as (_ & e & He & Hve).
  apply (returns_event_at id e); [done|]. rewrite Hve. by apply Hk.
Qed.
Lemma u16_pos x : 0 <= u16 x.
Proof. by apply wrap_range. Qed.

Lemma UpdateSilithusPVP_wp w : calendar_ok env w -> returns (UpdateSilithusPVP env Other) fine w.
Proof.
  intros Hw. unfold UpdateSilithusPVP. apply wp_bind. eapply wp_conseq; [by apply keeps_now|]. intros t w1 [Hw1 _]. apply wp_get.
  apply wp_bind. eapply wp_conseq with (Q := fine).
  { destruct (silithus_hour t); [by apply wp_mod, calendar_flags|]. destruct (_ || _); [by apply wp_ret|by apply wp_mod, calendar_flags]. }
  intros [] w2 Hw2. apply wp_get. destruct (_ || _).
  - destruct (IsActiveEvent _ w2); [by apply wp_ret|]. apply wp_bind. eapply wp_conseq; [apply StartEvent_wp; [by apply keeps_enable|done..]|].
    intros [] w3 Hw3. by eapply wp_yields; [apply yields_tell|].
  - destruct (IsActiveEvent _ w2); [|by apply wp_ret]. apply wp_bind. eapply wp_conseq; [by apply StopEvent_wp|].
    intros [] w3 Hw3. by eapply wp_yields; [apply yields_tell|].
Qed.
Lemma set_wp i v b w : i <> VAR_WE_STAGE \/ a_stage v -> calendar_ok env w -> returns (SetSavedVariable i v b) fine w.
Proof. intros Hi Hw. eapply wp_conseq; [by apply keeps_SetSavedVariable|]. by intros [] w' []. Qed.
Lemma updates_wp w : calendar_ok env w -> returns (let! _ := Update env W ∅ in st_ret true) fine w.
Proof. intros Hw. apply wp_bind. eapply wp_conseq; [by apply calendar_Update_wp|]. intros d w' []. by apply wp_ret. Qed.
Lemma serve_wp r w : request_ok r -> calendar_ok env w -> returns (serve r) fine w.
Proof.
  intros Hr Hw. destruct r as [|me id|me id|me id|me id|id on overwrite| |state|i v b|s|t]; cbn [serve request_ok] in *;
    [..|by apply wp_mod, calendar_flags|by apply set_wp| |]; try by apply UpdateSilithusPVP_wp.
  all: apply wp_bind; (eapply wp_conseq with (Q := fine); [|intros; by apply wp_ret]).
  - eapply wp_conseq; [by apply calendar_Update_wp|]. by intros d w' [].
  - apply with_event_wp; [done..|]. intros _. rewrite (wrap_small 16 id) by (unfold is_u; lia).
    apply wp_get. destruct (IsActiveEvent id w); [by apply refuse_wp|]. apply wp_get. destruct (IsEnabled id w); [|by apply refuse_wp].
    apply replied_wp, StartEvent_wp; [by apply keeps_enable|done|lia].
  - apply with_event_wp; [done..|]. intros _. rewrite (wrap_small 16 id) by (unfold is_u; lia).
    apply wp_get. destruct (IsActiveEvent id w); [|by apply refuse_wp]. apply replied_wp, StopEvent_wp; [done|lia].
  - apply with_event_wp; [done..|]. intros _. rewrite (wrap_small 16 id) by (unfold is_u; lia).
    apply wp_get. destruct (IsEnabled id w); [by apply refuse_wp|]. apply replied_wp, EnableEvent_wp; [by apply keeps_enable|by apply keeps_disable|done|lia].
  - apply with_event_wp; [done..|]. intros _. rewrite (wrap_small 16 id) by (unfold is_u; lia).
    apply wp_get. destruct (IsEnabled id w); [|by apply refuse_wp]. apply replied_wp, EnableEvent_wp; [by apply keeps_enable|by apply keeps_disable|done|lia].
  - unfold ScriptCommand_GameEvent. apply wp_bind. eapply wp_conseq with (Q := fine); [|intros; by apply wp_ret].
    destruct on; [apply StartEvent_wp; [by apply keeps_enable|done|apply u16_pos]|apply StopEvent_wp; [done|apply u16_pos]].
  - apply wp_bind. eapply wp_conseq; [apply set_wp; [by right|done]|]. intros [] w1 H1. apply wp_bind. eapply wp_yields; [apply yields_time|].
    apply wp_bind. eapply wp_conseq; [apply set_wp; [by left|by apply calendar_reads]|]. intros [] w2 H2. by apply updates_wp.
  - apply wp_bind. eapply wp_conseq; [apply set_wp; [by left|done]|]. intros [] w1 H1. by apply updates_wp.
Qed.
Lemma start_wp db w : blank w -> db_ok db w -> returns (LoadFromDB env db ;;; Initialize env W) fine w.
Proof.
  intros HB HD. apply wp_bind. eapply wp_conseq; [by apply LoadFromDB_wp|]. intros [] w1 (H1 & H2 & _).
  eapply wp_conseq; [by eapply Initialize_wp|]. intros d w2 (w3 & w4 & _ & _ & [Hok _ _ _ _ _ _ _] & ->). by apply calendar_flags.
Qed.
Lemma run_wp l w : Forall request_ok l -> calendar_ok env w -> returns (each serve l) fine w.
Proof.
  intros Hl. revert w. induction Hl as [|r l Hr _ IH]; intros w Hw; simpl; [by apply wp_ret|]. apply wp_bind.
  eapply wp_conseq; [by apply serve_wp|]. intros [] w' Hw'. by apply IH.
Qed.
Lemma reached_ok w : calendar_reached w -> calendar_ok env w.
Proof.
  induction 1 as [db w0 d w log log' HB HD H|r w w' log log' _ IH Hr H].
  - pose proof (start_wp db w0 HB HD log) as Hs. by rewrite H in Hs.
  - pose proof (serve_wp r w Hr IH log) as Hs. by rewrite H in Hs.
Qed.
End requests.
