(* ===== verification/GameEventProps.v ===== *)
(** * GameEventProps: what the calendar promises

    The theorems about game events: the manager's books agree under all
    requests, regular events run exactly when their dates say so, yearly events
    come back in time, and what becomes of a yearly event that is stopped by
    command. *)

From stdpp Require Import gmap relations.
From S2P Require Import Prelude ByteBuffer ObjectGuid Packets Effects Multimap GameEvents WarEffort GameEventLoad WorldEvents.
From S2P Require Import GameEventInv GameEventKeep GameEventStart GameEventHistory.

Local Open Scope prog_scope.

(** ** Years *)

Lemma div_step k y : 0 < k -> y / k = (y - 1) / k + if y mod k =? 0 then 1 else 0.
Proof.
  intros Hk. pose proof (Z.div_mod y k ltac:(lia)) as Hy. pose proof (Z.mod_pos_bound y k Hk). destruct (Z.eqb_spec (y mod k) 0).
  - rewrite <- (Z.div_unique (y - 1) k (y / k - 1) (k - 1)); lia.
  - rewrite <- (Z.div_unique (y - 1) k (y / k) (y mod k - 1)); lia.
Qed.
Lemma year_start_S y : year_start (y + 1) = year_start y + 365 + if isLeapYear y then 1 else 0.
Proof.
  unfold year_start, isLeapYear. replace (y + 1 - 1) with y by lia.
  rewrite (div_step 4 y), (div_step 100 y), (div_step 400 y) by done.
  destruct (Z.eqb_spec (y mod 400) 0), (Z.eqb_spec (y mod 4) 0), (Z.eqb_spec (y mod 100) 0); cbn [andb negb];
    first [lia|exfalso; Z.div_mod_to_equations; lia].
Qed.
Lemma gmtime_year_spec t : year_start (gmtime_year t) <= t / DAY < year_start (gmtime_year t + 1).
Proof.
  unfold gmtime_year. set (d := t / DAY). set (y := 1970 + d * 400 / 146097).
  assert (year_start (y - 1) <= d < year_start (y + 2)) by (unfold year_start, y; Z.div_mod_to_equations; lia).
  destruct (Z.ltb_spec d (year_start y)).
  - replace (y - 1 + 1) with y by lia. lia.
  - destruct (Z.leb_spec (year_start (y + 1)) d); [|lia]. replace (y + 1 + 1) with (y + 2) by lia. lia.
Qed.
Lemma leap_years_start a b : a <= b -> year_start b = year_start a + 365 * (b - a) + leap_years a b /\ 0 <= leap_years a b <= b - a.
Proof.
  intros Hab. replace b with (a + Z.of_nat (Z.to_nat (b - a))) by lia. induction (Z.to_nat (b - a)) as [|n IH].
  - unfold leap_years. replace (a + Z.of_nat 0) with a by lia. rewrite Z.sub_diag. change (seqZ a 0) with (@nil Z). cbn -[year_start Z.mul]. lia.
  - assert (Hs : leap_years a (a + Z.of_nat (S n)) = leap_years a (a + Z.of_nat n) + if isLeapYear (a + Z.of_nat n) then 1 else 0).
    { unfold leap_years. replace (a + Z.of_nat (S n) - a) with (Z.of_nat n + 1) by lia. replace (a + Z.of_nat n - a) with (Z.of_nat n) by lia.
      rewrite seqZ_app by lia. rewrite filter_app, length_app.
      replace (seqZ (a + Z.of_nat n) 1) with [a + Z.of_nat n] by (unfold seqZ; cbn; f_equal; lia). rewrite filter_cons, filter_nil.
      destruct (isLeapYear (a + Z.of_nat n)); [rewrite decide_True by done|rewrite decide_False by done]; cbn; lia. }
    rewrite Hs. replace (a + Z.of_nat (S n)) with (a + Z.of_nat n + 1) by lia. rewrite year_start_S. destruct (isLeapYear _); lia.
Qed.

(** The dates of an event with a period say yes or no. *)
Lemma is_on_Some t e : 0 < period e -> exists x, is_on t e = Some x.
Proof.
  intros Hp. unfold is_on, phase. destruct (_ && _); [|by eexists]. destruct (Z.eqb_spec (period e) 0); [lia|]. by eexists.
Qed.

(** ** Theorems *)

(** The books of the manager: the table of running events is the set of them;
    they are events of the calendar; an object or quest of one event alone is
    there when the event runs, one of its absence not. *)
Record in_step (env : GameEnv) (w : GEWorld) : Prop := {
  is_status : t_status w = m_ActiveEvents w;
  is_valid : forall id, id ∈ m_ActiveEvents w -> 1 <= id /\ IsValidEvent id w = true;
  is_objects : forall k g v, only_of env w k g v -> 1 <= v < events_count w -> (k, g) ∈ w_grid w <-> v ∈ m_ActiveEvents w;
  is_absent : forall k g v, only_of env w k g (- v) -> 1 <= v < events_count w -> (k, g) ∈ w_grid w -> v ∉ m_ActiveEvents w;
  is_quests : forall q id, only_quest w q id -> 1 <= id < events_count w -> q ∈ w_quests w <-> id ∈ m_ActiveEvents w }.
Lemma calendar_in_step env w : calendar_ok env w -> in_step env w.
Proof.
  intros [L A S E Z D H Q R O T]. split; try done.
  - intros k g v Ho Hv. apply (O k g v Ho); lia.
  - intros k g v Ho Hv. destruct (O k g (- v) Ho) as [_ H2]; [lia|]. rewrite Z.opp_involutive in H2. apply H2. lia.
Qed.
(** C6. Game events, loaded from any database in order ([db_ok]: ids below 2^15,
    periods and lengths that are not zero, the events of code are there and
    marked as such, objects of events are not in the world yet), initialised,
    and driven by any sequence of requests in order ([request_ok]: updates,
    commands with ids below 2^16, script commands, saved variables set to
    anything, but that of the stage of the war effort only to one of its 13
    stages), never end in undefined behaviour, and the books of the manager
    always agree: the table [game_event_status] lists the running events, each
    is an event of the calendar, and the objects and quests of an event alone
    are in the world exactly while it runs.  The clock is after 1970, and the
    Scourge Invasion, which is not modelled, keeps these books.  Requests that
    are not in order may be undefined: [start_65537], [stage_13]. *)
Theorem game_event_histories env Other GetGameTime db w l :
  (forall n, 0 < clock env n) -> WorldEventsOk env Other -> blank w -> db_ok db w -> Forall request_ok l ->
  returns (LoadFromDB env db ;;; let! _ := Initialize env (world_events env Other GetGameTime) in each (serve env Other GetGameTime) l)
    (fun _ => in_step env) w.
Proof.
  intros Hc HO HB HD Hl. apply wp_bind. eapply wp_conseq; [by apply LoadFromDB_wp|]. intros [] w1 (H1 & H2 & _). apply wp_bind.
  eapply wp_conseq; [by eapply Initialize_wp, H2; first [done|by apply world_events_ok]|].
  intros d w2 (w3 & w4 & _ & _ & [Hok _ _ _ _ _ _ _] & ->). eapply wp_conseq.
  - apply run_wp; [done..|]. by apply calendar_flags.
  - intros. by apply calendar_in_step.
Qed.

(** C7. In a world that the manager reaches by requests in order (the stage
    variable of the war effort is only set to a stage, ids of commands have 16
    bits), an update returns and says when the next is due, in 1 to 86401
    seconds.  It reads the clock more than once: each event of the calendar that
    is neither code nor disabled runs afterwards exactly when its dates say so
    at the first reading [T], and at a later one, [T'], the manager asks when it
    changes.  Until a second before the next update is due the event runs by its
    dates if they say the same at both readings, as they do when the clock
    stands still, and against them all the time if not ([tick_missed]). *)
Theorem calendar_followed env Other GetGameTime w :
  (forall n, 0 < clock env n) -> WorldEventsOk env Other -> calendar_reached env Other GetGameTime w ->
  returns (Update env (world_events env Other GetGameTime) ∅) (fun d w' =>
    1000 <= d <= 86401000 /\
    forall i e, mGameEvent w !! i = Some e -> regular e -> isValid e = true ->
      let T := clock env (reads w) in
      mGameEvent w' !! i = Some e /\ (Z.of_nat i ∈ m_ActiveEvents w' <-> is_on T e = Some true) /\
      exists n, (reads w <= n < reads w')%nat /\ let T' := clock env n in forall t, T' <= t < T' + d / 1000 - 1 ->
        (Z.of_nat i ∈ m_ActiveEvents w' <-> is_on t e = Some true) <-> is_on T e = is_on T' e) w.
Proof.
  intros Hc HO Hw. eapply wp_conseq; [apply (calendar_Update_wp env Hc); [by apply world_events_ok|by eapply reached_ok]|].
  intros d w' U. destruct (ud_delay _ _ _ _ U) as (x & Hx & ->). unfold max_ge_check_delay in Hx. split; [lia|].
  rewrite Z.div_mul by done. intros i e He0 Hr Hv T. pose proof (ud_events _ _ _ _ U i e He0 (proj1 Hr)) as He.
  pose proof (ud_active _ _ _ _ U i e He0 Hr Hv) as HA. fold T in HA. split; [done|]. split; [done|].
  destruct (ud_checks _ _ _ _ U i e He0 Hr Hv) as (n & y & Hn & Hy & Hle). exists n. split; [done|]. intros T' t Ht. fold T' in Hy.
  pose proof (Forall_lookup_1 _ _ _ _ (co_events _ _ (ud_ok _ _ _ _ U)) He) as (Hp & _). destruct (Hp Hv) as [Hp1 Hd].
  rewrite HA, (next_check_sound T' e y t); try first [done|lia].
  destruct (is_on_Some T e) as [x1 Hx1]; [lia|]. destruct (is_on_Some T' e) as [x2 Hx2]; [lia|]. rewrite Hx1, Hx2. clear. destruct x1, x2; naive_solver.
Qed.

(** C22. An event of every year, loaded in a later year, comes back at the same
    second of that year: it runs from there for its length and then rests for
    the 365 days of its period.  The days that leap years added since its start
    are taken off. *)
Theorem yearly_return env r w e0 :
  let ys := gmtime_year (er_start r) in
  let yc := gmtime_year (clock env (reads w)) in
  er_entry r <> 0 -> mGameEvent w !! Z.to_nat (er_entry r) = Some e0 -> leapDays e0 = 0 ->
  0 <= er_start r < 2 ^ 63 -> er_occurence r = default_year_length -> 0 < er_length r < default_year_length -> ys <= yc < ys + 256 ->
  returns (load_event env r) (fun _ w' => exists e, mGameEvent w' !! Z.to_nat (er_entry r) = Some e /\
    forall x, 0 <= x < 365 * DAY ->
      let t := er_start r + (year_start yc - year_start ys) * DAY + x in
      t < end_ e -> is_on t e = Some (x <? er_length r * MINUTE)) w.
Proof.
  intros ys yc He H0 Hl Hs Hocc Hlen Hy. unfold load_event. destruct (Z.eqb_spec (er_entry r) 0) as [|_]; [done|].
  assert (Hlt : (Z.to_nat (er_entry r) < length (mGameEvent w))%nat) by (by eapply lookup_lt_Some).
  apply wp_bind. eapply wp_yields; [by apply (yields_event_mod _ _ e0)|]. destruct (Z.eqb_spec (er_length r) 0) as [|_]; [lia|].
  apply wp_bind. eapply wp_yields; [apply yields_event_mod; by apply list_lookup_insert_eq|]. rewrite Hocc.
  assert ((er_length r <? default_year_length) = true) as -> by (apply Z.ltb_lt; lia). cbn [andb Z.eqb].
  rewrite Z.eqb_refl. cbn [andb]. apply wp_bind. eapply wp_yields; [apply yields_time|].
  eapply wp_yields; [apply yields_event_mod; apply list_lookup_insert_eq; cbn; by rewrite length_insert|].
  eexists. split; [apply list_lookup_insert_eq; cbn; by rewrite !length_insert|].
  destruct (leap_years_start ys yc) as [Hyear Hleap]; [lia|]. cbn [put_event reads set_events].
  set (e := set_leapDays _ _). assert (Hes : start e = er_start r) by (apply swrap_small; [done|unfold is_s; lia]).
  assert (Hel : leapDays e = leap_years ys yc).
  { cbn -[leap_years]. rewrite Hl, swrap_small by (done || unfold is_s; lia). rewrite wrap_small; [done|]. fold ys yc. unfold is_u. lia. }
  assert (Hep : period e = 365 * DAY) by (unfold period; cbn; by rewrite Hocc).
  assert (Hed : duration e = er_length r * MINUTE).
  { unfold duration. cbn. unfold MINUTE, default_year_length in *. apply wrap_small. unfold is_u. lia. }
  clearbody e. intros x Hx. set (t := er_start r + _ + x). intros Ht. unfold is_on, phase. rewrite Hed, Hep, Hes.
  assert (0 <= (yc - ys) * 365) by lia. assert (Helapsed : elapsed t e = x + (yc - ys) * (365 * DAY)) by (unfold elapsed, t; rewrite Hel, Hes; lia).
  assert ((er_start r <=? t) = true) as -> by (apply Z.leb_le; unfold t, DAY; lia).
  assert ((t <? end_ e) = true) as -> by (by apply Z.ltb_lt). cbn [andb]. change (365 * DAY =? 0) with false. cbn. f_equal. f_equal.
  rewrite Helapsed, Z.rem_mod_nonneg by (unfold DAY in *; lia). rewrite Z.mod_add by done. by apply Z.mod_small.
Qed.

(** An event that was stopped is on again by its dates. *)
Lemma restart_phase D L P x : 0 < D < P -> 0 <= L -> 0 <= x -> x < P - D -> Z.rem (D + x - L) P < D <-> x < L.
Proof.
  intros HD HL Hx Hlt. destruct (Z.le_gt_cases 0 (D + x - L)).
  - rewrite Z.rem_small by lia. lia.
  - pose proof (Z.rem_nonpos (D + x - L) P). lia.
Qed.

(** C40. What an administrator gets who stops a regular event that runs, when
    the next request is an update, [x] seconds later and before the event ends
    for good: the stop only moves the start of the event back, so that its time
    is over now, and the update starts the event again exactly if its dates say
    so.  Until its turn comes again, counted from the stop, that is if and only
    if the leap days that are counted for it are more than these [x] seconds: an
    event without leap days rests, one with leap days is back at once. *)
Theorem stop_undone env Other GetGameTime w me id e :
  let T := clock env (reads w) in let T' := clock env (S (reads w)) in let x := T' - T in
  (forall n, 0 < clock env n) -> WorldEventsOk env Other -> calendar_reached env Other GetGameTime w ->
  T <= T' -> 0 <= id < 2 ^ 16 ->
  mGameEvent w !! Z.to_nat id = Some e -> regular e -> isValid e = true -> id ∈ m_ActiveEvents w -> T' < end_ e -> duration e < period e ->
  returns (let! _ := HandleEventStopCommand env me id in Update env (world_events env Other GetGameTime) ∅)
    (fun _ w' => (id ∈ m_ActiveEvents w' <-> Z.rem (duration e + x - leapDays e * DAY) (period e) < duration e)
      /\ (x < period e - duration e -> id ∈ m_ActiveEvents w' <-> x < leapDays e * DAY)) w.
Proof.
  intros T T' x Hc HO Hr HT Hid He [Hh Hdis] Hv Ha Hend Hdp. pose proof (reached_ok env Other GetGameTime Hc HO w Hr) as Hw.
  destruct (co_active _ _ Hw id Ha) as [H1 Hval].
  pose proof (Forall_lookup_1 _ _ _ _ (co_events _ _ Hw) He) as ((Hp & Hd) & _ & Hleap); [done|].
  apply wp_bind. unfold HandleEventStopCommand, with_event. rewrite (wrap_small 16 id) by (unfold is_u; lia). apply wp_get. rewrite Hval. cbn [negb].
  apply (returns_event_at id e); [done|]. rewrite Hv. cbn [negb]. apply wp_get. unfold IsActiveEvent. rewrite bool_decide_true by done. cbn [negb].
  apply wp_bind. eapply wp_yields; [apply yields_reply|]. apply wp_bind.
  eapply wp_yields; [apply yields_StopEvent; first [done|lia]|]. apply wp_ret.
  eapply wp_conseq; [apply (calendar_Update_wp env Hc); [by apply world_events_ok|apply calendar_stopped; first [done|lia]]|].
  intros d w' U. pose proof (lookup_lt_Some _ _ _ He) as Hlt. set (e' := respan (T - duration e) e).
  assert (Hw1 : mGameEvent (stopped env id true w) !! Z.to_nat id = Some e' /\ reads (stopped env id true w) = S (reads w)).
  { unfold stopped. rewrite He. split; [|done]. by apply list_lookup_insert_eq. }
  destruct Hw1 as [He' Hrd]. pose proof (ud_active _ _ _ _ U _ _ He' (conj Hh Hdis) Hv) as HA.
  rewrite Z2Nat.id in HA by lia. rewrite Hrd in HA. fold T' in HA. unfold is_on, phase in HA.
  change (period e') with (period e) in HA. change (duration e') with (duration e) in HA.
  assert (Hs : start e' = T - duration e) by done. assert (Hend' : end_ e' = end_ e).
  { cbn. by assert ((end_ e <=? T - duration e) = false) as -> by (apply Z.leb_gt; lia). }
  assert (Hel : elapsed T' e' = duration e + x - leapDays e * DAY) by (unfold elapsed; rewrite Hs; cbn; lia).
  rewrite Hs, Hend', Hel in HA. assert ((T - duration e <=? T') = true) as E1 by (apply Z.leb_le; lia).
  assert ((T' <? end_ e) = true) as E2 by (by apply Z.ltb_lt). assert ((period e =? 0) = false) as E3 by (apply Z.eqb_neq; lia).
  rewrite E1, E2, E3 in HA. cbn [andb fmap option_fmap option_map] in HA.
  assert (HR : id ∈ m_ActiveEvents w' <-> Z.rem (duration e + x - leapDays e * DAY) (period e) < duration e).
  { rewrite HA. destruct (Z.ltb_spec (Z.rem (duration e + x - leapDays e * DAY) (period e)) (duration e)) as [Hlt'|Hlt']; split; intros; (done || (exfalso; (discriminate || lia))). }
  split; [done|]. intros Hx. rewrite HR. apply restart_phase; unfold DAY; lia.
Qed.

(** ** A calendar *)

Definition sample_time := 1656158400.
(** Saturday, the 25th of June 2022, at noon. *)
Definition sample_env : GameEnv :=
  {| clock := fun _ => sample_time; localtime := fun _ => mkTm 0 12 6 175; urand := fun _ lo _ => lo; has_data := fun _ _ => true;
     IsPartOfAPool := fun _ _ => 0; IsPartOfTopPool := fun _ _ => 0; has_quest := fun _ => true; has_script := fun _ => false;
     event_announce := true; content_phase := 5; has_equipment := fun _ => true; has_creature := fun _ => true;
     has_spell := fun _ => true; has_mail := fun _ => true; GetOneCreatureByEntry := fun entry => entry;
     creature_dead := fun _ _ => Some false; resource_rate := true; resource_increase := fun required => required / 10;
     autocomplete_period := 86400 |}.
Definition sample_other : WorldEvents :=
  {| we_Update := fun _ => st_ret tt; we_Enable := fun _ => st_ret tt; we_Disable := fun _ => st_ret tt;
     we_Delay := fun _ => st_ret max_ge_check_delay |}.
(** Midsummer since the 22nd of June 2020, the nights, and the days of
    Moonbrook, which are code. *)
Definition midsummer : EventRow := mkER 1 1592794800 1893456000 525600 20160 341 "Midsummer" 0 0 0.
Definition nights : EventRow := mkER 27 1592776800 1893456000 1440 720 0 "Night" 0 0 0.
Definition moonbrook : EventRow := mkER 151 1592776800 1893456000 1440 720 0 "Moonbrook" 1 0 0.
Definition sample_db : GameEventDB :=
  mkGEDB [midsummer; nights; moonbrook] [(1000, 1); (1001, 27); (1002, -27); (1003, 151)] [(500, 1)] [] [(9339, 1)] [].
Definition blank_world : GEWorld := mkGEW [] ∅ false false Content_empty ∅ ∅ ∅ ∅ ∅ ∅ 0 0 WarState_empty.
Definition sample_start := LoadFromDB sample_env sample_db ;;; Initialize sample_env (world_events sample_env sample_other (fun _ => sample_time)).
Definition sample_world : GEWorld := match sample_start (blank_world, []) with (Ok _, (w, _)) => w | _ => blank_world end.

Lemma sample_clock n : 0 < clock sample_env n.
Proof. done. Qed.
Lemma sample_other_ok : WorldEventsOk sample_env sample_other.
Proof. split; [intros; apply keeps_ret..|]. intros id w Hw. by apply wp_ret. Qed.
Lemma blank_world_blank : blank blank_world.
Proof. done. Qed.
Lemma sample_db_ok : db_ok sample_db blank_world.
Proof.
  split; [done| | |set_solver..].
  - repeat (apply Forall_cons; split); [split; [done|done|by vm_compute|]; intros H; exfalso; revert H; apply (bool_decide_unpack _); vm_compute; exact I..| |done].
    by split.
  - apply (bool_decide_unpack _). vm_compute. exact I.
Qed.
Lemma sample_reached : calendar_reached sample_env sample_other (fun _ => sample_time) sample_world.
Proof. eapply (reached_start _ _ _ sample_db blank_world _ sample_world [] _); [done|apply sample_db_ok|]. vm_compute. reflexivity. Qed.

(** At noon Midsummer and the event of code run, the night does not; what
    belongs to the running ones is in the world. *)
Example sample_running : (elements (m_ActiveEvents sample_world), elements (w_grid sample_world), elements (w_quests sample_world))
  = ([151; 1], [(KCreature, 1003); (KCreature, 1002); (KCreature, 1000); (KGameObject, 500)], [9339]).
Proof. vm_compute. reflexivity. Qed.

Lemma game_event_histories_witness :
  returns (LoadFromDB sample_env sample_db ;;; let! _ := Initialize sample_env (world_events sample_env sample_other (fun _ => sample_time)) in
      each (serve sample_env sample_other (fun _ => sample_time)) [CUpdate; CStart 7 27; CStop 7 1; CDisable 7 151; CScript 27 false true; CSilithus; CSilithusCompleted true;
        CVariable VAR_WE_HIVE_REWARD 7 false; CWarStage 11; CWarGong 5])
    (fun _ => in_step sample_env) blank_world.
Proof.
  apply game_event_histories; [exact sample_clock|exact sample_other_ok|exact blank_world_blank|exact sample_db_ok|].
  repeat (apply Forall_cons; split); first [exact I|split; [lia|reflexivity]|left; discriminate|split; discriminate|constructor].
Defined.

Lemma calendar_followed_witness :
  returns (Update sample_env (world_events sample_env sample_other (fun _ => sample_time)) ∅) (fun d w' =>
    1000 <= d <= 86401000 /\
    forall i e, mGameEvent sample_world !! i = Some e -> regular e -> isValid e = true ->
      mGameEvent w' !! i = Some e /\ (Z.of_nat i ∈ m_ActiveEvents w' <-> is_on sample_time e = Some true) /\
      exists n, (reads sample_world <= n < reads w')%nat /\ forall t, sample_time <= t < sample_time + d / 1000 - 1 ->
        (Z.of_nat i ∈ m_ActiveEvents w' <-> is_on t e = Some true) <-> is_on sample_time e = is_on sample_time e) sample_world.
Proof. exact (calendar_followed sample_env sample_other (fun _ => sample_time) sample_world sample_clock sample_other_ok sample_reached). Defined.

Lemma yearly_return_witness :
  returns (load_event sample_env midsummer) (fun _ w' => exists e, mGameEvent w' !! Z.to_nat (er_entry midsummer) = Some e /\
    forall x, 0 <= x < 365 * DAY ->
      let t := er_start midsummer + (year_start (gmtime_year sample_time) - year_start (gmtime_year (er_start midsummer))) * DAY + x in
      t < end_ e -> is_on t e = Some (x <? er_length midsummer * MINUTE)) (set_events (replicate 152 GameEventData_new) blank_world).
Proof.
  apply (yearly_return sample_env midsummer _ GameEventData_new);
    first [reflexivity|discriminate|split; vm_compute; first [discriminate|reflexivity]].
Defined.

(** Midsummer stopped by command: its leap days are counted, and it is back. *)
Definition midsummer_event : GameEventData := default GameEventData_new (mGameEvent sample_world !! 1%nat).
Lemma stop_undone_witness :
  returns (let! _ := HandleEventStopCommand sample_env 7 1 in Update sample_env (world_events sample_env sample_other (fun _ => sample_time)) ∅)
    (fun _ w' => (1 ∈ m_ActiveEvents w' <-> Z.rem (duration midsummer_event + 0 - leapDays midsummer_event * DAY) (period midsummer_event) < duration midsummer_event)
      /\ (0 < period midsummer_event - duration midsummer_event -> 1 ∈ m_ActiveEvents w' <-> 0 < leapDays midsummer_event * DAY)) sample_world.
Proof.
  apply (stop_undone sample_env sample_other (fun _ => sample_time) sample_world 7 1 midsummer_event);
    first [exact sample_clock|exact sample_other_ok|exact sample_reached|split; vm_compute; first [discriminate|reflexivity]
      |vm_compute; first [discriminate|reflexivity]|apply (bool_decide_unpack _); vm_compute; exact I].
Defined.

(** ** What goes wrong *)

(** The command cuts the id to 16 bits for one test and not for the next. *)
Example start_65537 : (HandleEventStartCommand sample_env sample_other 7 65537 (sample_world, [])).1 = UB.
Proof. vm_compute. reflexivity. Qed.
(** The night starts at 22:00.  When the clock turns to it between the reading
    of the update and that of [NextCheck], the night does not start, and the
    next update is due a second after it is over (the Scourge Invasion and the
    war effort, whose updates are more frequent, are disabled). *)
Definition tick_env : GameEnv :=
  {| clock := fun n => if (n <=? 1)%nat then sample_time + 10 * HOUR - 1 else sample_time + 10 * HOUR; localtime := localtime sample_env;
     urand := urand sample_env; has_data := has_data sample_env; IsPartOfAPool := IsPartOfAPool sample_env;
     IsPartOfTopPool := IsPartOfTopPool sample_env; has_quest := has_quest sample_env; has_script := has_script sample_env;
     event_announce := true; content_phase := 5; has_equipment := has_equipment sample_env; has_creature := has_creature sample_env;
     has_spell := has_spell sample_env; has_mail := has_mail sample_env; GetOneCreatureByEntry := GetOneCreatureByEntry sample_env;
     creature_dead := creature_dead sample_env; resource_rate := true; resource_increase := resource_increase sample_env;
     autocomplete_period := 86400 |}.
Definition tick_db : GameEventDB :=
  mkGEDB (nights :: moonbrook :: ((fun id => mkER id 1592776800 1893456000 1440 720 0 "Off" 1 1 0) <$> [GAME_EVENT_SCOURGE_INVASION; EVENT_WAR_EFFORT])) [] [] [] [] [].
Example tick_missed :
  match (LoadFromDB tick_env tick_db ;;; Initialize tick_env (world_events tick_env sample_other (fun _ => sample_time))) (blank_world, []) with
  | (Ok d, (w, _)) => (d, IsActiveEvent 27 w, is_on (sample_time + 10 * HOUR) <$> mGameEvent w !! 27%nat) = (43201000, false, Some (Some true))
  | _ => False
  end.
Proof. vm_compute. reflexivity. Qed.
(** A disabled event that a script started is stopped when it is enabled. *)
Example enable_stops :
  match each (serve sample_env sample_other (fun _ => sample_time)) [CDisable 7 27; CScript 27 true false] (sample_world, []) with
  | (Ok _, (w, log)) =>
      (IsActiveEvent 27 w, match serve sample_env sample_other (fun _ => sample_time) (CEnable 7 27) (w, log) with
                           | (Ok _, (w', _)) => Some (IsActiveEvent 27 w') | _ => None end) = (true, Some false)
  | _ => False
  end.
Proof. vm_compute. reflexivity. Qed.
(** What belongs to the absence of an event that is code, or of a disabled one,
    does not appear at the first update: at noon Leprithus is absent. *)
Definition leprithus : EventRow := mkER 150 1592776800 1893456000 1440 720 0 "Leprithus" 1 0 0.
Example absence_missing :
  match (LoadFromDB sample_env (mkGEDB [leprithus; moonbrook; nights] [(2000, -150); (2001, -27)] [] [] [] [])
         ;;; Initialize sample_env (world_events sample_env sample_other (fun _ => sample_time))) (blank_world, []) with
  | (Ok _, (w, _)) => (IsActiveEvent 150 w, IsActiveEvent 27 w, elements (w_grid w)) = (false, false, [(KCreature, 2001)])
  | _ => False
  end.
Proof. vm_compute. reflexivity. Qed.
(** An event without a period ends the server at the first update. *)
Example no_period :
  ((LoadFromDB sample_env (mkGEDB [mkER 1 1592776800 1893456000 0 60 0 "Once" 0 0 0; moonbrook] [] [] [] [] [])
    ;;; Initialize sample_env (world_events sample_env sample_other (fun _ => sample_time))) (blank_world, [])).1 = UB.
Proof. vm_compute. reflexivity. Qed.
(** Started on the 22nd of June of a leap year, back on the 23rd in others. *)
Example midsummer_late : year_start 2020 + 173 = 1592794800 / DAY /\ is_on (1592794800 + 730 * DAY) midsummer_event = Some false
  /\ is_on (1592794800 + 731 * DAY) midsummer_event = Some true.
Proof. vm_compute. by split_and!. Qed.
