(* ===== verification/WarEffortProps.v ===== *)
(** * WarEffortProps: the war effort goes forward

    The stages of the war effort as a state machine over its saved variables:
    which events run in a stage, when it is left, and that it is never left
    backwards. *)

From stdpp Require Import gmap relations.
From S2P Require Import Prelude ByteBuffer ObjectGuid Packets Effects Multimap GameEvents WarEffort GameEventLoad WorldEvents.
From S2P Require Import GameEventInv GameEventKeep GameEventStart GameEventHistory GameEventProps.

Local Open Scope prog_scope.

Section war.
Context (env : GameEnv) (Other : WorldEvents) (GetGameTime : nat -> Z).
Context (Hclock : forall n, 0 < clock env n) (HOther : WorldEventsOk env Other).
Abbreviation Enable := (world_Enable Other).
Abbreviation Disable := (world_Disable env Other).

(** ** Events that are switched on and off *)

(** The events of [l] run or not; all else that matters here stays. *)
Record settled (on : bool) (l : list Z) (w w' : GEWorld) : Prop := {
  se_ok : calendar_ok env w'; se_war : war w' = war w; se_vars : m_SavedVariables w' = m_SavedVariables w;
  se_reads : (reads w <= reads w')%nat; se_valid : forall i, IsValidEvent i w' = IsValidEvent i w;
  se_in : forall i, i ∈ l -> IsValidEvent i w = true -> i ∈ m_ActiveEvents w' <-> on = true;
  se_out : forall i, i ∉ l -> i ∈ m_ActiveEvents w' <-> i ∈ m_ActiveEvents w }.
Lemma settled_refl on w : calendar_ok env w -> settled on [] w w.
Proof. intros. split; try done. by intros i ?%elem_of_nil. Qed.
Lemma settled_app on l1 l2 w1 w2 w3 : settled on l1 w1 w2 -> settled on l2 w2 w3 -> settled on (l1 ++ l2) w1 w3.
Proof.
  intros [A1 B1 C1 D1 E1 F1 G1] [A2 B2 C2 D2 E2 F2 G2]. split; try congruence; try lia.
  - intros i Hi Hv. destruct (decide (i ∈ l2)) as [H2|H2]; [apply F2; [done|congruence]|]. apply elem_of_app in Hi as [H1|H1]; [|done].
    rewrite G2 by done. by apply F1.
  - intros i Hi. rewrite not_elem_of_app in Hi. rewrite G2, G1; tauto.
Qed.

Lemma valid_put i id e e' w : mGameEvent w !! Z.to_nat id = Some e -> isValid e' = isValid e -> IsValidEvent i (put_event id e' w) = IsValidEvent i w.
Proof.
  intros He Hv. unfold IsValidEvent. cbn. rewrite length_insert. f_equal. destruct (decide (Z.to_nat i = Z.to_nat id)) as [->|].
  - rewrite list_lookup_insert_eq by (by eapply lookup_lt_Some). by rewrite He.
  - by rewrite list_lookup_insert_ne.
Qed.
(** An event whose code does nothing when it is enabled. *)
Lemma yields_StartEvent_plain (E : Z -> EM unit) id overwrite resume w : calendar_ok env w -> 0 <= id -> IsValidEvent id w = true ->
  E id = st_ret tt -> yields (StartEvent env E id overwrite resume) w tt (started env id overwrite w).
Proof.
  intros Hw Hid Hv HE. destruct (valid_pos env id w Hw Hid Hv) as [H1 H2]. destruct (valid_at id w Hv) as (_ & e & He & _).
  unfold StartEvent, started. apply yields_seen. rewrite Hv, He. cbn [negb].
  eapply yields_bind; [apply yields_ApplyNewEvent; try done; apply Hw|].
  eapply yields_event_at; [exact He|]. eapply yields_bind with (c1 := applied env id w).
  { destruct (_ && _); [|apply yields_ret]. apply yields_seen. rewrite HE. destruct (is_world_event _ _); apply yields_ret. }
  eapply yields_bind; [|apply yields_script].
  destruct overwrite; [|apply yields_ret]. eapply yields_bind; [apply yields_time|]. by apply (yields_event_mod _ _ e).
Qed.
Lemma StartEvent_settled (E : Z -> EM unit) id overwrite resume w : E id = st_ret tt -> calendar_ok env w -> 0 <= id ->
  returns (StartEvent env E id overwrite resume) (fun _ => settled true [id] w) w.
Proof.
  intros HE Hw Hid. destruct (IsValidEvent id w) eqn:Hv.
  - apply (wp_yields _ _ _ _ tt (started env id overwrite w)); [by apply yields_StartEvent_plain|].
    pose proof (calendar_started env id overwrite w Hw Hid Hv) as Hc. destruct (valid_at id w Hv) as (_ & e & He & _).
    unfold started in *. rewrite He in *. split; try (by destruct overwrite); try (destruct overwrite; cbn; lia).
    + intros i. destruct overwrite; [|done]. exact (valid_put i id e (respan _ e) w He eq_refl).
    + intros i ->%list_elem_of_singleton _. destruct overwrite; cbn; set_solver.
    + intros i Hi. rewrite list_elem_of_singleton in Hi. destruct overwrite; cbn; set_solver.
  - apply (wp_yields _ _ _ _ tt w); [by apply yields_StartEvent_invalid|]. split; try done. intros i ->%list_elem_of_singleton. congruence.
Qed.
Lemma StopEvent_settled id overwrite w : calendar_ok env w -> 0 <= id -> returns (StopEvent env id overwrite) (fun _ => settled false [id] w) w.
Proof.
  intros Hw Hid. destruct (IsValidEvent id w) eqn:Hv.
  - apply (wp_yields _ _ _ _ tt (stopped env id overwrite w)); [by apply yields_StopEvent|].
    pose proof (calendar_stopped env id overwrite w Hw Hid Hv) as Hc. destruct (valid_at id w Hv) as (_ & e & He & _).
    unfold stopped in *. rewrite He in *. split; try (by destruct overwrite); try (destruct overwrite; cbn; lia).
    + intros i. destruct overwrite; [|done]. exact (valid_put i id e (respan _ e) w He eq_refl).
    + intros i ->%list_elem_of_singleton _. destruct overwrite; cbn; set_solver.
    + intros i Hi. rewrite list_elem_of_singleton in Hi. destruct overwrite; cbn; set_solver.
  - apply (wp_yields _ _ _ _ tt w); [by apply yields_StopEvent_invalid|]. split; try done. intros i ->%list_elem_of_singleton. congruence.
Qed.
(** Setting the flag of an event that does not run. *)
Lemma EnableEvent_settled (E D : Z -> EM unit) id enable updateDB on w : calendar_ok env w -> id ∉ m_ActiveEvents w ->
  returns (EnableEvent env E D id enable updateDB) (fun _ => settled on [] w) w.
Proof.
  intros Hw Hn. apply EnableEvent_flag; [by intros; apply settled_refl..|]. intros e w1 He Hv ->. split; [intros _|by intros ?].
  pose proof (calendar_flagged env id (if enable then 0 else 1) updateDB e w Hw He) as Hc.
  split; try done; try (by unfold flagged; destruct updateDB); [|by intros i ?%elem_of_nil].
  intros i. unfold flagged. destruct updateDB; exact (valid_put i id e (set_disabled _ e) w He eq_refl).
Qed.
Lemma each_settled on (f : Z -> EM unit) l w : calendar_ok env w ->
  (forall x w', x ∈ l -> calendar_ok env w' -> returns (f x) (fun _ => settled on [x] w') w') -> returns (each f l) (fun _ => settled on l w) w.
Proof.
  revert w. induction l as [|x l IH]; intros w Hw Hf; cbn [each]; [by apply wp_ret, settled_refl|]. apply wp_bind.
  eapply wp_conseq; [apply Hf; [by left|done]|]. intros [] w1 H1. eapply wp_conseq; [apply IH; [apply H1|]|].
  - intros y w' Hy. apply Hf. by right.
  - intros [] w2 H2. by apply (settled_app on [x] l w w1 w2).
Qed.
Lemma settled_one on i w : calendar_ok env w -> (i ∈ m_ActiveEvents w <-> on = true) -> settled on [i] w w.
Proof. intros Hw Hi. split; try done. by intros j ->%list_elem_of_singleton. Qed.

(** ** The events of a stage *)

Lemma on_settled id w : id ∈ coded_ids -> calendar_ok env w -> returns (EnableAndStartEvent env Enable Disable id) (fun _ => settled true [id] w) w.
Proof.
  intros Hid Hw. pose proof (coded_pos id Hid) as Hp. assert (HE : Enable id = st_ret tt).
  { unfold world_Enable. destruct (Z.eqb_spec id GAME_EVENT_SCOURGE_INVASION) as [->|]; [|done].
    exfalso. revert Hid. apply (bool_decide_unpack _). vm_compute. exact I. }
  unfold EnableAndStartEvent. apply wp_get. unfold IsActiveEvent at 1. case_bool_decide as Ha; [by apply wp_ret, settled_one|]. apply wp_get.
  apply wp_bind. eapply wp_conseq with (Q := fun _ => settled true [] w).
  { destruct (IsEnabled id w); [by apply wp_ret, settled_refl|by apply EnableEvent_settled]. }
  intros [] w1 H1. eapply wp_conseq; [apply StartEvent_settled; [done|apply H1|done]|]. intros [] w2 H2. by apply (settled_app true [] [id] w w1 w2).
Qed.
Lemma off_settled id w : 0 <= id -> calendar_ok env w -> returns (DisableAndStopEvent env Enable Disable id) (fun _ => settled false [id] w) w.
Proof.
  intros Hid Hw. unfold DisableAndStopEvent. apply wp_bind. eapply wp_conseq with (Q := fun _ => settled false [id] w).
  { apply wp_get. unfold IsActiveEvent. case_bool_decide as Ha; [by apply StopEvent_settled|]. apply wp_ret, settled_one; [done|]. by split. }
  intros [] w1 H1. apply wp_get. destruct (IsEnabled id w1) eqn:He; [|by apply wp_ret]. unfold IsEnabled in He. apply andb_true_iff in He as [Hv _].
  eapply wp_conseq; [apply EnableEvent_settled; [apply H1|]|].
  - rewrite (se_valid _ _ _ _ H1) in Hv. intros Hin. apply (se_in _ _ _ _ H1) in Hin; [done|by left|done].
  - intros [] w2 H2. by apply (settled_app false [id] [] w w1 w2).
Qed.
Lemma elem_of_settle_iff required active x : NoDup required ->
  (x ∈ (settle required active).1 <-> x ∈ required /\ x ∉ active) /\ (x ∈ (settle required active).2 <-> x ∈ active /\ x ∉ required).
Proof.
  intros Hnd. revert active. induction Hnd as [|r l Hr Hnd IH]; intros active; cbn [settle]; [cbn; set_unfold; naive_solver|]. case_bool_decide.
  - destruct (IH (list_difference active [r])) as [H1 H2]. rewrite H1, H2, !list_elem_of_difference, !elem_of_cons, !elem_of_nil.
    destruct (decide (x = r)) as [->|]; naive_solver.
  - destruct (IH active) as [H1 H2]. destruct (settle l active) as [a b]. cbn in *. rewrite !elem_of_cons, H1, H2.
    destruct (decide (x = r)) as [->|]; naive_solver.
Qed.
Definition events_of_stage (s : Z) : list Z := default [] (warEffortStageEvents !! Z.to_nat s).
(** Exactly the events of the stage run. *)
Record in_stage_of (s : Z) (w w' : GEWorld) : Prop := {
  io_ok : calendar_ok env w'; io_war : war w' = war w; io_vars : m_SavedVariables w' = m_SavedVariables w;
  io_reads : (reads w <= reads w')%nat;
  io_on : forall i, i ∈ stage_events -> IsValidEvent i w = true -> i ∈ m_ActiveEvents w' <-> i ∈ events_of_stage s;
  io_else : forall i, i ∉ stage_events -> i ∈ m_ActiveEvents w' <-> i ∈ m_ActiveEvents w }.
Lemma UpdateStageEvents_wp w : calendar_ok env w -> returns (UpdateStageEvents env Enable Disable) (fun _ => in_stage_of (stage (war w)) w) w.
Proof.
  intros Hw. apply wp_get. cbv beta. change (id w) with w. destruct (GameEventHistory.stage_row env w Hw) as [l Hl]. rewrite Hl. apply wp_bind, wp_ret.
  assert (Hrow : events_of_stage (stage (war w)) = l) by (unfold events_of_stage; by rewrite Hl).
  assert (Hnd : NoDup l).
  { assert (Forall NoDup warEffortStageEvents) as H by (apply (bool_decide_unpack _); vm_compute; exact I). by eapply Forall_lookup_1 in H. }
  set (active := filter _ _). pose proof (fun x => elem_of_settle_iff l active x Hnd) as Hs. destruct (settle l active) as [start stop]. cbn [fst snd] in Hs.
  assert (Ha : forall x, x ∈ active <-> x ∈ stage_events /\ x ∈ m_ActiveEvents w).
  { intros x. unfold active, IsActiveEvent. rewrite list_elem_of_filter, bool_decide_eq_true. tauto. }
  pose proof (stage_events_coded _ _ Hl) as Hsub. apply wp_bind. eapply wp_conseq.
  { apply each_settled; [exact Hw|]. intros x w' Hx Hw'. apply off_settled; [|done]. apply coded_pos, stage_coded. apply Hs in Hx as [Hx _]. by apply Ha. }
  intros [] w1 S1. eapply wp_conseq.
  { apply each_settled with (on := true); [apply S1|]. intros x w' Hx Hw'. apply wp_get. unfold IsActiveEvent. case_bool_decide.
    - by apply wp_ret, settled_one.
    - apply on_settled; [|done]. apply stage_coded, Hsub. by apply Hs in Hx as [? _]. }
  intros [] w2 S2. destruct S1 as [A1 B1 C1 D1 E1 F1 G1], S2 as [A2 B2 C2 D2 E2 F2 G2]. split; try congruence; try lia.
  - intros i Hi Hv. rewrite Hrow. destruct (decide (i ∈ start)) as [H2|H2].
    + rewrite F2 by (done || congruence). apply Hs in H2 as [? _]. tauto.
    + rewrite G2 by done. destruct (decide (i ∈ stop)) as [H1|H1].
      * rewrite F1 by done. apply Hs in H1 as [_ ?]. split; [done|tauto].
      * rewrite G1 by done. destruct (Hs i) as [I1 I2]. rewrite I1, Ha in H2. rewrite I2, Ha in H1.
        destruct (decide (i ∈ l)), (decide (i ∈ m_ActiveEvents w)); tauto.
  - intros i Hi. assert (i ∉ start /\ i ∉ stop) as [H1 H2].
    { destruct (Hs i) as [-> ->]. rewrite Ha. split; [|tauto]. intros [? _]. by apply Hi, Hsub. }
    by rewrite G2, G1.
Qed.
(** ** Leaving a stage *)

(** When the stage is left, at the time [now], by the members at the start of
    the update and the resources at its end. *)
Definition due (s now last gong : Z) (w' : GEWorld) : Prop :=
  if s =? WAR_EFFORT_STAGE_COLLECTION then objectiveGoal <= completedObjectives w'
  else if s =? WAR_EFFORT_STAGE_READY then WAR_EFFORT_COLLECTION_TRANSITION_TIME < u32 (now - last)
  else if s <=? WAR_EFFORT_STAGE_MOVE_5 then WAR_EFFORT_MOVE_TRANSITION_TIME < u32 (now - last)
  else if s =? WAR_EFFORT_STAGE_GONG_WAIT then gong <> 0
  else if s =? WAR_EFFORT_STAGE_GONG_RUNG then True
  else if s =? WAR_EFFORT_STAGE_BATTLE then WAR_EFFORT_CH_ATTACK_TIME < u32 (now - last)
  else if s =? WAR_EFFORT_STAGE_CH_ATTACK then WAR_EFFORT_FINAL_BATTLE_TIME < u32 (now - last)
  else WAR_EFFORT_GONG_DURATION < u32 (now - gong).

(** All variables but those of the stages stay. *)
Definition stage_variables : list Z := [VAR_WE_STAGE; VAR_WE_STAGE_TRANSITION_TIME].
Definition vars_kept (w w' : GEWorld) : Prop := forall i, i ∉ stage_variables -> m_SavedVariables w' !! i = m_SavedVariables w !! i.
Lemma completed_kept item team w w' : vars_kept w w' -> completed item team w' = completed item team w.
Proof.
  intros Hk. assert (Hg : forall i, i ∉ stage_variables -> GetSavedVariable i 0 w' = GetSavedVariable i 0 w).
  { intros i Hi. unfold GetSavedVariable. by rewrite Hk. }
  unfold completed, GetWarEffortStockInfo. destruct (List.find _ SharedObjectives) as [o|].
  { unfold GetTeamStock. rewrite Hg; [done|]. unfold GetSharedSavedVar. repeat case_match; apply (bool_decide_unpack _); vm_compute; exact I. }
  destruct (List.find _ (zip _ _)) as [[a h]|] eqn:Hf; [|done]. apply List.find_some in Hf as [Hin _]. apply list_elem_of_In in Hin.
  assert (Forall (fun o : (Z * Z) * (Z * Z) => o.1.1 ∉ stage_variables /\ o.2.1 ∉ stage_variables) (zip AllianceObjectives HordeObjectives)) as H
    by (apply (bool_decide_unpack _); vm_compute; exact I).
  rewrite Forall_forall in H. destruct (H _ Hin) as [H1 H2]. rewrite Hg; [done|]. destruct (_ =? _); [exact H1|exact H2].
Qed.
Lemma completedObjectives_kept w w' : vars_kept w w' -> completedObjectives w' = completedObjectives w.
Proof.
  intros Hk. unfold completedObjectives. f_equal; f_equal; apply list_fmap_ext; intros; by rewrite !(completed_kept _ _ w w' Hk).
Qed.
Lemma SetSavedVariable_raw i v b w : returns (SetSavedVariable i v b) (fun _ w' =>
  war w' = war w /\ reads w' = reads w /\ m_SavedVariables w' !! i = Some v /\ forall j, j <> i -> m_SavedVariables w' !! j = m_SavedVariables w !! j) w.
Proof.
  apply wp_get. case_bool_decide as Hv; [by apply wp_ret|]. apply wp_mod. cbn. split_and!; try done.
  - by rewrite lookup_insert_eq.
  - intros j Hj. by rewrite lookup_insert_ne.
Qed.
Lemma enter_stage_wp s w (Q : unit -> GEWorld -> Prop) : a_stage s -> calendar_ok env w ->
  (forall w', calendar_ok env w' -> (reads w <= reads w')%nat -> stage (war w') = s -> vars_kept w w' -> Q tt w') -> returns (enter_stage env s) Q w.
Proof.
  intros Hs Hw HQ. eapply wp_conseq.
  { apply wp_and; [by apply (keeps_enter env s Hs w)|]. instantiate (1 := fun _ w' => (reads w <= reads w')%nat /\ stage (war w') = s /\ vars_kept w w').
    unfold enter_stage, put_stage, UpdateStageTransitionTime. apply wp_bind, wp_mod. apply wp_bind. eapply wp_yields; [apply yields_time|].
    apply wp_bind, wp_mod. eapply wp_conseq; [apply SetSavedVariable_raw|]. intros [] w' (H1 & H2 & _ & H4). rewrite H1, H2. split_and!; [cbn; lia|done|].
    intros i Hi. rewrite H4; [done|]. intros ->. apply Hi. by right; left. }
  intros [] w' [[H1 _] (H2 & H3 & H4)]. by apply HQ.
Qed.

Lemma calendar_war x w : calendar_ok env w -> a_stage (stage x) -> calendar_ok env (set_war x w).
Proof.
  intros Hw Hx. pose proof (co_war env w Hw) as [W1 W2]. eapply calendar_same; [exact Hw|try done..|intros j e' He; by exists e'].
Qed.
(** Code that leaves the members of the war effort and the clock alone. *)
Definition peaceful (m : EM unit) : Prop := forall w, returns m (fun _ w' => war w' = war w /\ reads w' = reads w) w.
Lemma peaceful_bind (m k : EM unit) : peaceful m -> peaceful k -> peaceful (m ;;; k).
Proof.
  intros Hm Hk w. apply wp_bind. eapply wp_conseq; [apply Hm|]. intros [] w1 [H1 H2]. eapply wp_conseq; [apply Hk|]. intros [] w2 [H3 H4].
  split; congruence.
Qed.
Lemma peaceful_each {A} (f : A -> EM unit) l : (forall x, peaceful (f x)) -> peaceful (each f l).
Proof. intros Hf. induction l as [|x l IH]; cbn [each]; [intros w; by apply wp_ret|]. by apply peaceful_bind. Qed.
Lemma peaceful_resource required i : peaceful (AutoCompleteWarEffortResource env required i).
Proof.
  intros w. apply wp_get. destruct (_ <=? _); [by apply wp_ret|]. eapply wp_conseq; [apply SetSavedVariable_raw|]. by intros [] w' (? & ? & _).
Qed.
Lemma peaceful_resources : peaceful (AutoCompleteWarEffortProgress env).
Proof.
  unfold AutoCompleteWarEffortProgress. destruct (negb _); [intros w; by apply wp_ret|].
  apply peaceful_bind; apply peaceful_each; intros o; apply peaceful_bind; apply peaceful_resource.
Qed.

(** One step of the machine. *)
Definition stage_step (now : Z) (w w' : GEWorld) : Prop :=
  calendar_ok env w' /\ (reads w <= reads w')%nat /\
  let s := stage (war w) in let d := due s now (lastStageTransitionTime (war w)) (gongRingTime (war w)) w' in
  (stage (war w') = s /\ ~ d \/ stage (war w') = s + 1 /\ d).
Lemma collection_wp now w : calendar_ok env w -> stage (war w) = WAR_EFFORT_STAGE_COLLECTION ->
  returns (UpdateWarEffortCollection env now) (fun _ => stage_step now w) w.
Proof.
  intros Hw Hs. unfold stage_step. rewrite Hs. unfold due. cbn [Z.eqb WAR_EFFORT_STAGE_COLLECTION]. apply wp_get. apply wp_bind.
  eapply wp_conseq with (Q := fun _ w1 => calendar_ok env w1 /\ (reads w <= reads w1)%nat /\ stage (war w1) = 0).
  { destruct (_ >? _); [|by apply wp_ret]. apply wp_bind.
    eapply wp_conseq; [apply wp_and; [by apply keeps_resources|apply peaceful_resources]|].
    intros [] w1 [[H1 _] [H2 H3]]. apply wp_bind, wp_mod. set (w2 := set_war _ w1).
    assert (H4 : calendar_ok env w2) by (eapply calendar_war; [exact H1|]; cbn; rewrite H2, Hs; by split).
    eapply wp_conseq; [apply wp_and; [apply keeps_SetSavedVariable; [by left|exact H4]|apply SetSavedVariable_raw]|].
    intros [] w3 [[H5 _] (H6 & H7 & _)]. rewrite H6, H7. split_and!; [done|unfold w2; cbn; lia|]. unfold w2. cbn. by rewrite H2, Hs. }
  intros [] w1 (H1 & H2 & H3). apply wp_get. destruct (Z.leb_spec objectiveGoal (completedObjectives w1)).
  - apply enter_stage_wp; [by split|done|]. intros w2 K1 K2 K3 K4. rewrite (completedObjectives_kept w1 w2 K4), K3. split_and!; [done|lia|]. by right.
  - apply wp_ret. split_and!; [done..|]. left. split; [done|lia].
Qed.
Lemma stage_step_from now w w1 w2 : war w1 = war w -> (reads w <= reads w1)%nat -> stage_step now w1 w2 -> stage_step now w w2.
Proof. intros Hw Hr (H1 & H2 & H3). unfold stage_step. rewrite Hw in H3. split_and!; [done|lia|done]. Qed.
Lemma timed_wp now w s (b : bool) : stage (war w) = s -> a_stage (s + 1) -> calendar_ok env w ->
  (forall w', due s now (lastStageTransitionTime (war w)) (gongRingTime (war w)) w' <-> b = true) ->
  returns (if b then enter_stage env (s + 1) else st_ret tt) (fun _ => stage_step now w) w.
Proof.
  intros Hs Ha Hw Hb. unfold stage_step. rewrite Hs. destruct b.
  - apply enter_stage_wp; [done..|]. intros w' K1 K2 K3 _. split_and!; [done..|]. right. split; [done|]. by apply Hb.
  - apply wp_ret. split_and!; [done..|]. left. split; [done|]. rewrite Hb. done.
Qed.
(** Comparisons of known stages. *)
Ltac stages := repeat match goal with
  | |- context [?a =? ?b] => let x := eval vm_compute in (a =? b) in
      match x with true => change (a =? b) with true | false => change (a =? b) with false end
  | |- context [?a <=? ?b] => let x := eval vm_compute in (a <=? b) in
      match x with true => change (a <=? b) with true | false => change (a <=? b) with false end
  end; cbv beta iota.
Ltac timed s := apply (timed_wp _ _ s); [done|split; by vm_compute|done|]; intros ?; unfold due, in_stage; stages; rewrite ?Z.gtb_ltb, ?Z.ltb_lt; try done.
Lemma rung_wp now w : calendar_ok env w -> stage (war w) = WAR_EFFORT_STAGE_GONG_RUNG ->
  returns (WarEffort_stage env Enable Disable now) (fun _ => stage_step now w) w.
Proof.
  intros Hw Hs. unfold WarEffort_stage. apply wp_get. cbv beta zeta. change (id w) with w. rewrite Hs. stages. cbn [andb].
  apply wp_bind. eapply wp_conseq with (Q := fun _ w1 => calendar_ok env w1 /\ (reads w <= reads w1)%nat).
  { assert (Hk : keeps env (if truth (gongRingTime (war w)) then st_ret tt
      else put_war (fun x => mkWar (stage x) (lastStageTransitionTime x) now (lastAutoCompleteTime x)) ;;; SetSavedVariable VAR_WE_GONG_TIME now true)).
    { apply keeps_if; [apply keeps_ret|]. apply keeps_bind; [by apply keeps_war|intros _]. apply keeps_SetSavedVariable. by left. }
    eapply wp_conseq; [by apply Hk|]. intros [] w1 [H1 H2]. split; [done|apply H2]. }
  intros [] w1 [H1 R1]. apply wp_bind. eapply wp_conseq; [by apply off_settled|]. intros [] w2 H2. apply wp_bind.
  apply enter_stage_wp; [by split|apply H2|]. intros w3 H3 R3 S3 _. apply wp_bind. eapply wp_yields; [apply yields_tell|].
  eapply wp_conseq; [by apply UpdateStageEvents_wp|]. intros [] w4 H4. unfold stage_step. rewrite Hs, (io_war _ _ _ H4), S3.
  pose proof (se_reads _ _ _ _ H2). pose proof (io_reads _ _ _ H4). split_and!; [apply H4|lia|]. right. split; [done|]. unfold due. by stages.
Qed.
Lemma WarEffort_stage_wp now w : calendar_ok env w -> stage (war w) <> WAR_EFFORT_STAGE_COMPLETE ->
  returns (WarEffort_stage env Enable Disable now) (fun _ => stage_step now w) w.
Proof.
  intros Hw Hn. destruct (decide (stage (war w) = WAR_EFFORT_STAGE_GONG_RUNG)) as [Hr|Hr]; [by apply rung_wp|].
  pose proof (proj2 (co_war env w Hw)) as Hs. unfold a_stage, WAR_EFFORT_STAGE_COMPLETE, WAR_EFFORT_STAGE_GONG_RUNG in *.
  unfold WarEffort_stage. apply wp_get. cbv beta zeta. change (id w) with w.
  destruct (Z.eqb_spec (stage (war w)) WAR_EFFORT_STAGE_COLLECTION) as [H0|H0]; [by apply collection_wp|].
  destruct (Z.eqb_spec (stage (war w)) WAR_EFFORT_STAGE_READY) as [H1|H1]; [timed WAR_EFFORT_STAGE_READY|].
  destruct ((WAR_EFFORT_STAGE_MOVE_1 <=? _) && _) eqn:Hm.
  { apply andb_true_iff in Hm as [M1%Z.leb_le M2%Z.leb_le]. unfold WAR_EFFORT_STAGE_MOVE_1 in M1.
    assert (Ht : returns (if in_stage now w >? WAR_EFFORT_MOVE_TRANSITION_TIME then enter_stage env (stage (war w) + 1) else st_ret tt) (fun _ => stage_step now w) w).
    { apply timed_wp; [done|unfold a_stage, WAR_EFFORT_STAGE_COMPLETE, WAR_EFFORT_STAGE_MOVE_5 in *; lia|done|]. intros w'. unfold due, in_stage.
      destruct (Z.eqb_spec (stage (war w)) WAR_EFFORT_STAGE_COLLECTION); [done|]. destruct (Z.eqb_spec (stage (war w)) WAR_EFFORT_STAGE_READY); [done|].
      rewrite (proj2 (Z.leb_le _ _) M2). by rewrite Z.gtb_ltb, Z.ltb_lt. }
    destruct (in_stage now w >? _); [apply wp_get|]; exact Ht. }
  assert (HM : 7 <= stage (war w)).
  { apply andb_false_iff in Hm as [M%Z.leb_gt|M%Z.leb_gt]; unfold WAR_EFFORT_STAGE_MOVE_1, WAR_EFFORT_STAGE_MOVE_5, WAR_EFFORT_STAGE_COLLECTION, WAR_EFFORT_STAGE_READY in *; lia. }
  destruct (Z.eqb_spec (stage (war w)) WAR_EFFORT_STAGE_GONG_WAIT) as [H2|H2].
  { timed WAR_EFFORT_STAGE_GONG_WAIT. unfold truth. rewrite negb_true_iff, Z.eqb_neq. done. }
  destruct (Z.eqb_spec (stage (war w)) WAR_EFFORT_STAGE_GONG_RUNG) as [H3|H3]; [done|].
  destruct (Z.eqb_spec (stage (war w)) WAR_EFFORT_STAGE_BATTLE) as [H4|H4].
  { apply wp_bind. eapply wp_conseq; [by apply UpdateStageEvents_wp|]. intros [] w1 K. apply wp_get. cbv beta. change (id w1) with w1.
    pose proof (io_ok _ _ _ K) as K1. pose proof (io_war _ _ _ K) as K2. assert (H4' : stage (war w1) = WAR_EFFORT_STAGE_BATTLE) by congruence.
    eapply wp_conseq with (Q := fun _ => stage_step now w1); [timed WAR_EFFORT_STAGE_BATTLE|].
    intros [] w2 K3. apply (stage_step_from now w w1 w2); [done|apply K|done]. }
  destruct (Z.eqb_spec (stage (war w)) WAR_EFFORT_STAGE_CH_ATTACK) as [H5|H5]; [timed WAR_EFFORT_STAGE_CH_ATTACK|].
  assert (H6 : stage (war w) = WAR_EFFORT_STAGE_FINALBATTLE).
  { unfold WAR_EFFORT_STAGE_GONG_WAIT, WAR_EFFORT_STAGE_GONG_RUNG, WAR_EFFORT_STAGE_BATTLE, WAR_EFFORT_STAGE_CH_ATTACK, WAR_EFFORT_STAGE_FINALBATTLE in *. lia. }
  rewrite H6. stages. unfold stage_step. rewrite H6. unfold due. stages.
  destruct (Z.gtb_spec (u32 (now - gongRingTime (war w))) WAR_EFFORT_GONG_DURATION).
  - apply wp_bind. eapply wp_yields; [apply yields_tell|]. apply wp_bind. apply enter_stage_wp; [by split|done|]. intros w1 K1 K2 K3 _.
    eapply wp_conseq; [by apply UpdateStageEvents_wp|]. intros [] w2 K4. rewrite (io_war _ _ _ K4), K3. pose proof (io_reads _ _ _ K4).
    split_and!; [apply K4|lia|]. by right.
  - apply wp_ret. split_and!; [done..|]. left. split; [done|lia].
Qed.
(** What runs before the stage is looked at: the war effort itself and the
    colossi. *)
Lemma running_wp {B} w (k : EM B) Q : calendar_ok env w ->
  (forall w', calendar_ok env w' -> war w' = war w -> m_SavedVariables w' = m_SavedVariables w -> (reads w <= reads w')%nat -> returns k Q w') ->
  returns (let! active := seen (IsActiveEvent EVENT_WAR_EFFORT) in
      (if active : bool then st_ret tt else StartEvent env Enable EVENT_WAR_EFFORT false false) ;;; UpdateHiveColossusEvents env Enable ;;; k) Q w.
Proof.
  intros Hw Hk. apply wp_get, wp_bind. eapply wp_conseq with (Q := fun _ => settled true [EVENT_WAR_EFFORT] w).
  { unfold IsActiveEvent. case_bool_decide; [by apply wp_ret, settled_one|by apply StartEvent_settled]. }
  intros [] w1 H1. apply wp_bind, wp_get. eapply wp_conseq.
  { apply (each_settled true); [apply H1|]. intros x w' Hx Hw'. apply wp_get. unfold IsActiveEvent. case_bool_decide; [by apply wp_ret, settled_one|].
    rewrite !elem_of_app in Hx. apply StartEvent_settled; [|done|];
      destruct Hx as [Hx|[Hx|Hx]]; case_match; try (by apply elem_of_nil in Hx); apply list_elem_of_singleton in Hx as ->; done. }
  intros [] w2 H2. destruct H1 as [A1 B1 C1 D1 _ _ _], H2 as [A2 B2 C2 D2 _ _ _]. apply Hk; [done|congruence|congruence|lia].
Qed.
(** The end: nothing is left but the events after the war. *)
Lemma CompleteWarEffort_wp w : calendar_ok env w -> returns (CompleteWarEffort env Enable Disable)
  (fun _ w' => calendar_ok env w' /\ GetSavedVariable VAR_WE_STAGE 0 w' = WAR_EFFORT_STAGE_COMPLETE) w.
Proof.
  intros Hw. apply wp_bind. eapply wp_conseq.
  { apply (each_settled false); [done|]. intros x w' Hx Hw'. apply off_settled; [|done].
    rewrite !elem_of_cons, elem_of_nil in Hx. decompose [or] Hx; by subst. }
  intros [] w1 H1. apply wp_bind, wp_mod. set (w2 := set_war _ w1). assert (H2 : calendar_ok env w2) by (apply calendar_war; [apply H1|by split]).
  eapply wp_conseq; [apply wp_and; [apply keeps_SetSavedVariable; [right; by split|exact H2]|apply SetSavedVariable_raw]|].
  intros [] w3 [[H3 _] (_ & _ & H4 & _)]. split; [done|]. unfold GetSavedVariable. by rewrite H4.
Qed.
(** What an update makes of the stage. *)
Definition war_step (w w' : GEWorld) : Prop :=
  let s := GetSavedVariable VAR_WE_STAGE 0 w in
  let s' := GetSavedVariable VAR_WE_STAGE 0 w' in
  if s =? WAR_EFFORT_STAGE_COMPLETE then s' = s
  else exists n, (reads w <= n < reads w')%nat /\
    let d := due s (u32 (clock env n)) (GetSavedVariable VAR_WE_STAGE_TRANSITION_TIME 0 w) (GetSavedVariable VAR_WE_GONG_TIME 0 w) w' in
    (s' = s /\ ~ d \/ s' = s + 1 /\ d).
Lemma WarEffort_Update_wp w : calendar_ok env w -> returns (WarEffort_Update env Enable Disable) (fun _ w' => calendar_ok env w' /\ war_step w w') w.
Proof.
  intros Hw. unfold war_step. set (s := GetSavedVariable VAR_WE_STAGE 0 w). apply wp_bind, wp_get, wp_mod. change (id w) with w.
  set (w1 := set_war _ w). assert (H1 : calendar_ok env w1) by (apply calendar_war; [done|apply (co_war env w Hw)]).
  apply wp_bind. eapply wp_conseq; [by apply UpdateStageEvents_wp|]. intros [] w2 K2. apply wp_get.
  assert (Hs2 : stage (war w2) = s) by (by rewrite (io_war _ _ _ K2)). rewrite Hs2. pose proof (io_ok _ _ _ K2) as H2. pose proof (io_reads _ _ _ K2) as R2.
  destruct (Z.eqb_spec s WAR_EFFORT_STAGE_COMPLETE) as [->|Hn].
  { apply wp_bind. eapply wp_conseq with (Q := fun _ => settled false [EVENT_WAR_EFFORT] w2).
    - apply wp_get. unfold IsActiveEvent. case_bool_decide; [by apply StopEvent_settled|]. apply wp_ret, settled_one; [done|by split].
    - intros [] w3 H3. apply CompleteWarEffort_wp, H3. }
  apply running_wp; [done|]. intros w3 H3 V3 M3 R3. apply wp_bind. eapply wp_yields; [apply yields_time|].
  set (now := clock env (reads w3)). assert (H4 : calendar_ok env (ticked w3)) by by apply calendar_reads.
  assert (HV : war (ticked w3) = war w1) by (cbn; rewrite V3; apply K2). apply wp_bind. eapply wp_conseq; [apply WarEffort_stage_wp; [done|]|].
  { rewrite HV. exact Hn. }
  intros [] w5 (H5 & R5 & D5). rewrite HV in D5. change (stage (war w1)) with s in D5. cbn in R5. apply wp_get.
  eapply wp_conseq; [apply wp_and; [apply keeps_SetSavedVariable; [right; apply (co_war env w5 H5)|exact H5]|apply SetSavedVariable_raw]|].
  intros [] w6 [[H6 _] (_ & R6 & M6 & O6)]. split; [done|]. exists (reads w3). split; [cbn in *; lia|]. fold now.
  assert (Hs' : GetSavedVariable VAR_WE_STAGE 0 w6 = stage (war w5)) by (unfold GetSavedVariable; by rewrite M6). rewrite Hs'.
  assert (HC : completedObjectives w6 = completedObjectives w5).
  { apply completedObjectives_kept. intros i Hi. apply O6. intros ->. apply Hi. by left. }
  unfold due in *. by rewrite HC.
Qed.
End war.

(** ** Theorems *)

(** C20. The events of a stage: whatever ran before, in every world the manager
    can reach, [UpdateStageEvents] returns and leaves exactly those events of
    the war effort running that the stage has, disabled ones included, and
    touches no other event. *)
Theorem war_effort_events env Other GetGameTime w :
  (forall n, 0 < clock env n) -> WorldEventsOk env Other -> calendar_reached env Other GetGameTime w ->
  returns (UpdateStageEvents env (world_Enable Other) (world_Disable env Other)) (fun _ w' => forall i,
    (i ∈ stage_events -> IsValidEvent i w = true -> i ∈ m_ActiveEvents w' <-> i ∈ events_of_stage (stage (war w))) /\
    (i ∉ stage_events -> i ∈ m_ActiveEvents w' <-> i ∈ m_ActiveEvents w)) w.
Proof.
  intros Hc HO Hr. pose proof (reached_ok env Other GetGameTime Hc HO w Hr) as Hw. eapply wp_conseq; [by apply UpdateStageEvents_wp|]. intros [] w' [_ _ _ _ H1 H2] i.
  split; [apply H1|apply H2].
Qed.

(** C19. In every world that the manager reaches by requests in order
    ([request_ok]: commands, scripts and [.variable] set the variable of the
    stage only to one of the 13 stages; [stage_13] shows an update that is
    undefined after another number) an update of the war effort returns; the
    stage stays or advances by one, never back, and advances exactly when it is
    due: when the resources are complete, its time has passed, the gong has
    been rung; the last stage stays. *)
Theorem war_effort_advances env Other GetGameTime w :
  (forall n, 0 < clock env n) -> WorldEventsOk env Other -> calendar_reached env Other GetGameTime w ->
  returns (world_Update env Other GetGameTime EVENT_WAR_EFFORT) (fun _ w' => war_step env w w') w.
Proof.
  intros Hc HO Hr. pose proof (reached_ok env Other GetGameTime Hc HO w Hr) as Hw. eapply wp_conseq; [by apply WarEffort_Update_wp|]. by intros [] w' [].
Qed.

(** ** A war *)

Definition war_row (id : Z) : EventRow := mkER id 1592776800 1893456000 1440 720 0 "War" 1 (if id =? 22 then 1 else 0) 0.
Definition war_db : GameEventDB := mkGEDB (moonbrook :: (war_row <$> [22; 52; 53; 54; 83; 84; 85; 86])) [] [] [] [] [].
Definition war_start := LoadFromDB sample_env war_db ;;; Initialize sample_env (world_events sample_env sample_other (fun _ => sample_time)).
Definition war_world : GEWorld := match war_start (blank_world, []) with (Ok _, (w, _)) => w | _ => blank_world end.
Lemma war_db_ok : db_ok war_db blank_world.
Proof.
  split; [done| | |set_solver..].
  - repeat (apply Forall_cons; split); [split; [done|done|by vm_compute|done]..|done].
  - apply (bool_decide_unpack _). vm_compute. exact I.
Qed.
Lemma war_reached : calendar_reached sample_env sample_other (fun _ => sample_time) war_world.
Proof. eapply (reached_start _ _ _ war_db blank_world _ war_world [] _); [done|apply war_db_ok|]. vm_compute. reflexivity. Qed.

(** At the first update the collection starts, though its event was disabled. *)
Example war_begins : (GetSavedVariable VAR_WE_STAGE 0 war_world, elements (m_ActiveEvents war_world)) = (0, [151; 83; 22; 84; 52]).
Proof. vm_compute. reflexivity. Qed.
(** The first update has added a tenth of what is required. *)
Example war_resources : (GetSavedVariable 3575 0 war_world, objectiveGoal) = (1400, 30).
Proof. vm_compute. reflexivity. Qed.
(** The command takes any number for a stage. *)
Example stage_13 : (HandleWarEffortSetStageCommand sample_env sample_other (fun _ => sample_time) 13 (war_world, [])).1 = UB.
Proof. vm_compute. reflexivity. Qed.

Lemma war_effort_events_witness :
  returns (UpdateStageEvents sample_env (world_Enable sample_other) (world_Disable sample_env sample_other)) (fun _ w' => forall i,
    (i ∈ stage_events -> IsValidEvent i war_world = true -> i ∈ m_ActiveEvents w' <-> i ∈ events_of_stage (stage (war war_world))) /\
    (i ∉ stage_events -> i ∈ m_ActiveEvents w' <-> i ∈ m_ActiveEvents war_world)) war_world.
Proof. exact (war_effort_events sample_env sample_other (fun _ => sample_time) war_world sample_clock sample_other_ok war_reached). Defined.
Lemma war_effort_advances_witness :
  returns (world_Update sample_env sample_other (fun _ => sample_time) EVENT_WAR_EFFORT) (fun _ w' => war_step sample_env war_world w') war_world.
Proof. exact (war_effort_advances sample_env sample_other (fun _ => sample_time) war_world sample_clock sample_other_ok war_reached). Defined.
